(* ===== verification/_CoqProject ===== *)
-Q . S2P
Prelude.v
PyState.v
PyOrder.v
PyText.v
Hashes.v
Params.v
Models.v
Serialization.v
Registry.v
Economics.v
Pow.v
Merkle.v
Crypto.v
Addresses.v
PqPolicy.v
Json.v
Settlement.v
Nodes.v
Utxo.v
UtxoStore.v
Headers.v
RewardStore.v
Validation.v
ValidationFacts.v
RegistryRules.v
ViewEquivalence.v
Mempool.v
MempoolFacts.v
PoolReconcile.v
Mining.v
MiningFacts.v
TemplateFacts.v
Service.v
ServiceRuns.v
Ledger.v
ChainFacts.v
Node.v
NodeFacts.v
NodeSettlements.v
Wire.v
WireFacts.v
Session.v
SessionFacts.v
Wallet.v
WalletFacts.v
WalletRegistry.v
Snapshots.v
SnapshotFacts.v
SnapshotFiles.v
SnapshotRoundtrip.v
SnapshotSigning.v
SnapshotNode.v
SnapshotTransfer.v
PeerBook.v
PeerPolicy.v
PeerFacts.v
PeerBans.v
Sync.v
SyncFacts.v
SyncDownloads.v
SyncMarks.v
Scenario.v
SyncScenario.v
MempoolScenario.v
MiningScenario.v
NodeScenario.v
SessionScenario.v
WalletScenario.v
SnapshotScenario.v
TransferScenario.v
PeerScenario.v
