(* ===== verification/Prelude.v ===== *)
(** * Chipcoin v2: a verification library for the node

    Chipcoin is a proof-of-work currency with a registry of reward nodes, written
    in Python under [src/src/chipcoin].  The library models its consensus rules,
    its tables and the parts of the node that decide what enters them, as
    executable functions, and proves what makes them correct.

    ** The program and the files that model it

    - [consensus/], the pure rules: [Models] (the dataclasses of [models.py]),
      [Serialization], [Hashes] ([hashes.py] and the digests of [hashlib], written
      out), [Params] ([params.py], [pq_activation.py]), [Economics], [Pow],
      [Merkle], [Utxo], [Registry] and [Nodes] ([nodes.py]), [Settlement]
      ([epoch_settlement.py]), [Validation].
    - [crypto/]: [Crypto] (keys, signatures, signature schemes) and [Addresses].
    - [storage/]: [UtxoStore] ([chainstate.py], [node_registry.py]), [Headers]
      ([headers.py], [blocks.py]), [RewardStore] ([native_rewards.py]), and the
      table of [Mempool] ([storage/mempool.py]).
    - [pq/policy.py]: [PqPolicy].
    - [node/]: [Service] (the active chain of [service.py]: [apply_block] and
      [activate_chain]), [Sync] ([sync.py] and the locator methods of the service),
      [Mempool] ([mempool.py]), [Mining] ([mining.py]), [Node] (the methods of
      [service.py] in which chain, pool and templates meet), [Snapshots]
      ([snapshots.py]) and [SnapshotNode] (export and import by the service).
    - [node/p2p/]: [Wire] (messages, their codec, framing) and [Session] (the
      protocol of one connection).
    - [node/peers.py], [storage/peers.py]: [PeerBook], with the operations of the
      service; [PeerPolicy] (how [runtime.py] judges peers: [errors.py],
      misbehaviour, bans, back-off, upkeep of the book).
    - [wallet/]: [Wallet] (keys, coin selection, signing).
    - Shared: [Prelude] (exceptions as values of a result monad, folds,
      dictionaries), [PyState] (methods that update their object and may raise,
      with a program logic), [PyOrder] (comparison and [sorted]), [PyText] (text,
      bytes, [struct]), [Json] ([json] and the conversions of its values).

    A node keeps its state in SQLite tables, which are finite maps here.  A block
    from a peer goes through [Sync.receive_block], which stores it and activates
    the best branch that is complete through [Node.node_activate_chain]; a mined
    block comes back in answer to a template ([Node.submit_mined_block]) and goes
    through [Node.node_apply_block].  The two change the chain as
    [Service.activate_chain] and [Service.apply_block] do, reconcile the pool and
    drop the templates.  Both validate with [Validation]
    against a view of the unspent outputs ([Utxo]) and of the registry
    ([Registry]): the contracts of the two views are the type classes [UtxoView] and
    [NodeRegistryView] with their laws, the validation theorems are proved against
    them, and the in-memory, overlay and SQLite views are instances.  The mempool
    validates with the same rules over the chain state with the pending
    transactions applied.

    ** What the theorems show

    - The chain ([ServiceRuns], [Ledger], [ChainFacts]): in every state that
      extensions and reorganisations that return and received headers and blocks
      lead to, the persisted outputs and registry are the ledger of the stored
      blocks of the active branch applied from nothing; the supply is within what
      the schedule minted; the registry is well formed; what an activation reports
      is what it did.  [ServiceRuns] says what the writes of a block and of a branch
      come to when none is interrupted; an interrupted one is a [torn_step].
    - Validation ([ValidationFacts], [RegistryRules], [ViewEquivalence]): value is
      conserved, spends are authorised, blocks cannot inflate, the coinbase is
      exact, nothing is spent or recorded twice, the registry is under its owners'
      control, and the verdict does not depend on the kind of view.
    - Synchronization ([SyncFacts], [SyncDownloads], [SyncMarks], [SyncScenario]):
      the manager changes the chain only through its steps, completed or torn; its
      state stays well formed; ingested headers are checked; the mutual recursion of
      the reception of blocks ends; downloads are bounded, exclusive and make
      progress; a refused branch stays refused, the valid part of it included; and
      two concrete runs show how unchecked work and a forged child stop a node.
    - The mempool ([MempoolFacts], [PqPolicy]): no two pending transactions ever
      conflict, what is accepted was validated and meets the policy, eviction keeps
      the best, and post-quantum verification is bounded in advance.
    - Blocks to mine ([MiningFacts], [TemplateFacts], [MiningScenario]): the
      selection from the pool ends, respects the limits and the order of parents,
      goes by fee rate and leaves out only what does not fit; the coinbase of a
      template is what validation asks for, when the settlement it includes is
      complete; two concrete settlements show what anyone may submit.
    - The node ([PoolReconcile], [NodeFacts], [NodeSettlements], [NodeScenario]):
      the pool is free of conflicts in every run and follows the chain, the chain is
      consistent until an exception interrupts its writes, such an exception leaves
      a block half applied, a mined block is accepted only in answer to a live
      template, and a partial settlement in the pool holds up the block that closes
      an epoch.
    - Snapshots ([SnapshotFacts], [SnapshotFiles], [SnapshotRoundtrip],
      [SnapshotSigning], [SnapshotTransfer]): a snapshot that loads has a checked
      header chain, in enforce mode one that a trusted key signed; files of both
      formats give back what they were made of and stay valid when they are signed;
      a node that imports the file of another has its chain, outputs and registry,
      but keeps an index of transactions it had cached.
    - Peers ([WireFacts], [SessionFacts]): what is sent over a stream arrives, the
      handshake is complete only after the frames it needs were read and written and
      completes between honest peers, and a payload that
      does not decode stops the reader without closing the session.
    - The peer book ([PeerFacts], [PeerBans]): its table follows it as long as calls
      return, so that a restart loses nothing; a ban holds for every port of the host; a
      completed handshake forgets misbehaviour.
    - The wallet ([WalletFacts], [WalletRegistry]): payments and registrations it
      builds are accepted by the validation rules, and the selection of inputs is
      minimal.
    - Encodings and identifiers ([Serialization], [Merkle], [Addresses], [Pow],
      [Settlement], [Crypto]): decoding inverts encoding, identifiers and the Merkle
      root bind what they hash up to an explicit collision, loops driven by the wire
      end, signatures are low-S.
    - Money ([Economics], [Settlement]): the schedule's totals and cap, the exact
      split of an epoch's pool and the quorum behind it.
    - The files named [Scenario] evaluate the code on a small network, with a toy instance of the signature backend, and apply the
      theorems to it.

    ** Conventions

    Python integers are [Z]; where a width matters ([struct] codes, SQLite columns)
    the encoder raises what Python raises out of range.  [str] is the list of its
    code points, [bytes] a list of bytes, a frozen dataclass a record, an exception
    the value [Raise] with its class and message; a [try] names the classes it
    catches.  A method that mutates its object runs in [stm], where writes made
    before an exception remain.  A call of a repository is one database transaction:
    it changes its table or, when it raises, nothing, and it commits alone, also
    inside the [sqlite_transaction] of [apply_block] and [activate_chain], which
    begins no transaction of its own ([storage/db.py]); so an exception in the middle
    of these keeps what was written before it.  The import of a snapshot begins with
    a statement of its own and is one transaction.  Code outside
    the repository is a parameter: the [cryptography] package and the ML-DSA
    extension are the class [CryptoBackend] with the documented laws [CryptoLaws],
    [gzip] and Ed25519 the class [SnapshotBackend] with [SnapshotLaws],
    the [repr] of floats and containers is [PyRepr], clocks are functions.

    Recursion that is not structural takes a bound: [merkle_loop] (the length of
    the level), [uncapped_loop] and [cap_search] (logarithms of the subsidy and of
    the height), the JSON scanner (the length of the text), [path_to_root] (the
    number of headers), [receive_loop] (the number of orphan buckets and two),
    [select_loop] (the number of candidates and one), the [synchronize] loop (its caller's bound).  Theorems show that the bound is never
    what stops them, or state the recursive equation without it.

    ** Not modelled, and why

    Sockets, timeouts, name resolution and the event loop ([node/runtime.py] but for
    what [PeerPolicy] holds, and [discovery.py]), the HTTP and command-line interfaces but for the command that signs
    snapshots, presentation and reports of the service, the miner's client, the
    off-chain reward observer, post-quantum readiness reports, scripts and logging
    act on the outside world or format what the model computes.  The other caches of
    the service, its diagnostics and the timing counters of the mempool do not influence the results
    modelled; the cached reward state of the service, which is kept for a tip, is read from the
    tables here, which is the same until the writes of a block are interrupted.  Python's recursion limit and memory are not modelled. *)

From stdpp Require Export base gmap list strings sorting.
From Stdlib Require Export ZArith Lia.
From coqutil Require Export Byte.

Open Scope Z_scope.
#[export] Set Warnings "-clear-no-such-hyp".

(** ** Python exceptions

    [exn_class] lists the exception classes that the modelled code raises or
    catches; [isinstance] is Python's subclass test between them.  [OutOfFuel]
    is the only class Python does not have: a bounded recursion raises it when
    its bound is exhausted, and each such bound comes with a theorem that it
    never is. *)

Inductive exn_class : Set :=
| ValueError
| UnicodeError
| JSONDecodeError
| PQPolicyError
| StructError
| LookupError
| KeyError
| IndexError
| TypeError
| OverflowError
| RuntimeError
| NotImplementedError
| MLDsaBackendUnavailable
| ValidationError
| StatelessValidationError
| ContextualValidationError
| IntegrityError
| AttributeError
| ZeroDivisionError
| P2PError
| CodecError
| WrongNetworkMagicError
| MalformedMessageError
| ChecksumError
| ProtocolError
| HandshakeFailedError
| ProtocolTimeoutError
| BlockRequestStalledError
| DuplicateConnectionError
| InvalidBlockError
| InvalidTxError
| TransportError
| ConnectionClosedError
| TransportTimeoutError
| ConnectionFailedError
| OutOfFuel.

#[global] Instance exn_class_eq_dec : EqDecision exn_class.
Proof. solve_decision. Defined.

(** The listed classes that [c] inherits from *)
Definition bases (c : exn_class) : list exn_class :=
  match c with
  | UnicodeError | JSONDecodeError | PQPolicyError => [ValueError]
  | KeyError | IndexError => [LookupError]
  | MLDsaBackendUnavailable | NotImplementedError => [RuntimeError]
  | StatelessValidationError | ContextualValidationError => [ValidationError]
  | CodecError => [P2PError; ValueError]
  | WrongNetworkMagicError | MalformedMessageError | ChecksumError => [CodecError; P2PError; ValueError]
  | ProtocolError | TransportError => [P2PError]
  | HandshakeFailedError | ProtocolTimeoutError | DuplicateConnectionError | InvalidBlockError | InvalidTxError => [ProtocolError; P2PError]
  | BlockRequestStalledError => [ProtocolTimeoutError; ProtocolError; P2PError]
  | ConnectionClosedError | TransportTimeoutError | ConnectionFailedError => [TransportError; P2PError]
  | _ => []
  end.

Definition isinstance (c base : exn_class) : bool := bool_decide (c = base) || bool_decide (base ∈ bases c).

(** An exception value: its class and its message. *)
Record exn : Set := Exn { exn_cls : exn_class; exn_msg : string }.

#[global] Instance exn_eq_dec : EqDecision exn.
Proof. solve_decision. Defined.

(** ** The result monad

    A Python call either returns a value or raises. *)

Inductive res (A : Type) : Type :=
| Ok (a : A)
| Raise (e : exn).
Arguments Ok {A} a.
Arguments Raise {A} e.

#[global] Instance res_eq_dec {A} `{EqDecision A} : EqDecision (res A).
Proof. solve_decision. Defined.

Definition raise {A} (c : exn_class) (msg : string) : res A := Raise (Exn c msg).

Definition rbind {A B} (m : res A) (k : A -> res B) : res B :=
  match m with
  | Ok a => k a
  | Raise e => Raise e
  end.

Declare Scope py_scope.
Delimit Scope py_scope with py.
Notation "'let*' x ':=' m 'in' k" := (rbind m (fun x => k))
  (at level 10, x name, m at level 100, k at level 200,
   format "'[v' 'let*'  x  ':='  m  'in' '//' k ']'") : py_scope.
Notation "'let*' ' p ':=' m 'in' k" := (rbind m (fun p => k))
  (at level 10, p strict pattern, m at level 100, k at level 200) : py_scope.
Notation "m ';;' k" := (rbind m (fun _ : unit => k))
  (at level 100, k at level 200) : py_scope.
Open Scope py_scope.

(** [try m except base: h e] *)
Definition try_except {A} (m : res A) (base : exn_class) (h : exn -> res A) : res A :=
  match m with
  | Ok a => Ok a
  | Raise e => if isinstance (exn_cls e) base then h e else Raise e
  end.

(** The statement [if b: raise c(msg)]. *)
Definition raise_if (b : bool) (c : exn_class) (msg : string) : res unit :=
  if b then raise c msg else Ok tt.

(** The returned value, or [d] *)
Definition ok_or {A} (m : res A) (d : A) : A := match m with Ok a => a | Raise _ => d end.

Definition is_ok {A} (m : res A) : bool := match m with Ok _ => true | Raise _ => false end.

(** Loops.  [foldM] is [for x in xs: s = body(s, x)], [mapM] a list
    comprehension whose body may raise, [for_each] a loop run for its
    exceptions only. *)
Fixpoint foldM {A S} (body : S -> A -> res S) (s : S) (xs : list A) : res S :=
  match xs with
  | [] => Ok s
  | x :: xs' => let* s' := body s x in foldM body s' xs'
  end.

Fixpoint mapM {A B} (f : A -> res B) (xs : list A) : res (list B) :=
  match xs with
  | [] => Ok []
  | x :: xs' => let* y := f x in let* ys := mapM f xs' in Ok (y :: ys)
  end.

Fixpoint for_each {A} (f : A -> res unit) (xs : list A) : res unit :=
  match xs with
  | [] => Ok tt
  | x :: xs' => f x ;; for_each f xs'
  end.

(** A list comprehension with a condition that may raise *)
Fixpoint filterM {A} (p : A -> res bool) (l : list A) : res (list A) :=
  match l with
  | [] => Ok []
  | x :: l' => let* keep := p x in let* rest := filterM p l' in Ok (if keep then x :: rest else rest)
  end.

(** [enumerate(xs, start)] *)
Fixpoint enumerate_from {A} (i : Z) (xs : list A) : list (Z * A) :=
  match xs with
  | [] => []
  | x :: xs' => (i, x) :: enumerate_from (i + 1) xs'
  end.
Definition enumerate {A} (xs : list A) : list (Z * A) := enumerate_from 0 xs.

(** [len(xs)], [sum(xs)], [range(n)] *)
Definition len {A} (xs : list A) : Z := Z.of_nat (length xs).
Arguments len : simpl never.
Definition zsum (xs : list Z) : Z := foldr Z.add 0 xs.
Definition zrange (n : Z) : list Z := Z.of_nat <$> seq 0 (Z.to_nat n).

(** ** Lemmas on the monad *)

Lemma rbind_Ok {A B} (m : res A) (k : A -> res B) b :
  rbind m k = Ok b <-> exists a, m = Ok a /\ k a = Ok b.
Proof. destruct m; simpl; naive_solver. Qed.

Lemma rbind_assoc {A B C} (m : res A) (f : A -> res B) (g : B -> res C) :
  rbind (rbind m f) g = rbind m (fun a => rbind (f a) g).
Proof. by destruct m. Qed.

Lemma rbind_ext {A B} (m : res A) (k1 k2 : A -> res B) : (forall a, k1 a = k2 a) -> rbind m k1 = rbind m k2.
Proof. intros E. destruct m; simpl; [apply E|reflexivity]. Qed.

Lemma raise_if_Ok b c msg u : raise_if b c msg = Ok u <-> b = false.
Proof. destruct b, u; simpl; naive_solver. Qed.

Lemma try_except_Ok {A} (m : res A) base h a :
  try_except m base h = Ok a <->
  m = Ok a \/ exists e, m = Raise e /\ isinstance (exn_cls e) base = true /\ h e = Ok a.
Proof.
  destruct m as [a'|e]; unfold try_except; [naive_solver|].
  destruct (isinstance (exn_cls e) base) eqn:E; split.
  - intros Hh. right. by exists e.
  - intros [?|(e' & He & _ & Hh)]; [done|]. by injection He as <-.
  - done.
  - intros [?|(e' & He & Hi & _)]; [done|]. injection He as <-. congruence.
Qed.

(** A handler that only re-raises does not change what succeeds. *)
Lemma try_reraise_Ok {A} (m : res A) base (c : exn_class) (f : exn -> string) a :
  try_except m base (fun e => raise c (f e)) = Ok a <-> m = Ok a.
Proof. rewrite try_except_Ok. split; [|by left]. intros [?|(e & _ & _ & ?)]; done. Qed.

(** [inv_ok] takes apart every hypothesis saying that a composed computation
    returned. *)
Ltac inv_ok_step :=
  match goal with
  | H : Ok _ = Ok _ |- _ => injection H as H; try subst
  | H : Raise _ = Ok _ |- _ => discriminate H
  | H : Ok _ = Raise _ |- _ => discriminate H
  | H : raise _ _ = Ok _ |- _ => discriminate H
  | H : raise_if _ _ _ = Ok _ |- _ => apply raise_if_Ok in H
  | H : try_except _ _ (fun e => raise _ _) = Ok _ |- _ => apply try_reraise_Ok in H
  | H : rbind _ _ = Ok _ |- _ =>
      apply rbind_Ok in H; let a := fresh "a" in let E := fresh "E" in
      destruct H as (a & E & H); cbv beta iota zeta in H
  | H : (if ?b then _ else _) = Ok _ |- _ => destruct b eqn:?
  | H : (let (_, _) := ?x in _) = Ok _ |- _ => destruct x eqn:?
  | H : match ?x with _ => _ end = Ok _ |- _ => destruct x eqn:?
  end.
Ltac inv_ok := repeat (inv_ok_step; simplify_eq).

(** [bool_prop] turns boolean tests of the code into propositions. *)
Ltac bool_prop :=
  repeat match goal with
  | H : andb _ _ = true |- _ => apply andb_prop in H as [??]
  | H : orb _ _ = false |- _ => apply orb_false_elim in H as [??]
  | H : negb _ = true |- _ => apply negb_true_iff in H
  | H : negb _ = false |- _ => apply negb_false_iff in H
  | H : (_ <? _) = true |- _ => apply Z.ltb_lt in H
  | H : (_ <? _) = false |- _ => apply Z.ltb_ge in H
  | H : (_ <=? _) = true |- _ => apply Z.leb_le in H
  | H : (_ <=? _) = false |- _ => apply Z.leb_gt in H
  | H : (_ >? _) = true |- _ => rewrite Z.gtb_ltb in H
  | H : (_ >? _) = false |- _ => rewrite Z.gtb_ltb in H
  | H : (_ =? _) = true |- _ => apply Z.eqb_eq in H
  | H : (_ =? _) = false |- _ => apply Z.eqb_neq in H
  | H : bool_decide _ = true |- _ => apply bool_decide_eq_true in H
  | H : bool_decide _ = false |- _ => apply bool_decide_eq_false in H
  end.

Lemma foldM_app {A S} (f : S -> A -> res S) s xs ys :
  foldM f s (xs ++ ys) = rbind (foldM f s xs) (fun s' => foldM f s' ys).
Proof. revert s. induction xs as [|x xs IH]; intros s; simpl; [done|]. by destruct (f s x); simpl. Qed.

(** Rule of a loop with an invariant. *)
Lemma foldM_inv {A S} (I : S -> Prop) (f : S -> A -> res S) s s' xs :
  (forall s1 x s2, x ∈ xs -> I s1 -> f s1 x = Ok s2 -> I s2) ->
  I s -> foldM f s xs = Ok s' -> I s'.
Proof.
  revert s. induction xs as [|x xs IH]; simpl; intros s Hstep Hs Hf; inv_ok; [done|].
  eapply IH; [|by eapply Hstep; [left|..]|done].
  intros; eapply Hstep; [by right|done..].
Qed.

Lemma mapM_Forall2 {A B} (f : A -> res B) xs ys :
  mapM f xs = Ok ys <-> Forall2 (fun x y => f x = Ok y) xs ys.
Proof.
  revert ys. induction xs as [|x xs IH]; simpl; intros ys; split; intros H.
  - inv_ok. constructor.
  - by inversion H.
  - inv_ok. constructor; [done|]. by apply IH.
  - inversion H as [|? y ? ys' Hy Hys]; subst. rewrite Hy. simpl.
    apply IH in Hys as ->. done.
Qed.

Lemma mapM_length {A B} (f : A -> res B) xs ys : mapM f xs = Ok ys -> length ys = length xs.
Proof. intros H%mapM_Forall2%Forall2_length. done. Qed.

Lemma for_each_Ok {A} (f : A -> res unit) xs u :
  for_each f xs = Ok u <-> Forall (fun x => f x = Ok tt) xs.
Proof.
  destruct u. induction xs as [|x xs IH]; simpl; [naive_solver|].
  rewrite rbind_Ok, Forall_cons. split.
  - intros ([] & ? & ?). naive_solver.
  - intros [? ?]. exists tt. naive_solver.
Qed.

Lemma filterM_spec {A} (p : A -> res bool) l l' :
  filterM p l = Ok l' -> l' = filter (fun x => p x = Ok true) l.
Proof.
  revert l'. induction l as [|x l IH]; simpl; intros l' H; [by inv_ok|].
  apply rbind_Ok in H as (keep & Hk & H). apply rbind_Ok in H as (rest & Hr & H). injection H as <-.
  apply IH in Hr as ->. rewrite filter_cons, Hk. destruct keep; case_decide; congruence.
Qed.

Lemma filterM_total {A} (p : A -> res bool) l :
  Forall (fun x => is_ok (p x) = true) l -> exists l', filterM p l = Ok l'.
Proof.
  induction 1 as [|x l Hx _ [l' IH]]; simpl; [eauto|]. destruct (p x) as [keep|]; [|done]. simpl. rewrite IH. simpl. eauto.
Qed.

(** ** Sums and ranges *)

Lemma zsum_app l1 l2 : zsum (l1 ++ l2) = zsum l1 + zsum l2.
Proof. unfold zsum. induction l1 as [|x l1 IH]; simpl; lia. Qed.

Lemma zrange_succ n : 0 <= n -> zrange (n + 1) = zrange n ++ [n].
Proof.
  intros H. unfold zrange. rewrite Z2Nat.inj_add, Nat.add_1_r, seq_S, fmap_app by lia.
  simpl. by rewrite Z2Nat.id by lia.
Qed.

Lemma enumerate_from_fst {A} i (l : list A) : (enumerate_from i l).*1 = (fun n => i + Z.of_nat n) <$> seq 0 (length l).
Proof.
  revert i. induction l as [|x l IH]; intros i; [done|]. csimpl. rewrite IH. f_equal; [lia|].
  rewrite <- fmap_S_seq, <- list_fmap_compose. apply list_fmap_ext. intros ? n _. simpl. lia.
Qed.

Lemma enumerate_fst {A} (l : list A) : (enumerate l).*1 = zrange (len l).
Proof.
  unfold enumerate, zrange, len. rewrite enumerate_from_fst, Nat2Z.id.
  apply list_fmap_ext. intros. lia.
Qed.

Lemma enumerate_from_snd {A} i (l : list A) : (enumerate_from i l).*2 = l.
Proof. revert i. induction l as [|x l IH]; intros i; [done|]. csimpl. by rewrite IH. Qed.

Lemma fmap_enumerate_fst {A B} (f : Z -> B) (g : Z * A -> B) (l : list A) :
  (forall p, g p = f p.1) -> g <$> enumerate l = f <$> zrange (len l).
Proof.
  intros Hg. rewrite <- enumerate_fst, <- list_fmap_compose. apply list_fmap_ext. intros. apply Hg.
Qed.

Lemma fmap_enumerate_snd {A B} (f : A -> B) (g : Z * A -> B) (l : list A) :
  (forall p, g p = f p.2) -> g <$> enumerate l = f <$> l.
Proof.
  intros Hg. rewrite <- (enumerate_from_snd 0 l) at 2. rewrite <- list_fmap_compose.
  apply list_fmap_ext. intros. apply Hg.
Qed.

(** ** Python dictionaries with their insertion order *)

Section dict.
Context {K V : Type} `{EqDecision K}.

(** [d.get(k)] *)
Fixpoint dict_get (d : list (K * V)) (k : K) : option V :=
  match d with
  | [] => None
  | (k', v) :: d' => if decide (k' = k) then Some v else dict_get d' k
  end.

(** [d[k] = v]: an existing key keeps its position. *)
Fixpoint dict_set (d : list (K * V)) (k : K) (v : V) : list (K * V) :=
  match d with
  | [] => [(k, v)]
  | (k', v') :: d' => if decide (k' = k) then (k', v) :: d' else (k', v') :: dict_set d' k v
  end.

Lemma dict_get_set_eq d k v : dict_get (dict_set d k v) k = Some v.
Proof.
  induction d as [|[k' v'] d IH]; simpl; [by rewrite decide_True|].
  destruct (decide (k' = k)) eqn:E; simpl; rewrite E; done.
Qed.

Lemma dict_get_set_ne d k k' v : k ≠ k' -> dict_get (dict_set d k v) k' = dict_get d k'.
Proof.
  intros Hne. induction d as [|[k'' v'] d IH]; simpl; [by rewrite decide_False|].
  destruct (decide (k'' = k)); simpl; [subst; by rewrite !decide_False|].
  by destruct (decide (k'' = k')).
Qed.

Lemma dict_set_keys d k v :
  (dict_set d k v).*1 = if decide (k ∈ d.*1) then d.*1 else d.*1 ++ [k].
Proof.
  induction d as [|[k' v'] d IH]; csimpl; [done|].
  destruct (decide (k' = k)) as [->|Hne]; csimpl; [by rewrite decide_True by left|].
  rewrite IH. destruct (decide (k ∈ d.*1)) as [Hin|Hin].
  - by rewrite decide_True by by right.
  - rewrite decide_False; [done|]. by intros [?|?]%elem_of_cons; [congruence|].
Qed.

Lemma dict_set_NoDup d k v : NoDup d.*1 -> NoDup (dict_set d k v).*1.
Proof.
  intros H. rewrite dict_set_keys. destruct (decide (k ∈ d.*1)); [done|].
  apply NoDup_app. split; [done|]. split; [|apply NoDup_singleton]. set_solver.
Qed.

Lemma dict_get_elem d k v : dict_get d k = Some v -> (k, v) ∈ d.
Proof.
  induction d as [|[k' v'] d IH]; simpl; [done|].
  destruct (decide (k' = k)) as [->|]; [intros [= ->]; by left|right; auto].
Qed.

Lemma dict_get_NoDup d k v : NoDup d.*1 -> (k, v) ∈ d -> dict_get d k = Some v.
Proof.
  induction d as [|[k' v'] d IH]; csimpl; [set_solver|].
  intros [Hn Hd]%NoDup_cons [[= -> ->]|Hin]%elem_of_cons; [by rewrite decide_True|].
  rewrite decide_False; [auto|]. intros ->. apply Hn. apply list_elem_of_fmap. by exists (k, v).
Qed.

Lemma dict_set_elem d k v kv : kv ∈ dict_set d k v -> kv = (k, v) \/ kv ∈ d.
Proof.
  induction d as [|[k' v'] d IH]; simpl; [set_solver|].
  destruct (decide (k' = k)) as [->|]; set_solver.
Qed.
End dict.

(** ** Runs of a step relation *)

Lemma rtc_preserved {A} (P : A -> Prop) (step : relation A) :
  (forall a a', step a a' -> P a -> P a') -> forall a a', rtc step a a' -> P a -> P a'.
Proof. intros Hs a a' R. induction R as [|a a1 a2 Hstep _ IH]; [done|]. intros Ha. eapply IH, Hs, Ha. exact Hstep. Qed.

(** ** Bounds of recursions that are never exhausted *)

Definition no_fuel_error {A} (m : res A) : Prop := forall msg, m ≠ Raise (Exn OutOfFuel msg).

Lemma no_fuel_error_bind {A B} (m : res A) (k : A -> res B) :
  no_fuel_error m -> (forall a, m = Ok a -> no_fuel_error (k a)) -> no_fuel_error (rbind m k).
Proof. intros Hm Hk. destruct m as [a|e]; simpl; [by apply Hk|]. intros msg E. injection E as ->. by eapply Hm. Qed.

Lemma no_fuel_error_Ok {A} (a : A) : no_fuel_error (Ok a).
Proof. done. Qed.
Lemma no_fuel_error_raise {A} c msg : c ≠ OutOfFuel -> no_fuel_error (@raise A c msg).
Proof. intros Hc msg' E. injection E as ->. done. Qed.

Create HintDb no_fuel.
Ltac no_fuel :=
  repeat match goal with
  | |- no_fuel_error (Ok _) => apply no_fuel_error_Ok
  | |- no_fuel_error (raise _ _) => apply no_fuel_error_raise; discriminate
  | |- no_fuel_error (rbind _ _) => apply no_fuel_error_bind; [|intros ? ?]
  | |- no_fuel_error (match _ with _ => _ end) => case_match
  | |- no_fuel_error _ => solve [eauto with no_fuel]
  end.
