(* ===== verification/PyState.v ===== *)
(** * Statements that update an object and may raise

    A method that mutates its object runs in [stm S]: it returns a value or an
    exception, and in both cases the object as it is then.  What was written before
    an exception stays written, as in the source.  [triple] is the logic of such
    statements and [keeps] its special case of an invariant. *)

From S2P Require Import Prelude.

Definition stm (S A : Type) : Type := S -> res A * S.

Section monad.
Context {S : Type}.

Definition ret {A} (a : A) : stm S A := fun s => (Ok a, s).
Definition throw {A} (c : exn_class) (msg : string) : stm S A := fun s => (raise c msg, s).
Definition sbind {A B} (m : stm S A) (k : A -> stm S B) : stm S B :=
  fun s => match m s with (Ok a, s') => k a s' | (Raise e, s') => (Raise e, s') end.

(** A call that does not touch the object *)
Definition lift {A} (m : res A) : stm S A := fun s => (m, s).
Definition gets {A} (f : S -> A) : stm S A := fun s => (Ok (f s), s).
Definition asks {A} (f : S -> res A) : stm S A := fun s => (f s, s).
Definition modify (f : S -> S) : stm S unit := fun s => (Ok tt, f s).

(** A write that happens only when the call returns *)
Definition update {A} (f : S -> res (A * S)) : stm S A :=
  fun s => match f s with Ok (a, s') => (Ok a, s') | Raise e => (Raise e, s) end.

(** [try: m except classes as e: h e] *)
Definition attempt {A} (m : stm S A) (classes : list exn_class) (h : exn -> stm S A) : stm S A :=
  fun s => match m s with
           | (Ok a, s') => (Ok a, s')
           | (Raise e, s') => if existsb (isinstance (exn_cls e)) classes then h e s' else (Raise e, s')
           end.

(** [for x in xs: acc = body(acc, x)] *)
Fixpoint sfold {A X} (body : A -> X -> stm S A) (acc : A) (xs : list X) : stm S A :=
  match xs with
  | [] => ret acc
  | x :: xs' => sbind (body acc x) (fun acc' => sfold body acc' xs')
  end.
End monad.

Notation "'let!' x ':=' m 'in' k" := (sbind m (fun x => k))
  (at level 10, x name, m at level 100, k at level 200,
   format "'[v' 'let!'  x  ':='  m  'in' '//' k ']'") : py_scope.
Notation "'do!' m 'in' k" := (sbind m (fun _ : unit => k)) (at level 10, m at level 100, k at level 200) : py_scope.

(** ** Triples

    [triple P m Q E]: from an object where [P] holds, [m] returns a value and an
    object that satisfy [Q], or raises an exception and leaves an object that
    satisfy [E]. *)

Section triples.
Context {S : Type}.
Implicit Types (P I : S -> Prop) (E : exn -> S -> Prop).

Definition triple {A} P (m : stm S A) (Q : A -> S -> Prop) E : Prop :=
  forall s, P s -> match m s with (Ok a, s') => Q a s' | (Raise e, s') => E e s' end.

Lemma triple_consequence {A} P P' (m : stm S A) (Q Q' : A -> S -> Prop) E E' :
  (forall s, P' s -> P s) -> (forall a s, Q a s -> Q' a s) -> (forall e s, E e s -> E' e s) ->
  triple P m Q E -> triple P' m Q' E'.
Proof. intros HP HQ HE Hm s Hs. specialize (Hm s (HP s Hs)). destruct (m s) as [[a|e] s']; auto. Qed.

Lemma triple_pre {A} P P' (m : stm S A) (Q : A -> S -> Prop) E :
  (forall s, P' s -> P s) -> triple P m Q E -> triple P' m Q E.
Proof. intros HP Hm s Hs. apply Hm. auto. Qed.

Lemma triple_ret {A} (a : A) (Q : A -> S -> Prop) E : triple (Q a) (ret a) Q E.
Proof. by intros s Hs. Qed.

Lemma triple_throw {A} c msg (Q : A -> S -> Prop) E : triple (E (Exn c msg)) (throw c msg) Q E.
Proof. by intros s Hs. Qed.

Lemma triple_asks {A} P (f : S -> res A) E :
  (forall e s, P s -> f s = Raise e -> E e s) -> triple P (asks f) (fun a s => P s /\ f s = Ok a) E.
Proof. intros HE s Hs. unfold asks. destruct (f s) as [a|e] eqn:Ef; auto. Qed.

Lemma triple_lift {A} P (m : res A) E :
  (forall e s, P s -> m = Raise e -> E e s) -> triple P (lift m) (fun a s => P s /\ m = Ok a) E.
Proof. intros HE s Hs. unfold lift. destruct m as [a|e]; auto. Qed.

Lemma triple_gets {A} P (f : S -> A) E : triple P (gets f) (fun a s => P s /\ a = f s) E.
Proof. by intros s Hs. Qed.

Lemma triple_modify P f (Q : unit -> S -> Prop) E : (forall s, P s -> Q tt (f s)) -> triple P (modify f) Q E.
Proof. intros Hf s Hs. by apply Hf. Qed.

Lemma triple_update {A} P (f : S -> res (A * S)) (Q : A -> S -> Prop) E :
  (forall s a s', P s -> f s = Ok (a, s') -> Q a s') -> (forall e s, P s -> f s = Raise e -> E e s) -> triple P (update f) Q E.
Proof. intros HQ HE s Hs. unfold update. destruct (f s) as [[a s']|e] eqn:Ef; eauto. Qed.

Lemma triple_bind {A B} P (m : stm S A) (k : A -> stm S B) R (Q : B -> S -> Prop) E :
  triple P m R E -> (forall a, triple (R a) (k a) Q E) -> triple P (sbind m k) Q E.
Proof.
  intros Hm Hk s Hs. unfold sbind. specialize (Hm s Hs). destruct (m s) as [[a|e] s']; [|done]. by apply Hk.
Qed.

Lemma triple_attempt {A} P (m : stm S A) classes h (Q : A -> S -> Prop) E E' :
  triple P m Q E' -> (forall e, existsb (isinstance (exn_cls e)) classes = true -> triple (E' e) (h e) Q E) ->
  (forall e s, existsb (isinstance (exn_cls e)) classes = false -> E' e s -> E e s) -> triple P (attempt m classes h) Q E.
Proof.
  intros Hm Hh He s Hs. unfold attempt. specialize (Hm s Hs). destruct (m s) as [[a|e] s']; [done|].
  destruct (existsb _ classes) eqn:Ec; [by apply Hh|by apply He].
Qed.

(** A call that does not write, followed by the rest *)
Lemma triple_read {A B} P (f : S -> res A) (k : A -> stm S B) (Q : B -> S -> Prop) E :
  (forall e s, P s -> E e s) -> (forall a, triple (fun s => P s /\ f s = Ok a) (k a) Q E) -> triple P (sbind (asks f) k) Q E.
Proof. intros HE Hk. eapply triple_bind; [apply triple_asks; auto|exact Hk]. Qed.

Lemma triple_call {A B} P (m : res A) (k : A -> stm S B) (Q : B -> S -> Prop) E :
  (forall e s, P s -> E e s) -> (forall a, m = Ok a -> triple P (k a) Q E) -> triple P (sbind (lift m) k) Q E.
Proof.
  intros HE Hk. eapply triple_bind; [apply triple_lift; auto|]. intros a s [Hs Hm]. by apply Hk.
Qed.

(** The rule of a loop: the invariant may mention what is left to visit. *)
Lemma triple_fold {A X} (I : A -> list X -> S -> Prop) (body : A -> X -> stm S A) xs acc E :
  (forall acc x xs', triple (I acc (x :: xs')) (body acc x) (fun acc' => I acc' xs') E) ->
  triple (I acc xs) (sfold body acc xs) (fun acc' => I acc' []) E.
Proof.
  intros Hb. revert acc. induction xs as [|x xs IH]; intros acc; simpl; [by intros s Hs|].
  eapply triple_bind; [apply Hb|]. apply IH.
Qed.

(** [m] keeps the invariant [I] and raises only what [F] allows. *)
Definition keeps {A} I (F : exn -> Prop) (m : stm S A) : Prop := triple I m (fun _ => I) (fun e s => I s /\ F e).

Lemma keeps_bind {A B} I F (m : stm S A) (k : A -> stm S B) :
  keeps I F m -> (forall a, keeps I F (k a)) -> keeps I F (sbind m k).
Proof. intros Hm Hk. exact (triple_bind _ _ _ _ _ _ Hm Hk). Qed.

Lemma keeps_ret {A} I F (a : A) : keeps I F (ret a).
Proof. by intros s Hs. Qed.
Lemma keeps_gets {A} I F (f : S -> A) : keeps I F (gets f).
Proof. by intros s Hs. Qed.
Lemma keeps_throw {A} I F c msg : F (Exn c msg) -> keeps (A := A) I F (throw c msg).
Proof. by intros HF s Hs. Qed.
Lemma keeps_asks {A} I (F : exn -> Prop) (f : S -> res A) :
  (forall s e, I s -> f s = Raise e -> F e) -> keeps I F (asks f).
Proof. intros HF s Hs. unfold asks. destruct (f s) eqn:Ef; eauto. Qed.
Lemma keeps_lift {A} I (F : exn -> Prop) (m : res A) : (forall e, m = Raise e -> F e) -> keeps I F (lift m).
Proof. intros HF s Hs. unfold lift. destruct m; eauto. Qed.
Lemma keeps_modify I F f : (forall s, I s -> I (f s)) -> keeps I F (modify f).
Proof. intros Hf s Hs. by apply Hf. Qed.
Lemma keeps_update {A} I (F : exn -> Prop) (f : S -> res (A * S)) :
  (forall s a s', I s -> f s = Ok (a, s') -> I s') -> (forall s e, I s -> f s = Raise e -> F e) -> keeps I F (update f).
Proof. intros Hf HF s Hs. unfold update. destruct (f s) as [[a s']|e] eqn:Ef; eauto. Qed.
Lemma keeps_fold {A X} I F (body : A -> X -> stm S A) xs acc :
  (forall acc x, x ∈ xs -> keeps I F (body acc x)) -> keeps I F (sfold body acc xs).
Proof.
  revert acc. induction xs as [|x xs IH]; intros acc Hb; simpl; [apply keeps_ret|].
  apply keeps_bind; [apply Hb; left|]. intros acc'. apply IH. intros. apply Hb. by right.
Qed.
Lemma keeps_attempt {A} I F (m : stm S A) classes h :
  keeps I F m -> (forall e, existsb (isinstance (exn_cls e)) classes = true -> keeps I F (h e)) -> keeps I F (attempt m classes h).
Proof.
  intros Hm Hh. eapply triple_attempt; [exact Hm|..].
  - intros e He s [Hs _]. by apply Hh.
  - by intros e s _ Hs.
Qed.

(** Two statements that do the same from the objects in [P], with a triple of both *)
Definition related {A} P (m1 m2 : stm S A) (Q : A -> S -> Prop) E : Prop :=
  (forall s, P s -> m1 s = m2 s) /\ triple P m1 Q E.

Lemma related_refl {A} P (m : stm S A) (Q : A -> S -> Prop) E : triple P m Q E -> related P m m Q E.
Proof. by split. Qed.

Lemma related_pre {A} P P' (m1 m2 : stm S A) (Q : A -> S -> Prop) E :
  (forall s, P' s -> P s) -> related P m1 m2 Q E -> related P' m1 m2 Q E.
Proof. intros HP [Ha Ht]. split; [auto|by eapply triple_pre]. Qed.

(** What the objects have in common may be used of the statements. *)
Lemma related_pure {A} (C : Prop) P (m1 m2 : stm S A) (Q : A -> S -> Prop) E :
  (forall s, P s -> C) -> (C -> related P m1 m2 Q E) -> related P m1 m2 Q E.
Proof. intros HC Hr. split; intros s Hs; [by apply Hr; [eapply HC|]|apply (Hr (HC s Hs)); done]. Qed.

Lemma related_consequence {A} P (m1 m2 : stm S A) (Q Q' : A -> S -> Prop) E E' :
  (forall a s, Q a s -> Q' a s) -> (forall e s, E e s -> E' e s) -> related P m1 m2 Q E -> related P m1 m2 Q' E'.
Proof. intros HQ HE [Ha Ht]. split; [done|]. eapply triple_consequence; [|exact HQ|exact HE|exact Ht]. auto. Qed.

Lemma related_bind {A B} P (m1 m2 : stm S A) (k1 k2 : A -> stm S B) R (Q : B -> S -> Prop) E :
  related P m1 m2 R E -> (forall a, related (R a) (k1 a) (k2 a) Q E) -> related P (sbind m1 k1) (sbind m2 k2) Q E.
Proof.
  intros [Ha Ht] Hk. split; [|eapply triple_bind; [exact Ht|intros a; apply Hk]]. intros s Hs. unfold sbind. rewrite <- (Ha s Hs).
  specialize (Ht s Hs). destruct (m1 s) as [[a|e] s']; [|done]. by apply (Hk a).
Qed.

Lemma related_read {A B} P (f : S -> res A) (k1 k2 : A -> stm S B) (Q : B -> S -> Prop) E :
  (forall e s, P s -> E e s) -> (forall a, related (fun s => P s /\ f s = Ok a) (k1 a) (k2 a) Q E) ->
  related P (sbind (asks f) k1) (sbind (asks f) k2) Q E.
Proof. intros HE Hk. eapply related_bind; [apply related_refl, triple_asks; auto|exact Hk]. Qed.

Lemma related_call {A B} P (m : res A) (k1 k2 : A -> stm S B) (Q : B -> S -> Prop) E :
  (forall e s, P s -> E e s) -> (forall a, m = Ok a -> related P (k1 a) (k2 a) Q E) ->
  related P (sbind (lift m) k1) (sbind (lift m) k2) Q E.
Proof.
  intros HE Hk. destruct m as [a|e]; [exact (Hk a eq_refl)|]. split; [done|]. intros s Hs. by apply HE.
Qed.

Lemma related_fold {A X} I (b1 b2 : A -> X -> stm S A) xs acc E :
  (forall acc x, x ∈ xs -> related I (b1 acc x) (b2 acc x) (fun _ => I) E) ->
  related I (sfold b1 acc xs) (sfold b2 acc xs) (fun _ => I) E.
Proof.
  revert acc. induction xs as [|x xs IH]; intros acc Hb; simpl; [apply related_refl; by intros s Hs|].
  eapply related_bind; [apply Hb; left|]. intros acc'. apply IH. intros. apply Hb. by right.
Qed.
End triples.

(** ** A part of the object

    A call of a component the object owns: it replaces that component when it
    returns, and changes nothing when it raises. *)

Definition on_part {S D} (get : S -> D) (put : S -> D -> S) (f : D -> res D) : stm S unit :=
  update (fun s => let* d := f (get s) in Ok (tt, put s d)).

Class Part {S D} (get : S -> D) (put : S -> D -> S) : Prop := {
  get_put s d : get (put s d) = d;
  put_put s d d' : put (put s d) d' = put s d';
  put_get s : put s (get s) = s;
}.

(** [m] does to the part what [f] does, and nothing else to the object; when it
    raises, the part is somewhere on the way. *)
Definition performs {S D} (get : S -> D) (put : S -> D -> S) (m : stm S unit) (f : D -> res D) : Prop :=
  forall s, match m s with
            | (Ok _, s') => exists d, f (get s) = Ok d /\ s' = put s d
            | (Raise e, s') => exists d, f (get s) = Raise e /\ s' = put s d
            end.

Section parts.
Context {S D : Type} (get : S -> D) (put : S -> D -> S) `{!Part get put}.
Abbreviation performs := (performs get put).

Lemma performs_ret a : performs (ret a) Ok.
Proof. intros s. exists (get s). by rewrite put_get. Qed.

Lemma performs_part f : performs (on_part get put f) f.
Proof.
  intros s. unfold on_part, update. destruct (f (get s)) as [d|e]; cbn [rbind]; [by exists d|]. exists (get s). by rewrite put_get.
Qed.

Lemma performs_bind m1 (m2 : unit -> stm S unit) f1 f2 :
  performs m1 f1 -> (forall u, performs (m2 u) f2) -> performs (sbind m1 m2) (fun d => rbind (f1 d) f2).
Proof.
  intros H1 H2 s. specialize (H1 s). unfold sbind. destruct (m1 s) as [[u|e] s1]; destruct H1 as (d & Hd & ->).
  - specialize (H2 u (put s d)). rewrite get_put in H2. rewrite Hd. cbn [rbind].
    destruct (m2 u (put s d)) as [[u'|e] s2]; destruct H2 as (d' & -> & ->); exists d'; by rewrite put_put.
  - exists d. by rewrite Hd.
Qed.

Lemma performs_call {A} (r : res A) (k : A -> stm S unit) f :
  (forall a, performs (k a) (f a)) -> performs (let! a := lift r in k a) (fun d => rbind r (fun a => f a d)).
Proof.
  intros Hk s. unfold sbind, lift. destruct r as [a|e]; cbn [rbind]; [apply Hk|]. exists (get s). by rewrite put_get.
Qed.

Lemma performs_fold {X} (body : unit -> X -> stm S unit) (f : D -> X -> res D) xs acc :
  (forall acc x, performs (body acc x) (fun d => f d x)) -> performs (sfold body acc xs) (fun d => foldM f d xs).
Proof.
  intros Hb. revert acc. induction xs as [|x xs IH]; intros acc; [apply performs_ret|].
  apply (performs_bind (body acc x) (fun acc => sfold body acc xs)); [apply Hb|exact IH].
Qed.

Lemma performs_Ok m f s d : performs m f -> f (get s) = Ok d -> m s = (Ok tt, put s d).
Proof. intros Hm Hd. specialize (Hm s). destruct (m s) as [[[]|e] s']; destruct Hm as (d' & Hf & ->); congruence. Qed.

Lemma performs_Raise m f s e : performs m f -> f (get s) = Raise e -> exists d, m s = (Raise e, put s d).
Proof. intros Hm Hd. specialize (Hm s). destruct (m s) as [[[]|e'] s']; destruct Hm as (d' & Hf & ->); [congruence|]. exists d'. congruence. Qed.

(** What depends on the rest of the object only is kept. *)
Lemma keeps_performed m f (I : S -> Prop) : performs m f -> (forall s d, I s -> I (put s d)) -> keeps I (fun _ => True) m.
Proof.
  intros Hm HI s Hs. specialize (Hm s). destruct (m s) as [[u|e] s']; destruct Hm as (d & _ & ->); auto.
Qed.
End parts.

(** ** The outcome of a statement as one expression

    [m] does what [f] says: it returns what [f] returns, in the object [f] gives, and
    raises what [f] raises. *)

Definition runs_as {S A} (m : stm S A) (f : S -> res (A * S)) : Prop :=
  forall s, match m s with (Ok a, s') => f s = Ok (a, s') | (Raise e, _) => f s = Raise e end.

Section runs.
Context {S : Type}.

Lemma runs_as_returns {A} (m : stm S A) f s a s' : runs_as m f -> m s = (Ok a, s') -> f s = Ok (a, s').
Proof. intros Hr E. specialize (Hr s). by rewrite E in Hr. Qed.

Lemma runs_as_ok {A} (m : stm S A) f s a s' : runs_as m f -> f s = Ok (a, s') -> m s = (Ok a, s').
Proof. intros Hr E. specialize (Hr s). destruct (m s) as [[a0|e] s0]; congruence. Qed.

Lemma runs_as_ret {A} (a : A) : runs_as (S := S) (ret a) (fun s => Ok (a, s)).
Proof. by intros s. Qed.

Lemma runs_as_throw {A} c msg : runs_as (S := S) (A := A) (throw c msg) (fun s => raise c msg).
Proof. by intros s. Qed.

Lemma runs_as_read {A B} (g : S -> res A) (k : A -> stm S B) f :
  (forall a, runs_as (k a) (f a)) -> runs_as (let! a := asks g in k a) (fun s => rbind (g s) (fun a => f a s)).
Proof. intros Hk s. unfold sbind, asks. destruct (g s) as [a|e]; cbn [rbind]; [apply Hk|done]. Qed.

Lemma runs_as_bind {A B} (m : stm S A) (k : A -> stm S B) f g :
  runs_as m f -> (forall a, runs_as (k a) (g a)) -> runs_as (sbind m k) (fun s => let* '(a, s') := f s in g a s').
Proof.
  intros Hm Hk s. specialize (Hm s). unfold sbind. destruct (m s) as [[a|e] s']; rewrite Hm; cbn [rbind]; [apply Hk|done].
Qed.
End runs.

Create HintDb keeps.
#[export] Hint Resolve keeps_ret keeps_gets : keeps.

Section any_exception.
Context {S : Type} (I : S -> Prop).

Lemma keeps_asks_any {A} (f : S -> res A) : keeps I (fun _ => True) (asks f).
Proof. by apply keeps_asks. Qed.
Lemma keeps_lift_any {A} (r : res A) : keeps I (fun _ => True) (lift r).
Proof. by apply keeps_lift. Qed.
Lemma keeps_throw_any {A} c msg : keeps I (fun _ => True) (throw (A := A) c msg).
Proof. by apply keeps_throw. Qed.
End any_exception.
#[export] Hint Resolve keeps_asks_any keeps_lift_any keeps_throw_any : keeps.

(** Takes a statement apart along an invariant; what the hints do not know is left. *)
Ltac keeps_step :=
  match goal with
  | |- keeps _ _ (sbind _ _) => apply keeps_bind; [|intros ?]
  | |- keeps _ _ (attempt _ _ _) => apply keeps_attempt; [|intros ? ?]
  | |- keeps _ _ (match ?x with _ => _ end) => destruct x
  | |- keeps _ _ _ => solve [eauto with keeps]
  end.
Ltac keeps := repeat keeps_step.

(** ** Dictionaries: [d.pop(k, None)] *)

Definition dict_pop {K V} `{EqDecision K} (d : list (K * V)) (k : K) : list (K * V) := filter (fun kv => kv.1 ≠ k) d.

Lemma dict_pop_elem {K V} `{EqDecision K} (d : list (K * V)) k kv : kv ∈ dict_pop d k <-> kv ∈ d /\ kv.1 ≠ k.
Proof. unfold dict_pop. rewrite list_elem_of_filter. tauto. Qed.

Lemma dict_pop_length {K V} `{EqDecision K} (d : list (K * V)) k : (length (dict_pop d k) <= length d)%nat.
Proof. unfold dict_pop. apply length_filter. Qed.

Lemma dict_pop_NoDup {A B} `{EqDecision A} (d : list (A * B)) k : NoDup d.*1 -> NoDup (dict_pop d k).*1.
Proof. intros Hd. eapply sublist_NoDup; [exact Hd|]. apply fmap_sublist, sublist_filter. Qed.

Lemma dict_pop_absent {A B} `{EqDecision A} (d : list (A * B)) k : k ∉ (dict_pop d k).*1.
Proof. intros ([k' v] & -> & Hin)%list_elem_of_fmap. by apply dict_pop_elem in Hin as [_ ?]. Qed.

Lemma dict_pop_shorter {A B} `{EqDecision A} (d : list (A * B)) k v :
  dict_get d k = Some v -> (length (dict_pop d k) < length d)%nat.
Proof.
  intros Hg%dict_get_elem. unfold dict_pop. eapply length_filter_lt; [exact Hg|]. simpl. tauto.
Qed.

Lemma dict_get_pop_ne {A B} `{EqDecision A} (d : list (A * B)) k k' : k' ≠ k -> dict_get (dict_pop d k) k' = dict_get d k'.
Proof.
  intros Hne. induction d as [|[k0 v] d IH]; [done|]. unfold dict_pop in *. rewrite filter_cons. simpl.
  destruct (decide (k0 = k')) as [->|]; case_decide as Hd; simpl; rewrite ?IH; try done; [by rewrite decide_True|by rewrite decide_False].
Qed.

Lemma dict_get_pop_eq {A B} `{EqDecision A} (d : list (A * B)) k : dict_get (dict_pop d k) k = None.
Proof. destruct (dict_get (dict_pop d k) k) as [v|] eqn:E; [|done]. apply dict_get_elem, dict_pop_elem in E as [_ E]. done. Qed.

Lemma dict_get_pops {A B} `{EqDecision A} (d : list (A * B)) ids k :
  dict_get (foldl dict_pop d ids) k = if decide (k ∈ ids) then None else dict_get d k.
Proof.
  revert d. induction ids as [|id ids IH]; intros d; simpl; [done|]. rewrite IH.
  destruct (decide (id = k)) as [->|Hne]; [rewrite dict_get_pop_eq|rewrite dict_get_pop_ne by done]; repeat case_decide; set_solver.
Qed.
