(* ===== verification/PyOrder.v ===== *)
(** * Python's ordering and [sorted]

    The comparison [<=] Python uses on integers, strings, bytes and tuples, as a
    type class with its laws, and the stable sort [sorted(xs, key=f)].  The
    sorting lemmas (permutation, sortedness, independence of the input order)
    are what makes the registry listing, the committee selection and the reward
    ranking deterministic. *)

From S2P Require Import Prelude.

Class PyOrd (K : Type) := py_leb : K -> K -> bool.

Class PyOrdLaws (K : Type) `{PyOrd K} := {
  py_leb_total : forall x y : K, py_leb x y = true \/ py_leb y x = true;
  py_leb_trans : forall x y z : K, py_leb x y = true -> py_leb y z = true -> py_leb x z = true;
  py_leb_antisym : forall x y : K, py_leb x y = true -> py_leb y x = true -> x = y;
}.

Definition py_le {K} `{PyOrd K} (x y : K) : Prop := py_leb x y = true.

#[global] Instance py_ord_Z : PyOrd Z := Z.leb.
#[global] Instance py_ord_Z_laws : PyOrdLaws Z.
Proof. split; unfold py_leb, py_ord_Z; intros *; rewrite ?Z.leb_le; lia. Qed.

#[global] Instance py_ord_byte : PyOrd byte :=
  fun a b => byte.unsigned a <=? byte.unsigned b.
#[global] Instance py_ord_byte_laws : PyOrdLaws byte.
Proof.
  split; unfold py_leb, py_ord_byte; intros *; rewrite ?Z.leb_le; try lia.
  intros ? ?. apply byte.unsigned_inj. lia.
Qed.

(** Strings, bytes and tuples of one type compare lexicographically. *)
Fixpoint lex_leb {K} `{PyOrd K} (xs ys : list K) : bool :=
  match xs, ys with
  | [], _ => true
  | _ :: _, [] => false
  | x :: xs', y :: ys' =>
      if py_leb x y then (if py_leb y x then lex_leb xs' ys' else true) else false
  end.
#[global] Instance py_ord_list {K} `{PyOrd K} : PyOrd (list K) := lex_leb.

Definition pair_leb {A B} `{PyOrd A, PyOrd B} (p q : A * B) : bool :=
  if py_leb p.1 q.1 then (if py_leb q.1 p.1 then py_leb p.2 q.2 else true) else false.
#[global] Instance py_ord_pair {A B} `{PyOrd A, PyOrd B} : PyOrd (A * B) := pair_leb.

Section laws.
Context {K} `{PyOrdLaws K}.

Lemma py_leb_refl (x : K) : py_leb x x = true.
Proof. by destruct (py_leb_total x x). Qed.

Lemma py_leb_false (x y : K) : py_leb x y = false -> py_leb y x = true.
Proof. destruct (py_leb_total x y); congruence. Qed.

Lemma lex_leb_total (xs ys : list K) : lex_leb xs ys = true \/ lex_leb ys xs = true.
Proof.
  revert ys. induction xs as [|x xs IH]; intros [|y ys]; simpl; auto.
  destruct (py_leb x y) eqn:E1, (py_leb y x) eqn:E2; auto.
  destruct (py_leb_total x y); congruence.
Qed.

Lemma lex_leb_trans (xs ys zs : list K) :
  lex_leb xs ys = true -> lex_leb ys zs = true -> lex_leb xs zs = true.
Proof.
  revert ys zs. induction xs as [|x xs IH]; intros [|y ys] [|z zs]; simpl; auto; [done..|].
  destruct (py_leb x y) eqn:E1; [|done].
  destruct (py_leb y z) eqn:E2; [|by destruct (py_leb y x)].
  intros Hxy Hyz. rewrite (py_leb_trans x y z) by done.
  destruct (py_leb z x) eqn:E3; [|done].
  rewrite (py_leb_trans y z x) in Hxy by done.
  rewrite (py_leb_trans z x y) in Hyz by done. eauto.
Qed.

Lemma lex_leb_antisym (xs ys : list K) :
  lex_leb xs ys = true -> lex_leb ys xs = true -> xs = ys.
Proof.
  revert ys. induction xs as [|x xs IH]; intros [|y ys]; simpl; [done..|].
  destruct (py_leb x y) eqn:E1; [|done]. destruct (py_leb y x) eqn:E2; [|done].
  intros. f_equal; [by apply py_leb_antisym|auto].
Qed.
End laws.

#[global] Instance py_ord_list_laws {K} `{PyOrdLaws K} : PyOrdLaws (list K).
Proof. split; eauto using lex_leb_total, lex_leb_trans, lex_leb_antisym. Qed.

#[global] Instance py_ord_pair_laws {A B} `{PyOrdLaws A, PyOrdLaws B} : PyOrdLaws (A * B).
Proof.
  split; unfold py_leb, py_ord_pair, pair_leb.
  - intros [x1 y1] [x2 y2]; simpl.
    destruct (py_leb x1 x2) eqn:E1, (py_leb x2 x1) eqn:E2; auto using py_leb_total.
    destruct (py_leb_total x1 x2); congruence.
  - intros [x1 y1] [x2 y2] [x3 y3]; simpl.
    destruct (py_leb x1 x2) eqn:E1; [|done].
    destruct (py_leb x2 x3) eqn:E2; [|by destruct (py_leb x2 x1)].
    intros Hxy Hyz. rewrite (py_leb_trans x1 x2 x3) by done.
    destruct (py_leb x3 x1) eqn:E3; [|done].
    rewrite (py_leb_trans x2 x3 x1) in Hxy by done.
    rewrite (py_leb_trans x3 x1 x2) in Hyz by done. by eapply py_leb_trans.
  - intros [x1 y1] [x2 y2]; simpl.
    destruct (py_leb x1 x2) eqn:E1; [|done]. destruct (py_leb x2 x1) eqn:E2; [|done].
    intros. f_equal; by apply py_leb_antisym.
Qed.

(** ** [sorted(xs, key=f)] *)

Fixpoint insert_by {A K} `{PyOrd K} (key : A -> K) (x : A) (l : list A) : list A :=
  match l with
  | [] => [x]
  | y :: l' => if py_leb (key x) (key y) then x :: y :: l' else y :: insert_by key x l'
  end.

Definition sorted_by {A K} `{PyOrd K} (key : A -> K) (l : list A) : list A :=
  foldr (insert_by key) [] l.

(** [sorted(xs)] *)
Definition py_sorted {K} `{PyOrd K} (l : list K) : list K := sorted_by (fun x => x) l.

Section sorted_by.
Context {A K} `{PyOrdLaws K} (key : A -> K).

Definition key_le (x y : A) : Prop := py_le (key x) (key y).

Lemma key_le_trans : Transitive key_le.
Proof. intros x y z. apply py_leb_trans. Qed.

Lemma insert_by_Permutation x l : insert_by key x l ≡ₚ x :: l.
Proof.
  induction l as [|y l IH]; simpl; [done|].
  destruct (py_leb _ _); [done|]. by rewrite IH, Permutation_swap.
Qed.

Lemma sorted_by_Permutation l : sorted_by key l ≡ₚ l.
Proof.
  induction l as [|x l IH]; simpl; [done|].
  by rewrite insert_by_Permutation, IH.
Qed.

Lemma insert_by_StronglySorted x l :
  StronglySorted key_le l -> StronglySorted key_le (insert_by key x l).
Proof.
  induction 1 as [|y l Hl IH Hy]; simpl; [by repeat constructor|].
  destruct (py_leb (key x) (key y)) eqn:E.
  - constructor; [by constructor|]. constructor; [done|].
    eapply Forall_impl; [done|]. intros z. by apply key_le_trans.
  - constructor; [done|]. rewrite insert_by_Permutation. constructor; [|done].
    by apply py_leb_false.
Qed.

Lemma sorted_by_StronglySorted l : StronglySorted key_le (sorted_by key l).
Proof. induction l; simpl; [constructor|]. by apply insert_by_StronglySorted. Qed.

(** Sorting a sorted list changes nothing. *)
Lemma sorted_by_id l : StronglySorted key_le l -> sorted_by key l = l.
Proof.
  induction 1 as [|x l Hl IH Hx]; simpl; [done|]. rewrite IH.
  destruct l as [|y l]; simpl; [done|]. inversion_clear Hx as [|?? Hxy ?].
  by rewrite Hxy.
Qed.

Lemma sorted_by_length l : length (sorted_by key l) = length l.
Proof. by rewrite sorted_by_Permutation. Qed.

Lemma elem_of_sorted_by x l : x ∈ sorted_by key l <-> x ∈ l.
Proof. by rewrite sorted_by_Permutation. Qed.

(** With keys that tell the elements of the list apart, the result does not
    depend on the order of the input. *)
Lemma sorted_unique l1 l2 :
  (forall x y, x ∈ l1 -> y ∈ l1 -> key x = key y -> x = y) ->
  StronglySorted key_le l1 -> StronglySorted key_le l2 -> l1 ≡ₚ l2 -> l1 = l2.
Proof.
  intros Hinj H1. revert l2. induction H1 as [|x l1 H1 IH Hx]; intros l2 H2 Hp.
  - by apply Permutation_nil_l in Hp.
  - destruct l2 as [|y l2]; [by apply Permutation_nil_r in Hp|].
    assert (x = y) as ->.
    { apply StronglySorted_inv in H2 as [H2 Hy].
      assert (Hyx : y ∈ x :: l1) by (rewrite Hp; left).
      assert (Hxy : x ∈ y :: l2) by (rewrite <- Hp; left).
      apply elem_of_cons in Hyx as [->|Hyx]; [done|].
      apply elem_of_cons in Hxy as [->|Hxy]; [done|].
      rewrite Forall_forall in Hx, Hy.
      apply Hinj; [by left|by right|]. apply py_leb_antisym; [by apply Hx|by apply Hy]. }
    f_equal. apply StronglySorted_inv in H2 as [H2 _]. apply IH; [|done|].
    + intros a b ??. apply Hinj; by right.
    + by apply Permutation_cons_inv in Hp.
Qed.

Lemma sorted_by_deterministic l1 l2 :
  (forall x y, x ∈ l1 -> y ∈ l1 -> key x = key y -> x = y) ->
  l1 ≡ₚ l2 -> sorted_by key l1 = sorted_by key l2.
Proof.
  intros Hinj Hp. apply sorted_unique; [|apply sorted_by_StronglySorted..|].
  - intros x y Hx Hy. apply Hinj; by apply elem_of_sorted_by.
  - by rewrite !sorted_by_Permutation.
Qed.
End sorted_by.
