(* ===== verification/PyText.v ===== *)
(** * Python text and bytes

    A Python [bytes] is a list of [byte]; a Python [str] is the list of its code
    points.  This file has the operations of the language that the consensus code
    applies to them: slicing, [bytes.hex], [bytes.fromhex], UTF-8 encoding and
    strict decoding, [int(text)], [str(number)], and the [struct] codes [<I],
    [<H], [<Q].  Each decoder is proved to invert its encoder. *)

From coqutil Require Export Word.LittleEndianList.
From S2P Require Import Prelude PyOrder.

Abbreviation bytes := (list byte).
Abbreviation str := (list Z).

#[global] Instance byte_eq_dec : EqDecision byte := Byte.byte_eq_dec.
#[global] Instance byte_countable : Countable byte.
Proof.
  refine (inj_countable' byte.unsigned byte.of_Z _). apply byte.of_Z_unsigned.
Defined.

(** The text of an ASCII literal of the source. *)
Definition u (s : string) : str :=
  (fun c => Z.of_N (Ascii.N_of_ascii c)) <$> String.list_ascii_of_string s.
Arguments u : simpl never.

(** The bytes of an ASCII literal of the source. *)
Definition b (s : string) : bytes :=
  (fun c => byte.of_Z (Z.of_N (Ascii.N_of_ascii c))) <$> String.list_ascii_of_string s.
Arguments b : simpl never.

(** [xs[lo:hi]] for [0 <= lo] and [0 <= hi] *)
Definition slice {A} (xs : list A) (lo hi : Z) : list A :=
  take (Z.to_nat (hi - lo)) (drop (Z.to_nat lo) xs).

(** ** Hexadecimal *)

Definition hex_digit (n : Z) : Z := if n <? 10 then 48 + n else 87 + n.

(** [data.hex()] *)
Definition hex (bs : bytes) : str :=
  concat ((fun x => [hex_digit (byte.unsigned x / 16); hex_digit (byte.unsigned x mod 16)]) <$> bs).

Definition hex_value (c : Z) : option Z :=
  if (48 <=? c) && (c <=? 57) then Some (c - 48)
  else if (97 <=? c) && (c <=? 102) then Some (c - 87)
  else if (65 <=? c) && (c <=? 70) then Some (c - 55)
  else None.

Definition ascii_space (c : Z) : bool := (c =? 32) || ((9 <=? c) && (c <=? 13)).

(** [bytes.fromhex(text)]: pairs of hexadecimal digits of either case, with
    ASCII white space allowed between the pairs. *)
Fixpoint fromhex (s : str) : res bytes :=
  match s with
  | [] => Ok []
  | c :: s' =>
      if ascii_space c then fromhex s'
      else match s' with
           | [] => raise ValueError "non-hexadecimal number found in fromhex() arg"
           | d :: s'' =>
               match hex_value c, hex_value d with
               | Some h, Some l => let* rest := fromhex s'' in Ok (byte.of_Z (16 * h + l) :: rest)
               | _, _ => raise ValueError "non-hexadecimal number found in fromhex() arg"
               end
           end
  end.

Lemma byte_of_Z_unsigned_id x : 0 <= x < 256 -> byte.unsigned (byte.of_Z x) = x.
Proof. intros. rewrite byte.unsigned_of_Z. by apply Z.mod_small. Qed.

Lemma hex_value_digit n : 0 <= n < 16 -> hex_value (hex_digit n) = Some n.
Proof.
  intros H. unfold hex_digit, hex_value. destruct (Z.ltb_spec n 10);
  repeat case_match; bool_prop; try (f_equal; lia); lia.
Qed.

Lemma hex_digit_not_space n : 0 <= n < 16 -> ascii_space (hex_digit n) = false.
Proof.
  intros H. unfold hex_digit, ascii_space.
  destruct (Z.ltb_spec n 10);
  apply orb_false_intro; try (apply Z.eqb_neq; lia); apply andb_false_iff; right; apply Z.leb_gt; lia.
Qed.

Lemma hex_cons x bs :
  hex (x :: bs) =
  hex_digit (byte.unsigned x / 16) :: hex_digit (byte.unsigned x mod 16) :: hex bs.
Proof. done. Qed.

Lemma fromhex_hex bs : fromhex (hex bs) = Ok bs.
Proof.
  induction bs as [|x bs IH]; [done|]. rewrite hex_cons. simpl.
  pose proof (byte.unsigned_range x).
  assert (0 <= byte.unsigned x / 16 < 16) by (split; [apply Z.div_pos|apply Z.div_lt_upper_bound]; lia).
  assert (0 <= byte.unsigned x mod 16 < 16) by (apply Z.mod_pos_bound; lia).
  rewrite hex_digit_not_space, !hex_value_digit by done. rewrite IH. simpl.
  rewrite <- Z.div_mod by lia. by rewrite byte.of_Z_unsigned.
Qed.

Lemma hex_length bs : length (hex bs) = (2 * length bs)%nat.
Proof. induction bs as [|x bs IH]; [done|]. rewrite hex_cons. simpl. rewrite IH. lia. Qed.

Lemma hex_inj bs1 bs2 : hex bs1 = hex bs2 -> bs1 = bs2.
Proof. intros E. pose proof (fromhex_hex bs1) as H. rewrite E, fromhex_hex in H. by inv_ok. Qed.

(** ** UTF-8 *)

Definition cont (c : Z) : byte := byte.of_Z (128 + c mod 64).

(** [text.encode("utf-8")]; a lone surrogate raises. *)
Definition utf8_encode_char (c : Z) : res bytes :=
  if c <? 0 then raise ValueError "chr() arg not in range"
  else if c <? 128 then Ok [byte.of_Z c]
  else if c <? 2048 then Ok [byte.of_Z (192 + c / 64); cont c]
  else if (55296 <=? c) && (c <? 57344) then raise UnicodeError "surrogates not allowed"
  else if c <? 65536 then Ok [byte.of_Z (224 + c / 4096); cont (c / 64); cont c]
  else if c <? 1114112 then Ok [byte.of_Z (240 + c / 262144); cont (c / 4096); cont (c / 64); cont c]
  else raise ValueError "chr() arg not in range".

Definition utf8_encode (s : str) : res bytes :=
  let* parts := mapM utf8_encode_char s in Ok (concat parts).

Definition is_cont (x : byte) : bool := (128 <=? byte.unsigned x) && (byte.unsigned x <? 192).
Definition cont_value (x : byte) : Z := byte.unsigned x - 128.

Definition utf8_error {A} : res A := raise UnicodeError "invalid utf-8 data".

(** [data.decode("utf-8")], strict: overlong forms, surrogates and values above
    U+10FFFF raise. *)
Fixpoint utf8_decode (bs : bytes) : res str :=
  match bs with
  | [] => Ok []
  | x :: bs1 =>
      let n := byte.unsigned x in
      if n <? 128 then let* s := utf8_decode bs1 in Ok (n :: s)
      else if n <? 192 then utf8_error
      else match bs1 with
      | [] => utf8_error
      | y :: bs2 =>
          if negb (is_cont y) then utf8_error
          else if n <? 224 then
            let c := (n - 192) * 64 + cont_value y in
            if c <? 128 then utf8_error
            else let* s := utf8_decode bs2 in Ok (c :: s)
          else match bs2 with
          | [] => utf8_error
          | z :: bs3 =>
              if negb (is_cont z) then utf8_error
              else if n <? 240 then
                let c := ((n - 224) * 64 + cont_value y) * 64 + cont_value z in
                if (c <? 2048) || ((55296 <=? c) && (c <? 57344)) then utf8_error
                else let* s := utf8_decode bs3 in Ok (c :: s)
              else match bs3 with
              | [] => utf8_error
              | w :: bs4 =>
                  if negb (is_cont w) then utf8_error
                  else if n <? 248 then
                    let c := (((n - 240) * 64 + cont_value y) * 64 + cont_value z) * 64 + cont_value w in
                    if (c <? 65536) || (1114111 <? c) then utf8_error
                    else let* s := utf8_decode bs4 in Ok (c :: s)
                  else utf8_error
              end
          end
      end
  end.

Lemma unsigned_cont c : byte.unsigned (cont c) = 128 + c mod 64.
Proof. unfold cont. rewrite byte_of_Z_unsigned_id; pose proof (Z.mod_pos_bound c 64); lia. Qed.

Lemma is_cont_cont c : is_cont (cont c) = true.
Proof.
  unfold is_cont. rewrite unsigned_cont. pose proof (Z.mod_pos_bound c 64).
  apply andb_true_intro; split; [apply Z.leb_le|apply Z.ltb_lt]; lia.
Qed.

Lemma cont_value_cont c : cont_value (cont c) = c mod 64.
Proof. unfold cont_value. rewrite unsigned_cont. lia. Qed.

Lemma split_64 c : c = c / 64 * 64 + c mod 64.
Proof. pose proof (Z.div_mod c 64). lia. Qed.

Ltac decide_ltb :=
  repeat match goal with
  | |- context [?x <? ?y] =>
      first [ rewrite (proj2 (Z.ltb_lt x y)) by lia | rewrite (proj2 (Z.ltb_ge x y)) by lia ]
  | |- context [?x <=? ?y] =>
      first [ rewrite (proj2 (Z.leb_le x y)) by lia | rewrite (proj2 (Z.leb_gt x y)) by lia ]
  end.

Lemma utf8_decode_encode_char c bs rest :
  utf8_encode_char c = Ok bs ->
  utf8_decode (bs ++ rest) = rbind (utf8_decode rest) (fun s => Ok (c :: s)).
Proof.
  unfold utf8_encode_char. intros H. inv_ok; bool_prop; simpl;
  rewrite ?is_cont_cont, ?cont_value_cont; simpl.
  - rewrite byte_of_Z_unsigned_id by lia. by decide_ltb.
  - assert (2 <= c / 64 < 32) by (split; [apply Z.div_le_lower_bound|apply Z.div_lt_upper_bound]; lia).
    pose proof (split_64 c). rewrite byte_of_Z_unsigned_id by lia.
    replace ((192 + c / 64 - 192) * 64 + c mod 64) with c by lia. by decide_ltb.
  - assert (0 <= c / 4096 < 16) by (split; [apply Z.div_le_lower_bound|apply Z.div_lt_upper_bound]; lia).
    pose proof (split_64 c). pose proof (split_64 (c / 64)) as H2.
    rewrite Z.div_div in H2 by lia. change (64 * 64) with 4096 in H2.
    rewrite byte_of_Z_unsigned_id by lia.
    replace (((224 + c / 4096 - 224) * 64 + (c / 64) mod 64) * 64 + c mod 64) with c by lia.
    decide_ltb. simpl. rewrite andb_false_iff in *.
    destruct (Z.leb_spec 55296 c), (Z.ltb_spec c 57344); simpl; try done; naive_solver.
  - assert (0 <= c / 262144 < 8) by (split; [apply Z.div_le_lower_bound|apply Z.div_lt_upper_bound]; lia).
    pose proof (split_64 c). pose proof (split_64 (c / 64)) as H2.
    pose proof (split_64 (c / 4096)) as H3.
    rewrite Z.div_div in H2, H3 by lia. change (64 * 64) with 4096 in H2.
    change (4096 * 64) with 262144 in H3.
    rewrite byte_of_Z_unsigned_id by lia.
    replace ((((240 + c / 262144 - 240) * 64 + (c / 4096) mod 64) * 64 + (c / 64) mod 64) * 64 + c mod 64)
      with c by lia. by decide_ltb.
Qed.

Lemma utf8_decode_encode s bs : utf8_encode s = Ok bs -> utf8_decode bs = Ok s.
Proof.
  unfold utf8_encode. intros H. inv_ok. rename a into parts.
  apply mapM_Forall2 in E. induction E as [|c p s parts Hc _ IH]; simpl; [done|].
  by rewrite (utf8_decode_encode_char c), IH.
Qed.

(** ** Integers as text *)

(** Code points of the zero digit of every Unicode decimal digit range. *)
Definition decimal_zeros : list Z :=
  [48; 1632; 1776; 1984; 2406; 2534; 2662; 2790; 2918; 3046; 3174; 3302; 3430; 3558; 3664; 3792;
   3872; 4160; 4240; 6112; 6160; 6470; 6608; 6784; 6800; 6992; 7088; 7232; 7248; 42528; 43216;
   43264; 43472; 43504; 43600; 44016; 65296; 66720; 68912; 69734; 69872; 69942; 70096; 70384;
   70736; 70864; 71248; 71360; 71472; 71904; 72016; 72784; 73040; 73120; 92768; 92864; 93008;
   120782; 120792; 120802; 120812; 120822; 123200; 123632; 125264; 130032].

Definition decimal_digit (c : Z) : option Z :=
  match list_find (fun z => (z <=? c) && (c <=? z + 9) = true) decimal_zeros with
  | Some (_, z) => Some (c - z)
  | None => None
  end.

(** White space that [int] strips. *)
Definition int_space (c : Z) : bool :=
  ascii_space c || bool_decide (c ∈ [133; 160; 5760; 8232; 8233; 8239; 8287; 12288])
  || ((8192 <=? c) && (c <=? 8202)).

Definition int_error {A} : res A := raise ValueError "invalid literal for int() with base 10".

(** A run of digits with single underscores between them; returns the value,
    the number of digits and the rest of the text. *)
Fixpoint int_digits (after_digit : bool) (acc count : Z) (s : str) : res (Z * Z * str) :=
  match s with
  | [] => if after_digit then Ok (acc, count, []) else int_error
  | c :: s' =>
      match decimal_digit c with
      | Some d => int_digits true (acc * 10 + d) (count + 1) s'
      | None =>
          if after_digit then (if c =? 95 then int_digits false acc count s' else Ok (acc, count, s))
          else int_error
      end
  end.

Fixpoint strip_left (s : str) : str :=
  match s with
  | c :: s' => if int_space c then strip_left s' else s
  | [] => []
  end.

(** The interpreter's limit on decimal conversions. *)
Definition max_str_digits : Z := 4300.

Definition int_magnitude (s : str) : res Z :=
  let* '(value, count, rest) := int_digits false 0 0 s in
  if max_str_digits <? count then raise ValueError "Exceeds the limit (4300 digits) for integer string conversion"
  else if forallb int_space rest then Ok value
  else int_error.

(** [int(text)] *)
Definition py_int (s : str) : res Z :=
  match strip_left s with
  | [] => int_error
  | c :: s' =>
      if c =? 45 then let* v := int_magnitude s' in Ok (- v)
      else if c =? 43 then int_magnitude s'
      else int_magnitude (c :: s')
  end.

(** [str(n)] *)
Fixpoint dec_digits (fuel : nat) (n : Z) : str :=
  match fuel with
  | O => []
  | S fuel' => if n <? 10 then [48 + n] else dec_digits fuel' (n / 10) ++ [48 + n mod 10]
  end.
Definition py_str_int (n : Z) : str :=
  if n <? 0 then 45 :: dec_digits (S (Z.to_nat (Z.log2 (- n)))) (- n)
  else dec_digits (S (Z.to_nat (Z.log2 n))) n.

Lemma decimal_digit_ascii d : 0 <= d < 10 -> decimal_digit (48 + d) = Some d.
Proof. intros H. assert (d ∈ [0;1;2;3;4;5;6;7;8;9]) as Hd by set_solver by lia. set_unfold. naive_solver. Qed.

Lemma int_digits_dec fuel n after acc count rest :
  fuel ≠ O -> 0 <= n < 2 ^ Z.of_nat fuel ->
  int_digits after acc count (dec_digits fuel n ++ rest) =
  int_digits true (acc * 10 ^ len (dec_digits fuel n) + n) (count + len (dec_digits fuel n)) rest.
Proof.
  revert n after acc count rest.
  induction fuel as [|fuel IH]; intros n after acc count rest Hf Hn; [done|].
  simpl. destruct (Z.ltb_spec n 10).
  - simpl. rewrite decimal_digit_ascii by lia. f_equal; unfold len; simpl; lia.
  - pose proof (Z.div_mod n 10 ltac:(lia)). pose proof (Z.mod_pos_bound n 10 ltac:(lia)).
    rewrite Nat2Z.inj_succ, Z.pow_succ_r in Hn by lia.
    assert (fuel ≠ O) by (intros ->; simpl in *; lia).
    rewrite <- app_assoc, IH by (done || lia). simpl. rewrite decimal_digit_ascii by lia.
    unfold len. rewrite length_app, Nat2Z.inj_add. simpl.
    rewrite Z.pow_add_r by lia. f_equal; lia.
Qed.

Lemma dec_digits_length fuel n k :
  0 <= n < 10 ^ k -> 1 <= k -> len (dec_digits fuel n) <= k.
Proof.
  unfold len. revert n k. induction fuel as [|fuel IH]; intros n k Hn Hk; simpl; [lia|].
  destruct (Z.ltb_spec n 10); simpl; [lia|]. rewrite length_app. simpl.
  assert (1 < k) by (destruct (Z.eq_dec k 1) as [->|]; lia).
  enough (Z.of_nat (length (dec_digits fuel (n / 10))) <= k - 1) by lia.
  apply IH; [|lia]. split; [apply Z.div_pos; lia|]. apply Z.div_lt_upper_bound; [lia|].
  rewrite <- Z.pow_succ_r by lia. replace (Z.succ (k - 1)) with k by lia. lia.
Qed.

Lemma py_int_dec n :
  0 <= n < 10 ^ max_str_digits ->
  int_digits false 0 0 (dec_digits (S (Z.to_nat (Z.log2 n))) n) =
  Ok (n, len (dec_digits (S (Z.to_nat (Z.log2 n))) n), []).
Proof.
  intros Hn. rewrite <- (app_nil_r (dec_digits _ _)) at 1. rewrite int_digits_dec; [simpl; f_equal; f_equal; f_equal; lia|done|].
  rewrite Nat2Z.inj_succ, Z2Nat.id by apply Z.log2_nonneg.
  destruct (Z.eq_dec n 0) as [->|]; [done|]. pose proof (Z.log2_spec n). lia.
Qed.

Lemma dec_digits_Forall fuel n : 0 <= n -> Forall (fun c => 48 <= c <= 57) (dec_digits fuel n).
Proof.
  revert n. induction fuel as [|fuel IH]; intros n Hn; simpl; [constructor|].
  destruct (Z.ltb_spec n 10); [by repeat constructor; lia|].
  pose proof (Z.mod_pos_bound n 10 ltac:(lia)).
  apply Forall_app; split; [apply IH; by apply Z.div_pos|]. repeat constructor; lia.
Qed.

Lemma digit_not_space c : 48 <= c <= 57 -> int_space c = false.
Proof.
  intros H. unfold int_space, ascii_space. rewrite bool_decide_eq_false_2 by (set_unfold; lia).
  rewrite (proj2 (Z.eqb_neq c 32)), (proj2 (Z.leb_gt c 13)), (proj2 (Z.leb_gt 8192 c)) by lia.
  by rewrite andb_false_r.
Qed.

Lemma int_magnitude_digits n :
  0 <= n < 10 ^ max_str_digits ->
  int_magnitude (dec_digits (S (Z.to_nat (Z.log2 n))) n) = Ok n.
Proof.
  intros Hn. unfold int_magnitude. rewrite py_int_dec by done. unfold rbind.
  pose proof (dec_digits_length (S (Z.to_nat (Z.log2 n))) n max_str_digits Hn ltac:(done)) as Hlen.
  by rewrite (proj2 (Z.ltb_ge _ _) Hlen).
Qed.

Lemma py_int_minus s : py_int (45 :: s) = let* v := int_magnitude s in Ok (- v).
Proof. done. Qed.

(** [int(str(n))] is [n]. *)
Lemma py_int_str_int n : Z.abs n < 10 ^ max_str_digits -> py_int (py_str_int n) = Ok n.
Proof.
  intros Hn. unfold py_str_int. destruct (Z.ltb_spec n 0).
  - rewrite py_int_minus, int_magnitude_digits by lia. unfold rbind.
    by rewrite Z.opp_involutive.
  - pose proof (int_magnitude_digits n ltac:(lia)) as H1.
    pose proof (dec_digits_Forall (S (Z.to_nat (Z.log2 n))) n ltac:(lia)) as Hall.
    destruct (dec_digits _ n) as [|c ds] eqn:E; [done|].
    apply Forall_cons in Hall as [Hc _].
    unfold py_int. simpl strip_left. rewrite digit_not_space by done.
    by rewrite (proj2 (Z.eqb_neq c 45)), (proj2 (Z.eqb_neq c 43)) by lia.
Qed.

(** ** [struct] and [int.to_bytes] *)

(** [pack(fmt, v)] for the unsigned little-endian codes of [n] bytes. *)
Definition pack (n : nat) (v : Z) : res bytes :=
  if (0 <=? v) && (v <? 2 ^ (8 * Z.of_nat n)) then Ok (le_split n v)
  else raise StructError "argument out of range".

(** [unpack_from(fmt, buffer, offset)[0]] *)
Definition unpack_from (n : nat) (buffer : bytes) (offset : Z) : res Z :=
  if (0 <=? offset) && (offset + Z.of_nat n <=? len buffer)
  then Ok (le_combine (slice buffer offset (offset + Z.of_nat n)))
  else raise StructError "unpack_from requires a buffer of at least the given size".

(** [v.to_bytes(n, "big")] and [int.from_bytes(data, "big")] *)
Definition to_bytes_big (n : nat) (v : Z) : res bytes :=
  if (0 <=? v) && (v <? 2 ^ (8 * Z.of_nat n)) then Ok (rev (le_split n v))
  else raise OverflowError "int too big to convert".
Definition from_bytes_big (bs : bytes) : Z := le_combine (rev bs).

Lemma len_app {A} (xs ys : list A) : len (xs ++ ys) = len xs + len ys.
Proof. unfold len. rewrite length_app. lia. Qed.
Lemma len_nonneg {A} (xs : list A) : 0 <= len xs.
Proof. unfold len. lia. Qed.
Lemma len_cons {A} (x : A) xs : len (x :: xs) = 1 + len xs.
Proof. unfold len. simpl. lia. Qed.

Lemma slice_app {A} (pre mid post : list A) :
  slice (pre ++ mid ++ post) (len pre) (len pre + len mid) = mid.
Proof.
  unfold slice, len. rewrite Nat2Z.id, drop_app_length.
  replace (Z.to_nat _) with (length mid) by lia. apply take_app_length.
Qed.

Lemma pack_length n v bs : pack n v = Ok bs -> len bs = Z.of_nat n.
Proof. unfold pack, len. intros. inv_ok. by rewrite length_le_split. Qed.

Lemma pack_range n v bs : pack n v = Ok bs -> 0 <= v < 2 ^ (8 * Z.of_nat n).
Proof. unfold pack. intros. inv_ok. bool_prop. lia. Qed.

Lemma unpack_pack n v bs pre post :
  pack n v = Ok bs -> unpack_from n (pre ++ bs ++ post) (len pre) = Ok v.
Proof.
  intros H. pose proof (pack_length _ _ _ H) as Hl. pose proof (pack_range _ _ _ H) as Hv.
  unfold unpack_from. rewrite !len_app.
  pose proof (len_nonneg pre). pose proof (len_nonneg post).
  rewrite (proj2 (Z.leb_le _ _)), (proj2 (Z.leb_le _ _)) by lia. simpl.
  rewrite <- Hl, slice_app. unfold pack in H. inv_ok. f_equal.
  rewrite le_combine_split. apply Z.mod_small. by rewrite Z.mul_comm.
Qed.

Lemma le_combine_range bs : 0 <= le_combine bs < 2 ^ (8 * len bs).
Proof. apply le_combine_bound. Qed.

Lemma from_bytes_big_range bs : 0 <= from_bytes_big bs < 2 ^ (8 * len bs).
Proof.
  unfold from_bytes_big. pose proof (le_combine_range (rev bs)) as H. unfold len in *.
  by rewrite length_rev in H.
Qed.
