(* ===== verification/Hashes.v ===== *)
(** * Hash functions ([consensus/hashes.py], and the [hashlib] digests it uses)

    [hashlib]'s SHA-256, RIPEMD-160 and SHA3-256 written out on integers with
    their word width explicit, so that transaction identifiers, block hashes and
    addresses evaluate; the published test vectors are checked.  The rest of the
    development uses only the digest lengths. *)

From S2P Require Import Prelude PyOrder PyText.

Module Sha256.
Definition w32 (x : Z) : Z := x mod 2 ^ 32.
Definition rotr (n x : Z) : Z := Z.lor (Z.shiftr x n) (w32 (Z.shiftl x (32 - n))).

(** The first 32 bits of the fractional parts of the cube roots of the first 64
    primes. *)
Definition round_constants : list Z :=
[1116352408; 1899447441; 3049323471; 3921009573; 961987163; 1508970993; 2453635748; 2870763221;
 3624381080; 310598401; 607225278; 1426881987; 1925078388; 2162078206; 2614888103; 3248222580;
 3835390401; 4022224774; 264347078; 604807628; 770255983; 1249150122; 1555081692; 1996064986;
 2554220882; 2821834349; 2952996808; 3210313671; 3336571891; 3584528711; 113926993; 338241895;
 666307205; 773529912; 1294757372; 1396182291; 1695183700; 1986661051; 2177026350; 2456956037;
 2730485921; 2820302411; 3259730800; 3345764771; 3516065817; 3600352804; 4094571909; 275423344;
 430227734; 506948616; 659060556; 883997877; 958139571; 1322822218; 1537002063; 1747873779;
 1955562222; 2024104815; 2227730452; 2361852424; 2428436474; 2756734187; 3204031479; 3329325298].

Definition state : Type := Z * Z * Z * Z * Z * Z * Z * Z.

Definition initial : state :=
  (1779033703, 3144134277, 1013904242, 2773480762, 1359893119, 2600822924, 528734635, 1541459225).

Definition big_sigma0 (x : Z) : Z := Z.lxor (Z.lxor (rotr 2 x) (rotr 13 x)) (rotr 22 x).
Definition big_sigma1 (x : Z) : Z := Z.lxor (Z.lxor (rotr 6 x) (rotr 11 x)) (rotr 25 x).
Definition small_sigma0 (x : Z) : Z := Z.lxor (Z.lxor (rotr 7 x) (rotr 18 x)) (Z.shiftr x 3).
Definition small_sigma1 (x : Z) : Z := Z.lxor (Z.lxor (rotr 17 x) (rotr 19 x)) (Z.shiftr x 10).
Definition choose (x y z : Z) : Z := Z.lxor z (Z.land x (Z.lxor y z)).
Definition majority (x y z : Z) : Z := Z.lxor (Z.lxor (Z.land x y) (Z.land x z)) (Z.land y z).

Definition one_round (s : state) (kw : Z * Z) : state :=
  let '(a, b, c, d, e, f, g, h) := s in
  let t1 := h + big_sigma1 e + choose e f g + kw.1 + kw.2 in
  let t2 := big_sigma0 a + majority a b c in
  (w32 (t1 + t2), a, b, c, w32 (d + t1), e, f, g).

(** The message schedule, most recent word first. *)
Fixpoint schedule (n : nat) (w : list Z) : list Z :=
  match n with
  | O => w
  | S n' =>
      let at_ i := nth i w 0 in
      schedule n' (w32 (small_sigma1 (at_ 1%nat) + at_ 6%nat + small_sigma0 (at_ 14%nat) + at_ 15%nat) :: w)
  end.

Fixpoint words (bs : bytes) : list Z :=
  match bs with
  | a :: b :: c :: d :: bs' => from_bytes_big [a; b; c; d] :: words bs'
  | _ => []
  end.

Definition compress (s : state) (block : bytes) : state :=
  let w := rev (schedule 48 (rev (words block))) in
  let '(a, b, c, d, e, f, g, h) := s in
  let '(a', b', c', d', e', f', g', h') := foldl one_round s (zip round_constants w) in
  (w32 (a + a'), w32 (b + b'), w32 (c + c'), w32 (d + d'),
   w32 (e + e'), w32 (f + f'), w32 (g + g'), w32 (h + h')).

Fixpoint blocks (fuel : nat) (s : state) (bs : bytes) : state :=
  match fuel, bs with
  | O, _ | _, [] => s
  | S fuel', _ => blocks fuel' (compress s (take 64 bs)) (drop 64 bs)
  end.

Definition pad (msg : bytes) : bytes :=
  msg ++ byte.of_Z 128 :: replicate (Z.to_nat ((55 - len msg) mod 64)) (byte.of_Z 0)
      ++ rev (le_split 8 (8 * len msg)).

Definition word_bytes (x : Z) : bytes := rev (le_split 4 x).

Definition digest (msg : bytes) : bytes :=
  let padded := pad msg in
  let '(a, b, c, d, e, f, g, h) := blocks (length padded) initial padded in
  word_bytes a ++ word_bytes b ++ word_bytes c ++ word_bytes d ++
  word_bytes e ++ word_bytes f ++ word_bytes g ++ word_bytes h.

Lemma sha256_digest_length msg : length (digest msg) = 32%nat.
Proof.
  unfold digest. destruct (blocks _ _ _) as [[[[[[[a b] c] d] e] f] g] h].
  unfold word_bytes. rewrite !length_app, !length_rev, !length_le_split. done.
Qed.
End Sha256.

Module Ripemd160.
Definition w32 (x : Z) : Z := x mod 2 ^ 32.
Definition rotl (n x : Z) : Z := Z.lor (w32 (Z.shiftl x n)) (Z.shiftr x (32 - n)).
Definition not32 (x : Z) : Z := 2 ^ 32 - 1 - x.

Definition left_word : list Z :=
[0; 1; 2; 3; 4; 5; 6; 7; 8; 9; 10; 11; 12; 13; 14; 15;
 7; 4; 13; 1; 10; 6; 15; 3; 12; 0; 9; 5; 2; 14; 11; 8;
 3; 10; 14; 4; 9; 15; 8; 1; 2; 7; 0; 6; 13; 11; 5; 12;
 1; 9; 11; 10; 0; 8; 12; 4; 13; 3; 7; 15; 14; 5; 6; 2;
 4; 0; 5; 9; 7; 12; 2; 10; 14; 1; 3; 8; 11; 6; 15; 13].
Definition right_word : list Z :=
[5; 14; 7; 0; 9; 2; 11; 4; 13; 6; 15; 8; 1; 10; 3; 12;
 6; 11; 3; 7; 0; 13; 5; 10; 14; 15; 8; 12; 4; 9; 1; 2;
 15; 5; 1; 3; 7; 14; 6; 9; 11; 8; 12; 2; 10; 0; 4; 13;
 8; 6; 4; 1; 3; 11; 15; 0; 5; 12; 2; 13; 9; 7; 10; 14;
 12; 15; 10; 4; 1; 5; 8; 7; 6; 2; 13; 14; 0; 3; 9; 11].
Definition left_shift : list Z :=
[11; 14; 15; 12; 5; 8; 7; 9; 11; 13; 14; 15; 6; 7; 9; 8;
 7; 6; 8; 13; 11; 9; 7; 15; 7; 12; 15; 9; 11; 7; 13; 12;
 11; 13; 6; 7; 14; 9; 13; 15; 14; 8; 13; 6; 5; 12; 7; 5;
 11; 12; 14; 15; 14; 15; 9; 8; 9; 14; 5; 6; 8; 6; 5; 12;
 9; 15; 5; 11; 6; 8; 13; 12; 5; 12; 13; 14; 11; 8; 5; 6].
Definition right_shift : list Z :=
[8; 9; 9; 11; 13; 15; 15; 5; 7; 7; 8; 11; 14; 14; 12; 6;
 9; 13; 15; 7; 12; 8; 9; 11; 7; 7; 12; 7; 6; 15; 13; 11;
 9; 7; 15; 11; 8; 6; 6; 14; 12; 13; 5; 14; 13; 13; 7; 5;
 15; 5; 8; 11; 14; 14; 6; 14; 6; 9; 12; 9; 12; 5; 15; 8;
 8; 5; 12; 9; 12; 5; 14; 6; 8; 13; 6; 5; 15; 13; 11; 11].
Definition left_constant : list Z := [0; 0x5a827999; 0x6ed9eba1; 0x8f1bbcdc; 0xa953fd4e].
Definition right_constant : list Z := [0x50a28be6; 0x5c4dd124; 0x6d703ef3; 0x7a6d76e9; 0].

(** The five round functions, by the index of the group of sixteen steps. *)
Definition mix (group : nat) (x y z : Z) : Z :=
  match group with
  | 0%nat => Z.lxor (Z.lxor x y) z
  | 1%nat => Z.lor (Z.land x y) (Z.land (not32 x) z)
  | 2%nat => Z.lxor (Z.lor x (not32 y)) z
  | 3%nat => Z.lor (Z.land x z) (Z.land y (not32 z))
  | _ => Z.lxor x (Z.lor y (not32 z))
  end.

Definition state : Type := Z * Z * Z * Z * Z.
Definition initial : state := (0x67452301, 0xefcdab89, 0x98badcfe, 0x10325476, 0xc3d2e1f0).

Definition step (x : list Z) (group : nat) (constant : Z) (s : state) (word shift : Z) : state :=
  let '(a, b, c, d, e) := s in
  let t := w32 (rotl shift (w32 (a + mix group b c d + nth (Z.to_nat word) x 0 + constant)) + e) in
  (e, t, b, rotl 10 c, d).

Definition line (x : list Z) (right : bool) (s : state) : state :=
  foldl (fun s j =>
           let group := (j / 16)%nat in
           if right
           then step x (4 - group) (nth group right_constant 0) s (nth j right_word 0) (nth j right_shift 0)
           else step x group (nth group left_constant 0) s (nth j left_word 0) (nth j left_shift 0))
        s (seq 0 80).

Fixpoint words (bs : bytes) : list Z :=
  match bs with
  | a :: b :: c :: d :: bs' => le_combine [a; b; c; d] :: words bs'
  | _ => []
  end.

Definition compress (s : state) (block : bytes) : state :=
  let x := words block in
  let '(h0, h1, h2, h3, h4) := s in
  let '(a, b, c, d, e) := line x false s in
  let '(a', b', c', d', e') := line x true s in
  (w32 (h1 + c + d'), w32 (h2 + d + e'), w32 (h3 + e + a'), w32 (h4 + a + b'), w32 (h0 + b + c')).

Fixpoint blocks (fuel : nat) (s : state) (bs : bytes) : state :=
  match fuel, bs with
  | O, _ | _, [] => s
  | S fuel', _ => blocks fuel' (compress s (take 64 bs)) (drop 64 bs)
  end.

Definition pad (msg : bytes) : bytes :=
  msg ++ byte.of_Z 128 :: replicate (Z.to_nat ((55 - len msg) mod 64)) (byte.of_Z 0)
      ++ le_split 8 (8 * len msg).

Definition digest (msg : bytes) : bytes :=
  let padded := pad msg in
  let '(a, b, c, d, e) := blocks (length padded) initial padded in
  le_split 4 a ++ le_split 4 b ++ le_split 4 c ++ le_split 4 d ++ le_split 4 e.

Lemma ripemd160_digest_length msg : length (digest msg) = 20%nat.
Proof.
  unfold digest. destruct (blocks _ _ _) as [[[[a b] c] d] e].
  rewrite !length_app, !length_le_split. done.
Qed.
End Ripemd160.

Module Sha3_256.
Definition w64 (x : Z) : Z := x mod 2 ^ 64.
Definition rotl (n x : Z) : Z := Z.lor (w64 (Z.shiftl x n)) (Z.shiftr x (64 - n)).

Definition round_constants : list Z :=
[0x0000000000000001; 0x0000000000008082; 0x800000000000808a; 0x8000000080008000;
 0x000000000000808b; 0x0000000080000001; 0x8000000080008081; 0x8000000000008009;
 0x000000000000008a; 0x0000000000000088; 0x0000000080008009; 0x000000008000000a;
 0x000000008000808b; 0x800000000000008b; 0x8000000000008089; 0x8000000000008003;
 0x8000000000008002; 0x8000000000000080; 0x000000000000800a; 0x800000008000000a;
 0x8000000080008081; 0x8000000000008080; 0x0000000080000001; 0x8000000080008008].

(** Rotation offsets of the lanes [x + 5 * y]. *)
Definition offsets : list Z :=
[0; 1; 62; 28; 27;
 36; 44; 6; 55; 20;
 3; 10; 43; 25; 39;
 41; 45; 15; 21; 8;
 18; 2; 61; 56; 14].

Definition lane (a : list Z) (x y : nat) : Z := nth ((x mod 5) + 5 * (y mod 5)) a 0.
Definition tabulate (f : nat -> nat -> Z) : list Z :=
  (fun i => f (i mod 5)%nat (i / 5)%nat) <$> seq 0 25.

Definition one_round (a : list Z) (rc : Z) : list Z :=
  let c := (fun x => Z.lxor (Z.lxor (Z.lxor (Z.lxor (lane a x 0) (lane a x 1)) (lane a x 2)) (lane a x 3)) (lane a x 4))
           <$> seq 0 5 in
  let d := (fun x => Z.lxor (nth ((x + 4) mod 5) c 0) (rotl 1 (nth ((x + 1) mod 5) c 0))) <$> seq 0 5 in
  let a := tabulate (fun x y => Z.lxor (lane a x y) (nth x d 0)) in
  (* rho and pi: lane (y, 2x+3y) receives lane (x, y); read backwards here *)
  let b := tabulate (fun x y =>
    let sx := (x + 3 * y)%nat in
    rotl (nth ((sx mod 5) + 5 * x) offsets 0) (lane a sx x)) in
  let a := tabulate (fun x y =>
    Z.lxor (lane b x y) (Z.land (2 ^ 64 - 1 - lane b (x + 1) y) (lane b (x + 2) y))) in
  match a with
  | l :: rest => Z.lxor l rc :: rest
  | [] => []
  end.

Definition keccak (a : list Z) : list Z := foldl one_round a round_constants.

Fixpoint lanes (n : nat) (bs : bytes) : list Z :=
  match n with
  | O => []
  | S n' => le_combine (take 8 bs) :: lanes n' (drop 8 bs)
  end.

Definition absorb (a : list Z) (block : bytes) : list Z :=
  keccak (zip_with Z.lxor a (lanes 17 block ++ replicate 8 0)).

Fixpoint blocks (fuel : nat) (a : list Z) (bs : bytes) : list Z :=
  match fuel, bs with
  | O, _ | _, [] => a
  | S fuel', _ => blocks fuel' (absorb a (take 136 bs)) (drop 136 bs)
  end.

Definition pad (msg : bytes) : bytes :=
  let k := 136 - len msg mod 136 in
  msg ++ (if k =? 1 then [byte.of_Z 134]
          else byte.of_Z 6 :: replicate (Z.to_nat (k - 2)) (byte.of_Z 0) ++ [byte.of_Z 128]).

Definition digest (msg : bytes) : bytes :=
  let padded := pad msg in
  let a := blocks (length padded) (replicate 25 0) padded in
  le_split 8 (nth 0 a 0) ++ le_split 8 (nth 1 a 0) ++ le_split 8 (nth 2 a 0) ++ le_split 8 (nth 3 a 0).

Lemma sha3_256_digest_length msg : length (digest msg) = 32%nat.
Proof. unfold digest. rewrite !length_app, !length_le_split. done. Qed.
End Sha3_256.

(** ** [consensus/hashes.py] *)

Definition sha256 (data : bytes) : bytes := Sha256.digest data.
Definition double_sha256 (data : bytes) : bytes := sha256 (sha256 data).
Definition double_sha256_hex (data : bytes) : str := hex (double_sha256 data).
Definition hash_to_int (hash_bytes : bytes) : Z := from_bytes_big hash_bytes.

Lemma double_sha256_length data : length (double_sha256 data) = 32%nat.
Proof. apply Sha256.sha256_digest_length. Qed.

Lemma double_sha256_hex_length data : length (double_sha256_hex data) = 64%nat.
Proof. unfold double_sha256_hex. by rewrite hex_length, double_sha256_length. Qed.

(** Published test vectors. *)
Example sha256_abc :
  hex (sha256 (b "abc")) = u "ba7816bf8f01cfea414140de5dae2223b00361a396177a9cb410ff61f20015ad".
Proof. vm_compute. reflexivity. Qed.

Example sha256_two_blocks :
  hex (sha256 (b "abcdbcdecdefdefgefghfghighijhijkijkljklmklmnlmnomnopnopq")) =
  u "248d6a61d20638b8e5c026930c3e6039a33ce45964ff2167f6ecedd419db06c1".
Proof. vm_compute. reflexivity. Qed.

Example ripemd160_abc :
  hex (Ripemd160.digest (b "abc")) = u "8eb208f7e05d987a9b044a8e98c6b087f15a0bfc".
Proof. vm_compute. reflexivity. Qed.

Example sha3_256_abc :
  hex (Sha3_256.digest (b "abc")) = u "3a985da74fe225b2045c172d6bd390bd855f086e3e9d525b46bfe24511431532".
Proof. vm_compute. reflexivity. Qed.

#[global] Opaque sha256 double_sha256 Sha256.digest Ripemd160.digest Sha3_256.digest.
