(* ===== verification/Params.v ===== *)
(** * Consensus parameters and activation heights

    [consensus/params.py] (the parameter record and the three networks) and
    [consensus/pq_activation.py] (the height at which CHCQ spends become valid). *)

From S2P Require Import Prelude PyOrder PyText.

Record ConsensusParams : Type := {
  coinbase_maturity : Z;
  halving_interval : Z;
  initial_miner_subsidy_chipbits : Z;
  initial_node_epoch_reward_chipbits : Z;
  max_money_chipbits : Z;
  target_block_time_seconds : Z;
  difficulty_adjustment_window : Z;
  genesis_bits : Z;
  max_block_weight : Z;
  max_block_sigops : Z;
  epoch_length_blocks : Z;
  register_node_fee_chipbits : Z;
  renew_node_fee_chipbits : Z;
  node_reward_activation_height : Z;
  reward_node_warmup_epochs : Z;
  reward_check_windows_per_epoch : Z;
  reward_target_checks_per_epoch : Z;
  reward_min_passed_checks_per_epoch : Z;
  reward_verifier_committee_size : Z;
  reward_verifier_quorum : Z;
  reward_final_confirmation_window_blocks : Z;
  reward_sync_lag_tolerance_blocks : Z;
  max_rewarded_nodes_per_epoch : Z;
  max_attestation_bundles_per_block : Z;
  max_attestations_per_bundle : Z;
  max_attestations_per_verifier_per_window : Z;
  target_block_time_activation_height : Z;
  legacy_target_block_time_seconds : option Z;
  pq_support_activation_height_param : option Z;
  reward_node_fee_recent_driver_activation_height : Z;
}.

Definition target_block_time_seconds_for_height (height : Z) (params : ConsensusParams) : Z :=
  match legacy_target_block_time_seconds params with
  | Some legacy =>
      if height <? target_block_time_activation_height params then legacy
      else target_block_time_seconds params
  | None => target_block_time_seconds params
  end.

Definition MAINNET_PARAMS : ConsensusParams := {|
  coinbase_maturity := 100;
  halving_interval := 111000;
  initial_miner_subsidy_chipbits := 50 * 100000000;
  initial_node_epoch_reward_chipbits := 50 * 100000000;
  max_money_chipbits := 11000000 * 100000000;
  target_block_time_seconds := 600;
  difficulty_adjustment_window := 1000;
  genesis_bits := 0x207FFFFF;
  max_block_weight := 4000000;
  max_block_sigops := 80000;
  epoch_length_blocks := 100;
  register_node_fee_chipbits := 100000000;
  renew_node_fee_chipbits := 10000000;
  node_reward_activation_height := 1000;
  reward_node_warmup_epochs := 2;
  reward_check_windows_per_epoch := 10;
  reward_target_checks_per_epoch := 3;
  reward_min_passed_checks_per_epoch := 2;
  reward_verifier_committee_size := 3;
  reward_verifier_quorum := 2;
  reward_final_confirmation_window_blocks := 10;
  reward_sync_lag_tolerance_blocks := 5;
  max_rewarded_nodes_per_epoch := 25;
  max_attestation_bundles_per_block := 4;
  max_attestations_per_bundle := 24;
  max_attestations_per_verifier_per_window := 1;
  target_block_time_activation_height := 0;
  legacy_target_block_time_seconds := None;
  pq_support_activation_height_param := None;
  reward_node_fee_recent_driver_activation_height := 0;
|}.

Definition DEVNET_PARAMS : ConsensusParams := {|
  coinbase_maturity := 10;
  halving_interval := 111000;
  initial_miner_subsidy_chipbits := 50 * 100000000;
  initial_node_epoch_reward_chipbits := 50 * 100000000;
  max_money_chipbits := 11000000 * 100000000;
  target_block_time_seconds := 300;
  difficulty_adjustment_window := 200;
  genesis_bits := 0x1F0FFFFF;
  max_block_weight := 4000000;
  max_block_sigops := 80000;
  epoch_length_blocks := 100;
  register_node_fee_chipbits := 100000000;
  renew_node_fee_chipbits := 10000000;
  node_reward_activation_height := 300;
  reward_node_warmup_epochs := 2;
  reward_check_windows_per_epoch := 10;
  reward_target_checks_per_epoch := 3;
  reward_min_passed_checks_per_epoch := 2;
  reward_verifier_committee_size := 3;
  reward_verifier_quorum := 2;
  reward_final_confirmation_window_blocks := 10;
  reward_sync_lag_tolerance_blocks := 5;
  max_rewarded_nodes_per_epoch := 10;
  max_attestation_bundles_per_block := 4;
  max_attestations_per_bundle := 24;
  max_attestations_per_verifier_per_window := 1;
  target_block_time_activation_height := 0;
  legacy_target_block_time_seconds := None;
  pq_support_activation_height_param := None;
  reward_node_fee_recent_driver_activation_height := 0;
|}.

Definition TESTNET_PARAMS : ConsensusParams := {|
  coinbase_maturity := 20;
  halving_interval := 111000;
  initial_miner_subsidy_chipbits := 50 * 100000000;
  initial_node_epoch_reward_chipbits := 50 * 100000000;
  max_money_chipbits := 11000000 * 100000000;
  target_block_time_seconds := 600;
  difficulty_adjustment_window := 500;
  genesis_bits := 0x1F07FFFF;
  max_block_weight := 4000000;
  max_block_sigops := 80000;
  epoch_length_blocks := 100;
  register_node_fee_chipbits := 100000000;
  renew_node_fee_chipbits := 10000000;
  node_reward_activation_height := 600;
  reward_node_warmup_epochs := 2;
  reward_check_windows_per_epoch := 10;
  reward_target_checks_per_epoch := 3;
  reward_min_passed_checks_per_epoch := 2;
  reward_verifier_committee_size := 3;
  reward_verifier_quorum := 2;
  reward_final_confirmation_window_blocks := 10;
  reward_sync_lag_tolerance_blocks := 5;
  max_rewarded_nodes_per_epoch := 15;
  max_attestation_bundles_per_block := 4;
  max_attestations_per_bundle := 24;
  max_attestations_per_verifier_per_window := 1;
  target_block_time_activation_height := 4500;
  legacy_target_block_time_seconds := Some 300;
  pq_support_activation_height_param := None;
  reward_node_fee_recent_driver_activation_height := 12000;
|}.

(** What every network's parameters satisfy and the consensus code relies on:
    the divisors are positive and the amounts non-negative.  The code divides by
    these parameters without a test; Python would raise on a zero divisor. *)
Record params_ok (p : ConsensusParams) : Prop := {
  halving_interval_pos : 0 < halving_interval p;
  epoch_length_pos : 0 < epoch_length_blocks p;
  window_pos : 0 < difficulty_adjustment_window p;
  block_time_pos : 0 < target_block_time_seconds p;
  legacy_block_time_pos : forall t, legacy_target_block_time_seconds p = Some t -> 0 < t;
  miner_subsidy_nonneg : 0 <= initial_miner_subsidy_chipbits p;
  node_reward_nonneg : 0 <= initial_node_epoch_reward_chipbits p;
  max_money_nonneg : 0 <= max_money_chipbits p;
}.

Lemma mainnet_ok : params_ok MAINNET_PARAMS.
Proof. split; simpl; (lia || done). Qed.
Lemma devnet_ok : params_ok DEVNET_PARAMS.
Proof. split; simpl; (lia || done). Qed.
Lemma testnet_ok : params_ok TESTNET_PARAMS.
Proof. split; simpl; try lia. naive_solver. Qed.

Create HintDb chipcoin.
#[export] Hint Resolve mainnet_ok devnet_ok testnet_ok : chipcoin.

(** ** [consensus/pq_activation.py] *)

Definition PQ_TRANSACTION_VERSION : Z := 2.
Definition PQ_SUPPORT_MAINNET_ACTIVATION_HEIGHT : Z := 0.
Definition PQ_SUPPORT_DEVNET_ACTIVATION_HEIGHT : Z := 30000.
Definition PQ_SUPPORT_TESTNET_ACTIVATION_HEIGHT : Z := 20000.

(** [text.lower()] for comparison with the lower-case ASCII network names: no
    character outside ASCII has a lower-case form made of their letters. *)
Definition lower (s : str) : str :=
  (fun c => if (65 <=? c) && (c <=? 90) then c + 32 else c) <$> s.

Definition pq_support_activation_height (network : str) (params : option ConsensusParams) : Z :=
  match params ≫= pq_support_activation_height_param with
  | Some h => h
  | None =>
      let normalized := lower network in
      if bool_decide (normalized = u "mainnet") then PQ_SUPPORT_MAINNET_ACTIVATION_HEIGHT
      else if bool_decide (normalized = u "devnet") then PQ_SUPPORT_DEVNET_ACTIVATION_HEIGHT
      else if bool_decide (normalized = u "testnet") then PQ_SUPPORT_TESTNET_ACTIVATION_HEIGHT
      else PQ_SUPPORT_TESTNET_ACTIVATION_HEIGHT
  end.

Definition pq_support_is_active (network : str) (height : Z) (params : option ConsensusParams) : bool :=
  pq_support_activation_height network params <=? height.
