(* ===== verification/Models.v ===== *)
(** * Consensus objects ([consensus/models.py])

    Transactions, headers and blocks as the source's frozen dataclasses.  A
    [dict[str, str]] of metadata is a finite map: the code reads it by key and
    serializes it in sorted key order, never by insertion order. *)

From S2P Require Import Prelude PyOrder PyText.

Record OutPoint : Type := mkOutPoint { op_txid : str; op_index : Z }.

Record TxInput : Type := mkTxInput {
  previous_output : OutPoint;
  signature : bytes;
  public_key : bytes;
  sequence : Z;
  sig_scheme_id : Z;
}.

Record TxOutput : Type := mkTxOutput { value : Z; recipient : str }.

Record Transaction : Type := mkTransaction {
  version : Z;
  inputs : list TxInput;
  outputs : list TxOutput;
  locktime : Z;
  metadata : gmap str str;
}.

Record BlockHeader : Type := mkBlockHeader {
  header_version : Z;
  previous_block_hash : str;
  header_merkle_root : str;
  timestamp : Z;
  bits : Z;
  nonce : Z;
}.

Record Block : Type := mkBlock { header : BlockHeader; transactions : list Transaction }.

#[global] Instance OutPoint_eq_dec : EqDecision OutPoint.
Proof. solve_decision. Defined.
#[global] Instance OutPoint_countable : Countable OutPoint.
Proof.
  refine (inj_countable' (fun o => (op_txid o, op_index o)) (fun p => mkOutPoint p.1 p.2) _).
  by intros [].
Defined.
#[global] Instance TxInput_eq_dec : EqDecision TxInput.
Proof. solve_decision. Defined.
#[global] Instance TxOutput_eq_dec : EqDecision TxOutput.
Proof. solve_decision. Defined.
#[global] Instance Transaction_eq_dec : EqDecision Transaction.
Proof. solve_decision. Defined.
#[global] Instance BlockHeader_eq_dec : EqDecision BlockHeader.
Proof. solve_decision. Defined.
#[global] Instance Block_eq_dec : EqDecision Block.
Proof. solve_decision. Defined.

(** [metadata.get(key)] and [metadata.get(key, "")] *)
Definition md_get (m : gmap str str) (key : string) : option str := m !! u key.
Definition md_get_or (m : gmap str str) (key : string) (default : str) : str :=
  match m !! u key with Some v => v | None => default end.

(** [metadata[key]] *)
Definition md_index (m : gmap str str) (key : string) : res str :=
  match m !! u key with Some v => Ok v | None => raise KeyError key end.
