(* ===== verification/Serialization.v ===== *)
(** * Deterministic serialization ([consensus/serialization.py])

    Encoders return the bytes or raise what [struct.pack], [bytes.fromhex] or
    [str.encode] raise; decoders read a buffer at an offset and return the value
    with the next offset.  Decoding inverts encoding at any position of any
    buffer, and a decoding loop whose count comes from the wire always ends. *)

From S2P Require Import Prelude PyOrder PyText Hashes Models.

(** ** Primitive encoders and decoders *)

Definition _encode_varint (v : Z) : res bytes :=
  if v <? 0 then raise ValueError "varint value cannot be negative"
  else if v <? 0xFD then Ok [byte.of_Z v]
  else if v <=? 0xFFFF then let* p := pack 2 v in Ok (byte.of_Z 0xFD :: p)
  else if v <=? 0xFFFFFFFF then let* p := pack 4 v in Ok (byte.of_Z 0xFE :: p)
  else if v <=? 0xFFFFFFFFFFFFFFFF then let* p := pack 8 v in Ok (byte.of_Z 0xFF :: p)
  else raise ValueError "varint value exceeds 64-bit range".

Definition varint_end {A} : res A := raise ValueError "Unexpected end of payload while decoding varint.".

Definition _decode_varint (buffer : bytes) (offset : Z) : res (Z * Z) :=
  if len buffer <=? offset then varint_end
  else match buffer !! Z.to_nat offset with
  | None => raise IndexError "index out of range"
  | Some x =>
      let prefix := byte.unsigned x in
      let offset := offset + 1 in
      if prefix <? 0xFD then Ok (prefix, offset)
      else if prefix =? 0xFD then
        if len buffer <? offset + 2 then varint_end
        else let* v := unpack_from 2 buffer offset in Ok (v, offset + 2)
      else if prefix =? 0xFE then
        if len buffer <? offset + 4 then varint_end
        else let* v := unpack_from 4 buffer offset in Ok (v, offset + 4)
      else if len buffer <? offset + 8 then varint_end
      else let* v := unpack_from 8 buffer offset in Ok (v, offset + 8)
  end.

Definition _encode_bytes (v : bytes) : res bytes :=
  let* n := _encode_varint (len v) in Ok (n ++ v).

Definition _decode_bytes (buffer : bytes) (offset : Z) : res (bytes * Z) :=
  let* '(length, offset) := _decode_varint buffer offset in
  let end_ := offset + length in
  if len buffer <? end_ then raise ValueError "Unexpected end of payload while decoding bytes."
  else Ok (slice buffer offset end_, end_).

Definition _encode_string (v : str) : res bytes :=
  let* raw := utf8_encode v in _encode_bytes raw.

Definition _decode_string (buffer : bytes) (offset : Z) : res (str * Z) :=
  let* '(raw, offset) := _decode_bytes buffer offset in
  let* text := utf8_decode raw in
  Ok (text, offset).

Definition _encode_hash (hex_value : str) : res bytes :=
  let* raw := fromhex hex_value in
  if negb (len raw =? 32) then raise ValueError "hash values must be exactly 32 bytes" else Ok raw.

(** [for _ in range(count)] over a decoder.  The count may be any 64-bit value;
    [fuel] bounds the iterations by the size of the buffer, since each one
    consumes at least a byte. *)
Fixpoint decode_many {A} (decode : Z -> res (A * Z)) (fuel : nat) (count offset : Z) : res (list A * Z) :=
  if count <=? 0 then Ok ([], offset)
  else match fuel with
  | O => raise OutOfFuel "decode_many"
  | S fuel' =>
      let* '(x, offset) := decode offset in
      let* '(xs, offset) := decode_many decode fuel' (count - 1) offset in
      Ok (x :: xs, offset)
  end.

Definition decode_fuel (buffer : bytes) : nat := S (length buffer).
Arguments decode_fuel : simpl never.

Definition metadata_items (m : gmap str str) : list (str * str) := py_sorted (map_to_list m).

Definition encode_pair (kv : str * str) : res bytes :=
  let* k := _encode_string kv.1 in
  let* v := _encode_string kv.2 in
  Ok (k ++ v).

Definition _encode_metadata (m : gmap str str) : res bytes :=
  let items := metadata_items m in
  let* count := _encode_varint (len items) in
  let* parts := mapM encode_pair items in
  Ok (count ++ concat parts).

Definition decode_pair (buffer : bytes) (offset : Z) : res ((str * str) * Z) :=
  let* '(key, offset) := _decode_string buffer offset in
  let* '(v, offset) := _decode_string buffer offset in
  Ok ((key, v), offset).

(** The successive assignments [metadata[key] = value]. *)
Definition assign_items (items : list (str * str)) : gmap str str :=
  foldl (fun m kv => <[kv.1 := kv.2]> m) ∅ items.

Definition _decode_metadata (buffer : bytes) (offset : Z) : res (gmap str str * Z) :=
  let* '(count, offset) := _decode_varint buffer offset in
  let* '(items, offset) := decode_many (decode_pair buffer) (decode_fuel buffer) count offset in
  Ok (assign_items items, offset).

(** ** Transactions *)

Definition encode_scheme (tx_version : Z) (scheme : Z) : res bytes :=
  if 2 <=? tx_version then
    if (scheme <? 0) || (0xFF <? scheme) then raise ValueError "Signature scheme id must fit in one byte."
    else Ok [byte.of_Z scheme]
  else if negb (scheme =? 0)
  then raise ValueError "Transaction v1 inputs cannot declare non-legacy signature schemes."
  else Ok [].

Definition serialize_input (tx_version : Z) (tx_input : TxInput) : res bytes :=
  let* hash := _encode_hash (op_txid (previous_output tx_input)) in
  let* index := pack 4 (op_index (previous_output tx_input)) in
  let* scheme := encode_scheme tx_version (sig_scheme_id tx_input) in
  let* sig := _encode_bytes (signature tx_input) in
  let* key := _encode_bytes (public_key tx_input) in
  let* seq_ := pack 4 (sequence tx_input) in
  Ok (hash ++ index ++ scheme ++ sig ++ key ++ seq_).

Definition serialize_output (tx_output : TxOutput) : res bytes :=
  let* v := pack 8 (value tx_output) in
  let* r := _encode_string (recipient tx_output) in
  Ok (v ++ r).

Definition serialize_transaction (transaction : Transaction) : res bytes :=
  let* ver := pack 4 (version transaction) in
  let* n_in := _encode_varint (len (inputs transaction)) in
  let* ins := mapM (serialize_input (version transaction)) (inputs transaction) in
  let* n_out := _encode_varint (len (outputs transaction)) in
  let* outs := mapM serialize_output (outputs transaction) in
  let* lock := pack 4 (locktime transaction) in
  let* meta := _encode_metadata (metadata transaction) in
  Ok (ver ++ n_in ++ concat ins ++ n_out ++ concat outs ++ lock ++ meta).

Definition strip_input (tx_input : TxInput) : TxInput :=
  mkTxInput (previous_output tx_input) [] [] (sequence tx_input) (sig_scheme_id tx_input).

Definition serialize_transaction_for_signing (transaction : Transaction) (input_index : Z)
    (previous_output_value : Z) (previous_output_recipient : str) (network : str) : res bytes :=
  if (input_index <? 0) || (len (inputs transaction) <=? input_index)
  then raise IndexError "Transaction input index is out of range."
  else
    let stripped := mkTransaction (version transaction) (strip_input <$> inputs transaction)
                      (outputs transaction) (locktime transaction) (metadata transaction) in
    let* encoded := serialize_transaction stripped in
    let* index := pack 4 input_index in
    let* v := pack 8 previous_output_value in
    let* r := _encode_string previous_output_recipient in
    let* tail :=
      if 2 <=? version transaction
      then let* domain := _encode_string (u "chipcoin:tx-signature:v2:" ++ network) in
           let* v2 := pack 4 2 in Ok (domain ++ v2)
      else pack 4 1 in
    Ok (encoded ++ index ++ v ++ r ++ tail).

Definition deserialize_input (tx_version : Z) (payload : bytes) (offset : Z) : res (TxInput * Z) :=
  let previous_txid := hex (slice payload offset (offset + 32)) in
  let offset := offset + 32 in
  let* previous_index := unpack_from 4 payload offset in
  let offset := offset + 4 in
  let* '(scheme, offset) :=
    if 2 <=? tx_version then
      if len payload <=? offset
      then raise ValueError "Unexpected end of payload while decoding signature scheme id."
      else match payload !! Z.to_nat offset with
           | Some x => Ok (byte.unsigned x, offset + 1)
           | None => raise IndexError "index out of range"
           end
    else Ok (0, offset) in
  let* '(sig, offset) := _decode_bytes payload offset in
  let* '(key, offset) := _decode_bytes payload offset in
  let* seq_ := unpack_from 4 payload offset in
  let offset := offset + 4 in
  Ok (mkTxInput (mkOutPoint previous_txid previous_index) sig key seq_ scheme, offset).

Definition deserialize_output (payload : bytes) (offset : Z) : res (TxOutput * Z) :=
  let* v := unpack_from 8 payload offset in
  let offset := offset + 8 in
  let* '(r, offset) := _decode_string payload offset in
  Ok (mkTxOutput v r, offset).

Definition deserialize_transaction (payload : bytes) (offset : Z) : res (Transaction * Z) :=
  let* ver := unpack_from 4 payload offset in
  let offset := offset + 4 in
  let* '(input_count, offset) := _decode_varint payload offset in
  let* '(ins, offset) :=
    decode_many (deserialize_input ver payload) (decode_fuel payload) input_count offset in
  let* '(output_count, offset) := _decode_varint payload offset in
  let* '(outs, offset) :=
    decode_many (deserialize_output payload) (decode_fuel payload) output_count offset in
  let* lock := unpack_from 4 payload offset in
  let offset := offset + 4 in
  let* '(meta, offset) := _decode_metadata payload offset in
  Ok (mkTransaction ver ins outs lock meta, offset).

(** ** Headers and blocks *)

Definition serialize_block_header (h : BlockHeader) : res bytes :=
  let* v := pack 4 (header_version h) in
  let* prev := _encode_hash (previous_block_hash h) in
  let* root := _encode_hash (header_merkle_root h) in
  let* t := pack 4 (timestamp h) in
  let* bi := pack 4 (bits h) in
  let* n := pack 4 (nonce h) in
  Ok (v ++ prev ++ root ++ t ++ bi ++ n).

Definition serialize_block (block : Block) : res bytes :=
  let* h := serialize_block_header (header block) in
  let* n := _encode_varint (len (transactions block)) in
  let* txs := mapM serialize_transaction (transactions block) in
  Ok (h ++ n ++ concat txs).

Definition deserialize_block_header (payload : bytes) (offset : Z) : res (BlockHeader * Z) :=
  let* v := unpack_from 4 payload offset in
  let prev := hex (slice payload (offset + 4) (offset + 36)) in
  let root := hex (slice payload (offset + 36) (offset + 68)) in
  let* t := unpack_from 4 payload (offset + 68) in
  let* bi := unpack_from 4 payload (offset + 72) in
  let* n := unpack_from 4 payload (offset + 76) in
  Ok (mkBlockHeader v prev root t bi n, offset + 80).

Definition deserialize_block (payload : bytes) (offset : Z) : res (Block * Z) :=
  let* '(h, offset) := deserialize_block_header payload offset in
  let* '(transaction_count, offset) := _decode_varint payload offset in
  let* '(txs, offset) :=
    decode_many (deserialize_transaction payload) (decode_fuel payload) transaction_count offset in
  Ok (mkBlock h txs, offset).

(** ** Identifiers: [Transaction.txid] and [BlockHeader.block_hash] *)

Definition txid (transaction : Transaction) : res str :=
  let* raw := serialize_transaction transaction in Ok (double_sha256_hex raw).

Definition block_hash (h : BlockHeader) : res str :=
  let* raw := serialize_block_header h in Ok (double_sha256_hex raw).

(** A hash as text, the way a decoder spells it: [bytes.fromhex(h).hex()]. *)
Definition canonical_hash (h : str) : str :=
  match fromhex h with Ok raw => hex raw | Raise _ => h end.

Definition canonical_input (i : TxInput) : TxInput :=
  mkTxInput (mkOutPoint (canonical_hash (op_txid (previous_output i))) (op_index (previous_output i)))
    (signature i) (public_key i) (sequence i) (sig_scheme_id i).

Definition canonical_tx (t : Transaction) : Transaction :=
  mkTransaction (version t) (canonical_input <$> inputs t) (outputs t) (locktime t) (metadata t).

Definition canonical_header (h : BlockHeader) : BlockHeader :=
  mkBlockHeader (header_version h) (canonical_hash (previous_block_hash h))
    (canonical_hash (header_merkle_root h)) (timestamp h) (bits h) (nonce h).

Definition canonical_block (bl : Block) : Block :=
  mkBlock (canonical_header (header bl)) (canonical_tx <$> transactions bl).

(** ** Decoding inverts encoding

    [decodes dec bs x]: at any place of any buffer where the bytes [bs] stand,
    the decoder [dec] returns [x] and the offset just after [bs]. *)

Definition decodes {A} (dec : bytes -> Z -> res (A * Z)) (bs : bytes) (x : A) : Prop :=
  forall pre post, dec (pre ++ bs ++ post) (len pre) = Ok (x, len pre + len bs).

Lemma decodes_at {A} (dec : bytes -> Z -> res (A * Z)) bs x buffer offset pre post :
  decodes dec bs x -> buffer = pre ++ bs ++ post -> offset = len pre ->
  dec buffer offset = Ok (x, offset + len bs).
Proof. intros H -> ->. apply H. Qed.

Lemma unpack_at n v bs buffer offset pre post :
  pack n v = Ok bs -> buffer = pre ++ bs ++ post -> offset = len pre ->
  unpack_from n buffer offset = Ok v.
Proof. intros H -> ->. by apply unpack_pack. Qed.

Lemma slice_at {A} (buffer mid pre post : list A) lo hi :
  buffer = pre ++ mid ++ post -> lo = len pre -> hi = len pre + len mid -> slice buffer lo hi = mid.
Proof. intros -> -> ->. apply slice_app. Qed.

Lemma lookup_at {A} (buffer : list A) x pre post :
  buffer = pre ++ x :: post -> buffer !! Z.to_nat (len pre) = Some x.
Proof.
  intros ->. unfold len. rewrite Nat2Z.id. rewrite lookup_app_r by done. by rewrite Nat.sub_diag.
Qed.

Lemma len_pos_ltb {A} (pre : list A) x post : (len (pre ++ x :: post) <=? len pre) = false.
Proof. rewrite len_app, len_cons. pose proof (len_nonneg post). apply Z.leb_gt. lia. Qed.

Ltac app_eq := rewrite <- ?app_assoc; simpl; rewrite <- ?app_assoc; reflexivity.
Ltac len_eq := rewrite ?len_app, ?len_cons; change (@len Init.Byte.byte []) with 0; lia.

Lemma decodes_varint v bs : _encode_varint v = Ok bs -> decodes _decode_varint bs v.
Proof.
  unfold _encode_varint. intros H pre post. inv_ok; bool_prop; unfold _decode_varint; simpl;
  rewrite len_pos_ltb, (lookup_at _ _ pre _ eq_refl), byte_of_Z_unsigned_id by lia; simpl.
  - rewrite (proj2 (Z.ltb_lt v 253)) by lia. done.
  - pose proof (pack_length _ _ _ E) as Hl. pose proof (len_nonneg post).
    rewrite (proj2 (Z.ltb_ge _ _)) by (rewrite len_app, len_cons, len_app; lia).
    rewrite (unpack_at 2 v a _ _ (pre ++ [byte.of_Z 253]) post) by (done || app_eq || len_eq).
    simpl. do 2 f_equal. rewrite len_cons. lia.
  - pose proof (pack_length _ _ _ E) as Hl. pose proof (len_nonneg post).
    rewrite (proj2 (Z.ltb_ge _ _)) by (rewrite len_app, len_cons, len_app; lia).
    rewrite (unpack_at 4 v a _ _ (pre ++ [byte.of_Z 254]) post) by (done || app_eq || len_eq).
    simpl. do 2 f_equal. rewrite len_cons. lia.
  - pose proof (pack_length _ _ _ E) as Hl. pose proof (len_nonneg post).
    rewrite (proj2 (Z.ltb_ge _ _)) by (rewrite len_app, len_cons, len_app; lia).
    rewrite (unpack_at 8 v a _ _ (pre ++ [byte.of_Z 255]) post) by (done || app_eq || len_eq).
    simpl. do 2 f_equal. rewrite len_cons. lia.
Qed.

Lemma decodes_bytes v bs : _encode_bytes v = Ok bs -> decodes _decode_bytes bs v.
Proof.
  unfold _encode_bytes. intros H pre post. inv_ok. unfold _decode_bytes.
  rewrite (decodes_at _ _ _ _ _ pre (v ++ post) (decodes_varint _ _ E)) by (done || app_eq). simpl.
  pose proof (len_nonneg post).
  rewrite (proj2 (Z.ltb_ge _ _)) by (rewrite !len_app; lia).
  rewrite (slice_at _ v (pre ++ a) post) by (app_eq || len_eq).
  do 2 f_equal. len_eq.
Qed.

Lemma decodes_string v bs : _encode_string v = Ok bs -> decodes _decode_string bs v.
Proof.
  unfold _encode_string. intros H pre post. inv_ok. unfold _decode_string.
  rewrite (decodes_at _ _ _ _ _ pre post (decodes_bytes _ _ H)) by done. simpl.
  by rewrite (utf8_decode_encode v).
Qed.

Lemma decodes_pair kv bs : encode_pair kv = Ok bs -> decodes decode_pair bs kv.
Proof.
  unfold encode_pair. intros H pre post. inv_ok. unfold decode_pair.
  rewrite (decodes_at _ _ _ _ _ pre (a0 ++ post) (decodes_string _ _ E)) by (done || app_eq). simpl.
  rewrite (decodes_at _ _ _ _ _ (pre ++ a) post (decodes_string _ _ E0)) by (app_eq || len_eq). simpl.
  destruct kv. do 2 f_equal. len_eq.
Qed.

(** The loop reads back a list of values encoded one after the other, with fuel
    for one iteration more than there are values. *)
Lemma decodes_many {A} (dec : bytes -> Z -> res (A * Z)) (fuel : nat) parts xs :
  Forall2 (decodes dec) parts xs -> (length xs <= fuel)%nat ->
  decodes (fun buffer => decode_many (dec buffer) fuel (len xs)) (concat parts) xs.
Proof.
  intros H. revert fuel. induction H as [|bs x parts xs Hx _ IH]; intros fuel Hf pre post; simpl.
  - destruct fuel; simpl; do 2 f_equal; len_eq.
  - simpl in Hf. destruct fuel as [|fuel]; [lia|]. cbn [decode_many].
    rewrite (proj2 (Z.leb_gt _ _)) by (rewrite len_cons; pose proof (len_nonneg xs); lia).
    rewrite (decodes_at _ _ _ _ _ pre (concat parts ++ post) Hx) by (done || app_eq). simpl.
    rewrite len_cons. replace (1 + len xs - 1) with (len xs) by lia.
    replace (pre ++ (bs ++ concat parts) ++ post)
      with ((pre ++ bs) ++ concat parts ++ post) by app_eq.
    rewrite <- (len_app pre bs). rewrite IH by lia. simpl. do 2 f_equal. len_eq.
Qed.

Definition encoded_nonempty {A} (enc : A -> res bytes) : Prop :=
  forall x bs, enc x = Ok bs -> bs ≠ [].

Lemma length_concat_ge {A} (parts : list (list A)) :
  Forall (fun p => p ≠ []) parts -> (length parts <= length (concat parts))%nat.
Proof.
  induction 1 as [|p parts Hp _ IH]; simpl; [lia|]. rewrite length_app.
  destruct p; [done|]. simpl. lia.
Qed.

(** Encoding a list with [mapM] and reading it back with the loop. *)
Lemma decodes_mapM {A} (enc : A -> res bytes) (dec : bytes -> Z -> res (A * Z)) (f : A -> A) xs parts pre post :
  (forall x bs, enc x = Ok bs -> decodes dec bs (f x)) -> encoded_nonempty enc ->
  mapM enc xs = Ok parts ->
  let buffer := pre ++ concat parts ++ post in
  decode_many (dec buffer) (decode_fuel buffer) (len xs) (len pre)
  = Ok (f <$> xs, len pre + len (concat parts)).
Proof.
  intros Hdec Hne HM buffer. pose proof (mapM_length _ _ _ HM) as Hl. apply mapM_Forall2 in HM.
  assert (len xs = len (f <$> xs)) as -> by (unfold len; by rewrite length_fmap).
  eapply (decodes_many dec).
  - clear -Hdec HM. induction HM; simpl; constructor; eauto.
  - rewrite length_fmap. unfold decode_fuel, buffer. rewrite !length_app.
    enough (length parts <= length (concat parts))%nat by lia.
    apply length_concat_ge. clear -Hne HM. induction HM; constructor; eauto.
Qed.

Lemma encode_varint_nonempty : encoded_nonempty _encode_varint.
Proof. intros v bs H. unfold _encode_varint in H. by inv_ok. Qed.
Lemma encode_string_nonempty : encoded_nonempty _encode_string.
Proof.
  intros v bs H. unfold _encode_string, _encode_bytes in H. inv_ok.
  apply encode_varint_nonempty in E0. by destruct a0.
Qed.
Lemma encode_pair_nonempty : encoded_nonempty encode_pair.
Proof. intros kv bs H. unfold encode_pair in H. inv_ok. apply encode_string_nonempty in E. by destruct a. Qed.
Lemma pack_nonempty n : encoded_nonempty (pack (S n)).
Proof. intros v bs H ->. by apply pack_length in H. Qed.

Lemma foldl_insert_union (items : list (str * str)) (m0 : gmap str str) :
  foldl (fun m kv => <[kv.1 := kv.2]> m) m0 items = list_to_map (reverse items) ∪ m0.
Proof.
  revert m0. induction items as [|[k v] items IH]; intros m0; simpl.
  - by rewrite (left_id_L ∅ (∪)).
  - rewrite IH, reverse_cons, list_to_map_app. simpl.
    by rewrite <- (assoc_L (∪)), (insert_union_singleton_l m0).
Qed.

(** Assigning the sorted items of a mapping to an empty one gives it back. *)
Lemma assign_metadata_items m : assign_items (metadata_items m) = m.
Proof.
  unfold assign_items. rewrite foldl_insert_union, (right_id_L ∅ (∪)).
  rewrite <- (list_to_map_to_list m) at 2. symmetry. apply list_to_map_proper.
  - apply NoDup_fst_map_to_list.
  - rewrite reverse_Permutation. unfold metadata_items, py_sorted.
    by rewrite sorted_by_Permutation.
Qed.

Lemma decodes_metadata m bs : _encode_metadata m = Ok bs -> decodes _decode_metadata bs m.
Proof.
  unfold _encode_metadata. intros H pre post. inv_ok. unfold _decode_metadata.
  rewrite (decodes_at _ _ _ _ _ pre (concat a0 ++ post) (decodes_varint _ _ E)) by (done || app_eq).
  cbn [rbind]. rewrite <- (len_app pre a).
  replace (pre ++ (a ++ concat a0) ++ post) with ((pre ++ a) ++ concat a0 ++ post) by app_eq.
  rewrite (decodes_mapM encode_pair decode_pair id) by eauto using decodes_pair, encode_pair_nonempty.
  cbn [rbind]. rewrite list_fmap_id, assign_metadata_items. do 2 f_equal. len_eq.
Qed.

Lemma encode_hash_canonical h raw : _encode_hash h = Ok raw -> canonical_hash h = hex raw /\ len raw = 32.
Proof. unfold _encode_hash, canonical_hash. intros H. inv_ok. rewrite E. bool_prop. done. Qed.

Lemma decodes_input ver i bs :
  serialize_input ver i = Ok bs -> decodes (deserialize_input ver) bs (canonical_input i).
Proof.
  unfold serialize_input. intros H pre post. inv_ok.
  apply encode_hash_canonical in E as [Ehash Hlen].
  pose proof (pack_length _ _ _ E0). pose proof (pack_length _ _ _ E4).
  unfold deserialize_input, canonical_input. rewrite Ehash.
  rewrite (slice_at _ a pre (a0 ++ a1 ++ a2 ++ a3 ++ a4 ++ post)) by (app_eq || len_eq).
  rewrite (unpack_at _ _ _ _ _ (pre ++ a) (a1 ++ a2 ++ a3 ++ a4 ++ post) E0) by (app_eq || len_eq). cbn [rbind].
  assert (Hscheme : forall (T : Type) (k : Z * Z -> res T),
    rbind (if 2 <=? ver then
        if len (pre ++ (a ++ a0 ++ a1 ++ a2 ++ a3 ++ a4) ++ post) <=? len pre + 32 + 4
        then raise ValueError "Unexpected end of payload while decoding signature scheme id."
        else match (pre ++ (a ++ a0 ++ a1 ++ a2 ++ a3 ++ a4) ++ post) !! Z.to_nat (len pre + 32 + 4) with
             | Some x => Ok (byte.unsigned x, len pre + 32 + 4 + 1)
             | None => raise IndexError "index out of range"
             end
      else Ok (0, len pre + 32 + 4)) k = k (sig_scheme_id i, len (pre ++ a ++ a0 ++ a1))).
  { intros T k. unfold encode_scheme in E1.
    replace (pre ++ (a ++ a0 ++ a1 ++ a2 ++ a3 ++ a4) ++ post)
      with ((pre ++ a ++ a0) ++ a1 ++ a2 ++ a3 ++ a4 ++ post) by app_eq.
    replace (len pre + 32 + 4) with (len (pre ++ a ++ a0)) by len_eq.
    destruct (2 <=? ver); inv_ok; bool_prop; cbn [app].
    - rewrite len_pos_ltb, (lookup_at _ _ (pre ++ a ++ a0) _ eq_refl), byte_of_Z_unsigned_id by lia.
      cbn [rbind]. do 2 f_equal. len_eq.
    - cbn [rbind]. match goal with Hs : sig_scheme_id i = 0 |- _ => rewrite Hs end.
      do 2 f_equal. len_eq. }
  rewrite Hscheme. clear Hscheme.
  rewrite (decodes_at _ _ _ _ _ (pre ++ a ++ a0 ++ a1) (a3 ++ a4 ++ post) (decodes_bytes _ _ E2))
    by (app_eq || len_eq). cbn [rbind].
  rewrite (decodes_at _ _ _ _ _ (pre ++ a ++ a0 ++ a1 ++ a2) (a4 ++ post) (decodes_bytes _ _ E3))
    by (app_eq || len_eq). cbn [rbind].
  rewrite (unpack_at _ _ _ _ _ (pre ++ a ++ a0 ++ a1 ++ a2 ++ a3) post E4) by (app_eq || len_eq).
  cbn [rbind]. do 2 f_equal. len_eq.
Qed.

Lemma serialize_input_nonempty ver : encoded_nonempty (serialize_input ver).
Proof.
  intros i bs H. unfold serialize_input in H. inv_ok. apply encode_hash_canonical in E as [_ Hl].
  by destruct a.
Qed.

Lemma decodes_output o bs : serialize_output o = Ok bs -> decodes deserialize_output bs o.
Proof.
  unfold serialize_output. intros H pre post. inv_ok. pose proof (pack_length _ _ _ E).
  unfold deserialize_output.
  rewrite (unpack_at _ _ _ _ _ pre (a0 ++ post) E) by (app_eq || len_eq). cbn [rbind].
  rewrite (decodes_at _ _ _ _ _ (pre ++ a) post (decodes_string _ _ E0)) by (app_eq || len_eq).
  cbn [rbind]. destruct o. do 2 f_equal. len_eq.
Qed.

Lemma serialize_output_nonempty : encoded_nonempty serialize_output.
Proof. intros o bs H. unfold serialize_output in H. inv_ok. apply pack_nonempty in E. by destruct a. Qed.

Lemma decodes_transaction t bs :
  serialize_transaction t = Ok bs -> decodes deserialize_transaction bs (canonical_tx t).
Proof.
  unfold serialize_transaction. intros H pre post. inv_ok.
  rename a into ver, a0 into nin, a1 into ins, a2 into nout, a3 into outs, a4 into lock, a5 into meta.
  pose proof (pack_length _ _ _ E). pose proof (pack_length _ _ _ E4).
  set (tail := nout ++ concat outs ++ lock ++ meta ++ post).
  unfold deserialize_transaction.
  rewrite (unpack_at _ _ _ _ _ pre (nin ++ concat ins ++ tail) E) by (app_eq || len_eq). cbn [rbind].
  rewrite (decodes_at _ _ _ _ _ (pre ++ ver) (concat ins ++ tail) (decodes_varint _ _ E0))
    by (app_eq || len_eq). cbn [rbind].
  replace (pre ++ (ver ++ nin ++ concat ins ++ nout ++ concat outs ++ lock ++ meta) ++ post)
    with ((pre ++ ver ++ nin) ++ concat ins ++ tail) by app_eq.
  replace (len pre + 4 + len nin) with (len (pre ++ ver ++ nin)) by len_eq.
  rewrite (decodes_mapM (serialize_input (version t)) (deserialize_input (version t)) canonical_input)
    by eauto using decodes_input, serialize_input_nonempty. cbn [rbind].
  rewrite (decodes_at _ _ _ _ _ (pre ++ ver ++ nin ++ concat ins) (concat outs ++ lock ++ meta ++ post)
    (decodes_varint _ _ E2)) by (app_eq || len_eq). cbn [rbind].
  replace ((pre ++ ver ++ nin) ++ concat ins ++ tail)
    with ((pre ++ ver ++ nin ++ concat ins ++ nout) ++ concat outs ++ lock ++ meta ++ post) by app_eq.
  replace (len (pre ++ ver ++ nin) + len (concat ins) + len nout)
    with (len (pre ++ ver ++ nin ++ concat ins ++ nout)) by len_eq.
  rewrite (decodes_mapM serialize_output deserialize_output id)
    by eauto using decodes_output, serialize_output_nonempty. cbn [rbind].
  rewrite (unpack_at _ _ _ _ _ (pre ++ ver ++ nin ++ concat ins ++ nout ++ concat outs) (meta ++ post) E4)
    by (app_eq || len_eq). cbn [rbind].
  rewrite (decodes_at _ _ _ _ _ (pre ++ ver ++ nin ++ concat ins ++ nout ++ concat outs ++ lock) post
    (decodes_metadata _ _ E5)) by (app_eq || len_eq). cbn [rbind].
  unfold canonical_tx. rewrite list_fmap_id. do 2 f_equal. len_eq.
Qed.

Lemma serialize_transaction_nonempty : encoded_nonempty serialize_transaction.
Proof. intros t bs H. unfold serialize_transaction in H. inv_ok. apply pack_nonempty in E. by destruct a. Qed.

Lemma decodes_header h bs :
  serialize_block_header h = Ok bs -> decodes deserialize_block_header bs (canonical_header h).
Proof.
  unfold serialize_block_header. intros H pre post. inv_ok.
  apply encode_hash_canonical in E0 as [Hprev ?], E1 as [Hroot ?].
  pose proof (pack_length _ _ _ E). pose proof (pack_length _ _ _ E2).
  pose proof (pack_length _ _ _ E3). pose proof (pack_length _ _ _ E4).
  unfold deserialize_block_header, canonical_header. rewrite Hprev, Hroot.
  rewrite (unpack_at _ _ _ _ _ pre (a0 ++ a1 ++ a2 ++ a3 ++ a4 ++ post) E) by (app_eq || len_eq). cbn [rbind].
  rewrite (slice_at _ a0 (pre ++ a) (a1 ++ a2 ++ a3 ++ a4 ++ post)) by (app_eq || len_eq).
  rewrite (slice_at _ a1 (pre ++ a ++ a0) (a2 ++ a3 ++ a4 ++ post)) by (app_eq || len_eq).
  rewrite (unpack_at _ _ _ _ _ (pre ++ a ++ a0 ++ a1) (a3 ++ a4 ++ post) E2) by (app_eq || len_eq). cbn [rbind].
  rewrite (unpack_at _ _ _ _ _ (pre ++ a ++ a0 ++ a1 ++ a2) (a4 ++ post) E3) by (app_eq || len_eq). cbn [rbind].
  rewrite (unpack_at _ _ _ _ _ (pre ++ a ++ a0 ++ a1 ++ a2 ++ a3) post E4) by (app_eq || len_eq). cbn [rbind].
  do 2 f_equal. len_eq.
Qed.

Lemma header_length h bs : serialize_block_header h = Ok bs -> len bs = 80.
Proof.
  unfold serialize_block_header. intros H. inv_ok.
  apply encode_hash_canonical in E0 as [_ ?], E1 as [_ ?].
  pose proof (pack_length _ _ _ E). pose proof (pack_length _ _ _ E2).
  pose proof (pack_length _ _ _ E3). pose proof (pack_length _ _ _ E4). len_eq.
Qed.

Lemma decodes_block bl bs :
  serialize_block bl = Ok bs -> decodes deserialize_block bs (canonical_block bl).
Proof.
  unfold serialize_block. intros H pre post. inv_ok. unfold deserialize_block.
  rewrite (decodes_at _ _ _ _ _ pre (a0 ++ concat a1 ++ post) (decodes_header _ _ E)) by (done || app_eq).
  cbn [rbind].
  rewrite (decodes_at _ _ _ _ _ (pre ++ a) (concat a1 ++ post) (decodes_varint _ _ E0))
    by (app_eq || len_eq). cbn [rbind].
  replace (pre ++ (a ++ a0 ++ concat a1) ++ post)
    with ((pre ++ a ++ a0) ++ concat a1 ++ post) by app_eq.
  replace (len pre + len a + len a0) with (len (pre ++ a ++ a0)) by len_eq.
  rewrite (decodes_mapM serialize_transaction deserialize_transaction canonical_tx)
    by eauto using decodes_transaction, serialize_transaction_nonempty. cbn [rbind].
  unfold canonical_block. do 2 f_equal. len_eq.
Qed.

(** Two values with the same encoding, followed by anything, are the same, and
    so is what follows. *)
Lemma decodes_inj {A} (dec : bytes -> Z -> res (A * Z)) bs1 bs2 x1 x2 post1 post2 :
  decodes dec bs1 x1 -> decodes dec bs2 x2 -> bs1 ++ post1 = bs2 ++ post2 ->
  x1 = x2 /\ bs1 = bs2 /\ post1 = post2.
Proof.
  intros H1 H2 E. specialize (H1 [] post1). specialize (H2 [] post2). simpl in *.
  rewrite E, H2 in H1. injection H1 as -> Hlen. split; [done|].
  apply app_inj_1 in E; [done|]. unfold len in *. simpl in *. lia.
Qed.

Lemma pack_inj n v1 v2 bs1 bs2 post1 post2 :
  pack n v1 = Ok bs1 -> pack n v2 = Ok bs2 -> bs1 ++ post1 = bs2 ++ post2 ->
  v1 = v2 /\ post1 = post2.
Proof.
  intros H1 H2 E. pose proof (pack_length _ _ _ H1). pose proof (pack_length _ _ _ H2).
  apply app_inj_1 in E as [-> ->]; [|unfold len in *; lia].
  pose proof (unpack_pack _ _ _ [] [] H1) as E1. rewrite (unpack_pack _ _ _ [] [] H2) in E1.
  by injection E1 as ->.
Qed.

(** ** Termination and progress of the decoders *)

(** [advances buffer dec]: when it returns, the decoder has consumed at least one byte
    and has not read past the end. *)
Definition advances {A} (buffer : bytes) (dec : Z -> res (A * Z)) : Prop :=
  forall offset x offset', 0 <= offset -> dec offset = Ok (x, offset') -> offset < offset' <= len buffer.

Lemma unpack_no_fuel n buffer offset : no_fuel_error (unpack_from n buffer offset).
Proof. unfold unpack_from. no_fuel. Qed.
#[export] Hint Resolve unpack_no_fuel : no_fuel.
Lemma decode_varint_no_fuel buffer offset : no_fuel_error (_decode_varint buffer offset).
Proof. unfold _decode_varint, varint_end. no_fuel. Qed.
#[export] Hint Resolve decode_varint_no_fuel : no_fuel.
Lemma decode_bytes_no_fuel buffer offset : no_fuel_error (_decode_bytes buffer offset).
Proof. unfold _decode_bytes. no_fuel. Qed.
#[export] Hint Resolve decode_bytes_no_fuel : no_fuel.

Lemma utf8_decode_no_fuel bs : no_fuel_error (utf8_decode bs).
Proof.
  remember (length bs) as n eqn:Hn. revert bs Hn.
  induction n as [n IH] using lt_wf_ind; intros bs ->.
  destruct bs as [|x1 [|x2 [|x3 [|x4 bs]]]]; cbn [utf8_decode]; unfold utf8_error;
    no_fuel; eapply IH; try reflexivity; simpl; lia.
Qed.
#[export] Hint Resolve utf8_decode_no_fuel : no_fuel.
Lemma decode_string_no_fuel buffer offset : no_fuel_error (_decode_string buffer offset).
Proof. unfold _decode_string. no_fuel. Qed.
#[export] Hint Resolve decode_string_no_fuel : no_fuel.

Lemma unpack_range n buffer offset v : unpack_from n buffer offset = Ok v -> 0 <= v.
Proof. unfold unpack_from. intros H. inv_ok. apply le_combine_range. Qed.

Lemma unpack_inside n buffer offset v :
  unpack_from n buffer offset = Ok v -> offset + Z.of_nat n <= len buffer.
Proof. unfold unpack_from. intros H. inv_ok. bool_prop. lia. Qed.

Lemma decode_varint_result buffer offset v offset' :
  _decode_varint buffer offset = Ok (v, offset') -> 0 <= v /\ offset < offset' <= len buffer.
Proof.
  unfold _decode_varint, varint_end. intros H. inv_ok; bool_prop;
    try (match goal with E : unpack_from _ _ _ = Ok _ |- _ => apply unpack_range in E end; lia).
  pose proof (byte.unsigned_range b). lia.
Qed.

Lemma decode_bytes_result buffer offset v offset' :
  _decode_bytes buffer offset = Ok (v, offset') -> offset < offset' <= len buffer.
Proof.
  unfold _decode_bytes. intros H. inv_ok. apply decode_varint_result in E. bool_prop. lia.
Qed.

Lemma decode_string_result buffer offset v offset' :
  _decode_string buffer offset = Ok (v, offset') -> offset < offset' <= len buffer.
Proof. unfold _decode_string. intros H. inv_ok. by apply decode_bytes_result in E. Qed.

Section decode_many.
Context {A} (buffer : bytes) (dec : Z -> res (A * Z)) (Hadv : advances buffer dec).

Lemma decode_many_result fuel count offset xs offset' :
  0 <= offset -> decode_many dec fuel count offset = Ok (xs, offset') ->
  offset <= offset' /\ (offset <= len buffer -> offset' <= len buffer).
Proof.
  revert count offset xs. induction fuel as [|fuel IH]; intros count offset xs Ho H; simpl in H;
    destruct (count <=? 0); inv_ok; try lia.
  apply Hadv in E; [|done]. apply IH in E0; lia.
Qed.

Lemma decode_many_no_fuel fuel count offset :
  (forall o, 0 <= o -> no_fuel_error (dec o)) -> 0 <= offset ->
  (Z.to_nat (len buffer - offset) < fuel)%nat -> no_fuel_error (decode_many dec fuel count offset).
Proof.
  intros Hdec. revert count offset. induction fuel as [|fuel IH]; intros count offset Ho Hf; [lia|].
  simpl. destruct (count <=? 0); [done|].
  apply no_fuel_error_bind; [by apply Hdec|]. intros [x o'] E. apply Hadv in E; [|done].
  apply no_fuel_error_bind; [apply IH; lia|]. intros [xs o'']. done.
Qed.

Lemma decode_many_fuel_enough count offset :
  (forall o, 0 <= o -> no_fuel_error (dec o)) -> 0 <= offset ->
  no_fuel_error (decode_many dec (decode_fuel buffer) count offset).
Proof.
  intros. apply decode_many_no_fuel; [done..|]. unfold decode_fuel, len. lia.
Qed.
End decode_many.

Lemma decode_pair_advances buffer : advances buffer (decode_pair buffer).
Proof.
  intros offset x offset' Ho H. unfold decode_pair in H. inv_ok.
  apply decode_string_result in E, E0. lia.
Qed.
Lemma decode_pair_no_fuel buffer offset : no_fuel_error (decode_pair buffer offset).
Proof. unfold decode_pair. no_fuel. Qed.
#[export] Hint Resolve decode_pair_no_fuel : no_fuel.

Lemma decode_metadata_result buffer offset m offset' :
  0 <= offset -> _decode_metadata buffer offset = Ok (m, offset') -> offset < offset' <= len buffer.
Proof.
  unfold _decode_metadata. intros Ho H. inv_ok. apply decode_varint_result in E as [_ ?].
  apply (decode_many_result buffer _ (decode_pair_advances buffer)) in E0; lia.
Qed.

Lemma decode_metadata_no_fuel buffer offset : 0 <= offset -> no_fuel_error (_decode_metadata buffer offset).
Proof.
  intros Ho. unfold _decode_metadata. no_fuel.
  apply decode_many_fuel_enough; eauto using decode_pair_advances with no_fuel.
  match goal with E : _ = Ok _ |- _ => apply decode_varint_result in E end. lia.
Qed.

Lemma deserialize_input_result ver payload offset i offset' :
  0 <= offset -> deserialize_input ver payload offset = Ok (i, offset') -> offset < offset' <= len payload.
Proof.
  unfold deserialize_input. intros Ho H. inv_ok; bool_prop;
  repeat match goal with
  | E : _decode_bytes _ _ = Ok _ |- _ => apply decode_bytes_result in E
  | E : unpack_from _ _ _ = Ok _ |- _ => apply unpack_inside in E
  end; lia.
Qed.
Lemma deserialize_input_no_fuel ver payload offset : no_fuel_error (deserialize_input ver payload offset).
Proof. unfold deserialize_input. no_fuel. Qed.
#[export] Hint Resolve deserialize_input_no_fuel : no_fuel.

Lemma deserialize_output_result payload offset o offset' :
  0 <= offset -> deserialize_output payload offset = Ok (o, offset') -> offset < offset' <= len payload.
Proof.
  unfold deserialize_output. intros Ho H. inv_ok. apply decode_string_result in E0. lia.
Qed.
Lemma deserialize_output_no_fuel payload offset : no_fuel_error (deserialize_output payload offset).
Proof. unfold deserialize_output. no_fuel. Qed.
#[export] Hint Resolve deserialize_output_no_fuel : no_fuel.

Lemma deserialize_input_advances ver payload : advances payload (deserialize_input ver payload).
Proof. intros o x o'. apply deserialize_input_result. Qed.
Lemma deserialize_output_advances payload : advances payload (deserialize_output payload).
Proof. intros o x o'. apply deserialize_output_result. Qed.

Lemma deserialize_transaction_result payload offset t offset' :
  0 <= offset -> deserialize_transaction payload offset = Ok (t, offset') -> offset < offset' <= len payload.
Proof.
  unfold deserialize_transaction. intros Ho H. inv_ok.
  apply decode_varint_result in E0 as [_ ?].
  apply (decode_many_result payload _ (deserialize_input_advances _ payload)) in E1; [|lia].
  apply decode_varint_result in E2 as [_ ?].
  apply (decode_many_result payload _ (deserialize_output_advances payload)) in E3; [|lia].
  apply decode_metadata_result in E5; lia.
Qed.

Lemma deserialize_transaction_no_fuel payload offset :
  0 <= offset -> no_fuel_error (deserialize_transaction payload offset).
Proof.
  intros Ho. unfold deserialize_transaction.
  repeat match goal with
  | |- no_fuel_error (rbind (unpack_from _ _ _) _) => apply no_fuel_error_bind; [apply unpack_no_fuel|intros ? ?]
  | |- no_fuel_error (rbind (_decode_varint _ _) _) =>
      apply no_fuel_error_bind; [apply decode_varint_no_fuel|intros [? ?] [_ ?]%decode_varint_result]
  | |- no_fuel_error (rbind (decode_many (deserialize_input _ _) _ _ _) _) =>
      apply no_fuel_error_bind;
      [apply decode_many_fuel_enough; eauto using deserialize_input_advances with no_fuel; lia
      |intros [? ?] ?%(decode_many_result payload _ (deserialize_input_advances _ payload)); [|lia]]
  | |- no_fuel_error (rbind (decode_many (deserialize_output _) _ _ _) _) =>
      apply no_fuel_error_bind;
      [apply decode_many_fuel_enough; eauto using deserialize_output_advances with no_fuel; lia
      |intros [? ?] ?%(decode_many_result payload _ (deserialize_output_advances payload)); [|lia]]
  end.
  apply no_fuel_error_bind; [apply decode_metadata_no_fuel; lia|intros []; done].
Qed.

Lemma deserialize_transaction_advances payload : advances payload (deserialize_transaction payload).
Proof. intros o x o'. apply deserialize_transaction_result. Qed.

(** ** The properties of the wire format *)

(** decoding a serialized transaction, at any place of any buffer, returns
    the transaction and the offset just after it.  The only change is the
    spelling of the previous transaction identifiers, which the decoder writes in
    lower case. *)
Theorem transaction_roundtrip (t : Transaction) (bs pre post : bytes) :
  serialize_transaction t = Ok bs ->
  deserialize_transaction (pre ++ bs ++ post) (len pre) = Ok (canonical_tx t, len pre + len bs).
Proof. intros H. by apply decodes_transaction. Qed.

(** decoding a serialized block returns the block and consumes exactly its
    bytes. *)
Theorem block_roundtrip (bl : Block) (bs : bytes) :
  serialize_block bl = Ok bs -> deserialize_block bs 0 = Ok (canonical_block bl, len bs).
Proof.
  intros H. pose proof (decodes_block bl bs H [] []) as E. simpl in E.
  by rewrite app_nil_r in E.
Qed.

(** the loops of the block decoder terminate on every input.  The counts on
    the wire are arbitrary 64-bit values; decoding never exhausts the bound given
    by the length of the payload, so on any bytes it returns a block within the
    payload or raises one of Python's errors. *)
Theorem deserialize_block_terminates (payload : bytes) (offset : Z) :
  0 <= offset ->
  match deserialize_block payload offset with
  | Ok (_, offset') => offset < offset' <= len payload
  | Raise e => exn_cls e ≠ OutOfFuel
  end.
Proof.
  intros Ho. destruct (deserialize_block payload offset) as [[bl offset']|e] eqn:H.
  - unfold deserialize_block, deserialize_block_header in H. inv_ok.
    repeat match goal with
    | E : unpack_from _ _ _ = Ok _ |- _ => apply unpack_inside in E
    | E : _decode_varint _ _ = Ok _ |- _ => apply decode_varint_result in E as [_ ?]
    | E : decode_many _ _ _ _ = Ok _ |- _ =>
        apply (decode_many_result payload _ (deserialize_transaction_advances payload)) in E; [|lia]
    end. lia.
  - assert (Hn : no_fuel_error (deserialize_block payload offset)).
    { unfold deserialize_block, deserialize_block_header.
      apply no_fuel_error_bind; [no_fuel|]. intros [h o] Hh. inv_ok. apply unpack_inside in E2.
      apply no_fuel_error_bind; [no_fuel|]. intros [n o'] [_ ?]%decode_varint_result.
      apply no_fuel_error_bind; [|intros []; done].
      apply decode_many_fuel_enough; [apply deserialize_transaction_advances| |lia].
      apply deserialize_transaction_no_fuel. }
    destruct e as [c msg]. simpl. intros ->. by eapply Hn.
Qed.

Lemma Ok_fst {A B} (p q : A * B) : Ok p = Ok q -> p.1 = q.1.
Proof. by intros [= ->]. Qed.

(** a transaction identifier commits to the whole transaction.  Two
    transactions with the same identifier are the same (up to the spelling of
    hashes), or their serializations are two distinct byte strings with the same
    double SHA-256. *)
Theorem txid_binding (t1 t2 : Transaction) (i : str) :
  txid t1 = Ok i -> txid t2 = Ok i ->
  canonical_tx t1 = canonical_tx t2 \/
  exists x y : bytes, serialize_transaction t1 = Ok x /\ serialize_transaction t2 = Ok y /\
    x ≠ y /\ double_sha256 x = double_sha256 y.
Proof.
  unfold txid, double_sha256_hex. intros H1 H2. inv_ok.
  match goal with E : hex _ = hex _ |- _ => apply hex_inj in E as Eh end.
  destruct (decide (a0 = a)) as [->|Hne]; [left|right; eauto 10].
  pose proof (decodes_transaction _ _ E [] []) as D1.
  rewrite (decodes_transaction _ _ E0 [] []) in D1. by apply Ok_fst in D1.
Qed.

(** The canonical transaction without signatures and public keys: what an input
    signs. *)
Definition stripped_tx (t : Transaction) : Transaction :=
  canonical_tx (mkTransaction (version t) (strip_input <$> inputs t) (outputs t) (locktime t) (metadata t)).

Definition signing_domain (t : Transaction) (network : str) : res bytes :=
  if 2 <=? version t
  then let* domain := _encode_string (u "chipcoin:tx-signature:v2:" ++ network) in
       let* v2 := pack 4 2 in Ok (domain ++ v2)
  else pack 4 1.

Lemma signing_payload_parts t i v r n bs :
  serialize_transaction_for_signing t i v r n = Ok bs ->
  exists tx ix vb rb tl, bs = tx ++ ix ++ vb ++ rb ++ tl /\
    serialize_transaction
      (mkTransaction (version t) (strip_input <$> inputs t) (outputs t) (locktime t) (metadata t)) = Ok tx /\
    pack 4 i = Ok ix /\ pack 8 v = Ok vb /\ _encode_string r = Ok rb /\ signing_domain t n = Ok tl.
Proof.
  unfold serialize_transaction_for_signing. fold (signing_domain t n). intros H.
  destruct (_ || _); [done|].
  repeat (apply rbind_Ok in H as (? & ? & H)). injection H as <-. naive_solver.
Qed.

(** the signed payload commits to the transaction (everything except the
    signatures and keys), the position of the input, and the value and owner of
    the output it spends; from version 2 on it also commits to the network.  Two
    payloads with the same bytes agree on all of them. *)
Theorem signing_payload_binding (t1 t2 : Transaction) (i1 i2 v1 v2 : Z) (r1 r2 n1 n2 : str) (bs : bytes) :
  serialize_transaction_for_signing t1 i1 v1 r1 n1 = Ok bs ->
  serialize_transaction_for_signing t2 i2 v2 r2 n2 = Ok bs ->
  stripped_tx t1 = stripped_tx t2 /\ i1 = i2 /\ v1 = v2 /\ r1 = r2 /\
  (2 <= version t1 -> n1 = n2).
Proof.
  intros (tx1 & ix1 & vb1 & rb1 & tl1 & -> & Htx1 & Hix1 & Hv1 & Hr1 & Htl1)%signing_payload_parts.
  intros (tx2 & ix2 & vb2 & rb2 & tl2 & E & Htx2 & Hix2 & Hv2 & Hr2 & Htl2)%signing_payload_parts.
  destruct (decodes_inj _ _ _ _ _ _ _ (decodes_transaction _ _ Htx1) (decodes_transaction _ _ Htx2) E)
    as (Htx & _ & E1).
  destruct (pack_inj _ _ _ _ _ _ _ Hix1 Hix2 E1) as [-> E2].
  destruct (pack_inj _ _ _ _ _ _ _ Hv1 Hv2 E2) as [-> E3].
  destruct (decodes_inj _ _ _ _ _ _ _ (decodes_string _ _ Hr1) (decodes_string _ _ Hr2) E3)
    as (-> & _ & E4).
  do 4 (split; [done|]). intros Hver.
  assert (version t1 = version t2) as Ever by by injection Htx.
  unfold signing_domain in Htl1, Htl2. rewrite <- Ever in Htl2.
  rewrite (proj2 (Z.leb_le 2 (version t1)) Hver) in Htl1, Htl2. inv_ok.
  destruct (decodes_inj _ _ _ _ _ _ _ (decodes_string _ _ E5) (decodes_string _ _ E0) Htl1) as [E8 _].
  by apply app_inv_head in E8.
Qed.

(** ** Concrete instances *)

Definition sample_input : TxInput :=
  mkTxInput (mkOutPoint (u "ABCDEF0123456789abcdef0123456789abcdef0123456789abcdef0123456789") 1)
    (b "signature") (b "key") 0xFFFFFFFF 10.
Definition sample_tx : Transaction :=
  mkTransaction 2 [sample_input] [mkTxOutput 300 (u "CHCalice"); mkTxOutput 70000 [233; 8364; 128512]]
    0 {[u "kind" := u "note"; u "a" := u "b"]}.
Definition sample_header : BlockHeader :=
  mkBlockHeader 1 (u "00000000000000000000000000000000000000000000000000000000000000aa")
    (u "11111111111111111111111111111111111111111111111111111111111111bb") 1700000000 0x207FFFFF 42.
Definition sample_block : Block := mkBlock sample_header [sample_tx; sample_tx].
Definition sample_tx_bytes : bytes := ok_or (serialize_transaction sample_tx) [].
Definition sample_block_bytes : bytes := ok_or (serialize_block sample_block) [].
Definition sample_payload : bytes :=
  ok_or (serialize_transaction_for_signing sample_tx 0 500 (u "CHCbob") (u "testnet")) [].

Lemma transaction_roundtrip_witness :
  sample_tx_bytes ≠ [] /\
  deserialize_transaction ([byte.of_Z 7] ++ sample_tx_bytes ++ [byte.of_Z 9]) 1
  = Ok (canonical_tx sample_tx, 1 + len sample_tx_bytes).
Proof.
  split; [by vm_compute|].
  apply (transaction_roundtrip sample_tx sample_tx_bytes [byte.of_Z 7] [byte.of_Z 9]).
  vm_compute. reflexivity.
Defined.

Lemma block_roundtrip_witness :
  deserialize_block sample_block_bytes 0 = Ok (canonical_block sample_block, len sample_block_bytes).
Proof. apply (block_roundtrip sample_block sample_block_bytes). vm_compute. reflexivity. Defined.

Lemma deserialize_block_terminates_witness :
  match deserialize_block sample_block_bytes 0 with
  | Ok (_, offset') => 0 < offset' <= len sample_block_bytes
  | Raise e => exn_cls e ≠ OutOfFuel
  end.
Proof. apply (deserialize_block_terminates sample_block_bytes 0). lia. Defined.

Lemma txid_binding_witness :
  canonical_tx sample_tx = canonical_tx (canonical_tx sample_tx) \/
  exists x y : bytes, serialize_transaction sample_tx = Ok x /\
    serialize_transaction (canonical_tx sample_tx) = Ok y /\ x ≠ y /\ double_sha256 x = double_sha256 y.
Proof.
  apply (txid_binding sample_tx (canonical_tx sample_tx) (ok_or (txid sample_tx) []));
    vm_compute; reflexivity.
Defined.

Lemma signing_payload_binding_witness :
  stripped_tx sample_tx = stripped_tx (canonical_tx sample_tx) /\ 0 = 0 /\ 500 = 500 /\
  u "CHCbob" = u "CHCbob" /\ (2 <= version sample_tx -> u "testnet" = u "testnet").
Proof.
  apply (signing_payload_binding sample_tx (canonical_tx sample_tx) 0 0 500 500
           (u "CHCbob") (u "CHCbob") (u "testnet") (u "testnet") sample_payload);
    vm_compute; reflexivity.
Defined.
