(* ===== verification/Registry.v ===== *)
(** * Node registry views ([consensus/nodes.py], the records and the view)

    [NodeRecord], the access contract [NodeRegistryView] as a type class of
    operations with its laws, and the in-memory implementation.  A Python [dict]
    keeps insertion order and [get_by_owner_pubkey] scans the values in that
    order, so the in-memory view is an association list ([dict_get], [dict_set]).  [clone] copies the
    entries; values are immutable here, so a view is its own clone. *)

From S2P Require Import Prelude PyOrder PyText.

Record NodeRecord : Type := mkNodeRecord {
  node_id : str;
  payout_address : str;
  owner_pubkey : bytes;
  registered_height : Z;
  last_renewed_height : Z;
  node_pubkey : option bytes;
  declared_host : option str;
  declared_port : option Z;
  reward_registration : bool;
}.

Record RewardedNode : Type := mkRewardedNode {
  rewarded_node_id : str;
  rewarded_payout_address : str;
  rewarded_owner_pubkey : bytes;
  score_hex : str;
  reward_chipbits : Z;
}.

#[global] Instance NodeRecord_eq_dec : EqDecision NodeRecord.
Proof. solve_decision. Defined.
#[global] Instance RewardedNode_eq_dec : EqDecision RewardedNode.
Proof. solve_decision. Defined.

(** ** The access contract *)

Class NodeRegistryView (V : Type) := {
  get_by_node_id : V -> str -> option NodeRecord;
  get_by_owner_pubkey : V -> bytes -> option NodeRecord;
  upsert : V -> NodeRecord -> V;
  list_records : V -> list NodeRecord;
}.

(** The sort key of [list_records]. *)
Definition record_key (r : NodeRecord) : str * str := (node_id r, payout_address r).

(** No record of another node has the owner of [r]. *)
Definition owner_free {V} `{NodeRegistryView V} (v : V) (r : NodeRecord) : Prop :=
  forall r', r' ∈ list_records v -> owner_pubkey r' = owner_pubkey r -> node_id r' = node_id r.

(** What the validation rules and the reward code rely on.  [upsert] promises to
    keep the other records only when the owner key is free: the SQLite table has a
    unique owner column, and replaces the conflicting row. *)
Class NodeRegistryLaws (V : Type) `{NodeRegistryView V} := {
  view_wf : V -> Prop;
  upsert_wf : forall v r, view_wf v -> view_wf (upsert v r);
  get_upsert_same : forall v r, view_wf v -> get_by_node_id (upsert v r) (node_id r) = Some r;
  get_upsert_other : forall v r i, view_wf v -> owner_free v r -> i ≠ node_id r ->
    get_by_node_id (upsert v r) i = get_by_node_id v i;
  list_records_get : forall v r, view_wf v ->
    r ∈ list_records v <-> get_by_node_id v (node_id r) = Some r;
  get_by_node_id_key : forall v i r, view_wf v -> get_by_node_id v i = Some r -> node_id r = i;
  list_records_NoDup : forall v, view_wf v -> NoDup (node_id <$> list_records v);
  list_records_sorted : forall v, view_wf v -> StronglySorted (key_le record_key) (list_records v);
  get_by_owner_Some : forall v k r, view_wf v -> get_by_owner_pubkey v k = Some r ->
    owner_pubkey r = k /\ r ∈ list_records v;
  get_by_owner_None : forall v k, view_wf v -> get_by_owner_pubkey v k = None ->
    forall r, r ∈ list_records v -> owner_pubkey r ≠ k;
}.

(** ** The in-memory view *)

Record InMemoryNodeRegistryView : Type := mkRegistry { entries : list (str * NodeRecord) }.

Definition registry_from_records (records : list NodeRecord) : InMemoryNodeRegistryView :=
  mkRegistry (foldl (fun d r => dict_set d (node_id r) r) [] records).

Definition registry_get_by_node_id (v : InMemoryNodeRegistryView) (i : str) : option NodeRecord :=
  dict_get (entries v) i.

Fixpoint first_with_owner (records : list NodeRecord) (k : bytes) : option NodeRecord :=
  match records with
  | [] => None
  | r :: records' => if bool_decide (owner_pubkey r = k) then Some r else first_with_owner records' k
  end.

Definition registry_get_by_owner_pubkey (v : InMemoryNodeRegistryView) (k : bytes) : option NodeRecord :=
  first_with_owner ((entries v).*2) k.

Definition registry_upsert (v : InMemoryNodeRegistryView) (r : NodeRecord) : InMemoryNodeRegistryView :=
  mkRegistry (dict_set (entries v) (node_id r) r).

Definition registry_list_records (v : InMemoryNodeRegistryView) : list NodeRecord :=
  sorted_by record_key ((entries v).*2).

#[global] Instance in_memory_registry : NodeRegistryView InMemoryNodeRegistryView := {|
  get_by_node_id := registry_get_by_node_id;
  get_by_owner_pubkey := registry_get_by_owner_pubkey;
  upsert := registry_upsert;
  list_records := registry_list_records;
|}.

(** ** The in-memory view keeps the contract *)

(** Every key is the node id of its record, and no key occurs twice. *)
Definition registry_wf (v : InMemoryNodeRegistryView) : Prop :=
  NoDup (entries v).*1 /\ Forall (fun kr => kr.1 = node_id kr.2) (entries v).

Lemma registry_upsert_wf v r : registry_wf v -> registry_wf (registry_upsert v r).
Proof.
  intros [Hn Hk]. split; simpl; [by apply dict_set_NoDup|].
  apply Forall_forall. intros kr [->|Hin]%dict_set_elem; [done|].
  rewrite Forall_forall in Hk. by apply Hk.
Qed.

Lemma registry_from_records_wf records : registry_wf (registry_from_records records).
Proof.
  unfold registry_from_records.
  assert (H : registry_wf (mkRegistry [])) by (split; constructor).
  revert H. generalize (@nil (str * NodeRecord)). induction records as [|r records IH]; intros d Hd; [done|].
  apply IH. by apply (registry_upsert_wf (mkRegistry d)).
Qed.

Lemma registry_entry_key v i r : registry_wf v -> (i, r) ∈ entries v -> node_id r = i.
Proof. intros [_ Hk]. rewrite Forall_forall in Hk. intros H%Hk. done. Qed.

Lemma registry_keys v : registry_wf v -> node_id <$> (entries v).*2 = (entries v).*1.
Proof.
  intros [_ Hk]. induction Hk as [|[i r] d Hi Hd IH]; [done|]. csimpl in *. by rewrite Hi, IH.
Qed.

Lemma registry_elem v r : registry_wf v ->
  r ∈ (entries v).*2 <-> dict_get (entries v) (node_id r) = Some r.
Proof.
  intros Hw. rewrite list_elem_of_fmap. split.
  - intros ([i r'] & -> & Hin). apply dict_get_NoDup; [apply Hw|]. simpl.
    by rewrite (registry_entry_key v i r' Hw Hin).
  - intros H%dict_get_elem. by exists (node_id r, r).
Qed.

Lemma first_with_owner_Some records k r :
  first_with_owner records k = Some r -> owner_pubkey r = k /\ r ∈ records.
Proof.
  induction records as [|r' records IH]; simpl; [done|]. case_bool_decide.
  - intros [= ->]. split; [done|left].
  - intros [? ?]%IH. split; [done|by right].
Qed.

Lemma first_with_owner_None records k :
  first_with_owner records k = None -> forall r, r ∈ records -> owner_pubkey r ≠ k.
Proof.
  induction records as [|r' records IH]; simpl; [set_solver|]. case_bool_decide; [done|].
  intros HN r [->|?]%elem_of_cons; eauto.
Qed.

#[global] Program Instance in_memory_registry_laws : NodeRegistryLaws InMemoryNodeRegistryView := {|
  view_wf := registry_wf
|}.
Next Obligation. apply registry_upsert_wf. Qed.
Next Obligation. intros v r _. apply dict_get_set_eq. Qed.
Next Obligation. intros v r i _ _ Hne. by apply dict_get_set_ne. Qed.
Next Obligation.
  intros v r Hw. simpl. unfold registry_list_records. rewrite elem_of_sorted_by. by apply registry_elem.
Qed.
Next Obligation. intros v i r Hw H%dict_get_elem. by apply (registry_entry_key v). Qed.
Next Obligation.
  intros v Hw. simpl. unfold registry_list_records. rewrite sorted_by_Permutation, registry_keys by done.
  apply Hw.
Qed.
Next Obligation. intros v _. apply sorted_by_StronglySorted. Qed.
Next Obligation.
  intros v k r Hw [Ho Hin]%first_with_owner_Some. split; [done|].
  simpl. unfold registry_list_records. by rewrite elem_of_sorted_by.
Qed.
Next Obligation.
  intros v k Hw HN r. simpl. unfold registry_list_records. rewrite elem_of_sorted_by.
  by apply first_with_owner_None.
Qed.

(** Owner keys identify records when no two records of the view share one. *)
Definition owners_unique {V} `{NodeRegistryView V} (v : V) : Prop :=
  forall r1 r2, r1 ∈ list_records v -> r2 ∈ list_records v -> owner_pubkey r1 = owner_pubkey r2 -> r1 = r2.

Lemma upsert_elem {V} `{NodeRegistryLaws V} (v : V) r r' :
  view_wf v -> owner_free v r -> r' ∈ list_records (upsert v r) -> r' = r \/ (node_id r' ≠ node_id r /\ r' ∈ list_records v).
Proof.
  intros Hw Hf Hin. apply list_records_get in Hin; [|by apply upsert_wf].
  destruct (decide (node_id r' = node_id r)) as [E|Hne].
  - left. rewrite E, get_upsert_same in Hin by done. congruence.
  - right. split; [done|]. rewrite get_upsert_other in Hin by done. by apply list_records_get.
Qed.

Lemma upsert_owners_unique {V} `{NodeRegistryLaws V} (v : V) r :
  view_wf v -> owner_free v r -> owners_unique v -> owners_unique (upsert v r).
Proof.
  intros Hw Hf Hu r1 r2 H1 H2 E.
  apply upsert_elem in H1 as [->|[N1 H1]]; [..|done|done];
  apply upsert_elem in H2 as [->|[N2 H2]]; try done.
  - destruct N2. by apply Hf.
  - destruct N1. by apply Hf.
  - by apply Hu.
Qed.
