(* ===== verification/Economics.v ===== *)
(** * Monetary policy ([consensus/economics.py])

    The halving schedule of the miner subsidy and of the node epoch reward, the
    supply cap, the closed-form totals the node computes instead of replaying the
    schedule, and the adaptive reward-node fees.  The two loops of the source are
    the fuelled functions [uncapped_loop] (one turn per halving era, so a
    logarithm of the initial subsidies bounds it) and [cap_search] (a binary
    search, so a logarithm of the height does). *)

From S2P Require Import Prelude PyOrder PyText Params Registry.

Definition CHCBITS_PER_CHC : Z := 100000000.
Definition REWARD_NODE_FEE_TARGET_COUNT : Z := 20000.
Definition REWARD_NODE_FEE_LOG_SCALE : Z := 1000000.
Definition REWARD_NODE_FEE_STALE_GRACE_EPOCHS : Z := 2.
Definition REWARD_NODE_MIN_REGISTER_FEE_CHIPBITS : Z := 10000.
Definition REWARD_NODE_MIN_RENEW_FEE_CHIPBITS : Z := 1000.

Definition negative_height {A} : res A := raise ValueError "Block height cannot be negative.".

Definition _regular_miner_subsidy_chipbits (height : Z) (params : ConsensusParams) : res Z :=
  if height <? 0 then negative_height
  else
    let halvings := height / halving_interval params in
    let subsidy_chipbits := Z.shiftr (initial_miner_subsidy_chipbits params) halvings in
    Ok (Z.max subsidy_chipbits 0).

Definition _regular_node_epoch_reward_chipbits (height : Z) (params : ConsensusParams) : res Z :=
  if height <? 0 then negative_height
  else
    let halvings := height / halving_interval params in
    let reward := Z.shiftr (initial_node_epoch_reward_chipbits params) halvings in
    Ok (Z.max reward 0).

Definition is_epoch_reward_height (height : Z) (params : ConsensusParams) : res bool :=
  if height <? 0 then negative_height
  else Ok ((height + 1) mod epoch_length_blocks params =? 0).

Definition _scheduled_node_epoch_reward_chipbits (height : Z) (params : ConsensusParams) : res Z :=
  let* closes := is_epoch_reward_height height params in
  if negb closes then Ok 0 else _regular_node_epoch_reward_chipbits height params.

(** The [while current_height <= height] loop. *)
Fixpoint uncapped_loop (fuel : nat) (height : Z) (params : ConsensusParams)
    (miner_total node_total current_height : Z) : res (Z * Z) :=
  match fuel with
  | O => raise OutOfFuel "halving eras"
  | S fuel' =>
      if current_height <=? height then
        let halving := current_height / halving_interval params in
        let miner_subsidy := Z.shiftr (initial_miner_subsidy_chipbits params) halving in
        let node_reward := Z.shiftr (initial_node_epoch_reward_chipbits params) halving in
        if (miner_subsidy <=? 0) && (node_reward <=? 0) then Ok (miner_total, node_total)
        else
          let era_end := Z.min height ((halving + 1) * halving_interval params - 1) in
          let block_count := era_end - current_height + 1 in
          let miner_total' := miner_total + miner_subsidy * block_count in
          let first_epoch_height :=
            current_height + (epoch_length_blocks params - 1 - current_height) mod epoch_length_blocks params in
          let node_total' :=
            if first_epoch_height <=? era_end then
              let epoch_reward_count := (era_end - first_epoch_height) / epoch_length_blocks params + 1 in
              node_total + node_reward * epoch_reward_count
            else node_total in
          uncapped_loop fuel' height params miner_total' node_total' (era_end + 1)
      else Ok (miner_total, node_total)
  end.

Definition era_fuel (params : ConsensusParams) : nat :=
  S (S (Z.to_nat (Z.log2 (Z.max (initial_miner_subsidy_chipbits params)
                                (initial_node_epoch_reward_chipbits params))))).

Definition _uncapped_subsidy_totals_through_height (height : Z) (params : ConsensusParams) : res (Z * Z) :=
  if height <? 0 then Ok (0, 0) else uncapped_loop (era_fuel params) height params 0 0 0.

(** The [while low < high] binary search. *)
Fixpoint cap_search (fuel : nat) (params : ConsensusParams) (low high : Z) : res Z :=
  match fuel with
  | O => raise OutOfFuel "cap search"
  | S fuel' =>
      if low <? high then
        let midpoint := (low + high) / 2 in
        let* '(midpoint_miner, midpoint_node) := _uncapped_subsidy_totals_through_height midpoint params in
        if max_money_chipbits params <=? midpoint_miner + midpoint_node then cap_search fuel' params low midpoint
        else cap_search fuel' params (midpoint + 1) high
      else Ok low
  end.

Definition search_fuel (height : Z) : nat := S (S (Z.to_nat (Z.log2 height))).

Definition subsidy_totals_through_height (height : Z) (params : ConsensusParams) : res (Z * Z) :=
  if height <? 0 then Ok (0, 0)
  else
    let* '(miner_total, node_total) := _uncapped_subsidy_totals_through_height height params in
    if miner_total + node_total <=? max_money_chipbits params then Ok (miner_total, node_total)
    else
      let* cap_height := cap_search (search_fuel height) params 0 height in
      let* '(miner_before, node_before) := _uncapped_subsidy_totals_through_height (cap_height - 1) params in
      let remaining_supply := Z.max 0 (max_money_chipbits params - miner_before - node_before) in
      let* regular := _regular_miner_subsidy_chipbits cap_height params in
      let miner_at_cap := Z.min regular remaining_supply in
      let remaining_supply' := remaining_supply - miner_at_cap in
      let* scheduled := _scheduled_node_epoch_reward_chipbits cap_height params in
      let node_at_cap := Z.min scheduled remaining_supply' in
      Ok (miner_before + miner_at_cap, node_before + node_at_cap).

Definition total_subsidy_through_height (height : Z) (params : ConsensusParams) : res Z :=
  let* '(miner_total, node_total) := subsidy_totals_through_height height params in
  Ok (miner_total + node_total).

Definition subsidy_split_chipbits (height : Z) (params : ConsensusParams) : res (Z * Z) :=
  if height <? 0 then negative_height
  else
    let* scheduled_miner_subsidy := _regular_miner_subsidy_chipbits height params in
    let* scheduled_node_reward := _scheduled_node_epoch_reward_chipbits height params in
    if (scheduled_miner_subsidy <=? 0) && (scheduled_node_reward <=? 0) then Ok (0, 0)
    else
      let* minted_before := total_subsidy_through_height (height - 1) params in
      let remaining_supply := Z.max 0 (max_money_chipbits params - minted_before) in
      if remaining_supply <=? 0 then Ok (0, 0)
      else
        let miner_subsidy := Z.min scheduled_miner_subsidy remaining_supply in
        let remaining_supply' := remaining_supply - miner_subsidy in
        let node_reward := Z.min scheduled_node_reward remaining_supply' in
        Ok (miner_subsidy, node_reward).

Definition miner_subsidy_chipbits (height : Z) (params : ConsensusParams) : res Z :=
  let* split := subsidy_split_chipbits height params in Ok split.1.

Definition node_reward_pool_chipbits (height : Z) (params : ConsensusParams) : res Z :=
  let* split := subsidy_split_chipbits height params in Ok split.2.

Definition total_block_subsidy_chipbits (height : Z) (params : ConsensusParams) : res Z :=
  let* miner := miner_subsidy_chipbits height params in
  let* node := node_reward_pool_chipbits height params in
  Ok (miner + node).

Definition block_subsidy (height : Z) (params : ConsensusParams) : res Z :=
  total_block_subsidy_chipbits height params.

(** ** Adaptive reward-node fees *)

Section fees.
Context {V : Type} `{NodeRegistryView V}.

Definition reward_registered_node_count (registry_view : V) : Z :=
  len (filter (fun r => reward_registration r = true) (list_records registry_view)).

Definition reward_fee_node_count (registry_view : V) (height : Z) (params : ConsensusParams) : res Z :=
  if height <? 0 then negative_height
  else if height <? reward_node_fee_recent_driver_activation_height params then
    Ok (reward_registered_node_count registry_view)
  else
    let current_epoch := height / epoch_length_blocks params in
    let minimum_epoch := Z.max 0 (current_epoch - REWARD_NODE_FEE_STALE_GRACE_EPOCHS) in
    Ok (len (filter (fun r => reward_registration r = true /\
                              minimum_epoch <= last_renewed_height r / epoch_length_blocks params)
                    (list_records registry_view))).
End fees.

Definition _approx_log2_scaled (v : Z) : res Z :=
  if v <=? 0 then raise ValueError "Logarithm input must be positive."
  else if v =? 1 then Ok 0
  else
    let exponent := Z.log2 v in
    let lower := Z.shiftl 1 exponent in
    let upper := Z.shiftl lower 1 in
    let fraction := (v - lower) * REWARD_NODE_FEE_LOG_SCALE / (upper - lower) in
    Ok (exponent * REWARD_NODE_FEE_LOG_SCALE + fraction).

Definition _adaptive_reward_node_fee_chipbits
    (registered_reward_node_count maximum_fee_chipbits minimum_fee_chipbits : Z) : res Z :=
  if maximum_fee_chipbits <=? 0 then raise ValueError "Maximum fee must be positive."
  else if minimum_fee_chipbits <=? 0 then raise ValueError "Minimum fee must be positive."
  else if maximum_fee_chipbits <? minimum_fee_chipbits then
    raise ValueError "Minimum fee cannot exceed maximum fee."
  else
    let clamped_count := Z.min (Z.max registered_reward_node_count 1) REWARD_NODE_FEE_TARGET_COUNT in
    if clamped_count =? 1 then Ok maximum_fee_chipbits
    else
      let* target_log := _approx_log2_scaled REWARD_NODE_FEE_TARGET_COUNT in
      let* progress := _approx_log2_scaled clamped_count in
      let span := maximum_fee_chipbits - minimum_fee_chipbits in
      let reduced_fee := maximum_fee_chipbits - span * progress / target_log in
      Ok (Z.max minimum_fee_chipbits reduced_fee).

Definition register_reward_node_fee_chipbits (registered_reward_node_count : Z) (params : ConsensusParams) : res Z :=
  _adaptive_reward_node_fee_chipbits registered_reward_node_count
    (register_node_fee_chipbits params) REWARD_NODE_MIN_REGISTER_FEE_CHIPBITS.

Definition renew_reward_node_fee_chipbits (registered_reward_node_count : Z) (params : ConsensusParams) : res Z :=
  _adaptive_reward_node_fee_chipbits registered_reward_node_count
    (renew_node_fee_chipbits params) REWARD_NODE_MIN_RENEW_FEE_CHIPBITS.

(** ** The reference: the schedule added up block by block *)

(** [sum_below f n] is [f 0 + ... + f (n - 1)]. *)
Definition sum_below (f : Z -> Z) (n : Z) : Z := zsum (f <$> zrange n).

Definition scheduled_miner (params : ConsensusParams) (h : Z) : Z :=
  Z.shiftr (initial_miner_subsidy_chipbits params) (h / halving_interval params).
Definition scheduled_node (params : ConsensusParams) (h : Z) : Z :=
  if (h + 1) mod epoch_length_blocks params =? 0
  then Z.shiftr (initial_node_epoch_reward_chipbits params) (h / halving_interval params) else 0.

(** What the schedule would mint through height [h] without the cap. *)
Definition uncapped_miner (params : ConsensusParams) (h : Z) : Z := sum_below (scheduled_miner params) (h + 1).
Definition uncapped_node (params : ConsensusParams) (h : Z) : Z := sum_below (scheduled_node params) (h + 1).
Definition uncapped_total (params : ConsensusParams) (h : Z) : Z :=
  uncapped_miner params h + uncapped_node params h.

(** The split as a plain function, for statements. *)
Definition split_of (params : ConsensusParams) (h : Z) : Z * Z :=
  match subsidy_split_chipbits h params with Ok s => s | Raise _ => (0, 0) end.

(** ** Sums *)

Lemma sum_below_nonpos f n : n <= 0 -> sum_below f n = 0.
Proof. intros H. unfold sum_below, zrange. by replace (Z.to_nat n) with O by lia. Qed.

Lemma sum_below_succ f n : 0 <= n -> sum_below f (n + 1) = sum_below f n + f n.
Proof.
  intros H. unfold sum_below. rewrite zrange_succ, fmap_app, zsum_app by done. simpl. lia.
Qed.

(** Along a stretch where the summand is known, one step at a time. *)
Lemma sum_below_stretch f g c k :
  0 <= c -> 0 <= k ->
  (forall i, c <= i < c + k -> f i = g (i + 1) - g i) ->
  sum_below f (c + k) = sum_below f c + (g (c + k) - g c).
Proof.
  intros Hc Hk. revert k Hk. refine (natlike_ind _ _ _).
  - intros _. rewrite Z.add_0_r. lia.
  - intros k Hk IH Hf. replace (c + Z.succ k) with (c + k + 1) by lia.
    rewrite sum_below_succ, IH by (lia || (intros; apply Hf; lia)).
    rewrite (Hf (c + k)) by lia. lia.
Qed.

Lemma sum_below_mono f n m :
  (forall i, 0 <= i -> 0 <= f i) -> n <= m -> sum_below f n <= sum_below f m.
Proof.
  intros Hf Hnm. destruct (Z.le_gt_cases 0 n) as [Hn|Hn].
  - replace m with (n + (m - n)) by lia.
    assert (Hk : 0 <= m - n) by lia. revert Hk. generalize (m - n) as k.
    refine (natlike_ind _ _ _); [by rewrite Z.add_0_r|].
    intros k Hk IH. replace (n + Z.succ k) with (n + k + 1) by lia.
    rewrite sum_below_succ by lia. specialize (Hf (n + k)). lia.
  - rewrite (sum_below_nonpos f n) by lia.
    destruct (Z.le_gt_cases 0 m) as [Hm|]; [|by rewrite sum_below_nonpos by lia].
    revert m Hm Hnm. refine (natlike_ind _ _ _); [by rewrite sum_below_nonpos|].
    intros m Hm IH _. unfold Z.succ. rewrite sum_below_succ by lia. specialize (Hf m). lia.
Qed.

(** ** The era loop adds up the schedule *)

Lemma div_between a q c : 0 < c -> q * c <= a < (q + 1) * c -> a / c = q.
Proof. intros Hc H. symmetry. apply (Z.div_unique a c q (a - c * q)); lia. Qed.

Lemma shiftr_zero_later x i j : i <= j -> 0 <= i -> 0 <= x -> Z.shiftr x i <= 0 -> Z.shiftr x j = 0.
Proof.
  intros Hij Hi Hx H. assert (Z.shiftr x i = 0) as E by (apply Z.shiftr_nonneg with (n := i) in Hx; lia).
  replace j with (i + (j - i)) by lia. rewrite <- Z.shiftr_shiftr, E by lia. apply Z.shiftr_0_l.
Qed.

Lemma next_epoch_height c e : 0 < e -> c + (e - 1 - c) mod e = (c / e + 1) * e - 1.
Proof.
  intros He. assert ((e - 1 - c) mod e = e - 1 - c mod e) as ->.
  { symmetry. apply (Z.mod_unique_pos _ _ (- (c / e))).
    - pose proof (Z.mod_pos_bound c e He). lia.
    - pose proof (Z.div_mod c e). nia. }
  pose proof (Z.div_mod c e). nia.
Qed.

(** Epoch-closing heights in [c, n) are counted by the quotients. *)
Lemma epoch_count_step h e : 0 < e -> 0 <= h ->
  (h + 1) / e - h / e = if (h + 1) mod e =? 0 then 1 else 0.
Proof.
  intros He Hh. pose proof (Z.mod_pos_bound h e He) as Hb. pose proof (Z.div_mod h e) as Hd.
  destruct (Z.eqb_spec ((h + 1) mod e) 0) as [E|E].
  - pose proof (Z.div_mod (h + 1) e). nia.
  - rewrite (div_between (h + 1) (h / e) e He); [lia|].
    assert (h mod e + 1 ≠ e).
    { intros E'. apply E. replace (h + 1) with ((h / e + 1) * e) by nia. by apply Z.mod_mul; lia. }
    nia.
Qed.

Section schedule.
Context (params : ConsensusParams) (Hp : params_ok params).

Let I := halving_interval params.
Let E := epoch_length_blocks params.

Lemma scheduled_miner_nonneg h : 0 <= scheduled_miner params h.
Proof. apply Z.shiftr_nonneg, Hp. Qed.
Lemma scheduled_node_nonneg h : 0 <= scheduled_node params h.
Proof. unfold scheduled_node. case_match; [apply Z.shiftr_nonneg, Hp|lia]. Qed.

Lemma uncapped_mono h1 h2 : h1 <= h2 ->
  uncapped_miner params h1 <= uncapped_miner params h2 /\ uncapped_node params h1 <= uncapped_node params h2.
Proof.
  intros. split; apply sum_below_mono; try lia; intros;
    [apply scheduled_miner_nonneg|apply scheduled_node_nonneg].
Qed.

(** One era: from [c] (in era [q]) to [e]. *)
Lemma era_miner q c e : 0 <= c -> c <= e + 1 -> q * I <= c -> e < (q + 1) * I ->
  sum_below (scheduled_miner params) (e + 1) =
  sum_below (scheduled_miner params) c + Z.shiftr (initial_miner_subsidy_chipbits params) q * (e - c + 1).
Proof.
  intros Hc He Hq Hq'. replace (e + 1) with (c + (e + 1 - c)) at 1 by lia.
  rewrite (sum_below_stretch _ (fun i => Z.shiftr (initial_miner_subsidy_chipbits params) q * i)); [lia..|].
  intros i Hi. unfold scheduled_miner.
  rewrite (div_between i q) by (pose proof (halving_interval_pos _ Hp); fold I; lia). lia.
Qed.

Lemma era_node q c e : 0 <= c -> c <= e + 1 -> q * I <= c -> e < (q + 1) * I ->
  sum_below (scheduled_node params) (e + 1) =
  sum_below (scheduled_node params) c
  + Z.shiftr (initial_node_epoch_reward_chipbits params) q * ((e + 1) / E - c / E).
Proof.
  intros Hc He Hq Hq'. set (r := Z.shiftr _ q).
  replace (e + 1) with (c + (e + 1 - c)) at 1 by lia.
  rewrite (sum_below_stretch _ (fun i => r * (i / E))); [|lia..|].
  { replace (c + (e + 1 - c)) with (e + 1) by lia. lia. }
  intros i Hi. unfold scheduled_node. fold E.
  rewrite (div_between i q) by (pose proof (halving_interval_pos _ Hp); fold I; lia).
  rewrite <- Z.mul_sub_distr_l, epoch_count_step by (apply Hp || lia).
  fold r. case_match; lia.
Qed.

Lemma loop_epoch_count c e (n r : Z) : 0 <= c -> c <= e + 1 ->
  (if c + (E - 1 - c) mod E <=? e then n + r * ((e - (c + (E - 1 - c) mod E)) / E + 1) else n)
  = n + r * ((e + 1) / E - c / E).
Proof.
  intros Hc He. pose proof (epoch_length_pos _ Hp) as HE. fold E in HE.
  rewrite next_epoch_height by done.
  pose proof (Z.div_mod c E) as Hd. pose proof (Z.mod_pos_bound c E HE).
  destruct (Z.leb_spec ((c / E + 1) * E - 1) e).
  - replace (e - ((c / E + 1) * E - 1)) with (e + 1 + - (c / E + 1) * E) by lia.
    rewrite Z.div_add by lia. lia.
  - rewrite (div_between (e + 1) (c / E) E) by nia. lia.
Qed.

(** A non-zero reward bounds the era. *)
Lemma era_bound q : 0 <= q ->
  (Z.shiftr (initial_miner_subsidy_chipbits params) q <=? 0)
  && (Z.shiftr (initial_node_epoch_reward_chipbits params) q <=? 0) = false ->
  q <= Z.log2 (Z.max (initial_miner_subsidy_chipbits params) (initial_node_epoch_reward_chipbits params)).
Proof.
  intros Hq H. destruct (Z.le_gt_cases q (Z.log2 (Z.max (initial_miner_subsidy_chipbits params)
    (initial_node_epoch_reward_chipbits params)))) as [|Hgt]; [done|exfalso].
  pose proof (miner_subsidy_nonneg _ Hp). pose proof (node_reward_nonneg _ Hp).
  rewrite !Z.shiftr_div_pow2 in H by done.
  assert (Hlt : Z.max (initial_miner_subsidy_chipbits params) (initial_node_epoch_reward_chipbits params) < 2 ^ q).
  { destruct (Z.eq_dec (Z.max (initial_miner_subsidy_chipbits params) (initial_node_epoch_reward_chipbits params)) 0).
    - pose proof (Z.pow_pos_nonneg 2 q). lia.
    - apply Z.log2_lt_pow2; lia. }
  rewrite !Z.div_small in H by lia. done.
Qed.

Lemma sum_below_zero_tail f c n : 0 <= c -> c <= n -> (forall i, c <= i -> f i = 0) -> sum_below f n = sum_below f c.
Proof.
  intros Hc Hn Hf. replace n with (c + (n - c)) by lia.
  rewrite (sum_below_stretch f (fun _ => 0)); [lia..|]. intros i Hi. rewrite Hf by lia. lia.
Qed.

Lemma uncapped_loop_done fuel height c mt nt : (0 < fuel)%nat -> height < c ->
  uncapped_loop fuel height params mt nt c = Ok (mt, nt).
Proof. intros Hf Hc. destruct fuel; [lia|]. simpl. by rewrite (proj2 (Z.leb_gt _ _)) by lia. Qed.

Lemma uncapped_loop_break height q :
  0 <= q -> q * I <= height + 1 ->
  (Z.shiftr (initial_miner_subsidy_chipbits params) q <=? 0)
  && (Z.shiftr (initial_node_epoch_reward_chipbits params) q <=? 0) = true ->
  uncapped_miner params height = sum_below (scheduled_miner params) (q * I) /\
  uncapped_node params height = sum_below (scheduled_node params) (q * I).
Proof.
  intros Hq Hc H. bool_prop. pose proof (halving_interval_pos _ Hp) as HI. fold I in HI.
  assert (Hlater : forall i, q * I <= i -> q <= i / I) by (intros; apply Z.div_le_lower_bound; lia).
  split; apply sum_below_zero_tail; try nia; intros i Hi;
    unfold scheduled_miner, scheduled_node; [|destruct (_ =? 0); [|done]];
    apply (shiftr_zero_later _ q); auto; apply Hp.
Qed.

Lemma uncapped_loop_sum fuel : forall height q,
  0 <= q ->
  Z.log2 (Z.max (initial_miner_subsidy_chipbits params) (initial_node_epoch_reward_chipbits params))
    + 2 <= q + Z.of_nat fuel ->
  q * I <= height + 1 -> (0 < fuel)%nat ->
  uncapped_loop fuel height params
    (sum_below (scheduled_miner params) (q * I)) (sum_below (scheduled_node params) (q * I)) (q * I)
  = Ok (uncapped_miner params height, uncapped_node params height).
Proof.
  pose proof (halving_interval_pos _ Hp) as HI. fold I in HI.
  induction fuel as [|fuel IH]; intros height q Hq Hlog Hc Hf; [lia|].
  destruct (Z.leb_spec (q * I) height) as [Hle|Hgt].
  2:{ replace height with (q * I - 1) by lia. rewrite uncapped_loop_done by lia.
      unfold uncapped_miner, uncapped_node. by rewrite Z.sub_add. }
  cbn [uncapped_loop]. rewrite (proj2 (Z.leb_le _ _)) by done. cbv zeta. fold I E.
  rewrite Z.div_mul by lia. destruct (_ && _) eqn:Hz.
  { by destruct (uncapped_loop_break height q) as [-> ->]. }
  apply era_bound in Hz; [|done].
  set (e := Z.min height ((q + 1) * I - 1)).
  assert (He : q * I <= e + 1 /\ e < (q + 1) * I) by (unfold e; lia).
  rewrite loop_epoch_count, <- era_miner, <- era_node by (nia || lia).
  destruct (Z.le_gt_cases height ((q + 1) * I - 1)) as [Hlast|Hmore].
  - replace e with height by (unfold e; lia). by rewrite uncapped_loop_done by lia.
  - replace (e + 1) with ((q + 1) * I) by (unfold e; lia). apply IH; lia.
Qed.

Lemma uncapped_totals h :
  _uncapped_subsidy_totals_through_height h params = Ok (uncapped_miner params h, uncapped_node params h).
Proof.
  unfold _uncapped_subsidy_totals_through_height. destruct (Z.ltb_spec h 0).
  - unfold uncapped_miner, uncapped_node. by rewrite !sum_below_nonpos by lia.
  - rewrite <- (uncapped_loop_sum (era_fuel params) h 0); unfold era_fuel; simpl Z.mul; try lia.
    by rewrite !sum_below_nonpos by lia.
Qed.

(** ** The cap *)

Let M := max_money_chipbits params.

Lemma uncapped_total_mono h1 h2 : h1 <= h2 -> uncapped_total params h1 <= uncapped_total params h2.
Proof. intros H. destruct (uncapped_mono h1 h2 H). unfold uncapped_total. lia. Qed.

Lemma uncapped_total_neg h : h < 0 -> uncapped_miner params h = 0 /\ uncapped_node params h = 0.
Proof. intros H. unfold uncapped_miner, uncapped_node. by rewrite !sum_below_nonpos by lia. Qed.

Lemma uncapped_step h : 0 <= h ->
  uncapped_miner params h = uncapped_miner params (h - 1) + scheduled_miner params h /\
  uncapped_node params h = uncapped_node params (h - 1) + scheduled_node params h.
Proof. intros H. unfold uncapped_miner, uncapped_node. rewrite !Z.sub_add, !sum_below_succ by done. done. Qed.

(** The binary search finds the first height at which the schedule reaches the cap. *)
Lemma cap_search_first fuel : forall low high,
  low <= high -> high - low < 2 ^ (Z.of_nat fuel - 1) -> (0 < fuel)%nat ->
  (high = low \/ M <= uncapped_total params high) ->
  exists c, cap_search fuel params low high = Ok c /\ low <= c <= high /\
    (forall i, low <= i < c -> uncapped_total params i < M) /\
    (c = high \/ M <= uncapped_total params c).
Proof.
  induction fuel as [|fuel IH]; intros low high Hle Hw Hf Hh; [lia|].
  cbn [cap_search]. destruct (Z.ltb_spec low high) as [Hlt|Hge].
  2:{ exists low. repeat split; try lia. }
  assert (Hfuel : (0 < fuel)%nat) by (destruct fuel; [simpl in Hw; lia|lia]).
  replace (Z.of_nat (S fuel) - 1) with (Z.succ (Z.of_nat fuel - 1)) in Hw by lia.
  rewrite Z.pow_succ_r in Hw by lia.
  pose proof (Z.div_mod (low + high) 2) as Hdm. pose proof (Z.mod_pos_bound (low + high) 2) as Hmb.
  set (mid := (low + high) / 2) in *. rewrite uncapped_totals. cbn [rbind].
  fold (uncapped_total params mid). fold M.
  destruct (Z.leb_spec M (uncapped_total params mid)) as [Hmid|Hmid].
  - destruct (IH low mid) as (c & Hc & ? & ? & [->|?]); [lia..|by right| |]; exists c || exists mid;
      repeat split; try done; try lia; by right.
  - destruct (IH (mid + 1) high) as (c & Hc & Hr & Hbelow & Hat); [lia|lia|done| |].
    { destruct Hh; [lia|by right]. }
    exists c. repeat split; try done; try lia.
    intros i Hi. destruct (Z.le_gt_cases (mid + 1) i); [apply Hbelow; lia|].
    pose proof (uncapped_total_mono i mid). lia.
Qed.

(** What a block at height [h] mints when [minted] has been minted before it. *)
Definition clipped (h minted : Z) : Z * Z :=
  let miner := Z.min (scheduled_miner params h) (M - minted) in
  (miner, Z.min (scheduled_node params h) (M - minted - miner)).

Lemma regular_miner h : 0 <= h -> _regular_miner_subsidy_chipbits h params = Ok (scheduled_miner params h).
Proof.
  intros H. unfold _regular_miner_subsidy_chipbits. rewrite (proj2 (Z.ltb_ge _ _)) by done.
  pose proof (scheduled_miner_nonneg h). unfold scheduled_miner in *. f_equal. lia.
Qed.

Lemma scheduled_node_Ok h : 0 <= h -> _scheduled_node_epoch_reward_chipbits h params = Ok (scheduled_node params h).
Proof.
  intros H. unfold _scheduled_node_epoch_reward_chipbits, is_epoch_reward_height, _regular_node_epoch_reward_chipbits.
  rewrite (proj2 (Z.ltb_ge _ _)) by done. cbn [rbind].
  pose proof (scheduled_node_nonneg h) as Hn. unfold scheduled_node in *.
  destruct (_ =? 0); simpl; [|done]. f_equal. lia.
Qed.

(** The closed form of the capped totals. *)
Lemma totals_under_cap h : 0 <= h -> uncapped_total params h <= M ->
  subsidy_totals_through_height h params = Ok (uncapped_miner params h, uncapped_node params h).
Proof.
  intros Hh Hu. unfold subsidy_totals_through_height. rewrite (proj2 (Z.ltb_ge _ _)) by done.
  rewrite uncapped_totals. cbn [rbind]. by rewrite (proj2 (Z.leb_le _ _)) by done.
Qed.

(** The first height at which the schedule reaches the cap. *)
Definition cap_height (c : Z) : Prop :=
  0 <= c /\ uncapped_total params (c - 1) <= M <= uncapped_total params c /\
  forall i, 0 <= i < c -> uncapped_total params i < M.

Lemma cap_height_unique c1 c2 : cap_height c1 -> cap_height c2 -> c1 = c2.
Proof.
  intros (? & ? & H1) (? & ? & H2).
  destruct (Z.lt_total c1 c2) as [?|[?|?]]; [|done|].
  - specialize (H2 c1). lia.
  - specialize (H1 c2). lia.
Qed.

Lemma search_fuel_enough h : 0 <= h -> h - 0 < 2 ^ (Z.of_nat (search_fuel h) - 1).
Proof.
  intros Hh. unfold search_fuel. destruct (Z.eq_dec h 0) as [->|]; [simpl; lia|].
  pose proof (Z.log2_spec h). pose proof (Z.log2_nonneg h).
  replace (Z.of_nat _ - 1) with (Z.succ (Z.log2 h)) by lia. lia.
Qed.

Lemma cap_search_cap_height h : 0 <= h -> M <= uncapped_total params h ->
  exists c, cap_search (search_fuel h) params 0 h = Ok c /\ c <= h /\ cap_height c.
Proof.
  intros Hh Hu.
  destruct (cap_search_first (search_fuel h) 0 h) as (c & -> & Hc & Hbelow & Hat);
    [lia|by apply search_fuel_enough|unfold search_fuel; lia|by right|].
  exists c. split; [done|]. split; [lia|]. split; [lia|]. split; [split|intros; apply Hbelow; lia].
  - destruct (Z.eq_dec c 0) as [->|]; [|apply Z.lt_le_incl, Hbelow; lia].
    unfold uncapped_total. destruct (uncapped_total_neg (0 - 1)) as [-> ->]; [lia|]. apply Hp.
  - destruct Hat as [->|]; lia.
Qed.

(** The totals once the cap is reached: the schedule up to the cap height, and
    what was left there. *)
Definition capped_totals (c : Z) : Z * Z :=
  let minted := clipped c (uncapped_total params (c - 1)) in
  (uncapped_miner params (c - 1) + minted.1, uncapped_node params (c - 1) + minted.2).

Lemma totals_over_cap h c : 0 <= h -> cap_height c -> M <= uncapped_total params h ->
  subsidy_totals_through_height h params = Ok (capped_totals c).
Proof.
  intros Hh Hc Hu. destruct (cap_search_cap_height h) as (c' & Hs & Hch & Hc'); [done..|].
  assert (c' = c) as -> by by apply cap_height_unique.
  destruct Hc as (Hc0 & Hcap & Hbelow). destruct (uncapped_step c Hc0) as [Em En].
  destruct (Z.eq_dec (uncapped_total params h) M) as [Eh|].
  - rewrite totals_under_cap by lia. unfold capped_totals, clipped. simpl.
    pose proof (scheduled_miner_nonneg c). pose proof (scheduled_node_nonneg c).
    destruct (uncapped_mono c h Hch). unfold uncapped_total in *. f_equal. f_equal; lia.
  - unfold subsidy_totals_through_height. rewrite (proj2 (Z.ltb_ge _ _)) by done.
    rewrite uncapped_totals. cbn [rbind]. rewrite (proj2 (Z.leb_gt _ _)) by (fold M; unfold uncapped_total in *; lia).
    rewrite Hs. cbn [rbind].
    rewrite uncapped_totals. cbn [rbind]. rewrite regular_miner by lia. cbn [rbind].
    rewrite scheduled_node_Ok by lia. cbn [rbind]. unfold capped_totals, clipped. fold M. simpl.
    unfold uncapped_total in *. f_equal. f_equal; lia.
Qed.

Lemma clipped_sum h minted : 0 <= h -> minted <= M ->
  M <= minted + scheduled_miner params h + scheduled_node params h ->
  (clipped h minted).1 + (clipped h minted).2 = M - minted.
Proof.
  intros. pose proof (scheduled_miner_nonneg h). pose proof (scheduled_node_nonneg h).
  unfold clipped. simpl. lia.
Qed.

(** The capped total is the smaller of the schedule's total and the cap. *)
Lemma total_subsidy_min h :
  total_subsidy_through_height h params = Ok (Z.min (uncapped_total params h) M).
Proof.
  unfold total_subsidy_through_height. pose proof (max_money_nonneg _ Hp) as HM. fold M in HM.
  destruct (Z.lt_ge_cases h 0) as [Hneg|Hh].
  - unfold subsidy_totals_through_height. rewrite (proj2 (Z.ltb_lt _ _)) by done. cbn [rbind].
    unfold uncapped_total. destruct (uncapped_total_neg h) as [-> ->]; [done|]. f_equal. lia.
  - destruct (Z.le_gt_cases (uncapped_total params h) M).
    + rewrite totals_under_cap by done. cbn [rbind]. f_equal. unfold uncapped_total in *. lia.
    + destruct (cap_search_cap_height h) as (c & _ & _ & Hc); [lia..|].
      rewrite (totals_over_cap h c) by (done || lia). cbn [rbind]. f_equal. destruct Hc as (Hc0 & Hcap & _).
      destruct (uncapped_step c) as [Em En]; [lia|]. unfold uncapped_total in *.
      pose proof (clipped_sum c (uncapped_miner params (c - 1) + uncapped_node params (c - 1))) as Hcs.
      unfold capped_totals, uncapped_total. cbv zeta. lia.
Qed.

Lemma split_Ok h : 0 <= h ->
  subsidy_split_chipbits h params =
  Ok (clipped h (Z.min (uncapped_total params (h - 1)) M)).
Proof.
  intros Hh. unfold subsidy_split_chipbits. rewrite (proj2 (Z.ltb_ge _ _)) by done.
  rewrite regular_miner, scheduled_node_Ok by done. cbn [rbind].
  pose proof (scheduled_miner_nonneg h). pose proof (scheduled_node_nonneg h).
  rewrite total_subsidy_min. cbn [rbind]. fold M.
  pose proof (max_money_nonneg _ Hp) as HM. fold M in HM.
  unfold clipped. destruct (_ && _) eqn:E1; [bool_prop; f_equal; f_equal; lia|].
  case_match; bool_prop; f_equal; f_equal; lia.
Qed.

Lemma totals_before_genesis : subsidy_totals_through_height (-1) params = Ok (0, 0).
Proof. done. Qed.

Lemma totals_reached h : 0 <= h \/ h = -1 -> uncapped_total params h <= M ->
  subsidy_totals_through_height h params = Ok (uncapped_miner params h, uncapped_node params h).
Proof.
  intros [Hh| ->]; [by apply totals_under_cap|].
  intros _. by destruct (uncapped_total_neg (-1)) as [-> ->].
Qed.

(** The totals at [h] are the totals at [h - 1] plus the block's split. *)
Lemma totals_step h : 0 <= h ->
  exists m n, subsidy_totals_through_height (h - 1) params = Ok (m, n) /\
    subsidy_totals_through_height h params = Ok (m + (split_of params h).1, n + (split_of params h).2).
Proof.
  intros Hh. unfold split_of. rewrite (split_Ok h Hh).
  pose proof (uncapped_total_mono (h - 1) h ltac:(lia)) as Hmono.
  pose proof (uncapped_step h Hh) as [Em En].
  pose proof (scheduled_miner_nonneg h). pose proof (scheduled_node_nonneg h).
  destruct (Z.lt_ge_cases (uncapped_total params (h - 1)) M) as [Hlt|Hge].
  - exists (uncapped_miner params (h - 1)), (uncapped_node params (h - 1)).
    rewrite Z.min_l, totals_reached by lia. split; [done|].
    destruct (Z.le_gt_cases (uncapped_total params h) M).
    + rewrite totals_reached by lia. unfold clipped, uncapped_total in *. simpl. f_equal. f_equal; lia.
    + apply (totals_over_cap h h); [done| |lia]. split; [done|]. split; [lia|].
      intros i Hi. pose proof (uncapped_total_mono i (h - 1)). lia.
  - rewrite Z.min_r by lia. replace (clipped h M) with (0, 0) by (unfold clipped; f_equal; lia). simpl.
    destruct (cap_search_cap_height h) as (c & _ & _ & Hc); [lia..|].
    rewrite (totals_over_cap h c) by (done || lia).
    exists (capped_totals c).1, (capped_totals c).2. rewrite !Z.add_0_r, <- surjective_pairing. split; [|done].
    destruct (Z.eq_dec h 0) as [->|]; [|apply totals_over_cap; done || lia].
    assert (M = 0) as EM.
    { unfold uncapped_total in Hge. destruct (uncapped_total_neg (0 - 1)) as [E1 E2]; [lia|].
      pose proof (max_money_nonneg _ Hp) as HM. fold M in HM. lia. }
    assert (c = 0) as ->.
    { apply (cap_height_unique c 0); [done|]. unfold cap_height, uncapped_total in *.
      destruct (uncapped_total_neg (0 - 1)) as [E1 E2]; [lia|]. repeat split; lia. }
    unfold capped_totals, clipped, uncapped_total. destruct (uncapped_total_neg (0 - 1)) as [-> ->]; [lia|].
    pose proof (scheduled_miner_nonneg 0). pose proof (scheduled_node_nonneg 0).
    simpl. rewrite EM. change (0 - 1) with (-1). rewrite totals_before_genesis. f_equal. f_equal; lia.
Qed.
End schedule.

(** ** Fees *)

Lemma approx_log2_bounds v l : 0 < v -> _approx_log2_scaled v = Ok l ->
  Z.log2 v * REWARD_NODE_FEE_LOG_SCALE <= l < (Z.log2 v + 1) * REWARD_NODE_FEE_LOG_SCALE.
Proof.
  intros Hv. unfold _approx_log2_scaled. rewrite (proj2 (Z.leb_gt _ _)) by done.
  destruct (Z.eqb_spec v 1) as [->|]; intros H; inv_ok; [unfold REWARD_NODE_FEE_LOG_SCALE; change (Z.log2 1) with 0; lia|].
  pose proof (Z.log2_spec v Hv) as [Hlo Hhi]. pose proof (Z.log2_nonneg v) as Hn.
  rewrite !Z.shiftl_mul_pow2, Z.mul_1_l by lia. rewrite Z.pow_succ_r in Hhi by done.
  set (p := 2 ^ Z.log2 v) in *. replace (p * 2 ^ 1 - p) with p by lia.
  assert (0 <= (v - p) * REWARD_NODE_FEE_LOG_SCALE / p < REWARD_NODE_FEE_LOG_SCALE); [|lia].
  unfold REWARD_NODE_FEE_LOG_SCALE. split; [apply Z.div_pos; nia|apply Z.div_lt_upper_bound; nia].
Qed.

Lemma approx_log2_mono v w lv lw : 0 < v <= w ->
  _approx_log2_scaled v = Ok lv -> _approx_log2_scaled w = Ok lw -> lv <= lw.
Proof.
  intros Hvw Hv Hw. pose proof (approx_log2_bounds v lv ltac:(lia) Hv).
  pose proof (approx_log2_bounds w lw ltac:(lia) Hw).
  assert (Hl : Z.log2 v <= Z.log2 w) by (apply Z.log2_le_mono; lia).
  destruct (Z.eq_dec (Z.log2 v) (Z.log2 w)) as [El|]; [|unfold REWARD_NODE_FEE_LOG_SCALE in *; nia].
  unfold _approx_log2_scaled in Hv, Hw.
  rewrite (proj2 (Z.leb_gt v 0)) in Hv by lia. rewrite (proj2 (Z.leb_gt w 0)) in Hw by lia.
  destruct (Z.eqb_spec v 1) as [->|]; destruct (Z.eqb_spec w 1) as [->|]; inv_ok; try lia.
  { pose proof (Z.log2_nonneg w). unfold REWARD_NODE_FEE_LOG_SCALE in *. lia. }
  rewrite <- El. apply Z.add_le_mono_l.
  rewrite !Z.shiftl_mul_pow2, Z.mul_1_l by (apply Z.log2_nonneg || lia).
  assert (0 < 2 ^ Z.log2 v) by (apply Z.pow_pos_nonneg; [lia|apply Z.log2_nonneg]).
  apply Z.div_le_mono; [lia|]. unfold REWARD_NODE_FEE_LOG_SCALE. nia.
Qed.

Lemma approx_log2_Ok v : 0 < v -> exists l, _approx_log2_scaled v = Ok l.
Proof.
  intros Hv. unfold _approx_log2_scaled. rewrite (proj2 (Z.leb_gt _ _)) by done.
  case_match; by eexists.
Qed.

(** The fee in terms of the logarithm of the clamped count. *)
Lemma adaptive_fee_form count mx mn : 0 < mn <= mx ->
  exists progress, _approx_log2_scaled (Z.min (Z.max count 1) REWARD_NODE_FEE_TARGET_COUNT) = Ok progress /\
    0 <= progress <= 14220703 /\
    _adaptive_reward_node_fee_chipbits count mx mn = Ok (Z.max mn (mx - (mx - mn) * progress / 14220703)).
Proof.
  intros Hm. unfold _adaptive_reward_node_fee_chipbits.
  rewrite (proj2 (Z.leb_gt _ _)), (proj2 (Z.leb_gt _ _)), (proj2 (Z.ltb_ge _ _)) by lia.
  set (clamped := Z.min (Z.max count 1) REWARD_NODE_FEE_TARGET_COUNT).
  assert (Hcl : 0 < clamped <= REWARD_NODE_FEE_TARGET_COUNT) by (unfold clamped, REWARD_NODE_FEE_TARGET_COUNT; lia).
  destruct (approx_log2_Ok clamped) as (progress & Hpr); [lia|]. exists progress.
  assert (Ht : _approx_log2_scaled REWARD_NODE_FEE_TARGET_COUNT = Ok 14220703) by reflexivity.
  pose proof (approx_log2_mono _ _ _ _ Hcl Hpr Ht).
  pose proof (approx_log2_bounds _ _ (proj1 Hcl) Hpr). pose proof (Z.log2_nonneg clamped).
  assert (0 <= progress) by (unfold REWARD_NODE_FEE_LOG_SCALE in *; nia).
  split; [done|]. split; [lia|]. cbv zeta. fold clamped. destruct (Z.eqb_spec clamped 1) as [E|].
  - rewrite E in Hpr. injection Hpr as <-. rewrite Z.mul_0_r, Z.div_0_l by lia. f_equal. lia.
  - by rewrite Ht, Hpr.
Qed.

Lemma div_14220703_mono a b : a <= b -> a / 14220703 <= b / 14220703.
Proof. intros. apply Z.div_le_mono; lia. Qed.

Lemma adaptive_fee_bounds count mx mn : 0 < mn <= mx ->
  exists fee, _adaptive_reward_node_fee_chipbits count mx mn = Ok fee /\ mn <= fee <= mx.
Proof.
  intros Hm. destruct (adaptive_fee_form count mx mn Hm) as (pr & _ & Hpr & ->).
  eexists. split; [done|].
  assert (0 <= (mx - mn) * pr / 14220703) by (apply Z.div_pos; nia). lia.
Qed.

Lemma adaptive_fee_antitone c1 c2 mx mn f1 f2 : 0 < mn <= mx -> c1 <= c2 ->
  _adaptive_reward_node_fee_chipbits c1 mx mn = Ok f1 ->
  _adaptive_reward_node_fee_chipbits c2 mx mn = Ok f2 -> f2 <= f1.
Proof.
  intros Hm Hc H1 H2.
  destruct (adaptive_fee_form c1 mx mn Hm) as (p1 & L1 & Hp1 & E1).
  destruct (adaptive_fee_form c2 mx mn Hm) as (p2 & L2 & Hp2 & E2).
  rewrite E1 in H1. rewrite E2 in H2. inv_ok.
  assert (p1 <= p2) by (eapply approx_log2_mono; [|exact L1|exact L2]; unfold REWARD_NODE_FEE_TARGET_COUNT; lia).
  pose proof (div_14220703_mono ((mx - mn) * p1) ((mx - mn) * p2) ltac:(nia)). lia.
Qed.

Lemma adaptive_fee_ends count mx mn : 0 < mn <= mx ->
  (count <= 1 -> _adaptive_reward_node_fee_chipbits count mx mn = Ok mx) /\
  (REWARD_NODE_FEE_TARGET_COUNT <= count -> _adaptive_reward_node_fee_chipbits count mx mn = Ok mn).
Proof.
  intros Hm. destruct (adaptive_fee_form count mx mn Hm) as (pr & L & Hpr & ->).
  split; intros Hc; f_equal.
  - replace (Z.min (Z.max count 1) _) with 1 in L by (unfold REWARD_NODE_FEE_TARGET_COUNT; lia).
    injection L as <-. rewrite Z.mul_0_r, Z.div_0_l by lia. lia.
  - rewrite Z.min_r in L by (unfold REWARD_NODE_FEE_TARGET_COUNT in *; lia).
    assert (pr = 14220703) as -> by (vm_compute in L; congruence).
    rewrite Z.div_mul by lia. lia.
Qed.

(** ** Properties of the monetary policy *)

(** The totals the node computes in closed form (one step per halving era, a
    binary search for the cap) are the block-by-block sums of the miner and node
    subsidies that the validation rules allow, at every height. *)
Theorem subsidy_totals_sum (params : ConsensusParams) (h : Z) :
  params_ok params ->
  subsidy_totals_through_height h params =
  Ok (sum_below (fun i => (split_of params i).1) (h + 1), sum_below (fun i => (split_of params i).2) (h + 1)).
Proof.
  intros Hp. destruct (Z.lt_ge_cases h 0) as [Hneg|Hh].
  { unfold subsidy_totals_through_height. rewrite (proj2 (Z.ltb_lt _ _)) by done.
    by rewrite !sum_below_nonpos by lia. }
  revert h Hh. refine (natlike_ind _ _ _).
  - destruct (totals_step params Hp 0) as (m & n & H & ->); [lia|]. injection H as <- <-.
    change 0 with (0 + 0) at 4 6. rewrite !sum_below_succ by lia.
    by rewrite !sum_below_nonpos by lia.
  - intros h Hh IH. destruct (totals_step params Hp (Z.succ h)) as (m & n & H & ->); [lia|].
    replace (Z.succ h - 1) with h in H by lia. rewrite IH in H. injection H as <- <-.
    replace (Z.succ h) with (h + 1) by lia. by rewrite !(sum_below_succ _ (h + 1)) by lia.
Qed.

(** The supply never exceeds the cap: the total minted through any height is
    the smaller of the halving schedule's sum and [max_money_chipbits]. *)
Theorem total_subsidy_capped (params : ConsensusParams) (h : Z) :
  params_ok params ->
  exists total, total_subsidy_through_height h params = Ok total /\
    total = Z.min (uncapped_total params h) (max_money_chipbits params) /\
    0 <= total <= max_money_chipbits params.
Proof.
  intros Hp. eexists. split; [by apply total_subsidy_min|]. split; [done|].
  pose proof (max_money_nonneg _ Hp).
  assert (0 <= uncapped_total params h); [|lia].
  destruct (Z.lt_ge_cases h 0).
  - unfold uncapped_total. destruct (uncapped_total_neg params h) as [-> ->]; lia.
  - pose proof (uncapped_total_mono params Hp (-1) h ltac:(lia)) as Hm.
    unfold uncapped_total in Hm at 1. destruct (uncapped_total_neg params (-1)) as [E1 E2]; [lia|]. lia.
Qed.

(** A block's split against the totals before and after it *)
Lemma split_totals_step (params : ConsensusParams) (h : Z) :
  params_ok params -> 0 <= h ->
  exists miner node before,
    subsidy_split_chipbits h params = Ok (miner, node) /\
    total_subsidy_through_height (h - 1) params = Ok before /\
    total_subsidy_through_height h params = Ok (before + miner + node) /\
    0 <= miner <= scheduled_miner params h /\ 0 <= node <= scheduled_node params h.
Proof.
  intros Hp Hh. pose proof (split_Ok params Hp h Hh) as Hs.
  destruct (totals_step params Hp h Hh) as (m & n & H1 & H2). unfold split_of in H2. rewrite Hs in H2.
  pose proof (scheduled_miner_nonneg params Hp h). pose proof (scheduled_node_nonneg params Hp h).
  revert Hs H2. unfold clipped. intros Hs H2. do 3 eexists. split; [exact Hs|].
  unfold total_subsidy_through_height. rewrite H1, H2. cbn [rbind]. split; [done|].
  split; [f_equal; simpl; lia|].
  pose proof (max_money_nonneg _ Hp). lia.
Qed.

(** The per-block subsidy is non-negative, never more than the schedule, and
    raises the running total by exactly its amount. *)
Theorem block_subsidy_step (params : ConsensusParams) (h : Z) :
  params_ok params -> 0 <= h ->
  exists miner node before,
    subsidy_split_chipbits h params = Ok (miner, node) /\
    block_subsidy h params = Ok (miner + node) /\
    total_subsidy_through_height (h - 1) params = Ok before /\
    total_subsidy_through_height h params = Ok (before + miner + node) /\
    0 <= miner <= scheduled_miner params h /\ 0 <= node <= scheduled_node params h.
Proof.
  intros Hp Hh. destruct (split_totals_step params h Hp Hh) as (miner & node & before & Hs & Hrest).
  exists miner, node, before. split; [done|]. split; [|done].
  unfold block_subsidy, total_block_subsidy_chipbits, miner_subsidy_chipbits, node_reward_pool_chipbits. by rewrite Hs.
Qed.

(** The adaptive fee lies between the minimum and the configured maximum, is
    the maximum for at most one registered node and the minimum from the target
    count on, and never rises when more nodes register. *)
Theorem adaptive_fee_correct (mx mn c1 c2 : Z) :
  0 < mn <= mx -> c1 <= c2 ->
  exists f1 f2,
    _adaptive_reward_node_fee_chipbits c1 mx mn = Ok f1 /\
    _adaptive_reward_node_fee_chipbits c2 mx mn = Ok f2 /\
    mn <= f2 <= f1 /\ f1 <= mx /\
    (c1 <= 1 -> f1 = mx) /\ (REWARD_NODE_FEE_TARGET_COUNT <= c2 -> f2 = mn).
Proof.
  intros Hm Hc. destruct (adaptive_fee_bounds c1 mx mn Hm) as (f1 & H1 & B1).
  destruct (adaptive_fee_bounds c2 mx mn Hm) as (f2 & H2 & B2).
  exists f1, f2. pose proof (adaptive_fee_antitone c1 c2 mx mn f1 f2 Hm Hc H1 H2).
  destruct (adaptive_fee_ends c1 mx mn Hm) as [Hlow _]. destruct (adaptive_fee_ends c2 mx mn Hm) as [_ Hhigh].
  repeat split; try done; try lia; intros Hx; [apply Hlow in Hx|apply Hhigh in Hx]; congruence.
Qed.

(** Once the recent-renewal driver is active, records that were not renewed
    recently never lower the registration fee: it is at least the fee computed
    from the whole registry. *)
Theorem recent_driver_never_cheaper {V} `{NodeRegistryView V} (v : V) (height : Z) (params : ConsensusParams) (n fee legacy_fee : Z) :
  REWARD_NODE_MIN_REGISTER_FEE_CHIPBITS <= register_node_fee_chipbits params ->
  reward_fee_node_count v height params = Ok n ->
  register_reward_node_fee_chipbits n params = Ok fee ->
  register_reward_node_fee_chipbits (reward_registered_node_count v) params = Ok legacy_fee ->
  legacy_fee <= fee /\ 0 <= n <= reward_registered_node_count v.
Proof.
  intros Hm Hn Hf Hl. assert (Hle : 0 <= n <= reward_registered_node_count v).
  { unfold reward_fee_node_count in Hn. unfold reward_registered_node_count in *.
    clear Hf Hl. inv_ok; unfold len; split; try lia. apply inj_le.
    induction (list_records v) as [|r l IH]; [done|]. rewrite !filter_cons.
    repeat case_decide; csimpl; try lia; tauto. }
  split; [|done]. eapply adaptive_fee_antitone; [|apply Hle|exact Hf|exact Hl].
  unfold REWARD_NODE_MIN_REGISTER_FEE_CHIPBITS in *. lia.
Qed.

(** ** Witnesses *)

Lemma subsidy_totals_sum_witness :
  subsidy_totals_through_height 99 MAINNET_PARAMS =
  Ok (sum_below (fun i => (split_of MAINNET_PARAMS i).1) (99 + 1), sum_below (fun i => (split_of MAINNET_PARAMS i).2) (99 + 1)).
Proof. exact (subsidy_totals_sum MAINNET_PARAMS 99 mainnet_ok). Defined.

(** Past the cap: the mainnet total at height 99,999,999 is 11 million CHC. *)
Lemma total_subsidy_capped_witness :
  total_subsidy_through_height 99999999 MAINNET_PARAMS = Ok 1100000000000000 /\
  1100000000000000 <= max_money_chipbits MAINNET_PARAMS.
Proof.
  destruct (total_subsidy_capped MAINNET_PARAMS 99999999 mainnet_ok) as (t & Ht & _ & Hb).
  assert (E : total_subsidy_through_height 99999999 MAINNET_PARAMS = Ok 1100000000000000) by (vm_compute; reflexivity).
  rewrite E in Ht. injection Ht as <-. split; [done|apply Hb].
Defined.

Lemma block_subsidy_step_witness :
  exists before, subsidy_split_chipbits 99 MAINNET_PARAMS = Ok (5000000000, 5000000000) /\
    total_subsidy_through_height 99 MAINNET_PARAMS = Ok (before + 5000000000 + 5000000000).
Proof.
  destruct (block_subsidy_step MAINNET_PARAMS 99 mainnet_ok ltac:(lia)) as (m & n & before & Hs & _ & _ & Ht & _).
  assert (E : subsidy_split_chipbits 99 MAINNET_PARAMS = Ok (5000000000, 5000000000)) by (vm_compute; reflexivity).
  rewrite E in Hs. injection Hs as <- <-. exists before. split; [done|exact Ht].
Defined.

Lemma adaptive_fee_correct_witness :
  exists f1 f2, register_reward_node_fee_chipbits 5 MAINNET_PARAMS = Ok f1 /\
    register_reward_node_fee_chipbits 500 MAINNET_PARAMS = Ok f2 /\ 10000 <= f2 <= f1.
Proof.
  destruct (adaptive_fee_correct 100000000 10000 5 500 ltac:(lia) ltac:(lia)) as (f1 & f2 & H1 & H2 & H3 & _).
  exists f1, f2. repeat split; [exact H1|exact H2|lia..].
Defined.

Definition sample_record (i : string) (renewed : Z) : NodeRecord :=
  mkNodeRecord (u i) (u "CHCsample") (b i) 0 renewed None None None true.
Definition sample_registry : InMemoryNodeRegistryView :=
  registry_from_records [sample_record "node-b" 12345; sample_record "node-a" 7; sample_record "node-c" 12399].

Lemma recent_driver_never_cheaper_witness :
  exists fee legacy_fee,
    reward_fee_node_count sample_registry 12400 TESTNET_PARAMS = Ok 2 /\
    register_reward_node_fee_chipbits 2 TESTNET_PARAMS = Ok fee /\
    register_reward_node_fee_chipbits 3 TESTNET_PARAMS = Ok legacy_fee /\ legacy_fee <= fee.
Proof.
  destruct (adaptive_fee_bounds 2 100000000 10000 ltac:(lia)) as (fee & Hf & _).
  destruct (adaptive_fee_bounds 3 100000000 10000 ltac:(lia)) as (legacy & Hl & _).
  exists fee, legacy. split; [vm_compute; reflexivity|]. split; [exact Hf|]. split; [exact Hl|].
  refine (proj1 (recent_driver_never_cheaper sample_registry 12400 TESTNET_PARAMS 2 fee legacy _ _ Hf _)).
  - vm_compute. congruence.
  - vm_compute. reflexivity.
  - exact Hl.
Defined.
