(* ===== verification/Pow.v ===== *)
(** * Proof of work ([consensus/pow.py])

    The compact target representation, the work of a header, the proof-of-work
    test and the bounded retarget rule. *)

From S2P Require Import Prelude PyOrder PyText Hashes Params Models Serialization.

Definition bits_to_target (bits : Z) : res Z :=
  let exponent := Z.shiftr bits 24 in
  let mantissa := Z.land bits 0x007FFFFF in
  let is_negative := negb (Z.land bits 0x00800000 =? 0) in
  if (bits =? 0) || is_negative || (mantissa =? 0) then
    raise ValueError "Invalid compact target representation."
  else if exponent <=? 3 then Ok (Z.shiftr mantissa (8 * (3 - exponent)))
  else Ok (Z.shiftl mantissa (8 * (exponent - 3))).

(** [n.bit_length()] for positive [n] *)
Definition bit_length (n : Z) : Z := Z.log2 n + 1.

Definition target_to_bits (target : Z) : res Z :=
  if target <=? 0 then raise ValueError "Target must be positive."
  else
    let size := (bit_length target + 7) / 8 in
    let mantissa :=
      if size <=? 3 then Z.shiftl target (8 * (3 - size)) else Z.shiftr target (8 * (size - 3)) in
    let '(mantissa', size') :=
      if negb (Z.land mantissa 0x00800000 =? 0) then (Z.shiftr mantissa 8, size + 1) else (mantissa, size) in
    Ok (Z.lor (Z.shiftl size' 24) (Z.land mantissa' 0x007FFFFF)).

Definition header_work (h : BlockHeader) : res Z :=
  let* target := bits_to_target (bits h) in
  Ok (Z.shiftl 1 256 / (target + 1)).

Definition header_hash_bytes (h : BlockHeader) : res bytes :=
  let* payload := serialize_block_header h in Ok (double_sha256 payload).

Definition verify_proof_of_work (h : BlockHeader) : res bool :=
  let* target := bits_to_target (bits h) in
  let* hash_bytes := header_hash_bytes h in
  let header_hash := hash_to_int hash_bytes in
  Ok ((0 <? target) && (target <? Z.shiftl 1 256) && (header_hash <=? target)).

Definition calculate_next_work_required (previous_bits actual_timespan_seconds : Z)
    (params : ConsensusParams) (candidate_height : option Z) : res Z :=
  let target_block_time :=
    match candidate_height with
    | None => target_block_time_seconds params
    | Some h => target_block_time_seconds_for_height h params
    end in
  let target_timespan_seconds := target_block_time * difficulty_adjustment_window params in
  let bounded_timespan_seconds :=
    Z.max (target_timespan_seconds / 4) (Z.min actual_timespan_seconds (target_timespan_seconds * 4)) in
  let* previous_target := bits_to_target previous_bits in
  let next_target := previous_target * bounded_timespan_seconds / target_timespan_seconds in
  let* pow_limit_target := bits_to_target (genesis_bits params) in
  target_to_bits (Z.min next_target pow_limit_target).

(** ** Bit-level facts *)

Lemma land_0x7FFFFF x : Z.land x 0x7FFFFF = x mod 2 ^ 23.
Proof. change 0x7FFFFF with (Z.ones 23). by apply Z.land_ones. Qed.

Lemma land_0x800000 x : (Z.land x 0x800000 =? 0) = ((x / 2 ^ 23) mod 2 =? 0).
Proof.
  change 0x800000 with (2 ^ 23).
  assert (Hb : Z.testbit x 23 = negb ((x / 2 ^ 23) mod 2 =? 0)).
  { rewrite Z.testbit_eqb by lia. pose proof (Z.mod_pos_bound (x / 2 ^ 23) 2).
    destruct (Z.eqb_spec ((x / 2 ^ 23) mod 2) 1), (Z.eqb_spec ((x / 2 ^ 23) mod 2) 0); lia || done. }
  assert (Hl : Z.land x (2 ^ 23) = if Z.testbit x 23 then 2 ^ 23 else 0).
  { apply Z.bits_inj'. intros n Hn. rewrite Z.land_spec, Z.pow2_bits_eqb by lia.
    destruct (Z.eqb_spec 23 n) as [<-|Hne].
    - destruct (Z.testbit x 23); [done|]. by rewrite Z.bits_0.
    - rewrite andb_false_r. destruct (Z.testbit x 23); [|by rewrite Z.bits_0].
      rewrite Z.pow2_bits_eqb by lia. symmetry. by apply Z.eqb_neq. }
  rewrite Hl, Hb. by destruct (_ =? 0).
Qed.

Lemma lor_shiftl_plus k s m : 0 <= k -> 0 <= m < 2 ^ k -> Z.lor (Z.shiftl s k) m = s * 2 ^ k + m.
Proof.
  intros Hk Hm. rewrite <- Z.shiftl_mul_pow2 by lia.
  assert (Hz : Z.land (Z.shiftl s k) m = 0).
  { apply Z.bits_inj'. intros n Hn. rewrite Z.land_spec, Z.bits_0.
    destruct (Z.lt_ge_cases n k); [by rewrite Z.shiftl_spec_low|].
    destruct (Z.eq_dec m 0) as [->|]; [by rewrite Z.bits_0, andb_false_r|].
    rewrite (Z.bits_above_log2 m n), andb_false_r; [done|lia|].
    assert (Z.log2 m < k) by (apply Z.log2_lt_pow2; lia). lia. }
  rewrite <- Z.lxor_lor, Z.add_nocarry_lxor by done. done.
Qed.

Lemma lor_shiftl_add s m : 0 <= m < 2 ^ 24 -> Z.lor (Z.shiftl s 24) m = s * 2 ^ 24 + m.
Proof. by apply lor_shiftl_plus. Qed.

(** ** Compact values *)

(** The compact encoding with size [e] and mantissa [m]. *)
Definition compact (e m : Z) : Z := e * 2 ^ 24 + m.

(** The target a compact encoding stands for. *)
Definition expand (e m : Z) : Z := if e <=? 3 then m / 2 ^ (8 * (3 - e)) else m * 2 ^ (8 * (e - 3)).

Lemma bits_to_target_compact e m : 0 <= e -> 0 < m < 2 ^ 23 ->
  bits_to_target (compact e m) = Ok (expand e m).
Proof.
  intros He Hm. unfold bits_to_target, compact, expand.
  rewrite land_0x800000, land_0x7FFFFF, Z.shiftr_div_pow2 by lia.
  assert ((e * 2 ^ 24 + m) mod 2 ^ 23 = m) as ->.
  { change (2 ^ 24) with (2 * 2 ^ 23). rewrite Z.mul_assoc, Z.add_comm, Z_mod_plus_full. apply Z.mod_small. lia. }
  assert ((e * 2 ^ 24 + m) / 2 ^ 24 = e) as ->.
  { rewrite Z.add_comm, Z.div_add, Z.div_small by lia. lia. }
  assert (((e * 2 ^ 24 + m) / 2 ^ 23) mod 2 = 0) as ->.
  { change (2 ^ 24) with (2 * 2 ^ 23). rewrite Z.mul_assoc, Z.add_comm, Z.div_add, Z.div_small by lia.
    rewrite Z.add_0_l. by apply Z_mod_mult. }
  rewrite (proj2 (Z.eqb_neq _ _)), (proj2 (Z.eqb_neq m 0)) by lia. simpl orb.
  destruct (Z.leb_spec e 3).
  - by rewrite Z.shiftr_div_pow2 by lia.
  - by rewrite Z.shiftl_mul_pow2 by lia.
Qed.

(** Bytes of the encoding: one more than the magnitude needs when its top bit is set. *)
Definition compact_size (t : Z) : Z := (Z.log2 t + 1) / 8 + 1.
Definition compact_mantissa (t : Z) : Z :=
  let e := compact_size t in
  if e <=? 3 then t * 2 ^ (8 * (3 - e)) else t / 2 ^ (8 * (e - 3)).

Lemma compact_size_spec t : 0 < t ->
  1 <= compact_size t /\ 2 ^ (Z.log2 t) <= t < 2 ^ (Z.log2 t + 1) /\
  8 * (compact_size t - 1) <= Z.log2 t + 1 < 8 * compact_size t.
Proof.
  intros Ht. pose proof (Z.log2_spec t Ht). pose proof (Z.log2_nonneg t). unfold compact_size.
  pose proof (Z.div_mod (Z.log2 t + 1) 8). pose proof (Z.mod_pos_bound (Z.log2 t + 1) 8).
  assert (0 <= (Z.log2 t + 1) / 8) by (apply Z.div_pos; lia).
  unfold Z.succ in *. lia.
Qed.

Lemma compact_mantissa_bounds t : 0 < t -> 2 ^ 15 <= compact_mantissa t < 2 ^ 23.
Proof.
  intros Ht. destruct (compact_size_spec t Ht) as (He & [Hlo Hhi] & Hs). unfold compact_mantissa.
  set (e := compact_size t) in *. set (n := Z.log2 t) in *. assert (Hn : 0 <= n) by apply Z.log2_nonneg.
  destruct (Z.leb_spec e 3).
  - assert (2 ^ 15 <= 2 ^ n * 2 ^ (8 * (3 - e))).
    { rewrite <- Z.pow_add_r by lia. apply Z.pow_le_mono_r; lia. }
    assert (2 ^ (n + 1) * 2 ^ (8 * (3 - e)) <= 2 ^ 23).
    { rewrite <- Z.pow_add_r by lia. apply Z.pow_le_mono_r; lia. }
    assert (0 < 2 ^ (8 * (3 - e))) by (apply Z.pow_pos_nonneg; lia). nia.
  - assert (0 < 2 ^ (8 * (e - 3))) by (apply Z.pow_pos_nonneg; lia). split.
    + apply Z.div_le_lower_bound; [lia|].
      assert (2 ^ (8 * (e - 3)) * 2 ^ 15 <= 2 ^ n); [|lia].
      rewrite <- Z.pow_add_r by lia. apply Z.pow_le_mono_r; lia.
    + apply Z.div_lt_upper_bound; [lia|].
      assert (2 ^ (n + 1) <= 2 ^ (8 * (e - 3)) * 2 ^ 23); [|lia].
      rewrite <- Z.pow_add_r by lia. apply Z.pow_le_mono_r; lia.
Qed.

(** The first mantissa [target_to_bits] computes, before the sign-bit adjustment. *)
Definition first_mantissa (t : Z) : Z :=
  let size := Z.log2 t / 8 + 1 in
  if size <=? 3 then t * 2 ^ (8 * (3 - size)) else t / 2 ^ (8 * (size - 3)).

Lemma first_mantissa_top t : 0 < t -> Z.log2 t mod 8 = 7 ->
  2 ^ 23 <= first_mantissa t < 2 ^ 24 /\ first_mantissa t / 2 ^ 8 = compact_mantissa t /\
  compact_size t = Z.log2 t / 8 + 2.
Proof.
  intros Ht Hr. pose proof (Z.log2_spec t Ht) as [Hlo Hhi]. pose proof (Z.log2_nonneg t) as Hn.
  set (n := Z.log2 t) in *. pose proof (Z.div_mod n 8). set (q := n / 8) in *.
  assert (Hq : 0 <= q) by lia. assert (En : n = 8 * q + 7) by lia.
  assert (Ee : compact_size t = q + 2).
  { unfold compact_size. fold n. replace (n + 1) with ((q + 1) * 8) by lia. rewrite Z.div_mul; lia. }
  unfold compact_mantissa, first_mantissa. fold n q. rewrite Ee.
  destruct (Z.leb_spec (q + 1) 3) as [Hs|Hs].
  - assert (Hp : 2 ^ n * 2 ^ (8 * (3 - (q + 1))) = 2 ^ 23) by (rewrite <- Z.pow_add_r by lia; f_equal; lia).
    assert (Hp' : 2 ^ Z.succ n * 2 ^ (8 * (3 - (q + 1))) = 2 ^ 24) by (rewrite <- Z.pow_add_r by lia; f_equal; lia).
    assert (0 < 2 ^ (8 * (3 - (q + 1)))) by (apply Z.pow_pos_nonneg; lia).
    split; [nia|]. split; [|done]. destruct (Z.leb_spec (q + 2) 3).
    + replace (8 * (3 - (q + 1))) with (8 * (3 - (q + 2)) + 8) by lia.
      rewrite Z.pow_add_r, Z.mul_assoc, Z.div_mul by lia. done.
    + assert (q = 2) as -> by lia. by rewrite Z.mul_1_r.
  - assert (HP : 0 < 2 ^ (8 * (q + 1 - 3))) by (apply Z.pow_pos_nonneg; lia).
    assert (Hp : 2 ^ (8 * (q + 1 - 3)) * 2 ^ 23 = 2 ^ n) by (rewrite <- Z.pow_add_r by lia; f_equal; lia).
    assert (Hp' : 2 ^ (8 * (q + 1 - 3)) * 2 ^ 24 = 2 ^ Z.succ n) by (rewrite <- Z.pow_add_r by lia; f_equal; lia).
    split; [split; [apply Z.div_le_lower_bound|apply Z.div_lt_upper_bound]; lia|]. split; [|done].
    rewrite (proj2 (Z.leb_gt _ _)) by lia. rewrite Z.div_div by lia.
    rewrite <- Z.pow_add_r by lia. f_equal. f_equal. lia.
Qed.

Lemma first_mantissa_plain t : 0 < t -> Z.log2 t mod 8 ≠ 7 ->
  first_mantissa t = compact_mantissa t /\ compact_size t = Z.log2 t / 8 + 1.
Proof.
  intros Ht Hr. assert (Ee : compact_size t = Z.log2 t / 8 + 1).
  { unfold compact_size. f_equal. pose proof (Z.div_mod (Z.log2 t) 8). pose proof (Z.mod_pos_bound (Z.log2 t) 8).
    symmetry. apply (Z.div_unique _ 8 _ (Z.log2 t mod 8 + 1)); lia. }
  unfold compact_mantissa. by rewrite Ee.
Qed.

Lemma target_to_bits_form t : 0 < t ->
  target_to_bits t = Ok (compact (compact_size t) (compact_mantissa t)).
Proof.
  intros Ht. unfold target_to_bits. rewrite (proj2 (Z.leb_gt _ _)) by done.
  pose proof (Z.log2_nonneg t) as Hn. pose proof (compact_mantissa_bounds t Ht) as Hb.
  assert ((bit_length t + 7) / 8 = Z.log2 t / 8 + 1) as ->.
  { unfold bit_length. replace (Z.log2 t + 1 + 7) with (Z.log2 t + 1 * 8) by lia. by rewrite Z.div_add by lia. }
  assert (0 <= Z.log2 t / 8) by (apply Z.div_pos; lia). cbv zeta.
  replace (if Z.log2 t / 8 + 1 <=? 3 then _ else _) with (first_mantissa t).
  2:{ unfold first_mantissa. destruct (Z.leb_spec (Z.log2 t / 8 + 1) 3);
      [by rewrite Z.shiftl_mul_pow2 by lia|by rewrite Z.shiftr_div_pow2 by lia]. }
  rewrite land_0x800000. destruct (Z.eq_dec (Z.log2 t mod 8) 7) as [Hr|Hr].
  - destruct (first_mantissa_top t Ht Hr) as (Hm & Hdiv & He).
    assert (first_mantissa t / 2 ^ 23 = 1) as -> by (symmetry; apply (Z.div_unique _ _ _ (first_mantissa t - 2 ^ 23)); lia).
    simpl. rewrite Z.shiftr_div_pow2 by lia. rewrite Hdiv, land_0x7FFFFF, Z.mod_small, lor_shiftl_add by lia.
    unfold compact. f_equal. lia.
  - destruct (first_mantissa_plain t Ht Hr) as [-> He]. rewrite Z.div_small by lia. simpl.
    rewrite land_0x7FFFFF, Z.mod_small, lor_shiftl_add by lia. unfold compact. f_equal. lia.
Qed.

(** ** Properties *)

(** Minimal encodings: no leading zero byte, sign bit clear. *)
Definition canonical_bits (bits : Z) : Prop :=
  exists e m, bits = compact e m /\ 3 <= e /\ 2 ^ 15 <= m < 2 ^ 23.

Lemma canonical_bits_inverse (bits : Z) :
  canonical_bits bits -> exists t, bits_to_target bits = Ok t /\ target_to_bits t = Ok bits.
Proof.
  intros (e & m & -> & He & Hm). rewrite bits_to_target_compact by lia. eexists. split; [done|].
  assert (Et : expand e m = m * 2 ^ (8 * (e - 3))).
  { unfold expand. destruct (Z.leb_spec e 3); [|done]. assert (e = 3) as -> by lia.
    simpl. by rewrite Z.div_1_r, Z.mul_1_r. }
  rewrite Et. assert (HP : 0 < 2 ^ (8 * (e - 3))) by (apply Z.pow_pos_nonneg; lia).
  rewrite target_to_bits_form by nia.
  assert (Hl : 15 <= Z.log2 m < 23).
  { split; [apply Z.log2_le_pow2|apply Z.log2_lt_pow2]; lia. }
  assert (Es : compact_size (m * 2 ^ (8 * (e - 3))) = e).
  { unfold compact_size. rewrite Z.log2_mul_pow2 by lia.
    replace (8 * (e - 3) + Z.log2 m + 1) with (Z.log2 m + 1 + (e - 3) * 8) by lia.
    rewrite Z.div_add by lia. rewrite <- (Z.div_unique (Z.log2 m + 1) 8 2 (Z.log2 m + 1 - 16)) by lia. lia. }
  unfold compact_mantissa. rewrite Es. f_equal. f_equal. destruct (Z.leb_spec e 3).
  - assert (e = 3) as -> by lia. simpl. lia.
  - by rewrite Z.div_mul by lia.
Qed.

Lemma target_to_bits_rounding (t : Z) :
  0 < t -> exists bits t', target_to_bits t = Ok bits /\ bits_to_target bits = Ok t' /\
    0 < t' <= t /\ (t - t') * 2 ^ 15 <= t' /\ (t < 2 ^ 256 -> 0 < bits < 2 ^ 32).
Proof.
  intros Ht. exists (compact (compact_size t) (compact_mantissa t)). eexists.
  split; [by apply target_to_bits_form|]. pose proof (compact_mantissa_bounds t Ht) as Hm.
  destruct (compact_size_spec t Ht) as (He & Hl & Hs).
  split; [apply bits_to_target_compact; lia|].
  assert (Hfit : t < 2 ^ 256 -> 0 < compact (compact_size t) (compact_mantissa t) < 2 ^ 32).
  { intros Hlt. unfold compact. assert (Z.log2 t < 256) by (apply Z.log2_lt_pow2; lia). lia. }
  unfold expand. unfold compact_mantissa in *. cbv zeta in *. set (e := compact_size t) in *.
  destruct (Z.leb_spec e 3).
  - rewrite Z.div_mul by (apply Z.pow_nonzero; lia). repeat split; try done; try lia; by apply Hfit.
  - assert (HP : 0 < 2 ^ (8 * (e - 3))) by (apply Z.pow_pos_nonneg; lia).
    pose proof (Z.div_mod t (2 ^ (8 * (e - 3)))). pose proof (Z.mod_pos_bound t _ HP).
    repeat split; try nia; by apply Hfit.
Qed.

(** Compact targets.  On canonical bits (those of the three networks'
    proof-of-work limits among them) decoding and encoding the target gives the
    bits back; encoding any positive target rounds it down, never up (the encoded
    difficulty is never easier than asked), by at most one part in 2^15, and a
    target below 2^256 fits the header's 32-bit field. *)
Theorem compact_target_correct (cbits t : Z) :
  canonical_bits cbits -> 0 < t ->
  (exists t0, bits_to_target cbits = Ok t0 /\ target_to_bits t0 = Ok cbits) /\
  (exists nbits t', target_to_bits t = Ok nbits /\ bits_to_target nbits = Ok t' /\
     0 < t' <= t /\ (t - t') * 2 ^ 15 <= t' /\ (t < 2 ^ 256 -> 0 < nbits < 2 ^ 32)).
Proof. intros Hc Ht. split; [by apply canonical_bits_inverse|by apply target_to_bits_rounding]. Qed.

(** The window's nominal duration. *)
Definition target_timespan (params : ConsensusParams) (candidate : option Z) : Z :=
  match candidate with
  | None => target_block_time_seconds params
  | Some h => target_block_time_seconds_for_height h params
  end * difficulty_adjustment_window params.

Lemma target_timespan_pos params candidate : params_ok params -> 0 < target_timespan params candidate.
Proof.
  intros Hp. apply Z.mul_pos_pos; [|apply Hp]. destruct candidate as [h|]; [|apply Hp].
  unfold target_block_time_seconds_for_height.
  destruct (legacy_target_block_time_seconds params) eqn:E; [|apply Hp].
  case_match; [by apply (legacy_block_time_pos _ Hp)|apply Hp].
Qed.

Lemma clamp_quarter prev T span : 0 < T -> T mod 4 = 0 -> 0 <= prev ->
  prev / 4 <= prev * Z.max (T / 4) (Z.min span (T * 4)) / T <= 4 * prev.
Proof.
  intros HT H4 Hp. pose proof (Z.div_mod T 4) as E. rewrite H4 in E. set (k := T / 4) in *. split.
  - assert (prev * k / T = prev / 4) as <-.
    { replace T with (4 * k) by lia. apply Z.div_mul_cancel_r; lia. }
    apply Z.div_le_mono; [done|]. nia.
  - apply Z.div_le_upper_bound; [done|]. nia.
Qed.

(** The retarget rule moves the target by at most a factor of four per window
    and never past the network's proof-of-work limit (the compact rounding, one
    part in 2^15, is the only further loss); its result is defined whenever the
    previous target is at least four; and a window of exactly the nominal duration
    leaves canonical bits unchanged. *)
Theorem retarget_bounds (params : ConsensusParams) (previous_bits actual prev limit : Z) (candidate : option Z) :
  params_ok params -> difficulty_adjustment_window params mod 4 = 0 ->
  bits_to_target previous_bits = Ok prev -> bits_to_target (genesis_bits params) = Ok limit ->
  4 <= prev -> 0 < limit ->
  exists next_bits next, calculate_next_work_required previous_bits actual params candidate = Ok next_bits /\
    bits_to_target next_bits = Ok next /\
    0 < next <= limit /\ next <= 4 * prev /\ (Z.min (prev / 4) limit - next) * 2 ^ 15 <= next /\
    (actual = target_timespan params candidate -> prev <= limit -> canonical_bits previous_bits ->
     next_bits = previous_bits).
Proof.
  intros Hp Hw Hprev Hlim H4 Hl. pose proof (target_timespan_pos params candidate Hp) as HT.
  assert (HT4 : target_timespan params candidate mod 4 = 0).
  { unfold target_timespan. rewrite Z.mul_mod, Hw, Z.mul_0_r by lia. done. }
  pose proof (clamp_quarter prev _ actual HT HT4 ltac:(lia)) as Hq.
  unfold calculate_next_work_required. fold (target_timespan params candidate).
  rewrite Hprev, Hlim. cbn [rbind]. set (T := target_timespan params candidate) in *.
  set (ideal := prev * Z.max (T / 4) (Z.min actual (T * 4)) / T) in *.
  assert (1 <= prev / 4) by (apply Z.div_le_lower_bound; lia).
  destruct (target_to_bits_rounding (Z.min ideal limit)) as (nb & next & Hnb & Hnext & Hr & Hprec & _); [lia|].
  exists nb, next. do 2 (split; [done|]). split; [lia|]. split; [lia|]. split; [nia|].
  intros Ha Hpl Hc. destruct (canonical_bits_inverse _ Hc) as (t & Ht & Hbk).
  assert (t = prev) as -> by congruence.
  assert (ideal = prev) as E.
  { unfold ideal. rewrite Ha. pose proof (Z.mul_div_le T 4 ltac:(lia)).
    rewrite (Z.min_l T) by lia. rewrite Z.max_r by lia. by apply Z.div_mul; lia. }
  rewrite E, Z.min_l in Hnb by done. congruence.
Qed.

(** A header that passes the proof-of-work test adds at least one unit of
    work, and a harder (smaller) target never adds less: chain comparison by
    cumulative work is strictly increasing along valid headers. *)
Theorem valid_header_has_work (h : BlockHeader) :
  verify_proof_of_work h = Ok true ->
  exists w, header_work h = Ok w /\ 1 <= w /\
    forall h' w' t t', bits_to_target (bits h) = Ok t -> bits_to_target (bits h') = Ok t' ->
      0 <= t' <= t -> header_work h' = Ok w' -> w <= w'.
Proof.
  unfold verify_proof_of_work, header_work. intros H. inv_ok. bool_prop.
  eexists. split; [rewrite E; reflexivity|]. rewrite Z.shiftl_mul_pow2, Z.mul_1_l in * by lia. split.
  - apply Z.div_le_lower_bound; lia.
  - intros h' w' t t' Ht Ht' Hle Hw. inv_ok. rewrite E in Ht. rewrite E1 in Ht'. simplify_eq.
    apply Z.div_le_compat_l; lia.
Qed.

(** ** Witnesses *)

Lemma network_limits_canonical :
  canonical_bits (genesis_bits MAINNET_PARAMS) /\ canonical_bits (genesis_bits DEVNET_PARAMS) /\
  canonical_bits (genesis_bits TESTNET_PARAMS).
Proof.
  split; [exists 0x20, 0x7FFFFF|split; [exists 0x1F, 0x0FFFFF|exists 0x1F, 0x07FFFF]];
    (split; [reflexivity|lia]).
Qed.

Lemma compact_target_correct_witness :
  (exists t, bits_to_target (genesis_bits TESTNET_PARAMS) = Ok t /\ target_to_bits t = Ok (genesis_bits TESTNET_PARAMS)) /\
  exists nbits t', target_to_bits 0x80ABCD = Ok nbits /\ bits_to_target nbits = Ok t' /\ t' <= 0x80ABCD.
Proof.
  destruct (compact_target_correct (genesis_bits TESTNET_PARAMS) 0x80ABCD) as [H1 (nb & t' & H2 & H3 & H4 & _)];
    [apply network_limits_canonical|lia|].
  split; [exact H1|]. exists nb, t'. repeat split; [done..|lia].
Defined.

Lemma retarget_bounds_witness :
  exists next_bits next,
    calculate_next_work_required 0x1E0FFFFF 10 TESTNET_PARAMS (Some 500) = Ok next_bits /\
    bits_to_target next_bits = Ok next /\ next <= ok_or (bits_to_target 0x1F07FFFF) 0.
Proof.
  destruct (retarget_bounds TESTNET_PARAMS 0x1E0FFFFF 10 (ok_or (bits_to_target 0x1E0FFFFF) 0)
    (ok_or (bits_to_target 0x1F07FFFF) 0) (Some 500) testnet_ok eq_refl eq_refl eq_refl)
    as (nb & next & H1 & H2 & H3 & _); [vm_compute; congruence..|vm_compute; reflexivity|].
  exists nb, next. split; [done|]. split; [done|]. apply H3.
Defined.

(** A header mined at the easiest mainnet target: its double SHA-256 is below it. *)
Definition mined_header : BlockHeader :=
  mkBlockHeader 1 (hex (repeat (byte.of_Z 0) 32)) (hex (repeat (byte.of_Z 0) 32)) 1700000000 0x207FFFFF 1.

Lemma valid_header_has_work_witness :
  exists w, header_work mined_header = Ok w /\ 1 <= w.
Proof.
  destruct (valid_header_has_work mined_header) as (w & Hw & Hpos & _); [vm_compute; reflexivity|].
  exists w. done.
Defined.
