(* ===== verification/Merkle.v ===== *)
(** * Transaction commitment ([consensus/merkle.py])

    [merkle_root] hashes the transaction identifiers pairwise, level by level,
    repeating the last node of an odd level.  The [while] loop is [merkle_loop]
    with the length of the level as its bound. *)

From S2P Require Import Prelude PyOrder PyText Hashes.

(** [level.append(level[-1])] when the length is odd *)
Definition pad_level (level : list bytes) : list bytes :=
  if Nat.odd (length level) then
    match last level with Some x => level ++ [x] | None => level end
  else level.

(** The comprehension over [range(0, len(level), 2)] *)
Fixpoint pair_level (level : list bytes) : list bytes :=
  match level with
  | x :: y :: rest => double_sha256 (x ++ y) :: pair_level rest
  | _ => []
  end.

Fixpoint merkle_loop (fuel : nat) (level : list bytes) : res str :=
  match fuel with
  | O => raise OutOfFuel "merkle levels"
  | S fuel' =>
      match level with
      | [] => raise IndexError "list index out of range"
      | [root] => Ok (hex root)
      | _ => merkle_loop fuel' (pair_level (pad_level level))
      end
  end.

Definition merkle_root (transaction_ids : list str) : res str :=
  match transaction_ids with
  | [] => Ok (hex (double_sha256 []))
  | _ =>
      let* level := mapM fromhex transaction_ids in
      merkle_loop (S (length level)) level
  end.

(** ** Levels *)

Lemma pad_level_even level : Nat.Even (length (pad_level level)).
Proof.
  unfold pad_level. destruct (Nat.odd (length level)) eqn:E.
  - apply Nat.odd_spec in E. destruct (last level) eqn:El.
    + rewrite length_app. simpl. destruct E as [k ->]. exists (S k). lia.
    + apply last_None in El as ->. by exists O.
  - apply Nat.even_spec. by rewrite <- Nat.negb_odd, E.
Qed.

Lemma pair_level_length n level : length level = (2 * n)%nat -> length (pair_level level) = n.
Proof.
  revert level. induction n as [|n IH]; intros level E.
  - by destruct level.
  - destruct level as [|x [|y rest]]; simpl in *; [lia..|]. f_equal. apply IH. lia.
Qed.

Lemma pad_level_length level : (length level <= length (pad_level level) <= S (length level))%nat.
Proof.
  unfold pad_level. destruct (Nat.odd _); [|lia]. destruct (last level); [|lia].
  rewrite length_app. simpl. lia.
Qed.

(** A level of two or more nodes is followed by a shorter, non-empty one. *)
Lemma next_level_length level : (2 <= length level)%nat ->
  (1 <= length (pair_level (pad_level level)) < length level)%nat.
Proof.
  intros H. pose proof (pad_level_length level). destruct (pad_level_even level) as [n E].
  rewrite (pair_level_length n) by done. destruct (pad_level level) eqn:Ep; simpl in *; [lia|].
  unfold pad_level in Ep. destruct (Nat.odd (length level)) eqn:Eo; [lia|].
  apply (f_equal length) in Ep. simpl in Ep. lia.
Qed.

Lemma merkle_loop_total fuel level : (1 <= length level < fuel)%nat ->
  exists root, merkle_loop fuel level = Ok (hex root).
Proof.
  revert level. induction fuel as [|fuel IH]; intros level H; [lia|].
  destruct level as [|x [|y rest]]; [simpl in H; lia|by exists x|].
  apply IH. pose proof (next_level_length (x :: y :: rest)). simpl length in *. lia.
Qed.

(** A level built from the hexadecimal identifiers. *)
Lemma mapM_fromhex_hex (ids : list bytes) : mapM fromhex (hex <$> ids) = Ok ids.
Proof. apply mapM_Forall2, Forall2_fmap_l, Forall2_same_length_lookup_2; [done|]. naive_solver eauto using fromhex_hex. Qed.

Lemma merkle_root_hex ids : ids ≠ [] -> merkle_root (hex <$> ids) = merkle_loop (S (length ids)) ids.
Proof.
  intros Hne. unfold merkle_root. destruct (hex <$> ids) eqn:E; [by destruct ids|].
  rewrite <- E, mapM_fromhex_hex. done.
Qed.

Lemma pad_level_nil_Forall (P : bytes -> Prop) level : Forall P level -> Forall P (pad_level level).
Proof.
  intros H. unfold pad_level. destruct (Nat.odd _); [|done]. destruct (last level) eqn:E; [|done].
  apply Forall_app. split; [done|]. apply Forall_singleton.
  apply last_Some in E as [pre ->]. apply Forall_app in H as [_ H]. by inversion H.
Qed.

Lemma pair_level_digests level : Forall (fun x => length x = 32%nat) (pair_level level).
Proof.
  enough (H : forall n l, (length l <= n)%nat -> Forall (fun x : bytes => length x = 32%nat) (pair_level l)) by eauto.
  induction n as [|n IH]; intros [|x [|y rest]] Hl; simpl in *; try lia; constructor;
    [apply double_sha256_length|apply IH; lia].
Qed.

Lemma merkle_loop_digest fuel level root : Forall (fun x => length x = 32%nat) level ->
  merkle_loop fuel level = Ok root -> length root = 64%nat.
Proof.
  revert level. induction fuel as [|fuel IH]; intros level Hd H; [done|].
  destruct level as [|x [|y rest]]; [done| |].
  - simpl in H. injection H as <-. rewrite hex_length. inversion Hd as [|? ? Hx _]. by rewrite Hx.
  - cbn [merkle_loop] in H. eapply IH; [|exact H]. apply pair_level_digests.
Qed.

(** ** Binding *)

(** The messages hashed while computing a root. *)
Fixpoint pair_messages (level : list bytes) : list bytes :=
  match level with
  | x :: y :: rest => (x ++ y) :: pair_messages rest
  | _ => []
  end.

Fixpoint hashed_messages (fuel : nat) (level : list bytes) : list bytes :=
  match fuel with
  | O => []
  | S fuel' =>
      match level with
      | [] | [_] => []
      | _ => pair_messages (pad_level level) ++ hashed_messages fuel' (pair_level (pad_level level))
      end
  end.

(** Two different messages, hashed for the one root and for the other, with the
    same double SHA-256. *)
Definition collision_among (ms1 ms2 : list bytes) : Prop :=
  exists p q, p ∈ ms1 /\ q ∈ ms2 /\ p ≠ q /\ double_sha256 p = double_sha256 q.

Lemma collision_among_app_l ms1 ms2 ms1' ms2' :
  collision_among ms1 ms2 -> collision_among (ms1 ++ ms1') (ms2 ++ ms2').
Proof. intros (p & q & ? & ? & ?). exists p, q. rewrite !elem_of_app. tauto. Qed.
Lemma collision_among_app_r ms1 ms2 ms1' ms2' :
  collision_among ms1' ms2' -> collision_among (ms1 ++ ms1') (ms2 ++ ms2').
Proof. intros (p & q & ? & ? & ?). exists p, q. rewrite !elem_of_app. tauto. Qed.

Lemma pair_level_binding n : forall l1 l2,
  length l1 = (2 * n)%nat -> length l2 = (2 * n)%nat ->
  Forall (fun x => length x = 32%nat) l1 -> Forall (fun x => length x = 32%nat) l2 ->
  pair_level l1 = pair_level l2 -> l1 = l2 \/ collision_among (pair_messages l1) (pair_messages l2).
Proof.
  induction n as [|n IH]; intros l1 l2 E1 E2 H1 H2 E.
  { left. destruct l1, l2; simpl in *; done || lia. }
  destruct l1 as [|x1 [|y1 l1]], l2 as [|x2 [|y2 l2]]; simpl in E1, E2; try lia.
  simpl in E. injection E as Eh Et. rewrite !Forall_cons in H1, H2. destruct H1 as (Hx1 & Hy1 & H1), H2 as (Hx2 & Hy2 & H2).
  destruct (decide (x1 ++ y1 = x2 ++ y2)) as [Em|Hne].
  2:{ right. exists (x1 ++ y1), (x2 ++ y2). simpl. set_solver. }
  apply app_inj_1 in Em as [-> ->]; [|congruence].
  destruct (IH l1 l2) as [->|(p & q & ? & ? & ?)]; [lia|lia|done..|by left|].
  right. exists p, q. simpl. set_solver.
Qed.

Lemma pad_level_inj l1 l2 : length l1 = length l2 -> pad_level l1 = pad_level l2 -> l1 = l2.
Proof.
  intros El. unfold pad_level. rewrite El. destruct (Nat.odd (length l2)) eqn:Eo; [|done].
  destruct (last l1) eqn:E1, (last l2) eqn:E2; [|apply last_None in E2 as ->; done|apply last_None in E1 as ->; by destruct l2|done].
  by intros [? _]%app_inj_tail.
Qed.

Lemma merkle_loop_binding fuel : forall l1 l2 root,
  length l1 = length l2 ->
  Forall (fun x => length x = 32%nat) l1 -> Forall (fun x => length x = 32%nat) l2 ->
  merkle_loop fuel l1 = Ok root -> merkle_loop fuel l2 = Ok root ->
  l1 = l2 \/ collision_among (hashed_messages fuel l1) (hashed_messages fuel l2).
Proof.
  induction fuel as [|fuel IH]; intros l1 l2 root El D1 D2 H1 H2; [done|].
  destruct l1 as [|x1 [|y1 r1]] eqn:F1, l2 as [|x2 [|y2 r2]] eqn:F2; simpl in El; try lia; try done.
  - simpl in H1, H2. inv_ok. left. f_equal. symmetry. by apply hex_inj.
  - cbn [merkle_loop] in H1, H2. cbn [hashed_messages]. rewrite <- F1, <- F2 in *.
    assert (Ell : length l1 = length l2) by (subst; simpl; lia).
    assert (Epl : length (pad_level l1) = length (pad_level l2)).
    { unfold pad_level. rewrite Ell. destruct (Nat.odd _); [|done].
      destruct (last l1) eqn:L1, (last l2) eqn:L2; rewrite ?length_app; [simpl; lia| | |done].
      - apply last_None in L2. by subst.
      - apply last_None in L1. by subst. }
    destruct (pad_level_even l1) as [n En].
    destruct (IH (pair_level (pad_level l1)) (pair_level (pad_level l2)) root) as [E|C];
      [|apply pair_level_digests..|done|done| |].
    + rewrite !(pair_level_length n); congruence.
    + destruct (pair_level_binding n (pad_level l1) (pad_level l2)) as [E'|C];
        [done|congruence|by apply pad_level_nil_Forall..|done| |].
      * left. by apply pad_level_inj.
      * right. by apply collision_among_app_l.
    + right. by apply collision_among_app_r.
Qed.

(** ** Properties *)

(** The root of any non-empty list of transaction identifiers is defined (the
    level loop ends within as many turns as there are identifiers) and is a
    32-byte hash in hexadecimal. *)
Theorem merkle_root_total (ids : list bytes) :
  Forall (fun x => length x = 32%nat) ids ->
  exists root, merkle_root (hex <$> ids) = Ok root /\ length root = 64%nat.
Proof.
  intros Hd. destruct ids as [|x ids].
  { eexists. split; [done|]. rewrite hex_length, double_sha256_length. done. }
  rewrite merkle_root_hex by done.
  destruct (merkle_loop_total (S (length (x :: ids))) (x :: ids)) as (root & Hr); [simpl; lia|].
  exists (hex root). split; [done|]. by eapply merkle_loop_digest.
Qed.

(** The root binds the transaction list: two blocks with equally many
    transactions and the same Merkle root have the same transaction identifiers,
    or the two computations exhibit a double SHA-256 collision. *)
Theorem merkle_root_binding (ids1 ids2 : list bytes) (root : str) :
  length ids1 = length ids2 ->
  Forall (fun x => length x = 32%nat) ids1 -> Forall (fun x => length x = 32%nat) ids2 ->
  merkle_root (hex <$> ids1) = Ok root -> merkle_root (hex <$> ids2) = Ok root ->
  ids1 = ids2 \/
  collision_among (hashed_messages (S (length ids1)) ids1) (hashed_messages (S (length ids2)) ids2).
Proof.
  intros El D1 D2 H1 H2. destruct ids1 as [|x1 r1], ids2 as [|x2 r2]; simpl in El; try lia; [by left|].
  rewrite merkle_root_hex in H1, H2 by done.
  assert (E : length (x1 :: r1) = length (x2 :: r2)) by (simpl; lia). rewrite <- E in H2 |- *.
  by eapply merkle_loop_binding.
Qed.

Lemma pad_level_dup level x : Nat.odd (length level) = true -> last level = Some x ->
  pad_level (level ++ [x]) = pad_level level.
Proof.
  intros Ho El. unfold pad_level. rewrite Ho, El.
  assert (Nat.odd (length (level ++ [x])) = false) as ->; [|done].
  rewrite length_app, Nat.add_1_r, Nat.odd_succ, <- Nat.negb_odd, Ho. done.
Qed.

Lemma merkle_loop_more fuel fuel' level root : (fuel <= fuel')%nat ->
  merkle_loop fuel level = Ok root -> merkle_loop fuel' level = Ok root.
Proof.
  revert fuel' level. induction fuel as [|fuel IH]; intros fuel' level Hf H; [done|].
  destruct fuel' as [|fuel']; [lia|]. destruct level as [|x [|y rest]]; [done..|].
  cbn [merkle_loop] in *. apply IH; [lia|done].
Qed.

(** C39: Without the length the root does not bind: a list of odd length three or
    more and the same list with its last identifier repeated have the same root,
    so the root alone does not identify a block's transactions. *)
Theorem merkle_root_ambiguous (ids : list bytes) (x : bytes) (root : str) :
  Nat.odd (length ids) = true -> (3 <= length ids)%nat -> last ids = Some x ->
  merkle_root (hex <$> ids) = Ok root -> merkle_root (hex <$> (ids ++ [x])) = Ok root.
Proof.
  intros Ho Hl Elast H. destruct ids as [|i1 [|i2 rest]] eqn:F; simpl in Hl; try lia.
  rewrite merkle_root_hex in H |- * by done. cbn [app] in *.
  assert (Ed : pad_level (i1 :: i2 :: rest ++ [x]) = pad_level (i1 :: i2 :: rest)) by by apply (pad_level_dup (i1 :: i2 :: rest)).
  cbn [merkle_loop] in *. rewrite Ed. eapply merkle_loop_more; [|exact H]. simpl. rewrite length_app. simpl. lia.
Qed.

(** ** Witnesses *)

Definition sample_ids : list bytes := Eval vm_compute in double_sha256 <$> [b "tx-0"; b "tx-1"; b "tx-2"].
Definition sample_root : str := Eval vm_compute in match merkle_root (hex <$> sample_ids) with Ok r => r | Raise _ => [] end.

Lemma sample_ids_digests : Forall (fun x : bytes => length x = 32%nat) sample_ids.
Proof. repeat constructor. Qed.

Lemma merkle_root_total_witness : exists root, merkle_root (hex <$> sample_ids) = Ok root /\ length root = 64%nat.
Proof. apply (merkle_root_total sample_ids). apply sample_ids_digests. Defined.

Lemma merkle_root_binding_witness :
  sample_ids = sample_ids \/ collision_among (hashed_messages 4 sample_ids) (hashed_messages 4 sample_ids).
Proof.
  apply (merkle_root_binding sample_ids sample_ids sample_root);
    [done|apply sample_ids_digests..|vm_compute; reflexivity|vm_compute; reflexivity].
Defined.

Lemma merkle_root_ambiguous_witness :
  merkle_root (hex <$> (sample_ids ++ drop 2 sample_ids)) = Ok sample_root.
Proof.
  apply (merkle_root_ambiguous sample_ids (List.last sample_ids []) sample_root);
    [reflexivity|simpl; lia|reflexivity|vm_compute; reflexivity].
Defined.
