(* ===== verification/Crypto.v ===== *)
(** * Keys, signatures and the scheme registry ([crypto/])

    [crypto/keys.py], [crypto/signatures.py], [crypto/pq/base.py],
    [crypto/pq/mldsa.py] and [crypto/pq/schemes.py].  The elliptic-curve and DER
    primitives come from the [cryptography] package and the ML-DSA primitives from
    a native extension; both are the class [CryptoBackend] of operations, and
    [CryptoLaws] names what their documentation promises and the theorems need. *)

From S2P Require Import Prelude PyOrder PyText Hashes.

(** The native ML-DSA-44 module. *)
Record MLDsaNative : Type := {
  native_derive_keypair : bytes -> res (bytes * bytes);
  native_sign : bytes -> bytes -> res bytes;
  native_verify : bytes -> bytes -> bytes -> res bool;
}.

Class CryptoBackend := {
  (** [EllipticCurvePublicKey.from_encoded_point(SECP256K1(), data)] succeeds *)
  from_encoded_point : bytes -> bool;
  (** SEC1 bytes of the public key of a secret scalar, compressed or not *)
  ec_public_bytes : Z -> bool -> bytes;
  (** [key.sign(digest, ...)]; the library draws the nonce from [entropy] *)
  ec_sign : Z -> bytes -> bytes -> bytes;
  (** [key.verify(signature, digest, ...)] does not raise *)
  ec_verify : bytes -> bytes -> bytes -> bool;
  decode_dss_signature : bytes -> res (Z * Z);
  encode_dss_signature : Z -> Z -> res bytes;
  (** [None] when the extension cannot be imported *)
  mldsa_native : option MLDsaNative;
}.

Definition SECP256K1_ORDER : Z :=
  0xFFFFFFFFFFFFFFFFFFFFFFFFFFFFFFFEBAAEDCE6AF48A03BBFD25E8CD0364141.

(** ** [crypto/keys.py] *)

Definition validate_private_key (private_key : bytes) : res unit :=
  if negb (len private_key =? 32) then raise ValueError "Private keys must be exactly 32 bytes."
  else
    let secret := from_bytes_big private_key in
    raise_if ((secret <=? 0) || (SECP256K1_ORDER <=? secret))
      ValueError "Private key is outside the valid secp256k1 range.".

(** The retry loop over [secrets.token_bytes(32)]; [candidates] is what the
    operating system's generator yields. *)
Fixpoint generate_private_key (candidates : list bytes) : option bytes :=
  match candidates with
  | [] => None
  | candidate :: candidates' =>
      match validate_private_key candidate with
      | Ok _ => Some candidate
      | Raise e => if isinstance (exn_cls e) ValueError then generate_private_key candidates' else None
      end
  end.

Definition serialize_private_key_hex (private_key : bytes) : res str :=
  validate_private_key private_key ;; Ok (hex private_key).

Definition parse_private_key_hex (v : str) : res bytes :=
  let* private_key := try_except (fromhex v) ValueError (fun _ => raise ValueError "Private key hex is invalid.") in
  validate_private_key private_key ;; Ok private_key.

Section keys.
Context `{CryptoBackend}.

Definition derive_public_key (private_key : bytes) (compressed : bool) : res bytes :=
  validate_private_key private_key ;;
  Ok (ec_public_bytes (from_bytes_big private_key) compressed).

(** A point loaded for secp256k1 is on secp256k1, so the curve test that follows
    never fails. *)
Definition load_public_key (public_key : bytes) : res unit :=
  if from_encoded_point public_key then Ok tt
  else raise ValueError "Public key bytes are not a valid secp256k1 SEC1 point.".

Definition serialize_public_key_hex (public_key : bytes) : res str :=
  load_public_key public_key ;; Ok (hex public_key).

Definition parse_public_key_hex (v : str) : res bytes :=
  let* public_key := try_except (fromhex v) ValueError (fun _ => raise ValueError "Public key hex is invalid.") in
  load_public_key public_key ;; Ok public_key.

Definition load_private_key (private_key : bytes) : res Z :=
  validate_private_key private_key ;; Ok (from_bytes_big private_key).

(** ** [crypto/signatures.py] *)

Definition _normalize_low_s (sig : bytes) : res bytes :=
  let* '(r, s) := decode_dss_signature sig in
  let s' := if SECP256K1_ORDER / 2 <? s then SECP256K1_ORDER - s else s in
  encode_dss_signature r s'.

Definition sign_digest (private_key digest entropy : bytes) : res bytes :=
  if negb (len digest =? 32) then raise ValueError "ECDSA signing expects a 32-byte digest."
  else
    let* key := load_private_key private_key in
    _normalize_low_s (ec_sign key entropy digest).

Definition verify_digest (pubkey digest sig : bytes) : res bool :=
  if negb (len digest =? 32) then Ok false
  else
    match _normalize_low_s sig with
    | Raise e => if isinstance (exn_cls e) ValueError then Ok false else Raise e
    | Ok normalized =>
        if negb (bool_decide (normalized = sig)) then Ok false
        else
          match load_public_key pubkey with
          | Ok _ => Ok (ec_verify pubkey sig digest)
          | Raise _ => Ok false
          end
    end.

(** ** [crypto/pq/mldsa.py] *)

Definition ML_DSA_44_PUBLIC_KEY_SIZE : Z := 1312.
Definition ML_DSA_44_SIGNATURE_SIZE : Z := 2420.
Definition ML_DSA_SEED_SIZE : Z := 32.

Definition _backend : res MLDsaNative :=
  match mldsa_native with
  | Some native => Ok native
  | None => raise MLDsaBackendUnavailable "Pinned mldsa-native ML-DSA-44 backend is not available."
  end.

Definition mldsa44_backend_available : bool := is_ok _backend.

Definition derive_mldsa44_keypair (seed : bytes) : res (bytes * bytes) :=
  if negb (len seed =? ML_DSA_SEED_SIZE) then raise ValueError "ML-DSA-44 seed must be exactly 32 bytes."
  else
    let* native := _backend in
    let* '(private_key, pubkey) := native_derive_keypair native seed in
    if negb (len private_key =? 2560) then
      raise MLDsaBackendUnavailable "Pinned ML-DSA-44 backend returned an unexpected private key size."
    else if negb (len pubkey =? ML_DSA_44_PUBLIC_KEY_SIZE) then
      raise MLDsaBackendUnavailable "Pinned ML-DSA-44 backend returned an unexpected public key size."
    else Ok (private_key, pubkey).

Definition sign_mldsa44 (seed digest : bytes) : res bytes :=
  if negb (len seed =? ML_DSA_SEED_SIZE) then raise ValueError "ML-DSA-44 seed must be exactly 32 bytes."
  else if negb (len digest =? 32) then raise ValueError "Transaction signature digest must be exactly 32 bytes."
  else
    let* native := _backend in
    let* sig := native_sign native seed digest in
    if negb (len sig =? ML_DSA_44_SIGNATURE_SIZE) then
      raise MLDsaBackendUnavailable "Pinned ML-DSA-44 backend returned an unexpected signature size."
    else Ok sig.

Definition verify_mldsa44 (pubkey digest sig : bytes) : res bool :=
  if negb (len pubkey =? ML_DSA_44_PUBLIC_KEY_SIZE) then Ok false
  else if negb (len sig =? ML_DSA_44_SIGNATURE_SIZE) then Ok false
  else if negb (len digest =? 32) then Ok false
  else let* native := _backend in native_verify native pubkey digest sig.

(** ** [crypto/pq/base.py] and [crypto/pq/schemes.py] *)

Record SignatureScheme : Type := {
  scheme_id : Z;
  scheme_name : string;
  public_key_size : option Z;
  signature_size : option Z;
  supports_sign : bool;
  supports_verify : bool;
  supports_addresses : bool;
  activated : bool;
  signer : option (bytes -> bytes -> res bytes);
  verifier : option (bytes -> bytes -> bytes -> res bool);
  key_deriver : option (bytes -> res (bytes * bytes));
}.

Definition scheme_sign (scheme : SignatureScheme) (private_material digest : bytes) : res bytes :=
  match signer scheme with
  | None => raise RuntimeError "signing backend is not configured."
  | Some f => f private_material digest
  end.

Definition scheme_verify (scheme : SignatureScheme) (pubkey digest sig : bytes) : res bool :=
  match verifier scheme with
  | None => raise RuntimeError "verification backend is not configured."
  | Some f => f pubkey digest sig
  end.

Definition scheme_derive_keypair (scheme : SignatureScheme) (seed : bytes) : res (bytes * bytes) :=
  match key_deriver scheme with
  | None => raise RuntimeError "key derivation backend is not configured."
  | Some f => f seed
  end.

Definition SIG_SCHEME_LEGACY_ECDSA : Z := 0.
Definition SIG_SCHEME_ML_DSA_44 : Z := 10.
Definition SIG_SCHEME_ML_DSA_65_RESERVED : Z := 11.
Definition SIG_SCHEME_FALCON_RESERVED : Z := 20.
Definition SIG_SCHEME_SPHINCS_RESERVED : Z := 30.

Definition reserved_scheme (i : Z) (n : string) : SignatureScheme := {|
  scheme_id := i; scheme_name := n; public_key_size := None; signature_size := None;
  supports_sign := false; supports_verify := false; supports_addresses := false; activated := false;
  signer := None; verifier := None; key_deriver := None;
|}.

Definition _SCHEMES : list (Z * SignatureScheme) := [
  (SIG_SCHEME_LEGACY_ECDSA, {|
    scheme_id := SIG_SCHEME_LEGACY_ECDSA; scheme_name := "secp256k1-ecdsa";
    public_key_size := None; signature_size := None;
    supports_sign := true; supports_verify := true; supports_addresses := true; activated := true;
    signer := None; verifier := None; key_deriver := None |});
  (SIG_SCHEME_ML_DSA_44, {|
    scheme_id := SIG_SCHEME_ML_DSA_44; scheme_name := "mldsa44";
    public_key_size := Some ML_DSA_44_PUBLIC_KEY_SIZE; signature_size := Some ML_DSA_44_SIGNATURE_SIZE;
    supports_sign := true; supports_verify := true; supports_addresses := true; activated := true;
    signer := Some sign_mldsa44; verifier := Some verify_mldsa44; key_deriver := Some derive_mldsa44_keypair |});
  (SIG_SCHEME_ML_DSA_65_RESERVED, reserved_scheme SIG_SCHEME_ML_DSA_65_RESERVED "mldsa65-reserved");
  (SIG_SCHEME_FALCON_RESERVED, reserved_scheme SIG_SCHEME_FALCON_RESERVED "falcon-reserved");
  (SIG_SCHEME_SPHINCS_RESERVED, reserved_scheme SIG_SCHEME_SPHINCS_RESERVED "sphincs-plus-reserved")
].

Definition get_signature_scheme (i : Z) : res SignatureScheme :=
  match dict_get _SCHEMES i with
  | Some scheme => Ok scheme
  | None => raise ValueError "Unknown signature scheme id"
  end.

Definition is_known_signature_scheme (i : Z) : bool :=
  match dict_get _SCHEMES i with Some _ => true | None => false end.
End keys.

(** ** What the primitives promise *)

Class CryptoLaws `{CryptoBackend} : Prop := {
  decode_encode_dss : forall r s sig, encode_dss_signature r s = Ok sig -> decode_dss_signature sig = Ok (r, s);
  encode_dss_total : forall r s, 0 < r < SECP256K1_ORDER -> 0 < s < SECP256K1_ORDER ->
    exists sig, encode_dss_signature r s = Ok sig;
  ec_sign_decodes : forall k e d, 0 < k < SECP256K1_ORDER -> len d = 32 ->
    exists r s, decode_dss_signature (ec_sign k e d) = Ok (r, s) /\
      0 < r < SECP256K1_ORDER /\ 0 < s < SECP256K1_ORDER;
  ec_sign_verifies : forall k c e d, 0 < k < SECP256K1_ORDER -> len d = 32 ->
    ec_verify (ec_public_bytes k c) (ec_sign k e d) d = true;
  (** the two signatures (r, s) and (r, n - s) of a digest verify together *)
  ec_verify_symmetric : forall pk d sig1 sig2 r s,
    decode_dss_signature sig1 = Ok (r, s) ->
    decode_dss_signature sig2 = Ok (r, s) \/ decode_dss_signature sig2 = Ok (r, SECP256K1_ORDER - s) ->
    ec_verify pk sig1 d = ec_verify pk sig2 d;
  ec_public_bytes_loads : forall k c, 0 < k < SECP256K1_ORDER -> from_encoded_point (ec_public_bytes k c) = true;
}.

Lemma order_odd : SECP256K1_ORDER = 2 * (SECP256K1_ORDER / 2) + 1.
Proof. reflexivity. Qed.

Lemma validate_private_key_range k : validate_private_key k = Ok tt ->
  len k = 32 /\ 0 < from_bytes_big k < SECP256K1_ORDER.
Proof. unfold validate_private_key. intros H. inv_ok. bool_prop. lia. Qed.

Section signatures.
Context `{CryptoLaws}.

Lemma normalize_low_s_result sig n : _normalize_low_s sig = Ok n ->
  exists r s, decode_dss_signature sig = Ok (r, s) /\
    encode_dss_signature r (if SECP256K1_ORDER / 2 <? s then SECP256K1_ORDER - s else s) = Ok n.
Proof. unfold _normalize_low_s. intros E. inv_ok. by eexists _, _. Qed.

(** Normalizing is idempotent. *)
Lemma normalize_low_s_idem sig n : _normalize_low_s sig = Ok n -> _normalize_low_s n = Ok n.
Proof.
  intros (r & s & Hd & He)%normalize_low_s_result. pose proof (decode_encode_dss _ _ _ He) as Hn.
  unfold _normalize_low_s. rewrite Hn. cbn [rbind]. rewrite <- He. f_equal.
  pose proof order_odd. destruct (Z.ltb_spec (SECP256K1_ORDER / 2) s).
  - destruct (Z.ltb_spec (SECP256K1_ORDER / 2) (SECP256K1_ORDER - s)); lia.
  - destruct (Z.ltb_spec (SECP256K1_ORDER / 2) s); lia.
Qed.

(** An accepted ECDSA signature has its [s] in the lower half of the group
    order and is the DER encoding of its own values, so neither negating [s] nor
    re-encoding yields a second accepted signature with the same [r]. *)
Theorem verify_digest_low_s (pk d sig : bytes) :
  verify_digest pk d sig = Ok true ->
  exists r s, decode_dss_signature sig = Ok (r, s) /\ encode_dss_signature r s = Ok sig /\
    s <= SECP256K1_ORDER / 2 /\
    forall sig', decode_dss_signature sig' = Ok (r, SECP256K1_ORDER - s) -> verify_digest pk d sig' = Ok false.
Proof.
  unfold verify_digest. intros Hv. inv_ok; bool_prop.
  match goal with E : _normalize_low_s _ = Ok _ |- _ =>
    pose proof (normalize_low_s_result _ _ E) as (r & s & Hd & He) end.
  subst. pose proof (decode_encode_dss _ _ _ He) as Hd'. rewrite Hd in Hd'.
  pose proof order_odd as Hodd.
  assert (Hs : s <= SECP256K1_ORDER / 2).
  { destruct (Z.ltb_spec (SECP256K1_ORDER / 2) s); [|done]. injection Hd' as Es. lia. }
  rewrite (proj2 (Z.ltb_ge _ _)) in He by done.
  exists r, s. repeat split; try done. intros sig' Hd''.
  destruct (_normalize_low_s sig') as [n|e] eqn:En.
  - unfold _normalize_low_s in En. rewrite Hd'' in En. cbn [rbind] in En.
    rewrite (proj2 (Z.ltb_lt _ _)) in En by lia.
    rewrite bool_decide_false; [done|]. intros ->. apply decode_encode_dss in En. rewrite Hd'' in En.
    injection En as En. lia.
  - unfold _normalize_low_s in En. rewrite Hd'' in En. cbn [rbind] in En.
    rewrite (proj2 (Z.ltb_lt _ _)) in En by lia.
    replace (SECP256K1_ORDER - (SECP256K1_ORDER - s)) with s in En by lia. congruence.
Qed.

(** Signing with a valid private key returns a signature, and it verifies
    under the derived public key, whatever nonce the library draws. *)
Theorem sign_then_verify (private_key digest entropy : bytes) (compressed : bool) :
  validate_private_key private_key = Ok tt -> len digest = 32 ->
  exists pk sig, derive_public_key private_key compressed = Ok pk /\
    sign_digest private_key digest entropy = Ok sig /\ verify_digest pk digest sig = Ok true.
Proof.
  intros Hk Hd. destruct (validate_private_key_range _ Hk) as [_ Hr].
  destruct (ec_sign_decodes _ entropy digest Hr Hd) as (r & s & Hdec & Hrr & Hss).
  pose proof order_odd as Hodd.
  destruct (encode_dss_total r (if SECP256K1_ORDER / 2 <? s then SECP256K1_ORDER - s else s)) as (sig & He);
    [done|case_match; bool_prop; lia|].
  assert (Hn : _normalize_low_s (ec_sign (from_bytes_big private_key) entropy digest) = Ok sig).
  { unfold _normalize_low_s. rewrite Hdec. exact He. }
  exists (ec_public_bytes (from_bytes_big private_key) compressed), sig.
  unfold derive_public_key, sign_digest, load_private_key, verify_digest.
  rewrite Hk, Hd. cbn [rbind negb]. rewrite (proj2 (Z.eqb_eq 32 32)) by done. cbn [negb].
  split; [done|]. split; [exact Hn|]. rewrite (normalize_low_s_idem _ _ Hn).
  rewrite bool_decide_true by done. unfold load_public_key. rewrite ec_public_bytes_loads by done. simpl.
  f_equal. rewrite <- (ec_sign_verifies (from_bytes_big private_key) compressed entropy digest Hr Hd). symmetry.
  eapply ec_verify_symmetric; [exact Hdec|]. pose proof (decode_encode_dss _ _ _ He) as Hx.
  destruct (_ <? s); [by right|by left].
Qed.
End signatures.

(** The registry resolves exactly the five known scheme ids; of these only
    ML-DSA-44 has a verification backend, so a CHCQ spend can never be accepted
    through a reserved scheme. *)
Theorem only_mldsa44_verifies `{CryptoBackend} (i : Z) :
  (is_known_signature_scheme i = true <-> i ∈ [0; 10; 11; 20; 30]) /\
  forall scheme pk d sig v, get_signature_scheme i = Ok scheme -> scheme_verify scheme pk d sig = Ok v ->
    i = SIG_SCHEME_ML_DSA_44 /\ scheme_id scheme = i /\ verify_mldsa44 pk d sig = Ok v.
Proof.
  assert (Hk : forall j s, dict_get _SCHEMES j = Some s -> (j, s) ∈ _SCHEMES) by (intros; by apply dict_get_elem).
  split.
  - unfold is_known_signature_scheme. destruct (dict_get _SCHEMES i) eqn:E; split; try done.
    + intros _. apply Hk in E. unfold _SCHEMES in E. rewrite !elem_of_cons in E. rewrite !elem_of_cons.
      destruct_or! E; simplify_eq; (tauto || by apply not_elem_of_nil in E).
    + rewrite !elem_of_cons, elem_of_nil. intros Hi. destruct_or! Hi; subst; done.
  - unfold get_signature_scheme. intros scheme pk d sig v Hg Hv. inv_ok.
    match goal with E : dict_get _ _ = Some _ |- _ => apply Hk in E as E' end.
    unfold _SCHEMES in E'. rewrite !elem_of_cons in E'.
    destruct_or! E'; simplify_eq; try (by unfold scheme_verify in Hv; simpl in Hv).
    by apply not_elem_of_nil in E'.
Qed.

(** ** A concrete backend

    A toy signature scheme (the "signature" of a digest is a hash of key and
    digest) that satisfies [CryptoLaws]; the witnesses of this library run on it. *)

Definition be32 (v : Z) : bytes := rev (le_split 32 v).

Definition demo_tag (pk d : bytes) : Z := 1 + hash_to_int (sha256 (pk ++ d)) mod (SECP256K1_ORDER - 1).
Definition demo_public (k : Z) (compressed : bool) : bytes := byte.of_Z 2 :: be32 k.
Definition demo_decode (sig : bytes) : res (Z * Z) :=
  if len sig =? 64 then Ok (from_bytes_big (take 32 sig), from_bytes_big (drop 32 sig))
  else raise ValueError "Could not parse signature".
Definition demo_encode (r s : Z) : res bytes :=
  let* r' := to_bytes_big 32 r in let* s' := to_bytes_big 32 s in Ok (r' ++ s').
Definition demo_verify (pk sig d : bytes) : bool :=
  match demo_decode sig with
  | Ok (r, s) => (s =? demo_tag pk d) || (SECP256K1_ORDER - s =? demo_tag pk d)
  | Raise _ => false
  end.

#[global] Instance demo_backend : CryptoBackend := {|
  from_encoded_point := fun pk => (len pk =? 33) && bool_decide (head pk = Some (byte.of_Z 2));
  ec_public_bytes := demo_public;
  ec_sign := fun k _ d => be32 1 ++ be32 (demo_tag (demo_public k true) d);
  ec_verify := demo_verify;
  decode_dss_signature := demo_decode;
  encode_dss_signature := demo_encode;
  mldsa_native := None;
|}.

Lemma be32_length v : length (be32 v) = 32%nat.
Proof. unfold be32. by rewrite length_rev, length_le_split. Qed.

Lemma from_be32 v : 0 <= v < 2 ^ 256 -> from_bytes_big (be32 v) = v.
Proof.
  intros Hv. unfold from_bytes_big, be32. rewrite rev_involutive, le_combine_split. by apply Z.mod_small.
Qed.

Lemma demo_decode_be32 r s : 0 <= r < 2 ^ 256 -> 0 <= s < 2 ^ 256 -> demo_decode (be32 r ++ be32 s) = Ok (r, s).
Proof.
  intros Hr Hs. unfold demo_decode. rewrite len_app. unfold len. rewrite !be32_length.
  change (Z.of_nat 32 + Z.of_nat 32 =? 64) with true. cbv iota.
  rewrite <- (be32_length r) at 1 2. rewrite take_app_length, drop_app_length, !from_be32; done.
Qed.

Lemma demo_tag_range pk d : 0 < demo_tag pk d < SECP256K1_ORDER.
Proof.
  unfold demo_tag. pose proof (Z.mod_pos_bound (hash_to_int (sha256 (pk ++ d))) (SECP256K1_ORDER - 1) eq_refl). lia.
Qed.

Lemma order_lt : SECP256K1_ORDER < 2 ^ 256.
Proof. reflexivity. Qed.

#[global] Instance demo_laws : CryptoLaws.
Proof.
  pose proof order_lt as HN. split; cbn [encode_dss_signature decode_dss_signature ec_sign ec_verify ec_public_bytes from_encoded_point demo_backend].
  - intros r s sig Hs. unfold demo_encode, to_bytes_big in Hs. inv_ok. bool_prop. by apply demo_decode_be32.
  - intros r s Hr Hs. unfold demo_encode, to_bytes_big.
    change (2 ^ (8 * Z.of_nat 32)) with (2 ^ 256).
    rewrite !(proj2 (Z.leb_le _ _)), !(proj2 (Z.ltb_lt _ _)) by lia. by eexists.
  - intros k e d Hk Hd. pose proof (demo_tag_range (demo_public k true) d).
    exists 1, (demo_tag (demo_public k true) d). rewrite demo_decode_be32 by lia.
    repeat split; lia || reflexivity.
  - intros k c e d Hk Hd. pose proof (demo_tag_range (demo_public k true) d).
    unfold demo_verify. rewrite demo_decode_be32 by lia. change (demo_public k c) with (demo_public k true).
    by rewrite Z.eqb_refl.
  - intros pk d sig1 sig2 r s H1 H2. unfold demo_verify. rewrite H1. destruct H2 as [-> | ->]; [done|].
    rewrite orb_comm. f_equal. f_equal. lia.
  - intros k c Hk. unfold demo_public. rewrite len_cons. unfold len. rewrite be32_length. done.
Qed.

(** ** Witnesses *)

Definition demo_private_key : bytes := be32 7.
Definition demo_digest : bytes := sha256 (b "digest").
Definition demo_signature : bytes :=
  match sign_digest demo_private_key demo_digest [] with Ok s => s | Raise _ => [] end.

Lemma verify_digest_low_s_witness :
  exists r s, decode_dss_signature demo_signature = Ok (r, s) /\ s <= SECP256K1_ORDER / 2.
Proof.
  destruct (verify_digest_low_s (demo_public 7 true) demo_digest demo_signature) as (r & s & Hd & _ & Hs & _).
  { vm_compute. reflexivity. }
  exists r, s. split; [exact Hd|exact Hs].
Defined.

Lemma sign_then_verify_witness :
  exists pk sig, derive_public_key demo_private_key true = Ok pk /\
    sign_digest demo_private_key demo_digest [] = Ok sig /\ verify_digest pk demo_digest sig = Ok true.
Proof. apply (sign_then_verify demo_private_key demo_digest [] true); vm_compute; reflexivity. Defined.

Lemma only_mldsa44_verifies_witness : is_known_signature_scheme 30 = true.
Proof. apply (proj1 (only_mldsa44_verifies 30)). set_solver. Defined.
