(* ===== verification/Addresses.v ===== *)
(** * Addresses ([crypto/addresses.py])

    Base58Check and the two address formats: [CHC] (HASH160 of a secp256k1 key)
    and [CHCQ] (scheme id and SHA3-256 commitment of a post-quantum key). *)

From S2P Require Import Prelude PyOrder PyText Hashes Pow Crypto.

Definition ADDRESS_PREFIX : str := u "CHC".
Definition ADDRESS_VERSION : Z := 0x1C.
Definition PQ_ADDRESS_PREFIX : str := u "CHCQ".
Definition PQ_ADDRESS_VERSION : Z := 0x50.
Definition PQ_PUBLIC_KEY_COMMITMENT_SIZE : Z := 32.
Definition _BASE58_ALPHABET : str := u "123456789ABCDEFGHJKLMNPQRSTUVWXYZabcdefghijkmnopqrstuvwxyz".

Inductive address_kind : Set := legacy | pq.

Record AddressInfo : Type := mkAddressInfo {
  kind : address_kind;
  prefix : str;
  info_version : Z;
  info_scheme_id : Z;
  payload : bytes;
  hash_or_commitment : bytes;
}.

#[global] Instance address_kind_eq_dec : EqDecision address_kind.
Proof. solve_decision. Defined.
#[global] Instance AddressInfo_eq_dec : EqDecision AddressInfo.
Proof. solve_decision. Defined.

Definition hash160 (data : bytes) : bytes := Ripemd160.digest (sha256 data).
Definition public_key_hash (pubkey : bytes) : bytes := hash160 pubkey.
Definition pq_public_key_commitment (pubkey : bytes) : bytes := Sha3_256.digest pubkey.

(** [data.lstrip(x)] for one element *)
Fixpoint lstrip {A} `{EqDecision A} (x : A) (l : list A) : list A :=
  match l with
  | [] => []
  | y :: l' => if decide (y = x) then lstrip x l' else l
  end.

(** [_BASE58_ALPHABET[i]] and [_BASE58_ALPHABET.find(c)] *)
Definition alphabet_char (i : Z) : Z := nth (Z.to_nat i) _BASE58_ALPHABET 0.
Fixpoint find_from (i : Z) (c : Z) (l : str) : Z :=
  match l with
  | [] => -1
  | c' :: l' => if c =? c' then i else find_from (i + 1) c l'
  end.
Definition alphabet_find (c : Z) : Z := find_from 0 c _BASE58_ALPHABET.

(** The [while value] loop of the encoder *)
Fixpoint base58_loop (fuel : nat) (v : Z) (encoded : str) : res str :=
  match fuel with
  | O => raise OutOfFuel "base58 digits"
  | S fuel' =>
      if v =? 0 then Ok encoded
      else base58_loop fuel' (v / 58) (alphabet_char (v mod 58) :: encoded)
  end.

Definition base58_fuel (v : Z) : nat := S (S (Z.to_nat (Z.log2 v))).

Definition _base58check_encode (data : bytes) : res str :=
  let data' := data ++ take 4 (double_sha256 data) in
  let zeros := (length data' - length (lstrip (byte.of_Z 0) data'))%nat in
  let v := from_bytes_big data' in
  let* encoded := base58_loop (base58_fuel v) v [] in
  Ok (repeat 49 zeros ++ match encoded with [] => u "1" | _ => encoded end).

(** One character of the decoder's loop *)
Definition base58_step (number character : Z) : res Z :=
  let index := alphabet_find character in
  if index =? -1 then raise ValueError "Address contains a non-Base58 character."
  else Ok (number * 58 + index).

Definition _base58check_decode (text : str) : res bytes :=
  let* number := foldM base58_step 0 text in
  let* raw := if number =? 0 then Ok [] else to_bytes_big (Z.to_nat ((bit_length number + 7) / 8)) number in
  let zeros := (length text - length (lstrip 49%Z text))%nat in
  let raw' := repeat (byte.of_Z 0) zeros ++ raw in
  if len raw' <? 5 then raise ValueError "Address payload is too short."
  else
    let data := take (length raw' - 4) raw' in
    let checksum := drop (length raw' - 4) raw' in
    if negb (bool_decide (take 4 (double_sha256 data) = checksum)) then raise ValueError "Address checksum is invalid."
    else Ok data.

Definition startswith (text pre : str) : bool := bool_decide (take (length pre) text = pre).

(** [payload[i]] as a number *)
Definition byte_at (data : bytes) (i : nat) : Z := byte.unsigned (nth i data (byte.of_Z 0)).

Definition parse_address (address : str) : res AddressInfo :=
  if startswith address PQ_ADDRESS_PREFIX then
    let* data := _base58check_decode (drop (length PQ_ADDRESS_PREFIX) address) in
    if negb (len data =? 34) then raise ValueError "CHCQ address payload has an unexpected length."
    else if negb (byte_at data 0 =? PQ_ADDRESS_VERSION) then
      raise ValueError "CHCQ address version byte is not recognised."
    else
      let commitment := drop 2 data in
      if negb (len commitment =? PQ_PUBLIC_KEY_COMMITMENT_SIZE) then
        raise ValueError "CHCQ public-key commitment has an unexpected length."
      else Ok (mkAddressInfo pq PQ_ADDRESS_PREFIX (byte_at data 0) (byte_at data 1) data commitment)
  else if startswith address ADDRESS_PREFIX then
    let* data := _base58check_decode (drop (length ADDRESS_PREFIX) address) in
    if negb (len data =? 21) then raise ValueError "Address payload has an unexpected length."
    else if negb (byte_at data 0 =? ADDRESS_VERSION) then
      raise ValueError "Address version byte is not recognised."
    else Ok (mkAddressInfo legacy ADDRESS_PREFIX (byte_at data 0) 0 data (drop 1 data))
  else raise ValueError "Address does not start with a recognised Chipcoin prefix.".

Definition public_key_to_address `{CryptoBackend} (pubkey : bytes) : res str :=
  load_public_key pubkey ;;
  let data := byte.of_Z ADDRESS_VERSION :: public_key_hash pubkey in
  let* text := _base58check_encode data in
  Ok (ADDRESS_PREFIX ++ text).

Definition public_key_to_pq_address (pubkey : bytes) (scheme : Z) : res str :=
  if (scheme <? 0) || (0xFF <? scheme) then raise ValueError "Signature scheme id must fit in one byte."
  else
    let commitment := pq_public_key_commitment pubkey in
    let data := byte.of_Z PQ_ADDRESS_VERSION :: byte.of_Z scheme :: commitment in
    let* text := _base58check_encode data in
    Ok (PQ_ADDRESS_PREFIX ++ text).

Definition address_to_public_key_hash (address : str) : res bytes :=
  let* info := parse_address address in
  if negb (bool_decide (kind info = legacy)) then raise ValueError "Address is not a legacy CHC address."
  else Ok (hash_or_commitment info).

Definition address_to_pq_commitment (address : str) : res (Z * bytes) :=
  let* info := parse_address address in
  if negb (bool_decide (kind info = pq)) then raise ValueError "Address is not a CHCQ address."
  else Ok (info_scheme_id info, hash_or_commitment info).

Definition is_valid_address (address : str) : res bool :=
  match parse_address address with
  | Ok _ => Ok true
  | Raise e => if isinstance (exn_cls e) ValueError then Ok false else Raise e
  end.

(** ** The alphabet *)

Lemma alphabet_find_char d : 0 <= d < 58 -> alphabet_find (alphabet_char d) = d.
Proof.
  intros Hd. assert (H : forall n, (n < 58)%nat -> alphabet_find (alphabet_char (Z.of_nat n)) = Z.of_nat n).
  { intros n Hn. do 58 (destruct n as [|n]; [reflexivity|]). lia. }
  rewrite <- (Z2Nat.id d) by lia. apply H. lia.
Qed.

Lemma find_from_nth i c l j : find_from i c l = j -> j ≠ -1 -> 0 <= i ->
  i <= j < i + len l /\ nth (Z.to_nat (j - i)) l 0 = c.
Proof.
  revert i. induction l as [|c' l IH]; simpl; intros i Hf Hj Hi; [congruence|].
  pose proof (len_nonneg l). rewrite len_cons. destruct (Z.eqb_spec c c') as [->|Hne].
  - subst j. rewrite Z.sub_diag. split; [lia|done].
  - apply IH in Hf as [Hr Hn]; [|done|lia]. split; [lia|].
    replace (Z.to_nat (j - i)) with (S (Z.to_nat (j - (i + 1)))) by lia. done.
Qed.

Lemma alphabet_char_find c : alphabet_find c ≠ -1 ->
  0 <= alphabet_find c < 58 /\ alphabet_char (alphabet_find c) = c.
Proof.
  intros Hc. destruct (find_from_nth 0 c _BASE58_ALPHABET (alphabet_find c)) as [Hr Hn]; [done|done|lia|].
  rewrite Z.sub_0_r in Hn. split; [exact Hr|exact Hn].
Qed.

(** ** Digits *)

Definition digits_value (ds : list Z) : Z := foldl (fun a d => a * 58 + d) 0 ds.
Definition digits_ok (ds : list Z) : Prop := Forall (fun d => 0 <= d < 58) ds.
Definition no_leading_zero (ds : list Z) : Prop := match ds with d :: _ => d ≠ 0 | [] => True end.

Lemma digits_value_app ds e : digits_value (ds ++ [e]) = digits_value ds * 58 + e.
Proof. unfold digits_value. by rewrite foldl_app. Qed.

Lemma digits_value_from a ds : foldl (fun a d => a * 58 + d) a ds = a * 58 ^ len ds + digits_value ds.
Proof.
  revert a. induction ds as [|d ds IH]; intros a; simpl; [unfold len, digits_value; simpl; lia|].
  unfold digits_value. simpl. rewrite !IH, len_cons, Z.pow_add_r by (lia || apply len_nonneg). lia.
Qed.

Lemma digits_value_cons d ds : digits_value (d :: ds) = d * 58 ^ len ds + digits_value ds.
Proof. unfold digits_value at 1. simpl. by rewrite digits_value_from. Qed.

Lemma digits_value_bounds ds : digits_ok ds -> 0 <= digits_value ds < 58 ^ len ds.
Proof.
  induction 1 as [|d ds Hd Hds IH]; [unfold digits_value, len; simpl; lia|].
  rewrite digits_value_cons, len_cons, Z.pow_add_r by (lia || apply len_nonneg). nia.
Qed.

Lemma digits_value_pos d ds : digits_ok (d :: ds) -> d ≠ 0 -> 58 ^ len ds <= digits_value (d :: ds).
Proof.
  intros [Hd Hds]%Forall_cons Hne. pose proof (digits_value_bounds ds Hds). rewrite digits_value_cons.
  assert (0 < 58 ^ len ds) by (apply Z.pow_pos_nonneg; [lia|apply len_nonneg]). nia.
Qed.

Lemma digits_exist v : 0 <= v -> exists ds, digits_ok ds /\ no_leading_zero ds /\ digits_value ds = v.
Proof.
  revert v. apply (Zlt_0_ind (fun v => exists ds, digits_ok ds /\ no_leading_zero ds /\ digits_value ds = v)).
  intros v IH Hv. destruct (Z.eq_dec v 0) as [->|Hne]; [exists []; repeat split; constructor|].
  destruct (IH (v / 58)) as (ds & Hok & Hz & Hval); [split; [apply Z.div_pos|apply Z.div_lt]; lia|].
  exists (ds ++ [v mod 58]). pose proof (Z.mod_pos_bound v 58 eq_refl). pose proof (Z.div_mod v 58).
  split; [apply Forall_app; split; [done|by apply Forall_singleton]|]. split.
  - destruct ds as [|d ds]; [|done]. simpl. unfold digits_value in Hval. simpl in Hval. lia.
  - rewrite digits_value_app, Hval. lia.
Qed.

(** The encoder's loop writes the digits of its number. *)
Lemma base58_loop_digits ds : forall fuel acc,
  digits_ok ds -> no_leading_zero ds -> digits_value ds < 2 ^ (Z.of_nat fuel - 1) -> (0 < fuel)%nat ->
  base58_loop fuel (digits_value ds) acc = Ok ((alphabet_char <$> ds) ++ acc).
Proof.
  induction ds as [|e ds IH] using rev_ind; intros fuel acc Hok Hz Hv Hf; (destruct fuel as [|fuel]; [lia|]).
  { done. }
  apply Forall_app in Hok as [Hok He]. inversion_clear He as [|? ? He' _].
  pose proof (digits_value_bounds ds Hok). rewrite digits_value_app in *.
  assert (Hpos : digits_value ds * 58 + e ≠ 0).
  { destruct ds as [|d ds]; [simpl in Hz; unfold digits_value; simpl; lia|].
    pose proof (digits_value_pos d ds Hok Hz).
    assert (0 < 58 ^ len ds) by (apply Z.pow_pos_nonneg; [lia|apply len_nonneg]). lia. }
  assert (0 < fuel)%nat by (destruct fuel; [simpl in Hv; lia|lia]).
  replace (Z.of_nat (S fuel) - 1) with (Z.succ (Z.of_nat fuel - 1)) in Hv by lia.
  rewrite Z.pow_succ_r in Hv by lia.
  cbn [base58_loop]. rewrite (proj2 (Z.eqb_neq _ _)) by done.
  rewrite <- (Z.div_unique (digits_value ds * 58 + e) 58 (digits_value ds) e) by lia.
  rewrite <- (Z.mod_unique (digits_value ds * 58 + e) 58 (digits_value ds) e) by lia.
  rewrite IH; [|done|by destruct ds|lia|done]. by rewrite fmap_app, <- app_assoc.
Qed.

Lemma base58_fuel_enough v : 0 <= v -> v < 2 ^ (Z.of_nat (base58_fuel v) - 1).
Proof.
  intros Hv. unfold base58_fuel. pose proof (Z.log2_nonneg v).
  replace (Z.of_nat _ - 1) with (Z.succ (Z.log2 v)) by lia.
  destruct (Z.eq_dec v 0) as [->|]; [simpl; lia|]. apply Z.log2_spec. lia.
Qed.

(** The decoder's loop reads them back. *)
Lemma decode_digits ds a : digits_ok ds ->
  foldM base58_step a (alphabet_char <$> ds) = Ok (foldl (fun a d => a * 58 + d) a ds).
Proof.
  intros Hok. revert a. induction Hok as [|d ds Hd Hds IH]; intros a; [done|]. csimpl.
  unfold base58_step at 1. rewrite alphabet_find_char by lia.
  rewrite (proj2 (Z.eqb_neq _ _)) by lia. apply IH.
Qed.

Lemma decode_text text a n : foldM base58_step a text = Ok n ->
  exists ds, digits_ok ds /\ text = alphabet_char <$> ds /\ n = foldl (fun a d => a * 58 + d) a ds.
Proof.
  revert a. induction text as [|c text IH]; simpl; intros a H; inv_ok; [exists []; repeat split; constructor|].
  unfold base58_step in E. inv_ok. bool_prop. destruct (alphabet_char_find c) as [Hr Hc]; [done|].
  destruct (IH _ H) as (ds & Hok & -> & ->). exists (alphabet_find c :: ds).
  split; [by constructor|]. csimpl. by rewrite Hc.
Qed.

(** ** Leading elements *)

Lemma lstrip_split {A} `{EqDecision A} (x : A) l :
  l = repeat x (length l - length (lstrip x l)) ++ lstrip x l /\ head (lstrip x l) ≠ Some x.
Proof.
  assert (H : exists n, l = repeat x n ++ lstrip x l /\ head (lstrip x l) ≠ Some x).
  { induction l as [|y l (n & IH & Hh)]; [by exists O|]. simpl. destruct (decide (y = x)) as [->|Hne].
    - exists (S n). simpl. by rewrite <- IH.
    - exists O. simpl. split; [done|congruence]. }
  destruct H as (n & E & Hh). split; [|done]. rewrite E at 2. rewrite length_app, repeat_length.
  replace (n + _ - _)%nat with n by lia. done.
Qed.

Lemma lstrip_repeat {A} `{EqDecision A} (x : A) n l : head l ≠ Some x -> lstrip x (repeat x n ++ l) = l.
Proof.
  intros Hh. induction n as [|n IH]; simpl; [|by rewrite decide_True].
  destruct l as [|y l]; simpl; [done|]. rewrite decide_False; [done|]. simpl in Hh. congruence.
Qed.

(** ** Big-endian numbers *)

Lemma from_bytes_big_cons x bs : from_bytes_big (x :: bs) = byte.unsigned x * 2 ^ (8 * len bs) + from_bytes_big bs.
Proof.
  unfold from_bytes_big. simpl rev. rewrite le_combine_app, length_rev, le_combine_1.
  fold (len bs). rewrite Z.lor_comm, (Z.mul_comm (len bs)). apply lor_shiftl_plus.
  - pose proof (len_nonneg bs). lia.
  - pose proof (le_combine_range (rev bs)) as H. unfold len in *. by rewrite length_rev in H.
Qed.

Lemma unsigned_nonzero x : x ≠ byte.of_Z 0 -> 1 <= byte.unsigned x < 256.
Proof.
  intros Hne. pose proof (byte.unsigned_range x). destruct (Z.eq_dec (byte.unsigned x) 0) as [E|]; [|lia].
  destruct Hne. rewrite <- (byte.of_Z_unsigned x), E. done.
Qed.

(** The size [int.to_bytes] is called with is the length of a number's bytes
    when the first is not zero. *)
Lemma minimal_size x bs n : x ≠ byte.of_Z 0 -> n = from_bytes_big (x :: bs) ->
  0 < n /\ (bit_length n + 7) / 8 = len (x :: bs) /\ n < 2 ^ (8 * len (x :: bs)).
Proof.
  intros Hx%unsigned_nonzero ->. pose proof (from_bytes_big_range (x :: bs)) as Hr.
  rewrite from_bytes_big_cons in *. pose proof (from_bytes_big_range bs). pose proof (len_nonneg bs) as Hl.
  assert (HP : 0 < 2 ^ (8 * len bs)) by (apply Z.pow_pos_nonneg; lia).
  set (n := byte.unsigned x * 2 ^ (8 * len bs) + from_bytes_big bs) in *.
  assert (Hlo : 2 ^ (8 * len bs) <= n) by nia. split; [lia|]. split; [|apply Hr].
  rewrite len_cons in *. unfold bit_length.
  assert (8 * len bs <= Z.log2 n) by (apply Z.log2_le_pow2; lia).
  assert (Z.log2 n < 8 * (1 + len bs)) by (apply Z.log2_lt_pow2; lia).
  symmetry. apply (Z.div_unique _ 8 _ (Z.log2 n - 8 * len bs)); lia.
Qed.

Lemma to_bytes_minimal x bs n : x ≠ byte.of_Z 0 -> n = from_bytes_big (x :: bs) ->
  to_bytes_big (Z.to_nat ((bit_length n + 7) / 8)) n = Ok (x :: bs).
Proof.
  intros Hx E. destruct (minimal_size x bs n Hx E) as (Hpos & Hs & Hlt).
  unfold to_bytes_big. rewrite Hs. unfold len in *. rewrite Nat2Z.id.
  rewrite (proj2 (Z.leb_le _ _)), (proj2 (Z.ltb_lt _ _)) by lia. simpl andb. cbv iota. f_equal.
  rewrite E. unfold from_bytes_big. rewrite <- (length_rev (x :: bs)), split_le_combine. apply rev_involutive.
Qed.

Lemma to_bytes_of_number n : 0 < n ->
  exists x bs, to_bytes_big (Z.to_nat ((bit_length n + 7) / 8)) n = Ok (x :: bs) /\
    x ≠ byte.of_Z 0 /\ from_bytes_big (x :: bs) = n.
Proof.
  intros Hn. pose proof (Z.log2_spec n Hn) as [Hlo Hhi]. pose proof (Z.log2_nonneg n).
  unfold bit_length. set (m := (Z.log2 n + 1 + 7) / 8).
  assert (Hm : 8 * (m - 1) <= Z.log2 n < 8 * m).
  { unfold m. pose proof (Z.div_mod (Z.log2 n + 1 + 7) 8). pose proof (Z.mod_pos_bound (Z.log2 n + 1 + 7) 8). lia. }
  assert (Hlt : n < 2 ^ (8 * m)).
  { eapply Z.lt_le_trans; [exact Hhi|]. apply Z.pow_le_mono_r; lia. }
  unfold to_bytes_big. replace (8 * Z.of_nat (Z.to_nat m)) with (8 * m) by lia.
  rewrite (proj2 (Z.leb_le _ _)), (proj2 (Z.ltb_lt _ _)) by lia. simpl andb. cbv iota.
  assert (Hv : from_bytes_big (rev (le_split (Z.to_nat m) n)) = n).
  { unfold from_bytes_big. rewrite rev_involutive, le_combine_split. apply Z.mod_small.
    replace (Z.of_nat (Z.to_nat m) * 8) with (8 * m) by lia. lia. }
  assert (Hl : len (rev (le_split (Z.to_nat m) n)) = m).
  { unfold len. rewrite length_rev, length_le_split. lia. }
  destruct (rev (le_split (Z.to_nat m) n)) as [|x bs]; [unfold len in Hl; simpl in Hl; lia|].
  exists x, bs. split; [done|]. split; [|done]. intros ->. rewrite from_bytes_big_cons in Hv.
  rewrite len_cons in Hl. change (byte.unsigned (byte.of_Z 0)) with 0 in Hv.
  pose proof (from_bytes_big_range bs) as Hr. replace (len bs) with (m - 1) in * by lia.
  assert (2 ^ (8 * (m - 1)) <= 2 ^ Z.log2 n) by (apply Z.pow_le_mono_r; lia). lia.
Qed.

Lemma from_bytes_big_zeros n bs : from_bytes_big (repeat (byte.of_Z 0) n ++ bs) = from_bytes_big bs.
Proof. induction n as [|n IH]; [done|]. simpl. rewrite from_bytes_big_cons, IH. done. Qed.

(** ** Base58Check *)

(** The text of [zeros] zero bytes followed by the number with digits [ds]. *)
Definition base58_text (zeros : nat) (ds : list Z) : str := repeat 49 zeros ++ (alphabet_char <$> ds).

Lemma alphabet_char_one d : 0 <= d < 58 -> alphabet_char d = 49 -> d = 0.
Proof. intros Hd E. pose proof (alphabet_find_char d Hd) as H. rewrite E in H. by vm_compute in H. Qed.

Lemma base58_text_strip zeros ds : digits_ok ds -> no_leading_zero ds ->
  lstrip 49 (base58_text zeros ds) = alphabet_char <$> ds.
Proof.
  intros Hok Hz. apply lstrip_repeat. destruct ds as [|d ds]; [done|]. csimpl. intros [= E].
  apply Forall_cons in Hok as [Hd _]. by apply alphabet_char_one in E.
Qed.

Lemma base58_text_number zeros ds : digits_ok ds ->
  foldM base58_step 0 (base58_text zeros ds) = Ok (digits_value ds).
Proof.
  intros Hok. unfold base58_text. rewrite foldM_app.
  assert (foldM base58_step 0 (repeat 49 zeros) = Ok 0) as -> by (induction zeros; done).
  by apply decode_digits.
Qed.

(** Every text over the alphabet has this form. *)
Lemma base58_text_form text n : foldM base58_step 0 text = Ok n ->
  exists zeros ds, text = base58_text zeros ds /\ digits_ok ds /\ no_leading_zero ds /\ n = digits_value ds.
Proof.
  intros (ds & Hok & -> & ->)%decode_text. destruct (lstrip_split 0 ds) as [E Hh].
  set (k := (length ds - length (lstrip 0%Z ds))%nat) in *. exists k, (lstrip 0 ds).
  rewrite E in Hok. apply Forall_app in Hok as [_ Hok]. unfold base58_text.
  split; [|split; [done|split]].
  - rewrite E at 1. rewrite fmap_app. f_equal. clear. induction k as [|k IH]; [done|]. csimpl. by rewrite IH.
  - destruct (lstrip 0 ds); [done|]. simpl in Hh. congruence.
  - rewrite E at 1. rewrite foldl_app. fold (digits_value (repeat 0 k)).
    assert (digits_value (repeat 0 k) = 0) as ->; [|done].
    clear. induction k as [|k IH]; [done|]. simpl. rewrite digits_value_cons, IH. lia.
Qed.

(** Encoding data whose bytes are not all zero. *)
Lemma encode_form data x bs zeros :
  data ++ take 4 (double_sha256 data) = repeat (byte.of_Z 0) zeros ++ x :: bs -> x ≠ byte.of_Z 0 ->
  exists ds, _base58check_encode data = Ok (base58_text zeros ds) /\ ds ≠ [] /\
    digits_ok ds /\ no_leading_zero ds /\ digits_value ds = from_bytes_big (x :: bs).
Proof.
  intros E Hx. unfold _base58check_encode. rewrite E, lstrip_repeat by (simpl; congruence).
  rewrite length_app, repeat_length, from_bytes_big_zeros.
  replace (zeros + length (x :: bs) - length (x :: bs))%nat with zeros by lia.
  destruct (minimal_size x bs _ Hx eq_refl) as (Hpos & _ & _).
  destruct (digits_exist (from_bytes_big (x :: bs))) as (ds & Hok & Hz & Hv); [lia|].
  exists ds. rewrite <- Hv in *. rewrite base58_loop_digits; [|done|done|apply base58_fuel_enough; lia|unfold base58_fuel; lia].
  rewrite app_nil_r. cbn [rbind]. destruct ds as [|d ds]; [unfold digits_value in Hpos; simpl in Hpos; lia|].
  split; [done|]. done.
Qed.

Lemma decode_form zeros ds x bs :
  digits_ok ds -> no_leading_zero ds -> x ≠ byte.of_Z 0 -> digits_value ds = from_bytes_big (x :: bs) ->
  forall data, data ≠ [] -> data ++ take 4 (double_sha256 data) = repeat (byte.of_Z 0) zeros ++ x :: bs ->
  _base58check_decode (base58_text zeros ds) = Ok data.
Proof.
  intros Hok Hz Hx Hv data Hne E. unfold _base58check_decode. rewrite base58_text_number by done. cbn [rbind].
  destruct (minimal_size x bs _ Hx eq_refl) as (Hpos & _ & _). rewrite Hv.
  rewrite (proj2 (Z.eqb_neq _ _)) by lia. rewrite (to_bytes_minimal x bs) by done. cbn [rbind].
  rewrite base58_text_strip by done.
  assert (length (base58_text zeros ds) - length (alphabet_char <$> ds) = zeros)%nat as ->.
  { unfold base58_text. rewrite length_app, repeat_length. lia. }
  rewrite <- E.
  assert (Hc : length (take 4 (double_sha256 data)) = 4%nat) by (rewrite length_take, double_sha256_length; done).
  rewrite len_app. unfold len. rewrite Hc.
  assert (0 < length data)%nat by (destruct data; [by destruct Hne|simpl; lia]).
  rewrite (proj2 (Z.ltb_ge _ _)) by lia.
  rewrite length_app, Hc. replace (length data + 4 - 4)%nat with (length data) by lia.
  rewrite take_app_length, drop_app_length. by rewrite bool_decide_true.
Qed.

Lemma not_all_zero (l : bytes) : Exists (fun x => x ≠ byte.of_Z 0) l ->
  exists zeros x bs, l = repeat (byte.of_Z 0) zeros ++ x :: bs /\ x ≠ byte.of_Z 0.
Proof.
  intros He. destruct (lstrip_split (byte.of_Z 0) l) as [E Hh].
  destruct (lstrip (byte.of_Z 0) l) as [|x bs] eqn:Es.
  - rewrite app_nil_r in E. rewrite E in He. apply Exists_exists in He as (y & Hy & Hne).
    apply list_elem_of_In, repeat_spec in Hy. done.
  - exists (length l - length (x :: bs))%nat, x, bs. split; [done|]. simpl in Hh. congruence.
Qed.

Lemma base58check_roundtrip data : data ≠ [] ->
  Exists (fun x => x ≠ byte.of_Z 0) data ->
  exists text, _base58check_encode data = Ok text /\ _base58check_decode text = Ok data.
Proof.
  intros Hne He.
  destruct (not_all_zero (data ++ take 4 (double_sha256 data))) as (zeros & x & bs & E & Hx).
  { apply Exists_app. by left. }
  destruct (encode_form data x bs zeros E Hx) as (ds & Henc & _ & Hok & Hz & Hv).
  exists (base58_text zeros ds). split; [done|]. by eapply decode_form.
Qed.

(** A text that decodes to data with a non-zero byte is the data's encoding. *)
Lemma base58check_canonical text data :
  _base58check_decode text = Ok data -> Exists (fun x => x ≠ byte.of_Z 0) data ->
  _base58check_encode data = Ok text.
Proof.
  unfold _base58check_decode. intros H He. apply rbind_Ok in H as (n & Hn & H).
  destruct (base58_text_form text n Hn) as (zeros & ds & -> & Hok & Hz & ->).
  apply rbind_Ok in H as (raw & Hraw & H). rewrite base58_text_strip in H by done.
  assert (length (base58_text zeros ds) - length (alphabet_char <$> ds) = zeros)%nat as Ezeros.
  { unfold base58_text. rewrite length_app, repeat_length. lia. }
  rewrite Ezeros in H. set (raw' := repeat (byte.of_Z 0) zeros ++ raw) in *. cbv zeta in H.
  destruct (len raw' <? 5) eqn:El; [done|]. destruct (negb _) eqn:Ec; [done|]. injection H as Hd. bool_prop.
  assert (Edata : data ++ take 4 (double_sha256 data) = raw').
  { rewrite <- Hd at 2. rewrite Ec, <- Hd. apply take_drop. }
  destruct (digits_value ds =? 0) eqn:E0; bool_prop.
  { injection Hraw as <-. exfalso.
    assert (Exists (fun x => x ≠ byte.of_Z 0) raw') as Hx by (rewrite <- Edata; apply Exists_app; by left).
    apply Exists_exists in Hx as (y & Hy & Hne). unfold raw' in Hy. rewrite app_nil_r in Hy.
    apply list_elem_of_In, repeat_spec in Hy. done. }
  destruct (to_bytes_of_number (digits_value ds)) as (x & bs & Hb & Hx & Hv).
  { pose proof (digits_value_bounds ds Hok). lia. }
  rewrite Hb in Hraw. injection Hraw as <-.
  destruct (encode_form data x bs zeros Edata Hx) as (ds' & -> & _ & Hok' & Hz' & Hv').
  assert (Hlt : digits_value ds < 2 ^ (Z.of_nat (base58_fuel (digits_value ds)) - 1)).
  { apply base58_fuel_enough. apply digits_value_bounds, Hok. }
  pose proof (base58_loop_digits ds _ [] Hok Hz Hlt ltac:(unfold base58_fuel; lia)) as L1.
  rewrite <- Hv, <- Hv' in L1, Hlt.
  pose proof (base58_loop_digits ds' _ [] Hok' Hz' Hlt ltac:(unfold base58_fuel; lia)) as L2.
  rewrite L1 in L2. rewrite !app_nil_r in L2. injection L2 as L2. unfold base58_text. by rewrite L2.
Qed.

(** ** Addresses *)

Lemma nonzero_head_Exists x (bs : bytes) : byte.unsigned x ≠ 0 -> Exists (fun x => x ≠ byte.of_Z 0) (x :: bs).
Proof. intros H. left. intros ->. done. Qed.

(** The first character of a legacy address after the prefix is always [C], so
    the longest-prefix rule never takes it for a CHCQ address. *)
Lemma legacy_text_head (data : bytes) text : length data = 20%nat ->
  _base58check_encode (byte.of_Z ADDRESS_VERSION :: data) = Ok text -> head text = Some 67.
Proof.
  intros Hl Henc. set (full := byte.of_Z ADDRESS_VERSION :: data) in *.
  assert (Hx : byte.of_Z ADDRESS_VERSION ≠ byte.of_Z 0) by done.
  destruct (encode_form full (byte.of_Z ADDRESS_VERSION) (data ++ take 4 (double_sha256 full)) 0 eq_refl Hx)
    as (ds & Henc' & Hne & Hok & Hz & Hv).
  rewrite Henc in Henc'. injection Henc' as ->. destruct ds as [|d ds]; [done|].
  rewrite from_bytes_big_cons in Hv. change (byte.unsigned (byte.of_Z ADDRESS_VERSION)) with 28 in Hv.
  pose proof (from_bytes_big_range (data ++ take 4 (double_sha256 full))) as Hr.
  assert (El : len (data ++ take 4 (double_sha256 full)) = 24).
  { rewrite len_app. unfold len. rewrite Hl, length_take, double_sha256_length. done. }
  rewrite El in *. pose proof (digits_value_pos d ds Hok Hz) as Hlow.
  pose proof (digits_value_bounds _ Hok) as [_ Hup]. rewrite len_cons in Hup.
  apply Forall_cons in Hok as [Hd Hok]. pose proof (digits_value_bounds ds Hok) as Hb.
  assert (Elen : len ds = 33).
  { pose proof (len_nonneg ds).
    assert (len ds < 34) by (apply (Z.pow_lt_mono_r_iff 58); lia).
    assert (33 < 1 + len ds) by (apply (Z.pow_lt_mono_r_iff 58); lia). lia. }
  rewrite digits_value_cons, Elen in *. assert (d = 11) as -> by lia. done.
Qed.

Lemma Ripemd_length data : length (hash160 data) = 20%nat.
Proof. apply Ripemd160.ripemd160_digest_length. Qed.

(** The address derived from a public key parses back to its own format, with
    the key's hash (CHC) or its scheme and commitment (CHCQ); in particular a
    legacy address is never read as a CHCQ one. *)
Theorem address_roundtrip `{CryptoBackend} (pubkey : bytes) (scheme : Z) :
  from_encoded_point pubkey = true -> 0 <= scheme <= 255 ->
  exists a q,
    public_key_to_address pubkey = Ok a /\ public_key_to_pq_address pubkey scheme = Ok q /\
    address_to_public_key_hash a = Ok (public_key_hash pubkey) /\
    address_to_pq_commitment q = Ok (scheme, pq_public_key_commitment pubkey) /\
    is_valid_address a = Ok true /\ is_valid_address q = Ok true.
Proof.
  intros Hpk Hs. unfold public_key_to_address, public_key_to_pq_address, load_public_key. rewrite Hpk. cbn [rbind].
  rewrite (proj2 (Z.ltb_ge _ _)), (proj2 (Z.ltb_ge _ _)) by lia. cbn [orb].
  set (da := byte.of_Z ADDRESS_VERSION :: public_key_hash pubkey).
  set (dq := byte.of_Z PQ_ADDRESS_VERSION :: byte.of_Z scheme :: pq_public_key_commitment pubkey).
  destruct (base58check_roundtrip da) as (ta & Ea & Da); [discriminate|apply nonzero_head_Exists; discriminate|].
  destruct (base58check_roundtrip dq) as (tq & Eq & Dq); [discriminate|apply nonzero_head_Exists; discriminate|].
  rewrite Ea, Eq. cbn [rbind]. eexists _, _. do 2 (split; [done|]).
  assert (Pa : parse_address (ADDRESS_PREFIX ++ ta) =
    Ok (mkAddressInfo legacy ADDRESS_PREFIX 0x1C 0 da (public_key_hash pubkey))).
  { unfold parse_address.
    apply legacy_text_head in Ea; [|apply Ripemd_length]. destruct ta as [|c ta]; [discriminate Ea|]. injection Ea as ->.
    change (startswith (ADDRESS_PREFIX ++ 67 :: ta) PQ_ADDRESS_PREFIX) with false.
    change (startswith (ADDRESS_PREFIX ++ 67 :: ta) ADDRESS_PREFIX) with true. cbv iota.
    change (drop (length ADDRESS_PREFIX) (ADDRESS_PREFIX ++ 67 :: ta)) with (67 :: ta). rewrite Da. cbn [rbind].
    assert (len da = 21) as -> by (unfold da; rewrite len_cons; unfold len, public_key_hash; rewrite Ripemd_length; done).
    done. }
  assert (Pq : parse_address (PQ_ADDRESS_PREFIX ++ tq) =
    Ok (mkAddressInfo pq PQ_ADDRESS_PREFIX 0x50 scheme dq (pq_public_key_commitment pubkey))).
  { unfold parse_address.
    change (startswith (PQ_ADDRESS_PREFIX ++ tq) PQ_ADDRESS_PREFIX) with true. cbv iota.
    change (drop (length PQ_ADDRESS_PREFIX) (PQ_ADDRESS_PREFIX ++ tq)) with tq. rewrite Dq. cbn [rbind].
    assert (Hc : len (pq_public_key_commitment pubkey) = 32).
    { unfold len, pq_public_key_commitment. by rewrite Sha3_256.sha3_256_digest_length. }
    assert (len dq = 34) as -> by (unfold dq; rewrite !len_cons, Hc; done).
    change (drop 2 dq) with (pq_public_key_commitment pubkey). rewrite Hc.
    change (byte_at dq 0) with 80. cbn [negb Z.eqb]. simpl.
    assert (byte_at dq 1 = scheme) as -> by (unfold byte_at; simpl; apply byte_of_Z_unsigned_id; lia). done. }
  unfold address_to_public_key_hash, address_to_pq_commitment, is_valid_address. rewrite Pa, Pq.
  cbn [rbind kind hash_or_commitment info_scheme_id]. rewrite !bool_decide_true by reflexivity.
  cbn [negb]. repeat split.
Qed.

(** An address has one spelling: two texts that parse to the same address are
    equal, so no second string pays to the same owner under another name. *)
Theorem address_text_unique (a1 a2 : str) (info : AddressInfo) :
  parse_address a1 = Ok info -> parse_address a2 = Ok info -> a1 = a2.
Proof.
  assert (Hform : forall a, parse_address a = Ok info ->
    exists text, a = prefix info ++ text /\ _base58check_encode (payload info) = Ok text).
  { intros a. unfold parse_address, startswith. intros Hp.
    assert (Hcanon : forall pre data, take (length pre) a = pre ->
      _base58check_decode (drop (length pre) a) = Ok data -> 0 < len data -> byte_at data 0 ≠ 0 ->
      exists text, a = pre ++ text /\ _base58check_encode data = Ok text).
    { intros pre data Hpre Hdec Hlen H0. exists (drop (length pre) a). split.
      - rewrite <- Hpre at 1. by rewrite take_drop.
      - apply base58check_canonical; [done|]. destruct data as [|x bs]; [unfold len in Hlen; simpl in Hlen; lia|].
        by apply nonzero_head_Exists. }
    repeat case_bool_decide; inv_ok; bool_prop; cbn [prefix payload]; apply Hcanon; try done; unfold ADDRESS_VERSION, PQ_ADDRESS_VERSION in *; lia. }
  intros (t1 & -> & E1)%Hform (t2 & -> & E2)%Hform. congruence.
Qed.

(** ** Witnesses *)

Definition demo_pubkey : bytes := demo_public 7 true.
Definition demo_address : str := match public_key_to_address demo_pubkey with Ok a => a | Raise _ => [] end.

Lemma address_roundtrip_witness :
  exists a q, public_key_to_address demo_pubkey = Ok a /\ public_key_to_pq_address demo_pubkey 10 = Ok q /\
    address_to_public_key_hash a = Ok (public_key_hash demo_pubkey) /\
    address_to_pq_commitment q = Ok (10, pq_public_key_commitment demo_pubkey) /\
    is_valid_address a = Ok true /\ is_valid_address q = Ok true.
Proof. apply (address_roundtrip demo_pubkey 10); [vm_compute; reflexivity|lia]. Defined.

Lemma address_text_unique_witness : demo_address = demo_address.
Proof.
  refine (address_text_unique demo_address demo_address
    (match parse_address demo_address with Ok i => i | Raise _ => mkAddressInfo legacy [] 0 0 [] [] end) _ _);
    vm_compute; reflexivity.
Defined.
