(* ===== verification/PqPolicy.v ===== *)
(** * Relay policy for post-quantum transactions ([pq/policy.py])

    The checks that come before any ML-DSA verification: which transactions count
    as post-quantum, what verifying one costs, and the limits a node relays
    under. *)

From S2P Require Import Prelude PyOrder PyText Params Models Serialization Crypto Addresses.

Definition CHIPCOIN_SIGNATURE_DIGEST_BYTES : Z := 32.
Definition MAX_PQ_INPUTS : Z := 16.
Definition MAX_PQ_TX_SIZE : Z := 64000.
Definition MAX_PQ_SIGOPS_PER_TX : Z := 16.
Definition MAX_PQ_SIGOPS_PER_BLOCK : Z := 256.
Definition PQ_SIGOP_COST_ML_DSA_44 : Z := 16.

Record PQPolicyLimits : Type := mkLimits {
  max_pq_signature_size : Z;
  max_pq_public_key_size : Z;
  max_pq_inputs : Z;
  max_pq_tx_size : Z;
  max_pq_sigops_per_tx : Z;
  max_pq_sigops_per_block : Z;
  pq_sigop_cost_mldsa44 : Z;
}.

Definition max_pq_signature_cost_per_tx (limits : PQPolicyLimits) : Z := max_pq_sigops_per_tx limits * pq_sigop_cost_mldsa44 limits.
Definition max_pq_signature_cost_per_block (limits : PQPolicyLimits) : Z := max_pq_sigops_per_block limits * pq_sigop_cost_mldsa44 limits.

Definition DEFAULT_PQ_POLICY_LIMITS : PQPolicyLimits :=
  mkLimits ML_DSA_44_SIGNATURE_SIZE ML_DSA_44_PUBLIC_KEY_SIZE MAX_PQ_INPUTS MAX_PQ_TX_SIZE MAX_PQ_SIGOPS_PER_TX
    MAX_PQ_SIGOPS_PER_BLOCK PQ_SIGOP_COST_ML_DSA_44.

Definition _address_kind (address : str) : res (option address_kind) :=
  try_except (let* info := parse_address address in Ok (Some (kind info))) ValueError (fun _ => Ok None).

Definition uses_pq (tx_input : TxInput) : bool := negb (sig_scheme_id tx_input =? SIG_SCHEME_LEGACY_ECDSA).

(** [any(f(x) for x in xs)] with a test that may raise *)
Fixpoint anyM {A} (f : A -> res bool) (xs : list A) : res bool :=
  match xs with
  | [] => Ok false
  | x :: xs' => let* found := f x in if found then Ok true else anyM f xs'
  end.

Definition is_pq_transaction (t : Transaction) : res bool :=
  if existsb uses_pq (inputs t) then Ok true
  else anyM (fun o => let* k := _address_kind (recipient o) in Ok (bool_decide (k = Some pq))) (outputs t).

Definition pq_sigop_count (t : Transaction) : Z :=
  len (filter (fun i => sig_scheme_id i = SIG_SCHEME_ML_DSA_44) (inputs t)).

Definition pq_signature_cost (t : Transaction) (limits : PQPolicyLimits) : Z := pq_sigop_count t * pq_sigop_cost_mldsa44 limits.

Section precheck.
Context `{CryptoBackend}.

Definition pq_error {A} (msg : string) : res A := raise PQPolicyError msg.
Definition pq_error_if (b : bool) (msg : string) : res unit := raise_if b PQPolicyError msg.

(** One turn of the loop over the inputs, with the count of post-quantum ones *)
Definition precheck_input (limits : PQPolicyLimits) (pq_inputs : Z) (tx_input : TxInput) : res Z :=
  if negb (uses_pq tx_input) then Ok pq_inputs
  else
    let n := pq_inputs + 1 in
    pq_error_if (max_pq_inputs limits <? n) "PQ transaction exceeds mempool PQ input-count policy." ;;
    pq_error_if (negb (is_known_signature_scheme (sig_scheme_id tx_input))) "PQ transaction input declares an unknown signature scheme." ;;
    let* scheme := get_signature_scheme (sig_scheme_id tx_input) in
    pq_error_if (negb (activated scheme) || negb (supports_verify scheme))
      "PQ transaction input uses a non-verification-capable signature scheme." ;;
    pq_error_if (negb (sig_scheme_id tx_input =? SIG_SCHEME_ML_DSA_44)) "PQ transaction input uses an unsupported active signature scheme." ;;
    pq_error_if (negb (len (signature tx_input) =? ML_DSA_44_SIGNATURE_SIZE)) "PQ transaction input signature has the wrong size for ML-DSA-44." ;;
    pq_error_if (negb (len (public_key tx_input) =? ML_DSA_44_PUBLIC_KEY_SIZE)) "PQ transaction input public key has the wrong size for ML-DSA-44." ;;
    pq_error_if (max_pq_signature_size limits <? len (signature tx_input)) "PQ transaction input signature exceeds policy size." ;;
    pq_error_if (max_pq_public_key_size limits <? len (public_key tx_input)) "PQ transaction input public key exceeds policy size." ;;
    Ok n.

Definition precheck_output (o : TxOutput) : res unit :=
  let* info := try_except (parse_address (recipient o)) ValueError
    (fun _ => pq_error "PQ transaction output recipient is not a valid Chipcoin address.") in
  pq_error_if (bool_decide (kind info = pq) && negb (info_scheme_id info =? SIG_SCHEME_ML_DSA_44))
    "PQ transaction output uses an unsupported CHCQ signature scheme.".

Definition enforce_pq_mempool_precheck (t : Transaction) (limits : PQPolicyLimits) : res unit :=
  let* concerned := is_pq_transaction t in
  if negb concerned then Ok tt
  else
    pq_error_if (existsb uses_pq (inputs t) && negb (version t =? PQ_TRANSACTION_VERSION)) "PQ transaction must use transaction version 2." ;;
    let* pq_sigops := foldM (precheck_input limits) 0 (inputs t) in
    pq_error_if (max_pq_sigops_per_tx limits <? pq_sigops) "PQ transaction exceeds mempool PQ sigops policy." ;;
    pq_error_if (max_pq_signature_cost_per_tx limits <? pq_signature_cost t limits) "PQ transaction exceeds mempool PQ signature-cost policy." ;;
    let* raw := serialize_transaction t in
    pq_error_if (max_pq_tx_size limits <? len raw) "PQ transaction exceeds mempool PQ size policy." ;;
    for_each precheck_output (outputs t).

(** What a transaction that passes the precheck costs to verify *)
Lemma precheck_inputs_count limits l n m :
  foldM (precheck_input limits) n l = Ok m ->
  m = n + len (filter (fun i => sig_scheme_id i = SIG_SCHEME_ML_DSA_44) l) /\
  Forall (fun i => uses_pq i = true -> sig_scheme_id i = SIG_SCHEME_ML_DSA_44 /\
    len (signature i) = ML_DSA_44_SIGNATURE_SIZE /\ len (public_key i) = ML_DSA_44_PUBLIC_KEY_SIZE) l.
Proof.
  revert n. induction l as [|i l IH]; intros n E; cbn [foldM] in E.
  - injection E as <-. split; [unfold len; simpl; lia|constructor].
  - apply rbind_Ok in E as (k & Hk & E). apply IH in E as [-> Hf]. unfold precheck_input in Hk. rewrite filter_cons.
    destruct (uses_pq i) eqn:Hu; cbn [negb] in Hk.
    + unfold pq_error_if in Hk. cbv zeta in Hk. inv_ok. bool_prop. rewrite decide_True by done. split; [|constructor; auto].
      unfold len. simpl. lia.
    + injection Hk as <-. unfold uses_pq in Hu. bool_prop. rewrite decide_False; [|by rewrite Hu]. split; [done|].
      constructor; [|done]. unfold uses_pq. rewrite Hu. done.
Qed.

(** Verification is paid for in advance: a transaction that passes the precheck has
    at most as many ML-DSA verifications as the limit per transaction, each with a
    signature and a key of the right size and no other post-quantum scheme, and is
    within the size limit when it is post-quantum at all. *)
Theorem precheck_bounds_verification (t : Transaction) (limits : PQPolicyLimits) :
  enforce_pq_mempool_precheck t limits = Ok tt -> is_pq_transaction t = Ok true ->
  pq_sigop_count t <= max_pq_sigops_per_tx limits /\
  pq_signature_cost t limits <= max_pq_signature_cost_per_tx limits /\
  Forall (fun i => uses_pq i = true -> sig_scheme_id i = SIG_SCHEME_ML_DSA_44 /\
    len (signature i) = ML_DSA_44_SIGNATURE_SIZE /\ len (public_key i) = ML_DSA_44_PUBLIC_KEY_SIZE) (inputs t) /\
  exists raw, serialize_transaction t = Ok raw /\ len raw <= max_pq_tx_size limits.
Proof.
  intros E Hpq. unfold enforce_pq_mempool_precheck in E. rewrite Hpq in E. cbn [rbind negb] in E.
  apply rbind_Ok in E as ([] & _ & E). apply rbind_Ok in E as (n & Hn & E). apply precheck_inputs_count in Hn as [-> Hf].
  apply rbind_Ok in E as ([] & Hs%raise_if_Ok & E). apply rbind_Ok in E as ([] & Hc%raise_if_Ok & E).
  apply rbind_Ok in E as (raw & Hraw & E). apply rbind_Ok in E as ([] & Hsz%raise_if_Ok & _). bool_prop.
  split; [unfold pq_sigop_count; lia|]. split; [lia|]. split; [done|]. exists raw. split; [done|lia].
Qed.
End precheck.
