(* ===== verification/Json.v ===== *)
(** * Python's [json] module and the conversions applied to its values

    [json.loads] (the strict scanner, with Python's extensions [NaN] and
    [Infinity]) and [json.dumps(value, sort_keys=True, separators=(",", ":"))]
    (ASCII output), and [int(x)], [str(x)], [bool(x)] and [x[key]] on the decoded
    values, which the settlement code uses to read attacker-supplied metadata.
    Floats are binary64 numbers rounded to nearest-even; only their shortest
    decimal representation and the [repr] of containers are left to the class
    [PyRepr].  Python's recursion limit is not modelled. *)

From S2P Require Import Prelude PyOrder PyText.

(** ** Binary64 *)

Inductive pyfloat : Type :=
| FNan
| FInf (negative : bool)
| FFin (negative : bool) (mantissa exponent : Z).

Definition round_half_even (n d : Z) : Z :=
  let q := n / d in
  let r := n mod d in
  if 2 * r <? d then q else if d <? 2 * r then q + 1 else if Z.even q then q else q + 1.

(** The float nearest to [n / d], for [0 <= n] and [0 < d]; [None] beyond the range. *)
Definition round_ratio (negative : bool) (n d : Z) : option pyfloat :=
  if n =? 0 then Some (FFin negative 0 0)
  else
    let k := Z.log2 n - Z.log2 d in
    let below := if 0 <=? k then n <? d * 2 ^ k else n * 2 ^ (- k) <? d in
    let e := Z.max ((if below then k - 1 else k) - 52) (-1074) in
    let m := if 0 <=? e then round_half_even n (d * 2 ^ e) else round_half_even (n * 2 ^ (- e)) d in
    if (0 <=? e) && (2 ^ 1024 <=? m * 2 ^ e) then None else Some (FFin negative m e).

(** [int(x)] for a float: truncation *)
Definition float_int (x : pyfloat) : res Z :=
  match x with
  | FNan => raise ValueError "cannot convert float NaN to integer"
  | FInf _ => raise OverflowError "cannot convert float infinity to integer"
  | FFin negative m e =>
      let magnitude := if 0 <=? e then m * 2 ^ e else m / 2 ^ (- e) in
      Ok (if negative then - magnitude else magnitude)
  end.

Definition float_bool (x : pyfloat) : bool :=
  match x with FFin _ m _ => negb (m =? 0) | _ => true end.

(** ** Values *)

#[local] Set Warnings "-register-all".
Inductive json : Type :=
| JNull
| JBool (v : bool)
| JInt (v : Z)
| JFloat (v : pyfloat)
| JStr (v : str)
| JList (v : list json)
| JObj (v : list (str * json)).

Class PyRepr := {
  float_repr : pyfloat -> str;
  container_repr : json -> str;
}.

Definition json_int (v : json) : res Z :=
  match v with
  | JInt n => Ok n
  | JBool x => Ok (if x then 1 else 0)
  | JStr s => py_int s
  | JFloat x => float_int x
  | JNull | JList _ | JObj _ => raise TypeError "int() argument must be a string, a bytes-like object or a real number"
  end.

Definition json_str `{PyRepr} (v : json) : str :=
  match v with
  | JStr s => s
  | JInt n => py_str_int n
  | JBool x => if x then u "True" else u "False"
  | JNull => u "None"
  | JFloat x => float_repr x
  | JList _ | JObj _ => container_repr v
  end.

Definition json_bool (v : json) : bool :=
  match v with
  | JNull => false
  | JBool x => x
  | JInt n => negb (n =? 0)
  | JFloat x => float_bool x
  | JStr s => match s with [] => false | _ => true end
  | JList l => match l with [] => false | _ => true end
  | JObj l => match l with [] => false | _ => true end
  end.

(** [item[key]] *)
Definition json_item (v : json) (key : string) : res json :=
  match v with
  | JObj d => match dict_get d (u key) with Some x => Ok x | None => raise KeyError key end
  | _ => raise TypeError "indices must be integers"
  end.

(** ** [json.loads] *)

Definition json_error {A} (msg : string) : res A := raise JSONDecodeError msg.

Definition json_space (c : Z) : bool := (c =? 32) || (c =? 9) || (c =? 10) || (c =? 13).
Fixpoint skip_ws (s : str) : str :=
  match s with
  | c :: s' => if json_space c then skip_ws s' else s
  | [] => []
  end.

Definition hex4 (a c d e : Z) : option Z :=
  match hex_value a, hex_value c, hex_value d, hex_value e with
  | Some a', Some c', Some d', Some e' => Some (((a' * 16 + c') * 16 + d') * 16 + e')
  | _, _, _, _ => None
  end.

Definition high_surrogate (c : Z) : bool := (0xD800 <=? c) && (c <=? 0xDBFF).
Definition low_surrogate (c : Z) : bool := (0xDC00 <=? c) && (c <=? 0xDFFF).
Definition join_surrogates (hi lo : Z) : Z := 0x10000 + (hi - 0xD800) * 1024 + (lo - 0xDC00).

Definition simple_escape (c : Z) : option Z :=
  if c =? 34 then Some 34 else if c =? 92 then Some 92 else if c =? 47 then Some 47
  else if c =? 98 then Some 8 else if c =? 102 then Some 12 else if c =? 110 then Some 10
  else if c =? 114 then Some 13 else if c =? 116 then Some 9 else None.

Definition push (c : Z) (r : res (str * str)) : res (str * str) :=
  let* '(t, rest) := r in Ok (c :: t, rest).

(** The text after the opening quote, up to the closing one. *)
Fixpoint scanstring (s : str) : res (str * str) :=
  match s with
  | [] => json_error "Unterminated string starting at"
  | c :: s1 =>
      if c =? 34 then Ok ([], s1)
      else if c =? 92 then
        match s1 with
        | [] => json_error "Unterminated string starting at"
        | x :: s2 =>
            if x =? 117 then
              match s2 with
              | h1 :: h2 :: h3 :: h4 :: s3 =>
                  match hex4 h1 h2 h3 h4 with
                  | None => json_error "Invalid \uXXXX escape"
                  | Some hi =>
                      match s3 with
                      | b1 :: b2 :: l1 :: l2 :: l3 :: l4 :: s4 =>
                          if high_surrogate hi && (b1 =? 92) && (b2 =? 117) then
                            match hex4 l1 l2 l3 l4 with
                            | Some lo =>
                                if low_surrogate lo then push (join_surrogates hi lo) (scanstring s4)
                                else push hi (scanstring s3)
                            | None => push hi (scanstring s3)
                            end
                          else push hi (scanstring s3)
                      | _ => push hi (scanstring s3)
                      end
                  end
              | _ => json_error "Invalid \uXXXX escape"
              end
            else match simple_escape x with
                 | Some c' => push c' (scanstring s2)
                 | None => json_error "Invalid \escape"
                 end
        end
      else if c <? 32 then json_error "Invalid control character at"
      else push c (scanstring s1)
  end.

Definition is_digit (c : Z) : bool := (48 <=? c) && (c <=? 57).
Fixpoint span_digits (s : str) : str * str :=
  match s with
  | c :: s' => if is_digit c then let '(d, r) := span_digits s' in (c :: d, r) else ([], s)
  | [] => ([], [])
  end.

Definition digits_number (ds : str) : Z := foldl (fun a c => a * 10 + (c - 48)) 0 ds.

(** [int(digits)] of a plain digit string, with the interpreter's length limit *)
Definition int_of_digits (ds : str) : res Z :=
  if max_str_digits <? len ds then raise ValueError "Exceeds the limit for integer string conversion"
  else Ok (digits_number ds).

(** The text after an expected character *)
Definition expect (c : Z) (s : str) : option str :=
  match s with
  | x :: r => if x =? c then Some r else None
  | [] => None
  end.

(** The fraction and exponent parts, when present *)
Definition parse_fraction (s : str) : str * str :=
  match expect 46 s with
  | Some s' => match span_digits s' with ([], _) => ([], s) | (ds, r) => (ds, r) end
  | None => ([], s)
  end.
Definition parse_exponent (s : str) : option Z * str :=
  match s with
  | c :: s' =>
      if (c =? 101) || (c =? 69) then
        let '(negative, s2) :=
          match expect 45 s' with
          | Some r => (true, r)
          | None => match expect 43 s' with Some r => (false, r) | None => (false, s') end
          end in
        match span_digits s2 with
        | ([], _) => (None, s)
        | (ds, r) => (Some (if negative then - digits_number ds else digits_number ds), r)
        end
      else (None, s)
  | [] => (None, s)
  end.

Definition decimal_float (negative : bool) (ds frac : str) (e : Z) : pyfloat :=
  let d := digits_number (ds ++ frac) in
  let e' := e - len frac in
  match (if 0 <=? e' then round_ratio negative (d * 10 ^ e') 1 else round_ratio negative d (10 ^ (- e'))) with
  | Some x => x
  | None => FInf negative
  end.

(** A number; [s] starts at its first digit, after the sign. *)
Definition parse_number (negative : bool) (s : str) : res (json * str) :=
  let '(ds, r) :=
    match expect 48 s with
    | Some s' => ([48], s')
    | None => span_digits s
    end in
  match ds with
  | [] => json_error "Expecting value"
  | _ =>
      let '(frac, r1) := parse_fraction r in
      let '(expo, r2) := parse_exponent r1 in
      match frac, expo with
      | [], None => let* n := int_of_digits ds in Ok (JInt (if negative then - n else n), r2)
      | _, _ => Ok (JFloat (decimal_float negative ds frac (default 0 expo)), r2)
      end
  end.

(** [s] without the prefix [pre] *)
Fixpoint strip_prefix (pre s : str) : option str :=
  match pre, s with
  | [], _ => Some s
  | p :: pre', c :: s' => if p =? c then strip_prefix pre' s' else None
  | _ :: _, [] => None
  end.

Definition parse_literal (s : str) : res (json * str) :=
  match strip_prefix (u "null") s with Some r => Ok (JNull, r) | None =>
  match strip_prefix (u "true") s with Some r => Ok (JBool true, r) | None =>
  match strip_prefix (u "false") s with Some r => Ok (JBool false, r) | None =>
  match strip_prefix (u "NaN") s with Some r => Ok (JFloat FNan, r) | None =>
  match strip_prefix (u "Infinity") s with Some r => Ok (JFloat (FInf false), r) | None =>
  match strip_prefix (u "-Infinity") s with Some r => Ok (JFloat (FInf true), r) | None =>
  match expect 45 s with
  | Some s' => parse_number true s'
  | None => parse_number false s
  end end end end end end end.

Definition make_dict (members : list (str * json)) : list (str * json) :=
  foldl (fun d kv => dict_set d kv.1 kv.2) [] members.

Fixpoint parse_value (fuel : nat) (s : str) : res (json * str) :=
  match fuel with
  | O => raise OutOfFuel "json"
  | S fuel' =>
      match expect 34 s with
      | Some s' => let* '(t, r) := scanstring s' in Ok (JStr t, r)
      | None =>
      match expect 91 s with
      | Some s' =>
          match expect 93 (skip_ws s') with
          | Some r => Ok (JList [], r)
          | None => let* '(l, r) := parse_elements fuel' (skip_ws s') in Ok (JList l, r)
          end
      | None =>
      match expect 123 s with
      | Some s' =>
          match expect 125 (skip_ws s') with
          | Some r => Ok (JObj [], r)
          | None => let* '(l, r) := parse_members fuel' (skip_ws s') in Ok (JObj (make_dict l), r)
          end
      | None => parse_literal s
      end end end
  end
(** The elements of an array, after the bracket or a comma *)
with parse_elements (fuel : nat) (s : str) : res (list json * str) :=
  match fuel with
  | O => raise OutOfFuel "json"
  | S fuel' =>
      let* '(v, r) := parse_value fuel' s in
      match expect 93 (skip_ws r) with
      | Some r' => Ok ([v], r')
      | None =>
      match expect 44 (skip_ws r) with
      | Some r' => let* '(l, r'') := parse_elements fuel' (skip_ws r') in Ok (v :: l, r'')
      | None => json_error "Expecting ',' delimiter"
      end end
  end
(** The members of an object, after the brace or a comma *)
with parse_members (fuel : nat) (s : str) : res (list (str * json) * str) :=
  match fuel with
  | O => raise OutOfFuel "json"
  | S fuel' =>
      match expect 34 s with
      | None => json_error "Expecting property name enclosed in double quotes"
      | Some s' =>
          let* '(key, r) := scanstring s' in
          match expect 58 (skip_ws r) with
          | None => json_error "Expecting ':' delimiter"
          | Some r1 =>
              let* '(v, r2) := parse_value fuel' (skip_ws r1) in
              match expect 125 (skip_ws r2) with
              | Some r' => Ok ([(key, v)], r')
              | None =>
              match expect 44 (skip_ws r2) with
              | Some r' => let* '(l, r'') := parse_members fuel' (skip_ws r') in Ok ((key, v) :: l, r'')
              | None => json_error "Expecting ',' delimiter"
              end end
          end
      end
  end.

Definition json_fuel (s : str) : nat := (2 * length s + 2)%nat.

Definition json_loads (s : str) : res json :=
  match expect 0xFEFF s with
  | Some _ => json_error "Unexpected UTF-8 BOM (decode using utf-8-sig)"
  | None =>
      let* '(v, r) := parse_value (json_fuel s) (skip_ws s) in
      match skip_ws r with
      | [] => Ok v
      | _ => json_error "Extra data"
      end
  end.

(** ** [json.dumps] *)

Definition hex4_text (c : Z) : str :=
  hex_digit (c / 4096) :: hex_digit (c / 256 mod 16) :: hex_digit (c / 16 mod 16) :: [hex_digit (c mod 16)].
Definition u_escape (c : Z) : str := 92 :: 117 :: hex4_text c.

Definition escape_char (c : Z) : str :=
  if c =? 34 then [92; 34] else if c =? 92 then [92; 92]
  else if c =? 10 then [92; 110] else if c =? 13 then [92; 114] else if c =? 9 then [92; 116]
  else if c =? 12 then [92; 102] else if c =? 8 then [92; 98]
  else if (32 <=? c) && (c <=? 126) then [c]
  else if c <? 0x10000 then u_escape c
  else u_escape (0xD800 + (c - 0x10000) / 1024) ++ u_escape (0xDC00 + (c - 0x10000) mod 1024).

Definition dump_string (s : str) : str := 34 :: concat (escape_char <$> s) ++ [34].

Fixpoint join_text (sep : str) (parts : list str) : str :=
  match parts with
  | [] => []
  | [p] => p
  | p :: parts' => p ++ sep ++ join_text sep parts'
  end.

Fixpoint json_dumps `{PyRepr} (v : json) : str :=
  match v with
  | JNull => u "null"
  | JBool x => if x then u "true" else u "false"
  | JInt n => py_str_int n
  | JFloat x => float_repr x
  | JStr s => dump_string s
  | JList l => u "[" ++ join_text (u ",") (json_dumps <$> l) ++ u "]"
  | JObj l =>
      let dumped := (fun kv => (kv.1, json_dumps kv.2)) <$> l in
      u "{" ++ join_text (u ",") ((fun kv => dump_string kv.1 ++ u ":" ++ kv.2) <$> sorted_by fst dumped) ++ u "}"
  end.

(** ** Termination *)

Lemma skip_ws_length s : (length (skip_ws s) <= length s)%nat.
Proof. induction s as [|c s IH]; simpl; [lia|]. destruct (json_space c); simpl; lia. Qed.

Lemma expect_length c s r : expect c s = Some r -> length s = S (length r).
Proof. destruct s as [|x s]; simpl; [done|]. destruct (x =? c); naive_solver. Qed.

Lemma push_Ok c r t rest : push c r = Ok (t, rest) -> exists t', r = Ok (t', rest) /\ t = c :: t'.
Proof. unfold push. intros H. inv_ok. eauto. Qed.

Lemma scanstring_shorter n : forall s t r, (length s <= n)%nat -> scanstring s = Ok (t, r) -> (length r < length s)%nat.
Proof.
  induction n as [|n IH]; intros s t r Hn H; (destruct s as [|c s]; [done|]); cbn [length] in *; [lia|].
  cbn [scanstring] in H.
  repeat (case_match; try discriminate); simplify_eq; cbn [length] in *; try lia;
  apply push_Ok in H as (t' & H & _); apply IH in H; cbn [length] in *; lia.
Qed.

Lemma span_digits_length s : (length (span_digits s).2 <= length s)%nat.
Proof.
  induction s as [|c s IH]; simpl; [lia|]. destruct (is_digit c); simpl; [|lia].
  destruct (span_digits s); simpl in *. lia.
Qed.

Lemma parse_fraction_length s : (length (parse_fraction s).2 <= length s)%nat.
Proof.
  unfold parse_fraction. destruct (expect 46 s) eqn:E; [|done]. apply expect_length in E.
  pose proof (span_digits_length l). destruct (span_digits l) as [[|d ds] r]; simpl in *; lia.
Qed.

Lemma parse_exponent_length s : (length (parse_exponent s).2 <= length s)%nat.
Proof.
  unfold parse_exponent. destruct s as [|c s]; [done|]. destruct (_ || _); [|done].
  assert (H : forall neg (s2 : str), (length s2 <= length s)%nat ->
    (length (match span_digits s2 with
       | ([], _) => (None, c :: s)
       | (ds, r) => (Some (if neg : bool then - digits_number ds else digits_number ds), r) end).2 <= length (c :: s))%nat).
  { intros neg s2 Hl. pose proof (span_digits_length s2). destruct (span_digits s2) as [[|d ds] r]; simpl in *; lia. }
  destruct (expect 45 s) eqn:E; [apply expect_length in E; apply (H true); lia|].
  destruct (expect 43 s) eqn:E'; [apply expect_length in E'; apply (H false); lia|]. by apply (H false).
Qed.

Lemma span_digits_shorter s d ds r : span_digits s = (d :: ds, r) -> (length r < length s)%nat.
Proof.
  destruct s as [|c s]; simpl; [done|]. destruct (is_digit c); [|done].
  pose proof (span_digits_length s). destruct (span_digits s). simpl in *. intros [= -> -> ->]. lia.
Qed.

Lemma parse_number_shorter neg s v r : parse_number neg s = Ok (v, r) -> (length r < length s)%nat.
Proof.
  unfold parse_number. intros H.
  assert (Hd : exists d ds r0, (match expect 48 s with Some s' => ([48], s') | None => span_digits s end) = (d :: ds, r0)
    /\ (length r0 < length s)%nat).
  { destruct (expect 48 s) eqn:E; [apply expect_length in E; eexists _, _, _; split; [done|lia]|].
    destruct (span_digits s) as [[|d ds] r0] eqn:Es; [done|]. apply span_digits_shorter in Es. eauto. }
  destruct Hd as (d & ds & r0 & Ed & Hr). rewrite Ed in H. clear Ed. pose proof (parse_fraction_length r0).
  destruct (parse_fraction r0) as [frac r1]. pose proof (parse_exponent_length r1).
  destruct (parse_exponent r1) as [expo r2]. simpl in *. destruct frac, expo; inv_ok; lia.
Qed.

Lemma strip_prefix_length pre s r : strip_prefix pre s = Some r -> (length r + length pre = length s)%nat.
Proof.
  revert s. induction pre as [|p pre IH]; intros [|c s]; simpl; try naive_solver.
  destruct (p =? c); [|done]. intros H%IH. lia.
Qed.

Lemma parse_literal_shorter s v r : parse_literal s = Ok (v, r) -> (length r < length s)%nat.
Proof.
  unfold parse_literal. intros H.
  do 6 (case_match; [match goal with E : strip_prefix _ _ = Some _ |- _ => apply strip_prefix_length in E end;
    inv_ok; cbn [length u fmap list_fmap String.list_ascii_of_string] in *; unfold u in *; simpl in *; lia|]).
  case_match; apply parse_number_shorter in H; [|done].
  match goal with E : expect _ _ = Some _ |- _ => apply expect_length in E end. lia.
Qed.

Lemma scanstring_result s t r : scanstring s = Ok (t, r) -> (length r < length s)%nat.
Proof. by apply (scanstring_shorter (length s)). Qed.

Ltac json_lengths :=
  repeat match goal with
  | E : expect _ _ = Some _ |- _ => apply expect_length in E
  | E : scanstring _ = Ok (_, _) |- _ => apply scanstring_result in E
  | E : parse_literal _ = Ok (_, _) |- _ => apply parse_literal_shorter in E
  end;
  repeat match goal with
  | H : context [length (skip_ws ?s)] |- _ =>
      lazymatch goal with
      | _ : (length (skip_ws s) <= length s)%nat |- _ => fail
      | _ => pose proof (skip_ws_length s)
      end
  | |- context [length (skip_ws ?s)] =>
      lazymatch goal with
      | _ : (length (skip_ws s) <= length s)%nat |- _ => fail
      | _ => pose proof (skip_ws_length s)
      end
  end.

Lemma parse_shorter fuel :
  (forall s v r, parse_value fuel s = Ok (v, r) -> (length r < length s)%nat) /\
  (forall s l r, parse_elements fuel s = Ok (l, r) -> (length r < length s)%nat) /\
  (forall s l r, parse_members fuel s = Ok (l, r) -> (length r < length s)%nat).
Proof.
  induction fuel as [|fuel (IHv & IHe & IHm)]; [done|]. split; [|split]; intros s v r H;
    cbn [parse_value parse_elements parse_members] in H; inv_ok;
    repeat match goal with
    | E : parse_value _ _ = Ok (_, _) |- _ => apply IHv in E
    | E : parse_elements _ _ = Ok (_, _) |- _ => apply IHe in E
    | E : parse_members _ _ = Ok (_, _) |- _ => apply IHm in E
    end; json_lengths; lia.
Qed.

Lemma scanstring_no_fuel n : forall s, (length s <= n)%nat -> no_fuel_error (scanstring s).
Proof.
  assert (Hp : forall c r, no_fuel_error r -> no_fuel_error (push c r)) by (intros; unfold push; no_fuel; auto).
  induction n as [|n IH]; intros s Hn; (destruct s as [|c s]; [intros msg; discriminate|]); cbn [length] in *; [lia|].
  cbn [scanstring]. unfold json_error. repeat case_match; subst; cbn [length] in *; no_fuel; apply Hp, IH; cbn [length]; lia.
Qed.

Lemma parse_literal_no_fuel s : no_fuel_error (parse_literal s).
Proof.
  assert (Hn : forall neg s, no_fuel_error (parse_number neg s)).
  { intros. unfold parse_number, int_of_digits, json_error. repeat case_match; no_fuel. }
  unfold parse_literal. repeat case_match; no_fuel; apply Hn.
Qed.

(** The bound on the parser's recursion is never reached: [json_loads] returns or
    raises one of Python's errors on every text. *)
Lemma parse_no_fuel fuel :
  (forall s, (2 * length s < fuel)%nat -> no_fuel_error (parse_value fuel s)) /\
  (forall s, (2 * length s + 1 < fuel)%nat -> no_fuel_error (parse_elements fuel s)) /\
  (forall s, (2 * length s + 1 < fuel)%nat -> no_fuel_error (parse_members fuel s)).
Proof.
  induction fuel as [|fuel (IHv & IHe & IHm)]; [split; [|split]; intros; lia|].
  pose proof (parse_shorter fuel) as (Sv & Se & Sm).
  split; [|split]; intros s Hs; cbn [parse_value parse_elements parse_members]; unfold json_error.
  - destruct (expect 34 s) eqn:E1.
    { apply no_fuel_error_bind; [by apply (scanstring_no_fuel _ _ (le_n _))|intros [] _; no_fuel]. }
    destruct (expect 91 s) eqn:E2.
    { destruct (expect 93 _); [no_fuel|]. apply no_fuel_error_bind; [apply IHe; json_lengths; lia|intros [] _; no_fuel]. }
    destruct (expect 123 s) eqn:E3; [|apply parse_literal_no_fuel].
    destruct (expect 125 _); [no_fuel|]. apply no_fuel_error_bind; [apply IHm; json_lengths; lia|intros [] _; no_fuel].
  - apply no_fuel_error_bind; [apply IHv; lia|]. intros [v r] Hv%Sv.
    destruct (expect 93 _); [no_fuel|]. destruct (expect 44 _) eqn:E; [|no_fuel].
    apply no_fuel_error_bind; [apply IHe; json_lengths; lia|intros [] _; no_fuel].
  - destruct (expect 34 s) eqn:E1; [|no_fuel].
    apply no_fuel_error_bind; [by apply (scanstring_no_fuel _ _ (le_n _))|]. intros [key r] Hk.
    destruct (expect 58 _) eqn:E2; [|no_fuel].
    apply no_fuel_error_bind; [apply IHv; json_lengths; lia|]. intros [v r2] Hv%Sv.
    destruct (expect 125 _); [no_fuel|]. destruct (expect 44 _) eqn:E; [|no_fuel].
    apply no_fuel_error_bind; [apply IHm; json_lengths; lia|intros [] _; no_fuel].
Qed.

Lemma json_loads_no_fuel s : no_fuel_error (json_loads s).
Proof.
  unfold json_loads, json_error. case_match; [no_fuel|]. apply no_fuel_error_bind.
  - apply parse_no_fuel. unfold json_fuel. pose proof (skip_ws_length s). lia.
  - intros [v r] _. case_match; no_fuel.
Qed.

(** ** [json.loads] inverts [json.dumps] *)

(** Scalar values of Unicode: code points without the surrogates. *)
Definition scalar (c : Z) : Prop := 0 <= c < 0x110000 /\ ~ (0xD800 <= c <= 0xDFFF).
Definition text_ok (s : str) : Prop := Forall scalar s.

Fixpoint strictly_sorted (keys : list str) : Prop :=
  match keys with
  | k1 :: ((k2 :: _) as rest) => py_leb k2 k1 = false /\ strictly_sorted rest
  | _ => True
  end.

(** Values that survive the trip: no floats, scalar text, integers within the
    conversion limit, objects listed in key order. *)
Fixpoint dumpable (v : json) : Prop :=
  match v with
  | JNull | JBool _ => True
  | JInt n => Z.abs n < 10 ^ max_str_digits
  | JFloat _ => False
  | JStr s => text_ok s
  | JList l => foldr (fun x P => dumpable x /\ P) True l
  | JObj l => foldr (fun kv P => (text_ok kv.1 /\ dumpable kv.2) /\ P) True l /\ StronglySorted (key_le fst) l /\ NoDup l.*1
  end.

Lemma hex_value_range c v : hex_value c = Some v -> 0 <= v < 16.
Proof. unfold hex_value. intros. repeat case_match; simplify_eq; bool_prop; lia. Qed.

Lemma hex4_hex4_text c : 0 <= c < 65536 ->
  hex4 (hex_digit (c / 4096)) (hex_digit (c / 256 mod 16)) (hex_digit (c / 16 mod 16)) (hex_digit (c mod 16)) = Some c.
Proof.
  intros Hc. unfold hex4.
  rewrite !hex_value_digit; try (apply Z.mod_pos_bound; lia).
  2:{ split; [apply Z.div_pos|apply Z.div_lt_upper_bound]; lia. }
  f_equal. pose proof (Z.div_mod c 16 ltac:(lia)) as E1. pose proof (Z.div_mod (c / 16) 16 ltac:(lia)) as E2.
  pose proof (Z.div_mod (c / 256) 16 ltac:(lia)) as E3. rewrite !Z.div_div in * by lia.
  change (16 * 16) with 256 in *. change (256 * 16) with 4096 in *. lia.
Qed.

Lemma scan_plain c rest : (32 <=? c) && (c <=? 126) = true -> c ≠ 34 -> c ≠ 92 ->
  scanstring (c :: rest) = push c (scanstring rest).
Proof.
  intros H H1 H2. bool_prop. cbn [scanstring].
  by rewrite (proj2 (Z.eqb_neq c 34)), (proj2 (Z.eqb_neq c 92)), (proj2 (Z.ltb_ge c 32)) by lia.
Qed.

Lemma scan_u_escape c rest : 0 <= c < 65536 -> high_surrogate c = false ->
  scanstring (u_escape c ++ rest) = push c (scanstring rest).
Proof.
  intros Hc Hh. unfold u_escape, hex4_text. cbn [app scanstring].
  change (92 =? 34) with false. change (92 =? 92) with true. change (117 =? 117) with true. cbv iota.
  rewrite hex4_hex4_text by done. rewrite Hh. cbn [andb].
  destruct rest as [|? [|? [|? [|? [|? [|? ?]]]]]]; done.
Qed.

Lemma scan_surrogate_pair c rest : 0x10000 <= c < 0x110000 ->
  scanstring (u_escape (0xD800 + (c - 0x10000) / 1024) ++ u_escape (0xDC00 + (c - 0x10000) mod 1024) ++ rest)
  = push c (scanstring rest).
Proof.
  intros Hc. pose proof (Z.div_mod (c - 0x10000) 1024 ltac:(lia)) as E.
  pose proof (Z.mod_pos_bound (c - 0x10000) 1024 ltac:(lia)).
  assert (0 <= (c - 0x10000) / 1024 < 1024) by (split; [apply Z.div_pos|apply Z.div_lt_upper_bound]; lia).
  set (hi := 0xD800 + (c - 0x10000) / 1024) in *. set (lo := 0xDC00 + (c - 0x10000) mod 1024) in *.
  unfold u_escape, hex4_text. cbn [app scanstring].
  change (92 =? 34) with false. change (92 =? 92) with true. change (117 =? 117) with true. cbv iota.
  rewrite !hex4_hex4_text by lia.
  assert (high_surrogate hi = true) as -> by (unfold high_surrogate; rewrite !(proj2 (Z.leb_le _ _)) by lia; done).
  assert (low_surrogate lo = true) as -> by (unfold low_surrogate; rewrite !(proj2 (Z.leb_le _ _)) by lia; done).
  cbn [andb]. f_equal. unfold join_surrogates. lia.
Qed.

Lemma scan_escape_char c rest : scalar c -> scanstring (escape_char c ++ rest) = push c (scanstring rest).
Proof.
  intros [Hc Hs]. unfold escape_char.
  destruct (Z.eqb_spec c 34) as [->|]; [done|]. destruct (Z.eqb_spec c 92) as [->|]; [done|].
  destruct (Z.eqb_spec c 10) as [->|]; [done|]. destruct (Z.eqb_spec c 13) as [->|]; [done|].
  destruct (Z.eqb_spec c 9) as [->|]; [done|]. destruct (Z.eqb_spec c 12) as [->|]; [done|].
  destruct (Z.eqb_spec c 8) as [->|]; [done|].
  destruct ((32 <=? c) && (c <=? 126)) eqn:E; [by apply scan_plain|].
  destruct (Z.ltb_spec c 0x10000).
  - apply scan_u_escape; [lia|]. unfold high_surrogate. apply not_true_iff_false. intros Hx. bool_prop. lia.
  - rewrite <- app_assoc. apply scan_surrogate_pair. lia.
Qed.

Lemma scan_dumped s rest : text_ok s -> scanstring (concat (escape_char <$> s) ++ 34 :: rest) = Ok (s, rest).
Proof.
  induction 1 as [|c s Hc Hs IH]; [done|]. csimpl. rewrite <- app_assoc, scan_escape_char by done.
  rewrite IH. done.
Qed.

(** Numbers *)

Lemma is_digit_true c : 48 <= c <= 57 -> is_digit c = true.
Proof. intros. unfold is_digit. by rewrite !(proj2 (Z.leb_le _ _)) by lia. Qed.

(** What follows a number in the printed text does not extend it. *)
Definition number_end (rest : str) : Prop :=
  match rest with c :: _ => is_digit c = false /\ c ≠ 46 /\ c ≠ 101 /\ c ≠ 69 | [] => True end.

Lemma span_digits_app ds rest : Forall (fun c => 48 <= c <= 57) ds -> number_end rest ->
  span_digits (ds ++ rest) = (ds, rest).
Proof.
  induction 1 as [|c ds Hc Hds IH]; intros He; simpl.
  - destruct rest as [|c rest]; [done|]. destruct He as [Hd _]. simpl. by rewrite Hd.
  - rewrite is_digit_true by done. by rewrite IH.
Qed.

Lemma number_end_fraction rest : number_end rest -> parse_fraction rest = ([], rest) /\ parse_exponent rest = (None, rest).
Proof.
  destruct rest as [|c rest]; [done|]. intros (_ & H1 & H2 & H3). unfold parse_fraction, parse_exponent. simpl.
  by rewrite (proj2 (Z.eqb_neq c 46)), (proj2 (Z.eqb_neq c 101)), (proj2 (Z.eqb_neq c 69)) by done.
Qed.

Lemma digits_number_app ds e : digits_number (ds ++ [e]) = digits_number ds * 10 + (e - 48).
Proof. unfold digits_number. by rewrite foldl_app. Qed.

Lemma digits_number_dec fuel n : 0 <= n < 2 ^ Z.of_nat fuel -> digits_number (dec_digits fuel n) = n.
Proof.
  revert n. induction fuel as [|fuel IH]; intros n Hn; simpl; [simpl in Hn; unfold digits_number; simpl; lia|].
  destruct (Z.ltb_spec n 10); [unfold digits_number; simpl; lia|].
  rewrite digits_number_app. rewrite Nat2Z.inj_succ, Z.pow_succ_r in Hn by lia.
  pose proof (Z.div_mod n 10 ltac:(lia)). pose proof (Z.mod_pos_bound n 10 ltac:(lia)).
  rewrite IH by lia. lia.
Qed.

Lemma dec_digits_head fuel n : 0 < n < 2 ^ Z.of_nat fuel -> exists d ds, dec_digits fuel n = d :: ds /\ 49 <= d <= 57.
Proof.
  revert n. induction fuel as [|fuel IH]; intros n Hn; simpl; [simpl in Hn; lia|].
  destruct (Z.ltb_spec n 10); [exists (48 + n), []; split; [done|lia]|].
  rewrite Nat2Z.inj_succ, Z.pow_succ_r in Hn by lia.
  pose proof (Z.div_mod n 10 ltac:(lia)). pose proof (Z.mod_pos_bound n 10 ltac:(lia)).
  destruct (IH (n / 10)) as (d & ds & -> & Hd); [lia|]. by exists d, (ds ++ [48 + n mod 10]).
Qed.

Lemma parse_number_dec neg n rest : 0 <= n < 10 ^ max_str_digits -> number_end rest ->
  parse_number neg (dec_digits (S (Z.to_nat (Z.log2 n))) n ++ rest) = Ok (JInt (if neg then - n else n), rest).
Proof.
  intros Hn He. destruct (number_end_fraction rest He) as [Hf Hx].
  set (fuel := S (Z.to_nat (Z.log2 n))).
  assert (Hfuel : n < 2 ^ Z.of_nat fuel).
  { unfold fuel. rewrite Nat2Z.inj_succ, Z2Nat.id by apply Z.log2_nonneg.
    destruct (Z.eq_dec n 0) as [->|]; [done|]. apply Z.log2_spec. lia. }
  assert (Hlen : len (dec_digits fuel n) <= max_str_digits) by (apply dec_digits_length; [done|unfold max_str_digits; lia]).
  assert (Hint : int_of_digits (dec_digits fuel n) = Ok n).
  { unfold int_of_digits. rewrite (proj2 (Z.ltb_ge _ _)) by done. rewrite digits_number_dec by lia. done. }
  unfold parse_number. destruct (Z.eq_dec n 0) as [->|Hpos].
  - unfold fuel. change (dec_digits (S (Z.to_nat (Z.log2 0))) 0) with [48]. cbn [app expect].
    change (48 =? 48) with true. cbv iota. rewrite Hf, Hx. by destruct neg.
  - destruct (dec_digits_head fuel n) as (d & ds & Ed & Hd); [lia|].
    pose proof (dec_digits_Forall fuel n ltac:(lia)) as Hall.
    rewrite Ed. cbn [app expect]. rewrite (proj2 (Z.eqb_neq d 48)) by lia.
    change (d :: ds ++ rest) with ((d :: ds) ++ rest). rewrite <- Ed, span_digits_app by done.
    rewrite Ed at 1. rewrite Hf, Hx, Hint. done.
Qed.

Lemma dec_digits_nonempty fuel n : dec_digits (S fuel) n ≠ [].
Proof. simpl. destruct (n <? 10); [done|]. by destruct (dec_digits fuel (n / 10)). Qed.

Lemma strip_prefix_ne p pre c s : p ≠ c -> strip_prefix (p :: pre) (c :: s) = None.
Proof. intros. simpl. by rewrite (proj2 (Z.eqb_neq p c)). Qed.

Lemma parse_literal_int n rest : Z.abs n < 10 ^ max_str_digits -> number_end rest ->
  parse_literal (py_str_int n ++ rest) = Ok (JInt n, rest).
Proof.
  intros Hn He. unfold py_str_int. destruct (Z.ltb_spec n 0).
  - pose proof (parse_number_dec true (- n) rest ltac:(lia) He) as Hp. rewrite Z.opp_involutive in Hp.
    pose proof (dec_digits_Forall (S (Z.to_nat (Z.log2 (- n)))) (- n) ltac:(lia)) as Hall.
    pose proof (dec_digits_nonempty (Z.to_nat (Z.log2 (- n))) (- n)).
    destruct (dec_digits (S (Z.to_nat (Z.log2 (- n)))) (- n)) as [|d ds]; [done|].
    apply Forall_cons in Hall as [Hd _]. cbn [app]. unfold parse_literal.
    assert (strip_prefix (u "-Infinity") (45 :: d :: ds ++ rest) = None) as ->; [|exact Hp].
    change (u "-Infinity") with (45 :: 73 :: u "nfinity"). cbn [strip_prefix]. change (45 =? 45) with true. cbv iota.
    by rewrite (proj2 (Z.eqb_neq 73 d)) by lia.
  - pose proof (parse_number_dec false n rest ltac:(lia) He) as Hp.
    pose proof (dec_digits_Forall (S (Z.to_nat (Z.log2 n))) n ltac:(lia)) as Hall.
    pose proof (dec_digits_nonempty (Z.to_nat (Z.log2 n)) n).
    destruct (dec_digits (S (Z.to_nat (Z.log2 n))) n) as [|d ds]; [done|].
    apply Forall_cons in Hall as [Hd _]. cbn [app] in *. unfold parse_literal.
    unfold u. cbn [String.list_ascii_of_string fmap list_fmap].
    rewrite !strip_prefix_ne by (vm_compute Z.of_N; lia). cbn [expect].
    rewrite (proj2 (Z.eqb_neq d 45)) by lia. exact Hp.
Qed.

(** Induction over nested values *)
Section json_induction.
Context (P : json -> Prop).
Context (HNull : P JNull) (HBool : forall x, P (JBool x)) (HInt : forall n, P (JInt n))
  (HFloat : forall x, P (JFloat x)) (HStr : forall s, P (JStr s))
  (HList : forall l, Forall P l -> P (JList l))
  (HObj : forall l, Forall (fun kv => P kv.2) l -> P (JObj l)).

Fixpoint json_nested_ind (v : json) : P v :=
  match v with
  | JNull => HNull
  | JBool x => HBool x
  | JInt n => HInt n
  | JFloat x => HFloat x
  | JStr s => HStr s
  | JList l =>
      HList l ((fix go l : Forall P l :=
        match l with [] => Forall_nil_2 P | x :: l' => Forall_cons_2 P x l' (json_nested_ind x) (go l') end) l)
  | JObj l =>
      HObj l ((fix go l : Forall (fun kv => P kv.2) l :=
        match l with
        | [] => Forall_nil_2 _
        | kv :: l' => Forall_cons_2 (fun kv => P kv.2) kv l' (json_nested_ind kv.2) (go l')
        end) l)
  end.
End json_induction.

Section roundtrip.
Context `{PyRepr}.

Lemma strip_prefix_app pre rest : strip_prefix pre (pre ++ rest) = Some rest.
Proof. induction pre as [|p pre IH]; simpl; [done|]. by rewrite Z.eqb_refl. Qed.

Lemma py_str_int_head n : exists c t, py_str_int n = c :: t /\ (c = 45 \/ 48 <= c <= 57).
Proof.
  unfold py_str_int. destruct (Z.ltb_spec n 0); [by eexists _, _; split; [done|left]|].
  pose proof (dec_digits_nonempty (Z.to_nat (Z.log2 n)) n) as Hne.
  pose proof (dec_digits_Forall (S (Z.to_nat (Z.log2 n))) n ltac:(lia)) as Hall.
  destruct (dec_digits _ n) as [|c t]; [done|]. apply Forall_cons in Hall as [Hc _]. eauto.
Qed.

(** The first character of a printed value. *)
Lemma dumps_head v : dumpable v -> exists c t, json_dumps v = c :: t /\
  c ≠ 32 /\ c ≠ 9 /\ c ≠ 10 /\ c ≠ 13 /\ c ≠ 93 /\ c ≠ 125 /\ c ≠ 0xFEFF.
Proof.
  destruct v as [|x|n|x|s|l|l]; intros Hd.
  - by eexists _, _.
  - destruct x; by eexists _, _.
  - cbn [json_dumps]. destruct (py_str_int_head n) as (c & t & -> & Hc). exists c, t. split; [done|]. lia.
  - done.
  - by eexists _, _.
  - by eexists _, _.
  - by eexists _, _.
Qed.

Lemma skip_ws_head c t : c ≠ 32 -> c ≠ 9 -> c ≠ 10 -> c ≠ 13 -> skip_ws (c :: t) = c :: t.
Proof.
  intros. simpl. unfold json_space.
  by rewrite (proj2 (Z.eqb_neq c 32)), (proj2 (Z.eqb_neq c 9)), (proj2 (Z.eqb_neq c 10)), (proj2 (Z.eqb_neq c 13)).
Qed.

Lemma skip_ws_dumps v rest : dumpable v -> skip_ws (json_dumps v ++ rest) = json_dumps v ++ rest.
Proof.
  intros Hd. destruct (dumps_head v Hd) as (c & t & -> & Hc). cbn [app]. apply skip_ws_head; tauto.
Qed.

Lemma expect_dumps x v rest : dumpable v -> x = 93 \/ x = 125 -> expect x (json_dumps v ++ rest) = None.
Proof.
  intros Hd Hx. destruct (dumps_head v Hd) as (c & t & -> & Hc). simpl.
  rewrite (proj2 (Z.eqb_neq c x)); [done|]. intros ->. naive_solver.
Qed.

Lemma expect_hit c r : expect c (c :: r) = Some r.
Proof. simpl. by rewrite Z.eqb_refl. Qed.

Definition parses (v : json) : Prop :=
  dumpable v -> forall fuel rest, (2 * length (json_dumps v) <= fuel)%nat -> number_end rest ->
  parse_value fuel (json_dumps v ++ rest) = Ok (v, rest).

Definition elements_text (l : list json) : str := join_text (u ",") (json_dumps <$> l).

Lemma elements_text_cons v l :
  elements_text (v :: l) = json_dumps v ++ match l with [] => [] | _ => 44 :: elements_text l end.
Proof. unfold elements_text. destruct l; csimpl; [by rewrite app_nil_r|done]. Qed.

Lemma parse_elements_dumped l : Forall parses l -> l ≠ [] ->
  foldr (fun x Q => dumpable x /\ Q) True l ->
  forall fuel rest, (2 * length (elements_text l) + 1 <= fuel)%nat ->
  parse_elements fuel (elements_text l ++ 93 :: rest) = Ok (l, rest).
Proof.
  induction 1 as [|v l Hv Hl IH]; intros Hne Hd fuel rest Hf; [done|]. destruct Hd as [Hdv Hdl].
  rewrite elements_text_cons in *. destruct fuel as [|fuel]; [lia|]. cbn [parse_elements].
  rewrite length_app in Hf. rewrite <- app_assoc. destruct l as [|v' l].
  - cbn [app length] in *. rewrite Hv; [|done|lia|by repeat split]. cbn [rbind].
    by rewrite skip_ws_head, expect_hit.
  - cbn [app length] in *. rewrite Hv; [|done|lia|by repeat split]. cbn [rbind].
    rewrite skip_ws_head by done. change (expect 93 (44 :: ?x)) with (@None str).
    rewrite expect_hit. destruct Hdl as [Hdv' Hdl].
    assert (Hs : skip_ws (elements_text (v' :: l) ++ 93 :: rest) = elements_text (v' :: l) ++ 93 :: rest).
    { rewrite elements_text_cons, <- app_assoc. by apply skip_ws_dumps. }
    rewrite Hs, IH; [done|done|done|lia].
Qed.

(** Objects *)

Definition member_text (kv : str * json) : str := dump_string kv.1 ++ u ":" ++ json_dumps kv.2.
Definition members_text (l : list (str * json)) : str := join_text (u ",") (member_text <$> l).

Lemma members_text_cons kv l :
  members_text (kv :: l) = member_text kv ++ match l with [] => [] | _ => 44 :: members_text l end.
Proof. unfold members_text. destruct l; csimpl; [by rewrite app_nil_r|done]. Qed.

Lemma dumped_sorted (l : list (str * json)) : StronglySorted (key_le fst) l ->
  sorted_by fst ((fun kv => (kv.1, json_dumps kv.2)) <$> l) = (fun kv => (kv.1, json_dumps kv.2)) <$> l.
Proof.
  intros Hs. apply sorted_by_id. induction Hs as [|kv l Hl IH Hkv]; [constructor|]. csimpl.
  constructor; [done|]. apply Forall_fmap. eapply Forall_impl; [exact Hkv|]. done.
Qed.

Lemma dumps_object l : StronglySorted (key_le fst) l ->
  json_dumps (JObj l) = 123 :: members_text l ++ [125].
Proof.
  intros Hs. cbn [json_dumps]. cbv zeta. rewrite dumped_sorted by done.
  unfold members_text. rewrite <- list_fmap_compose. done.
Qed.

Lemma make_dict_from (d l : list (str * json)) :
  NoDup (d ++ l).*1 -> foldl (fun d kv => dict_set d kv.1 kv.2) d l = d ++ l.
Proof.
  revert d. induction l as [|[k v] l IH]; intros d Hn; simpl; [by rewrite app_nil_r|].
  assert (Hset : dict_set d k v = d ++ [(k, v)]).
  { assert (Hk : k ∉ d.*1).
    { rewrite fmap_app in Hn. csimpl in Hn. apply NoDup_app in Hn as (_ & Hn & _).
      intros Hin. apply (Hn k Hin). left. }
    clear -Hk. induction d as [|[k' v'] d IH]; csimpl in *; [done|].
    rewrite decide_False by set_solver. rewrite IH by set_solver. done. }
  rewrite Hset, IH; rewrite <- app_assoc; done.
Qed.

Lemma make_dict_id l : NoDup l.*1 -> make_dict l = l.
Proof. intros Hn. by apply (make_dict_from []). Qed.

Lemma parse_members_dumped l : Forall (fun kv => parses kv.2) l -> l ≠ [] ->
  foldr (fun kv Q => (text_ok kv.1 /\ dumpable kv.2) /\ Q) True l ->
  forall fuel rest, (2 * length (members_text l) + 1 <= fuel)%nat ->
  parse_members fuel (members_text l ++ 125 :: rest) = Ok (l, rest).
Proof.
  induction 1 as [|[key v] l Hv Hl IH]; intros Hne Hd fuel rest Hf; [done|]. destruct Hd as [[Hk Hdv] Hdl].
  simpl in Hv, Hk, Hdv. rewrite members_text_cons in *. destruct fuel as [|fuel]; [lia|].
  unfold member_text, dump_string in *. cbn [fst snd] in *. cbn [parse_members].
  set (tail := match l with [] => [] | _ => 44 :: members_text l end) in *.
  assert (Etext : ((34 :: concat (escape_char <$> key) ++ [34]) ++ u ":" ++ json_dumps v) ++ tail =
    34 :: concat (escape_char <$> key) ++ 34 :: 58 :: json_dumps v ++ tail).
  { change (u ":") with [58]. cbn [app]. rewrite <- !app_assoc. done. }
  rewrite Etext in *. cbn [app]. rewrite expect_hit, <- app_assoc. cbn [app]. rewrite scan_dumped by done. cbn [rbind].
  rewrite skip_ws_head, expect_hit, <- app_assoc, skip_ws_dumps by done.
  cbn [length] in Hf. rewrite length_app in Hf. cbn [length] in Hf. rewrite length_app in Hf.
  destruct l as [|kv' l].
  - unfold tail. cbn [app]. rewrite Hv; [|done|unfold tail in Hf; simpl in Hf; lia|by repeat split]. cbn [rbind].
    by rewrite skip_ws_head, expect_hit.
  - unfold tail in *. cbn [app length] in *. rewrite Hv; [|done|lia|by repeat split]. cbn [rbind].
    rewrite skip_ws_head by done. change (expect 125 (44 :: ?x)) with (@None str). rewrite expect_hit.
    assert (Hs : skip_ws (members_text (kv' :: l) ++ 125 :: rest) = members_text (kv' :: l) ++ 125 :: rest).
    { rewrite members_text_cons. unfold member_text, dump_string. cbn [app]. by apply skip_ws_head. }
    rewrite Hs, IH; [done|done|done|lia].
Qed.

Lemma parse_value_other fuel s : expect 34 s = None -> expect 91 s = None -> expect 123 s = None ->
  parse_value (S fuel) s = parse_literal s.
Proof. intros H1 H2 H3. cbn [parse_value]. by rewrite H1, H2, H3. Qed.

Lemma parse_value_dumped v : parses v.
Proof.
  induction v as [|x|n|x|s|l IH|l IH] using json_nested_ind; intros Hd fuel rest Hf He;
    (destruct fuel as [|fuel]; [destruct (dumps_head _ Hd) as (c & t & E & _); rewrite E in Hf; simpl in Hf; lia|]).
  - done.
  - by destruct x.
  - cbn [json_dumps] in *. destruct (py_str_int_head n) as (c & t & E & Hc).
    rewrite parse_value_other; [by apply parse_literal_int|..]; rewrite E; simpl;
      by rewrite (proj2 (Z.eqb_neq c _)) by lia.
  - done.
  - cbn [json_dumps] in *. unfold dump_string in *. cbn [app parse_value]. rewrite expect_hit, <- app_assoc.
    cbn [app]. by rewrite scan_dumped.
  - cbn [json_dumps] in *. fold (elements_text l) in *. change (u "[") with [91] in *. change (u "]") with [93] in *.
    cbn [app parse_value] in *. change (expect 34 (91 :: ?x)) with (@None str). rewrite expect_hit, <- app_assoc. cbn [app].
    cbn [length] in Hf. rewrite length_app in Hf. cbn [length] in Hf.
    destruct l as [|v l]; [done|]. destruct Hd as [Hdv Hdl].
    assert (Hw : skip_ws (elements_text (v :: l) ++ 93 :: rest) = elements_text (v :: l) ++ 93 :: rest /\
      expect 93 (elements_text (v :: l) ++ 93 :: rest) = None).
    { rewrite elements_text_cons, <- app_assoc. split; [by apply skip_ws_dumps|by apply expect_dumps; [|left]]. }
    destruct Hw as [-> ->]. rewrite parse_elements_dumped; [done|done|done|by split|lia].
  - destruct Hd as (Hdl & Hs & Hn). rewrite dumps_object in * by done. cbn [app parse_value].
    change (expect 34 (123 :: ?x)) with (@None str). change (expect 91 (123 :: ?x)) with (@None str).
    rewrite expect_hit, <- app_assoc. cbn [app].
    cbn [length] in Hf. rewrite length_app in Hf. cbn [length] in Hf.
    destruct l as [|kv l]; [done|].
    assert (Hw : skip_ws (members_text (kv :: l) ++ 125 :: rest) = members_text (kv :: l) ++ 125 :: rest /\
      expect 125 (members_text (kv :: l) ++ 125 :: rest) = None).
    { rewrite members_text_cons. unfold member_text, dump_string. cbn [app]. split; [by apply skip_ws_head|done]. }
    destruct Hw as [-> ->]. rewrite parse_members_dumped; [|done|done|done|lia]. cbn [rbind].
    by rewrite make_dict_id.
Qed.

Lemma json_roundtrip v : dumpable v -> json_loads (json_dumps v) = Ok v.
Proof.
  intros Hd. unfold json_loads. destruct (dumps_head v Hd) as (c & t & E & Hc).
  assert (expect 0xFEFF (json_dumps v) = None) as ->.
  { rewrite E. simpl. by rewrite (proj2 (Z.eqb_neq c 0xFEFF)) by tauto. }
  pose proof (skip_ws_dumps v [] Hd) as Hs. rewrite app_nil_r in Hs. rewrite Hs.
  pose proof (parse_value_dumped v Hd (json_fuel (json_dumps v)) [] ltac:(unfold json_fuel; lia) I) as Hp.
  rewrite app_nil_r in Hp. by rewrite Hp.
Qed.

Lemma json_dumps_inj v1 v2 : dumpable v1 -> dumpable v2 -> json_dumps v1 = json_dumps v2 -> v1 = v2.
Proof.
  intros H1 H2 E. pose proof (json_roundtrip v1 H1) as R. rewrite E, json_roundtrip in R by done. congruence.
Qed.
End roundtrip.
