(* ===== verification/Settlement.v ===== *)
(** * Native epoch rewards ([consensus/epoch_settlement.py])

    Epoch seeds, the deterministic check-window and committee assignment, the
    attestation bundles and their rules, and the derivation of the reward
    settlement of an epoch from the attestations recorded for it. *)

From S2P Require Import Prelude PyOrder PyText Hashes Params Models Registry Json.

Definition REGISTER_REWARD_NODE_KIND : str := u "register_reward_node".
Definition RENEW_REWARD_NODE_KIND : str := u "renew_reward_node".
Definition REWARD_ATTESTATION_BUNDLE_KIND : str := u "reward_attestation_bundle".
Definition REWARD_SETTLE_EPOCH_KIND : str := u "reward_settle_epoch".
Definition REWARD_EPOCH_SEED_V1_DOMAIN : bytes := b "reward-epoch-v1".
Definition REWARD_EPOCH_SEED_V2_DOMAIN_PREFIX : str := u "chipcoin:reward-epoch-seed:v2".
Definition REWARD_EPOCH_SEED_V2_BLOCK_WINDOW : Z := 16.
Definition REWARD_EPOCH_SEED_V2_ACTIVATION_EPOCH : Z := 112.
Definition REWARD_EPOCH_SEED_V1_COMPAT_NETWORKS : list str := [u "devnet"; u "testnet"].

Record RewardAttestation : Type := mkAttestation {
  epoch_index : Z;
  check_window_index : Z;
  candidate_node_id : str;
  verifier_node_id : str;
  result_code : str;
  observed_sync_gap : Z;
  endpoint_commitment : str;
  concentration_key : str;
  signature_hex : str;
}.

Record RewardAttestationBundle : Type := mkBundle {
  bundle_epoch_index : Z;
  bundle_window_index : Z;
  bundle_submitter_node_id : str;
  attestations : list RewardAttestation;
}.

Record RewardSettlementEntry : Type := mkEntry {
  entry_node_id : str;
  entry_payout_address : str;
  entry_reward_chipbits : Z;
  selection_rank : Z;
  entry_concentration_key : str;
  final_confirmation_passed : bool;
}.

Record RewardSettlement : Type := mkSettlement {
  settlement_epoch_index : Z;
  epoch_start_height : Z;
  epoch_end_height : Z;
  epoch_seed_hex : str;
  policy_version : str;
  submission_mode : str;
  candidate_summary_root : str;
  verified_nodes_root : str;
  rewarded_nodes_root : str;
  rewarded_node_count : Z;
  distributed_node_reward_chipbits : Z;
  undistributed_node_reward_chipbits : Z;
  reward_entries : list RewardSettlementEntry;
}.

#[global] Instance RewardAttestation_eq_dec : EqDecision RewardAttestation.
Proof. solve_decision. Defined.
#[global] Instance RewardSettlementEntry_eq_dec : EqDecision RewardSettlementEntry.
Proof. solve_decision. Defined.
#[global] Instance RewardSettlement_eq_dec : EqDecision RewardSettlement.
Proof. solve_decision. Defined.

(** ** Epoch seeds *)

Definition negative_epoch {A} : res A := raise ValueError "epoch_index cannot be negative".

Definition epoch_seed (previous_epoch_closing_block_hash : str) (epoch : Z) : res bytes :=
  if negb (len previous_epoch_closing_block_hash =? 64) then
    raise ValueError "previous_epoch_closing_block_hash must be 32 bytes hex"
  else if epoch <? 0 then negative_epoch
  else
    let* hash := fromhex previous_epoch_closing_block_hash in
    let* index := to_bytes_big 8 epoch in
    Ok (double_sha256 (hash ++ index ++ REWARD_EPOCH_SEED_V1_DOMAIN)).

Definition reward_epoch_seed_version (network : str) (epoch : Z) : res Z :=
  if epoch <? 0 then negative_epoch
  else if bool_decide (network ∈ REWARD_EPOCH_SEED_V1_COMPAT_NETWORKS)
          && (epoch <? REWARD_EPOCH_SEED_V2_ACTIVATION_EPOCH) then Ok 1
  else Ok 2.

Definition reward_epoch_seed_v2 (previous_epoch_block_hashes : list str) (epoch : Z) (network : str) : res bytes :=
  if epoch <? 0 then negative_epoch
  else if bool_decide (network = []) then raise ValueError "network cannot be empty"
  else if bool_decide (previous_epoch_block_hashes = []) then
    raise ValueError "previous_epoch_block_hashes cannot be empty"
  else
    let* block_hash_bytes := mapM (fun block_hash =>
        if negb (len block_hash =? 64) then
          raise ValueError "previous_epoch_block_hashes entries must be 32 bytes hex"
        else fromhex block_hash) previous_epoch_block_hashes in
    let* domain := utf8_encode (REWARD_EPOCH_SEED_V2_DOMAIN_PREFIX ++ u ":" ++ network) in
    let* index := to_bytes_big 8 epoch in
    let* count := to_bytes_big 2 (len block_hash_bytes) in
    Ok (double_sha256 (domain ++ [byte.of_Z 0] ++ index ++ count ++ concat block_hash_bytes)).

Definition reward_epoch_seed (previous_epoch_closing_block_hash : str) (previous_epoch_block_hashes : list str)
    (epoch : Z) (network : str) : res bytes :=
  let* v := reward_epoch_seed_version network epoch in
  if v =? 1 then epoch_seed previous_epoch_closing_block_hash epoch
  else reward_epoch_seed_v2 previous_epoch_block_hashes epoch network.

Definition epoch_close_height (epoch : Z) (params : ConsensusParams) : res Z :=
  if epoch <? 0 then negative_epoch
  else Ok ((epoch + 1) * epoch_length_blocks params - 1).

(** ** Deterministic assignment *)

(** [xs[:n]] *)
Definition slice_to {A} (n : Z) (xs : list A) : list A :=
  if n <? 0 then take (length xs - Z.to_nat (- n)) xs else take (Z.to_nat n) xs.

Definition _score_bytes (seed : bytes) (text : str) : res bytes :=
  let* encoded := utf8_encode text in Ok (double_sha256 (seed ++ encoded)).

Definition bar : str := u "|".

Definition candidate_check_windows (i : str) (seed : bytes) (params : ConsensusParams) : res (list Z) :=
  if reward_check_windows_per_epoch params <? reward_target_checks_per_epoch params then
    raise ValueError "reward_target_checks_per_epoch cannot exceed reward_check_windows_per_epoch"
  else
    let* scored := mapM (fun window_index =>
        let* score := _score_bytes seed (u "candidate-window|" ++ py_str_int window_index ++ bar ++ i) in
        Ok (score, window_index)) (zrange (reward_check_windows_per_epoch params)) in
    Ok (py_sorted (snd <$> slice_to (reward_target_checks_per_epoch params) (py_sorted scored))).

Definition verifier_committee (candidate : str) (active_verifier_node_ids : list str) (window : Z)
    (seed : bytes) (params : ConsensusParams) : res (list str) :=
  if (window <? 0) || (reward_check_windows_per_epoch params <=? window) then
    raise ValueError "check_window_index out of range"
  else
    let* scored := mapM (fun verifier =>
        let* score := _score_bytes seed (u "verifier|" ++ py_str_int window ++ bar ++ candidate ++ bar ++ verifier) in
        Ok (score, verifier)) (filter (fun verifier => verifier ≠ candidate) active_verifier_node_ids) in
    Ok (snd <$> slice_to (reward_verifier_committee_size params) (py_sorted scored)).

(** ** Attestation bundles *)

Definition identity : Type := Z * Z * str * str.

Definition attestation_identity (a : RewardAttestation) : identity :=
  (epoch_index a, check_window_index a, candidate_node_id a, verifier_node_id a).

(** The loop over [seen] and [duplicates] *)
Definition duplicates_step (s : gset identity * gset identity) (a : RewardAttestation) : gset identity * gset identity :=
  let '(seen, duplicates) := s in
  let key := attestation_identity a in
  ({[key]} ∪ seen, if bool_decide (key ∈ seen) then {[key]} ∪ duplicates else duplicates).

Definition attestation_bundle_duplicates (bundle : RewardAttestationBundle) : gset identity :=
  (foldl duplicates_step (∅, ∅) (attestations bundle)).2.

Definition count_step (counts : gmap (Z * str) Z) (a : RewardAttestation) : gmap (Z * str) Z :=
  let key := (check_window_index a, verifier_node_id a) in
  <[key := default 0 (counts !! key) + 1]> counts.

Definition verifier_emission_counts (bundle : RewardAttestationBundle) : gmap (Z * str) Z :=
  foldl count_step ∅ (attestations bundle).

Definition bundle_rule_violations (bundle : RewardAttestationBundle) (params : ConsensusParams) : list string :=
  (if max_attestations_per_bundle params <? len (attestations bundle) then ["too_many_attestations"%string] else [])
  ++ (if negb (bool_decide (attestation_bundle_duplicates bundle = ∅)) then ["duplicate_attestation"%string] else [])
  ++ (if existsb (fun kv => max_attestations_per_verifier_per_window params <? kv.2)
                 (map_to_list (verifier_emission_counts bundle)) then ["verifier_over_emission"%string] else []).

Section json_payloads.
Context `{PyRepr}.

Definition attestation_json (a : RewardAttestation) : json := JObj [
  (u "candidate_node_id", JStr (candidate_node_id a));
  (u "check_window_index", JInt (check_window_index a));
  (u "concentration_key", JStr (concentration_key a));
  (u "endpoint_commitment", JStr (endpoint_commitment a));
  (u "epoch_index", JInt (epoch_index a));
  (u "observed_sync_gap", JInt (observed_sync_gap a));
  (u "result_code", JStr (result_code a));
  (u "verifier_node_id", JStr (verifier_node_id a))].

Definition reward_attestation_signature_digest (a : RewardAttestation) : res bytes :=
  let* encoded := utf8_encode (json_dumps (attestation_json a)) in Ok (double_sha256 encoded).

(** [if key not in metadata or metadata[key] == "": raise] for each key *)
Definition require_keys (m : gmap str str) (keys : list string) : res unit :=
  for_each (fun key => raise_if (bool_decide (md_get_or m key [] = [])) ValueError ("must declare " ++ key)) keys.

Definition md_int (m : gmap str str) (key : string) : res Z := let* text := md_index m key in py_int text.

Definition item_int (item : json) (key : string) : res Z := let* v := json_item item key in json_int v.
Definition item_str (item : json) (key : string) : res str := let* v := json_item item key in Ok (json_str v).

Definition parse_attestation (item : json) : res RewardAttestation :=
  let* epoch := item_int item "epoch_index" in
  let* window := item_int item "check_window_index" in
  let* candidate := item_str item "candidate_node_id" in
  let* verifier := item_str item "verifier_node_id" in
  let* code := item_str item "result_code" in
  let* gap := item_int item "observed_sync_gap" in
  let* commitment := item_str item "endpoint_commitment" in
  let* concentration := item_str item "concentration_key" in
  let* sig := item_str item "signature_hex" in
  Ok (mkAttestation epoch window candidate verifier code gap commitment concentration sig).

Definition parse_reward_attestation_bundle_metadata (m : gmap str str) : res RewardAttestationBundle :=
  require_keys m ["epoch_index"; "bundle_window_index"; "bundle_submitter_node_id"; "attestation_count"; "attestations_json"]%string ;;
  let* text := md_index m "attestations_json" in
  let* raw := json_loads text in
  match raw with
  | JList items =>
      let* parsed := mapM parse_attestation items in
      let* count := md_int m "attestation_count" in
      raise_if (negb (count =? len parsed)) ValueError
        "reward_attestation_bundle attestation_count does not match attestations_json length." ;;
      let* epoch := md_int m "epoch_index" in
      let* window := md_int m "bundle_window_index" in
      let* submitter := md_index m "bundle_submitter_node_id" in
      Ok (mkBundle epoch window submitter parsed)
  | _ => raise ValueError "reward_attestation_bundle attestations_json must be a JSON array."
  end.

Definition parse_entry (item : json) : res RewardSettlementEntry :=
  let* i := item_str item "node_id" in
  let* payout := item_str item "payout_address" in
  let* reward := item_int item "reward_chipbits" in
  let* rank := item_int item "selection_rank" in
  let* concentration := item_str item "concentration_key" in
  let* confirmed := json_item item "final_confirmation_passed" in
  Ok (mkEntry i payout reward rank concentration (json_bool confirmed)).

Definition settlement_keys : list string :=
  ["epoch_index"; "epoch_start_height"; "epoch_end_height"; "epoch_seed"; "policy_version"; "candidate_summary_root";
   "verified_nodes_root"; "rewarded_nodes_root"; "rewarded_node_count"; "distributed_node_reward_chipbits";
   "undistributed_node_reward_chipbits"; "reward_entries_json"]%string.

Definition parse_reward_settlement_metadata (m : gmap str str) : res RewardSettlement :=
  require_keys m settlement_keys ;;
  let* text := md_index m "reward_entries_json" in
  let* raw := json_loads text in
  match raw with
  | JList items =>
      let* entries := mapM parse_entry items in
      let* epoch := md_int m "epoch_index" in
      let* first := md_int m "epoch_start_height" in
      let* last := md_int m "epoch_end_height" in
      let* seed_hex := md_index m "epoch_seed" in
      let* policy := md_index m "policy_version" in
      let mode := md_get_or m "submission_mode" (u "manual") in
      let* summary := md_index m "candidate_summary_root" in
      let* verified := md_index m "verified_nodes_root" in
      let* rewarded := md_index m "rewarded_nodes_root" in
      let* count := md_int m "rewarded_node_count" in
      let* distributed := md_int m "distributed_node_reward_chipbits" in
      let* undistributed := md_int m "undistributed_node_reward_chipbits" in
      Ok (mkSettlement epoch first last seed_hex policy mode summary verified rewarded count distributed undistributed entries)
  | _ => raise ValueError "reward_settle_epoch reward_entries_json must be a JSON array."
  end.

(** The dictionary is printed in key order, so it is listed in key order here. *)
Definition entry_json (e : RewardSettlementEntry) : json := JObj [
  (u "concentration_key", JStr (entry_concentration_key e));
  (u "final_confirmation_passed", JBool (final_confirmation_passed e));
  (u "node_id", JStr (entry_node_id e));
  (u "payout_address", JStr (entry_payout_address e));
  (u "reward_chipbits", JInt (entry_reward_chipbits e));
  (u "selection_rank", JInt (selection_rank e))].

Definition reward_settlement_metadata (s : RewardSettlement) : gmap str str := list_to_map [
  (u "kind", REWARD_SETTLE_EPOCH_KIND);
  (u "epoch_index", py_str_int (settlement_epoch_index s));
  (u "epoch_start_height", py_str_int (epoch_start_height s));
  (u "epoch_end_height", py_str_int (epoch_end_height s));
  (u "epoch_seed", epoch_seed_hex s);
  (u "policy_version", policy_version s);
  (u "submission_mode", submission_mode s);
  (u "candidate_summary_root", candidate_summary_root s);
  (u "verified_nodes_root", verified_nodes_root s);
  (u "rewarded_nodes_root", rewarded_nodes_root s);
  (u "rewarded_node_count", py_str_int (rewarded_node_count s));
  (u "distributed_node_reward_chipbits", py_str_int (distributed_node_reward_chipbits s));
  (u "undistributed_node_reward_chipbits", py_str_int (undistributed_node_reward_chipbits s));
  (u "reward_entries_json", json_dumps (JList (entry_json <$> reward_entries s)))].

Definition build_reward_settlement_transaction (s : RewardSettlement) : Transaction :=
  mkTransaction 1 [] [] 0 (reward_settlement_metadata s).
End json_payloads.

(** ** The tie-break key *)

(** Rounding of a positive or negative number to 53 significant bits. *)
Definition round_to_53 (n : Z) : Z :=
  let a := Z.abs n in
  if a <? 2 ^ 53 then n
  else
    let e := Z.log2 a - 52 in
    Z.sgn n * (round_half_even a (2 ^ e) * 2 ^ e).

(** [float(median(gaps))], a float of which twice the value is returned: the
    median of integers is a multiple of one half, and converting it (or, for an
    even count, dividing by two) rounds to binary64 and raises beyond its range. *)
Definition float_median_twice (gaps : list Z) : res Z :=
  let sorted := py_sorted gaps in
  let n := length gaps in
  let twice :=
    if Nat.odd n then 2 * nth (n / 2) sorted 0
    else nth (n / 2 - 1) sorted 0 + nth (n / 2) sorted 0 in
  let rounded := round_to_53 twice in
  if 2 ^ 1025 <=? Z.abs rounded then raise OverflowError "int too large to convert to float"
  else Ok rounded.

(** A median gap: [(0, 2 * x)] for a finite [x], [(1, 0)] for infinity. *)
Definition gap_key : Type := Z * Z.
Definition tiebreak : Type := Z * gap_key * bytes.

Definition concentration_tiebreak_key (i payout : str) (passed_check_count : Z)
    (observed_sync_gaps : list Z) (seed : bytes) : res tiebreak :=
  if passed_check_count <? 0 then raise ValueError "passed_check_count cannot be negative"
  else
    let* median_gap :=
      match observed_sync_gaps with
      | [] => Ok (1, 0)
      | _ => let* m := float_median_twice observed_sync_gaps in Ok (0, m)
      end in
    let* hash_rank := _score_bytes seed (u "concentration-rank|" ++ i ++ bar ++ payout) in
    Ok (- passed_check_count, median_gap, hash_rank).

(** ** Evaluation of one candidate *)

(** [grouped.setdefault(key, []).append(attestation)] over all attestations *)
Definition group_step (grouped : list ((str * Z) * list RewardAttestation)) (a : RewardAttestation) :
    list ((str * Z) * list RewardAttestation) :=
  let key := (candidate_node_id a, check_window_index a) in
  dict_set grouped key (default [] (dict_get grouped key) ++ [a]).
Definition group_attestations (atts : list RewardAttestation) : list ((str * Z) * list RewardAttestation) :=
  foldl group_step [] atts.

Record FailedWindow : Type := mkFailedWindow {
  failed_window_index : Z;
  failed_committee : list str;
  valid_pass_count : Z;
  required_quorum : Z;
  attestation_count : Z;
  failure_reason : string;
}.

(** An attestation counts for a window when it reports a pass within the sync tolerance. *)
Definition valid_pass (params : ConsensusParams) (a : RewardAttestation) : bool :=
  bool_decide (result_code a = u "pass") && negb (reward_sync_lag_tolerance_blocks params <? observed_sync_gap a).

(** [passed_by_verifier.setdefault(...)] and the failing counter *)
Definition tally_step (params : ConsensusParams) (s : list (str * RewardAttestation) * Z) (a : RewardAttestation) :
    list (str * RewardAttestation) * Z :=
  let '(passed_by_verifier, failing) := s in
  if valid_pass params a then
    (match dict_get passed_by_verifier (verifier_node_id a) with
     | Some _ => passed_by_verifier
     | None => dict_set passed_by_verifier (verifier_node_id a) a
     end, failing)
  else (passed_by_verifier, failing + 1).

Record WindowResult : Type := mkWindowResult {
  window_passed : bool;
  window_gaps : list Z;
  window_failure : FailedWindow;
}.

Definition evaluate_window (grouped : list ((str * Z) * list RewardAttestation)) (i : str) (active_ids : list str)
    (window : Z) (seed : bytes) (params : ConsensusParams) : res WindowResult :=
  let* committee := verifier_committee i active_ids window seed params in
  let window_attestations :=
    filter (fun a => verifier_node_id a ∈ committee) (default [] (dict_get grouped (i, window))) in
  let effective_quorum := Z.min (reward_verifier_quorum params) (Z.of_nat (size (list_to_set committee : gset str))) in
  let '(passed_by_verifier, failing) := foldl (tally_step params) ([], 0) window_attestations in
  let valid_count := len passed_by_verifier in
  let reason :=
    if (0 <? failing) && (valid_count =? 0) then "no_valid_pass_quorum"%string
    else if effective_quorum =? 0 then "empty_committee"%string
    else if (0 <? valid_count) && (valid_count <? effective_quorum) then "insufficient_quorum"%string
    else "missing_attestations"%string in
  Ok (mkWindowResult ((0 <? effective_quorum) && (effective_quorum <=? valid_count))
       (observed_sync_gap <$> passed_by_verifier.*2)
       (mkFailedWindow window committee valid_count effective_quorum (len window_attestations) reason)).

Record Evaluation : Type := mkEvaluation {
  passed_windows : Z;
  passed_window_indexes : list Z;
  observed_sync_gaps : list Z;
  final_confirmed : bool;
  failed_windows : list FailedWindow;
}.

Definition window_step (grouped : list ((str * Z) * list RewardAttestation)) (i : str) (active_ids : list str)
    (final_window : option Z) (seed : bytes) (params : ConsensusParams) (e : Evaluation) (window : Z) : res Evaluation :=
  let* r := evaluate_window grouped i active_ids window seed params in
  if window_passed r then
    Ok (mkEvaluation (passed_windows e + 1) (passed_window_indexes e ++ [window]) (observed_sync_gaps e ++ window_gaps r)
          (final_confirmed e || bool_decide (final_window = Some window)) (failed_windows e))
  else
    Ok (mkEvaluation (passed_windows e) (passed_window_indexes e) (observed_sync_gaps e) (final_confirmed e)
          (failed_windows e ++ [window_failure r])).

(** The first non-empty concentration key attested for the node *)
Fixpoint node_concentration_key (i : str) (atts : list RewardAttestation) : str :=
  match atts with
  | [] => u "unscoped:" ++ i
  | a :: atts' =>
      if bool_decide (candidate_node_id a = i) && negb (bool_decide (concentration_key a = []))
      then concentration_key a else node_concentration_key i atts'
  end.

Inductive report_status : Set := Qualified | NotRewarded | Excluded | Rewarded.

Record NodeReport : Type := mkReport {
  report_node_id : str;
  report_payout_address : str;
  report_assigned_windows : list Z;
  report_final_window : option Z;
  report_evaluation : Evaluation;
  report_concentration_key : str;
  status : report_status;
  not_rewarded_reason : option string;
  report_selection_rank : option Z;
  report_reward_chipbits : option Z;
}.

(** A qualified node: its record, passed windows, observed gaps and concentration key. *)
Abbreviation qualified_node := (NodeRecord * Z * list Z * str)%type.

Definition is_qualified (params : ConsensusParams) (e : Evaluation) : bool :=
  (reward_min_passed_checks_per_epoch params <=? passed_windows e) && final_confirmed e.

Definition evaluate_node (grouped : list ((str * Z) * list RewardAttestation)) (atts : list RewardAttestation)
    (active_ids : list str) (seed : bytes) (params : ConsensusParams) (item : str * NodeRecord) :
    res (NodeReport * list qualified_node) :=
  let '(i, record) := item in
  let* assigned := candidate_check_windows i seed params in
  let final_window := last assigned in
  let* e := foldM (window_step grouped i active_ids final_window seed params)
                  (mkEvaluation 0 [] [] false []) assigned in
  let concentration := node_concentration_key i atts in
  let qualifies := is_qualified params e in
  let report := mkReport (node_id record) (payout_address record) assigned final_window e concentration
    (if qualifies then Qualified else NotRewarded)
    (if qualifies then None
     else Some (if reward_min_passed_checks_per_epoch params <=? passed_windows e
                then "final_confirmation_missing"%string else "insufficient_passed_windows"%string))
    None None in
  Ok (report, if qualifies then [(record, passed_windows e, observed_sync_gaps e, concentration)] else []).

(** ** Ranking, concentration and the split *)

Definition rank_key (seed : bytes) (q : qualified_node) : res (tiebreak * str * str) :=
  let '(record, passed, gaps, _) := q in
  let* key := concentration_tiebreak_key (node_id record) (payout_address record) passed gaps seed in
  Ok (key, node_id record, payout_address record).

(** [sorted(entries, key=...)]: the keys are computed first, then the items sorted. *)
Definition rank_nodes (seed : bytes) (qs : list qualified_node) : res (list qualified_node) :=
  let* keyed := mapM (fun q => let* k := rank_key seed q in Ok (k, q)) qs in
  Ok (snd <$> sorted_by fst keyed).

Definition by_concentration_step (d : list (str * list qualified_node)) (q : qualified_node) : list (str * list qualified_node) :=
  dict_set d q.2 (default [] (dict_get d q.2) ++ [q]).

Record Exclusion : Type := mkExclusion {
  exclusion_concentration_key : str;
  winner_node_id : str;
  excluded_node_id : str;
}.

(** The loops that overwrite the status of the reports of one node *)
Definition mark (i : str) (f : NodeReport -> NodeReport) (reports : list NodeReport) : list NodeReport :=
  (fun r => if bool_decide (report_node_id r = i) then f r else r) <$> reports.
Definition set_excluded (reason : string) (r : NodeReport) : NodeReport :=
  mkReport (report_node_id r) (report_payout_address r) (report_assigned_windows r) (report_final_window r)
    (report_evaluation r) (report_concentration_key r) Excluded (Some reason) (report_selection_rank r) (report_reward_chipbits r).
Definition set_rewarded (e : RewardSettlementEntry) (r : NodeReport) : NodeReport :=
  mkReport (report_node_id r) (report_payout_address r) (report_assigned_windows r) (report_final_window r)
    (report_evaluation r) (report_concentration_key r) Rewarded (not_rewarded_reason r)
    (Some (selection_rank e)) (Some (entry_reward_chipbits e)).

Definition q_node_id (q : qualified_node) : str := node_id q.1.1.1.

Record Resolution : Type := mkResolution {
  resolved : list qualified_node;
  exclusions : list Exclusion;
  reports : list NodeReport;
}.

Definition resolve_group (seed : bytes) (s : Resolution) (group : str * list qualified_node) : res Resolution :=
  let '(key, members) := group in
  let* ranked := rank_nodes seed members in
  match ranked with
  | [] => raise IndexError "list index out of range"
  | winner :: losers =>
      Ok (mkResolution (resolved s ++ [(winner.1, key)])
            (exclusions s ++ ((fun l => mkExclusion key (q_node_id winner) (q_node_id l)) <$> losers))
            (foldl (fun rs l => mark (q_node_id l) (set_excluded "anti_concentration") rs) (reports s) losers))
  end.

Record Analysis : Type := mkAnalysis {
  analysis_entries : list RewardSettlementEntry;
  node_evaluations : list NodeReport;
  concentration_exclusions : list Exclusion;
  eligible_ranking : list (Z * str * str * Z * str);
}.

(** [base + (1 if index < remainder else 0)] for each recipient *)
Definition split_reward (total count index : Z) : Z :=
  total / count + (if index <? total mod count then 1 else 0).

Definition make_entries (distributed : Z) (ordered : list qualified_node) : list RewardSettlementEntry :=
  (fun '(index, q) =>
     mkEntry (node_id q.1.1.1) (payout_address q.1.1.1)
       (split_reward distributed (len ordered) index) index q.2 true) <$> enumerate ordered.

Definition rank_rows (ordered : list qualified_node) : list (Z * str * str * Z * str) :=
  (fun '(index, q) => (index, node_id q.1.1.1, payout_address q.1.1.1, q.1.1.2, q.2)) <$> enumerate ordered.

Definition analyze_reward_settlement (active_records_by_id : list (str * NodeRecord)) (seed : bytes)
    (atts : list RewardAttestation) (distributed_reward_chipbits : Z) (params : ConsensusParams) : res Analysis :=
  let grouped := group_attestations atts in
  let active_ids := py_sorted active_records_by_id.*1 in
  let* evaluated := mapM (evaluate_node grouped atts active_ids seed params) (sorted_by fst active_records_by_id) in
  let node_reports := evaluated.*1 in
  let qualified := concat evaluated.*2 in
  let by_concentration := foldl by_concentration_step [] qualified in
  let* s := foldM (resolve_group seed) (mkResolution [] [] node_reports) (sorted_by fst by_concentration) in
  let* ranking := rank_nodes seed (resolved s) in
  let capped := max_rewarded_nodes_per_epoch params <? len ranking in
  let dropped := if capped then drop (length (slice_to (max_rewarded_nodes_per_epoch params) ranking)) ranking else [] in
  let reports' := foldl (fun rs q => mark (q_node_id q) (set_excluded "reward_cap") rs) (reports s) dropped in
  let ordered := if capped then slice_to (max_rewarded_nodes_per_epoch params) ranking else ranking in
  if (len ordered =? 0) || (distributed_reward_chipbits <=? 0) then
    Ok (mkAnalysis [] reports' (exclusions s) [])
  else
    let entries := make_entries distributed_reward_chipbits ordered in
    let reports'' := foldl (fun rs e => mark (entry_node_id e) (set_rewarded e) rs) reports' entries in
    Ok (mkAnalysis entries reports'' (exclusions s) (rank_rows ordered)).

Definition derive_reward_settlement_entries (active_records_by_id : list (str * NodeRecord)) (seed : bytes)
    (atts : list RewardAttestation) (distributed_reward_chipbits : Z) (params : ConsensusParams) :
    res (list RewardSettlementEntry) :=
  let* analysis := analyze_reward_settlement active_records_by_id seed atts distributed_reward_chipbits params in
  Ok (analysis_entries analysis).

(** ** Roots and the settlement payload *)

Section roots.
Context `{PyRepr}.

Definition summary_key (a : RewardAttestation) : str * Z * str * str :=
  (candidate_node_id a, check_window_index a, verifier_node_id a, result_code a).

Definition reward_entries_roots (epoch : Z) (seed : bytes) (atts : list RewardAttestation)
    (entries : list RewardSettlementEntry) : res (str * str * str) :=
  let* summary := utf8_encode (json_dumps (JList ((fun a =>
      JList [JStr (candidate_node_id a); JInt (check_window_index a); JStr (verifier_node_id a); JStr (result_code a)])
      <$> sorted_by summary_key atts))) in
  let* index := to_bytes_big 8 epoch in
  let* verified := utf8_encode (json_dumps (JList ((fun e => JStr (entry_node_id e)) <$> entries))) in
  let* rewarded := utf8_encode (json_dumps (JList ((fun e =>
      JList [JStr (entry_node_id e); JStr (entry_payout_address e); JInt (entry_reward_chipbits e); JInt (selection_rank e)])
      <$> entries))) in
  Ok (hex (double_sha256 (summary ++ seed ++ index)),
      hex (double_sha256 (verified ++ seed ++ b "verified")),
      hex (double_sha256 (rewarded ++ seed ++ b "rewarded"))).

Definition build_reward_settlement (epoch : Z) (seed_hex : str) (first last : Z) (policy mode : str)
    (active_records_by_id : list (str * NodeRecord)) (atts : list RewardAttestation)
    (distributed_reward_chipbits : Z) (params : ConsensusParams) : res RewardSettlement :=
  let* seed := fromhex seed_hex in
  let* entries := derive_reward_settlement_entries active_records_by_id seed atts distributed_reward_chipbits params in
  let distributed := zsum (entry_reward_chipbits <$> entries) in
  let undistributed := distributed_reward_chipbits - distributed in
  let* '(summary, verified, rewarded) := reward_entries_roots epoch seed atts entries in
  Ok (mkSettlement epoch first last seed_hex policy mode summary verified rewarded
        (len entries) distributed undistributed entries).
End roots.

(** ** Equal split *)

Lemma split_prefix_sum total count n : 0 <= n ->
  zsum (split_reward total count <$> zrange n) = n * (total / count) + Z.min n (Z.max 0 (total mod count)).
Proof.
  revert n. refine (natlike_ind _ _ _); [unfold zsum; simpl; lia|]. intros n Hn IH.
  unfold Z.succ. rewrite zrange_succ, fmap_app, zsum_app, IH by done. csimpl. unfold zsum. simpl.
  unfold split_reward. destruct (Z.ltb_spec n (total mod count)); lia.
Qed.

(** The parts of an equal split add up to the whole. *)
Lemma split_sum total count : 0 < count -> zsum (split_reward total count <$> zrange count) = total.
Proof.
  intros Hc. rewrite split_prefix_sum by lia. pose proof (Z.mod_pos_bound total count Hc).
  pose proof (Z.div_mod total count). lia.
Qed.

Lemma split_bounds total count index : 0 < count -> 0 <= total ->
  total / count <= split_reward total count index <= total / count + 1 /\ 0 <= split_reward total count index.
Proof.
  intros Hc Ht. assert (0 <= total / count) by (by apply Z.div_pos).
  unfold split_reward. case_match; lia.
Qed.

Lemma make_entries_rewards distributed ordered :
  entry_reward_chipbits <$> make_entries distributed ordered =
  split_reward distributed (len ordered) <$> zrange (len ordered).
Proof. unfold make_entries. rewrite <- list_fmap_compose. apply fmap_enumerate_fst. by intros []. Qed.

Lemma make_entries_ranks distributed ordered :
  selection_rank <$> make_entries distributed ordered = zrange (len ordered).
Proof.
  unfold make_entries. rewrite <- list_fmap_compose. rewrite (fmap_enumerate_fst (fun i => i)) by by intros [].
  by rewrite list_fmap_id.
Qed.

Lemma make_entries_keys distributed ordered :
  entry_concentration_key <$> make_entries distributed ordered = ordered.*2.
Proof. unfold make_entries. rewrite <- list_fmap_compose. apply fmap_enumerate_snd. by intros []. Qed.

Lemma make_entries_nodes distributed ordered :
  (fun e => (entry_node_id e, entry_payout_address e)) <$> make_entries distributed ordered =
  (fun q : qualified_node => (node_id q.1.1.1, payout_address q.1.1.1)) <$> ordered.
Proof. unfold make_entries. rewrite <- list_fmap_compose. apply fmap_enumerate_snd. by intros []. Qed.

Lemma make_entries_length distributed ordered : len (make_entries distributed ordered) = len ordered.
Proof.
  unfold len. rewrite <- (length_fmap entry_concentration_key), make_entries_keys, length_fmap. done.
Qed.

(** ** Ranking *)

Lemma rank_nodes_Permutation seed qs r : rank_nodes seed qs = Ok r -> r ≡ₚ qs.
Proof.
  unfold rank_nodes. intros H. inv_ok. rewrite sorted_by_Permutation.
  assert (E' : a.*2 = qs); [|by rewrite E'].
  apply mapM_Forall2 in E. induction E as [|q kq qs kqs Hq _ IH]; [done|]. csimpl.
  f_equal; [|exact IH]. clear IH. by inv_ok.
Qed.

Lemma slice_to_sublist {A} n (xs : list A) : exists k, slice_to n xs = take k xs.
Proof. unfold slice_to. case_match; eauto. Qed.

Lemma elem_of_slice_to {A} n (xs : list A) x : x ∈ slice_to n xs -> x ∈ xs.
Proof. destruct (slice_to_sublist n xs) as [k ->]. apply elem_of_take_inv || (rewrite <- (take_drop k xs) at 2; set_solver). Qed.

Lemma slice_to_NoDup {A} n (xs : list A) : NoDup xs -> NoDup (slice_to n xs).
Proof.
  destruct (slice_to_sublist n xs) as [k ->]. rewrite <- (take_drop k xs) at 1. by intros [? _]%NoDup_app.
Qed.

Lemma slice_to_length {A} n (xs : list A) : 0 <= n -> len (slice_to n xs) = Z.min n (len xs).
Proof. intros Hn. unfold slice_to, len. rewrite (proj2 (Z.ltb_ge _ _)) by done. rewrite length_take. lia. Qed.

Lemma slice_to_fmap {A B} (f : A -> B) n (xs : list A) : f <$> slice_to n xs = slice_to n (f <$> xs).
Proof. unfold slice_to. rewrite length_fmap. case_match; by rewrite fmap_take. Qed.

(** ** Concentration groups *)

Definition groups_ok (qs : list qualified_node) (d : list (str * list qualified_node)) : Prop :=
  NoDup d.*1 /\ forall k ms q, (k, ms) ∈ d -> q ∈ ms -> q.2 = k /\ q ∈ qs.

Lemma by_concentration_ok qs : groups_ok qs (foldl by_concentration_step [] qs).
Proof.
  assert (Hgen : forall l d, (forall q, q ∈ l -> q ∈ qs) -> groups_ok qs d -> groups_ok qs (foldl by_concentration_step d l)).
  { induction l as [|q l IH]; intros d Hl [Hn Hd]; [done|]. simpl. apply IH; [set_solver|].
    unfold by_concentration_step. split; [by apply dict_set_NoDup|]. intros k ms q' [[= -> ->]|Hin]%dict_set_elem Hq'; [|eauto].
    apply elem_of_app in Hq' as [Hq'|Hq'%list_elem_of_singleton]; [|subst q'; split; [done|apply Hl; left]].
    destruct (dict_get d q.2) eqn:E; simpl in Hq'; [|set_solver]. apply dict_get_elem in E. eauto. }
  apply Hgen; [done|]. split; [constructor|]. set_solver.
Qed.

Lemma groups_ok_sorted qs d : groups_ok qs d -> groups_ok qs (sorted_by fst d).
Proof.
  intros [Hn Hd]. split; [by rewrite sorted_by_Permutation|]. intros k ms q Hin. rewrite elem_of_sorted_by in Hin. eauto.
Qed.

Lemma resolve_groups_sound seed (qs : list qualified_node) (groups : list (str * list qualified_node)) : forall s s',
  (forall k ms q, (k, ms) ∈ groups -> q ∈ ms -> q.2 = k /\ q ∈ qs) ->
  foldM (resolve_group seed) s groups = Ok s' ->
  exists new, resolved s' = resolved s ++ new /\ new.*2 = groups.*1 /\ Forall (fun q => q ∈ qs) new.
Proof.
  induction groups as [|[k ms] groups IH]; intros s s' Hg H; cbn [foldM] in H.
  { inv_ok. exists []. by rewrite app_nil_r. }
  apply rbind_Ok in H as (s1 & H1 & H). unfold resolve_group in H1. inv_ok.
  match goal with E : rank_nodes _ _ = Ok _ |- _ => apply rank_nodes_Permutation in E as Hp end.
  destruct (IH _ _ ltac:(intros; eapply Hg; [by right|done]) H) as (new & Hr & Hk & Hnew). simpl in Hr.
  match type of Hp with ?w :: _ ≡ₚ _ =>
    destruct (Hg k ms w) as [Hwk Hwq]; [left|rewrite <- Hp; left|]; destruct w as [w1 w2] end.
  simpl in Hwk. subst w2. rewrite <- app_assoc in Hr. eexists. split; [exact Hr|].
  split; [csimpl; by rewrite Hk|]. by constructor.
Qed.

(** What the analysis returns, in terms of the qualified nodes. *)
Lemma analysis_shape active seed atts distributed params an :
  analyze_reward_settlement active seed atts distributed params = Ok an ->
  exists evaluated ordered,
    mapM (evaluate_node (group_attestations atts) atts (py_sorted active.*1) seed params) (sorted_by fst active) = Ok evaluated /\
    NoDup ordered.*2 /\ Forall (fun q => q ∈ concat evaluated.*2) ordered /\
    (0 <= max_rewarded_nodes_per_epoch params -> len ordered <= max_rewarded_nodes_per_epoch params) /\
    (analysis_entries an = [] \/
     (analysis_entries an = make_entries distributed ordered /\ 0 < len ordered /\ 0 < distributed)).
Proof.
  unfold analyze_reward_settlement. intros H. apply rbind_Ok in H as (evaluated & Hev & H).
  apply rbind_Ok in H as (s & Hs & H). apply rbind_Ok in H as (ranking & Hr & H). cbv zeta in H.
  set (ordered := if max_rewarded_nodes_per_epoch params <? len ranking
                  then slice_to (max_rewarded_nodes_per_epoch params) ranking else ranking) in *.
  pose proof (groups_ok_sorted _ _ (by_concentration_ok (concat evaluated.*2))) as [Hn Hg].
  destruct (resolve_groups_sound seed _ _ _ _ Hg Hs) as (new & Hres & Hk & Hnew). simpl in Hres.
  apply rank_nodes_Permutation in Hr. rewrite Hres in Hr.
  assert (Hsub : exists k, ordered = take k ranking).
  { unfold ordered. destruct (_ <? len ranking); [apply slice_to_sublist|]. exists (length ranking). by rewrite take_ge. }
  destruct Hsub as [k Hk'].
  exists evaluated, ordered. split; [done|]. split; [|split; [|split]].
  - assert (NoDup ranking.*2) as Hnr by (rewrite Hr, Hk; exact Hn).
    rewrite Hk'. rewrite <- (take_drop k ranking), fmap_app in Hnr. by apply NoDup_app in Hnr as [? _].
  - assert (Hf : Forall (fun q => q ∈ concat evaluated.*2) ranking) by by rewrite Hr.
    rewrite Hk'. rewrite <- (take_drop k ranking) in Hf. by apply Forall_app in Hf as [? _].
  - intros H0. clear H. unfold ordered. destruct (Z.ltb_spec (max_rewarded_nodes_per_epoch params) (len ranking)) as [Hl|Hl]; [rewrite slice_to_length by done|]; lia.
  - destruct (_ || _) eqn:E; injection H as <-; [by left|right]. bool_prop. split; [done|].
    pose proof (len_nonneg ordered). lia.
Qed.

(** ** Windows and quorums *)

Lemma group_get atts key a :
  a ∈ default [] (dict_get (group_attestations atts) key) -> a ∈ atts /\ (candidate_node_id a, check_window_index a) = key.
Proof.
  assert (Hgen : forall l d, (forall key a, a ∈ default [] (dict_get d key) -> a ∈ atts /\ (candidate_node_id a, check_window_index a) = key) ->
    (forall a, a ∈ l -> a ∈ atts) ->
    forall key a, a ∈ default [] (dict_get (foldl group_step d l) key) -> a ∈ atts /\ (candidate_node_id a, check_window_index a) = key).
  { induction l as [|x l IH]; intros d Hd Hl key' a'; [apply Hd|]. simpl. apply IH; [|set_solver].
    intros key2 a2. unfold group_step.
    destruct (decide ((candidate_node_id x, check_window_index x) = key2)) as [<-|Hne].
    - rewrite dict_get_set_eq. simpl. intros [Ha|Ha%list_elem_of_singleton]%elem_of_app; [by apply Hd|].
      subst a2. split; [apply Hl; left|done].
    - rewrite dict_get_set_ne by done. apply Hd. }
  apply Hgen; [|done]. simpl. set_solver.
Qed.

Definition tally_ok (params : ConsensusParams) (was : list RewardAttestation) (d : list (str * RewardAttestation)) : Prop :=
  NoDup d.*1 /\ Forall (fun va => va.2 ∈ was /\ verifier_node_id va.2 = va.1 /\ valid_pass params va.2 = true) d.

Lemma tally_sound params was : tally_ok params was (foldl (tally_step params) ([], 0) was).1.
Proof.
  assert (Hgen : forall l s, (forall a, a ∈ l -> a ∈ was) -> tally_ok params was s.1 ->
    tally_ok params was (foldl (tally_step params) s l).1).
  { induction l as [|a l IH]; intros [d f] Hl [Hn Hd]; [done|]. simpl. apply IH; [set_solver|]. unfold tally_step.
    destruct (valid_pass params a) eqn:Ev; [|done]. simpl.
    destruct (dict_get d (verifier_node_id a)); [done|]. split; [by apply dict_set_NoDup|].
    apply Forall_forall. intros va [->|Hin]%dict_set_elem; [split; [apply Hl; left|done]|].
    rewrite Forall_forall in Hd. by apply Hd. }
  apply Hgen; [done|]. split; [constructor|constructor].
Qed.

(** A window of a candidate is supported when a quorum of distinct members of its
    committee attested a pass within the sync tolerance. *)
Definition window_supported (atts : list RewardAttestation) (active_ids : list str) (seed : bytes)
    (params : ConsensusParams) (i : str) (w : Z) : Prop :=
  exists committee verifiers,
    verifier_committee i active_ids w seed params = Ok committee /\
    NoDup verifiers /\ 0 < len verifiers /\
    Z.min (reward_verifier_quorum params) (Z.of_nat (size (list_to_set committee : gset str))) <= len verifiers /\
    Forall (fun v => v ∈ committee /\ exists a, a ∈ atts /\ candidate_node_id a = i /\ check_window_index a = w /\
                     verifier_node_id a = v /\ result_code a = u "pass" /\
                     observed_sync_gap a <= reward_sync_lag_tolerance_blocks params) verifiers.

Lemma evaluate_window_supported atts i active_ids w seed params r :
  evaluate_window (group_attestations atts) i active_ids w seed params = Ok r -> window_passed r = true ->
  window_supported atts active_ids seed params i w.
Proof.
  unfold evaluate_window. intros H Hp. apply rbind_Ok in H as (committee & Hc & H).
  set (was := filter _ _) in H. pose proof (tally_sound params was) as [Hn Hf].
  destruct (foldl (tally_step params) ([], 0) was) as [d f]. simpl in Hn, Hf. injection H as <-. simpl in Hp. bool_prop.
  exists committee, d.*1. unfold len in *. rewrite length_fmap. do 2 (split; [done|]). split; [lia|]. split; [lia|].
  apply Forall_fmap. eapply Forall_impl; [exact Hf|]. intros [v a] (Hin & Hv & Hvalid). simpl in *.
  unfold was in Hin. apply list_elem_of_filter in Hin as [Hmem Hin]. apply group_get in Hin as [Ha Hkey].
  rewrite Hv in Hmem. split; [done|]. exists a. unfold valid_pass in Hvalid. bool_prop. naive_solver.
Qed.

(** The loop over the assigned windows: every counted window is supported. *)
Lemma window_loop_sound atts i active_ids final seed params ws : forall e e',
  foldM (window_step (group_attestations atts) i active_ids final seed params) e ws = Ok e' ->
  exists passed, passed_windows e' = passed_windows e + len passed /\ sublist passed ws /\
    Forall (window_supported atts active_ids seed params i) passed /\
    (final_confirmed e' = true -> final_confirmed e = true \/ exists w, final = Some w /\ w ∈ passed).
Proof.
  induction ws as [|w ws IH]; intros e e' H; cbn [foldM] in H.
  { inv_ok. exists []. unfold len. simpl. repeat split; [lia|constructor|constructor|by left]. }
  apply rbind_Ok in H as (e1 & H1 & H). unfold window_step in H1. apply rbind_Ok in H1 as (r & Hr & H1).
  destruct (IH _ _ H) as (passed & Hc & Hsub & Hall & Hfin). destruct (window_passed r) eqn:Ep; injection H1 as <-; simpl in *.
  - exists (w :: passed). rewrite len_cons. split; [lia|]. split; [by apply sublist_skip|].
    split; [constructor; [by eapply evaluate_window_supported|done]|].
    intros [Hx|(w' & -> & Hw)]%Hfin; [|right; exists w'; split; [done|by right]].
    apply orb_true_iff in Hx as [Hx|Hx]; [by left|]. bool_prop. right. exists w. split; [done|left].
  - exists passed. split; [lia|]. split; [by apply sublist_cons|]. split; done.
Qed.

(** ** Qualified nodes *)

(** The active mapping of the callers: [{record.node_id: record ...}]. *)
Definition keyed_by_node_id (active : list (str * NodeRecord)) : Prop :=
  NoDup active.*1 /\ Forall (fun ir => ir.1 = node_id ir.2) active.

(** What makes a candidate eligible: enough of its assigned windows are supported,
    the last assigned one among them. *)
Definition eligible (atts : list RewardAttestation) (active_ids : list str) (seed : bytes)
    (params : ConsensusParams) (i : str) : Prop :=
  exists assigned passed final,
    candidate_check_windows i seed params = Ok assigned /\ sublist passed assigned /\
    reward_min_passed_checks_per_epoch params <= len passed /\
    last assigned = Some final /\ final ∈ passed /\
    Forall (window_supported atts active_ids seed params i) passed.

Lemma evaluate_node_sound atts active_ids seed params ir report qs q :
  evaluate_node (group_attestations atts) atts active_ids seed params ir = Ok (report, qs) -> q ∈ qs ->
  q.1.1.1 = ir.2 /\ qs = [q] /\ eligible atts active_ids seed params ir.1.
Proof.
  destruct ir as [i record]. unfold evaluate_node. intros H Hq.
  apply rbind_Ok in H as (assigned & Ha & H). apply rbind_Ok in H as (e & He & H). cbv zeta in H.
  destruct (is_qualified params e) eqn:Eq; injection H as _ <-; [|by apply not_elem_of_nil in Hq].
  apply list_elem_of_singleton in Hq as ->. split; [done|]. split; [done|].
  destruct (window_loop_sound _ _ _ _ _ _ _ _ _ He) as (passed & Hc & Hsub & Hall & Hfin). simpl in *.
  unfold is_qualified in Eq. bool_prop.
  destruct (Hfin ltac:(done)) as [?|(final & Hl & Hin)]; [done|].
  exists assigned, passed, final. repeat split; try done. lia.
Qed.

Lemma qualified_sound atts active_ids seed params items evaluated q :
  mapM (evaluate_node (group_attestations atts) atts active_ids seed params) items = Ok evaluated ->
  q ∈ concat evaluated.*2 ->
  exists ir, ir ∈ items /\ q.1.1.1 = ir.2 /\ eligible atts active_ids seed params ir.1.
Proof.
  intros H%mapM_Forall2. induction H as [|ir [report qs] items evaluated Hir _ IH]; csimpl; [set_solver|].
  intros [Hq|Hq]%elem_of_app.
  - destruct (evaluate_node_sound _ _ _ _ _ _ _ _ Hir Hq) as (? & _ & ?). exists ir. split; [left|done].
  - destruct (IH Hq) as (ir' & ? & ?). exists ir'. split; [by right|done].
Qed.

Lemma qualified_node_ids atts active_ids seed params items evaluated :
  mapM (evaluate_node (group_attestations atts) atts active_ids seed params) items = Ok evaluated ->
  sublist (q_node_id <$> concat evaluated.*2) ((fun ir : str * NodeRecord => node_id ir.2) <$> items).
Proof.
  intros H%mapM_Forall2. induction H as [|ir [report qs] items evaluated Hir _ IH]; csimpl; [constructor|].
  destruct qs as [|q qs]; [by apply sublist_cons|].
  destruct (evaluate_node_sound _ _ _ _ _ _ _ q Hir ltac:(left)) as (E & Eqs & _). injection Eqs as ->. csimpl.
  unfold q_node_id at 1. rewrite E. by apply sublist_skip.
Qed.

Lemma NoDup_fmap_inj {A B} (f : A -> B) (l : list A) x y :
  NoDup (f <$> l) -> x ∈ l -> y ∈ l -> f x = f y -> x = y.
Proof.
  induction l as [|z l IH]; csimpl; [set_solver|]. intros [Hn Hl]%NoDup_cons Hx Hy E.
  rewrite elem_of_cons in Hx, Hy. destruct Hx as [->|Hx], Hy as [->|Hy]; try done; auto.
  - destruct Hn. rewrite E. by apply list_elem_of_fmap_2.
  - destruct Hn. rewrite <- E. by apply list_elem_of_fmap_2.
Qed.

Lemma NoDup_fmap_of {A B C} (f : A -> B) (g : A -> C) (l : list A) :
  (forall x y, x ∈ l -> y ∈ l -> g x = g y -> x = y) -> NoDup (f <$> l) -> NoDup (g <$> l).
Proof.
  intros Hinj Hn. apply NoDup_fmap_2_strong; [intros; by apply Hinj|]. by apply NoDup_fmap_1 in Hn.
Qed.

(** ** Properties of the settlement *)

(** The reward of an epoch is split exactly: the entries of a non-empty
    settlement add up to the distributed amount, any two differ by at most one
    chipbit (the remainder goes to the earlier ranks), the ranks are contiguous
    from zero, and there are at most [max_rewarded_nodes_per_epoch] of them. *)
Theorem settlement_split_exact (active : list (str * NodeRecord)) (seed : bytes) (atts : list RewardAttestation)
    (distributed : Z) (params : ConsensusParams) (entries : list RewardSettlementEntry) :
  0 <= max_rewarded_nodes_per_epoch params ->
  derive_reward_settlement_entries active seed atts distributed params = Ok entries ->
  (entries ≠ [] -> zsum (entry_reward_chipbits <$> entries) = distributed /\ 0 < distributed) /\
  Forall (fun e => distributed / len entries <= entry_reward_chipbits e <= distributed / len entries + 1) entries /\
  (selection_rank <$> entries) = zrange (len entries) /\
  len entries <= max_rewarded_nodes_per_epoch params.
Proof.
  intros Hmax H. unfold derive_reward_settlement_entries in H. inv_ok.
  match goal with E : analyze_reward_settlement _ _ _ _ _ = Ok _ |- _ => apply analysis_shape in E as
    (evaluated & ordered & _ & _ & _ & Hlen & [-> | (-> & Ho & Hd)]) end.
  { repeat split; done || constructor. }
  rewrite make_entries_rewards, make_entries_ranks, make_entries_length. specialize (Hlen Hmax).
  split; [intros _; rewrite split_sum by done; done|]. split; [|done].
  assert (Hr : Forall (fun r => distributed / len ordered <= r <= distributed / len ordered + 1)
                 (entry_reward_chipbits <$> make_entries distributed ordered)).
  { rewrite make_entries_rewards. apply Forall_fmap, Forall_forall. intros i _. apply split_bounds; lia. }
  by apply Forall_fmap in Hr.
Qed.

(** At most one reward per concentration key and per node, and every entry
    pays the payout address on record of an active node. *)
Theorem settlement_one_per_key (active : list (str * NodeRecord)) (seed : bytes) (atts : list RewardAttestation)
    (distributed : Z) (params : ConsensusParams) (entries : list RewardSettlementEntry) :
  keyed_by_node_id active ->
  derive_reward_settlement_entries active seed atts distributed params = Ok entries ->
  NoDup (entry_concentration_key <$> entries) /\ NoDup (entry_node_id <$> entries) /\
  Forall (fun e => exists record, (entry_node_id e, record) ∈ active /\ payout_address record = entry_payout_address e) entries.
Proof.
  intros [Hnd Hkey] H. unfold derive_reward_settlement_entries in H. inv_ok.
  match goal with E : analyze_reward_settlement _ _ _ _ _ = Ok _ |- _ => apply analysis_shape in E as
    (evaluated & ordered & Hev & Hn & Hq & _ & [-> | (-> & Ho & Hd)]) end.
  { repeat split; constructor. }
  rewrite make_entries_keys. split; [done|].
  assert (Hids : NoDup (q_node_id <$> concat evaluated.*2)).
  { eapply sublist_NoDup; cycle 1; [by eapply qualified_node_ids|]. rewrite sorted_by_Permutation.
    replace ((fun ir : str * NodeRecord => node_id ir.2) <$> active) with active.*1; [done|].
    clear -Hkey. induction Hkey as [|ir l Hir _ IH]; [done|]. csimpl. by rewrite Hir, IH. }
  assert (Epairs := make_entries_nodes distributed ordered).
  assert (En : entry_node_id <$> make_entries distributed ordered = q_node_id <$> ordered).
  { apply (f_equal (fmap fst)) in Epairs. rewrite <- !list_fmap_compose in Epairs. exact Epairs. }
  rewrite En. rewrite Forall_forall in Hq. split.
  - apply (NoDup_fmap_of snd q_node_id); [|done]. intros x y Hx Hy.
    apply (NoDup_fmap_inj q_node_id (concat evaluated.*2)); auto.
  - apply Forall_forall. intros e He.
    assert (Hp : (entry_node_id e, entry_payout_address e) ∈
      ((fun q : qualified_node => (node_id q.1.1.1, payout_address q.1.1.1)) <$> ordered)).
    { rewrite <- Epairs. by apply (list_elem_of_fmap_2 (fun e => (entry_node_id e, entry_payout_address e))). }
    apply list_elem_of_fmap in Hp as (q & [= E1 E2] & Hin). apply Hq in Hin.
    destruct (qualified_sound _ _ _ _ _ _ _ Hev Hin) as ([i record] & Hir & Erec & _). simpl in Erec.
    rewrite elem_of_sorted_by in Hir. exists record. rewrite E1, E2, Erec. split; [|done].
    rewrite Forall_forall in Hkey. apply Hkey in Hir as Hi. simpl in Hi. by rewrite <- Hi.
Qed.

(** No reward without quorum: every rewarded node passed at least
    [reward_min_passed_checks_per_epoch] of its own assigned check windows, the
    last one included, and each passed window is backed by a quorum of distinct
    members of its deterministic committee attesting a pass within the sync
    tolerance. *)
Theorem settlement_requires_quorum (active : list (str * NodeRecord)) (seed : bytes) (atts : list RewardAttestation)
    (distributed : Z) (params : ConsensusParams) (entries : list RewardSettlementEntry) :
  keyed_by_node_id active ->
  derive_reward_settlement_entries active seed atts distributed params = Ok entries ->
  Forall (fun e => eligible atts (py_sorted active.*1) seed params (entry_node_id e)) entries.
Proof.
  intros [Hnd Hkey] H. unfold derive_reward_settlement_entries in H. inv_ok.
  match goal with E : analyze_reward_settlement _ _ _ _ _ = Ok _ |- _ => apply analysis_shape in E as
    (evaluated & ordered & Hev & Hn & Hq & _ & [-> | (-> & Ho & Hd)]) end; [constructor|].
  apply Forall_forall. intros e He.
  assert (Hp : (entry_node_id e, entry_payout_address e) ∈
    ((fun q : qualified_node => (node_id q.1.1.1, payout_address q.1.1.1)) <$> ordered)).
  { rewrite <- (make_entries_nodes distributed ordered). by apply (list_elem_of_fmap_2 (fun e => (entry_node_id e, entry_payout_address e))). }
  apply list_elem_of_fmap in Hp as (q & [= E1 E2] & Hin). rewrite Forall_forall in Hq. apply Hq in Hin.
  destruct (qualified_sound _ _ _ _ _ _ _ Hev Hin) as ([i record] & Hir & Erec & Hel). simpl in *.
  rewrite elem_of_sorted_by in Hir. rewrite Forall_forall in Hkey. apply Hkey in Hir. simpl in Hir.
  rewrite E1, Erec, <- Hir. exact Hel.
Qed.

(** ** Assignment *)

Lemma mapM_Permutation {A B} (f : A -> res B) l l' r :
  l ≡ₚ l' -> mapM f l = Ok r -> exists r', mapM f l' = Ok r' /\ r ≡ₚ r'.
Proof.
  intros Hp. revert r. induction Hp as [|x l l' Hp IH|x y l|l1 l2 l3 H1 IH1 H2 IH2]; intros r H.
  - by exists r.
  - cbn [mapM] in *. apply rbind_Ok in H as (y & Hy & H). apply rbind_Ok in H as (ys & Hys & H). injection H as <-.
    destruct (IH _ Hys) as (ys' & -> & Hp'). rewrite Hy. cbn [rbind]. eexists. split; [done|]. by rewrite Hp'.
  - cbn [mapM] in *. apply rbind_Ok in H as (a & Ha & H). apply rbind_Ok in H as (rest & Hrest & H). injection H as <-.
    apply rbind_Ok in Hrest as (c & Hc & Hrest). apply rbind_Ok in Hrest as (ys & Hys & Hrest). injection Hrest as <-.
    rewrite Ha, Hc, Hys. cbn [rbind]. eexists. split; [done|]. apply Permutation_swap.
  - destruct (IH1 _ H) as (r2 & Hr2 & Hp2). destruct (IH2 _ Hr2) as (r3 & Hr3 & Hp3).
    exists r3. split; [done|]. by rewrite Hp2.
Qed.

Lemma scored_snd {A} (score : A -> res bytes) (l : list A) scored :
  mapM (fun x => let* s := score x in Ok (s, x)) l = Ok scored -> scored.*2 = l.
Proof.
  intros H%mapM_Forall2. induction H as [|x sx l scored Hx _ IH]; [done|]. csimpl.
  f_equal; [|exact IH]. clear IH. by inv_ok.
Qed.

(** A committee is drawn from the active verifiers without the candidate
    itself, has no member twice, is as large as the parameters and the number of
    other verifiers allow, and does not depend on the order in which the active
    verifiers are listed. *)
Theorem verifier_committee_fair (candidate : str) (ids ids' : list str) (window : Z) (seed : bytes)
    (params : ConsensusParams) (committee : list str) :
  verifier_committee candidate ids window seed params = Ok committee ->
  (candidate ∉ committee) /\ (forall v, v ∈ committee -> v ∈ ids) /\
  (NoDup ids -> NoDup committee) /\
  (0 <= reward_verifier_committee_size params ->
   len committee = Z.min (reward_verifier_committee_size params) (len (filter (fun v => v ≠ candidate) ids))) /\
  (ids ≡ₚ ids' -> verifier_committee candidate ids' window seed params = Ok committee).
Proof.
  unfold verifier_committee. destruct (_ || _); [done|]. intros H.
  apply rbind_Ok in H as (scored & Hs & H). injection H as <-.
  pose proof (scored_snd _ _ _ Hs) as Esnd.
  assert (Hperm : (py_sorted scored).*2 ≡ₚ filter (fun v => v ≠ candidate) ids).
  { unfold py_sorted. by rewrite sorted_by_Permutation, Esnd. }
  rewrite slice_to_fmap.
  assert (Hin : forall v, v ∈ slice_to (reward_verifier_committee_size params) (py_sorted scored).*2 -> v ≠ candidate /\ v ∈ ids).
  { intros v Hv%elem_of_slice_to. rewrite Hperm in Hv. by apply list_elem_of_filter in Hv. }
  split; [intros Hc; by apply Hin in Hc as [? _]|]. split; [intros v Hv; by apply Hin|].
  split; [|split].
  - intros Hn. apply slice_to_NoDup. rewrite Hperm. by apply NoDup_filter.
  - intros H0. rewrite slice_to_length by done. unfold len. by rewrite Hperm.
  - intros Hp.
    assert (Hfp : filter (fun v => v ≠ candidate) ids ≡ₚ filter (fun v => v ≠ candidate) ids') by by rewrite Hp.
    destruct (mapM_Permutation _ _ _ _ Hfp Hs) as (scored' & -> & Hp'). cbn [rbind]. f_equal. rewrite slice_to_fmap. f_equal. f_equal.
    symmetry. unfold py_sorted. by apply sorted_by_deterministic.
Qed.

(** Every candidate gets exactly [reward_target_checks_per_epoch] distinct
    check windows of the epoch, in increasing order. *)
Theorem check_windows_assigned (i : str) (seed : bytes) (params : ConsensusParams) (windows : list Z) :
  0 <= reward_target_checks_per_epoch params ->
  candidate_check_windows i seed params = Ok windows ->
  len windows = reward_target_checks_per_epoch params /\ NoDup windows /\ StronglySorted Z.le windows /\
  Forall (fun w => 0 <= w < reward_check_windows_per_epoch params) windows.
Proof.
  intros H0. unfold candidate_check_windows. destruct (_ <? _) eqn:El; [done|]. intros H. bool_prop.
  apply rbind_Ok in H as (scored & Hs & H). injection H as <-.
  pose proof (scored_snd _ _ _ Hs) as Esnd. rewrite slice_to_fmap.
  assert (Hperm : (py_sorted scored).*2 ≡ₚ zrange (reward_check_windows_per_epoch params)).
  { unfold py_sorted. by rewrite sorted_by_Permutation, Esnd. }
  set (chosen := slice_to (reward_target_checks_per_epoch params) (py_sorted scored).*2).
  assert (Hlen : len chosen = reward_target_checks_per_epoch params).
  { unfold chosen. rewrite slice_to_length by done. unfold len. rewrite Hperm. unfold zrange.
    rewrite length_fmap, length_seq. lia. }
  assert (Hn : NoDup chosen).
  { apply slice_to_NoDup. rewrite Hperm. unfold zrange. apply NoDup_fmap_2; [intros ???; lia|]. apply NoDup_seq. }
  unfold py_sorted. split; [|split; [|split]].
  - unfold len in *. by rewrite sorted_by_length.
  - by rewrite sorted_by_Permutation.
  - pose proof (sorted_by_StronglySorted (fun x : Z => x) chosen) as Hsort.
    induction Hsort as [|x l Hl IH Hx]; constructor; [done|]. eapply Forall_impl; [exact Hx|]. intros y Hy. by apply Z.leb_le.
  - apply Forall_forall. intros w. rewrite elem_of_sorted_by. intros Hw%elem_of_slice_to. rewrite Hperm in Hw.
    unfold zrange in Hw. apply list_elem_of_fmap in Hw as (n & -> & Hnw). apply elem_of_seq in Hnw. lia.
Qed.

(** ** Payload round trips *)

Definition int_ok (n : Z) : Prop := Z.abs n < 10 ^ max_str_digits.

Lemma int_ok_small n : Z.abs n < 10 ^ 18 -> int_ok n.
Proof. intros H. unfold int_ok. eapply Z.lt_trans; [exact H|]. apply Z.pow_lt_mono_r; unfold max_str_digits; lia. Qed.

Definition entry_ok (e : RewardSettlementEntry) : Prop :=
  text_ok (entry_node_id e) /\ text_ok (entry_payout_address e) /\ text_ok (entry_concentration_key e) /\
  int_ok (entry_reward_chipbits e) /\ int_ok (selection_rank e).

(** A settlement whose fields can be written to metadata and read back: numbers
    within the interpreter's limit, non-empty text where it is required. *)
Definition settlement_ok (s : RewardSettlement) : Prop :=
  int_ok (settlement_epoch_index s) /\ int_ok (epoch_start_height s) /\ int_ok (epoch_end_height s) /\
  int_ok (rewarded_node_count s) /\ int_ok (distributed_node_reward_chipbits s) /\
  int_ok (undistributed_node_reward_chipbits s) /\
  epoch_seed_hex s ≠ [] /\ policy_version s ≠ [] /\ candidate_summary_root s ≠ [] /\
  verified_nodes_root s ≠ [] /\ rewarded_nodes_root s ≠ [] /\ Forall entry_ok (reward_entries s).

Section payloads.
Context `{PyRepr}.

Lemma py_str_int_nonempty n : py_str_int n ≠ [].
Proof. destruct (py_str_int_head n) as (c & t & -> & _). done. Qed.

Lemma sorted_check {V} (l : list (str * V)) :
  forallb (fun p => py_leb p.1 p.2) (zip l.*1 (tail l.*1)) = true ->
  StronglySorted (key_le fst) l.
Proof.
  intros Hf. assert (Hs : Sorted (key_le fst) l).
  { induction l as [|x l IH]; [constructor|]. destruct l as [|y l]; [repeat constructor|].
    csimpl in Hf. apply andb_prop in Hf as [Hxy Hf]. constructor; [by apply IH|]. constructor. exact Hxy. }
  apply Sorted_StronglySorted; [apply key_le_trans|done].
Qed.

Lemma ascii_text_ok t : text_ok (u t).
Proof.
  unfold u. apply Forall_fmap, Forall_forall. intros c _. simpl. pose proof (Ascii.N_ascii_bounded c). split; lia.
Qed.

Lemma keys_NoDup (keys : list str) : bool_decide (NoDup keys) = true -> NoDup keys.
Proof. apply bool_decide_eq_true. Qed.

Lemma entry_json_dumpable e : entry_ok e -> dumpable (entry_json e).
Proof.
  intros (H1 & H2 & H3 & H4 & H5). cbn [entry_json dumpable foldr fst snd].
  split; [repeat split; try done; apply ascii_text_ok|].
  split; [by apply sorted_check|]. csimpl. by apply keys_NoDup.
Qed.

Lemma entries_json_dumpable es : Forall entry_ok es -> dumpable (JList (entry_json <$> es)).
Proof.
  induction 1 as [|e es He _ IH]; [done|]. split; [by apply entry_json_dumpable|exact IH].
Qed.

Lemma parse_entry_json e : parse_entry (entry_json e) = Ok e.
Proof.
  destruct e as [i p r k c f]. unfold parse_entry, item_str, item_int, json_item, entry_json.
  cbn [entry_concentration_key final_confirmation_passed entry_node_id entry_payout_address entry_reward_chipbits selection_rank].
  set (d := [_; _; _; _; _; _]).
  assert (Hd : dict_get d (u "node_id") = Some (JStr i) /\ dict_get d (u "payout_address") = Some (JStr p) /\
    dict_get d (u "reward_chipbits") = Some (JInt r) /\ dict_get d (u "selection_rank") = Some (JInt k) /\
    dict_get d (u "concentration_key") = Some (JStr c) /\ dict_get d (u "final_confirmation_passed") = Some (JBool f)).
  { unfold d. repeat split; reflexivity. }
  destruct Hd as (-> & -> & -> & -> & -> & ->). reflexivity.
Qed.

Lemma parse_entries_json es : mapM parse_entry (entry_json <$> es) = Ok es.
Proof.
  apply mapM_Forall2, Forall2_fmap_l. induction es; constructor; [apply parse_entry_json|done].
Qed.

(** Reading each key of the metadata dictionary. *)
Lemma settlement_metadata_lookups (v0 v1 v2 v3 v4 v5 v6 v7 v8 v9 v10 v11 v12 v13 : str) :
  let m : gmap str str := list_to_map [
    (u "kind", v0); (u "epoch_index", v1); (u "epoch_start_height", v2); (u "epoch_end_height", v3);
    (u "epoch_seed", v4); (u "policy_version", v5); (u "submission_mode", v6); (u "candidate_summary_root", v7);
    (u "verified_nodes_root", v8); (u "rewarded_nodes_root", v9); (u "rewarded_node_count", v10);
    (u "distributed_node_reward_chipbits", v11); (u "undistributed_node_reward_chipbits", v12);
    (u "reward_entries_json", v13)] in
  m !! u "epoch_index" = Some v1 /\ m !! u "epoch_start_height" = Some v2 /\ m !! u "epoch_end_height" = Some v3 /\
  m !! u "epoch_seed" = Some v4 /\ m !! u "policy_version" = Some v5 /\ m !! u "submission_mode" = Some v6 /\
  m !! u "candidate_summary_root" = Some v7 /\ m !! u "verified_nodes_root" = Some v8 /\
  m !! u "rewarded_nodes_root" = Some v9 /\ m !! u "rewarded_node_count" = Some v10 /\
  m !! u "distributed_node_reward_chipbits" = Some v11 /\ m !! u "undistributed_node_reward_chipbits" = Some v12 /\
  m !! u "reward_entries_json" = Some v13.
Proof. vm_compute. repeat split. Qed.

(** The text of each field, as a mapping holds it *)
Record holds_settlement (m : gmap str str) (s : RewardSettlement) : Prop := {
  holds_epoch : m !! u "epoch_index" = Some (py_str_int (settlement_epoch_index s));
  holds_start : m !! u "epoch_start_height" = Some (py_str_int (epoch_start_height s));
  holds_end : m !! u "epoch_end_height" = Some (py_str_int (epoch_end_height s));
  holds_seed : m !! u "epoch_seed" = Some (epoch_seed_hex s);
  holds_policy : m !! u "policy_version" = Some (policy_version s);
  holds_mode : m !! u "submission_mode" = Some (submission_mode s);
  holds_summary : m !! u "candidate_summary_root" = Some (candidate_summary_root s);
  holds_verified : m !! u "verified_nodes_root" = Some (verified_nodes_root s);
  holds_rewarded : m !! u "rewarded_nodes_root" = Some (rewarded_nodes_root s);
  holds_count : m !! u "rewarded_node_count" = Some (py_str_int (rewarded_node_count s));
  holds_distributed : m !! u "distributed_node_reward_chipbits" = Some (py_str_int (distributed_node_reward_chipbits s));
  holds_undistributed : m !! u "undistributed_node_reward_chipbits" = Some (py_str_int (undistributed_node_reward_chipbits s));
  holds_entries : m !! u "reward_entries_json" = Some (json_dumps (JList (entry_json <$> reward_entries s)));
}.

Lemma parse_settlement_holds (m : gmap str str) (s : RewardSettlement) :
  settlement_ok s -> holds_settlement m s -> parse_reward_settlement_metadata m = Ok s.
Proof.
  intros (I1 & I2 & I3 & I4 & I5 & I6 & N1 & N2 & N3 & N4 & N5 & He) [L1 L2 L3 L4 L5 L6 L7 L8 L9 L10 L11 L12 L13].
  unfold parse_reward_settlement_metadata.
  assert (Hreq : require_keys m settlement_keys = Ok tt).
  { apply for_each_Ok. unfold settlement_keys, md_get_or.
    repeat (apply Forall_cons; split; [apply raise_if_Ok, bool_decide_eq_false_2;
      rewrite ?L1, ?L2, ?L3, ?L4, ?L5, ?L7, ?L8, ?L9, ?L10, ?L11, ?L12, ?L13; (done || apply py_str_int_nonempty)|]).
    apply Forall_nil_2. }
  rewrite Hreq. unfold md_int, md_index, md_get_or. rewrite L1, L2, L3, L4, L5, L6, L7, L8, L9, L10, L11, L12, L13. cbn [rbind].
  rewrite json_roundtrip by by apply entries_json_dumpable. cbn [rbind]. rewrite parse_entries_json. cbn [rbind].
  rewrite !py_int_str_int by done. cbn [rbind]. by destruct s.
Qed.

(** A settlement written to transaction metadata is read back unchanged. *)
Theorem settlement_metadata_roundtrip (s : RewardSettlement) :
  settlement_ok s -> parse_reward_settlement_metadata (reward_settlement_metadata s) = Ok s.
Proof.
  intros Hok. apply parse_settlement_holds; [done|].
  destruct (settlement_metadata_lookups REWARD_SETTLE_EPOCH_KIND (py_str_int (settlement_epoch_index s))
    (py_str_int (epoch_start_height s)) (py_str_int (epoch_end_height s)) (epoch_seed_hex s) (policy_version s)
    (submission_mode s) (candidate_summary_root s) (verified_nodes_root s) (rewarded_nodes_root s)
    (py_str_int (rewarded_node_count s)) (py_str_int (distributed_node_reward_chipbits s))
    (py_str_int (undistributed_node_reward_chipbits s)) (json_dumps (JList (entry_json <$> reward_entries s))))
    as (L1 & L2 & L3 & L4 & L5 & L6 & L7 & L8 & L9 & L10 & L11 & L12 & L13).
  split; assumption.
Qed.

(** The signed fields of an attestation. *)
Definition attestation_text_ok (a : RewardAttestation) : Prop :=
  text_ok (candidate_node_id a) /\ text_ok (concentration_key a) /\ text_ok (endpoint_commitment a) /\
  text_ok (result_code a) /\ text_ok (verifier_node_id a) /\
  int_ok (check_window_index a) /\ int_ok (epoch_index a) /\ int_ok (observed_sync_gap a).

Lemma attestation_json_dumpable a : attestation_text_ok a -> dumpable (attestation_json a).
Proof.
  intros (H1 & H2 & H3 & H4 & H5 & H6 & H7 & H8). cbn [attestation_json dumpable foldr fst snd].
  split; [repeat split; try done; apply ascii_text_ok|].
  split; [by apply sorted_check|]. csimpl. by apply keys_NoDup.
Qed.

(** An attestation signature binds every field of the attestation: two
    attestations with the same signing digest agree on all of them, or their
    signed payloads are distinct byte strings with the same double SHA-256. *)
Theorem attestation_digest_binding (a1 a2 : RewardAttestation) (d : bytes) :
  attestation_text_ok a1 -> attestation_text_ok a2 ->
  reward_attestation_signature_digest a1 = Ok d -> reward_attestation_signature_digest a2 = Ok d ->
  attestation_json a1 = attestation_json a2 \/
  exists p q, utf8_encode (json_dumps (attestation_json a1)) = Ok p /\
    utf8_encode (json_dumps (attestation_json a2)) = Ok q /\ p ≠ q /\ double_sha256 p = double_sha256 q.
Proof.
  intros H1 H2 D1 D2. unfold reward_attestation_signature_digest in D1, D2.
  apply rbind_Ok in D1 as (p & Ep & D1). apply rbind_Ok in D2 as (q & Eq & D2). injection D1 as D1. injection D2 as D2.
  destruct (decide (p = q)) as [->|Hne]; [left|right; exists p, q; repeat split; congruence].
  apply utf8_decode_encode in Ep, Eq.
  apply json_dumps_inj; [by apply attestation_json_dumpable..|]. congruence.
Qed.
End payloads.

(** ** A concrete epoch

    Three active nodes, one check window and committees of one; every committee
    attests a pass with the given gap, and nodes [a] and [b] share a concentration
    key. *)

Definition demo_params : ConsensusParams := {|
  coinbase_maturity := 10; halving_interval := 111000;
  initial_miner_subsidy_chipbits := 5000; initial_node_epoch_reward_chipbits := 1001;
  max_money_chipbits := 1000000000; target_block_time_seconds := 300;
  difficulty_adjustment_window := 200; genesis_bits := 0x207FFFFF;
  max_block_weight := 4000000; max_block_sigops := 80000; epoch_length_blocks := 100;
  register_node_fee_chipbits := 100000000; renew_node_fee_chipbits := 10000000;
  node_reward_activation_height := 0; reward_node_warmup_epochs := 0;
  reward_check_windows_per_epoch := 1; reward_target_checks_per_epoch := 1;
  reward_min_passed_checks_per_epoch := 1; reward_verifier_committee_size := 1; reward_verifier_quorum := 1;
  reward_final_confirmation_window_blocks := 10; reward_sync_lag_tolerance_blocks := 5;
  max_rewarded_nodes_per_epoch := 10; max_attestation_bundles_per_block := 4; max_attestations_per_bundle := 24;
  max_attestations_per_verifier_per_window := 1; target_block_time_activation_height := 0;
  legacy_target_block_time_seconds := None; pq_support_activation_height_param := None;
  reward_node_fee_recent_driver_activation_height := 0;
|}.

Definition demo_seed : bytes := Eval vm_compute in sha256 (b "epoch-7").
Definition demo_record (i : string) : NodeRecord :=
  mkNodeRecord (u i) (u "CHC" ++ u i) (b i) 0 650 (Some (b i)) (Some (u "host")) (Some 8333) true.
Definition demo_active : list (str * NodeRecord) :=
  (fun i => (u i, demo_record i)) <$> ["c"; "a"; "b"]%string.
Definition demo_key (i : str) : str := if bool_decide (i = u "a" \/ i = u "b") then u "asn:1" else u "asn:" ++ i.

Definition demo_window_attestations (gap : Z) (i : str) (w : Z) : list RewardAttestation :=
  match verifier_committee i (py_sorted demo_active.*1) w demo_seed demo_params with
  | Ok committee => (fun v => mkAttestation 7 w i v (u "pass") gap (u "ep") (demo_key i) []) <$> committee
  | Raise _ => []
  end.
Definition demo_attestations (gap : Z) : list RewardAttestation :=
  concat ((fun ir => match candidate_check_windows ir.1 demo_seed demo_params with
                     | Ok ws => concat (demo_window_attestations gap ir.1 <$> ws)
                     | Raise _ => []
                     end) <$> demo_active).

Definition demo_entries : list RewardSettlementEntry := Eval vm_compute in
  ok_or (derive_reward_settlement_entries demo_active demo_seed (demo_attestations 1) 1001 demo_params) [].

(** Two of the three nodes are rewarded, with 501 and 500 chipbits. *)
Example demo_entries_value :
  (entry_reward_chipbits <$> demo_entries) = [501; 500] /\
  (length (entry_concentration_key <$> demo_entries) = 2%nat).
Proof. vm_compute. done. Qed.

Lemma demo_derive :
  derive_reward_settlement_entries demo_active demo_seed (demo_attestations 1) 1001 demo_params = Ok demo_entries.
Proof. vm_compute. reflexivity. Qed.

Lemma demo_keyed : keyed_by_node_id demo_active.
Proof. split; [by apply keys_NoDup|]. repeat constructor. Qed.

Lemma settlement_split_exact_witness :
  zsum (entry_reward_chipbits <$> demo_entries) = 1001 /\ len demo_entries <= 10.
Proof.
  destruct (settlement_split_exact demo_active demo_seed (demo_attestations 1) 1001 demo_params demo_entries
    ltac:(simpl; lia) demo_derive) as (Hs & _ & _ & Hl).
  split; [apply Hs; vm_compute; discriminate|exact Hl].
Defined.

Lemma settlement_one_per_key_witness :
  NoDup (entry_concentration_key <$> demo_entries) /\ NoDup (entry_node_id <$> demo_entries).
Proof.
  destruct (settlement_one_per_key demo_active demo_seed (demo_attestations 1) 1001 demo_params demo_entries
    demo_keyed demo_derive) as (H1 & H2 & _). split; [exact H1|exact H2].
Defined.

Lemma settlement_requires_quorum_witness :
  Forall (fun e => eligible (demo_attestations 1) (py_sorted demo_active.*1) demo_seed demo_params (entry_node_id e)) demo_entries.
Proof.
  exact (settlement_requires_quorum demo_active demo_seed (demo_attestations 1) 1001 demo_params demo_entries
    demo_keyed demo_derive).
Defined.

Lemma verifier_committee_fair_witness :
  exists committee, verifier_committee (u "a") [u "b"; u "a"; u "c"] 0 demo_seed demo_params = Ok committee /\
    verifier_committee (u "a") [u "a"; u "b"; u "c"] 0 demo_seed demo_params = Ok committee.
Proof.
  eexists. split; [vm_compute; reflexivity|].
  apply (verifier_committee_fair (u "a") [u "b"; u "a"; u "c"] [u "a"; u "b"; u "c"] 0 demo_seed demo_params);
    [vm_compute; reflexivity|apply Permutation_swap].
Defined.

Lemma check_windows_assigned_witness :
  exists ws, candidate_check_windows (u "a") demo_seed demo_params = Ok ws /\ len ws = 1.
Proof.
  eexists. split; [vm_compute; reflexivity|].
  refine (proj1 (check_windows_assigned (u "a") demo_seed demo_params _ _ _)); [simpl; lia|vm_compute; reflexivity].
Defined.

#[global] Instance demo_repr : PyRepr := {|
  float_repr := fun _ => u "0.0";
  container_repr := json_dumps (H := {| float_repr := fun _ => u "0.0"; container_repr := fun _ => u "[]" |});
|}.

Definition demo_settlement : RewardSettlement :=
  mkSettlement 7 700 799 (hex demo_seed) (u "v1") (u "auto") (hex demo_seed) (hex demo_seed) (hex demo_seed)
    2 1001 0 demo_entries.

Lemma demo_settlement_ok : settlement_ok demo_settlement.
Proof.
  do 6 (split; [apply int_ok_small; vm_compute; reflexivity|]). do 5 (split; [vm_compute; discriminate|]).
  apply Forall_forall. intros e He.
  assert (Hall : forallb (fun e => forallb (fun c => (0 <=? c) && (c <? 128)) (entry_node_id e ++ entry_payout_address e ++ entry_concentration_key e)
     && (Z.abs (entry_reward_chipbits e) <? 10 ^ 18) && (Z.abs (selection_rank e) <? 10 ^ 18)) demo_entries = true) by (vm_compute; reflexivity).
  rewrite forallb_forall in Hall. apply list_elem_of_In in He. apply Hall in He. clear Hall.
  apply andb_prop in He as [[Ht Hr]%andb_prop Hk]. rewrite forallb_forall in Ht.
  assert (Hsc : forall c, c ∈ entry_node_id e ++ entry_payout_address e ++ entry_concentration_key e -> scalar c).
  { intros c Hc. apply list_elem_of_In, Ht in Hc. bool_prop. split; lia. }
  apply Z.ltb_lt in Hr, Hk.
  repeat split; try (apply Forall_forall; intros c Hc; apply Hsc; set_solver); by apply int_ok_small.
Qed.

Lemma settlement_metadata_roundtrip_witness :
  parse_reward_settlement_metadata (reward_settlement_metadata demo_settlement) = Ok demo_settlement.
Proof. apply (settlement_metadata_roundtrip demo_settlement). exact demo_settlement_ok. Defined.

Definition demo_attestation : RewardAttestation := mkAttestation 7 1 (u "a") (u "b") (u "pass") 1 (u "ep") (u "asn:1") [].

Lemma attestation_digest_binding_witness :
  attestation_json demo_attestation = attestation_json demo_attestation \/
  exists p q, utf8_encode (json_dumps (attestation_json demo_attestation)) = Ok p /\
    utf8_encode (json_dumps (attestation_json demo_attestation)) = Ok q /\ p ≠ q /\ double_sha256 p = double_sha256 q.
Proof.
  apply (attestation_digest_binding demo_attestation demo_attestation
    (ok_or (reward_attestation_signature_digest demo_attestation) []));
    [repeat split; try apply ascii_text_ok; by apply int_ok_small..|vm_compute; reflexivity|vm_compute; reflexivity].
Defined.

(** The sync gap of an attestation has no lower bound, and the tie-break converts gaps
    to floating point: for these attestations, which pass every committee with a gap
    of -10^400, the derivation raises [OverflowError] instead of returning entries. *)
Example sync_gap_overflow :
  derive_reward_settlement_entries demo_active demo_seed (demo_attestations (- 10 ^ 400)) 1001 demo_params
  = raise OverflowError "int too large to convert to float" /\
  Forall (fun a => valid_pass demo_params a = true) (demo_attestations (- 10 ^ 400)).
Proof.
  split; [vm_compute; reflexivity|]. apply Forall_forall. intros a Ha.
  assert (Hall : forallb (valid_pass demo_params) (demo_attestations (- 10 ^ 400)) = true) by (vm_compute; reflexivity).
  apply list_elem_of_In in Ha. exact (proj1 (forallb_forall _ _) Hall a Ha).
Qed.
