(* ===== verification/Nodes.v ===== *)
(** * Node registry transactions and epoch activity ([consensus/nodes.py])

    The four kinds of registry transactions (stateless checks, owner signatures
    and their effect on a registry view), the activity rule of reward nodes and
    the equal split of the node pool.  Everything is stated over the class
    [NodeRegistryView], so it holds for each implementation of the view. *)

From S2P Require Import Prelude PyOrder PyText Hashes Params Models Registry Crypto Addresses Json Settlement.

Definition REGISTER_NODE_KIND : str := u "register_node".
Definition RENEW_NODE_KIND : str := u "renew_node".
Definition SPECIAL_NODE_SIGNATURE_DOMAIN_V2 : str := u "chipcoin:special-node-tx:v2".
Definition SPECIAL_NODE_SIGNATURE_VERSION_V2 : str := u "v2".
Definition SPECIAL_NODE_SIGNATURE_V2_ACTIVATION_HEIGHT : Z := 11111.
Definition SPECIAL_NODE_SIGNATURE_SCHEDULED_NETWORKS : list str := [u "devnet"; u "testnet"].

(** [transaction.metadata.get("kind") == k] *)
Definition has_kind (k : str) (t : Transaction) : bool := bool_decide (md_get (metadata t) "kind" = Some k).

Definition is_legacy_register_node_transaction (t : Transaction) : bool := has_kind REGISTER_NODE_KIND t.
Definition is_legacy_renew_node_transaction (t : Transaction) : bool := has_kind RENEW_NODE_KIND t.
Definition is_register_reward_node_transaction (t : Transaction) : bool := has_kind REGISTER_REWARD_NODE_KIND t.
Definition is_renew_reward_node_transaction (t : Transaction) : bool := has_kind RENEW_REWARD_NODE_KIND t.

Definition is_special_node_transaction (t : Transaction) : bool :=
  has_kind REGISTER_NODE_KIND t || has_kind RENEW_NODE_KIND t
  || has_kind REGISTER_REWARD_NODE_KIND t || has_kind RENEW_REWARD_NODE_KIND t.

Definition is_register_node_transaction (t : Transaction) : bool :=
  is_legacy_register_node_transaction t || is_register_reward_node_transaction t.
Definition is_renew_node_transaction (t : Transaction) : bool :=
  is_legacy_renew_node_transaction t || is_renew_reward_node_transaction t.

(** ** Activity *)

Definition current_epoch (height : Z) (params : ConsensusParams) : res Z :=
  if height <? 0 then raise ValueError "Block height cannot be negative."
  else Ok (height / epoch_length_blocks params).

Definition reward_node_warmup_complete_epoch (record : NodeRecord) (params : ConsensusParams) : res Z :=
  let* registered := current_epoch (registered_height record) params in
  if negb (reward_registration record) then Ok registered
  else Ok (registered + reward_node_warmup_epochs params).

Definition reward_node_warmup_complete_height (record : NodeRecord) (params : ConsensusParams) : res Z :=
  let* epoch := reward_node_warmup_complete_epoch record params in
  Ok (epoch * epoch_length_blocks params).

Definition reward_node_eligible_from_height (record : NodeRecord) (params : ConsensusParams) : res Z :=
  let renewal_ready_height := last_renewed_height record + 1 in
  if negb (reward_registration record) then Ok renewal_ready_height
  else let* warm := reward_node_warmup_complete_height record params in Ok (Z.max renewal_ready_height warm).

Definition reward_node_warmup_satisfied (record : NodeRecord) (height : Z) (params : ConsensusParams) : res bool :=
  if negb (reward_registration record) then Ok true
  else
    let* epoch := current_epoch height params in
    let* complete := reward_node_warmup_complete_epoch record params in
    Ok (complete <=? epoch).

Definition reward_node_is_active (record : NodeRecord) (height : Z) (params : ConsensusParams) : res bool :=
  let* epoch := current_epoch height params in
  let* renewal_epoch := current_epoch (last_renewed_height record) params in
  if height <=? last_renewed_height record then Ok false
  else if negb (renewal_epoch =? epoch) then Ok false
  else reward_node_warmup_satisfied record height params.

Section views.
Context {V : Type} `{NodeRegistryView V}.

Definition active_node_records (registry_view : V) (height : Z) (params : ConsensusParams) : res (list NodeRecord) :=
  filterM (fun record => reward_node_is_active record height params) (list_records registry_view).

Definition epoch_reward_remainder (height : Z) (params : ConsensusParams) : res Z :=
  if height <? 0 then raise ValueError "Block height cannot be negative."
  else if negb ((height + 1) mod epoch_length_blocks params =? 0) then Ok 0 else Ok 0.

Definition rewarded_node (pool count : Z) (index_record : Z * NodeRecord) : res RewardedNode :=
  let '(index, record) := index_record in
  let* i := utf8_encode (node_id record) in
  let* payout := utf8_encode (payout_address record) in
  let score := hex (double_sha256 (i ++ [byte.of_Z 0] ++ payout)) in
  Ok (mkRewardedNode (node_id record) (payout_address record) (owner_pubkey record) score
        (split_reward pool count index)).

Definition select_rewarded_nodes (registry_view : V) (height : Z) (previous_block_hash : str)
    (node_reward_pool : Z) (params : ConsensusParams) : res (list RewardedNode) :=
  let* active_records := active_node_records registry_view height params in
  if bool_decide (active_records = []) || (node_reward_pool <=? 0) then Ok []
  else
    let ordered_records := sorted_by record_key active_records in
    mapM (rewarded_node node_reward_pool (len ordered_records)) (enumerate ordered_records).
End views.

(** ** Owner signatures *)

Definition md_text (t : Transaction) (key : string) : str := md_get_or (metadata t) key [].

Definition _special_node_transaction_signature_payload_v1 (t : Transaction) : res str :=
  let k := md_text t "kind" in
  let owner_pubkey_hex := md_text t "owner_pubkey_hex" in
  if bool_decide (k = REGISTER_NODE_KIND) then
    Ok (join_text bar [REGISTER_NODE_KIND; md_text t "node_id"; md_text t "payout_address"; owner_pubkey_hex])
  else if bool_decide (k = REGISTER_REWARD_NODE_KIND) then
    Ok (join_text bar [REGISTER_REWARD_NODE_KIND; md_text t "node_id"; md_text t "payout_address"; owner_pubkey_hex;
      md_text t "node_pubkey_hex"; md_text t "declared_host"; md_text t "declared_port"; md_text t "registration_fee_chipbits"])
  else if bool_decide (k = RENEW_NODE_KIND) then
    Ok (join_text bar [RENEW_NODE_KIND; md_text t "node_id"; md_text t "renewal_epoch"; owner_pubkey_hex])
  else if bool_decide (k = RENEW_REWARD_NODE_KIND) then
    Ok (join_text bar [RENEW_REWARD_NODE_KIND; md_text t "node_id"; md_text t "renewal_epoch"; owner_pubkey_hex;
      md_text t "declared_host"; md_text t "declared_port"; md_text t "renewal_fee_chipbits"])
  else raise ValueError "Unsupported special node transaction kind.".

Definition special_node_transaction_signature_digest (t : Transaction) : res bytes :=
  let* text := _special_node_transaction_signature_payload_v1 t in
  let* encoded := utf8_encode text in
  Ok (double_sha256 encoded).

Definition special_node_payload_v2 (t : Transaction) (network : str) : res str :=
  let* text := _special_node_transaction_signature_payload_v1 t in
  Ok (join_text bar [SPECIAL_NODE_SIGNATURE_DOMAIN_V2 ++ u ":" ++ network; text]).

Definition special_node_transaction_signature_digest_v2 (t : Transaction) (network : str) : res bytes :=
  if bool_decide (network = []) then raise ValueError "Special node transaction v2 signatures require a network."
  else
    let* text := special_node_payload_v2 t network in
    let* encoded := utf8_encode text in
    Ok (double_sha256 encoded).

Definition special_node_signature_version_for_height (network : str) (height : Z) : str :=
  if bool_decide (network ∈ SPECIAL_NODE_SIGNATURE_SCHEDULED_NETWORKS)
     && (height <? SPECIAL_NODE_SIGNATURE_V2_ACTIVATION_HEIGHT) then []
  else SPECIAL_NODE_SIGNATURE_VERSION_V2.

Section signatures.
Context `{CryptoBackend}.

Definition special_node_transaction_signature_is_valid (t : Transaction) (network : str) (height : Z) : res bool :=
  let* owner_hex := md_index (metadata t) "owner_pubkey_hex" in
  let* owner := parse_public_key_hex owner_hex in
  let* signature_text := md_index (metadata t) "owner_signature_hex" in
  let* owner_signature := fromhex signature_text in
  let required_version := special_node_signature_version_for_height network height in
  let v := md_text t "owner_signature_version" in
  if negb (bool_decide (v = required_version)) then Ok false
  else if bool_decide (v = SPECIAL_NODE_SIGNATURE_VERSION_V2) then
    let signature_network := md_text t "owner_signature_network" in
    if negb (bool_decide (signature_network = network)) then Ok false
    else
      let* digest := special_node_transaction_signature_digest_v2 t network in
      verify_digest owner digest owner_signature
  else
    let* digest := special_node_transaction_signature_digest t in
    verify_digest owner digest owner_signature.

Definition special_node_transaction_signature_is_valid_stateless (t : Transaction) : res bool :=
  let* owner_hex := md_index (metadata t) "owner_pubkey_hex" in
  let* owner := parse_public_key_hex owner_hex in
  let* signature_text := md_index (metadata t) "owner_signature_hex" in
  let* owner_signature := fromhex signature_text in
  let v := md_text t "owner_signature_version" in
  if bool_decide (v = SPECIAL_NODE_SIGNATURE_VERSION_V2) then
    let signature_network := md_text t "owner_signature_network" in
    if bool_decide (signature_network = []) then Ok false
    else
      let* digest := special_node_transaction_signature_digest_v2 t signature_network in
      verify_digest owner digest owner_signature
  else if negb (bool_decide (v = [])) then Ok false
  else
    let* digest := special_node_transaction_signature_digest t in
    verify_digest owner digest owner_signature.

(** ** Stateless checks *)

Definition _validate_node_metadata_common (t : Transaction) : res unit :=
  raise_if (negb (bool_decide (inputs t = []))) ValueError "Special node transactions must not contain UTXO inputs." ;;
  raise_if (negb (bool_decide (outputs t = []))) ValueError "Special node transactions must not contain outputs." ;;
  raise_if (bool_decide (md_text t "owner_pubkey_hex" = [])) ValueError "Special node transactions must declare owner_pubkey_hex." ;;
  raise_if (bool_decide (md_text t "owner_signature_hex" = [])) ValueError "Special node transactions must declare owner_signature_hex." ;;
  let v := md_text t "owner_signature_version" in
  raise_if (negb (bool_decide (v = [])) && negb (bool_decide (v = SPECIAL_NODE_SIGNATURE_VERSION_V2))) ValueError
    "Special node transactions declare an unsupported owner_signature_version." ;;
  raise_if (bool_decide (v = SPECIAL_NODE_SIGNATURE_VERSION_V2) && bool_decide (md_text t "owner_signature_network" = []))
    ValueError "Special node transaction v2 signatures must declare owner_signature_network.".

Definition _validate_declared_endpoint (host port : str) : res unit :=
  raise_if (bool_decide (host = [])) ValueError "transactions must declare declared_host." ;;
  raise_if (bool_decide (port = [])) ValueError "transactions must declare declared_port." ;;
  let* port_value := py_int port in
  raise_if ((port_value <=? 0) || (65535 <? port_value)) ValueError "transactions must declare a valid declared_port.".

(** [if not payout_address or not is_valid_address(payout_address)] *)
Definition check_payout_address (payout : str) (msg : string) : res unit :=
  if bool_decide (payout = []) then raise ValueError msg
  else let* valid := is_valid_address payout in raise_if (negb valid) ValueError msg.

(** [if not text or int(text) < 0] *)
Definition check_declared_fee (text : str) (msg : string) : res unit :=
  if bool_decide (text = []) then raise ValueError msg
  else let* n := py_int text in raise_if (n <? 0) ValueError msg.

(** The key and signature checks that end each validator *)
Definition check_owner_signature (t : Transaction) (msg : string) : res unit :=
  let* owner_hex := md_index (metadata t) "owner_pubkey_hex" in
  let* _ := parse_public_key_hex owner_hex in
  let* valid := special_node_transaction_signature_is_valid_stateless t in
  raise_if (negb valid) ValueError msg.

Definition _validate_register_node_transaction (t : Transaction) : res unit :=
  _validate_node_metadata_common t ;;
  raise_if (bool_decide (md_text t "node_id" = [])) ValueError "register_node transactions must declare a node_id." ;;
  check_payout_address (md_text t "payout_address") "register_node transactions must declare a valid payout_address." ;;
  check_owner_signature t "register_node transaction owner signature is invalid.".

Definition _validate_renew_node_transaction (t : Transaction) : res unit :=
  _validate_node_metadata_common t ;;
  raise_if (bool_decide (md_text t "node_id" = [])) ValueError "renew_node transactions must declare a node_id." ;;
  raise_if (bool_decide (md_text t "renewal_epoch" = [])) ValueError "renew_node transactions must declare renewal_epoch." ;;
  check_owner_signature t "renew_node transaction owner signature is invalid.".

Definition _validate_register_reward_node_transaction (t : Transaction) : res unit :=
  _validate_node_metadata_common t ;;
  raise_if (bool_decide (md_text t "node_id" = [])) ValueError "register_reward_node transactions must declare a node_id." ;;
  check_payout_address (md_text t "payout_address") "register_reward_node transactions must declare a valid payout_address." ;;
  raise_if (bool_decide (md_text t "node_pubkey_hex" = [])) ValueError "register_reward_node transactions must declare node_pubkey_hex." ;;
  let* _ := parse_public_key_hex (md_text t "node_pubkey_hex") in
  _validate_declared_endpoint (md_text t "declared_host") (md_text t "declared_port") ;;
  check_declared_fee (md_text t "registration_fee_chipbits")
    "register_reward_node transactions must declare a non-negative registration_fee_chipbits." ;;
  check_owner_signature t "register_reward_node transaction owner signature is invalid.".

Definition _validate_renew_reward_node_transaction (t : Transaction) : res unit :=
  _validate_node_metadata_common t ;;
  raise_if (bool_decide (md_text t "node_id" = [])) ValueError "renew_reward_node transactions must declare a node_id." ;;
  raise_if (bool_decide (md_text t "renewal_epoch" = [])) ValueError "renew_reward_node transactions must declare renewal_epoch." ;;
  _validate_declared_endpoint (md_text t "declared_host") (md_text t "declared_port") ;;
  check_declared_fee (md_text t "renewal_fee_chipbits")
    "renew_reward_node transactions must declare a non-negative renewal_fee_chipbits." ;;
  check_owner_signature t "renew_reward_node transaction owner signature is invalid.".

Definition validate_special_node_transaction_stateless (t : Transaction) : res unit :=
  if is_legacy_register_node_transaction t then _validate_register_node_transaction t
  else if is_legacy_renew_node_transaction t then _validate_renew_node_transaction t
  else if is_register_reward_node_transaction t then _validate_register_reward_node_transaction t
  else if is_renew_reward_node_transaction t then _validate_renew_reward_node_transaction t
  else raise ValueError "Transaction is not a special node transaction.".

(** ** Effect on the registry *)

Context {V : Type} `{NodeRegistryView V}.

Definition apply_special_node_transaction (t : Transaction) (height : Z) (registry_view : V) : res V :=
  let m := metadata t in
  if is_legacy_register_node_transaction t then
    let* owner_hex := md_index m "owner_pubkey_hex" in
    let* owner := parse_public_key_hex owner_hex in
    let* i := md_index m "node_id" in
    let* payout := md_index m "payout_address" in
    Ok (upsert registry_view (mkNodeRecord i payout owner height height None None None false))
  else if is_register_reward_node_transaction t then
    let* owner_hex := md_index m "owner_pubkey_hex" in
    let* owner := parse_public_key_hex owner_hex in
    let* i := md_index m "node_id" in
    let registered := match get_by_node_id registry_view i with
                      | None => height
                      | Some existing => registered_height existing
                      end in
    let* payout := md_index m "payout_address" in
    let* node_key_hex := md_index m "node_pubkey_hex" in
    let* node_key := parse_public_key_hex node_key_hex in
    let* host := md_index m "declared_host" in
    let* port := md_int m "declared_port" in
    Ok (upsert registry_view (mkNodeRecord i payout owner registered height (Some node_key) (Some host) (Some port) true))
  else if is_legacy_renew_node_transaction t then
    let* i := md_index m "node_id" in
    match get_by_node_id registry_view i with
    | None => raise ValueError "Cannot renew a node that is not registered."
    | Some record =>
        Ok (upsert registry_view (mkNodeRecord (node_id record) (payout_address record) (owner_pubkey record)
              (registered_height record) height None None None false))
    end
  else if is_renew_reward_node_transaction t then
    let* i := md_index m "node_id" in
    match get_by_node_id registry_view i with
    | None => raise ValueError "Cannot renew a node that is not registered."
    | Some record =>
        let* host := md_index m "declared_host" in
        let* port := md_int m "declared_port" in
        Ok (upsert registry_view (mkNodeRecord (node_id record) (payout_address record) (owner_pubkey record)
              (registered_height record) height (node_pubkey record) (Some host) (Some port) (reward_registration record)))
    end
  else raise ValueError "Transaction is not a special node transaction.".
End signatures.

(** ** Lemmas *)

Lemma current_epoch_Ok h p : 0 <= h -> current_epoch h p = Ok (h / epoch_length_blocks p).
Proof. intros H. unfold current_epoch. by rewrite (proj2 (Z.ltb_ge _ _) H). Qed.

(** Active nodes are the records of the view that the activity rule keeps, in
    the order of the view. *)
Lemma active_node_records_spec {V} `{NodeRegistryView V} (v : V) h p active :
  active_node_records v h p = Ok active ->
  active = filter (fun r => reward_node_is_active r h p = Ok true) (list_records v).
Proof. apply filterM_spec. Qed.

Lemma active_elem {V} `{NodeRegistryView V} (v : V) h p active r :
  active_node_records v h p = Ok active ->
  r ∈ active <-> reward_node_is_active r h p = Ok true /\ r ∈ list_records v.
Proof. intros ->%active_node_records_spec. by rewrite list_elem_of_filter. Qed.

Lemma active_NoDup {V} `{NodeRegistryLaws V} (v : V) h p active :
  view_wf v -> active_node_records v h p = Ok active -> NoDup (node_id <$> active).
Proof.
  intros Hw ->%active_node_records_spec. eapply sublist_NoDup; [apply list_records_NoDup, Hw|].
  apply fmap_sublist, sublist_filter.
Qed.

Lemma active_sorted {V} `{NodeRegistryLaws V} (v : V) h p active :
  view_wf v -> active_node_records v h p = Ok active -> sorted_by record_key active = active.
Proof.
  intros Hw ->%active_node_records_spec. apply sorted_by_id.
  generalize (list_records_sorted v Hw). generalize (list_records v).
  induction 1 as [|r l Hl IH Hr]; [constructor|]. rewrite filter_cons. case_decide; [|done].
  constructor; [done|]. rewrite Forall_forall in *. intros x [_ Hx]%list_elem_of_filter. auto.
Qed.

Lemma rewarded_node_fields pool count i r w :
  rewarded_node pool count (i, r) = Ok w ->
  rewarded_node_id w = node_id r /\ rewarded_payout_address w = payout_address r /\
  rewarded_owner_pubkey w = owner_pubkey r /\ reward_chipbits w = split_reward pool count i.
Proof. unfold rewarded_node. intros H. do 2 (apply rbind_Ok in H as (? & _ & H)). by injection H as <-. Qed.

Lemma rewarded_fields pool count ps ws :
  mapM (rewarded_node pool count) ps = Ok ws ->
  rewarded_node_id <$> ws = node_id ∘ snd <$> ps /\ rewarded_payout_address <$> ws = payout_address ∘ snd <$> ps /\
  reward_chipbits <$> ws = split_reward pool count ∘ fst <$> ps.
Proof.
  intros H%mapM_Forall2. induction H as [|[i r] w ps ws Hw _ (IH1 & IH2 & IH3)]; [done|]. csimpl.
  apply rewarded_node_fields in Hw as (-> & -> & _ & ->). by rewrite IH1, IH2, IH3.
Qed.

(** ** Properties *)

(** When [select_rewarded_nodes] pays anyone, it pays each active node
    exactly once, in the order of the registry, and the shares add up to the
    pool to the last chipbit and differ by at most one. *)
Theorem node_pool_split_exact {V} `{NodeRegistryLaws V} (v : V) (h pool : Z) (prev : str) (p : ConsensusParams)
    (active : list NodeRecord) (ws : list RewardedNode) :
  view_wf v -> active_node_records v h p = Ok active -> active ≠ [] -> 0 < pool ->
  select_rewarded_nodes v h prev pool p = Ok ws ->
  rewarded_node_id <$> ws = node_id <$> active /\ NoDup (rewarded_node_id <$> ws) /\
  rewarded_payout_address <$> ws = payout_address <$> active /\
  zsum (reward_chipbits <$> ws) = pool /\
  Forall (fun w => pool / len active <= reward_chipbits w <= pool / len active + 1) ws.
Proof.
  intros Hw Ha Hne Hp Hs. unfold select_rewarded_nodes in Hs. rewrite Ha in Hs. simpl in Hs.
  rewrite bool_decide_eq_false_2, (proj2 (Z.leb_gt _ _)) in Hs by done. simpl in Hs.
  rewrite (active_sorted v h p) in Hs by done.
  assert (Hc : 0 < len active) by (destruct active; [done|rewrite len_cons; pose proof (len_nonneg active); lia]).
  apply rewarded_fields in Hs as (E1 & E2 & E3).
  rewrite (fmap_enumerate_snd node_id) in E1 by done. rewrite (fmap_enumerate_snd payout_address) in E2 by done.
  rewrite (fmap_enumerate_fst (split_reward pool (len active))) in E3 by done.
  repeat split; [done|rewrite E1; by eapply active_NoDup|done|rewrite E3; by apply split_sum|].
  apply Forall_forall. intros w Hin. assert (Hx : reward_chipbits w ∈ reward_chipbits <$> ws) by (apply list_elem_of_fmap; eauto).
  rewrite E3 in Hx. apply list_elem_of_fmap in Hx as (i & -> & _). apply split_bounds; lia.
Qed.

(** A node is active exactly in the rest of the epoch of its last renewal,
    from its eligibility height on; [reward_node_eligible_from_height], which
    operators are shown, is the height at which [reward_node_is_active] starts
    to hold. *)
Theorem active_node_rule (r : NodeRecord) (h e : Z) (p : ConsensusParams) :
  0 < epoch_length_blocks p -> 0 <= h -> 0 <= registered_height r -> 0 <= last_renewed_height r ->
  reward_node_eligible_from_height r p = Ok e ->
  reward_node_is_active r h p =
    Ok (bool_decide (e <= h /\ last_renewed_height r / epoch_length_blocks p = h / epoch_length_blocks p)).
Proof.
  intros HE Hh Hr Hl He. unfold reward_node_is_active, reward_node_eligible_from_height, reward_node_warmup_satisfied,
    reward_node_warmup_complete_height, reward_node_warmup_complete_epoch in *.
  rewrite !current_epoch_Ok in * by done. cbn [rbind] in *.
  set (E := epoch_length_blocks p) in *.
  assert (Hdiv : forall x, x <= h / E <-> x * E <= h).
  { intros x. split; intros Hx; [|apply Z.div_le_lower_bound; lia].
    pose proof (Z.mul_div_le h E HE). nia. }
  destruct (reward_registration r); simpl in *; injection He as <-.
  - specialize (Hdiv (registered_height r / E + reward_node_warmup_epochs p)).
    destruct (h <=? last_renewed_height r) eqn:E1; [|destruct (_ =? _) eqn:E2]; bool_prop; simpl; f_equal; symmetry.
    + apply bool_decide_eq_false. lia.
    + destruct (Z.leb_spec (registered_height r / E + reward_node_warmup_epochs p) (h / E));
        [apply bool_decide_eq_true|apply bool_decide_eq_false]; lia.
    + apply bool_decide_eq_false. tauto.
  - destruct (h <=? last_renewed_height r) eqn:E1; [|destruct (_ =? _) eqn:E2]; bool_prop; simpl; f_equal; symmetry;
      [apply bool_decide_eq_false|apply bool_decide_eq_true|apply bool_decide_eq_false]; lia.
Qed.

(** Text before the first bar *)
Lemma bar_split (n1 n2 r1 r2 : str) :
  124 ∉ n1 -> 124 ∉ n2 -> n1 ++ bar ++ r1 = n2 ++ bar ++ r2 -> n1 = n2 /\ r1 = r2.
Proof.
  revert n2. induction n1 as [|c n1 IH]; intros [|d n2] H1 H2 E; simpl in E.
  - by injection E.
  - injection E as <- E. destruct H2. left.
  - injection E as -> E. destruct H1. left.
  - injection E as <- E. rewrite elem_of_cons in H1, H2.
    destruct (IH n2) as [-> ->]; [tauto..|done|done].
Qed.

Lemma payload_v2_split t1 t2 n1 n2 :
  124 ∉ n1 -> 124 ∉ n2 -> special_node_payload_v2 t1 n1 = special_node_payload_v2 t2 n2 ->
  is_ok (special_node_payload_v2 t1 n1) = true ->
  n1 = n2 /\ _special_node_transaction_signature_payload_v1 t1 = _special_node_transaction_signature_payload_v1 t2.
Proof.
  unfold special_node_payload_v2. intros H1 H2 E Hok.
  destruct (_special_node_transaction_signature_payload_v1 t1) as [x|e]; [|discriminate Hok].
  destruct (_special_node_transaction_signature_payload_v1 t2) as [y|e]; [|discriminate E].
  cbn [rbind join_text] in E. apply (f_equal (fun r => ok_or r [])) in E. cbn [ok_or] in E. rewrite <- !app_assoc in E.
  apply app_inv_head, app_inv_head in E. apply bar_split in E as [-> ->]; done.
Qed.

(** A version 1 payload starts with the letter [r], a version 2 payload with [c]. *)
Lemma payload_v1_head t x : _special_node_transaction_signature_payload_v1 t = Ok x -> head x = Some 114.
Proof.
  unfold _special_node_transaction_signature_payload_v1. intros H. cbv zeta in H.
  destruct (bool_decide _); [by injection H as <-|]. destruct (bool_decide _); [by injection H as <-|].
  destruct (bool_decide _); [by injection H as <-|]. destruct (bool_decide _); [by injection H as <-|]. discriminate H.
Qed.

Lemma payload_v2_head t n x : special_node_payload_v2 t n = Ok x -> head x = Some 99.
Proof. unfold special_node_payload_v2. intros H. apply rbind_Ok in H as (y & _ & H). by injection H as <-. Qed.

(** The two payloads are distinct byte strings with the same double SHA-256. *)
Definition payloads_collide (m1 m2 : res str) : Prop :=
  exists p q, rbind m1 utf8_encode = Ok p /\ rbind m2 utf8_encode = Ok q /\ p ≠ q /\ double_sha256 p = double_sha256 q.

(** An owner signature made for one network is worth nothing on another: two
    version 2 digests agree only for the same network and the same version 1
    payload, and no version 2 digest is a version 1 digest, unless the two signed
    payloads themselves collide under double SHA-256. *)
Theorem owner_digest_separation (t1 t2 : Transaction) (n1 n2 : str) (d : bytes) :
  124 ∉ n1 -> 124 ∉ n2 -> special_node_transaction_signature_digest_v2 t1 n1 = Ok d ->
  (special_node_transaction_signature_digest_v2 t2 n2 = Ok d ->
     (n1 = n2 /\ _special_node_transaction_signature_payload_v1 t1 = _special_node_transaction_signature_payload_v1 t2) \/
     payloads_collide (special_node_payload_v2 t1 n1) (special_node_payload_v2 t2 n2)) /\
  (special_node_transaction_signature_digest t2 = Ok d ->
     payloads_collide (special_node_payload_v2 t1 n1) (_special_node_transaction_signature_payload_v1 t2)).
Proof.
  intros H1 H2 D1. unfold special_node_transaction_signature_digest_v2, special_node_transaction_signature_digest in *.
  destruct (bool_decide (n1 = [])); [discriminate D1|].
  apply rbind_Ok in D1 as (x & Ex & D1). apply rbind_Ok in D1 as (p & Ep & D1). injection D1 as D1.
  unfold payloads_collide. rewrite Ex. split; intros D2.
  - destruct (bool_decide (n2 = [])); [discriminate D2|].
    apply rbind_Ok in D2 as (y & Ey & D2). apply rbind_Ok in D2 as (q & Eq & D2). injection D2 as D2.
    destruct (decide (p = q)) as [->|Hne]; [left|right; rewrite Ey; exists p, q; repeat split; try assumption; congruence].
    apply utf8_decode_encode in Ep, Eq. assert (x = y) as -> by congruence.
    apply payload_v2_split; [done..|congruence|by rewrite Ex].
  - apply rbind_Ok in D2 as (y & Ey & D2). apply rbind_Ok in D2 as (q & Eq & D2). injection D2 as D2.
    rewrite Ey. exists p, q. split; [assumption|split; [assumption|split; [intros ->|congruence]]].
    apply utf8_decode_encode in Ep, Eq.
    assert (x = y) as -> by congruence. apply payload_v2_head in Ex. apply payload_v1_head in Ey. congruence.
Qed.

(** ** Witnesses *)

Definition sample_node (i : string) (renewed : Z) : NodeRecord :=
  mkNodeRecord (u i) (u "CHC") [] 5 renewed None None None false.
Definition sample_nodes : InMemoryNodeRegistryView :=
  registry_from_records [sample_node "n2" 205; sample_node "n1" 203; sample_node "n3" 150].
Definition sample_renewal : Transaction :=
  mkTransaction 1 [] [] 0 (list_to_map [(u "kind", RENEW_NODE_KIND); (u "node_id", u "n1"); (u "renewal_epoch", u "2")]).

Lemma node_pool_split_exact_witness :
  zsum (reward_chipbits <$> ok_or (select_rewarded_nodes sample_nodes 210 [] 1001 demo_params) []) = 1001.
Proof.
  refine (proj1 (proj2 (proj2 (proj2 (node_pool_split_exact sample_nodes 210 1001 [] demo_params
    [sample_node "n1" 203; sample_node "n2" 205] _ _ _ _ _ _))))).
  - apply registry_from_records_wf.
  - vm_compute. reflexivity.
  - discriminate.
  - reflexivity.
  - vm_compute. reflexivity.
Defined.

Lemma active_node_rule_witness :
  reward_node_is_active (sample_node "n1" 203) 204 demo_params = Ok true.
Proof.
  rewrite (active_node_rule (sample_node "n1" 203) 204 204 demo_params); [|done..].
  reflexivity.
Defined.

Definition sample_renewal_digest : bytes := Eval vm_compute in
  ok_or (special_node_transaction_signature_digest_v2 sample_renewal (u "testnet")) [].

Lemma owner_digest_separation_witness :
  (u "testnet" = u "testnet" /\ _special_node_transaction_signature_payload_v1 sample_renewal =
     _special_node_transaction_signature_payload_v1 sample_renewal) \/
  payloads_collide (special_node_payload_v2 sample_renewal (u "testnet")) (special_node_payload_v2 sample_renewal (u "testnet")).
Proof.
  assert (D : special_node_transaction_signature_digest_v2 sample_renewal (u "testnet") = Ok sample_renewal_digest) by (vm_compute; reflexivity).
  refine (proj1 (owner_digest_separation sample_renewal sample_renewal (u "testnet") (u "testnet") sample_renewal_digest _ _ D) D);
    (apply (bool_decide_eq_true_1 _); vm_compute; reflexivity).
Defined.
