(* ===== verification/Utxo.v ===== *)
(** * UTXO views ([consensus/utxo.py])

    The access contract [UtxoView] as a class of operations, its laws over an
    abstract set of spendable outputs, the in-memory view and the overlay that
    stages effects over another view.  [get] may raise, because the persisted
    implementation of the contract ([UtxoStore.v]) can.  Copies are values, so a
    view is its own [clone]. *)

From S2P Require Import Prelude PyOrder PyText Models Serialization.

Record UtxoEntry : Type := mkUtxoEntry { output : TxOutput; utxo_height : Z; is_coinbase : bool }.

#[global] Instance UtxoEntry_eq_dec : EqDecision UtxoEntry.
Proof. solve_decision. Defined.

(** ** The access contract *)

Class UtxoView (V : Type) := {
  utxo_get : V -> OutPoint -> res (option UtxoEntry);
  utxo_apply_transaction : V -> Transaction -> Z -> bool -> res V;
}.

(** [apply_block] is the same loop in every implementation. *)
Definition utxo_apply_block {V} `{UtxoView V} (view : V) (block : Block) (h : Z) : res V :=
  foldM (fun v '(index, t) => utxo_apply_transaction v t h (index =? 0)) view (enumerate (transactions block)).

(** ** The in-memory view *)

Abbreviation utxo_set := (gmap OutPoint UtxoEntry).
Record InMemoryUtxoView : Type := mkUtxos { utxo_entries : utxo_set }.

Definition memory_from_entries (items : list (OutPoint * UtxoEntry)) : InMemoryUtxoView :=
  mkUtxos (foldl (fun m '(o, e) => <[o := e]> m) ∅ items).

Definition memory_get (v : InMemoryUtxoView) (o : OutPoint) : res (option UtxoEntry) := Ok (utxo_entries v !! o).

Definition memory_add_utxo (v : InMemoryUtxoView) (o : OutPoint) (e : UtxoEntry) : InMemoryUtxoView :=
  mkUtxos (<[o := e]> (utxo_entries v)).

Definition memory_spend_utxo (v : InMemoryUtxoView) (o : OutPoint) : res (UtxoEntry * InMemoryUtxoView) :=
  match utxo_entries v !! o with
  | Some e => Ok (e, mkUtxos (delete o (utxo_entries v)))
  | None => raise KeyError "outpoint"
  end.

(** The outpoints a transaction spends, and the entries it creates. *)
Definition spends (t : Transaction) : list OutPoint := previous_output <$> inputs t.
Definition creates (t : Transaction) (id : str) (h : Z) (coinbase : bool) : list (OutPoint * UtxoEntry) :=
  (fun '(index, out) => (mkOutPoint id index, mkUtxoEntry out h coinbase)) <$> enumerate (outputs t).

Definition remove_all (m : utxo_set) (os : list OutPoint) : utxo_set := foldl (fun m o => delete o m) m os.
Definition insert_all (m : utxo_set) (es : list (OutPoint * UtxoEntry)) : utxo_set :=
  foldl (fun m '(o, e) => <[o := e]> m) m es.

(** The set after a transaction: the abstract effect that every view implements. *)
Definition after_transaction (m : utxo_set) (t : Transaction) (id : str) (h : Z) (coinbase : bool) : utxo_set :=
  insert_all (remove_all m (spends t)) (creates t id h coinbase).

Definition memory_apply_transaction (v : InMemoryUtxoView) (t : Transaction) (h : Z) (coinbase : bool) : res InMemoryUtxoView :=
  let popped := remove_all (utxo_entries v) (spends t) in
  let* id := txid t in
  Ok (mkUtxos (insert_all popped (creates t id h coinbase))).

Definition outpoint_key (item : OutPoint * UtxoEntry) : str * Z := (op_txid item.1, op_index item.1).

Definition memory_list_entries (v : InMemoryUtxoView) : list (OutPoint * UtxoEntry) :=
  sorted_by outpoint_key (map_to_list (utxo_entries v)).

#[global] Instance in_memory_utxo : UtxoView InMemoryUtxoView := {|
  utxo_get := memory_get;
  utxo_apply_transaction := memory_apply_transaction;
|}.

(** ** The overlay *)

Record OverlayUtxoView (B : Type) : Type := mkOverlay { base : B; added : utxo_set; spent : gset OutPoint }.
Arguments mkOverlay {B}.
Arguments base {B}.
Arguments added {B}.
Arguments spent {B}.

Section overlay.
Context {B : Type} `{UtxoView B}.

(** [OverlayUtxoView(base)] *)
Definition overlay_over (b : B) : OverlayUtxoView B := mkOverlay b ∅ ∅.

Definition overlay_get (v : OverlayUtxoView B) (o : OutPoint) : res (option UtxoEntry) :=
  if bool_decide (o ∈ spent v) then Ok None
  else match added v !! o with
       | Some e => Ok (Some e)
       | None => utxo_get (base v) o
       end.

Definition stage_spend (v : OverlayUtxoView B) (o : OutPoint) : OverlayUtxoView B :=
  mkOverlay (base v) (delete o (added v)) ({[o]} ∪ spent v).
Definition stage_create (v : OverlayUtxoView B) (item : OutPoint * UtxoEntry) : OverlayUtxoView B :=
  mkOverlay (base v) (<[item.1 := item.2]> (added v)) (spent v ∖ {[item.1]}).

Definition overlay_apply_transaction (v : OverlayUtxoView B) (t : Transaction) (h : Z) (coinbase : bool) : res (OverlayUtxoView B) :=
  let staged := foldl stage_spend v (spends t) in
  let* id := txid t in
  Ok (foldl stage_create staged (creates t id h coinbase)).

#[global] Instance overlay_utxo : UtxoView (OverlayUtxoView B) := {|
  utxo_get := overlay_get;
  utxo_apply_transaction := overlay_apply_transaction;
|}.
End overlay.

(** ** What a view promises

    [utxo_map] is the set a view stands for.  An implementation may refuse a
    lookup or an update by raising, but what it returns is what the set says. *)

Class UtxoViewLaws (V : Type) `{UtxoView V} := {
  utxo_map : V -> utxo_set;
  get_map : forall v o e, utxo_get v o = Ok e -> e = utxo_map v !! o;
  apply_map : forall v t h c v', utxo_apply_transaction v t h c = Ok v' ->
    exists id, txid t = Ok id /\ utxo_map v' = after_transaction (utxo_map v) t id h c;
}.

#[global] Program Instance in_memory_utxo_laws : UtxoViewLaws InMemoryUtxoView := {| utxo_map := utxo_entries |}.
Next Obligation. intros v o e E. by injection E as <-. Qed.
Next Obligation.
  intros v t h c v' E. simpl in E. unfold memory_apply_transaction in E.
  apply rbind_Ok in E as (id & Hid & E). injection E as <-. by exists id.
Qed.

Section overlay_laws.
Context {B : Type} `{UtxoViewLaws B}.

Definition overlay_map (v : OverlayUtxoView B) : utxo_set :=
  filter (fun kv => kv.1 ∉ spent v) (added v ∪ utxo_map (base v)).

Lemma overlay_map_lookup v o :
  overlay_map v !! o = if decide (o ∈ spent v) then None else (added v ∪ utxo_map (base v)) !! o.
Proof.
  unfold overlay_map. rewrite map_lookup_filter. destruct (_ !! o) as [e|]; simpl; [|by case_decide].
  case_decide; simplify_option_eq; done.
Qed.

Lemma stage_spend_map v o : overlay_map (stage_spend v o) = delete o (overlay_map v).
Proof.
  apply map_eq. intros o'. rewrite lookup_delete, !overlay_map_lookup. simpl.
  destruct (decide (o = o')) as [->|Hne]; [by rewrite decide_True by set_solver|].
  destruct (decide (o' ∈ spent v)); [by rewrite decide_True by set_solver|].
  rewrite decide_False by set_solver. rewrite !lookup_union, lookup_delete_ne by done. done.
Qed.

Lemma stage_create_map v item : overlay_map (stage_create v item) = <[item.1 := item.2]> (overlay_map v).
Proof.
  destruct item as [o e]. apply map_eq. intros o'. rewrite lookup_insert, !overlay_map_lookup. simpl.
  destruct (decide (o = o')) as [->|Hne].
  - rewrite decide_False by set_solver. by rewrite lookup_union, lookup_insert_eq, union_Some_l.
  - rewrite !lookup_union, lookup_insert_ne by done.
    destruct (decide (o' ∈ spent v)); [by rewrite decide_True by set_solver|by rewrite decide_False by set_solver].
Qed.

Lemma stage_spends_map v os : overlay_map (foldl stage_spend v os) = remove_all (overlay_map v) os.
Proof. revert v. induction os as [|o os IH]; intros v; simpl; [done|]. by rewrite IH, stage_spend_map. Qed.

Lemma stage_creates_map v es : overlay_map (foldl stage_create v es) = insert_all (overlay_map v) es.
Proof. revert v. induction es as [|[o e] es IH]; intros v; simpl; [done|]. by rewrite IH, stage_create_map. Qed.

#[global] Program Instance overlay_utxo_laws : UtxoViewLaws (OverlayUtxoView B) := {| utxo_map := overlay_map |}.
Next Obligation.
  intros v o e E. simpl in E. unfold overlay_get in E. rewrite overlay_map_lookup. case_bool_decide as Hs.
  - rewrite decide_True by done. by injection E as <-.
  - rewrite decide_False by done. rewrite lookup_union. destruct (added v !! o) as [e'|].
    + injection E as <-. by rewrite union_Some_l.
    + apply get_map in E as ->. by rewrite (left_id None _).
Qed.
Next Obligation.
  intros v t h c v' E. simpl in E. unfold overlay_apply_transaction in E.
  apply rbind_Ok in E as (id & Hid & E). injection E as <-. exists id. split; [done|].
  unfold after_transaction. by rewrite stage_creates_map, stage_spends_map.
Qed.
End overlay_laws.

(** ** Lookups after a transaction *)

Lemma remove_all_lookup m os o : remove_all m os !! o = if decide (o ∈ os) then None else m !! o.
Proof.
  revert m. induction os as [|o' os IH]; intros m; [by rewrite decide_False by set_solver|].
  change (remove_all m (o' :: os)) with (remove_all (delete o' m) os). rewrite IH, lookup_delete.
  destruct (decide (o ∈ os)) as [H1|H1], (decide (o' = o)) as [->|H2].
  - by rewrite decide_True by set_solver.
  - by rewrite decide_True by set_solver.
  - by rewrite decide_True by set_solver.
  - rewrite decide_False; [done|]. rewrite elem_of_cons. naive_solver.
Qed.

Lemma insert_all_lookup_ne m es o : o ∉ es.*1 -> insert_all m es !! o = m !! o.
Proof.
  revert m. induction es as [|[o' e] es IH]; intros m Hn; csimpl in *; [done|].
  rewrite elem_of_cons in Hn. rewrite IH by tauto. apply lookup_insert_ne. naive_solver.
Qed.

Lemma insert_all_lookup_elem m es o e : NoDup es.*1 -> (o, e) ∈ es -> insert_all m es !! o = Some e.
Proof.
  revert m. induction es as [|[o' e'] es IH]; intros m Hn Hin; csimpl in *; [by apply not_elem_of_nil in Hin|].
  apply NoDup_cons in Hn as [Hn Hd]. apply elem_of_cons in Hin as [[= -> ->]|Hin].
  - rewrite insert_all_lookup_ne by done. apply lookup_insert_eq.
  - by apply IH.
Qed.

Lemma enumerate_from_keys {A} (id : str) i (l : list A) :
  NoDup ((fun '(index, _) => mkOutPoint id index) <$> enumerate_from i l) /\
  Forall (fun o => i <= op_index o) ((fun '(index, _) => mkOutPoint id index) <$> enumerate_from i l).
Proof.
  revert i. induction l as [|x l IH]; intros i; csimpl; [by repeat constructor|].
  destruct (IH (i + 1)) as [Hn Hf]. rewrite Forall_forall in Hf. split; [constructor; [|done]|constructor].
  - intros Hin%Hf. simpl in Hin. lia.
  - simpl. lia.
  - apply Forall_forall. intros o Ho%Hf. lia.
Qed.

Lemma creates_NoDup t id h c : NoDup (creates t id h c).*1.
Proof.
  unfold creates. rewrite <- list_fmap_compose.
  erewrite list_fmap_ext; [apply (proj1 (enumerate_from_keys id 0 (outputs t)))|]. intros j [i out] _. done.
Qed.

(** ** Totals *)

(** The value of a set of outputs *)
Definition utxo_total (m : utxo_set) : Z := map_fold (fun _ e total => value (output e) + total) 0 m.

(** No output is negative. *)
Definition nonneg_outputs (m : utxo_set) : Prop := map_Forall (fun _ e => 0 <= value (output e)) m.

Lemma utxo_total_empty : utxo_total ∅ = 0.
Proof. apply map_fold_empty. Qed.

Lemma utxo_total_insert m o e : m !! o = None -> utxo_total (<[o := e]> m) = value (output e) + utxo_total m.
Proof. 
  intros H. unfold utxo_total.
  rewrite (map_fold_insert_L (fun _ e total => value (output e) + total)) by (done || intros; lia). done.
Qed.

Lemma utxo_total_delete m o e : m !! o = Some e -> utxo_total m = value (output e) + utxo_total (delete o m).
Proof.
  intros H. rewrite <- (utxo_total_insert (delete o m) o e) by apply lookup_delete_eq. by rewrite insert_delete_id.
Qed.

Lemma utxo_total_nonneg m : nonneg_outputs m -> 0 <= utxo_total m.
Proof.
  unfold nonneg_outputs. induction m as [|o e m Ho IH] using map_ind; [by rewrite utxo_total_empty|].
 intros Hn. rewrite utxo_total_insert by done.
  apply map_Forall_insert in Hn as [He Hm]; [|done]. apply IH in Hm. lia.
Qed.

(** Writing over an entry never creates value. *)
Lemma utxo_total_insert_le m o e : nonneg_outputs m -> utxo_total (<[o := e]> m) <= value (output e) + utxo_total m.
Proof.
  intros Hn. destruct (m !! o) as [e'|] eqn:E; [|rewrite utxo_total_insert by done; lia].
  rewrite <- insert_delete_eq, utxo_total_insert by apply lookup_delete_eq.
  rewrite (utxo_total_delete m o e') by done. apply Hn in E. lia.
Qed.

Lemma nonneg_insert m o e : 0 <= value (output e) -> nonneg_outputs m -> nonneg_outputs (<[o := e]> m).
Proof. intros. by apply map_Forall_insert_2. Qed.
Lemma nonneg_delete m o : nonneg_outputs m -> nonneg_outputs (delete o m).
Proof. apply map_Forall_delete. Qed.

Definition entries_total (es : list (OutPoint * UtxoEntry)) : Z := zsum ((fun e => value (output e.2)) <$> es).

Lemma insert_all_total m es :
  nonneg_outputs m -> Forall (fun e => 0 <= value (output e.2)) es ->
  utxo_total (insert_all m es) <= utxo_total m + entries_total es /\ nonneg_outputs (insert_all m es).
Proof.
  unfold entries_total. intros Hm He. revert m Hm. induction He as [|[o e] es He Hes IH]; intros m Hm; csimpl; [split; [lia|done]|].
  destruct (IH (<[o := e]> m)) as [IH1 IH2]; [by apply nonneg_insert|].
  split; [|done]. pose proof (utxo_total_insert_le m o e Hm). simpl in *. lia.
Qed.

(** What a list of distinct outpoints is worth in a set *)
Definition spent_value (m : utxo_set) (os : list OutPoint) : Z :=
  zsum ((fun o => match m !! o with Some e => value (output e) | None => 0 end) <$> os).

Lemma remove_all_total m os :
  NoDup os -> utxo_total (remove_all m os) = utxo_total m - spent_value m os.
Proof.
  revert m. induction os as [|o os IH]; intros m; csimpl; unfold spent_value; csimpl; [lia|].
  intros [Hn Hd]%NoDup_cons. rewrite IH by done.
  assert (Hs : spent_value (delete o m) os = spent_value m os).
  { unfold spent_value. f_equal. apply list_fmap_ext. intros i x Hx.
    apply list_elem_of_lookup_2 in Hx. rewrite lookup_delete_ne by congruence. done. }
  rewrite Hs. unfold spent_value. destruct (m !! o) as [e|] eqn:E.
  - rewrite (utxo_total_delete m o e) by done. lia.
  - rewrite delete_id by done. lia.
Qed.

Lemma nonneg_remove_all m os : nonneg_outputs m -> nonneg_outputs (remove_all m os).
Proof. revert m. induction os as [|o os IH]; intros m Hm; simpl; [done|]. apply IH. by apply nonneg_delete. Qed.

Lemma entries_total_creates t id h c : entries_total (creates t id h c) = zsum (value <$> outputs t).
Proof.
  unfold entries_total, creates, enumerate. f_equal. generalize 0. induction (outputs t) as [|out l IH]; intros i; csimpl; [done|].
  by rewrite IH.
Qed.

Lemma creates_nonneg t id h c :
  Forall (fun out => 0 <= value out) (outputs t) -> Forall (fun e => 0 <= value (output e.2)) (creates t id h c).
Proof.
  intros Hf. apply Forall_forall. intros e (p & -> & Hp)%list_elem_of_fmap. destruct p as [i out]. simpl.
  rewrite Forall_forall in Hf. apply Hf. rewrite <- (enumerate_from_snd 0 (outputs t)).
  apply list_elem_of_fmap. by exists (i, out).
Qed.

(** A transaction adds at most its outputs and takes exactly its inputs. *)
Lemma after_transaction_total m t id h c :
  nonneg_outputs m -> NoDup (spends t) -> Forall (fun out => 0 <= value out) (outputs t) ->
  utxo_total (after_transaction m t id h c) <= utxo_total m - spent_value m (spends t) + zsum (value <$> outputs t) /\
  nonneg_outputs (after_transaction m t id h c).
Proof.
  intros Hm Hd Ho. unfold after_transaction.
  destruct (insert_all_total (remove_all m (spends t)) (creates t id h c)) as [H1 H2];
    [by apply nonneg_remove_all|by apply creates_nonneg|].
  rewrite remove_all_total, entries_total_creates in H1 by done. done.
Qed.

(** ** The overlay refines the set it stands for *)

Lemma foldM_simulation {A S T} (f : S -> A -> res S) (g : T -> A -> res T) (abs : S -> T) (I : S -> Prop) s l :
  (forall s x, I s -> rbind (f s x) (fun s' => Ok (abs s')) = g (abs s) x) ->
  (forall s x s', I s -> f s x = Ok s' -> I s') -> I s ->
  rbind (foldM f s l) (fun s' => Ok (abs s')) = foldM g (abs s) l.
Proof.
  intros Hsim Hinv. revert s. induction l as [|x l IH]; intros s Hs; simpl; [done|].
  rewrite <- Hsim by done. destruct (f s x) as [s'|e] eqn:E; simpl; [|done]. apply IH. by eapply Hinv.
Qed.

Section overlay_refinement.
Context {B : Type} `{UtxoViewLaws B}.

Lemma overlay_step_simulation (v : OverlayUtxoView B) t h c :
  rbind (utxo_apply_transaction v t h c) (fun v' => Ok (mkUtxos (utxo_map v'))) =
  utxo_apply_transaction (mkUtxos (utxo_map v)) t h c.
Proof.
  simpl. unfold overlay_apply_transaction, memory_apply_transaction. destruct (txid t) as [id|e]; simpl; [|done].
  by rewrite stage_creates_map, stage_spends_map.
Qed.

Lemma stage_base (v : OverlayUtxoView B) os es : base (foldl stage_create (foldl stage_spend v os) es) = base v.
Proof.
  transitivity (base (foldl stage_spend v os)).
  - generalize (foldl stage_spend v os). induction es as [|e es IH]; intros w; simpl; [done|]. by rewrite IH.
  - revert v. induction os as [|o os IH]; intros w; simpl; [done|]. by rewrite IH.
Qed.

Lemma overlay_get_total (v : OverlayUtxoView B) o :
  utxo_get (base v) o = Ok (utxo_map (base v) !! o) -> utxo_get v o = Ok (utxo_map v !! o).
Proof.
  intros Hb. simpl. unfold overlay_get. rewrite overlay_map_lookup. case_bool_decide; [by rewrite decide_True|].
  rewrite decide_False by done. rewrite lookup_union. destruct (added v !! o); [by rewrite union_Some_l|].
  by rewrite Hb, (left_id None _).
Qed.

(** Staging is faithful: an overlay answers every lookup as the set it stands
    for does, applying a block to the overlay gives the overlay of exactly the
    set that the in-memory view computes, with the same exception when one is
    raised, and the view underneath is left untouched. *)
Theorem overlay_refines_set (v : OverlayUtxoView B) (block : Block) (h : Z) :
  (forall o, utxo_get (base v) o = Ok (utxo_map (base v) !! o) -> utxo_get v o = Ok (utxo_map v !! o)) /\
  rbind (utxo_apply_block v block h) (fun v' => Ok (mkUtxos (utxo_map v'))) =
    utxo_apply_block (mkUtxos (utxo_map v)) block h /\
  (forall v', utxo_apply_block v block h = Ok v' -> base v' = base v).
Proof.
  split; [|split].
  - apply overlay_get_total.
  - unfold utxo_apply_block. apply (foldM_simulation _ _ (fun v => mkUtxos (utxo_map v)) (fun _ => True)); [|done..].
    intros s [i t] _. apply overlay_step_simulation.
  - intros v' E. revert E. apply (foldM_inv (fun w => base w = base v)); [|done].
    intros s1 [i t] s2 _ <- E. simpl in E. unfold overlay_apply_transaction in E. inv_ok. apply stage_base.
Qed.
End overlay_refinement.
