(* ===== verification/UtxoStore.v ===== *)
(** * The persisted UTXO set and node registry ([storage/chainstate.py],
    [storage/node_registry.py])

    The two SQLite tables behind the access contracts of [Utxo.v] and
    [Registry.v], and the proofs that they keep them.  A table with a primary key
    is a finite map.  The driver refuses integers that do not fit 64 bits and text
    that UTF-8 cannot encode, so a statement may raise; [sqlite_transaction] rolls
    back on an exception, so the table is unchanged then.  A column of hexadecimal
    text holds the bytes it decodes to ([fromhex_hex]). *)

From S2P Require Import Prelude PyOrder PyText Models Serialization Registry Utxo.

(** ** Bound parameters of a statement *)

Definition sqlite_int (n : Z) : res Z :=
  if (- 2 ^ 63 <=? n) && (n <? 2 ^ 63) then Ok n
  else raise OverflowError "Python int too large to convert to SQLite INTEGER".

Definition sqlite_text (s : str) : res str := let* _ := utf8_encode s in Ok s.

(** ** [SQLiteChainStateRepository] *)

Record SQLiteChainStateRepository : Type := mkChainState { utxo_rows : utxo_set }.

Definition bind_outpoint (o : OutPoint) : res unit :=
  let* _ := sqlite_text (op_txid o) in let* _ := sqlite_int (op_index o) in Ok tt.

Definition bind_entry (e : UtxoEntry) : res unit :=
  let* _ := sqlite_int (value (output e)) in let* _ := sqlite_text (recipient (output e)) in
  let* _ := sqlite_int (utxo_height e) in Ok tt.

Definition store_get_utxo (db : SQLiteChainStateRepository) (o : OutPoint) : res (option UtxoEntry) :=
  bind_outpoint o ;; Ok (utxo_rows db !! o).

Definition store_put_utxo (db : SQLiteChainStateRepository) (o : OutPoint) (e : UtxoEntry) : res SQLiteChainStateRepository :=
  bind_outpoint o ;; bind_entry e ;; Ok (mkChainState (<[o := e]> (utxo_rows db))).

Definition store_spend_utxo (db : SQLiteChainStateRepository) (o : OutPoint) : res SQLiteChainStateRepository :=
  bind_outpoint o ;; Ok (mkChainState (delete o (utxo_rows db))).

(** [ORDER BY txid, output_index] *)
Definition store_list_utxos (db : SQLiteChainStateRepository) : list (OutPoint * UtxoEntry) :=
  sorted_by outpoint_key (map_to_list (utxo_rows db)).

(** A second row with the same key violates the primary key. *)
Definition store_insert (db : SQLiteChainStateRepository) (item : OutPoint * UtxoEntry) : res SQLiteChainStateRepository :=
  bind_outpoint item.1 ;; bind_entry item.2 ;;
  match utxo_rows db !! item.1 with
  | Some _ => raise IntegrityError "UNIQUE constraint failed: utxos.txid, utxos.output_index"
  | None => Ok (mkChainState (<[item.1 := item.2]> (utxo_rows db)))
  end.

Definition store_replace_all (db : SQLiteChainStateRepository) (items : list (OutPoint * UtxoEntry)) : res SQLiteChainStateRepository :=
  foldM store_insert (mkChainState ∅) items.

Definition store_apply_transaction (db : SQLiteChainStateRepository) (t : Transaction) (h : Z) (coinbase : bool) :
    res SQLiteChainStateRepository :=
  let* db' := foldM store_spend_utxo db (spends t) in
  let* id := txid t in
  foldM (fun db '(o, e) => store_put_utxo db o e) db' (creates t id h coinbase).

#[global] Instance sqlite_utxo : UtxoView SQLiteChainStateRepository := {|
  utxo_get := store_get_utxo;
  utxo_apply_transaction := store_apply_transaction;
|}.

(** *** It keeps the contract *)

Lemma store_spends_rows os db db' :
  foldM store_spend_utxo db os = Ok db' -> utxo_rows db' = remove_all (utxo_rows db) os.
Proof.
  revert db. induction os as [|o os IH]; intros db E; simpl in E |- *; [by injection E as <-|].
  apply rbind_Ok in E as (db1 & E1 & E). apply IH in E. unfold store_spend_utxo in E1.
  apply rbind_Ok in E1 as ([] & _ & E1). by injection E1 as <-.
Qed.

Lemma store_puts_rows es db db' :
  foldM (fun db '(o, e) => store_put_utxo db o e) db es = Ok db' -> utxo_rows db' = insert_all (utxo_rows db) es.
Proof.
  revert db. induction es as [|[o e] es IH]; intros db E; simpl in E |- *; [by injection E as <-|].
  apply rbind_Ok in E as (db1 & E1 & E). apply IH in E. unfold store_put_utxo in E1.
  do 2 (apply rbind_Ok in E1 as ([] & _ & E1)). by injection E1 as <-.
Qed.

#[global] Program Instance sqlite_utxo_laws : UtxoViewLaws SQLiteChainStateRepository := {| utxo_map := utxo_rows |}.
Next Obligation. intros db o e E. apply rbind_Ok in E as ([] & _ & E). by injection E as <-. Qed.
Next Obligation.
  intros db t h c db' E. simpl in E. unfold store_apply_transaction in E. apply rbind_Ok in E as (db1 & E1 & E).
  apply rbind_Ok in E as (id & Hid & E). exists id. split; [done|].
  apply store_spends_rows in E1. apply store_puts_rows in E. by rewrite E, E1.
Qed.

(** Rows whose columns the driver accepts *)
Definition storable (item : OutPoint * UtxoEntry) : Prop := bind_outpoint item.1 = Ok tt /\ bind_entry item.2 = Ok tt.

Lemma store_inserts items db :
  Forall storable items -> NoDup items.*1 -> (forall o, o ∈ items.*1 -> utxo_rows db !! o = None) ->
  foldM store_insert db items = Ok (mkChainState (insert_all (utxo_rows db) items)).
Proof.
  intros Hs. revert db. induction Hs as [|[o e] items [Ho He] _ IH]; intros db Hn Hf; simpl; [by destruct db|].
  csimpl in Hn. apply NoDup_cons in Hn as [Hno Hn]. unfold store_insert at 1. simpl in *. rewrite Ho, He. simpl.
  rewrite (Hf o) by left. simpl. rewrite IH; [done..|].
  intros o' Ho'. simpl. rewrite lookup_insert_ne by congruence. apply Hf. by right.
Qed.

Lemma insert_all_list_to_map items : NoDup items.*1 -> insert_all ∅ items = list_to_map items.
Proof.
  intros Hn. apply map_eq. intros o. destruct (decide (o ∈ items.*1)) as [Hin|Hout].
  - apply list_elem_of_fmap in Hin as ([o' e] & -> & Hin). simpl.
    rewrite (insert_all_lookup_elem _ _ o' e) by done. symmetry. by apply elem_of_list_to_map_1.
  - rewrite insert_all_lookup_ne by done. rewrite lookup_empty. symmetry. by apply not_elem_of_list_to_map_1.
Qed.

(** Inserting the listing of a set rebuilds it. *)
Lemma insert_listing (m : utxo_set) : insert_all ∅ (sorted_by outpoint_key (map_to_list m)) = m.
Proof.
  assert (Hn : NoDup (sorted_by outpoint_key (map_to_list m)).*1) by (rewrite sorted_by_Permutation; apply NoDup_fst_map_to_list).
  rewrite insert_all_list_to_map by done. transitivity (list_to_map (map_to_list m) : utxo_set); [|apply list_to_map_to_list].
  apply list_to_map_proper; [done|]. apply sorted_by_Permutation.
Qed.

(** Chain activation writes the set it computed: [replace_all] with the
    listing of an in-memory view leaves exactly the entries of the view in the
    table, and reading the table back gives the same view, whatever the table
    held before. *)
Theorem chainstate_replace_roundtrip (db : SQLiteChainStateRepository) (v : InMemoryUtxoView) :
  Forall storable (memory_list_entries v) ->
  store_replace_all db (memory_list_entries v) = Ok (mkChainState (utxo_entries v)) /\
  memory_from_entries (store_list_utxos (mkChainState (utxo_entries v))) = v.
Proof.
  intros Hs. set (m := utxo_entries v).
  assert (Hn : NoDup (memory_list_entries v).*1).
  { unfold memory_list_entries. rewrite sorted_by_Permutation. apply NoDup_fst_map_to_list. }
  assert (Hm : insert_all ∅ (memory_list_entries v) = m) by apply insert_listing.
  split.
  - unfold store_replace_all. rewrite store_inserts; [|done..|]; simpl; [by rewrite Hm|]. intros. apply lookup_empty.
  - destruct v as [m']. unfold memory_from_entries, store_list_utxos. simpl. f_equal. exact Hm.
Qed.

Lemma store_inserts_rows items db db' :
  foldM store_insert db items = Ok db' -> utxo_rows db' = insert_all (utxo_rows db) items.
Proof.
  revert db. induction items as [|[o e] items IH]; intros db E; simpl in E |- *; [by injection E as <-|].
  apply rbind_Ok in E as (db1 & E1 & E). apply IH in E. rewrite E. unfold store_insert in E1.
  do 2 (apply rbind_Ok in E1 as ([] & _ & E1)). simpl in E1. destruct (utxo_rows db !! o); [discriminate|]. by injection E1 as <-.
Qed.

Lemma store_replace_rows db v db' : store_replace_all db (memory_list_entries v) = Ok db' -> utxo_rows db' = utxo_entries v.
Proof. intros E. apply store_inserts_rows in E. rewrite E. apply insert_listing. Qed.

(** ** [SQLiteNodeRegistryRepository]

    The table has a primary key [node_id] and a unique [owner_pubkey].  [INSERT OR
    REPLACE] deletes every row in conflict with the new one on either. *)

Record SQLiteNodeRegistryRepository : Type := mkRegistryDb { registry_rows : gmap str NodeRecord }.

Definition registry_store_get (db : SQLiteNodeRegistryRepository) (i : str) : option NodeRecord := registry_rows db !! i.

(** [ORDER BY node_id] *)
Definition registry_store_list (db : SQLiteNodeRegistryRepository) : list NodeRecord :=
  sorted_by node_id (map_to_list (registry_rows db)).*2.

Definition registry_store_get_by_owner (db : SQLiteNodeRegistryRepository) (k : bytes) : option NodeRecord :=
  first_with_owner (registry_store_list db) k.

Definition registry_store_upsert (db : SQLiteNodeRegistryRepository) (r : NodeRecord) : SQLiteNodeRegistryRepository :=
  mkRegistryDb (<[node_id r := r]> (filter (fun kv => owner_pubkey kv.2 ≠ owner_pubkey r) (registry_rows db))).

(** [INSERT] of one record, which fails on a conflict *)
Definition registry_store_insert (db : SQLiteNodeRegistryRepository) (r : NodeRecord) : res SQLiteNodeRegistryRepository :=
  if bool_decide (is_Some (registry_rows db !! node_id r)) then raise IntegrityError "UNIQUE constraint failed: node_registry.node_id"
  else if bool_decide (is_Some (registry_store_get_by_owner db (owner_pubkey r))) then
    raise IntegrityError "UNIQUE constraint failed: node_registry.owner_pubkey"
  else Ok (mkRegistryDb (<[node_id r := r]> (registry_rows db))).

Definition registry_store_replace_all (db : SQLiteNodeRegistryRepository) (records : list NodeRecord) :
    res SQLiteNodeRegistryRepository :=
  foldM registry_store_insert (mkRegistryDb ∅) records.

Definition registry_store_snapshot (db : SQLiteNodeRegistryRepository) : InMemoryNodeRegistryView :=
  registry_from_records (registry_store_list db).

#[global] Instance sqlite_registry : NodeRegistryView SQLiteNodeRegistryRepository := {|
  get_by_node_id := registry_store_get;
  get_by_owner_pubkey := registry_store_get_by_owner;
  upsert := registry_store_upsert;
  list_records := registry_store_list;
|}.

(** Every row is stored under its own node id. *)
Definition registry_db_wf (db : SQLiteNodeRegistryRepository) : Prop :=
  map_Forall (fun i r => node_id r = i) (registry_rows db).

Lemma registry_store_elem db r : registry_db_wf db -> r ∈ registry_store_list db <-> registry_rows db !! node_id r = Some r.
Proof.
  intros Hw. unfold registry_store_list. rewrite elem_of_sorted_by, list_elem_of_fmap. split.
  - intros ([i r'] & -> & Hin%elem_of_map_to_list). simpl. by rewrite (Hw i r' Hin).
  - intros Hr. exists (node_id r, r). split; [done|]. by apply elem_of_map_to_list.
Qed.

Lemma registry_store_ids db : registry_db_wf db -> NoDup (node_id <$> registry_store_list db).
Proof.
  intros Hw. unfold registry_store_list. rewrite sorted_by_Permutation, <- list_fmap_compose.
  erewrite list_fmap_ext; [apply (NoDup_fst_map_to_list (registry_rows db))|].
  intros j [i r] Hj. apply list_elem_of_lookup_2, elem_of_map_to_list in Hj. simpl. by apply Hw.
Qed.

(** With distinct node ids, the order by node id is the order by the whole key. *)
Lemma sorted_by_id_record_key l :
  NoDup (node_id <$> l) -> StronglySorted (key_le node_id) l -> StronglySorted (key_le record_key) l.
Proof.
  intros Hn Hs. induction Hs as [|r l Hs IH Hr]; [constructor|]. csimpl in Hn. apply NoDup_cons in Hn as [Hi Hn].
  constructor; [by apply IH|]. rewrite Forall_forall in *. intros x Hx. specialize (Hr x Hx).
  unfold key_le, py_le in *. change (pair_leb (record_key r) (record_key x) = true). unfold pair_leb, record_key.
  cbn [fst snd]. rewrite Hr. destruct (py_leb (node_id x) (node_id r)) eqn:E; [exfalso|done].
  apply Hi. apply list_elem_of_fmap. exists x. split; [|done]. by apply py_leb_antisym.
Qed.

#[global] Program Instance sqlite_registry_laws : NodeRegistryLaws SQLiteNodeRegistryRepository := {| view_wf := registry_db_wf |}.
Next Obligation.
  intros db r Hw. apply map_Forall_insert_2; [done|]. intros i x Hx. apply map_lookup_filter_Some in Hx as [Hx _]. by apply Hw.
Qed.
Next Obligation. intros db r _. apply lookup_insert_eq. Qed.
Next Obligation.
  intros db r i Hw Hf Hne. simpl. unfold registry_store_get. simpl. rewrite lookup_insert_ne by done.
  rewrite map_lookup_filter. destruct (registry_rows db !! i) as [r'|] eqn:E; simpl; [|done].
  rewrite option_guard_True; [done|]. intros Ho. apply Hne. rewrite <- (Hw i r' E). apply Hf; [|done].
  apply registry_store_elem; [done|]. by rewrite (Hw i r' E).
Qed.
Next Obligation. intros db r Hw. by apply registry_store_elem. Qed.
Next Obligation. intros db i r Hw E. by apply Hw. Qed.
Next Obligation. intros db Hw. by apply registry_store_ids. Qed.
Next Obligation.
  intros db Hw. apply sorted_by_id_record_key; [by apply registry_store_ids|]. apply sorted_by_StronglySorted.
Qed.
Next Obligation. intros db k r Hw E. by apply first_with_owner_Some in E. Qed.
Next Obligation. intros db k Hw E. by apply first_with_owner_None. Qed.

Lemma registry_build_get l d i :
  NoDup (node_id <$> l) ->
  dict_get (foldl (fun d r => dict_set d (node_id r) r) d l) i =
  match list_find (fun r => node_id r = i) l with Some (_, r) => Some r | None => dict_get d i end.
Proof.
  revert d. induction l as [|r l IH]; intros d Hn; [done|]. csimpl in Hn. apply NoDup_cons in Hn as [Hr Hn].
  simpl. rewrite IH by done. destruct (decide (node_id r = i)) as [<-|Hne].
  - destruct (list_find (fun r0 => node_id r0 = node_id r) l) as [[j r']|] eqn:E; simpl; [|apply dict_get_set_eq].
    apply list_find_Some in E as (Hj & Hid & _). destruct Hr. apply list_elem_of_fmap. exists r'. split; [done|].
    by eapply list_elem_of_lookup_2.
  - destruct (list_find (fun r0 => node_id r0 = i) l) as [[j r']|]; simpl; [done|]. by apply dict_get_set_ne.
Qed.

Lemma registry_snapshot_get db i :
  registry_db_wf db -> get_by_node_id (registry_store_snapshot db) i = get_by_node_id db i.
Proof.
  intros Hw. simpl. unfold registry_get_by_node_id, registry_store_snapshot, registry_from_records. simpl.
  rewrite registry_build_get by by apply registry_store_ids.
  destruct (list_find (fun r => node_id r = i) (registry_store_list db)) as [[j r]|] eqn:E.
  - apply list_find_Some in E as (Hj & <- & _). apply list_elem_of_lookup_2, registry_store_elem in Hj; [|done]. symmetry. exact Hj.
  - simpl. unfold registry_store_get. destruct (registry_rows db !! i) as [r|] eqn:Er; [|done].
    apply list_find_None in E. rewrite Forall_forall in E. destruct (E r); [|by apply Hw].
    apply registry_store_elem; [done|]. by rewrite (Hw i r Er).
Qed.

(** The two registries agree: a snapshot of the table answers every lookup by
    node id as the table does, lists the same records in the same order, and,
    while owner keys are unique, finds the same record by owner. *)
Theorem registry_snapshot_faithful (db : SQLiteNodeRegistryRepository) :
  registry_db_wf db ->
  (forall i, get_by_node_id (registry_store_snapshot db) i = get_by_node_id db i) /\
  list_records (registry_store_snapshot db) = list_records db /\
  (owners_unique db -> forall k, get_by_owner_pubkey (registry_store_snapshot db) k = get_by_owner_pubkey db k).
Proof.
  intros Hw. pose proof (registry_from_records_wf (registry_store_list db)) as Hws.
  assert (Hget : forall i, get_by_node_id (registry_store_snapshot db) i = get_by_node_id db i).
  { intros i. apply registry_snapshot_get; done. }
  assert (Hlist : list_records (registry_store_snapshot db) = list_records db).
  { apply (sorted_unique record_key).
    - intros x y Hx Hy [= Hi _]. apply list_records_get in Hx, Hy; [|done..]. rewrite Hi in Hx. congruence.
    - by apply list_records_sorted.
    - by apply (list_records_sorted db).
    - apply NoDup_Permutation.
      + eapply NoDup_fmap_1, list_records_NoDup, Hws.
      + eapply NoDup_fmap_1, (list_records_NoDup db), Hw.
      + intros r. rewrite !list_records_get by done. by rewrite Hget. }
  split; [done|]. split; [done|]. intros Hu k.
  destruct (get_by_owner_pubkey (registry_store_snapshot db) k) as [r|] eqn:E1, (get_by_owner_pubkey db k) as [r'|] eqn:E2; [| | |done].
  - apply get_by_owner_Some in E1 as [Ho1 Hi1]; [|done]. apply get_by_owner_Some in E2 as [Ho2 Hi2]; [|done].
    rewrite Hlist in Hi1. f_equal. apply Hu; [done..|congruence].
  - apply get_by_owner_Some in E1 as [Ho1 Hi1]; [|done]. rewrite Hlist in Hi1. by destruct (@get_by_owner_None _ _ sqlite_registry_laws db k Hw E2 r Hi1).
  - apply get_by_owner_Some in E2 as [Ho2 Hi2]; [|done]. rewrite <- Hlist in Hi2.
    by destruct (@get_by_owner_None _ _ in_memory_registry_laws (registry_store_snapshot db) k Hws E1 r' Hi2).
Qed.

(** ** Witnesses *)

Definition sample_utxos : InMemoryUtxoView :=
  mkUtxos {[mkOutPoint (u "ab") 1 := mkUtxoEntry (mkTxOutput 5 (u "CHC1")) 3 false;
            mkOutPoint (u "ab") 0 := mkUtxoEntry (mkTxOutput 7 (u "CHC2")) 3 true]}.

Lemma chainstate_replace_roundtrip_witness :
  store_replace_all (mkChainState ∅) (memory_list_entries sample_utxos) = Ok (mkChainState (utxo_entries sample_utxos)).
Proof.
  refine (proj1 (chainstate_replace_roundtrip (mkChainState ∅) sample_utxos _)).
  assert (El : memory_list_entries sample_utxos = [(mkOutPoint (u "ab") 0, mkUtxoEntry (mkTxOutput 7 (u "CHC2")) 3 true);
    (mkOutPoint (u "ab") 1, mkUtxoEntry (mkTxOutput 5 (u "CHC1")) 3 false)]) by (vm_compute; reflexivity).
  rewrite El. repeat constructor.
Defined.

Definition sample_row : NodeRecord := mkNodeRecord (u "n1") (u "CHC1") [] 5 9 None None None false.

Lemma registry_snapshot_faithful_witness :
  get_by_node_id (registry_store_snapshot (mkRegistryDb {[u "n1" := sample_row]})) (u "n1") = Some sample_row.
Proof.
  rewrite (proj1 (registry_snapshot_faithful (mkRegistryDb {[u "n1" := sample_row]}) ltac:(by apply map_Forall_singleton)) (u "n1")).
  reflexivity.
Defined.
