(* ===== verification/Headers.v ===== *)
(** * The header index and the block store ([storage/headers.py],
    [storage/blocks.py])

    The table of headers, keyed by block hash, with the columns the code reads:
    the parent, the height, the cumulative work as decimal text, the main-chain
    flag and the serialized header; the stored tip; and the table of blocks.  Rows
    hold serialized bytes, which are decoded on every read as in the source. *)

From S2P Require Import Prelude PyOrder PyText Hashes Models Serialization UtxoStore.

Definition zero_hash : str := repeat 48 64.

Record HeaderRow : Type := mkRow {
  row_previous : str;
  row_height : option Z;
  row_work : option str;
  row_main : bool;
  row_raw : bytes;
}.

Record HeaderRecord : Type := mkHeaderRecord {
  record_hash : str;
  record_header : BlockHeader;
  record_previous : str;
  record_height : option Z;
  record_work : option Z;
  record_main : bool;
}.

Record ChainTip : Type := mkTip { tip_hash : str; tip_height : Z }.

Record HeaderDb : Type := mkHeaderDb { header_rows : gmap str HeaderRow; chain_tip_hash : option str }.

(** An optional column *)
Definition opt_int (o : option Z) : res (option Z) :=
  match o with None => Ok None | Some n => let* m := sqlite_int n in Ok (Some m) end.

Definition header_put (db : HeaderDb) (hdr : BlockHeader) (h work : option Z) (main : bool) : res HeaderDb :=
  let* hash := block_hash hdr in
  let* raw := serialize_block_header hdr in
  let* height_column := opt_int h in
  Ok (mkHeaderDb (<[hash := mkRow (previous_block_hash hdr) height_column (py_str_int <$> work) main raw]> (header_rows db))
    (chain_tip_hash db)).

Definition decode_header (raw : bytes) : res BlockHeader :=
  let* '(hdr, offset) := deserialize_block_header raw 0 in
  if negb (offset =? len raw) then raise ValueError "Stored header payload contains trailing bytes." else Ok hdr.

Definition header_get (db : HeaderDb) (hash : str) : res (option BlockHeader) :=
  match header_rows db !! hash with
  | None => Ok None
  | Some row => let* hdr := decode_header (row_raw row) in Ok (Some hdr)
  end.

Definition header_get_tip (db : HeaderDb) : option ChainTip :=
  match chain_tip_hash db with
  | None => None
  | Some hash =>
      match header_rows db !! hash with
      | None => None
      | Some row => match row_height row with None => None | Some h => Some (mkTip hash h) end
      end
  end.

(** [UPDATE headers SET ... WHERE block_hash = ?] *)
Definition update_row (rows : gmap str HeaderRow) (hash : str) (f : HeaderRow -> HeaderRow) : gmap str HeaderRow :=
  match rows !! hash with None => rows | Some row => <[hash := f row]> rows end.
Definition on_main (h : Z) (row : HeaderRow) : HeaderRow := mkRow (row_previous row) (Some h) (row_work row) true (row_raw row).
Definition off_main (row : HeaderRow) : HeaderRow :=
  mkRow (row_previous row) (row_height row) (row_work row) false (row_raw row).

Definition header_set_tip (db : HeaderDb) (hash : str) (h : Z) : res HeaderDb :=
  let* h' := sqlite_int h in
  Ok (mkHeaderDb (update_row (header_rows db) hash (on_main h')) (Some hash)).

Definition opt_py_int (o : option str) : res (option Z) :=
  match o with None => Ok None | Some s => let* n := py_int s in Ok (Some n) end.

Definition header_get_record (db : HeaderDb) (hash : str) : res (option HeaderRecord) :=
  match header_rows db !! hash with
  | None => Ok None
  | Some row =>
      let* hdr := decode_header (row_raw row) in
      let* work := opt_py_int (row_work row) in
      Ok (Some (mkHeaderRecord hash hdr (row_previous row) (row_height row) work (row_main row)))
  end.

(** [ORDER BY LENGTH(w) DESC, w DESC, COALESCE(height, -1) DESC, block_hash DESC] *)
Definition work_key (item : str * HeaderRow) : (Z * str) * (Z * str) :=
  let w := default [] (row_work item.2) in
  ((len w, w), (default (-1) (row_height item.2), item.1)).

Definition with_work (db : HeaderDb) : list (str * HeaderRow) :=
  filter (fun item => is_Some (row_work item.2)) (map_to_list (header_rows db)).

Definition header_find_best_tip (db : HeaderDb) : res (option HeaderRecord) :=
  match last (sorted_by work_key (with_work db)) with
  | None => Ok None
  | Some (hash, _) => header_get_record db hash
  end.

(** Headers without a child *)
Definition is_leaf (db : HeaderDb) (hash : str) : bool :=
  forallb (fun item => negb (bool_decide (row_previous item.2 = hash))) (map_to_list (header_rows db)).

Definition header_list_candidate_tips (db : HeaderDb) : res (list HeaderRecord) :=
  let leaves := filter (fun item => is_leaf db item.1 = true) (with_work db) in
  let* records := mapM (fun item => header_get_record db item.1) (reverse (sorted_by work_key leaves)) in
  Ok (omap id records).

Fixpoint locator_loop (max_count : nat) (db : HeaderDb) (current : str) : res (list str) :=
  match max_count with
  | O => Ok []
  | S n =>
      if bool_decide (current = []) then Ok []
      else
        let* record := header_get_record db current in
        match record with
        | None => Ok [current]
        | Some r => if bool_decide (record_previous r = zero_hash) then Ok [current]
                    else let* rest := locator_loop n db (record_previous r) in Ok (current :: rest)
        end
  end.

Definition header_list_locator_hashes (db : HeaderDb) (max_count : Z) : res (list str) :=
  match header_get_tip db with
  | None => Ok []
  | Some tip => locator_loop (Z.to_nat max_count) db (tip_hash tip)
  end.

(** The height of the first locator on the main chain, or -1 *)
Fixpoint locator_height (db : HeaderDb) (locators : list str) : res Z :=
  match locators with
  | [] => Ok (-1)
  | l :: locators' =>
      let* record := header_get_record db l in
      match record with
      | Some r => match record_height r with
                  | Some h => if record_main r then Ok h else locator_height db locators'
                  | None => locator_height db locators'
                  end
      | None => locator_height db locators'
      end
  end.

Fixpoint collect_headers (rows : list (str * HeaderRow)) (stop_hash : str) : res (list BlockHeader) :=
  match rows with
  | [] => Ok []
  | (hash, row) :: rows' =>
      let* hdr := decode_header (row_raw row) in
      if bool_decide (hash = stop_hash) then Ok [hdr]
      else let* rest := collect_headers rows' stop_hash in Ok (hdr :: rest)
  end.

(** [WHERE is_main_chain = 1 AND height > ?]; a NULL height satisfies no comparison *)
Definition above (start : Z) (item : str * HeaderRow) : bool :=
  row_main item.2 && match row_height item.2 with Some h => start <? h | None => false end.
Definition height_key (item : str * HeaderRow) : Z := default 0 (row_height item.2).

Definition header_get_headers_after (db : HeaderDb) (locators : list str) (stop_hash : str) (limit : nat) : res (list BlockHeader) :=
  let* start_height := locator_height db locators in
  let rows := sorted_by height_key (filter (fun item => above start_height item = true) (map_to_list (header_rows db))) in
  collect_headers (take limit rows) stop_hash.

(** The walk to the root visits each header at most once unless the parent links
    form a cycle, so as many turns as there are headers, and one more, suffice. *)
Fixpoint path_loop (fuel : nat) (db : HeaderDb) (current : str) (path : list str) : res (list str) :=
  match fuel with
  | O => raise OutOfFuel "path_to_root"
  | S n =>
      if bool_decide (current = []) then Ok path
      else
        let* record := header_get_record db current in
        match record with
        | None => raise ValueError "Unknown header in path lookup"
        | Some r => if bool_decide (record_previous r = zero_hash) then Ok (current :: path)
                    else path_loop n db (record_previous r) (current :: path)
        end
  end.

Definition path_fuel (db : HeaderDb) : nat := S (size (header_rows db)).
Definition header_path_to_root (db : HeaderDb) (hash : str) : res (list str) := path_loop (path_fuel db) db hash [].

Definition header_set_main_chain (db : HeaderDb) (path_hashes : list str) : res HeaderDb :=
  let cleared := off_main <$> header_rows db in
  let* rows := foldM (fun rows '(h, hash) => let* h' := sqlite_int h in Ok (update_row rows hash (on_main h')))
    cleared (enumerate path_hashes) in
  Ok (mkHeaderDb rows (match last path_hashes with None => chain_tip_hash db | Some hash => Some hash end)).

(** [WHERE is_main_chain = 1 AND height = ? LIMIT 1] *)
Definition header_get_hash_at_height (db : HeaderDb) (h : Z) : option str :=
  fst <$> head (filter (fun item => row_main item.2 = true /\ row_height item.2 = Some h) (map_to_list (header_rows db))).

(** ** [SQLiteBlockRepository] *)

Record BlockDb : Type := mkBlockDb { block_rows : gmap str bytes }.

Definition block_put (db : BlockDb) (block : Block) : res BlockDb :=
  let* hash := block_hash (header block) in
  let* raw := serialize_block block in
  Ok (mkBlockDb (<[hash := raw]> (block_rows db))).

Definition block_get (db : BlockDb) (hash : str) : res (option Block) :=
  match block_rows db !! hash with
  | None => Ok None
  | Some raw =>
      let* '(block, offset) := deserialize_block raw 0 in
      if negb (offset =? len raw) then raise ValueError "Stored block payload contains trailing bytes." else Ok (Some block)
  end.

(** ** Decimal text ordered by length and then by characters is in numerical order *)

Definition is_digits (s : str) : Prop := Forall (fun c => 48 <= c <= 57) s.
Definition digits_val (s : str) : Z := foldl (fun acc c => acc * 10 + (c - 48)) 0 s.

Lemma digits_val_app s c : digits_val (s ++ [c]) = digits_val s * 10 + (c - 48).
Proof. unfold digits_val. by rewrite foldl_app. Qed.

Lemma digits_acc s acc : foldl (fun acc c => acc * 10 + (c - 48)) acc s = acc * 10 ^ len s + digits_val s.
Proof.
  unfold digits_val. revert acc. induction s as [|c s IH]; intros acc; simpl; [unfold len; simpl; lia|].
  rewrite IH, (IH (0 * 10 + (c - 48))), len_cons, Z.pow_add_r by (lia || apply len_nonneg). lia.
Qed.

Lemma digits_val_cons c s : digits_val (c :: s) = (c - 48) * 10 ^ len s + digits_val s.
Proof. unfold digits_val at 1. cbn [foldl]. rewrite digits_acc. lia. Qed.

Lemma digits_val_range s : is_digits s -> 0 <= digits_val s < 10 ^ len s.
Proof.
  induction 1 as [|c s Hc Hs IH]; [unfold digits_val, len; simpl; lia|].
  rewrite digits_val_cons, len_cons, Z.pow_add_r by (lia || apply len_nonneg). nia.
Qed.

Lemma lex_digits s1 s2 : is_digits s1 -> is_digits s2 -> length s1 = length s2 ->
  py_leb s1 s2 = (digits_val s1 <=? digits_val s2).
Proof.
  intros H1. revert s2. induction H1 as [|c s1 Hc Hs1 IH]; intros [|d s2] H2 Hl; try discriminate Hl; [done|].
  inversion H2 as [|? ? Hd Hs2]; subst. simpl in Hl. injection Hl as Hl. specialize (IH s2 Hs2 Hl).
  pose proof (digits_val_range s1 Hs1) as R1. pose proof (digits_val_range s2 Hs2) as R2.
  rewrite !digits_val_cons. unfold len in *. rewrite Hl in *. set (p := 10 ^ Z.of_nat (length s2)) in *.
  change (lex_leb (c :: s1) (d :: s2) = ((c - 48) * p + digits_val s1 <=? (d - 48) * p + digits_val s2)).
  cbn [lex_leb]. change (py_leb c d) with (c <=? d). change (py_leb d c) with (d <=? c).
  change (lex_leb s1 s2) with (py_leb s1 s2). rewrite IH.
  destruct (Z.leb_spec c d), (Z.leb_spec d c); try lia.
  - assert (c = d) as -> by lia. destruct (Z.leb_spec (digits_val s1) (digits_val s2)); symmetry; [apply Z.leb_le|apply Z.leb_gt]; lia.
  - symmetry. apply Z.leb_le. nia.
  - symmetry. apply Z.leb_gt. nia.
Qed.

Lemma dec_digits_val fuel n : fuel ≠ O -> 0 <= n < 2 ^ Z.of_nat fuel -> digits_val (dec_digits fuel n) = n.
Proof.
  revert n. induction fuel as [|fuel IH]; intros n Hf Hn; [done|]. simpl. destruct (Z.ltb_spec n 10).
  - unfold digits_val. simpl. lia.
  - pose proof (Z.div_mod n 10 ltac:(lia)). pose proof (Z.mod_pos_bound n 10 ltac:(lia)).
    rewrite Nat2Z.inj_succ, Z.pow_succ_r in Hn by lia. assert (fuel ≠ O) by (intros ->; simpl in *; lia).
    rewrite digits_val_app, IH by (done || lia). lia.
Qed.

Lemma dec_digits_low fuel n : fuel ≠ O -> 0 < n < 2 ^ Z.of_nat fuel -> 10 ^ (len (dec_digits fuel n) - 1) <= n.
Proof.
  unfold len. revert n. induction fuel as [|fuel IH]; intros n Hf Hn; [done|]. simpl. destruct (Z.ltb_spec n 10); [simpl; lia|].
  pose proof (Z.div_mod n 10 ltac:(lia)). pose proof (Z.mod_pos_bound n 10 ltac:(lia)).
  rewrite Nat2Z.inj_succ, Z.pow_succ_r in Hn by lia. assert (fuel ≠ O) by (intros ->; simpl in *; lia).
  assert (0 < n / 10) by (apply Z.div_str_pos; lia).
  specialize (IH (n / 10)). rewrite length_app. simpl. rewrite Nat2Z.inj_add. change (Z.of_nat 1) with 1.
  set (k := Z.of_nat (length (dec_digits fuel (n / 10)))) in *.
  assert (1 <= k). { unfold k. destruct fuel; [done|]. simpl. case_match; simpl; [lia|]. rewrite length_app. simpl. lia. }
  replace (k + 1 - 1) with (Z.succ (k - 1)) by lia. rewrite Z.pow_succ_r by lia. specialize (IH ltac:(done) ltac:(lia)). lia.
Qed.

Lemma str_int_fuel n : 0 <= n -> 0 <= n < 2 ^ Z.of_nat (S (Z.to_nat (Z.log2 n))).
Proof.
  intros Hn. rewrite Nat2Z.inj_succ, Z2Nat.id by apply Z.log2_nonneg.
  destruct (Z.eq_dec n 0) as [->|]; [done|]. pose proof (Z.log2_spec n). lia.
Qed.

Lemma py_str_int_digits n : 0 <= n -> is_digits (py_str_int n) /\ digits_val (py_str_int n) = n /\
  1 <= len (py_str_int n) /\ (n = 0 -> len (py_str_int n) = 1) /\ (0 < n -> 10 ^ (len (py_str_int n) - 1) <= n).
Proof.
  intros Hn. unfold py_str_int. rewrite (proj2 (Z.ltb_ge _ _)) by done. pose proof (str_int_fuel n Hn) as Hf.
  split; [by apply dec_digits_Forall|]. split; [by apply dec_digits_val|]. split.
  { unfold len. simpl. case_match; simpl; [lia|]. rewrite length_app. simpl. lia. }
  split; [by intros ->|]. intros. apply dec_digits_low; [done|lia].
Qed.

(** The order the table sorts cumulative work by *)
Lemma work_text_order a b : 0 <= a -> 0 <= b ->
  py_leb (len (py_str_int a), py_str_int a) (len (py_str_int b), py_str_int b) = (a <=? b).
Proof.
  intros Ha Hb. destruct (py_str_int_digits a Ha) as (Da & Va & La & Za & Pa). destruct (py_str_int_digits b Hb) as (Db & Vb & Lb & Zb & Pb).
  pose proof (digits_val_range _ Da) as Ra. pose proof (digits_val_range _ Db) as Rb. rewrite Va in Ra. rewrite Vb in Rb.
  change (pair_leb (len (py_str_int a), py_str_int a) (len (py_str_int b), py_str_int b) = (a <=? b)). unfold pair_leb. cbn [fst snd].
  set (la := len (py_str_int a)) in *. set (lb := len (py_str_int b)) in *.
  change (py_leb la lb) with (la <=? lb). change (py_leb lb la) with (lb <=? la).
  destruct (Z.leb_spec la lb), (Z.leb_spec lb la); try lia.
  - rewrite lex_digits, Va, Vb; [done..|]. unfold la, lb, len in *. lia.
  - assert (10 ^ la <= 10 ^ (lb - 1)) by (apply Z.pow_le_mono_r; lia). symmetry. apply Z.leb_le.
    destruct (Z.eq_dec b 0); [lia|]. specialize (Pb ltac:(lia)). lia.
  - assert (10 ^ lb <= 10 ^ (la - 1)) by (apply Z.pow_le_mono_r; lia). symmetry. apply Z.leb_gt.
    destruct (Z.eq_dec a 0); [lia|]. specialize (Pa ltac:(lia)). lia.
Qed.

(** ** The table along its operations *)

(** Rows decode, and cumulative work is stored as the text of a natural number. *)
Definition row_ok (row : HeaderRow) : Prop :=
  (exists hdr, decode_header (row_raw row) = Ok hdr) /\
  match row_work row with None => True | Some t => exists w, 0 <= w < 10 ^ max_str_digits /\ t = py_str_int w end.
Definition rows_ok (db : HeaderDb) : Prop := map_Forall (fun _ row => row_ok row) (header_rows db).

Lemma decode_serialized hdr raw : serialize_block_header hdr = Ok raw -> decode_header raw = Ok (canonical_header hdr).
Proof.
  intros E. unfold decode_header. pose proof (decodes_header hdr raw E [] []) as D. simpl in D. rewrite app_nil_r in D.
  change (len (@nil byte)) with 0 in D. rewrite D. simpl. by rewrite Z.eqb_refl.
Qed.

Lemma header_put_rows_ok db hdr h work main db' :
  match work with Some w => 0 <= w < 10 ^ max_str_digits | None => True end ->
  rows_ok db -> header_put db hdr h work main = Ok db' -> rows_ok db'.
Proof.
  intros Hw Hok E. unfold header_put in E. apply rbind_Ok in E as (hash & _ & E). apply rbind_Ok in E as (raw & Hraw & E).
  apply rbind_Ok in E as (hc & _ & E). injection E as <-. apply map_Forall_insert_2; [|done]. split.
  - exists (canonical_header hdr). by apply decode_serialized.
  - destruct work as [w|]; simpl; [by exists w|done].
Qed.

Lemma sorted_by_last {A K} `{PyOrdLaws K} (key : A -> K) l x y :
  last (sorted_by key l) = Some x -> y ∈ l -> py_leb (key y) (key x) = true.
Proof.
  intros Hl Hy. pose proof (sorted_by_StronglySorted key l) as Hs. apply (elem_of_sorted_by key) in Hy.
  apply last_Some in Hl as [l' El]. rewrite El in Hs, Hy. apply elem_of_app in Hy as [Hy| ->%list_elem_of_singleton]; [|apply py_leb_refl].
  apply StronglySorted_app in Hs as (Hs & _ & _). eapply Hs; [done|left].
Qed.

Lemma get_record_ok db hash row : rows_ok db -> header_rows db !! hash = Some row ->
  exists r, header_get_record db hash = Ok (Some r) /\ record_hash r = hash /\ record_previous r = row_previous row /\
    record_height r = row_height row /\ record_main r = row_main row /\
    match row_work row with None => record_work r = None | Some t => exists w, 0 <= w /\ t = py_str_int w /\ record_work r = Some w end.
Proof.
  intros Hok Hr. unfold header_get_record. rewrite Hr. destruct (Hok hash row Hr) as [[hdr Hd] Hw]. rewrite Hd. simpl.
  destruct (row_work row) as [t|]; simpl.
  - destruct Hw as (w & Hw & ->). rewrite py_int_str_int by (rewrite Z.abs_eq; lia). simpl. eexists. split; [reflexivity|].
    repeat (split; [done|]). exists w. split; [lia|done].
  - eexists. by split.
Qed.

Lemma work_key_le (a b ha hb : Z) (s1 s2 : str) : 0 <= a -> 0 <= b ->
  py_leb ((len (py_str_int a), py_str_int a), (ha, s1)) ((len (py_str_int b), py_str_int b), (hb, s2)) = true ->
  a <= b /\ (a = b -> ha <= hb).
Proof.
  intros Ha Hb E.
  change (pair_leb ((len (py_str_int a), py_str_int a), (ha, s1)) ((len (py_str_int b), py_str_int b), (hb, s2)) = true) in E.
  unfold pair_leb in E. cbn [fst snd] in E. rewrite !work_text_order in E by done.
  destruct (Z.leb_spec a b); [|discriminate]. split; [done|]. intros ->. rewrite Z.leb_refl in E.
  change (pair_leb (ha, s1) (hb, s2) = true) in E. unfold pair_leb in E. cbn [fst snd] in E.
  change (py_leb ha hb) with (ha <=? hb) in E. destruct (Z.leb_spec ha hb); [done|discriminate].
Qed.

(** Chain selection follows the work: among all headers whose cumulative work
    is known, [find_best_tip] returns one whose work, as a number, is greatest,
    and of those one of greatest height, although the table compares decimal
    text; it returns nothing only when no header has a known work. *)
Theorem best_tip_is_heaviest (db : HeaderDb) :
  rows_ok db ->
  (header_find_best_tip db = Ok None /\ forall hash row, header_rows db !! hash = Some row -> row_work row = None) \/
  (exists best w, header_find_best_tip db = Ok (Some best) /\ record_work best = Some w /\
    forall hash row w', header_rows db !! hash = Some row -> 0 <= w' -> row_work row = Some (py_str_int w') ->
      w' <= w /\ (w' = w -> default (-1) (row_height row) <= default (-1) (record_height best))).
Proof.
  intros Hok. unfold header_find_best_tip.
  destruct (last (sorted_by work_key (with_work db))) as [[hash row]|] eqn:El; [right|left].
  - assert (Hin : (hash, row) ∈ with_work db) by (apply (elem_of_sorted_by work_key), last_Some_elem_of, El).
    apply list_elem_of_filter in Hin as [[t Ht] Hin%elem_of_map_to_list]. simpl in Ht.
    destruct (get_record_ok db hash row Hok Hin) as (best & Hg & _ & _ & Hh & _ & Hw). rewrite Ht in Hw.
    destruct Hw as (w & Hw0 & -> & Hw). exists best, w. split; [done|]. split; [done|].
    intros hash' row' w' Hr' Hw' Ht'.
    assert (Hle : py_leb (work_key (hash', row')) (work_key (hash, row)) = true).
    { apply (sorted_by_last work_key (with_work db)); [done|]. apply list_elem_of_filter. simpl. split; [by rewrite Ht'|].
      by apply elem_of_map_to_list. }
    unfold work_key in Hle. cbn [fst snd] in Hle. rewrite Ht, Ht' in Hle. cbn [default] in Hle.
    by apply work_key_le in Hle as [? Hle]; [rewrite Hh|..].
  - split; [done|]. intros hash row Hr. destruct (row_work row) as [t|] eqn:Ht; [|done]. exfalso.
    apply last_None in El. assert (Hin : (hash, row) ∈ sorted_by work_key (with_work db)).
    { apply elem_of_sorted_by, list_elem_of_filter. simpl. split; [by rewrite Ht|]. by apply elem_of_map_to_list. }
    rewrite El in Hin. by apply not_elem_of_nil in Hin.
Qed.

(** ** Walking to the root *)

Section path.
Variable db : HeaderDb.
Hypothesis Hok : rows_ok db.

(** Parent links go down in some rank: no header is its own ancestor. *)
Definition acyclic (rank : str -> nat) : Prop :=
  forall hash row, header_rows db !! hash = Some row -> row_previous row ≠ zero_hash -> (rank (row_previous row) < rank hash)%nat.

(** Each header of a path is the parent of the next. *)
Fixpoint linked (path : list str) : Prop :=
  match path with
  | a :: ((b :: _) as path') => (exists row, header_rows db !! b = Some row /\ row_previous row = a) /\ linked path'
  | _ => True
  end.

Lemma path_loop_spec rank fuel current path :
  acyclic rank -> (fuel + length path = S (size (header_rows db)))%nat ->
  NoDup path -> (forall h, h ∈ path -> is_Some (header_rows db !! h) /\ (rank current < rank h)%nat) ->
  linked path -> (forall b path', path = b :: path' -> exists row, header_rows db !! b = Some row /\ row_previous row = current) ->
  path_loop fuel db current path = raise ValueError "Unknown header in path lookup" \/
  exists full, path_loop fuel db current path = Ok full /\ linked full /\ NoDup full /\
    (exists pre, full = pre ++ path) /\ (path = [] -> current ≠ [] -> last full = Some current) /\
    (forall root rest, full = root :: rest ->
      exists row, header_rows db !! root = Some row /\ (row_previous row = zero_hash \/ row_previous row = [])).
Proof.
  revert current path. induction fuel as [|fuel IH]; intros current path Hac Hf Hn Hp Hl Hb.
  { exfalso. assert (Hsz : (length path <= size (header_rows db))%nat); [|lia].
    rewrite <- (size_dom (header_rows db)). rewrite <- (size_list_to_set (C:=gset str) path) by done. apply subseteq_size.
    intros h Hh%elem_of_list_to_set. apply elem_of_dom. by apply Hp. }
  cbn [path_loop]. case_bool_decide as Hcur.
  { right. exists path. split; [done|]. split; [done|]. split; [done|]. split; [by exists []|]. split; [done|].
    intros root rest ->. destruct (Hb root rest eq_refl) as (row & Hr & Hprev). exists row. split; [done|]. right. congruence. }
  destruct (header_rows db !! current) as [row|] eqn:Er.
  2:{ left. unfold header_get_record. rewrite Er. done. }
  destruct (get_record_ok db current row Hok Er) as (r & Hg & _ & Hprev & _). rewrite Hg. cbn [rbind]. rewrite Hprev.
  assert (Hnc : NoDup (current :: path)). { constructor; [|done]. intros [_ Hlt]%Hp. lia. }
  assert (Hlc : linked (current :: path)).
  { destruct path as [|b path']; [done|]. split; [by apply (Hb b path')|done]. }
  case_bool_decide as Hz.
  - right. exists (current :: path). split; [done|]. split; [done|]. split; [done|]. split; [by exists [current]|].
    split; [intros -> _; done|]. intros root rest [= <- <-]. exists row. auto.
  - destruct (IH (row_previous row) (current :: path)) as [Hbad|(full & Hfull & Hlf & Hnf & [pre Hpre] & _ & Hroot)]; try done.
    + simpl. lia.
    + intros h [->|Hh]%elem_of_cons; (split; [|specialize (Hac current row Er Hz)]); [done|lia|by apply Hp|].
      apply Hp in Hh as [_ Hlt]. lia.
    + intros b path' [= <- <-]. by exists row.
    + by left.
    + right. exists full. split; [done|]. split; [done|]. split; [done|]. split; [exists (pre ++ [current]); by rewrite <- app_assoc|].
      split; [|done]. intros -> _. rewrite Hpre. by rewrite last_snoc.
Qed.

(** The walk to the root ends: with acyclic parent links, [path_to_root]
    either meets an unknown header and raises [ValueError], or returns the branch
    of distinct headers from a root to the requested one, each the parent of the
    next; the bound of the model is never reached. *)
Theorem path_to_root_total (rank : str -> nat) (hash : str) :
  acyclic rank -> hash ≠ [] ->
  header_path_to_root db hash = raise ValueError "Unknown header in path lookup" \/
  exists path, header_path_to_root db hash = Ok path /\ linked path /\ NoDup path /\ last path = Some hash /\
    forall root rest, path = root :: rest ->
      exists row, header_rows db !! root = Some row /\ (row_previous row = zero_hash \/ row_previous row = []).
Proof.
  intros Hac Hne. destruct (path_loop_spec rank (path_fuel db) hash []) as [E|(full & E & Hl & Hn & _ & Hlast & Hroot)];
    [done|unfold path_fuel; simpl; lia|constructor|intros h Hh; by apply not_elem_of_nil in Hh|done|done|by left|].
  right. exists full. by auto 6.
Qed.
End path.

(** ** The main chain *)

Lemma update_row_other rows hash f h : h ≠ hash -> update_row rows hash f !! h = rows !! h.
Proof. intros Hne. unfold update_row. destruct (rows !! hash); [|done]. by rewrite lookup_insert_ne. Qed.

Lemma update_row_same rows hash f : update_row rows hash f !! hash = f <$> rows !! hash.
Proof. unfold update_row. destruct (rows !! hash) eqn:E; [by rewrite lookup_insert_eq|]. by rewrite E. Qed.

Lemma set_main_rows path i rows :
  NoDup path -> 0 <= i -> i + len path < 2 ^ 63 ->
  exists rows', foldM (fun rows '(h, hash) => let* h' := sqlite_int h in Ok (update_row rows hash (on_main h'))) rows
      (enumerate_from i path) = Ok rows' /\
    (forall k hash, path !! k = Some hash -> rows' !! hash = on_main (i + Z.of_nat k) <$> rows !! hash) /\
    (forall hash, hash ∉ path -> rows' !! hash = rows !! hash).
Proof.
  intros Hn. revert i rows. induction Hn as [|hash path Hout Hn IH]; intros i rows Hi Hlen; simpl; [by exists rows|].
  rewrite len_cons in Hlen. pose proof (len_nonneg path). unfold sqlite_int.
  rewrite (proj2 (Z.leb_le _ _)), (proj2 (Z.ltb_lt _ _)) by lia. simpl.
  destruct (IH (i + 1) (update_row rows hash (on_main i))) as (rows' & E & Hin & Hother); [lia..|].
  exists rows'. split; [done|]. split.
  - intros [|k] x Hx; simpl in Hx.
    + injection Hx as <-. rewrite Hother by done. rewrite update_row_same, Z.add_0_r. done.
    + rewrite (Hin k x Hx), update_row_other; [f_equal; f_equal; lia|]. intros ->. apply Hout. by eapply list_elem_of_lookup_2.
  - intros x Hx. rewrite elem_of_cons in Hx. rewrite Hother by tauto. apply update_row_other. tauto.
Qed.

Lemma hash_at_height_unique db h hash row :
  header_rows db !! hash = Some row -> row_main row = true -> row_height row = Some h ->
  (forall hash' row', header_rows db !! hash' = Some row' -> row_main row' = true -> row_height row' = Some h -> hash' = hash) ->
  header_get_hash_at_height db h = Some hash.
Proof.
  intros Hr Hm Hh Hu. unfold header_get_hash_at_height.
  destruct (filter _ (map_to_list (header_rows db))) as [|[hash' row'] l] eqn:E; simpl.
  - exfalso. assert (Hin : (hash, row) ∈ filter (fun item => row_main item.2 = true /\ row_height item.2 = Some h) (map_to_list (header_rows db))).
    { apply list_elem_of_filter. split; [done|]. by apply elem_of_map_to_list. }
    rewrite E in Hin. by apply not_elem_of_nil in Hin.
  - f_equal. assert (Hin : (hash', row') ∈ filter (fun item => row_main item.2 = true /\ row_height item.2 = Some h) (map_to_list (header_rows db)))
      by (rewrite E; left).
    apply list_elem_of_filter in Hin as [[Hm' Hh'] Hin%elem_of_map_to_list]. by eapply Hu.
Qed.

Lemma hash_at_height_none db h :
  (forall hash row, header_rows db !! hash = Some row -> row_main row = true -> row_height row = Some h -> False) ->
  header_get_hash_at_height db h = None.
Proof.
  intros Hu. unfold header_get_hash_at_height. destruct (filter _ (map_to_list (header_rows db))) as [|[hash row] l] eqn:E; [done|].
  exfalso. assert (Hin : (hash, row) ∈ filter (fun item => row_main item.2 = true /\ row_height item.2 = Some h) (map_to_list (header_rows db)))
    by (rewrite E; left).
  apply list_elem_of_filter in Hin as [[Hm Hh] Hin%elem_of_map_to_list]. by eapply Hu.
Qed.

(** Activating a path makes it the main chain: after [set_main_chain] the
    hash at a height is the path's, there is none above it, and the tip is the
    last header of the path at its height, whatever chain was active before. *)
Theorem set_main_chain_indexes (db : HeaderDb) (path : list str) :
  NoDup path -> len path < 2 ^ 63 -> (forall hash, hash ∈ path -> is_Some (header_rows db !! hash)) ->
  exists db', header_set_main_chain db path = Ok db' /\
    (forall h, header_get_hash_at_height db' h = if 0 <=? h then path !! Z.to_nat h else None) /\
    (forall tip, last path = Some tip -> header_get_tip db' = Some (mkTip tip (len path - 1))).
Proof.
  intros Hn Hlen Hknown. unfold header_set_main_chain.
  destruct (set_main_rows path 0 (off_main <$> header_rows db) Hn ltac:(lia) ltac:(lia)) as (rows' & E & Hin & Hout).
  unfold enumerate. rewrite E. simpl. eexists. split; [reflexivity|].
  assert (Hrow : forall k hash, path !! k = Some hash -> exists row, rows' !! hash = Some row /\ row_main row = true /\ row_height row = Some (Z.of_nat k)).
  { intros k hash Hk. rewrite (Hin k hash Hk), lookup_fmap. destruct (Hknown hash) as [row Hr]; [by eapply list_elem_of_lookup_2|].
    rewrite Hr. simpl. eexists. by split. }
  assert (Hmain : forall hash row h, rows' !! hash = Some row -> row_main row = true -> row_height row = Some h ->
    0 <= h /\ path !! Z.to_nat h = Some hash).
  { intros hash row h Hr Hm Hh. destruct (decide (hash ∈ path)) as [Hp|Hp].
    - apply list_elem_of_lookup in Hp as [k Hk]. destruct (Hrow k hash Hk) as (row' & Hr' & _ & Hh').
      rewrite Hr in Hr'. injection Hr' as <-. rewrite Hh in Hh'. injection Hh' as ->. rewrite Nat2Z.id. split; [lia|done].
    - rewrite Hout, lookup_fmap in Hr by done. destruct (header_rows db !! hash); [|discriminate]. by injection Hr as <-. }
  split.
  - intros h. destruct (Z.leb_spec 0 h) as [Hh|Hh].
    + destruct (path !! Z.to_nat h) as [hash|] eqn:Hp.
      * destruct (Hrow _ _ Hp) as (row & Hr & Hm & Hrh). rewrite Z2Nat.id in Hrh by done.
        apply (hash_at_height_unique _ h hash row); [done..|]. intros hash' row' Hr' Hm' Hh'.
        destruct (Hmain hash' row' h Hr' Hm' Hh') as [_ Hp']. congruence.
      * apply hash_at_height_none. intros hash row Hr Hm Hrh. destruct (Hmain hash row h Hr Hm Hrh) as [_ Hp']. congruence.
    + apply hash_at_height_none. intros hash row Hr Hm Hrh. destruct (Hmain hash row h Hr Hm Hrh). lia.
  - intros tip Htip. unfold header_get_tip. simpl. rewrite Htip. rewrite last_lookup in Htip.
    destruct (Hrow _ _ Htip) as (row & Hr & _ & Hrh). rewrite Hr, Hrh. do 2 f_equal. unfold len.
    destruct path; [discriminate|simpl; lia].
Qed.

(** ** Witnesses *)

(** Two headers, the second on the first *)
Definition root_header : BlockHeader := mkBlockHeader 1 zero_hash (header_merkle_root sample_header) 100 0x207FFFFF 0.
Definition root_hash : str := Eval vm_compute in ok_or (block_hash root_header) [].
Definition child_header : BlockHeader := mkBlockHeader 1 root_hash (header_merkle_root sample_header) 200 0x207FFFFF 0.
Definition child_hash : str := Eval vm_compute in ok_or (block_hash child_header) [].
Definition sample_index : HeaderDb := Eval vm_compute in ok_or
  (let* db := header_put (mkHeaderDb ∅ None) root_header (Some 0) (Some 9) true in
   header_put db child_header (Some 1) (Some 11) false) (mkHeaderDb ∅ None).

Lemma sample_index_rows :
  header_rows sample_index =
  {[child_hash := mkRow root_hash (Some 1) (Some (py_str_int 11)) false (ok_or (serialize_block_header child_header) []);
    root_hash := mkRow zero_hash (Some 0) (Some (py_str_int 9)) true (ok_or (serialize_block_header root_header) [])]}.
Proof. vm_compute. reflexivity. Qed.

Lemma small_work w : w < 10 ^ 2 -> w < 10 ^ max_str_digits.
Proof. intros Hw. eapply Z.lt_le_trans; [exact Hw|]. by apply Z.pow_le_mono_r. Qed.

Lemma sample_index_ok : rows_ok sample_index.
Proof.
  unfold rows_ok. rewrite sample_index_rows. apply map_Forall_insert_2; [|apply map_Forall_singleton]; split.
  - exists child_header. vm_compute. reflexivity.
  - exists 11. split; [|reflexivity]. split; [done|]. apply small_work. done.
  - exists root_header. vm_compute. reflexivity.
  - exists 9. split; [|reflexivity]. split; [done|]. apply small_work. done.
Qed.

Lemma best_tip_is_heaviest_witness :
  exists best, header_find_best_tip sample_index = Ok (Some best) /\ record_work best = Some 11.
Proof.
  destruct (best_tip_is_heaviest sample_index sample_index_ok) as [[E _]|(best & w & E & Hw & _)].
  - exfalso. assert (Hn : (match header_find_best_tip sample_index with Ok (Some _) => true | _ => false end) = true)
      by (vm_compute; reflexivity). by rewrite E in Hn.
  - exists best. split; [exact E|].
    assert (H11 : (match header_find_best_tip sample_index with Ok (Some r) => record_work r | _ => None end) = Some 11)
      by (vm_compute; reflexivity). by rewrite E in H11.
Defined.

Definition sample_rank (hash : str) : nat := if bool_decide (hash = child_hash) then 1 else 0.

Lemma path_to_root_total_witness :
  header_path_to_root sample_index child_hash = Ok [root_hash; child_hash] /\
  exists path, header_path_to_root sample_index child_hash = Ok path /\ NoDup path.
Proof.
  assert (E : header_path_to_root sample_index child_hash = Ok [root_hash; child_hash]) by (vm_compute; reflexivity).
  split; [exact E|].
  destruct (path_to_root_total sample_index sample_index_ok sample_rank child_hash) as [Hr|(path & Hp & _ & Hn & _)].
  - intros hash row Hr Hne. rewrite sample_index_rows in Hr. apply lookup_insert_Some in Hr as [[<- <-]|[_ Hr]].
    + vm_compute. apply le_n.
    + apply lookup_singleton_Some in Hr as [<- <-]. by destruct Hne.
  - discriminate.
  - rewrite E in Hr. discriminate.
  - exists path. split; [exact Hp|exact Hn].
Defined.

Lemma set_main_chain_indexes_witness :
  exists db', header_set_main_chain sample_index [root_hash; child_hash] = Ok db' /\
    header_get_hash_at_height db' 1 = Some child_hash /\ header_get_tip db' = Some (mkTip child_hash 1).
Proof.
  destruct (set_main_chain_indexes sample_index [root_hash; child_hash]) as (db' & E & Hh & Ht).
  - apply (bool_decide_eq_true_1 _). vm_compute. reflexivity.
  - reflexivity.
  - intros hash Hin. rewrite sample_index_rows. apply elem_of_cons in Hin as [->|Hin].
    + apply lookup_insert_is_Some. right. split; [|by rewrite lookup_singleton_eq].
      intros Hc. assert (Hd : bool_decide (child_hash = root_hash) = false) by (vm_compute; reflexivity).
      apply bool_decide_eq_false in Hd. by apply Hd.
    + apply list_elem_of_singleton in Hin as ->. by rewrite lookup_insert_eq.
  - exists db'. split; [exact E|]. split; [exact (Hh 1)|]. by apply Ht.
Defined.
