(* ===== verification/RewardStore.v ===== *)
(** * Persisted attestations and settlements ([storage/native_rewards.py])

    A bundle is stored as a row with its attestations in JSON, and as one row per
    attestation; a settlement likewise.  Reading parses the JSON again. *)

From S2P Require Import Prelude PyOrder PyText Models Json Registry Settlement Utxo UtxoStore.

Record StoredRewardAttestationBundle : Type := mkStoredBundle {
  bundle_txid : str; bundle_block_height : Z; stored_bundle : RewardAttestationBundle }.
Record StoredEpochSettlement : Type := mkStoredSettlement {
  settlement_txid : str; settlement_block_height : Z; stored_settlement : RewardSettlement }.

Record BundleRow : Type := mkBundleRow {
  row_block_height : Z;
  row_epoch : Z;
  row_window : Z;
  row_submitter : str;
  row_count : Z;
  row_attestations_json : str;
}.

(** The two tables: bundles by transaction, and the identities of the entries of
    each transaction *)
Record RewardAttestationDb : Type := mkAttestationDb {
  bundle_rows : gmap str BundleRow;
  attestation_entries : gmap str (list identity);
}.

Section rewards.
Context `{PyRepr}.

(** Printed in key order *)
Definition stored_attestation_json (a : RewardAttestation) : json := JObj [
  (u "candidate_node_id", JStr (candidate_node_id a));
  (u "check_window_index", JInt (check_window_index a));
  (u "concentration_key", JStr (concentration_key a));
  (u "endpoint_commitment", JStr (endpoint_commitment a));
  (u "epoch_index", JInt (epoch_index a));
  (u "observed_sync_gap", JInt (observed_sync_gap a));
  (u "result_code", JStr (result_code a));
  (u "signature_hex", JStr (signature_hex a));
  (u "verifier_node_id", JStr (verifier_node_id a))].

Definition bind_attestation (a : RewardAttestation) : res unit :=
  let* _ := sqlite_int (epoch_index a) in
  let* _ := sqlite_int (check_window_index a) in
  let* _ := sqlite_text (candidate_node_id a) in
  let* _ := sqlite_text (verifier_node_id a) in
  let* _ := sqlite_text (result_code a) in
  let* _ := sqlite_int (observed_sync_gap a) in
  let* _ := sqlite_text (endpoint_commitment a) in
  let* _ := sqlite_text (concentration_key a) in
  let* _ := sqlite_text (signature_hex a) in
  Ok tt.

Definition add_bundle (db : RewardAttestationDb) (id : str) (h : Z) (bundle : RewardAttestationBundle) : res RewardAttestationDb :=
  let raw_attestations_json := json_dumps (JList (stored_attestation_json <$> attestations bundle)) in
  let* _ := sqlite_text id in
  let* h' := sqlite_int h in
  let* epoch := sqlite_int (bundle_epoch_index bundle) in
  let* window := sqlite_int (bundle_window_index bundle) in
  let* submitter := sqlite_text (bundle_submitter_node_id bundle) in
  let* count := sqlite_int (len (attestations bundle)) in
  let* text := sqlite_text raw_attestations_json in
  for_each bind_attestation (attestations bundle) ;;
  Ok (mkAttestationDb (<[id := mkBundleRow h' epoch window submitter count text]> (bundle_rows db))
    (<[id := attestation_identity <$> attestations bundle]> (attestation_entries db))).

(** The optional [WHERE epoch_index = ?] *)
Definition in_epoch (epoch : option Z) (n : Z) : bool := match epoch with Some e => n =? e | None => true end.

(** [ORDER BY block_height, epoch_index, bundle_window_index, txid] *)
Definition bundle_order (item : str * BundleRow) : (Z * Z) * (Z * str) :=
  ((row_block_height item.2, row_epoch item.2), (row_window item.2, item.1)).

Definition bundle_row_metadata (row : BundleRow) : gmap str str := list_to_map [
  (u "epoch_index", py_str_int (row_epoch row));
  (u "bundle_window_index", py_str_int (row_window row));
  (u "bundle_submitter_node_id", row_submitter row);
  (u "attestation_count", py_str_int (row_count row));
  (u "attestations_json", row_attestations_json row)].

Definition read_bundle (item : str * BundleRow) : res StoredRewardAttestationBundle :=
  let* bundle := parse_reward_attestation_bundle_metadata (bundle_row_metadata item.2) in
  Ok (mkStoredBundle item.1 (row_block_height item.2) bundle).

Definition list_bundles (db : RewardAttestationDb) (epoch : option Z) : res (list StoredRewardAttestationBundle) :=
  let rows := filter (fun item => in_epoch epoch (row_epoch item.2) = true) (map_to_list (bundle_rows db)) in
  mapM read_bundle (sorted_by bundle_order rows).

Definition attestation_identities (db : RewardAttestationDb) : gset identity :=
  list_to_set (concat (map_to_list (attestation_entries db)).*2).

Definition attestations_replace_all (db : RewardAttestationDb) (bundles : list StoredRewardAttestationBundle) : res RewardAttestationDb :=
  foldM (fun db stored => add_bundle db (bundle_txid stored) (bundle_block_height stored) (stored_bundle stored))
    (mkAttestationDb ∅ ∅) bundles.

Definition bundle_attestation_identities (bundle : RewardAttestationBundle) : gset identity :=
  list_to_set (attestation_identity <$> attestations bundle).

(** ** Settlements

    The table is keyed by transaction and has a unique index on the epoch:
    [INSERT OR REPLACE] deletes a row of the same epoch. *)

Record SettlementRow : Type := mkSettlementRow { srow_block_height : Z; srow_settlement : RewardSettlement; srow_entries_json : str }.
Record EpochSettlementDb : Type := mkSettlementDb { settlement_rows : gmap str SettlementRow }.

Definition bind_settlement (s : RewardSettlement) : res unit :=
  for_each (fun n => let* _ := sqlite_int n in Ok tt)
    [settlement_epoch_index s; epoch_start_height s; epoch_end_height s; rewarded_node_count s;
     distributed_node_reward_chipbits s; undistributed_node_reward_chipbits s] ;;
  for_each (fun t => let* _ := sqlite_text t in Ok tt)
    [epoch_seed_hex s; policy_version s; submission_mode s; candidate_summary_root s; verified_nodes_root s; rewarded_nodes_root s].

Definition bind_settlement_entry (e : RewardSettlementEntry) : res unit :=
  for_each (fun n => let* _ := sqlite_int n in Ok tt) [selection_rank e; entry_reward_chipbits e] ;;
  for_each (fun t => let* _ := sqlite_text t in Ok tt) [entry_node_id e; entry_payout_address e; entry_concentration_key e].

Definition add_settlement (db : EpochSettlementDb) (id : str) (h : Z) (s : RewardSettlement) : res EpochSettlementDb :=
  let raw_reward_entries_json := json_dumps (JList (entry_json <$> reward_entries s)) in
  let* _ := sqlite_text id in
  let* h' := sqlite_int h in
  bind_settlement s ;;
  let* text := sqlite_text raw_reward_entries_json in
  for_each bind_settlement_entry (reward_entries s) ;;
  (* the primary key of the entries is (txid, selection_rank) *)
  raise_if (negb (bool_decide (NoDup (selection_rank <$> reward_entries s)))) IntegrityError
    "UNIQUE constraint failed: epoch_settlement_entries.txid, epoch_settlement_entries.selection_rank" ;;
  let kept := filter (fun item => settlement_epoch_index (srow_settlement item.2) ≠ settlement_epoch_index s) (settlement_rows db) in
  Ok (mkSettlementDb (<[id := mkSettlementRow h' s text]> kept)).

(** The columns of a row as the mapping that is parsed *)
Definition settlement_row_metadata (row : SettlementRow) : gmap str str :=
  let s := srow_settlement row in
  list_to_map [
    (u "epoch_index", py_str_int (settlement_epoch_index s));
    (u "epoch_start_height", py_str_int (epoch_start_height s));
    (u "epoch_end_height", py_str_int (epoch_end_height s));
    (u "epoch_seed", epoch_seed_hex s);
    (u "policy_version", policy_version s);
    (u "submission_mode", submission_mode s);
    (u "candidate_summary_root", candidate_summary_root s);
    (u "verified_nodes_root", verified_nodes_root s);
    (u "rewarded_nodes_root", rewarded_nodes_root s);
    (u "rewarded_node_count", py_str_int (rewarded_node_count s));
    (u "distributed_node_reward_chipbits", py_str_int (distributed_node_reward_chipbits s));
    (u "undistributed_node_reward_chipbits", py_str_int (undistributed_node_reward_chipbits s));
    (u "reward_entries_json", srow_entries_json row)].

Definition settlement_order (item : str * SettlementRow) : (Z * Z) * str :=
  ((srow_block_height item.2, settlement_epoch_index (srow_settlement item.2)), item.1).

Definition read_settlement (item : str * SettlementRow) : res StoredEpochSettlement :=
  let* s := parse_reward_settlement_metadata (settlement_row_metadata item.2) in
  Ok (mkStoredSettlement item.1 (srow_block_height item.2) s).

Definition list_settlements (db : EpochSettlementDb) (epoch : option Z) : res (list StoredEpochSettlement) :=
  let rows := filter (fun item => in_epoch epoch (settlement_epoch_index (srow_settlement item.2)) = true)
    (map_to_list (settlement_rows db)) in
  mapM read_settlement (sorted_by settlement_order rows).

Definition store_settled_epoch_indexes (db : EpochSettlementDb) : gset Z :=
  list_to_set ((fun item => settlement_epoch_index (srow_settlement item.2)) <$> map_to_list (settlement_rows db)).

Definition total_distributed_node_reward_chipbits (db : EpochSettlementDb) : Z :=
  zsum ((fun item => distributed_node_reward_chipbits (srow_settlement item.2)) <$> map_to_list (settlement_rows db)).

Definition settlements_replace_all (db : EpochSettlementDb) (settlements : list StoredEpochSettlement) : res EpochSettlementDb :=
  foldM (fun db stored => add_settlement db (settlement_txid stored) (settlement_block_height stored) (stored_settlement stored))
    (mkSettlementDb ∅) settlements.

Definition settlement_reward_total_chipbits (s : RewardSettlement) : Z := zsum (entry_reward_chipbits <$> reward_entries s).

(** ** What is stored is read back *)

Lemma sqlite_int_id n m : sqlite_int n = Ok m -> m = n /\ int_ok n.
Proof.
  unfold sqlite_int. intros E. destruct (_ && _) eqn:B; [|discriminate]. injection E as <-. split; [done|].
  bool_prop. unfold int_ok. assert (10 ^ 19 < 10 ^ max_str_digits) by (apply Z.pow_lt_mono_r; unfold max_str_digits; lia).
  assert (2 ^ 63 < 10 ^ 19) by reflexivity. lia.
Qed.

Lemma sqlite_text_id t t' : sqlite_text t = Ok t' -> t' = t.
Proof. unfold sqlite_text. intros E. apply rbind_Ok in E as (? & _ & E). by injection E. Qed.

Lemma parse_stored_attestation a : parse_attestation (stored_attestation_json a) = Ok a.
Proof.
  destruct a as [e w c v r g ep k sg]. unfold parse_attestation, item_str, item_int, json_item, stored_attestation_json.
  cbn [epoch_index check_window_index candidate_node_id verifier_node_id result_code observed_sync_gap endpoint_commitment
    concentration_key signature_hex].
  set (d := [_; _; _; _; _; _; _; _; _]).
  assert (Hd : dict_get d (u "epoch_index") = Some (JInt e) /\ dict_get d (u "check_window_index") = Some (JInt w) /\
    dict_get d (u "candidate_node_id") = Some (JStr c) /\ dict_get d (u "verifier_node_id") = Some (JStr v) /\
    dict_get d (u "result_code") = Some (JStr r) /\ dict_get d (u "observed_sync_gap") = Some (JInt g) /\
    dict_get d (u "endpoint_commitment") = Some (JStr ep) /\ dict_get d (u "concentration_key") = Some (JStr k) /\
    dict_get d (u "signature_hex") = Some (JStr sg)) by (unfold d; repeat split; reflexivity).
  destruct Hd as (-> & -> & -> & -> & -> & -> & -> & -> & ->). reflexivity.
Qed.

(** The texts of an attestation are strings of code points. *)
Definition attestation_texts (a : RewardAttestation) : Prop :=
  text_ok (candidate_node_id a) /\ text_ok (concentration_key a) /\ text_ok (endpoint_commitment a) /\
  text_ok (result_code a) /\ text_ok (signature_hex a) /\ text_ok (verifier_node_id a).

Lemma stored_attestation_dumpable a x :
  attestation_texts a -> bind_attestation a = Ok x -> dumpable (stored_attestation_json a).
Proof.
  intros (T1 & T2 & T3 & T4 & T5 & T6) E. unfold bind_attestation in E.
  apply rbind_Ok in E as (? & [_ I1]%sqlite_int_id & E). apply rbind_Ok in E as (? & [_ I2]%sqlite_int_id & E).
  do 3 (apply rbind_Ok in E as (? & _ & E)). apply rbind_Ok in E as (? & [_ I3]%sqlite_int_id & _).
  cbn [stored_attestation_json dumpable foldr fst snd]. split; [repeat split; try done; apply ascii_text_ok|].
  split; [by apply sorted_check|]. csimpl. by apply keys_NoDup.
Qed.

Lemma stored_attestations_dumpable l :
  Forall attestation_texts l -> Forall (fun a => bind_attestation a = Ok tt) l ->
  dumpable (JList (stored_attestation_json <$> l)).
Proof.
  induction l as [|a l IH]; intros Ht Hb; [done|]. inversion Ht; inversion Hb; subst.
  split; [by eapply stored_attestation_dumpable|by apply IH].
Qed.

Lemma bundle_row_lookups (v1 v2 v3 v4 v5 : str) :
  let m : gmap str str := list_to_map [(u "epoch_index", v1); (u "bundle_window_index", v2); (u "bundle_submitter_node_id", v3);
    (u "attestation_count", v4); (u "attestations_json", v5)] in
  m !! u "epoch_index" = Some v1 /\ m !! u "bundle_window_index" = Some v2 /\ m !! u "bundle_submitter_node_id" = Some v3 /\
  m !! u "attestation_count" = Some v4 /\ m !! u "attestations_json" = Some v5.
Proof. vm_compute. repeat split. Qed.

(** A mapping that holds the fields of a bundle parses to it. *)
Lemma parse_bundle_holds (m : gmap str str) (bundle : RewardAttestationBundle) :
  m !! u "epoch_index" = Some (py_str_int (bundle_epoch_index bundle)) -> m !! u "bundle_window_index" = Some (py_str_int (bundle_window_index bundle)) ->
  m !! u "bundle_submitter_node_id" = Some (bundle_submitter_node_id bundle) -> m !! u "attestation_count" = Some (py_str_int (len (attestations bundle))) ->
  m !! u "attestations_json" = Some (json_dumps (JList (stored_attestation_json <$> attestations bundle))) ->
  int_ok (bundle_epoch_index bundle) -> int_ok (bundle_window_index bundle) -> int_ok (len (attestations bundle)) -> bundle_submitter_node_id bundle ≠ [] ->
  dumpable (JList (stored_attestation_json <$> attestations bundle)) -> parse_reward_attestation_bundle_metadata m = Ok bundle.
Proof.
  intros L1 L2 L3 L4 L5 I1 I2 I3 Hs Hd. unfold parse_reward_attestation_bundle_metadata.
  assert (Hreq : require_keys m ["epoch_index"; "bundle_window_index"; "bundle_submitter_node_id"; "attestation_count"; "attestations_json"]%string = Ok tt).
  { apply for_each_Ok. unfold md_get_or.
    repeat (apply Forall_cons; split; [apply raise_if_Ok, bool_decide_eq_false_2; rewrite ?L1, ?L2, ?L3, ?L4, ?L5;
      (done || apply py_str_int_nonempty)|]). apply Forall_nil_2. }
  rewrite Hreq. unfold md_int, md_index. rewrite L1, L2, L3, L4, L5. cbn [rbind]. rewrite json_roundtrip by done. cbn [rbind].
  assert (Hp : mapM parse_attestation (stored_attestation_json <$> attestations bundle) = Ok (attestations bundle)).
  { apply mapM_Forall2, Forall2_fmap_l. clear. induction (attestations bundle); constructor; [apply parse_stored_attestation|done]. }
  rewrite Hp. cbn [rbind]. rewrite !py_int_str_int by done. cbn [rbind]. rewrite Z.eqb_refl. cbn [negb raise_if rbind].
  by destruct bundle.
Qed.

(** A persisted bundle is read back as it was accepted: once [add_bundle]
    succeeds, the stored row parses to the same bundle with its height, and the
    identities of its attestations are recorded against replay. *)
Theorem bundle_storage_roundtrip (db db' : RewardAttestationDb) (id : str) (h : Z) (bundle : RewardAttestationBundle) :
  Forall attestation_texts (attestations bundle) -> bundle_submitter_node_id bundle ≠ [] ->
  add_bundle db id h bundle = Ok db' ->
  (exists row, bundle_rows db' !! id = Some row /\ read_bundle (id, row) = Ok (mkStoredBundle id h bundle)) /\
  (forall i, i ∈ attestation_identity <$> attestations bundle -> i ∈ attestation_identities db').
Proof.
  intros Ht Hs E. unfold add_bundle in E. cbv zeta in E. apply rbind_Ok in E as (? & _ & E).
  apply rbind_Ok in E as (h' & [-> _]%sqlite_int_id & E). apply rbind_Ok in E as (epoch & [-> Ie]%sqlite_int_id & E).
  apply rbind_Ok in E as (window & [-> Iw]%sqlite_int_id & E). apply rbind_Ok in E as (submitter & ->%sqlite_text_id & E).
  apply rbind_Ok in E as (count & [-> Ic]%sqlite_int_id & E). apply rbind_Ok in E as (text & ->%sqlite_text_id & E).
  apply rbind_Ok in E as ([] & Hb%for_each_Ok & E). injection E as <-. split.
  - cbn [bundle_rows]. rewrite lookup_insert_eq. eexists. split; [reflexivity|]. unfold read_bundle. cbn [fst snd].
    unfold bundle_row_metadata. cbn [row_epoch row_window row_submitter row_count row_attestations_json row_block_height].
    set (text := json_dumps (JList (stored_attestation_json <$> attestations bundle))).
    destruct (bundle_row_lookups (py_str_int (bundle_epoch_index bundle)) (py_str_int (bundle_window_index bundle))
      (bundle_submitter_node_id bundle) (py_str_int (len (attestations bundle))) text) as (L1 & L2 & L3 & L4 & L5).
    rewrite (parse_bundle_holds _ bundle) by (done || by apply stored_attestations_dumpable). done.
  - intros i Hi. unfold attestation_identities. apply elem_of_list_to_set. apply list_elem_of_In, in_concat.
    exists (attestation_identity <$> attestations bundle). split; [|by apply list_elem_of_In].
    apply list_elem_of_In, list_elem_of_fmap. exists (id, attestation_identity <$> attestations bundle). split; [done|].
    apply elem_of_map_to_list. simpl. apply lookup_insert_eq.
Qed.
End rewards.

(** ** Witnesses *)

Definition sample_bundle : RewardAttestationBundle := mkBundle 7 1 (u "a") [demo_attestation].

Lemma bundle_storage_roundtrip_witness :
  exists db', add_bundle (mkAttestationDb ∅ ∅) (u "tx") 750 sample_bundle = Ok db' /\
    exists row, bundle_rows db' !! u "tx" = Some row /\ read_bundle (u "tx", row) = Ok (mkStoredBundle (u "tx") 750 sample_bundle).
Proof.
  destruct (add_bundle (mkAttestationDb ∅ ∅) (u "tx") 750 sample_bundle) as [db'|e] eqn:E.
  2:{ exfalso. assert (Hok : (match add_bundle (mkAttestationDb ∅ ∅) (u "tx") 750 sample_bundle with Ok _ => true | Raise _ => false end) = true)
        by (vm_compute; reflexivity). by rewrite E in Hok. }
  exists db'. split; [reflexivity|].
  refine (proj1 (bundle_storage_roundtrip (mkAttestationDb ∅ ∅) db' (u "tx") 750 sample_bundle _ _ E)); [|discriminate].
  constructor; [|constructor]. repeat split; (apply ascii_text_ok || apply Forall_nil_2).
Defined.
