(* ===== verification/Validation.v ===== *)
(** * Transaction and block validation ([consensus/validation.py])

    The stateless and stateful rules for every kind of transaction and for
    blocks, over an arbitrary UTXO view and an arbitrary registry view.  A
    context carries what the source's [ValidationContext] carries; the observer
    of post-quantum verification times and the log lines written before an
    exception is re-raised have no effect on the result and are left out. *)

From S2P Require Import Prelude PyOrder PyText Hashes Params Models Serialization Registry Economics Pow Merkle Crypto Addresses Json Settlement Nodes Utxo.

Definition MAX_TRANSACTION_PUBLIC_KEY_BYTES : Z := 4096.
Definition MAX_TRANSACTION_SIGNATURE_BYTES : Z := 8192.

Record ValidationContext (U R : Type) : Type := mkContext {
  context_height : Z;
  median_time_past : Z;
  context_params : ConsensusParams;
  utxo_view : U;
  network : str;
  node_registry_view : R;
  reward_attestation_identities : gset identity;
  reward_attestation_bundles : list RewardAttestationBundle;
  settled_epoch_indexes : gset Z;
  epoch_seed_by_index : gmap Z bytes;
  expected_previous_block_hash : option str;
  expected_bits : option Z;
  enforce_coinbase_maturity : bool;
  reward_fee_registry_count : option Z;
}.
Arguments mkContext {U R}.
Arguments context_height {U R}.
Arguments median_time_past {U R}.
Arguments context_params {U R}.
Arguments utxo_view {U R}.
Arguments network {U R}.
Arguments node_registry_view {U R}.
Arguments reward_attestation_identities {U R}.
Arguments reward_attestation_bundles {U R}.
Arguments settled_epoch_indexes {U R}.
Arguments epoch_seed_by_index {U R}.
Arguments expected_previous_block_hash {U R}.
Arguments expected_bits {U R}.
Arguments enforce_coinbase_maturity {U R}.
Arguments reward_fee_registry_count {U R}.

Definition stateless {A} (msg : string) : res A := raise StatelessValidationError msg.
Definition contextual {A} (msg : string) : res A := raise ContextualValidationError msg.
Definition stateless_if (c : bool) (msg : string) : res unit := raise_if c StatelessValidationError msg.
Definition contextual_if (c : bool) (msg : string) : res unit := raise_if c ContextualValidationError msg.

Definition is_coinbase_transaction (t : Transaction) : bool :=
  bool_decide (inputs t = []) && bool_decide (md_get (metadata t) "coinbase" = Some (u "true")).

Definition _is_reward_attestation_bundle_transaction (t : Transaction) : bool := has_kind REWARD_ATTESTATION_BUNDLE_KIND t.
Definition _is_reward_settle_epoch_transaction (t : Transaction) : bool := has_kind REWARD_SETTLE_EPOCH_KIND t.

(** ** Reward payloads *)

Definition _validated_hex (text : str) : res unit := let* _ := fromhex text in Ok tt.

Section validation.
Context `{PyRepr}.

Definition _parse_reward_attestation_bundle (t : Transaction) : res RewardAttestationBundle :=
  let* bundle := parse_reward_attestation_bundle_metadata (metadata t) in
  for_each (fun a => _validated_hex (signature_hex a)) (attestations bundle) ;;
  Ok bundle.

Definition _parse_reward_settlement (t : Transaction) : res RewardSettlement :=
  let* settlement := parse_reward_settlement_metadata (metadata t) in
  _validated_hex (epoch_seed_hex settlement) ;;
  for_each _validated_hex [candidate_summary_root settlement; verified_nodes_root settlement; rewarded_nodes_root settlement] ;;
  Ok settlement.

Definition _parse_reward_settlement_entries (t : Transaction) : res (list RewardSettlementEntry) :=
  let* settlement := _parse_reward_settlement t in Ok (reward_entries settlement).

(** ** Stateless rules *)

Definition _validate_reward_attestation_bundle_transaction_stateless (t : Transaction) : res unit :=
  raise_if (negb (bool_decide (inputs t = []))) ValueError "reward_attestation_bundle transactions must not contain UTXO inputs." ;;
  raise_if (negb (bool_decide (outputs t = []))) ValueError "reward_attestation_bundle transactions must not contain outputs." ;;
  let* bundle := _parse_reward_attestation_bundle t in
  raise_if (existsb (fun a => negb (epoch_index a =? bundle_epoch_index bundle)) (attestations bundle)) ValueError
    "reward_attestation_bundle attestations must match bundle epoch_index." ;;
  raise_if (existsb (fun a => negb (check_window_index a =? bundle_window_index bundle)) (attestations bundle)) ValueError
    "reward_attestation_bundle attestations must match bundle_window_index.".

Definition required_settlement_keys : list string :=
  ["epoch_index"; "epoch_start_height"; "epoch_end_height"; "epoch_seed"; "policy_version"; "candidate_summary_root";
   "verified_nodes_root"; "rewarded_nodes_root"; "rewarded_node_count"; "distributed_node_reward_chipbits";
   "undistributed_node_reward_chipbits"; "reward_entries_json"]%string.

(** [if key not in metadata or metadata[key] == ""] *)
Definition check_declared (m : gmap str str) (key : string) : res unit :=
  raise_if (bool_decide (md_get_or m key [] = [])) ValueError "reward_settle_epoch transactions must declare every field.".

Definition check_hex_length (m : gmap str str) (key : string) : res unit :=
  let* text := md_index m key in raise_if (negb (len text =? 64)) ValueError "must be 32-byte hex.".

Definition _validate_reward_settle_epoch_transaction_stateless (t : Transaction) : res unit :=
  raise_if (negb (bool_decide (inputs t = []))) ValueError "reward_settle_epoch transactions must not contain UTXO inputs." ;;
  raise_if (negb (bool_decide (outputs t = []))) ValueError "reward_settle_epoch transactions must not contain outputs." ;;
  let m := metadata t in
  for_each (check_declared m) required_settlement_keys ;;
  check_hex_length m "epoch_seed" ;;
  for_each (check_hex_length m) ["candidate_summary_root"; "verified_nodes_root"; "rewarded_nodes_root"]%string ;;
  let* entries := _parse_reward_settlement_entries t in
  let* count := md_int m "rewarded_node_count" in
  raise_if (negb (count =? len entries)) ValueError "rewarded_node_count does not match reward_entries_json length." ;;
  let* distributed := md_int m "distributed_node_reward_chipbits" in
  let* undistributed := md_int m "undistributed_node_reward_chipbits" in
  raise_if ((distributed <? 0) || (undistributed <? 0)) ValueError "reward amounts must be non-negative." ;;
  raise_if (negb (bool_decide (selection_rank <$> entries = zrange (len entries)))) ValueError
    "reward_entries_json must use contiguous zero-based selection_rank ordering.".

(** [c in string.hexdigits] *)
Definition is_hexdigit (c : Z) : bool :=
  ((48 <=? c) && (c <=? 57)) || ((97 <=? c) && (c <=? 102)) || ((65 <=? c) && (c <=? 70)).

Definition _validate_outpoint (id : str) : res unit :=
  stateless_if (negb (len id =? 64) || existsb (fun c => negb (is_hexdigit c)) id)
    "Outpoint transaction identifiers must be 32-byte hex strings.".

Definition check_output (out : TxOutput) : res unit :=
  stateless_if (value out <? 0) "Transaction outputs cannot be negative." ;;
  stateless_if (bool_decide (recipient out = [])) "Transaction outputs must declare a recipient.".

Context `{CryptoBackend}.

(** One turn of the loop over the inputs; the state is [seen_outpoints]. *)
Definition check_input (tx_version : Z) (seen : gset OutPoint) (tx_input : TxInput) : res (gset OutPoint) :=
  _validate_outpoint (op_txid (previous_output tx_input)) ;;
  stateless_if (op_index (previous_output tx_input) <? 0) "Outpoint index cannot be negative." ;;
  stateless_if (bool_decide (previous_output tx_input ∈ seen)) "Transaction cannot spend the same outpoint twice." ;;
  stateless_if ((sig_scheme_id tx_input <? 0) || (0xFF <? sig_scheme_id tx_input)) "Signature scheme id must fit in one byte." ;;
  stateless_if ((tx_version =? 1) && negb (sig_scheme_id tx_input =? SIG_SCHEME_LEGACY_ECDSA))
    "Transaction v1 inputs cannot declare non-legacy signature schemes." ;;
  stateless_if ((PQ_TRANSACTION_VERSION <=? tx_version) && negb (is_known_signature_scheme (sig_scheme_id tx_input)))
    "Transaction input declares an unknown signature scheme." ;;
  stateless_if (MAX_TRANSACTION_PUBLIC_KEY_BYTES <? len (public_key tx_input)) "Transaction input public key exceeds maximum size." ;;
  stateless_if (MAX_TRANSACTION_SIGNATURE_BYTES <? len (signature tx_input)) "Transaction input signature exceeds maximum size." ;;
  stateless_if (bool_decide (signature tx_input = [])) "Non-coinbase inputs must include a signature." ;;
  stateless_if (bool_decide (public_key tx_input = [])) "Non-coinbase inputs must include a public key." ;;
  Ok ({[previous_output tx_input]} ∪ seen).

(** [try: m except ValueError as exc: raise StatelessValidationError(str(exc))] *)
Definition as_stateless (m : res unit) : res unit := try_except m ValueError (fun e => stateless (exn_msg e)).

Definition validate_transaction_stateless (t : Transaction) : res unit :=
  stateless_if (version t <=? 0) "Transaction version must be positive." ;;
  if is_special_node_transaction t then as_stateless (validate_special_node_transaction_stateless t)
  else if _is_reward_attestation_bundle_transaction t then
    as_stateless (_validate_reward_attestation_bundle_transaction_stateless t)
  else if _is_reward_settle_epoch_transaction t then
    as_stateless (_validate_reward_settle_epoch_transaction_stateless t)
  else
    stateless_if (bool_decide (outputs t = [])) "Transaction must contain at least one output." ;;
    stateless_if (locktime t <? 0) "Transaction locktime cannot be negative." ;;
    for_each check_output (outputs t) ;;
    if is_coinbase_transaction t then Ok tt
    else
      stateless_if (bool_decide (inputs t = [])) "Non-coinbase transactions must have at least one input." ;;
      let* _ := foldM (check_input (version t)) ∅ (inputs t) in Ok tt.

(** ** Stateful rules *)

Definition transaction_output_total (t : Transaction) : Z := zsum (value <$> outputs t).

Definition transaction_weight_units (t : Transaction) : res Z :=
  let* raw := serialize_transaction t in Ok (len raw).

Definition block_weight_units (block : Block) : res Z :=
  let* weights := mapM transaction_weight_units (transactions block) in Ok (zsum weights).

Definition transaction_signature_digest (t : Transaction) (input_index : Z) (previous : TxOutput) (net : str) : res bytes :=
  let* raw := serialize_transaction_for_signing t input_index (value previous) (recipient previous) net in
  Ok (double_sha256 raw).

Definition is_coinbase_mature (entry : UtxoEntry) (spend_height : Z) (params : ConsensusParams) : bool :=
  if negb (is_coinbase entry) then true else coinbase_maturity params <=? spend_height - utxo_height entry.

Context {U R : Type} `{UtxoView U, NodeRegistryView R}.

Definition _pq_support_active (context : ValidationContext U R) : bool :=
  pq_support_is_active (network context) (context_height context) (Some (context_params context)).

Definition _validate_transaction_outputs_for_activation (t : Transaction) (context : ValidationContext U R) : res unit :=
  for_each (fun out =>
    if negb (startswith (recipient out) PQ_ADDRESS_PREFIX) then Ok tt
    else
      let* info := try_except (parse_address (recipient out)) ValueError
        (fun _ => contextual "Transaction output recipient is not a valid CHCQ address.") in
      contextual_if (bool_decide (kind info = pq) && negb (_pq_support_active context))
        "CHCQ outputs are not active on this network at this height.") (outputs t).

Definition _validate_legacy_input_signature (t : Transaction) (input_index : Z) (tx_input : TxInput) (previous : TxOutput)
    (context : ValidationContext U R) : res unit :=
  let* derived_recipient := try_except (public_key_to_address (public_key tx_input)) ValueError
    (fun _ => contextual "Input public key is not a valid secp256k1 public key.") in
  contextual_if (negb (bool_decide (derived_recipient = recipient previous)))
    "Input public key does not match the referenced output recipient." ;;
  let* digest := transaction_signature_digest t input_index previous (network context) in
  let* verified := verify_digest (public_key tx_input) digest (signature tx_input) in
  contextual_if (negb verified) "Input signature is invalid.".

Definition _validate_pq_input_signature (t : Transaction) (input_index : Z) (tx_input : TxInput) (previous : TxOutput)
    (address_info : AddressInfo) (context : ValidationContext U R) : res unit :=
  contextual_if (negb (_pq_support_active context)) "CHCQ spends are not active on this network at this height." ;;
  contextual_if (negb (sig_scheme_id tx_input =? info_scheme_id address_info))
    "Input signature scheme does not match the CHCQ address." ;;
  let* scheme := try_except (get_signature_scheme (sig_scheme_id tx_input)) ValueError
    (fun _ => contextual "Input signature scheme is unknown.") in
  contextual_if (negb (activated scheme) || negb (supports_verify scheme) || match verifier scheme with None => true | Some _ => false end)
    "Input signature scheme is not verification-capable." ;;
  match public_key_size scheme, signature_size scheme with
  | Some key_size, Some sig_size =>
      contextual_if (negb (len (public_key tx_input) =? key_size)) "Input public key has the wrong size for its signature scheme." ;;
      contextual_if (negb (len (signature tx_input) =? sig_size)) "Input signature has the wrong size for its signature scheme." ;;
      contextual_if (negb (bool_decide (pq_public_key_commitment (public_key tx_input) = hash_or_commitment address_info)))
        "Input public key does not match the CHCQ commitment." ;;
      let* digest := transaction_signature_digest t input_index previous (network context) in
      let* verified := try_except (scheme_verify scheme (public_key tx_input) digest (signature tx_input)) MLDsaBackendUnavailable
        (fun _ => contextual "Input signature scheme backend is unavailable.") in
      contextual_if (negb verified) "Input signature is invalid."
  | _, _ => contextual "Input signature scheme has no fixed consensus sizes."
  end.

Definition _validate_standard_input_signature (t : Transaction) (input_index : Z) (tx_input : TxInput) (previous : TxOutput)
    (context : ValidationContext U R) : res unit :=
  let* address_info := try_except (parse_address (recipient previous)) ValueError
    (fun _ => contextual "Referenced output recipient is not a valid Chipcoin address.") in
  if version t =? 1 then
    contextual_if (negb (bool_decide (kind address_info = legacy))) "Transaction v1 cannot spend CHCQ outputs." ;;
    contextual_if (negb (sig_scheme_id tx_input =? SIG_SCHEME_LEGACY_ECDSA)) "Transaction v1 inputs must use the legacy signature scheme." ;;
    _validate_legacy_input_signature t input_index tx_input previous context
  else
    contextual_if ((PQ_TRANSACTION_VERSION <=? version t) && negb (_pq_support_active context))
      "Transaction v2 wallet spends are not active on this network at this height." ;;
    if bool_decide (kind address_info = legacy) then
      contextual_if (negb (sig_scheme_id tx_input =? SIG_SCHEME_LEGACY_ECDSA)) "CHC spends must use the legacy signature scheme." ;;
      _validate_legacy_input_signature t input_index tx_input previous context
    else _validate_pq_input_signature t input_index tx_input previous address_info context.

(** *** Registry transactions *)

Fixpoint first_with_node_pubkey (records : list NodeRecord) (k : bytes) : option NodeRecord :=
  match records with
  | [] => None
  | r :: records' => if bool_decide (node_pubkey r = Some k) then Some r else first_with_node_pubkey records' k
  end.

Definition _find_registry_record_by_node_pubkey (registry_view : R) (k : bytes) : option NodeRecord :=
  first_with_node_pubkey (list_records registry_view) k.

Definition fee_count (context : ValidationContext U R) : res Z :=
  match reward_fee_registry_count context with
  | Some n => Ok n
  | None => reward_fee_node_count (node_registry_view context) (context_height context) (context_params context)
  end.

Definition check_register (t : Transaction) (owner : bytes) (context : ValidationContext U R) : res unit :=
  let* i := md_index (metadata t) "node_id" in
  contextual_if (bool_decide (is_Some (get_by_node_id (node_registry_view context) i)))
    "register_node transaction reuses an existing node_id." ;;
  contextual_if (bool_decide (is_Some (get_by_owner_pubkey (node_registry_view context) owner)))
    "register_node transaction reuses an existing owner_pubkey.".

(** [int(metadata.get(key, "-1"))] *)
Definition declared_fee (t : Transaction) (key : string) : res Z := py_int (md_get_or (metadata t) key (u "-1")).

Definition check_register_reward (t : Transaction) (owner : bytes) (count : Z) (context : ValidationContext U R) : res unit :=
  let* i := md_index (metadata t) "node_id" in
  contextual_if (match get_by_node_id (node_registry_view context) i with
                 | Some existing => reward_registration existing || negb (bool_decide (owner_pubkey existing = owner))
                 | None => false
                 end) "register_reward_node transaction reuses an existing node_id." ;;
  contextual_if (match get_by_owner_pubkey (node_registry_view context) owner with
                 | Some existing => negb (bool_decide (node_id existing = i))
                 | None => false
                 end) "register_reward_node transaction reuses an existing owner_pubkey." ;;
  let* key_hex := md_index (metadata t) "node_pubkey_hex" in
  let* node_key := fromhex key_hex in
  contextual_if (match _find_registry_record_by_node_pubkey (node_registry_view context) node_key with
                 | Some existing => negb (bool_decide (node_id existing = i))
                 | None => false
                 end) "register_reward_node transaction reuses an existing node_pubkey." ;;
  let* expected_fee := register_reward_node_fee_chipbits count (context_params context) in
  let* fee := declared_fee t "registration_fee_chipbits" in
  contextual_if (negb (fee =? expected_fee)) "registration_fee_chipbits does not match consensus fee schedule.".

(** The checks shared by the two renewals *)
Definition check_renew (t : Transaction) (owner : bytes) (context : ValidationContext U R) : res unit :=
  let* i := md_index (metadata t) "node_id" in
  match get_by_node_id (node_registry_view context) i with
  | None => contextual "renewal references an unknown node_id."
  | Some record =>
      contextual_if (negb (bool_decide (owner_pubkey record = owner))) "owner_pubkey does not match the registered node owner." ;;
      contextual_if (negb (bool_decide (md_get (metadata t) "renewal_epoch" =
          Some (py_str_int (context_height context / epoch_length_blocks (context_params context))))))
        "renewal_epoch does not match the block epoch."
  end.

Definition check_renew_reward (t : Transaction) (owner : bytes) (count : Z) (context : ValidationContext U R) : res unit :=
  check_renew t owner context ;;
  let* expected_fee := renew_reward_node_fee_chipbits count (context_params context) in
  let* fee := declared_fee t "renewal_fee_chipbits" in
  contextual_if (negb (fee =? expected_fee)) "renewal_fee_chipbits does not match consensus fee schedule.".

Definition _validate_special_node_transaction_stateful (t : Transaction) (context : ValidationContext U R) : res unit :=
  let* owner_hex := md_index (metadata t) "owner_pubkey_hex" in
  let* owner := fromhex owner_hex in
  let* valid := special_node_transaction_signature_is_valid t (network context) (context_height context) in
  contextual_if (negb valid) "Special node transaction owner signature is invalid for this network." ;;
  let* count := fee_count context in
  if is_legacy_register_node_transaction t then check_register t owner context
  else if is_register_reward_node_transaction t then check_register_reward t owner count context
  else if is_legacy_renew_node_transaction t then check_renew t owner context
  else if is_renew_reward_node_transaction t then check_renew_reward t owner count context
  else contextual "Unsupported special node transaction kind.".

(** *** Reward transactions *)

(** [{record.node_id: record for record in active if record.reward_registration}] *)
Definition active_by_node_id (active : list NodeRecord) : list (str * NodeRecord) :=
  foldl (fun d r => dict_set d (node_id r) r) [] (filter (fun r => reward_registration r = true) active).

Definition check_attestation (context : ValidationContext U R) (seed : bytes) (by_id : list (str * NodeRecord))
    (a : RewardAttestation) : res unit :=
  let active_ids := py_sorted by_id.*1 in
  contextual_if (bool_decide (attestation_identity a ∈ reward_attestation_identities context))
    "reward_attestation_bundle replays an attestation already recorded on chain." ;;
  match dict_get by_id (candidate_node_id a), dict_get by_id (verifier_node_id a) with
  | None, _ => contextual "reward_attestation_bundle references a candidate node that is not active in the current epoch."
  | Some _, None => contextual "reward_attestation_bundle references a verifier node that is not active in the current epoch."
  | Some candidate, Some verifier =>
      let* assigned_windows := candidate_check_windows (node_id candidate) seed (context_params context) in
      contextual_if (negb (bool_decide (check_window_index a ∈ assigned_windows)))
        "attestation is not assigned to the candidate's deterministic check windows." ;;
      let* committee := verifier_committee (node_id candidate) active_ids (check_window_index a) seed (context_params context) in
      contextual_if (negb (bool_decide (node_id verifier ∈ committee)))
        "attestation verifier is not in the deterministic committee." ;;
      match node_pubkey verifier with
      | None => contextual "reward_attestation_bundle verifier is missing a native reward-node public key."
      | Some verifier_key =>
          let* sig := try_except (fromhex (signature_hex a)) ValueError
            (fun _ => contextual "reward_attestation_bundle signature_hex is invalid.") in
          let* digest := reward_attestation_signature_digest a in
          let* verified := verify_digest verifier_key digest sig in
          contextual_if (negb verified) "reward_attestation_bundle attestation signature is invalid."
      end
  end.

Definition _validate_reward_attestation_bundle_transaction_with_params (t : Transaction) (context : ValidationContext U R) : res unit :=
  let* bundle := _parse_reward_attestation_bundle t in
  let params := context_params context in
  contextual_if (negb (bool_decide (bundle_rule_violations bundle params = []))) "reward_attestation_bundle violates rules" ;;
  contextual_if (context_height context <? node_reward_activation_height params)
    "reward_attestation_bundle transactions are not active before node_reward_activation_height." ;;
  contextual_if (negb (bundle_epoch_index bundle =? context_height context / epoch_length_blocks params))
    "reward_attestation_bundle epoch_index must match the current block epoch." ;;
  match epoch_seed_by_index context !! bundle_epoch_index bundle with
  | None => contextual "reward_attestation_bundle epoch seed is unavailable for the declared epoch."
  | Some seed =>
      let* active_records := active_node_records (node_registry_view context) (context_height context) params in
      let by_id := active_by_node_id active_records in
      contextual_if (negb (bool_decide (bundle_submitter_node_id bundle ∈ by_id.*1)))
        "reward_attestation_bundle submitter must be an active reward node." ;;
      for_each (check_attestation context seed by_id) (attestations bundle)
  end.

Definition bundle_attestations_for (context : ValidationContext U R) (epoch : Z) : list RewardAttestation :=
  concat (attestations <$> filter (fun bundle => bundle_epoch_index bundle = epoch) (reward_attestation_bundles context)).

Definition _validate_reward_settle_epoch_transaction_with_params (t : Transaction) (context : ValidationContext U R) : res unit :=
  let* settlement := _parse_reward_settlement t in
  let params := context_params context in
  let epoch := settlement_epoch_index settlement in
  contextual_if (context_height context <? node_reward_activation_height params)
    "reward_settle_epoch transactions are not active before node_reward_activation_height." ;;
  contextual_if (bool_decide (epoch ∈ settled_epoch_indexes context)) "reward_settle_epoch duplicates an already-settled epoch." ;;
  contextual_if (negb (context_height context =? epoch_end_height settlement))
    "reward_settle_epoch must appear at the declared epoch_end_height." ;;
  let* close_height := epoch_close_height epoch params in
  contextual_if (negb (epoch_end_height settlement =? close_height)) "epoch_end_height does not match consensus epoch boundaries." ;;
  contextual_if (negb (epoch_start_height settlement =? epoch * epoch_length_blocks params))
    "epoch_start_height does not match consensus epoch boundaries." ;;
  match epoch_seed_by_index context !! epoch with
  | None => contextual "reward_settle_epoch epoch seed is unavailable for the declared epoch."
  | Some expected_seed =>
      contextual_if (negb (bool_decide (epoch_seed_hex settlement = hex expected_seed)))
        "epoch_seed does not match the deterministic epoch seed." ;;
      let settlement_reward_total := zsum (entry_reward_chipbits <$> reward_entries settlement) in
      contextual_if (negb (settlement_reward_total =? distributed_node_reward_chipbits settlement))
        "distributed reward does not match reward_entries_json totals." ;;
      let* split := subsidy_split_chipbits (epoch_end_height settlement) params in
      let scheduled_pool := split.2 in
      contextual_if (negb (distributed_node_reward_chipbits settlement + undistributed_node_reward_chipbits settlement =? scheduled_pool))
        "distributed and undistributed reward does not match the scheduled epoch reward." ;;
      contextual_if (negb (rewarded_node_count settlement =? len (reward_entries settlement)))
        "rewarded_node_count does not match the reward entry count." ;;
      contextual_if (negb (bool_decide (NoDup ((fun e => (entry_node_id e, entry_payout_address e)) <$> reward_entries settlement))))
        "reward_entries_json must not contain duplicate rewarded recipients." ;;
      let* active_records := active_node_records (node_registry_view context) (context_height context) params in
      let by_id := active_by_node_id active_records in
      if negb (bool_decide (reward_entries settlement = [])) then
        let* expected_entries := derive_reward_settlement_entries by_id expected_seed (bundle_attestations_for context epoch)
          (distributed_node_reward_chipbits settlement) params in
        contextual_if (negb (bool_decide (reward_entries settlement = expected_entries)))
          "reward_entries_json does not match deterministic quorum and concentration results."
      else
        contextual_if (negb (undistributed_node_reward_chipbits settlement =? scheduled_pool))
          "reward_settle_epoch with zero rewarded nodes must leave the full scheduled pool undistributed."
  end.

(** *** Transactions *)

(** One turn of the loop over the inputs; the state is [input_total_chipbits]. *)
Definition spend_input (t : Transaction) (context : ValidationContext U R) (total : Z) (index_input : Z * TxInput) : res Z :=
  let '(input_index, tx_input) := index_input in
  let* found := utxo_get (utxo_view context) (previous_output tx_input) in
  match found with
  | None => contextual "Referenced input does not exist in the UTXO set."
  | Some entry =>
      contextual_if (enforce_coinbase_maturity context && negb (is_coinbase_mature entry (context_height context) (context_params context)))
        "Coinbase output is not mature enough to spend." ;;
      _validate_standard_input_signature t input_index tx_input (output entry) context ;;
      Ok (total + value (output entry))
  end.

Definition validate_transaction_stateful (t : Transaction) (context : ValidationContext U R) : res Z :=
  _validate_transaction_outputs_for_activation t context ;;
  if is_coinbase_transaction t then Ok 0
  else if is_special_node_transaction t then _validate_special_node_transaction_stateful t context ;; Ok 0
  else if _is_reward_attestation_bundle_transaction t then
    _validate_reward_attestation_bundle_transaction_with_params t context ;; Ok 0
  else if _is_reward_settle_epoch_transaction t then
    _validate_reward_settle_epoch_transaction_with_params t context ;; Ok 0
  else
    let* input_total := foldM (spend_input t context) 0 (enumerate (inputs t)) in
    let output_total := transaction_output_total t in
    contextual_if (input_total <? output_total) "Transaction outputs exceed transaction inputs." ;;
    Ok (input_total - output_total).

Definition validate_transaction (t : Transaction) (context : ValidationContext U R) : res Z :=
  validate_transaction_stateless t ;; validate_transaction_stateful t context.

(** ** Blocks *)

(** [validate_block_stateless] with a context; [None] for the context uses the
    mainnet weight limit and skips the two rules that need one. *)
Definition validate_block_stateless (block : Block) (context : option (ValidationContext U R)) : res unit :=
  match transactions block with
  | [] => stateless "Block must contain at least one transaction."
  | first :: rest =>
      stateless_if (negb (is_coinbase_transaction first)) "First block transaction must be coinbase." ;;
      stateless_if (existsb is_coinbase_transaction rest) "Only the first block transaction may be coinbase." ;;
      for_each validate_transaction_stateless (transactions block) ;;
      (match context with
       | Some c =>
           let bundle_count := len (filter (fun t => _is_reward_attestation_bundle_transaction t = true) (transactions block)) in
           stateless_if (max_attestation_bundles_per_block (context_params c) <? bundle_count)
             "Block contains too many reward_attestation_bundle transactions."
       | None => Ok tt
       end) ;;
      let* weight := block_weight_units block in
      stateless_if (max_block_weight (match context with Some c => context_params c | None => MAINNET_PARAMS end) <? weight)
        "Block exceeds maximum block weight." ;;
      let* ids := mapM txid (transactions block) in
      let* expected_merkle_root := merkle_root ids in
      stateless_if (negb (bool_decide (header_merkle_root (header block) = expected_merkle_root)))
        "Block Merkle root does not match transaction contents." ;;
      stateless_if (timestamp (header block) <? 0) "Block timestamp cannot be negative." ;;
      stateless_if (match context with Some c => timestamp (header block) <? median_time_past c | None => false end)
        "Block timestamp is below median time past." ;;
      let* _ := bits_to_target (bits (header block)) in
      let* has_work := verify_proof_of_work (header block) in
      stateless_if (negb has_work) "Block proof of work is invalid."
  end.

(** The local variables of the loop over the transactions *)
Record Staged : Type := mkStaged {
  staged_view : U;
  staged_registry : R;
  total_fees_chipbits : Z;
  seen_spends : gset OutPoint;
  seen_attestations : gset identity;
  verifier_window_counts : gmap (Z * str) Z;
  staged_attestation_identities : gset identity;
  staged_attestation_bundles : list RewardAttestationBundle;
  staged_settled_epoch_indexes : gset Z;
  staged_epoch_settlement : option RewardSettlement;
}.

Definition initial_staged (context : ValidationContext U R) : Staged := {|
  staged_view := utxo_view context; staged_registry := node_registry_view context; total_fees_chipbits := 0;
  seen_spends := ∅; seen_attestations := ∅; verifier_window_counts := ∅;
  staged_attestation_identities := reward_attestation_identities context;
  staged_attestation_bundles := reward_attestation_bundles context;
  staged_settled_epoch_indexes := settled_epoch_indexes context; staged_epoch_settlement := None;
|}.

(** The block-wide limits on attestations *)
Definition count_attestation (params : ConsensusParams) (s : gset identity * gmap (Z * str) Z) (a : RewardAttestation) :
    res (gset identity * gmap (Z * str) Z) :=
  let '(seen, counts) := s in
  contextual_if (bool_decide (attestation_identity a ∈ seen)) "Block contains a duplicate reward attestation." ;;
  let key := (check_window_index a, verifier_node_id a) in
  let n := default 0 (counts !! key) + 1 in
  contextual_if (max_attestations_per_verifier_per_window params <? n)
    "Block exceeds per-window verifier attestation emission limits." ;;
  Ok ({[attestation_identity a]} ∪ seen, <[key := n]> counts).

Definition count_attestations (params : ConsensusParams) (st : Staged) (t : Transaction) :
    res (gset identity * gmap (Z * str) Z) :=
  if _is_reward_attestation_bundle_transaction t then
    let* bundle := _parse_reward_attestation_bundle t in
    foldM (count_attestation params) (seen_attestations st, verifier_window_counts st) (attestations bundle)
  else Ok (seen_attestations st, verifier_window_counts st).

(** The block-wide double spend check *)
Definition see_spend (seen : gset OutPoint) (tx_input : TxInput) : res (gset OutPoint) :=
  contextual_if (bool_decide (previous_output tx_input ∈ seen)) "Block contains a double spend." ;;
  Ok ({[previous_output tx_input]} ∪ seen).

Definition see_spends (st : Staged) (t : Transaction) : res (gset OutPoint) :=
  if negb (is_special_node_transaction t) then foldM see_spend (seen_spends st) (inputs t) else Ok (seen_spends st).

Definition staged_context (context : ValidationContext U R) (st : Staged) : res (ValidationContext U R) :=
  let* count := fee_count context in
  Ok (mkContext (context_height context) (median_time_past context) (context_params context) (staged_view st) (network context)
    (staged_registry st) (staged_attestation_identities st) (staged_attestation_bundles st) (staged_settled_epoch_indexes st)
    (epoch_seed_by_index context) None None (enforce_coinbase_maturity context) (Some count)).

(** The effects of a transaction that passed *)
Definition stage_effects (h : Z) (st : Staged) (t : Transaction) : res Staged :=
  if is_special_node_transaction t then
    let* registry := apply_special_node_transaction t h (staged_registry st) in
    Ok (mkStaged (staged_view st) registry (total_fees_chipbits st) (seen_spends st) (seen_attestations st)
      (verifier_window_counts st) (staged_attestation_identities st) (staged_attestation_bundles st)
      (staged_settled_epoch_indexes st) (staged_epoch_settlement st))
  else if _is_reward_attestation_bundle_transaction t then
    let* bundle := _parse_reward_attestation_bundle t in
    Ok (mkStaged (staged_view st) (staged_registry st) (total_fees_chipbits st) (seen_spends st) (seen_attestations st)
      (verifier_window_counts st) (list_to_set (attestation_identity <$> attestations bundle) ∪ staged_attestation_identities st)
      (staged_attestation_bundles st ++ [bundle]) (staged_settled_epoch_indexes st) (staged_epoch_settlement st))
  else if _is_reward_settle_epoch_transaction t then
    let* settlement := _parse_reward_settlement t in
    Ok (mkStaged (staged_view st) (staged_registry st) (total_fees_chipbits st) (seen_spends st) (seen_attestations st)
      (verifier_window_counts st) (staged_attestation_identities st) (staged_attestation_bundles st)
      ({[settlement_epoch_index settlement]} ∪ staged_settled_epoch_indexes st)
      (if epoch_end_height settlement =? h then Some settlement else staged_epoch_settlement st))
  else
    let* view := utxo_apply_transaction (staged_view st) t h false in
    Ok (mkStaged view (staged_registry st) (total_fees_chipbits st) (seen_spends st) (seen_attestations st)
      (verifier_window_counts st) (staged_attestation_identities st) (staged_attestation_bundles st)
      (staged_settled_epoch_indexes st) (staged_epoch_settlement st)).

(** One turn of the loop *)
Definition stage_transaction (context : ValidationContext U R) (st : Staged) (t : Transaction) : res Staged :=
  let* '(seen, counts) := count_attestations (context_params context) st t in
  let* spends_seen := see_spends st t in
  let* staged := staged_context context st in
  let* fee := validate_transaction_stateful t staged in
  stage_effects (context_height context)
    (mkStaged (staged_view st) (staged_registry st) (total_fees_chipbits st + fee) spends_seen seen counts
      (staged_attestation_identities st) (staged_attestation_bundles st) (staged_settled_epoch_indexes st)
      (staged_epoch_settlement st)) t.

(** One expected node output of the coinbase against the actual one *)
Definition check_node_output (outs : list TxOutput) (expected : Z * (str * Z)) : res unit :=
  let '(index, (payee, reward)) := expected in
  match outs !! Z.to_nat index with
  | None => raise IndexError "list index out of range"
  | Some actual =>
      contextual_if (negb (bool_decide (recipient actual = payee))) "Coinbase node reward recipient ordering is incorrect." ;;
      contextual_if (negb (value actual =? reward)) "Coinbase node reward amount is incorrect."
  end.

Definition rewarded_outputs_of (epoch_settlement : option RewardSettlement) : list (str * Z) :=
  match epoch_settlement with
  | None => []
  | Some s => (fun e => (entry_payout_address e, entry_reward_chipbits e)) <$> sorted_by selection_rank (reward_entries s)
  end.

Definition _validate_coinbase_distribution (coinbase : Transaction) (h total_fees : Z) (context : ValidationContext U R)
    (epoch_settlement : option RewardSettlement) : res unit :=
  match outputs coinbase with
  | [] => contextual "Coinbase transaction must contain at least one output."
  | miner_output :: _ =>
      let* '(miner_base_subsidy, node_pool) := subsidy_split_chipbits h (context_params context) in
      let* epoch_closing_height := is_epoch_reward_height h (context_params context) in
      let rewarded_outputs := rewarded_outputs_of epoch_settlement in
      let distributed := match epoch_settlement with Some s => distributed_node_reward_chipbits s | None => 0 end in
      contextual_if (negb epoch_closing_height && negb (node_pool =? 0)) "Node reward can only be minted on epoch-closing blocks." ;;
      contextual_if (negb epoch_closing_height && negb (bool_decide (rewarded_outputs = [])))
        "Node reward recipients are not allowed on non-epoch blocks." ;;
      let miner_amount := miner_base_subsidy + total_fees in
      contextual_if (negb (len (outputs coinbase) =? 1 + len rewarded_outputs))
        "Coinbase outputs do not match the expected miner and node reward distribution." ;;
      contextual_if (negb (value miner_output =? miner_amount)) "Coinbase miner payout amount is incorrect." ;;
      for_each (check_node_output (outputs coinbase)) (enumerate_from 1 rewarded_outputs) ;;
      contextual_if (negb (bool_decide (rewarded_outputs = [])) && negb (distributed =? node_pool))
        "Coinbase node reward split does not match the scheduled epoch reward." ;;
      contextual_if (bool_decide (rewarded_outputs = []) && negb (distributed =? 0))
        "Coinbase must not mint node reward outputs when no nodes are eligible for the epoch."
  end.

Definition validate_block_stateful (block : Block) (context : ValidationContext U R) : res Z :=
  contextual_if (match expected_previous_block_hash context with
                 | Some expected => negb (bool_decide (previous_block_hash (header block) = expected))
                 | None => false
                 end) "Block does not connect to the expected previous hash." ;;
  contextual_if (match expected_bits context with Some expected => negb (bits (header block) =? expected) | None => false end)
    "Block bits do not match expected difficulty target." ;;
  let* st := foldM (stage_transaction context) (initial_staged context) (tail (transactions block)) in
  match transactions block with
  | [] => raise IndexError "list index out of range"
  | coinbase :: _ =>
      _validate_coinbase_distribution coinbase (context_height context) (total_fees_chipbits st) context
        (staged_epoch_settlement st) ;;
      Ok (total_fees_chipbits st)
  end.

Definition validate_block (block : Block) (context : ValidationContext U R) : res Z :=
  validate_block_stateless block (Some context) ;; validate_block_stateful block context.
End validation.
