(* ===== verification/ValidationFacts.v ===== *)
(** * What the validation rules guarantee

    Value conservation and authorisation of transactions, uniqueness of spends,
    the exact coinbase, and the effect of a validated block on the supply. *)

From S2P Require Import Prelude PyOrder PyText Hashes Params Models Serialization Registry Economics Pow Merkle Crypto Addresses Json Settlement Nodes Utxo Validation.

(** [contextual_if] and [stateless_if] are [raise_if]: open them and take the
    computation apart. *)
Ltac inv_checks := unfold contextual_if, stateless_if, contextual, stateless in *; inv_ok; bool_prop.

(** ** Loops that remember what they have seen *)

Lemma foldM_seen {A K} `{Countable K} (key : A -> K) (f : gset K -> A -> res (gset K)) xs :
  (forall s x s', f s x = Ok s' -> (key x ∉ s) /\ s' = {[key x]} ∪ s) ->
  forall s s', foldM f s xs = Ok s' ->
  NoDup (key <$> xs) /\ (forall k, k ∈ key <$> xs -> k ∉ s) /\ s' = list_to_set (key <$> xs) ∪ s.
Proof.
  intros Hf. induction xs as [|x xs IH]; intros s s' E; simpl in E.
  - injection E as <-. csimpl. split; [constructor|]. split; [set_solver|set_solver].
  - apply rbind_Ok in E as (s1 & E1 & E). apply Hf in E1 as [Hx ->]. apply IH in E as (Hn & Hd & ->). csimpl.
    split; [constructor; [|done]|split; [|set_solver]].
    + intros Hin. apply Hd in Hin. set_solver.
    + intros k [->|Hk]%elem_of_cons; [done|]. apply Hd in Hk. set_solver.
Qed.

Section stateless.
Context `{PyRepr, CryptoBackend}.

Definition is_standard (t : Transaction) : bool :=
  negb (is_special_node_transaction t) && negb (_is_reward_attestation_bundle_transaction t)
  && negb (_is_reward_settle_epoch_transaction t).

Lemma metadata_common_empty t x : _validate_node_metadata_common t = Ok x -> inputs t = [] /\ outputs t = [].
Proof. unfold _validate_node_metadata_common. intros E. inv_ok. by bool_prop. Qed.

Lemma special_stateless_empty t x :
  validate_special_node_transaction_stateless t = Ok x -> inputs t = [] /\ outputs t = [].
Proof.
  unfold validate_special_node_transaction_stateless, _validate_register_node_transaction, _validate_renew_node_transaction,
    _validate_register_reward_node_transaction, _validate_renew_reward_node_transaction.
  intros E. repeat (case_match; [apply rbind_Ok in E as ([] & E & _); by apply metadata_common_empty in E|]). discriminate.
Qed.

Lemma nonstandard_empty t x :
  validate_transaction_stateless t = Ok x -> is_standard t = false -> inputs t = [] /\ outputs t = [].
Proof.
  unfold validate_transaction_stateless, is_standard, as_stateless. intros E Hs.
  apply rbind_Ok in E as ([] & _ & E).
  destruct (is_special_node_transaction t).
  { apply try_reraise_Ok in E. by apply special_stateless_empty in E. }
  destruct (_is_reward_attestation_bundle_transaction t).
  { apply try_reraise_Ok in E. unfold _validate_reward_attestation_bundle_transaction_stateless in E.
    do 2 (apply rbind_Ok in E as ([] & ?%raise_if_Ok & E)). by bool_prop. }
  destruct (_is_reward_settle_epoch_transaction t); [|done].
  apply try_reraise_Ok in E. unfold _validate_reward_settle_epoch_transaction_stateless in E.
  do 2 (apply rbind_Ok in E as ([] & ?%raise_if_Ok & E)). by bool_prop.
Qed.

Lemma check_input_seen v s tx_input s' :
  check_input v s tx_input = Ok s' -> (previous_output tx_input ∉ s) /\ s' = {[previous_output tx_input]} ∪ s.
Proof. unfold check_input. intros E. by inv_checks. Qed.

Lemma check_output_nonneg out x : check_output out = Ok x -> 0 <= value out.
Proof. unfold check_output. intros E. by inv_checks. Qed.

(** A well-formed transaction never spends an outpoint twice and never creates a
    negative output. *)
Lemma stateless_shape t x :
  validate_transaction_stateless t = Ok x ->
  NoDup (spends t) /\ Forall (fun out => 0 <= value out) (outputs t).
Proof.
  intros E. destruct (is_standard t) eqn:Es.
  2:{ apply nonstandard_empty in E as [Hi Ho]; [|done]. unfold spends. rewrite Hi, Ho. split; constructor. }
  unfold is_standard in Es. apply andb_prop in Es as [[Hsp Hb]%andb_prop Hse].
  apply negb_true_iff in Hsp, Hb, Hse. unfold validate_transaction_stateless in E. rewrite Hsp, Hb, Hse in E.
  apply rbind_Ok in E as ([] & _ & E).
  do 2 (apply rbind_Ok in E as ([] & _ & E)). apply rbind_Ok in E as ([] & Ho%for_each_Ok & E).
  split; [|eapply Forall_impl; [exact Ho|]; intros out Hout; exact (check_output_nonneg out tt Hout)].
  destruct (is_coinbase_transaction t) eqn:Ec.
  - apply andb_prop in Ec as [Hi%bool_decide_eq_true _]. unfold spends. rewrite Hi. constructor.
  - apply rbind_Ok in E as ([] & _ & E). apply rbind_Ok in E as (s & E & _).
    eapply (foldM_seen previous_output) in E; [apply E|]. apply check_input_seen.
Qed.
End stateless.

Section stateful.
Context `{PyRepr, CryptoBackend} {U R : Type} `{UtxoViewLaws U, NodeRegistryView R}.
Implicit Types context : ValidationContext U R.

(** ** Signatures *)

Lemma legacy_signature_sound t i tx_input previous context x :
  _validate_legacy_input_signature t i tx_input previous context = Ok x ->
  exists digest, transaction_signature_digest t i previous (network context) = Ok digest /\
    public_key_to_address (public_key tx_input) = Ok (recipient previous) /\
    verify_digest (public_key tx_input) digest (signature tx_input) = Ok true.
Proof.
  unfold _validate_legacy_input_signature. intros E. apply rbind_Ok in E as (derived & Hd & E).
  apply try_reraise_Ok in Hd. apply rbind_Ok in E as ([] & He%raise_if_Ok & E).
  apply negb_false_iff, bool_decide_eq_true in He as ->.
  apply rbind_Ok in E as (digest & Hg & E). apply rbind_Ok in E as (ok & Hv & E). apply raise_if_Ok, negb_false_iff in E as ->.
  by exists digest.
Qed.

Lemma pq_signature_sound t i tx_input previous info context x :
  _validate_pq_input_signature t i tx_input previous info context = Ok x ->
  exists digest scheme, transaction_signature_digest t i previous (network context) = Ok digest /\
    pq_public_key_commitment (public_key tx_input) = hash_or_commitment info /\
    get_signature_scheme (info_scheme_id info) = Ok scheme /\
    scheme_verify scheme (public_key tx_input) digest (signature tx_input) = Ok true.
Proof.
  unfold _validate_pq_input_signature. intros E. apply rbind_Ok in E as ([] & _ & E).
  apply rbind_Ok in E as ([] & Hi%raise_if_Ok & E). apply negb_false_iff, Z.eqb_eq in Hi.
  apply rbind_Ok in E as (scheme & Hs & E). apply try_reraise_Ok in Hs. rewrite Hi in Hs.
  apply rbind_Ok in E as ([] & _ & E).
  destruct (public_key_size scheme) as [ks|]; [|discriminate]. destruct (signature_size scheme) as [ss|]; [|discriminate].
  do 2 (apply rbind_Ok in E as ([] & _ & E)). apply rbind_Ok in E as ([] & Hc%raise_if_Ok & E).
  apply negb_false_iff, bool_decide_eq_true in Hc. apply rbind_Ok in E as (digest & Hd & E).
  apply rbind_Ok in E as (ok & Hv & E). apply raise_if_Ok, negb_false_iff in E as ->. apply try_reraise_Ok in Hv.
  by exists digest, scheme.
Qed.

Lemma input_signature_sound t i tx_input previous context :
  _validate_standard_input_signature t i tx_input previous context = Ok tt ->
  exists digest info, transaction_signature_digest t i previous (network context) = Ok digest /\
    parse_address (recipient previous) = Ok info /\
    match kind info with
    | legacy => public_key_to_address (public_key tx_input) = Ok (recipient previous) /\
                verify_digest (public_key tx_input) digest (signature tx_input) = Ok true
    | pq => pq_public_key_commitment (public_key tx_input) = hash_or_commitment info /\
            exists scheme, get_signature_scheme (info_scheme_id info) = Ok scheme /\
              scheme_verify scheme (public_key tx_input) digest (signature tx_input) = Ok true
    end.
Proof.
  unfold _validate_standard_input_signature. intros E. apply rbind_Ok in E as (info & Hp & E). apply try_reraise_Ok in Hp.
  destruct (version t =? 1).
  - apply rbind_Ok in E as ([] & Hk%raise_if_Ok & E). apply negb_false_iff, bool_decide_eq_true in Hk.
    apply rbind_Ok in E as ([] & _ & E). apply legacy_signature_sound in E as (digest & ? & ?).
    exists digest, info. by rewrite Hk.
  - apply rbind_Ok in E as ([] & _ & E). destruct (kind info) eqn:Hk; rewrite ?bool_decide_true in E by done.
    + apply rbind_Ok in E as ([] & _ & E). apply legacy_signature_sound in E as (digest & ? & ?).
      exists digest, info. by rewrite Hk.
    + rewrite bool_decide_false in E by done. apply pq_signature_sound in E as (digest & scheme & ? & ? & ? & ?).
      exists digest, info. rewrite Hk. repeat split; try done. by exists scheme.
Qed.

(** ** Transactions *)

(** What the loop over the inputs of a standard transaction has checked of one
    of them. *)
Definition input_ok (t : Transaction) context (index_input : Z * TxInput) : Prop :=
  exists entry,
    utxo_map (utxo_view context) !! previous_output index_input.2 = Some entry /\
    (enforce_coinbase_maturity context = true -> is_coinbase_mature entry (context_height context) (context_params context) = true) /\
    _validate_standard_input_signature t index_input.1 index_input.2 (output entry) context = Ok tt.

Lemma spend_input_ok t context total p total' :
  spend_input t context total p = Ok total' ->
  input_ok t context p /\ total' = total + spent_value (utxo_map (utxo_view context)) [previous_output p.2].
Proof.
  destruct p as [i tx_input]. unfold spend_input. intros E.
  apply rbind_Ok in E as (found & Hg & E). apply get_map in Hg as ->.
  destruct (_ !! previous_output tx_input) as [entry|] eqn:El; [|discriminate].
  apply rbind_Ok in E as ([] & Hm%raise_if_Ok & E). apply rbind_Ok in E as ([] & Hs & E). injection E as <-.
  split.
  - exists entry. split; [done|]. split; [|done]. intros He. rewrite He in Hm. by apply negb_false_iff in Hm.
  - unfold spent_value. csimpl. rewrite El. lia.
Qed.

Lemma spent_value_cons m o os : spent_value m (o :: os) = spent_value m [o] + spent_value m os.
Proof. unfold spent_value. csimpl. lia. Qed.

Lemma spend_inputs_ok t context total ps total' :
  foldM (spend_input t context) total ps = Ok total' ->
  Forall (input_ok t context) ps /\
  total' = total + spent_value (utxo_map (utxo_view context)) (previous_output <$> ps.*2).
Proof.
  revert total. induction ps as [|p ps IH]; intros total E; simpl in E.
  - injection E as <-. split; [constructor|]. unfold spent_value. csimpl. lia.
  - apply rbind_Ok in E as (total1 & E1 & E). apply spend_input_ok in E1 as [Hp ->]. apply IH in E as [Hps ->].
    split; [by constructor|]. csimpl. rewrite (spent_value_cons _ _ (previous_output <$> ps.*2)). lia.
Qed.

Lemma enumerate_inputs t : previous_output <$> (enumerate (inputs t)).*2 = spends t.
Proof. unfold enumerate. by rewrite enumerate_from_snd. Qed.

Lemma standard_stateful t context fee :
  validate_transaction_stateful t context = Ok fee -> is_standard t = true -> is_coinbase_transaction t = false ->
  Forall (input_ok t context) (enumerate (inputs t)) /\ 0 <= fee /\
  spent_value (utxo_map (utxo_view context)) (spends t) = transaction_output_total t + fee.
Proof.
  unfold validate_transaction_stateful, is_standard. intros E Hs Hc. rewrite Hc in E.
  apply andb_prop in Hs as [[Hsp Hb]%andb_prop Hse]. apply negb_true_iff in Hsp, Hb, Hse. rewrite Hsp, Hb, Hse in E.
  apply rbind_Ok in E as ([] & _ & E). apply rbind_Ok in E as (total & Et & E).
  apply rbind_Ok in E as ([] & Hge%raise_if_Ok & E). injection E as <-. apply Z.ltb_ge in Hge.
  apply spend_inputs_ok in Et as [Hf Et]. rewrite enumerate_inputs in Et. split; [done|]. lia.
Qed.

Lemma nonstandard_stateful t context fee :
  validate_transaction_stateful t context = Ok fee -> is_standard t = false -> fee = 0.
Proof.
  unfold validate_transaction_stateful, is_standard. intros E Hs. apply rbind_Ok in E as ([] & _ & E).
  destruct (is_coinbase_transaction t); [by injection E|].
  destruct (is_special_node_transaction t); [apply rbind_Ok in E as (? & _ & E); by injection E|].
  destruct (_is_reward_attestation_bundle_transaction t); [apply rbind_Ok in E as (? & _ & E); by injection E|].
  destruct (_is_reward_settle_epoch_transaction t); [apply rbind_Ok in E as (? & _ & E); by injection E|done].
Qed.

(** C7: A transaction that passes full validation conserves value: a standard
    transaction spends distinct existing mature outputs and what they hold is
    exactly what it creates plus a non-negative fee; a registry or reward
    transaction moves nothing and pays nothing. *)
Theorem transaction_conserves_value (t : Transaction) context (fee : Z) :
  validate_transaction t context = Ok fee -> is_coinbase_transaction t = false ->
  if is_standard t then
    NoDup (spends t) /\ 0 <= fee /\ Forall (fun out => 0 <= value out) (outputs t) /\
    Forall (fun o => exists entry, utxo_map (utxo_view context) !! o = Some entry /\
      (enforce_coinbase_maturity context = true -> is_coinbase_mature entry (context_height context) (context_params context) = true))
      (spends t) /\
    spent_value (utxo_map (utxo_view context)) (spends t) = transaction_output_total t + fee
  else spends t = [] /\ outputs t = [] /\ fee = 0.
Proof.
  unfold validate_transaction. intros E Hc. apply rbind_Ok in E as ([] & Hl & E).
  destruct (is_standard t) eqn:Es.
  - apply stateless_shape in Hl as [Hn Ho]. apply standard_stateful in E as (Hf & Hfee & Hv); [|done..].
    repeat split; try done. rewrite <- enumerate_inputs. rewrite !Forall_fmap. eapply Forall_impl; [exact Hf|].
    intros p (entry & Hl & Hm & _). by exists entry.
  - apply nonstandard_empty in Hl as [Hi Ho]; [|done]. apply nonstandard_stateful in E; [|done].
    unfold spends. by rewrite Hi.
Qed.

(** C6: No output is spent without its owner: each input of an accepted standard
    transaction carries a key that hashes to the address of the output it spends
    and a signature that verifies, under that key, over the digest of this very
    transaction, input, output and network; an output of a post-quantum address
    is only spent under the scheme the address names. *)
Theorem spends_are_authorised (t : Transaction) context (fee : Z) :
  validate_transaction t context = Ok fee -> is_coinbase_transaction t = false -> is_standard t = true ->
  Forall (fun '(i, tx_input) => exists entry digest info,
    utxo_map (utxo_view context) !! previous_output tx_input = Some entry /\
    transaction_signature_digest t i (output entry) (network context) = Ok digest /\
    parse_address (recipient (output entry)) = Ok info /\
    match kind info with
    | legacy => public_key_to_address (public_key tx_input) = Ok (recipient (output entry)) /\
                verify_digest (public_key tx_input) digest (signature tx_input) = Ok true
    | pq => pq_public_key_commitment (public_key tx_input) = hash_or_commitment info /\
            exists scheme, get_signature_scheme (info_scheme_id info) = Ok scheme /\
              scheme_verify scheme (public_key tx_input) digest (signature tx_input) = Ok true
    end) (enumerate (inputs t)).
Proof.
  unfold validate_transaction. intros E Hc Hs. apply rbind_Ok in E as ([] & _ & E).
  apply standard_stateful in E as (Hf & _ & _); [|done..]. eapply Forall_impl; [exact Hf|].
  intros [i tx_input] (entry & Hl & _ & Hsig). simpl in Hl, Hsig. exists entry.
  apply input_signature_sound in Hsig as (digest & info & Hd & Hp & Hk). by exists digest, info.
Qed.
End stateful.

(** ** Sets of outputs along a block *)

(** The effect of a non-coinbase transaction on a set *)
Definition apply_step (h : Z) (m : utxo_set) (t : Transaction) : utxo_set :=
  after_transaction m t (ok_or (txid t) []) h false.

Lemma apply_step_empty h m t : inputs t = [] -> outputs t = [] -> apply_step h m t = m.
Proof. intros Hi Ho. unfold apply_step, after_transaction, spends, creates. by rewrite Hi, Ho. Qed.

Lemma after_transaction_union (e m : utxo_set) t id h c :
  exists e', e' ⊆ e /\ after_transaction (e ∪ m) t id h c = e' ∪ after_transaction m t id h c.
Proof.
  exists (filter (fun kv => (kv.1 ∉ spends t) /\ kv.1 ∉ (creates t id h c).*1) e).
  split; [apply map_filter_subseteq|]. apply map_eq. intros o. unfold after_transaction.
  rewrite lookup_union, map_lookup_filter.
  destruct (decide (o ∈ (creates t id h c).*1)) as [Hin|Hout].
  - apply list_elem_of_fmap in Hin as ([o' x] & -> & Hin).
    rewrite !(insert_all_lookup_elem _ _ o' x) by (done || apply creates_NoDup).
    simpl. destruct (e !! o') as [y|]; simpl; [|by rewrite (left_id None _)].
    rewrite option_guard_False; [by rewrite (left_id None _)|].
    intros [_ Hn]. apply Hn. apply list_elem_of_fmap. by exists (o', x).
  - rewrite !insert_all_lookup_ne, !remove_all_lookup, lookup_union by done.
    destruct (decide (o ∈ spends t)) as [Hs|Hs].
    + rewrite (right_id None _). destruct (e !! o) as [y|]; simpl; [|done]. rewrite option_guard_False; [done|]. tauto.
    + destruct (e !! o) as [y|]; simpl; [|done]. by rewrite option_guard_True.
Qed.

Lemma apply_steps_union h ts (e m : utxo_set) :
  exists e', e' ⊆ e /\ foldl (apply_step h) (e ∪ m) ts = e' ∪ foldl (apply_step h) m ts.
Proof.
  revert e m. induction ts as [|t ts IH]; intros e m; simpl; [by exists e|].
  destruct (after_transaction_union e m t (ok_or (txid t) []) h false) as (e1 & He1 & E). unfold apply_step at 2. rewrite E.
  destruct (IH e1 (after_transaction m t (ok_or (txid t) []) h false)) as (e2 & He2 & E2).
  exists e2. split; [by transitivity e1|done].
Qed.

Lemma utxo_total_union (e m : utxo_set) :
  nonneg_outputs e -> nonneg_outputs m -> utxo_total (e ∪ m) <= utxo_total e + utxo_total m /\ nonneg_outputs (e ∪ m).
Proof.
  revert m. induction e as [|o x e Ho IH] using map_ind; intros m He Hm.
  - assert (∅ ∪ m = m) as -> by apply (left_id ∅ _). rewrite utxo_total_empty. split; [lia|done].
  - apply map_Forall_insert in He as [Hx He]; [|done]. destruct (IH m He Hm) as [IH1 IH2].
    rewrite <- insert_union_l, (utxo_total_insert e o x) by done. split; [|by apply nonneg_insert].
    pose proof (utxo_total_insert_le (e ∪ m) o x IH2). lia.
Qed.

Lemma nonneg_subseteq (e e' : utxo_set) : e' ⊆ e -> nonneg_outputs e -> nonneg_outputs e'.
Proof. intros Hs Hn o x Hx. eapply Hn. by eapply lookup_weaken. Qed.

Lemma utxo_total_subseteq (e e' : utxo_set) : e' ⊆ e -> nonneg_outputs e -> utxo_total e' <= utxo_total e.
Proof.
  intros Hs Hn. rewrite <- (map_difference_union e' e) by done.
  assert (Hd : e' ##ₘ e ∖ e') by (by apply map_disjoint_difference_r1).
  assert (Hnd : nonneg_outputs (e ∖ e')) by (eapply nonneg_subseteq; [apply map_subseteq_difference_l|]; done).
  enough (Ht : utxo_total (e' ∪ e ∖ e') = utxo_total e' + utxo_total (e ∖ e')) by (pose proof (utxo_total_nonneg _ Hnd); lia).
  revert Hd. generalize (e ∖ e'). clear. intros d. induction e' as [|o x e Ho IH] using map_ind; intros Hd.
  - rewrite (left_id ∅ _), utxo_total_empty. lia.
  - apply map_disjoint_insert_l in Hd as [Hdo Hd]. rewrite <- insert_union_l, !utxo_total_insert.
    + rewrite IH by done. lia.
    + done.
    + rewrite lookup_union, Ho, Hdo. done.
Qed.

Section apply_block.
Context {W : Type} `{UtxoViewLaws W}.

Lemma apply_rest_map (w w' : W) h i ts :
  0 < i -> foldM (fun v '(index, t) => utxo_apply_transaction v t h (index =? 0)) w (enumerate_from i ts) = Ok w' ->
  utxo_map w' = foldl (apply_step h) (utxo_map w) ts.
Proof.
  revert i w. induction ts as [|t ts IH]; intros i w Hi E; simpl in E; [by injection E as <-|].
  apply rbind_Ok in E as (w1 & E1 & E). rewrite (proj2 (Z.eqb_neq i 0)) in E1 by lia.
  apply apply_map in E1 as (id & Hid & E1). apply IH in E; [|lia]. rewrite E, E1. simpl. f_equal. unfold apply_step. by rewrite Hid.
Qed.

Lemma apply_block_map (w w' : W) h hdr coinbase rest :
  utxo_apply_block w (mkBlock hdr (coinbase :: rest)) h = Ok w' ->
  exists id, txid coinbase = Ok id /\
    utxo_map w' = foldl (apply_step h) (after_transaction (utxo_map w) coinbase id h true) rest.
Proof.
  unfold utxo_apply_block, enumerate. simpl. intros E. apply rbind_Ok in E as (w1 & E1 & E).
  apply apply_map in E1 as (id & Hid & E1). exists id. split; [done|]. rewrite <- E1. apply (apply_rest_map w1 w' h 1 rest); [lia|exact E].
Qed.
End apply_block.

(** Without inputs, a transaction lays its outputs over the set. *)
Lemma insert_all_union (m : utxo_set) es : insert_all m es = insert_all ∅ es ∪ m.
Proof.
  assert (G : forall e : utxo_set, insert_all (e ∪ m) es = insert_all e es ∪ m).
  { induction es as [|[o x] es IH]; intros e; simpl; [done|]. by rewrite insert_union_l, IH. }
  rewrite <- G. by rewrite (left_id ∅ _).
Qed.

Lemma coinbase_apply_union (m : utxo_set) t id h c :
  inputs t = [] -> Forall (fun out => 0 <= value out) (outputs t) ->
  exists e, after_transaction m t id h c = e ∪ m /\ nonneg_outputs e /\ utxo_total e <= transaction_output_total t.
Proof.
  intros Hi Ho. exists (insert_all ∅ (creates t id h c)). unfold after_transaction, spends. rewrite Hi. simpl.
  split; [apply insert_all_union|].
  destruct (insert_all_total ∅ (creates t id h c)) as [H1 H2]; [apply map_Forall_empty|by apply creates_nonneg|].
  split; [done|]. rewrite utxo_total_empty, entries_total_creates in H1. unfold transaction_output_total. lia.
Qed.

(** ** Blocks *)

Section blocks.
Context `{PyRepr, CryptoBackend} {U R : Type} `{UtxoViewLaws U, NodeRegistryView R}.
Implicit Types context : ValidationContext U R.

Lemma staged_context_fields context (st : Staged (U:=U) (R:=R)) staged :
  staged_context context st = Ok staged ->
  utxo_view staged = staged_view st /\ node_registry_view staged = staged_registry st /\
  context_height staged = context_height context /\ context_params staged = context_params context /\
  network staged = network context /\
  reward_attestation_identities staged = staged_attestation_identities st /\
  settled_epoch_indexes staged = staged_settled_epoch_indexes st.
Proof. unfold staged_context. intros E. apply rbind_Ok in E as (n & _ & E). by injection E as <-. Qed.

(** A turn of the loop, taken apart *)
Lemma stage_transaction_inv context st t (st' : Staged (U:=U) (R:=R)) :
  stage_transaction context st t = Ok st' ->
  exists seen counts spends_seen staged fee,
    count_attestations (context_params context) st t = Ok (seen, counts) /\ see_spends st t = Ok spends_seen /\
    staged_context context st = Ok staged /\ validate_transaction_stateful t staged = Ok fee /\
    stage_effects (context_height context)
      (mkStaged (staged_view st) (staged_registry st) (total_fees_chipbits st + fee) spends_seen seen counts
        (staged_attestation_identities st) (staged_attestation_bundles st) (staged_settled_epoch_indexes st)
        (staged_epoch_settlement st)) t = Ok st'.
Proof.
  unfold stage_transaction. intros E. apply rbind_Ok in E as ([seen counts] & E1 & E). cbv beta iota in E.
  apply rbind_Ok in E as (spends_seen & E2 & E). apply rbind_Ok in E as (staged & E3 & E).
  apply rbind_Ok in E as (fee & E4 & E). by exists seen, counts, spends_seen, staged, fee.
Qed.

(** What the effects leave alone *)
Lemma stage_effects_view h st t (st' : Staged (U:=U) (R:=R)) :
  stage_effects h st t = Ok st' ->
  total_fees_chipbits st' = total_fees_chipbits st /\ seen_spends st' = seen_spends st /\
  (if is_standard t then utxo_apply_transaction (staged_view st) t h false = Ok (staged_view st')
   else staged_view st' = staged_view st).
Proof.
  unfold stage_effects, is_standard. intros E.
  destruct (is_special_node_transaction t); [apply rbind_Ok in E as (x & _ & E); by injection E as <-|].
  destruct (_is_reward_attestation_bundle_transaction t); [apply rbind_Ok in E as (x & _ & E); by injection E as <-|].
  destruct (_is_reward_settle_epoch_transaction t); [apply rbind_Ok in E as (x & _ & E); by injection E as <-|].
  apply rbind_Ok in E as (x & Hx & E). by injection E as <-.
Qed.

Lemma staged_map_step context st t (st' : Staged (U:=U) (R:=R)) x :
  validate_transaction_stateless t = Ok x -> stage_transaction context st t = Ok st' ->
  utxo_map (staged_view st') = apply_step (context_height context) (utxo_map (staged_view st)) t.
Proof.
  intros Hl E. apply stage_transaction_inv in E as (seen & counts & ss & staged & fee & _ & _ & _ & _ & E).
  apply stage_effects_view in E as (_ & _ & E). destruct (is_standard t) eqn:Es.
  - apply apply_map in E as (id & Hid & ->). unfold apply_step. by rewrite Hid.
  - rewrite E. apply nonstandard_empty in Hl as [??]; [|done]. by rewrite apply_step_empty.
Qed.

(** The transactions after the coinbase, as the stateless rules leave them *)
Definition block_rest_ok (ts : list Transaction) : Prop :=
  Forall (fun t => validate_transaction_stateless t = Ok tt /\ is_coinbase_transaction t = false) ts.

Lemma staged_map context ts (st st' : Staged (U:=U) (R:=R)) :
  block_rest_ok ts -> foldM (stage_transaction context) st ts = Ok st' ->
  utxo_map (staged_view st') = foldl (apply_step (context_height context)) (utxo_map (staged_view st)) ts.
Proof.
  intros Hts. revert st. induction Hts as [|t ts [Hl _] _ IH]; intros st E; simpl in E; [by injection E as <-|].
  apply rbind_Ok in E as (st1 & E1 & E). apply IH in E. rewrite E. simpl. f_equal. by eapply staged_map_step.
Qed.

(** Fees are what the staged outputs have lost. *)
Lemma fees_step context st t (st' : Staged (U:=U) (R:=R)) :
  validate_transaction_stateless t = Ok tt -> is_coinbase_transaction t = false ->
  stage_transaction context st t = Ok st' -> nonneg_outputs (utxo_map (staged_view st)) ->
  nonneg_outputs (utxo_map (staged_view st')) /\ total_fees_chipbits st <= total_fees_chipbits st' /\
  utxo_total (utxo_map (staged_view st')) + total_fees_chipbits st' <=
  utxo_total (utxo_map (staged_view st)) + total_fees_chipbits st.
Proof.
  intros Hl Hc E Hn. rewrite (staged_map_step context st t st' tt) by done.
  apply stage_transaction_inv in E as (seen & counts & ss & staged & fee & _ & _ & Hst & Hv & E).
  apply staged_context_fields in Hst as (Hu & _). apply stage_effects_view in E as (Hf & _ & _). simpl in Hf.
  destruct (is_standard t) eqn:Es.
  - apply standard_stateful in Hv as (_ & Hfee & Hv); [|done..]. rewrite Hu in Hv.
    apply stateless_shape in Hl as [Hd Ho].
    destruct (after_transaction_total (utxo_map (staged_view st)) t (ok_or (txid t) []) (context_height context) false)
      as [Ht Hn']; [done..|]. fold (apply_step (context_height context) (utxo_map (staged_view st)) t) in Ht, Hn'.
    split; [done|]. unfold transaction_output_total in Hv. lia.
  - apply nonstandard_stateful in Hv; [|done]. apply nonstandard_empty in Hl as [??]; [|done].
    rewrite apply_step_empty by done. split; [done|]. lia.
Qed.

Lemma fees_total context ts (st st' : Staged (U:=U) (R:=R)) :
  block_rest_ok ts -> foldM (stage_transaction context) st ts = Ok st' -> nonneg_outputs (utxo_map (staged_view st)) ->
  nonneg_outputs (utxo_map (staged_view st')) /\ total_fees_chipbits st <= total_fees_chipbits st' /\
  utxo_total (utxo_map (staged_view st')) + total_fees_chipbits st' <=
  utxo_total (utxo_map (staged_view st)) + total_fees_chipbits st.
Proof.
  intros Hts. revert st. induction Hts as [|t ts [Hl Hc] _ IH]; intros st E Hn; simpl in E.
  - injection E as <-. split; [done|]. lia.
  - apply rbind_Ok in E as (st1 & E1 & E). apply fees_step in E1 as (Hn1 & ? & ?); [|done..].
    apply IH in E as (Hn2 & ? & ?); [|done]. split; [done|]. lia.
Qed.

(** *** The coinbase *)

Definition payout (out : TxOutput) : str * Z := (recipient out, value out).

Lemma node_outputs_exact outs pre post expected :
  outs = pre ++ post -> length post = length expected ->
  Forall (fun e => check_node_output outs e = Ok tt) (enumerate_from (len pre) expected) -> payout <$> post = expected.
Proof.
  revert pre post. induction expected as [|[payee reward] expected IH]; intros pre post Ho Hl Hf;
    destruct post as [|out post]; try discriminate Hl; [done|].
  csimpl in Hf. inversion Hf as [|? ? Hc Hf']; subst. csimpl. f_equal.
  - unfold check_node_output in Hc. unfold len in Hc. rewrite Nat2Z.id, list_lookup_middle in Hc by done.
    apply rbind_Ok in Hc as ([] & Hr%raise_if_Ok & Hc). apply raise_if_Ok in Hc. unfold payout.
    apply negb_false_iff, bool_decide_eq_true in Hr. apply negb_false_iff, Z.eqb_eq in Hc. congruence.
  - apply (IH (pre ++ [out])); [by rewrite <- app_assoc|by injection Hl|].
    unfold len in *. rewrite length_app. simpl. by replace (Z.of_nat (length pre + 1)) with (Z.of_nat (length pre) + 1) by lia.
Qed.

(** The settlement a block carries was checked against its own entries. *)
Definition settlement_sound (s : option RewardSettlement) : Prop :=
  match s with
  | Some s => zsum (entry_reward_chipbits <$> reward_entries s) = distributed_node_reward_chipbits s
  | None => True
  end.

Lemma settle_sound t context x :
  _validate_reward_settle_epoch_transaction_with_params t context = Ok x ->
  exists s, _parse_reward_settlement t = Ok s /\ settlement_sound (Some s) /\
    (settlement_epoch_index s ∉ settled_epoch_indexes context) /\ epoch_end_height s = context_height context /\
    epoch_close_height (settlement_epoch_index s) (context_params context) = Ok (epoch_end_height s).
Proof.
  unfold _validate_reward_settle_epoch_transaction_with_params. intros E. apply rbind_Ok in E as (s & Hs & E).
  exists s. split; [done|]. cbv zeta in E. apply rbind_Ok in E as ([] & _ & E).
  apply rbind_Ok in E as ([] & Hd%raise_if_Ok & E). apply bool_decide_eq_false in Hd.
  apply rbind_Ok in E as ([] & Hh%raise_if_Ok & E). apply negb_false_iff, Z.eqb_eq in Hh.
  apply rbind_Ok in E as (close & Hc & E). apply rbind_Ok in E as ([] & He%raise_if_Ok & E).
  apply negb_false_iff, Z.eqb_eq in He. subst close. apply rbind_Ok in E as ([] & _ & E).
  destruct (epoch_seed_by_index context !! settlement_epoch_index s); [|discriminate].
  apply rbind_Ok in E as ([] & _ & E). apply rbind_Ok in E as ([] & Ht%raise_if_Ok & E).
  apply negb_false_iff, Z.eqb_eq in Ht. done.
Qed.

Lemma settle_kind t :
  has_kind REWARD_SETTLE_EPOCH_KIND t = true -> is_special_node_transaction t = false /\ has_kind REWARD_ATTESTATION_BUNDLE_KIND t = false.
Proof.
  unfold is_special_node_transaction, has_kind. rewrite bool_decide_eq_true. intros ->. split; [|by apply bool_decide_eq_false].
  rewrite !bool_decide_false; [done|discriminate..].
Qed.

(** The settlement of a block: that of its last settling transaction *)
Definition settled_by (ts : list Transaction) (settlement : option RewardSettlement) : Prop :=
  match settlement with
  | None => Forall (fun t => has_kind REWARD_SETTLE_EPOCH_KIND t = false) ts
  | Some s => exists pre t post, ts = pre ++ t :: post /\ has_kind REWARD_SETTLE_EPOCH_KIND t = true /\
      parse_reward_settlement_metadata (metadata t) = Ok s /\ Forall (fun t => has_kind REWARD_SETTLE_EPOCH_KIND t = false) post
  end.

Lemma settled_by_snoc ts t settlement :
  settled_by ts settlement ->
  (has_kind REWARD_SETTLE_EPOCH_KIND t = false -> settled_by (ts ++ [t]) settlement) /\
  (forall s, has_kind REWARD_SETTLE_EPOCH_KIND t = true -> parse_reward_settlement_metadata (metadata t) = Ok s -> settled_by (ts ++ [t]) (Some s)).
Proof.
  intros Hs. split.
  - intros Hk. destruct settlement as [s|]; simpl in *.
    + destruct Hs as (pre & t' & post & -> & Hk' & Hp & Hpost). exists pre, t', (post ++ [t]). rewrite <- app_assoc. simpl.
      split_and!; try done. apply Forall_app. split; [done|]. by constructor.
    + apply Forall_app. split; [done|]. by constructor.
  - intros s Hk Hp. exists ts, t, []. by split_and!.
Qed.

(** One turn of the loop and the settlement it stages *)
Lemma staged_settlement_step context (st st' : Staged (U:=U) (R:=R)) t :
  stage_transaction context st t = Ok st' -> is_coinbase_transaction t = false ->
  if has_kind REWARD_SETTLE_EPOCH_KIND t
  then exists s, parse_reward_settlement_metadata (metadata t) = Ok s /\ staged_epoch_settlement st' = Some s
  else staged_epoch_settlement st' = staged_epoch_settlement st.
Proof.
  intros (seen & counts & ss & staged & fee & _ & _ & Hst & Hv & E)%stage_transaction_inv Hc. unfold stage_effects in E.
  apply staged_context_fields in Hst as (_ & _ & Hh & _). fold (_is_reward_settle_epoch_transaction t).
  destruct (_is_reward_settle_epoch_transaction t) eqn:Ek.
  - destruct (settle_kind t Ek) as [Hs Hb]. unfold validate_transaction_stateful in Hv. unfold _is_reward_attestation_bundle_transaction in *.
    rewrite Hc, Hs, Hb, Ek in Hv. rewrite Hs, Hb in E. apply rbind_Ok in Hv as ([] & _ & Hv). apply rbind_Ok in Hv as ([] & Hv & _).
    apply settle_sound in Hv as (s & Hps & _ & _ & Hend & _). rewrite Hps in E. cbn [rbind] in E. injection E as <-.
    exists s. cbn [staged_epoch_settlement]. rewrite Hend, Hh, Z.eqb_refl. split; [|done].
    unfold _parse_reward_settlement in Hps. apply rbind_Ok in Hps as (s' & -> & Hps). by inv_ok.
  - destruct (is_special_node_transaction t); [apply rbind_Ok in E as (y & _ & E); by injection E as <-|].
    destruct (_is_reward_attestation_bundle_transaction t); apply rbind_Ok in E as (y & _ & E); by injection E as <-.
Qed.

Lemma staged_settled_by context done_ ts (st st' : Staged (U:=U) (R:=R)) :
  foldM (stage_transaction context) st ts = Ok st' -> Forall (fun t => is_coinbase_transaction t = false) ts ->
  settled_by done_ (staged_epoch_settlement st) -> settled_by (done_ ++ ts) (staged_epoch_settlement st').
Proof.
  intros E Hc. revert done_ st E. induction Hc as [|t ts Ht _ IH]; intros done_ st E Hs; cbn [foldM] in E.
  - injection E as <-. by rewrite app_nil_r.
  - apply rbind_Ok in E as (st1 & E1 & E). rewrite (app_assoc done_ [t] ts : done_ ++ t :: ts = _). apply (IH _ st1 E).
    apply staged_settlement_step in E1; [|done]. destruct (settled_by_snoc done_ t _ Hs) as [Hno Hyes].
    destruct (has_kind REWARD_SETTLE_EPOCH_KIND t); [destruct E1 as (s & Hp & ->); by apply Hyes|rewrite E1; by apply Hno].
Qed.

Lemma staged_settlement_sound context ts (st st' : Staged (U:=U) (R:=R)) :
  foldM (stage_transaction context) st ts = Ok st' -> settlement_sound (staged_epoch_settlement st) ->
  Forall (fun t => is_coinbase_transaction t = false) ts -> settlement_sound (staged_epoch_settlement st').
Proof.
  intros E Hs Hc. revert E. apply (foldM_inv (fun st => settlement_sound (staged_epoch_settlement st))); [|done].
  clear st st' Hs. intros st t st' Hin Hs E. rewrite Forall_forall in Hc. apply Hc in Hin.
  apply stage_transaction_inv in E as (seen & counts & ss & staged & fee & _ & _ & _ & Hv & E).
  unfold stage_effects in E. unfold validate_transaction_stateful in Hv. rewrite Hin in Hv.
  apply rbind_Ok in Hv as ([] & _ & Hv).
  destruct (is_special_node_transaction t); [apply rbind_Ok in E as (y & _ & E); by injection E as <-|].
  destruct (_is_reward_attestation_bundle_transaction t); [apply rbind_Ok in E as (y & _ & E); by injection E as <-|].
  destruct (_is_reward_settle_epoch_transaction t); apply rbind_Ok in E as (y & Hy & E); injection E as <-; [|done].
  apply rbind_Ok in Hv as ([] & Hv & _). apply settle_sound in Hv as (s & Hp & Hss & _).
  simpl. case_match; [congruence|done].
Qed.

Lemma coinbase_distribution_inv coinbase h fees context settlement x :
  _validate_coinbase_distribution coinbase h fees context settlement = Ok x ->
  exists miner pool miner_output,
    subsidy_split_chipbits h (context_params context) = Ok (miner, pool) /\
    outputs coinbase = miner_output :: tail (outputs coinbase) /\ value miner_output = miner + fees /\
    payout <$> tail (outputs coinbase) = rewarded_outputs_of settlement /\
    (rewarded_outputs_of settlement = [] \/
     exists s, settlement = Some s /\ distributed_node_reward_chipbits s = pool /\ (h + 1) mod epoch_length_blocks (context_params context) = 0).
Proof.
  unfold _validate_coinbase_distribution. intros E. destruct (outputs coinbase) as [|mo outs] eqn:Eo; [discriminate|].
  apply rbind_Ok in E as ([miner pool] & Hs & E). cbv beta iota zeta in E. apply rbind_Ok in E as (closing & Hcl & E).
  apply rbind_Ok in E as ([] & _ & E). apply rbind_Ok in E as ([] & Hne%raise_if_Ok & E).
  apply rbind_Ok in E as ([] & Hlen%raise_if_Ok & E). apply rbind_Ok in E as ([] & Hm%raise_if_Ok & E).
  apply rbind_Ok in E as ([] & Hn%for_each_Ok & E). apply rbind_Ok in E as ([] & Hd%raise_if_Ok & _).
  apply negb_false_iff, Z.eqb_eq in Hlen, Hm. exists miner, pool, mo. split; [done|]. split; [done|]. split; [done|]. split.
  - apply (node_outputs_exact (mo :: outs) [mo] outs); [done|unfold len in Hlen; simpl in *; lia|done].
  - destruct (decide (rewarded_outputs_of settlement = [])) as [Hz|Hz]; [by left|right].
    rewrite bool_decide_false in Hd, Hne by done. simpl in Hd. apply negb_false_iff, Z.eqb_eq in Hd.
    destruct settlement as [s|]; [|done]. exists s. split; [done|]. split; [done|].
    rewrite andb_true_r in Hne. apply negb_false_iff in Hne. subst closing. unfold is_epoch_reward_height in Hcl.
    destruct (h <? 0); [discriminate|]. injection Hcl as Hcl. by apply Z.eqb_eq.
Qed.

Lemma zsum_Permutation l1 l2 : l1 ≡ₚ l2 -> zsum l1 = zsum l2.
Proof. unfold zsum. induction 1; simpl; lia. Qed.

Lemma rewarded_outputs_total settlement :
  settlement_sound settlement ->
  zsum (rewarded_outputs_of settlement).*2 =
  match settlement with Some s => distributed_node_reward_chipbits s | None => 0 end.
Proof.
  destruct settlement as [s|]; simpl; [|done]. intros <-. apply zsum_Permutation.
  rewrite <- list_fmap_compose. rewrite sorted_by_Permutation. done.
Qed.

Lemma coinbase_total coinbase h fees context settlement x :
  _validate_coinbase_distribution coinbase h fees context settlement = Ok x -> settlement_sound settlement ->
  exists miner pool, subsidy_split_chipbits h (context_params context) = Ok (miner, pool) /\
    (transaction_output_total coinbase = miner + fees \/ transaction_output_total coinbase = miner + fees + pool).
Proof.
  intros (miner & pool & mo & Hs & Ho & Hm & Hp & Hr)%coinbase_distribution_inv Hsound. exists miner, pool. split; [done|].
  assert (Ht : transaction_output_total coinbase = miner + fees + zsum (rewarded_outputs_of settlement).*2).
  { unfold transaction_output_total. rewrite Ho. csimpl. rewrite <- Hp, <- list_fmap_compose. unfold zsum at 1. simpl.
    fold (zsum (value <$> tail (outputs coinbase))). rewrite Hm. done. }
  destruct Hr as [Hz|(s & -> & Hd & _)].
  - left. rewrite Hz in Ht. unfold zsum in Ht. simpl in Ht. lia.
  - right. rewrite rewarded_outputs_total in Ht by done. lia.
Qed.

(** *** Validated blocks *)

Lemma block_stateless_inv block context x :
  validate_block_stateless block (Some context) = Ok x ->
  exists coinbase rest, transactions block = coinbase :: rest /\ is_coinbase_transaction coinbase = true /\
    validate_transaction_stateless coinbase = Ok tt /\ block_rest_ok rest.
Proof.
  unfold validate_block_stateless. intros E. destruct (transactions block) as [|coinbase rest]; [discriminate|].
  exists coinbase, rest. split; [done|]. apply rbind_Ok in E as ([] & Hc%raise_if_Ok & E).
  apply rbind_Ok in E as ([] & Hr%raise_if_Ok & E). apply rbind_Ok in E as ([] & Hv%for_each_Ok & _).
  apply negb_false_iff in Hc. inversion Hv as [|? ? Hv1 Hv2]; subst. split; [done|]. split; [done|].
  unfold block_rest_ok. rewrite Forall_forall in *. intros t Ht. split; [by apply Hv2|].
  destruct (is_coinbase_transaction t) eqn:Et; [|done]. rewrite <- Hr. symmetry. apply existsb_exists.
  exists t. split; [by apply list_elem_of_In|done].
Qed.

Lemma block_rest_coinbase_free ts : block_rest_ok ts -> Forall (fun t => is_coinbase_transaction t = false) ts.
Proof. intros Hr. eapply Forall_impl; [exact Hr|]. intros t [_ Hc]. exact Hc. Qed.

Lemma validate_block_inv block context fees :
  validate_block block context = Ok fees ->
  exists coinbase rest st, transactions block = coinbase :: rest /\ is_coinbase_transaction coinbase = true /\
    validate_transaction_stateless coinbase = Ok tt /\ block_rest_ok rest /\
    foldM (stage_transaction context) (initial_staged context) rest = Ok st /\
    _validate_coinbase_distribution coinbase (context_height context) fees context (staged_epoch_settlement st) = Ok tt /\
    settlement_sound (staged_epoch_settlement st) /\ total_fees_chipbits st = fees.
Proof.
  unfold validate_block. intros E. apply rbind_Ok in E as ([] & Hl & E).
  apply block_stateless_inv in Hl as (coinbase & rest & Ht & Hc & Hv & Hr). exists coinbase, rest.
  unfold validate_block_stateful in E. rewrite Ht in E. do 2 (apply rbind_Ok in E as ([] & _ & E)).
  apply rbind_Ok in E as (st & Hst & E). apply rbind_Ok in E as ([] & Hd & E). injection E as <-. simpl in Hst.
  exists st. repeat (split; [done|]). split; [|done].
  eapply staged_settlement_sound; [exact Hst|done|]. by apply block_rest_coinbase_free.
Qed.

Lemma ranked_sorted (es : list RewardSettlementEntry) :
  StronglySorted (fun e1 e2 => selection_rank e1 <= selection_rank e2) (sorted_by selection_rank es).
Proof.
  induction (sorted_by_StronglySorted selection_rank es) as [|e l _ IH He]; constructor; [done|].
  eapply Forall_impl; [exact He|]. intros e' Hle. by apply Z.leb_le.
Qed.

Lemma payouts_of_entries outs es :
  payout <$> outs = (fun e => (entry_payout_address e, entry_reward_chipbits e)) <$> es ->
  Forall2 (fun out e => recipient out = entry_payout_address e /\ value out = entry_reward_chipbits e) outs es.
Proof.
  revert es. induction outs as [|out outs IH]; intros [|e es] E; try discriminate; [constructor|].
  rewrite !fmap_cons in E. injection E as E1 E2 E. constructor; [done|by apply IH].
Qed.

(** C9: The coinbase of a validated block is exact: its first output is the
    block's miner subsidy plus all the fees of the block.  When the block carries no
    settlement that is all; otherwise the outputs after it are, recipient and amount,
    the entries of the settlement that the block's own transaction declares, ordered
    by their rank.  If there are any they add up to the whole scheduled node pool, and
    they are allowed only at the last height of an epoch. *)
Theorem coinbase_pays_exactly (block : Block) context (fees : Z) :
  validate_block block context = Ok fees ->
  exists coinbase rest miner pool miner_output node_outputs settlement ranked,
    transactions block = coinbase :: rest /\
    subsidy_split_chipbits (context_height context) (context_params context) = Ok (miner, pool) /\
    outputs coinbase = miner_output :: node_outputs /\ value miner_output = miner + fees /\
    settled_by rest settlement /\
    ranked ≡ₚ match settlement with None => [] | Some s => reward_entries s end /\
    StronglySorted (fun e1 e2 => selection_rank e1 <= selection_rank e2) ranked /\
    Forall2 (fun out e => recipient out = entry_payout_address e /\ value out = entry_reward_chipbits e) node_outputs ranked /\
    (node_outputs = [] \/
     (zsum (value <$> node_outputs) = pool /\
      (context_height context + 1) mod epoch_length_blocks (context_params context) = 0)).
Proof.
  intros (coinbase & rest & st & Ht & _ & _ & Hrest & Hst & Hd & Hs & _)%validate_block_inv.
  apply (staged_settled_by context []) in Hst; [|by apply block_rest_coinbase_free|constructor].
  apply coinbase_distribution_inv in Hd as (miner & pool & mo & Hsp & Ho & Hm & Hp & Hr).
  exists coinbase, rest, miner, pool, mo, (tail (outputs coinbase)), (staged_epoch_settlement st),
    (match staged_epoch_settlement st with None => [] | Some s => sorted_by selection_rank (reward_entries s) end).
  repeat (split; [done|]). split; [destruct (staged_epoch_settlement st); [by rewrite sorted_by_Permutation|done]|].
  split; [destruct (staged_epoch_settlement st); [apply ranked_sorted|constructor]|]. split.
  - apply payouts_of_entries. rewrite Hp. by destruct (staged_epoch_settlement st).
  - destruct Hr as [Hz|(s & Es & Hd & Hcl)]; [left; rewrite Hz in Hp; by apply fmap_nil_inv in Hp|right]. split; [|done].
    transitivity (zsum (payout <$> tail (outputs coinbase)).*2); [by rewrite <- list_fmap_compose|]. rewrite Hp.
    rewrite rewarded_outputs_total by done. by rewrite Es.
Qed.
(** *** Spends *)

Lemma see_spend_seen s tx_input s' :
  see_spend s tx_input = Ok s' -> (previous_output tx_input ∉ s) /\ s' = {[previous_output tx_input]} ∪ s.
Proof. unfold see_spend. intros E. by inv_checks. Qed.

Lemma see_spends_seen (st : Staged (U:=U) (R:=R)) t s' :
  validate_transaction_stateless t = Ok tt -> see_spends st t = Ok s' ->
  NoDup (spends t) /\ (forall o, o ∈ spends t -> o ∉ seen_spends st) /\ s' = list_to_set (spends t) ∪ seen_spends st.
Proof.
  unfold see_spends. intros Hl E. destruct (is_special_node_transaction t) eqn:Es; simpl in E.
  - injection E as <-. apply nonstandard_empty in Hl as [Hi _]; [|unfold is_standard; by rewrite Es].
    unfold spends. rewrite Hi. csimpl. split; [constructor|]. split; set_solver.
  - eapply (foldM_seen previous_output) in E; [exact E|]. apply see_spend_seen.
Qed.

Lemma block_spends context ts (st st' : Staged (U:=U) (R:=R)) :
  block_rest_ok ts -> foldM (stage_transaction context) st ts = Ok st' ->
  NoDup (concat (spends <$> ts)) /\ (forall o, o ∈ concat (spends <$> ts) -> o ∉ seen_spends st).
Proof.
  intros Hts. revert st. induction Hts as [|t ts [Hl _] _ IH]; intros st E; simpl in E.
  - csimpl. split; [constructor|set_solver].
  - apply rbind_Ok in E as (st1 & E1 & E). apply stage_transaction_inv in E1 as (? & ? & ss & ? & ? & _ & Hs & _ & _ & E1).
    apply stage_effects_view in E1 as (_ & E1 & _). simpl in E1. apply see_spends_seen in Hs as (Hn & Hd & Hss); [|done].
    apply IH in E as [Hn' Hd']. rewrite E1, Hss in Hd'. csimpl. split.
    + apply NoDup_app. split; [done|]. split; [|done]. intros o Ho Ho'. apply Hd' in Ho'. set_solver.
    + intros o [Ho|Ho]%elem_of_app; [by apply Hd|]. apply Hd' in Ho. set_solver.
Qed.

(** Every outpoint a block spends *)
Definition block_outpoints (block : Block) : list OutPoint := concat (spends <$> transactions block).

(** C10: No double spend within a validated block: no outpoint is spent by two
    inputs of the block, whether of one transaction or of two. *)
Theorem block_has_no_double_spend (block : Block) context (fees : Z) :
  validate_block block context = Ok fees -> NoDup (block_outpoints block).
Proof.
  unfold block_outpoints. intros (coinbase & rest & st & Ht & Hc & _ & Hr & Hst & _)%validate_block_inv. rewrite Ht. csimpl.
  apply andb_prop in Hc as [Hi%bool_decide_eq_true _]. unfold spends at 1. rewrite Hi. csimpl.
  by apply block_spends in Hst as [Hn _].
Qed.

(** *** Supply *)

Lemma validated_block_supply {W} `{UtxoViewLaws W} (block : Block) context (fees : Z) (w w' : W) :
  validate_block block context = Ok fees -> utxo_apply_block w block (context_height context) = Ok w' ->
  utxo_map w = utxo_map (utxo_view context) -> nonneg_outputs (utxo_map w) ->
  exists miner pool, subsidy_split_chipbits (context_height context) (context_params context) = Ok (miner, pool) /\
    nonneg_outputs (utxo_map w') /\
    (utxo_total (utxo_map w') <= utxo_total (utxo_map w) + miner \/
     utxo_total (utxo_map w') <= utxo_total (utxo_map w) + miner + pool).
Proof.
  intros (coinbase & rest & st & Ht & Hc & Hl & Hr & Hst & Hd & Hs & Hfees)%validate_block_inv Ha Hw Hn.
  destruct block as [hdr txs]. simpl in Ht. subst txs. apply apply_block_map in Ha as (id & _ & Ha).
  apply andb_prop in Hc as [Hi%bool_decide_eq_true _]. apply stateless_shape in Hl as [_ Ho].
  destruct (coinbase_apply_union (utxo_map w) coinbase id (context_height context) true) as (e & He & Hne & Hte); [done..|].
  rewrite He in Ha. destruct (apply_steps_union (context_height context) rest e (utxo_map w)) as (e' & Hsub & Hu).
  rewrite Hu in Ha.
  assert (Hm : foldl (apply_step (context_height context)) (utxo_map w) rest = utxo_map (staged_view st))
    by (rewrite Hw; symmetry; by apply (staged_map context rest (initial_staged context))).
  rewrite Hm in Ha. apply fees_total in Hst as (Hns & _ & Htot); [|done|simpl; by rewrite <- Hw]. simpl in Htot. rewrite <- Hw in Htot.
  destruct (utxo_total_union e' (utxo_map (staged_view st))) as [Hsum Hnn]; [by eapply nonneg_subseteq|done|].
  pose proof (utxo_total_subseteq e e' Hsub Hne) as Hle.
  apply coinbase_total in Hd as (miner & pool & Hsp & Hcb); [|done]. exists miner, pool. split; [done|]. rewrite Ha.
  split; [done|]. destruct Hcb as [Hcb|Hcb]; [left|right]; lia.
Qed.

(** The value of all unspent outputs of a view *)
Definition supply {W} `{UtxoViewLaws W} (w : W) : Z := utxo_total (utxo_map w).

(** C8: A validated block cannot inflate: applying it, to any view of the set it
    was validated against, raises the value of all unspent outputs by at most the
    miner subsidy and the node pool of its height. *)
Theorem block_cannot_inflate {W} `{UtxoViewLaws W} (block : Block) context (fees : Z) (w w' : W) :
  validate_block block context = Ok fees -> utxo_apply_block w block (context_height context) = Ok w' ->
  utxo_map w = utxo_map (utxo_view context) -> nonneg_outputs (utxo_map w) ->
  params_ok (context_params context) -> 0 <= context_height context ->
  exists miner pool, subsidy_split_chipbits (context_height context) (context_params context) = Ok (miner, pool) /\
    supply w' <= supply w + miner + pool.
Proof.
  unfold supply. intros Hv Ha Hw Hn Hp Hh. destruct (validated_block_supply block context fees w w' Hv Ha Hw Hn) as (miner & pool & Hs & _ & Hor).
  exists miner, pool. split; [done|]. destruct (split_totals_step _ _ Hp Hh) as (m & n & ? & Hs' & _ & _ & _ & Hpool).
  rewrite Hs in Hs'. injection Hs' as <- <-. lia.
Qed.
End blocks.
