(* ===== verification/RegistryRules.v ===== *)
(** * What the rules guarantee of the registry and of reward transactions

    A registry transaction that validates changes the record of its own node
    only, under the key that owns it, and keeps owner keys unique; an
    attestation is recorded once and an epoch is settled once. *)

From S2P Require Import Prelude PyOrder PyText Hashes Params Models Serialization Registry Economics Pow Merkle Crypto Addresses Json Settlement Nodes Utxo Validation ValidationFacts.

Lemma parse_public_key_hex_fromhex `{CryptoBackend} text k : parse_public_key_hex text = Ok k -> fromhex text = Ok k.
Proof.
  unfold parse_public_key_hex. intros E. apply rbind_Ok in E as (k' & Hk & E). apply try_reraise_Ok in Hk.
  apply rbind_Ok in E as (? & _ & E). by injection E as <-.
Qed.

Section registry.
Context `{PyRepr, CryptoBackend} {U R : Type} `{UtxoView U} `{NodeRegistryLaws R}.
Implicit Types context : ValidationContext U R.

(** The kinds of registry transactions exclude each other. *)
Lemma has_kind_unique k1 k2 t : has_kind k1 t = true -> has_kind k2 t = true -> k1 = k2.
Proof. unfold has_kind. intros E1 E2. apply bool_decide_eq_true in E1, E2. congruence. Qed.

(** The change a registry transaction may make: one record, its owner's *)
Record record_update (t : Transaction) (h : Z) (owner : bytes) (v v' : R) : Prop := {
  updated_wf : view_wf v';
  updated_owners : owners_unique v';
  updated_record : exists i r, md_index (metadata t) "node_id" = Ok i /\ get_by_node_id v' i = Some r /\
    owner_pubkey r = owner /\ last_renewed_height r = h /\
    (forall j, j ≠ i -> get_by_node_id v' j = get_by_node_id v j) /\
    (forall old, get_by_node_id v i = Some old -> owner_pubkey old = owner /\ registered_height r = registered_height old) /\
    (get_by_node_id v i = None -> registered_height r = h);
}.

Lemma upsert_record_update t h v i r :
  view_wf v -> owners_unique v -> md_index (metadata t) "node_id" = Ok i -> node_id r = i ->
  owner_free v r -> last_renewed_height r = h ->
  (forall old, get_by_node_id v i = Some old -> owner_pubkey old = owner_pubkey r /\ registered_height r = registered_height old) ->
  (get_by_node_id v i = None -> registered_height r = h) ->
  record_update t h (owner_pubkey r) v (upsert v r).
Proof.
  intros Hw Hu Hi <- Hf Hh Hold Hnew. split; [by apply upsert_wf|by apply upsert_owners_unique|].
  exists (node_id r), r. split; [done|]. split; [by apply get_upsert_same|]. repeat (split; [done|]).
  split; [intros j Hj; by apply get_upsert_other|done].
Qed.

(** A key that no record has, or only the node's own, is free. *)
Lemma owner_free_by_owner v r :
  view_wf v -> owners_unique v ->
  (forall existing, get_by_owner_pubkey v (owner_pubkey r) = Some existing -> node_id existing = node_id r) -> owner_free v r.
Proof.
  intros Hw Hu Hown r' Hin Ho. destruct (get_by_owner_pubkey v (owner_pubkey r)) as [existing|] eqn:E.
  - specialize (Hown existing eq_refl). apply get_by_owner_Some in E as [Ee Hine]; [|done].
    rewrite <- Hown. f_equal. apply Hu; [done..|congruence].
  - exfalso. by apply (get_by_owner_None v _ Hw E r').
Qed.

Lemma owner_free_same v r old :
  view_wf v -> owners_unique v -> get_by_node_id v (node_id r) = Some old -> owner_pubkey old = owner_pubkey r -> owner_free v r.
Proof.
  intros Hw Hu Hg Ho r' Hin Ho'. pose proof (get_by_node_id_key v _ old Hw Hg) as Hk.
  assert (Hin2 : old ∈ list_records v) by (apply list_records_get; [done|by rewrite Hk]).
  rewrite <- Hk. f_equal. apply Hu; [done..|congruence].
Qed.

Lemma check_renew_inv t owner context x :
  check_renew t owner context = Ok x ->
  exists i record, md_index (metadata t) "node_id" = Ok i /\
    get_by_node_id (node_registry_view context) i = Some record /\ owner_pubkey record = owner.
Proof.
  unfold check_renew. intros E. apply rbind_Ok in E as (i & Hi & E). exists i.
  destruct (get_by_node_id (node_registry_view context) i) as [record|]; [|discriminate]. exists record.
  apply rbind_Ok in E as ([] & Ho%raise_if_Ok & _). by apply negb_false_iff, bool_decide_eq_true in Ho.
Qed.

Lemma check_register_inv t owner context x :
  check_register t owner context = Ok x ->
  exists i, md_index (metadata t) "node_id" = Ok i /\ get_by_node_id (node_registry_view context) i = None /\
    get_by_owner_pubkey (node_registry_view context) owner = None.
Proof.
  unfold check_register. intros E. apply rbind_Ok in E as (i & Hi & E). exists i. split; [done|].
  apply rbind_Ok in E as ([] & Hn%raise_if_Ok & E). apply raise_if_Ok in E.
  apply bool_decide_eq_false in Hn, E. split; by apply eq_None_not_Some.
Qed.

Lemma check_register_reward_inv t owner count context x :
  check_register_reward t owner count context = Ok x ->
  exists i, md_index (metadata t) "node_id" = Ok i /\
    (forall old, get_by_node_id (node_registry_view context) i = Some old ->
      reward_registration old = false /\ owner_pubkey old = owner) /\
    (forall old, get_by_owner_pubkey (node_registry_view context) owner = Some old -> node_id old = i).
Proof.
  unfold check_register_reward. intros E. apply rbind_Ok in E as (i & Hi & E). exists i. split; [done|].
  apply rbind_Ok in E as ([] & Hn%raise_if_Ok & E). apply rbind_Ok in E as ([] & Ho%raise_if_Ok & _). split.
  - intros old Hold. rewrite Hold in Hn. apply orb_false_elim in Hn as [Hr Hn]. split; [done|].
    by apply negb_false_iff, bool_decide_eq_true in Hn.
  - intros old Hold. rewrite Hold in Ho. by apply negb_false_iff, bool_decide_eq_true in Ho.
Qed.

(** What the stateful rules check of a registry transaction of each kind *)
Lemma special_stateful_inv t context x :
  _validate_special_node_transaction_stateful t context = Ok x ->
  exists owner_hex owner count, md_index (metadata t) "owner_pubkey_hex" = Ok owner_hex /\ fromhex owner_hex = Ok owner /\
    special_node_transaction_signature_is_valid t (network context) (context_height context) = Ok true /\
    (is_legacy_register_node_transaction t = true -> check_register t owner context = Ok tt) /\
    (is_register_reward_node_transaction t = true -> check_register_reward t owner count context = Ok tt) /\
    (is_renew_node_transaction t = true -> check_renew t owner context = Ok tt).
Proof.
  unfold _validate_special_node_transaction_stateful. intros E. apply rbind_Ok in E as (owner_hex & Hhex & E).
  apply rbind_Ok in E as (owner & Ho & E). apply rbind_Ok in E as (valid & Hv & E).
  apply rbind_Ok in E as ([] & Hok%raise_if_Ok & E). apply negb_false_iff in Hok. subst valid.
  apply rbind_Ok in E as (count & _ & E). exists owner_hex, owner, count. repeat (split; [done|]). destruct x.
  unfold is_renew_node_transaction, is_legacy_register_node_transaction, is_register_reward_node_transaction,
    is_legacy_renew_node_transaction, is_renew_reward_node_transaction in *.
  destruct (has_kind REGISTER_NODE_KIND t) eqn:K1.
  { split; [done|]. split; [|intros [K|K]%orb_prop]; intros; exfalso;
      [assert (K : has_kind REGISTER_REWARD_NODE_KIND t = true) by done|..];
      pose proof (has_kind_unique _ _ t K1 K); discriminate. }
  split; [done|]. destruct (has_kind REGISTER_REWARD_NODE_KIND t) eqn:K2.
  { split; [done|]. intros [K|K]%orb_prop; pose proof (has_kind_unique _ _ t K2 K); discriminate. }
  split; [done|]. destruct (has_kind RENEW_NODE_KIND t); [done|]. destruct (has_kind RENEW_REWARD_NODE_KIND t); [|done].
  intros _. unfold check_renew_reward in E. by apply rbind_Ok in E as ([] & E & _).
Qed.

Lemma apply_register_update t h owner_hex owner v v' :
  view_wf v -> owners_unique v ->
  md_index (metadata t) "owner_pubkey_hex" = Ok owner_hex -> fromhex owner_hex = Ok owner ->
  forall i, md_index (metadata t) "node_id" = Ok i -> get_by_node_id v i = None -> get_by_owner_pubkey v owner = None ->
  is_legacy_register_node_transaction t = true -> apply_special_node_transaction t h v = Ok v' ->
  record_update t h owner v v'.
Proof.
  intros Hw Hu Hx Ho i Hi Hn Hno K E. unfold apply_special_node_transaction in E. rewrite K, Hx, Hi in E. simpl in E.
  apply rbind_Ok in E as (owner' & Hp & E). apply parse_public_key_hex_fromhex in Hp. assert (owner' = owner) as -> by congruence.
  apply rbind_Ok in E as (payout & _ & E). injection E as <-.
  apply (upsert_record_update t h v i (mkNodeRecord i payout owner h h None None None false)); try done.
  - apply owner_free_by_owner; [done..|]. simpl. congruence.
  - intros old Hold. simpl in Hold. congruence.
Qed.

Lemma apply_register_reward_update t h owner_hex owner v v' :
  view_wf v -> owners_unique v ->
  md_index (metadata t) "owner_pubkey_hex" = Ok owner_hex -> fromhex owner_hex = Ok owner ->
  forall i, md_index (metadata t) "node_id" = Ok i ->
  (forall old, get_by_node_id v i = Some old -> reward_registration old = false /\ owner_pubkey old = owner) ->
  (forall old, get_by_owner_pubkey v owner = Some old -> node_id old = i) ->
  is_register_reward_node_transaction t = true -> apply_special_node_transaction t h v = Ok v' ->
  record_update t h owner v v'.
Proof.
  intros Hw Hu Hx Ho i Hi Hold Hown K E. unfold apply_special_node_transaction in E.
  destruct (is_legacy_register_node_transaction t) eqn:K1.
  { pose proof (has_kind_unique _ _ t K K1). discriminate. }
  rewrite K, Hx, Hi in E. simpl in E.
  apply rbind_Ok in E as (owner' & Hp & E). apply parse_public_key_hex_fromhex in Hp. assert (owner' = owner) as -> by congruence.
  apply rbind_Ok in E as (payout & _ & E). apply rbind_Ok in E as (nhex & _ & E). apply rbind_Ok in E as (nkey & _ & E).
  apply rbind_Ok in E as (host & _ & E). apply rbind_Ok in E as (port & _ & E). injection E as <-.
  match goal with |- record_update _ _ _ _ (upsert _ ?r) => apply (upsert_record_update t h v i r); try done end.
  - apply owner_free_by_owner; [done..|]. simpl. done.
  - intros old Hg. simpl. rewrite Hg. by destruct (Hold old Hg).
  - intros Hg. simpl. by rewrite Hg.
Qed.

Lemma apply_renew_update t h owner v v' :
  view_wf v -> owners_unique v ->
  forall i record, md_index (metadata t) "node_id" = Ok i -> get_by_node_id v i = Some record -> owner_pubkey record = owner ->
  is_renew_node_transaction t = true -> apply_special_node_transaction t h v = Ok v' ->
  record_update t h owner v v'.
Proof.
  intros Hw Hu i record Hi Hg Ho K E. unfold apply_special_node_transaction in E.
  destruct (is_legacy_register_node_transaction t) eqn:K1.
  { apply orb_prop in K as [K|K]; pose proof (has_kind_unique _ _ t K K1); discriminate. }
  destruct (is_register_reward_node_transaction t) eqn:K2.
  { apply orb_prop in K as [K|K]; pose proof (has_kind_unique _ _ t K K2); discriminate. }
  assert (Hup : exists r, v' = upsert v r /\ node_id r = node_id record /\ owner_pubkey r = owner_pubkey record /\
    registered_height r = registered_height record /\ last_renewed_height r = h).
  { rewrite Hi in E. simpl in E. rewrite Hg in E.
    destruct (is_legacy_renew_node_transaction t); [injection E as <-; eexists; by split|].
    destruct (is_renew_reward_node_transaction t); [|discriminate].
    apply rbind_Ok in E as (host & _ & E). apply rbind_Ok in E as (port & _ & E). injection E as <-. eexists. by split. }
  destruct Hup as (r & -> & Hid & Hro & Hrr & Hrh). pose proof (get_by_node_id_key v i record Hw Hg) as Hk.
  rewrite <- Ho, <- Hro. apply (upsert_record_update t h v i r); try done.
  - congruence.
  - apply (owner_free_same v r record); [done..|congruence|done].
  - intros old Hold. assert (old = record) as -> by congruence. done.
  - congruence.
Qed.

Lemma special_update t context x v' :
  view_wf (node_registry_view context) -> owners_unique (node_registry_view context) ->
  is_special_node_transaction t = true -> _validate_special_node_transaction_stateful t context = Ok x ->
  apply_special_node_transaction t (context_height context) (node_registry_view context) = Ok v' ->
  exists owner_hex owner, md_index (metadata t) "owner_pubkey_hex" = Ok owner_hex /\ fromhex owner_hex = Ok owner /\
    special_node_transaction_signature_is_valid t (network context) (context_height context) = Ok true /\
    record_update t (context_height context) owner (node_registry_view context) v'.
Proof.
  intros Hw Hu Hs Hv Ha. apply special_stateful_inv in Hv as (owner_hex & owner & count & Hx & Ho & Hsig & C1 & C2 & C3).
  exists owner_hex, owner. repeat (split; [done|]).
  destruct (is_renew_node_transaction t) eqn:K3.
  { destruct (check_renew_inv t owner context tt (C3 eq_refl)) as (i & record & Hi & Hg & Hro). by eapply apply_renew_update. }
  destruct (is_legacy_register_node_transaction t) eqn:K1.
  { destruct (check_register_inv t owner context tt (C1 eq_refl)) as (i & Hi & Hn & Hno). by eapply apply_register_update. }
  destruct (is_register_reward_node_transaction t) eqn:K2.
  { destruct (check_register_reward_inv t owner count context tt (C2 eq_refl)) as (i & Hi & Hold & Hown).
    by eapply apply_register_reward_update. }
  unfold is_special_node_transaction, is_renew_node_transaction, is_legacy_register_node_transaction,
    is_register_reward_node_transaction, is_legacy_renew_node_transaction, is_renew_reward_node_transaction in *.
  rewrite K1, K2 in Hs. apply orb_false_elim in K3 as [K3 K4]. by rewrite K3, K4 in Hs.
Qed.

Lemma special_stateful_validated t context fee :
  is_special_node_transaction t = true -> is_coinbase_transaction t = false ->
  validate_transaction_stateful t context = Ok fee -> _validate_special_node_transaction_stateful t context = Ok tt.
Proof.
  intros Hs Hc Hv. unfold validate_transaction_stateful in Hv. rewrite Hs, Hc in Hv.
  apply rbind_Ok in Hv as ([] & _ & Hv). by apply rbind_Ok in Hv as ([] & Hv & _).
Qed.

(** C19: The registry is under its owners' control: a registry transaction that
    passes validation carries a signature valid for this network and height under
    the owner key it names; applying it touches the record of its own node only,
    an existing record keeps its owner and its registration height, and no two
    records of the registry ever share an owner key. *)
Theorem registry_under_owner_control t context (fee : Z) (v' : R) :
  view_wf (node_registry_view context) -> owners_unique (node_registry_view context) ->
  is_special_node_transaction t = true -> is_coinbase_transaction t = false -> validate_transaction t context = Ok fee ->
  apply_special_node_transaction t (context_height context) (node_registry_view context) = Ok v' ->
  exists owner_hex owner, md_index (metadata t) "owner_pubkey_hex" = Ok owner_hex /\ fromhex owner_hex = Ok owner /\
    special_node_transaction_signature_is_valid t (network context) (context_height context) = Ok true /\
    record_update t (context_height context) owner (node_registry_view context) v'.
Proof.
  intros Hw Hu Hs Hc Hv Ha. unfold validate_transaction in Hv. apply rbind_Ok in Hv as ([] & Hl & Hv).
  apply special_stateful_validated in Hv; [|done..]. by eapply special_update.
Qed.
End registry.

(** ** Along a block *)

Section block_registry.
Context `{PyRepr, CryptoBackend} {U R : Type} `{UtxoView U} `{NodeRegistryLaws R}.
Implicit Types context : ValidationContext U R.

(** [apply_special_node_transaction] for the registry transactions of a list, in
    order *)
Definition registry_step (h : Z) (v : R) (t : Transaction) : res R :=
  if is_special_node_transaction t then apply_special_node_transaction t h v else Ok v.

Lemma stage_effects_registry h st t (st' : Staged (U:=U) (R:=R)) :
  stage_effects h st t = Ok st' -> registry_step h (staged_registry st) t = Ok (staged_registry st').
Proof.
  unfold stage_effects, registry_step. intros E.
  destruct (is_special_node_transaction t); [apply rbind_Ok in E as (v & Hv & E); by injection E as <-|].
  destruct (_is_reward_attestation_bundle_transaction t); [apply rbind_Ok in E as (x & _ & E); by injection E as <-|].
  destruct (_is_reward_settle_epoch_transaction t); apply rbind_Ok in E as (x & _ & E); by injection E as <-.
Qed.

(** The registry a block stages is its registry transactions applied in order. *)
Lemma staged_registry_fold context ts (st st' : Staged (U:=U) (R:=R)) :
  foldM (stage_transaction context) st ts = Ok st' ->
  foldM (registry_step (context_height context)) (staged_registry st) ts = Ok (staged_registry st').
Proof.
  revert st. induction ts as [|t ts IH]; intros st E; simpl in E |- *; [by injection E as <-|].
  apply rbind_Ok in E as (st1 & E1 & E). apply stage_transaction_inv in E1 as (? & ? & ? & ? & ? & _ & _ & _ & _ & E1).
  apply stage_effects_registry in E1. simpl in E1. rewrite E1. simpl. by apply IH.
Qed.

Lemma staged_registry_owners context ts (st st' : Staged (U:=U) (R:=R)) :
  Forall (fun t => is_coinbase_transaction t = false) ts -> foldM (stage_transaction context) st ts = Ok st' ->
  view_wf (staged_registry st) /\ owners_unique (staged_registry st) ->
  view_wf (staged_registry st') /\ owners_unique (staged_registry st').
Proof.
  intros Hts E Hi. revert E. apply (foldM_inv (fun st => view_wf (staged_registry st) /\ owners_unique (staged_registry st))); [|done].
  clear st st' Hi. intros st t st' Hin [Hw Hu] E. rewrite Forall_forall in Hts. apply Hts in Hin.
  apply stage_transaction_inv in E as (? & ? & ? & staged & fee & _ & _ & Hst & Hv & E).
  apply stage_effects_registry in E. simpl in E. apply staged_context_fields in Hst as (_ & Hr & Hh & _).
  unfold registry_step in E. destruct (is_special_node_transaction t) eqn:Hs.
  - apply special_stateful_validated in Hv; [|done..]. rewrite <- Hr, <- Hh in E. rewrite <- Hr in Hw, Hu.
    apply (special_update t staged tt) in E as (? & ? & _ & _ & _ & Hup); [|done..]. split; apply Hup.
  - by injection E as <-.
Qed.

(** ** Attestations and settlements *)

Definition bundle_identities (bundle : RewardAttestationBundle) : list identity := attestation_identity <$> attestations bundle.

Lemma count_attestation_seen params s a s' :
  count_attestation params s a = Ok s' -> (attestation_identity a ∉ s.1) /\ s'.1 = {[attestation_identity a]} ∪ s.1.
Proof. destruct s as [seen counts]. unfold count_attestation. intros E. by inv_checks. Qed.

Lemma count_attestations_NoDup params s atts s' :
  foldM (count_attestation params) s atts = Ok s' ->
  NoDup (attestation_identity <$> atts) /\ (forall i, i ∈ attestation_identity <$> atts -> i ∉ s.1).
Proof.
  revert s. induction atts as [|a atts IH]; intros s E; simpl in E; [csimpl; split; [constructor|set_solver]|].
  apply rbind_Ok in E as (s1 & [Hn Hs]%count_attestation_seen & E). apply IH in E as [Hd Hf]. rewrite Hs in Hf. csimpl. split.
  - constructor; [|done]. intros Hin%Hf. set_solver.
  - intros i [->|Hi]%elem_of_cons; [done|]. apply Hf in Hi. set_solver.
Qed.

Lemma bundle_stateful_fresh t context x :
  _validate_reward_attestation_bundle_transaction_with_params t context = Ok x ->
  exists bundle, _parse_reward_attestation_bundle t = Ok bundle /\
    forall i, i ∈ bundle_identities bundle -> i ∉ reward_attestation_identities context.
Proof.
  unfold _validate_reward_attestation_bundle_transaction_with_params. intros E. apply rbind_Ok in E as (bundle & Hb & E).
  exists bundle. split; [done|]. cbv zeta in E. do 3 (apply rbind_Ok in E as ([] & _ & E)).
  destruct (epoch_seed_by_index context !! bundle_epoch_index bundle); [|discriminate].
  apply rbind_Ok in E as (active & _ & E). apply rbind_Ok in E as ([] & _ & E). apply for_each_Ok in E.
  intros i (a & -> & Ha)%list_elem_of_fmap. rewrite Forall_forall in E. apply E in Ha. unfold check_attestation in Ha.
  apply rbind_Ok in Ha as ([] & Ha%raise_if_Ok & _). by apply bool_decide_eq_false in Ha.
Qed.

(** The effect of a transaction on the recorded rewards *)
Definition rewards_step (t : Transaction) (st st' : Staged (U:=U) (R:=R)) : Prop :=
  (exists bundle, _is_reward_attestation_bundle_transaction t = true /\ _parse_reward_attestation_bundle t = Ok bundle /\
     NoDup (bundle_identities bundle) /\ (forall i, i ∈ bundle_identities bundle -> i ∉ staged_attestation_identities st) /\
     staged_attestation_identities st' = list_to_set (bundle_identities bundle) ∪ staged_attestation_identities st /\
     staged_attestation_bundles st' = staged_attestation_bundles st ++ [bundle] /\
     staged_settled_epoch_indexes st' = staged_settled_epoch_indexes st) \/
  (exists s, _is_reward_settle_epoch_transaction t = true /\ _parse_reward_settlement t = Ok s /\
     (settlement_epoch_index s ∉ staged_settled_epoch_indexes st) /\
     staged_settled_epoch_indexes st' = {[settlement_epoch_index s]} ∪ staged_settled_epoch_indexes st /\
     staged_attestation_identities st' = staged_attestation_identities st /\
     staged_attestation_bundles st' = staged_attestation_bundles st) \/
  (_is_reward_attestation_bundle_transaction t = false /\ _is_reward_settle_epoch_transaction t = false /\
     staged_settled_epoch_indexes st' = staged_settled_epoch_indexes st /\
     staged_attestation_identities st' = staged_attestation_identities st /\
     staged_attestation_bundles st' = staged_attestation_bundles st).

Lemma special_not_reward t : is_special_node_transaction t = true ->
  _is_reward_attestation_bundle_transaction t = false /\ _is_reward_settle_epoch_transaction t = false.
Proof.
  unfold is_special_node_transaction, _is_reward_attestation_bundle_transaction, _is_reward_settle_epoch_transaction.
  intros K. split; apply not_true_iff_false; intros K'; repeat (apply orb_prop in K as [K|K]);
    pose proof (has_kind_unique _ _ t K K'); discriminate.
Qed.

Lemma stage_rewards context st t (st' : Staged (U:=U) (R:=R)) :
  is_coinbase_transaction t = false -> stage_transaction context st t = Ok st' -> rewards_step t st st'.
Proof.
  intros Hc E. apply stage_transaction_inv in E as (seen & counts & ss & staged & fee & Hcount & _ & Hst & Hv & E).
  apply staged_context_fields in Hst as (_ & _ & _ & _ & _ & Hids & Hset).
  unfold validate_transaction_stateful in Hv. rewrite Hc in Hv. apply rbind_Ok in Hv as ([] & _ & Hv).
  unfold stage_effects in E. destruct (is_special_node_transaction t) eqn:Hs.
  { apply rbind_Ok in E as (x & _ & E). injection E as <-. right; right. by destruct (special_not_reward t Hs). }
  destruct (_is_reward_attestation_bundle_transaction t) eqn:Hb.
  { left. apply rbind_Ok in Hv as ([] & Hv & _). apply bundle_stateful_fresh in Hv as (bundle & Hp & Hf).
    rewrite Hp in E. injection E as <-. exists bundle. rewrite Hids in Hf.
    unfold count_attestations in Hcount. rewrite Hb, Hp in Hcount. simpl in Hcount.
    apply count_attestations_NoDup in Hcount as [Hn _]. done. }
  destruct (_is_reward_settle_epoch_transaction t) eqn:Hse.
  - right; left. apply rbind_Ok in Hv as ([] & Hv & _). apply settle_sound in Hv as (s & Hp & _ & Hfresh & _).
    rewrite Hp in E. injection E as <-. exists s. by rewrite Hset in Hfresh.
  - right; right. apply rbind_Ok in E as (x & _ & E). by injection E as <-.
Qed.

(** What a list of transactions records: each identity and each epoch once, none
    of them recorded before *)
Definition recorded_once (ts : list Transaction) (known : gset identity) (settled : gset Z) : Prop :=
  exists bundles settlements,
    mapM _parse_reward_attestation_bundle (filter (fun t => _is_reward_attestation_bundle_transaction t = true) ts) = Ok bundles /\
    NoDup (concat (bundle_identities <$> bundles)) /\
    (forall i, i ∈ concat (bundle_identities <$> bundles) -> i ∉ known) /\
    mapM _parse_reward_settlement (filter (fun t => _is_reward_settle_epoch_transaction t = true) ts) = Ok settlements /\
    NoDup (settlement_epoch_index <$> settlements) /\
    (forall e, e ∈ settlement_epoch_index <$> settlements -> e ∉ settled).

Lemma settle_not_bundle t : _is_reward_settle_epoch_transaction t = true -> _is_reward_attestation_bundle_transaction t = false.
Proof.
  intros K. apply not_true_iff_false. intros K'. pose proof (has_kind_unique _ _ t K K'). discriminate.
Qed.

Lemma recorded_once_cons t ts (st st' : Staged (U:=U) (R:=R)) :
  rewards_step t st st' -> recorded_once ts (staged_attestation_identities st') (staged_settled_epoch_indexes st') ->
  recorded_once (t :: ts) (staged_attestation_identities st) (staged_settled_epoch_indexes st).
Proof.
  intros Hstep (bundles & ss & Hb & Hnb & Hkb & Hs & Hns & Hks).
  destruct Hstep as [(bundle & Kb & Hp & Hn & Hf & Hi & _ & He)|[(s & Ks & Hp & Hf & He & Hi & _)|(Kb & Ks & He & Hi & _)]].
  - assert (Ks : _is_reward_settle_epoch_transaction t = false).
    { apply not_true_iff_false. intros Ks. by rewrite (settle_not_bundle t Ks) in Kb. }
    exists (bundle :: bundles), ss. rewrite filter_cons_True by done. rewrite (filter_cons_False _ t) by (by rewrite Ks).
    cbn [mapM]. rewrite Hp, Hb, Hs. rewrite Hi in Hkb. rewrite He in Hks. csimpl. split; [done|]. split; [|split; [|done]].
    + apply NoDup_app. split; [done|]. split; [|done]. intros i Hin Hin'. apply Hkb in Hin'. set_solver.
    + intros i [Hin|Hin]%elem_of_app; [by apply Hf|]. apply Hkb in Hin. set_solver.
  - exists bundles, (s :: ss). rewrite (filter_cons_False _ t) by (by rewrite (settle_not_bundle t Ks)). rewrite filter_cons_True by done.
    cbn [mapM]. rewrite Hp, Hb, Hs. rewrite Hi in Hkb. rewrite He in Hks. csimpl. repeat (split; [done|]). split.
    + constructor; [|done]. intros Hin%Hks. set_solver.
    + intros e [->|Hin]%elem_of_cons; [done|]. apply Hks in Hin. set_solver.
  - exists bundles, ss. rewrite !(filter_cons_False _ t) by (by rewrite ?Kb, ?Ks). rewrite Hi in Hkb. by rewrite He in Hks.
Qed.

Lemma staged_recorded_once context ts (st st' : Staged (U:=U) (R:=R)) :
  Forall (fun t => is_coinbase_transaction t = false) ts -> foldM (stage_transaction context) st ts = Ok st' ->
  recorded_once ts (staged_attestation_identities st) (staged_settled_epoch_indexes st).
Proof.
  intros Hts. revert st. induction Hts as [|t ts Hc _ IH]; intros st E; simpl in E.
  - exists [], []. repeat split; try constructor; intros x Hx; by apply not_elem_of_nil in Hx.
  - apply rbind_Ok in E as (st1 & E1 & E). apply stage_rewards in E1; [|done]. eapply recorded_once_cons; [exact E1|]. by apply IH.
Qed.

(** C38: Rewards cannot be replayed: in a validated block no attestation appears
    twice, whether in one bundle or in two, and none was recorded before; and no
    epoch is settled twice or settled again. *)
Theorem rewards_recorded_once (block : Block) context (fees : Z) :
  validate_block block context = Ok fees ->
  recorded_once (tail (transactions block)) (reward_attestation_identities context) (settled_epoch_indexes context).
Proof.
  intros (coinbase & rest & st & Ht & _ & _ & Hr & Hst & _)%validate_block_inv. rewrite Ht. simpl.
  eapply staged_recorded_once in Hst; [exact Hst|]. by apply block_rest_coinbase_free.
Qed.
End block_registry.
