(* ===== verification/ViewEquivalence.v ===== *)
(** * Validation does not depend on the kind of UTXO view

    [apply_block] of the service validates against an overlay over the persisted
    set, chain activation against an in-memory set.  A map of views that commutes
    with lookups and with transactions leaves every verdict of the validation
    rules unchanged, exceptions included. *)

From S2P Require Import Prelude PyOrder PyText Hashes Params Models Serialization Registry Economics Pow Merkle Crypto Addresses Json Settlement Nodes Utxo Validation.

Section homomorphism.
Context `{PyRepr, CryptoBackend} {U1 U2 R : Type} `{UtxoView U1} `{UtxoView U2} `{NodeRegistryView R}.
Variable f : U1 -> U2.
Variable I : U1 -> Prop.
Hypothesis get_commutes : forall v o, I v -> utxo_get (f v) o = utxo_get v o.
Hypothesis apply_commutes : forall v t h c, I v ->
  rbind (utxo_apply_transaction v t h c) (fun v' => Ok (f v')) = utxo_apply_transaction (f v) t h c.
Hypothesis apply_keeps : forall v t h c v', I v -> utxo_apply_transaction v t h c = Ok v' -> I v'.

Definition map_context (c : ValidationContext U1 R) : ValidationContext U2 R :=
  mkContext (context_height c) (median_time_past c) (context_params c) (f (utxo_view c)) (network c) (node_registry_view c)
    (reward_attestation_identities c) (reward_attestation_bundles c) (settled_epoch_indexes c) (epoch_seed_by_index c)
    (expected_previous_block_hash c) (expected_bits c) (enforce_coinbase_maturity c) (reward_fee_registry_count c).

Definition map_staged (st : Staged (U:=U1) (R:=R)) : Staged (U:=U2) (R:=R) :=
  mkStaged (f (staged_view st)) (staged_registry st) (total_fees_chipbits st) (seen_spends st) (seen_attestations st)
    (verifier_window_counts st) (staged_attestation_identities st) (staged_attestation_bundles st)
    (staged_settled_epoch_indexes st) (staged_epoch_settlement st).

Lemma foldM_ext {A S} (g1 g2 : S -> A -> res S) s l :
  (forall s x, g1 s x = g2 s x) -> foldM g1 s l = foldM g2 s l.
Proof. intros Hg. revert s. induction l as [|x l IH]; intros s; simpl; [done|]. rewrite Hg. destruct (g2 s x); simpl; [apply IH|done]. Qed.

Lemma transaction_commutes t c : I (utxo_view c) ->
  validate_transaction_stateful t (map_context c) = validate_transaction_stateful t c.
Proof.
  intros Hi. unfold validate_transaction_stateful.
  change (_validate_transaction_outputs_for_activation t (map_context c)) with (_validate_transaction_outputs_for_activation t c).
  destruct (_validate_transaction_outputs_for_activation t c); [simpl|done].
  destruct (is_coinbase_transaction t); [done|].
  change (_validate_special_node_transaction_stateful t (map_context c)) with (_validate_special_node_transaction_stateful t c).
  change (_validate_reward_attestation_bundle_transaction_with_params t (map_context c)) with
    (_validate_reward_attestation_bundle_transaction_with_params t c).
  change (_validate_reward_settle_epoch_transaction_with_params t (map_context c)) with
    (_validate_reward_settle_epoch_transaction_with_params t c).
  rewrite (foldM_ext (spend_input t (map_context c)) (spend_input t c)); [done|].
  intros total [i tx_input]. unfold spend_input. simpl. by rewrite get_commutes.
Qed.

Lemma stage_effects_commutes h st t : I (staged_view st) ->
  rbind (stage_effects h st t) (fun st' => Ok (map_staged st')) = stage_effects h (map_staged st) t.
Proof.
  intros Hi. unfold stage_effects. destruct (is_special_node_transaction t).
  { simpl. by destruct (apply_special_node_transaction t h (staged_registry st)). }
  destruct (_is_reward_attestation_bundle_transaction t); [by destruct (_parse_reward_attestation_bundle t)|].
  destruct (_is_reward_settle_epoch_transaction t); [by destruct (_parse_reward_settlement t)|].
  simpl. rewrite <- apply_commutes by done. by destruct (utxo_apply_transaction (staged_view st) t h false).
Qed.

Lemma stage_effects_keeps h st t st' : I (staged_view st) -> stage_effects h st t = Ok st' -> I (staged_view st').
Proof.
  intros Hi. unfold stage_effects. intros E.
  destruct (is_special_node_transaction t); [by inv_ok|].
  destruct (_is_reward_attestation_bundle_transaction t); [by inv_ok|].
  destruct (_is_reward_settle_epoch_transaction t); [by inv_ok|].
  apply rbind_Ok in E as (v & Hv & E). injection E as <-. by eapply apply_keeps.
Qed.

Lemma stage_transaction_commutes c st t : I (staged_view st) ->
  rbind (stage_transaction c st t) (fun st' => Ok (map_staged st')) = stage_transaction (map_context c) (map_staged st) t.
Proof.
  intros Hi. unfold stage_transaction.
  change (count_attestations (context_params (map_context c)) (map_staged st) t) with (count_attestations (context_params c) st t).
  destruct (count_attestations (context_params c) st t) as [[seen counts]|]; simpl; [|done].
  change (see_spends (map_staged st) t) with (see_spends st t). destruct (see_spends st t) as [ss|]; simpl; [|done].
  unfold staged_context. change (fee_count (map_context c)) with (fee_count c). destruct (fee_count c) as [n|]; simpl; [|done].
  match goal with |- context [validate_transaction_stateful t ?d] =>
    rewrite <- (transaction_commutes t d) by done; unfold map_context at 1; simpl end.
  match goal with |- context [validate_transaction_stateful t ?d] => destruct (validate_transaction_stateful t d); simpl; [|done] end.
  rewrite stage_effects_commutes by done. done.
Qed.

Lemma stage_transaction_keeps c st t st' : I (staged_view st) -> stage_transaction c st t = Ok st' -> I (staged_view st').
Proof.
  intros Hi. unfold stage_transaction. intros E. apply rbind_Ok in E as ([seen counts] & _ & E). cbv beta iota in E.
  do 3 (apply rbind_Ok in E as (? & _ & E)). by eapply stage_effects_keeps in E.
Qed.

Lemma validate_block_commutes block c : I (utxo_view c) ->
  validate_block block (map_context c) = validate_block block c.
Proof.
  intros Hi. unfold validate_block.
  change (validate_block_stateless block (Some (map_context c))) with (validate_block_stateless block (Some c)).
  destruct (validate_block_stateless block (Some c)); simpl; [|done]. unfold validate_block_stateful. simpl.
  destruct (contextual_if (match expected_previous_block_hash c with _ => _ end) _); simpl; [|done].
  destruct (contextual_if (match expected_bits c with _ => _ end) _); simpl; [|done].
  change (initial_staged (map_context c)) with (map_staged (initial_staged c)).
  rewrite <- (foldM_simulation (stage_transaction c) _ map_staged (fun st => I (staged_view st))).
  - by destruct (foldM (stage_transaction c) (initial_staged c) (tail (transactions block))).
  - intros s x Hs. by apply stage_transaction_commutes.
  - intros s x s' Hs. by apply stage_transaction_keeps.
  - done.
Qed.
End homomorphism.

Section overlay.
Context `{PyRepr, CryptoBackend} {B R : Type} `{UtxoViewLaws B} `{NodeRegistryView R}.

(** The overlay as the set it stands for *)
Definition as_memory (v : OverlayUtxoView B) : InMemoryUtxoView := mkUtxos (utxo_map v).

(** C11: One verdict: validating a block against an overlay over a base that
    answers every lookup gives the same total of fees, or the same exception, as
    validating it against the in-memory set the overlay stands for. *)
Theorem overlay_validation_equivalent (block : Block) (c : ValidationContext (OverlayUtxoView B) R) :
  (forall o, utxo_get (base (utxo_view c)) o = Ok (utxo_map (base (utxo_view c)) !! o)) ->
  validate_block block (map_context as_memory c) = validate_block block c.
Proof.
  intros Hb. apply (validate_block_commutes as_memory (fun v => base v = base (utxo_view c))); [| | |done].
  - intros v o Hv. symmetry. apply overlay_get_total. by rewrite Hv.
  - intros v t h cb _. apply overlay_step_simulation.
  - intros v t h cb v' Hv E. simpl in E. unfold overlay_apply_transaction in E. inv_ok. by rewrite stage_base.
Qed.
End overlay.
