(* ===== verification/Mempool.v ===== *)
(** * The mempool ([node/mempool.py], [storage/mempool.py])

    The table of pending transactions and the manager that admits, replaces,
    expires, evicts and reconciles them.  The context factory, the chain state and
    the lookup of confirmed transactions belong to the node service and are
    parameters of the section, as they are arguments of the source's constructor;
    the clock may answer differently at every call. *)

From S2P Require Import Prelude PyState PyOrder PyText Hashes Params Models Serialization Registry Economics Crypto Addresses Json Settlement Nodes Utxo UtxoStore RewardStore Validation PqPolicy.

(** ** [SQLiteMempoolRepository] *)

Record MempoolEntry : Type := mkPool { pool_transaction : Transaction; pool_fee : Z; pool_added_at : Z }.

Record MempoolRow : Type := mkPoolRow { raw_transaction : bytes; row_fee : Z; row_added_at : Z }.

Record MempoolDb : Type := mkMempoolDb { mempool_rows : gmap str MempoolRow }.

Definition mempool_add (db : MempoolDb) (t : Transaction) (fee added_at : Z) : res MempoolDb :=
  let* id := txid t in
  let* raw := serialize_transaction t in
  let* fee' := sqlite_int fee in
  let* added' := sqlite_int added_at in
  Ok (mkMempoolDb (<[id := mkPoolRow raw fee' added']> (mempool_rows db))).

Definition decode_pool_row (row : MempoolRow) : res MempoolEntry :=
  let* '(t, offset) := deserialize_transaction (raw_transaction row) 0 in
  if negb (offset =? len (raw_transaction row)) then raise ValueError "Stored mempool transaction contains trailing bytes."
  else Ok (mkPool t (row_fee row) (row_added_at row)).

Definition mempool_get (db : MempoolDb) (id : str) : res (option MempoolEntry) :=
  match mempool_rows db !! id with
  | None => Ok None
  | Some row => let* entry := decode_pool_row row in Ok (Some entry)
  end.

(** [ORDER BY added_at, txid] *)
Definition pool_order (item : str * MempoolRow) : Z * str := (row_added_at item.2, item.1).

Definition mempool_list_all (db : MempoolDb) : res (list MempoolEntry) :=
  mapM (fun item => decode_pool_row item.2) (sorted_by pool_order (map_to_list (mempool_rows db))).

Definition mempool_remove (db : MempoolDb) (id : str) : MempoolDb := mkMempoolDb (delete id (mempool_rows db)).
Definition mempool_clear (db : MempoolDb) : MempoolDb := mkMempoolDb ∅.

(** ** The manager *)

Record MempoolPolicy : Type := mkPolicy {
  min_fee_chipbits_normal_tx : Z;
  max_transaction_size_bytes : Z;
  max_transaction_inputs : Z;
  max_transaction_outputs : Z;
  max_mempool_transactions : Z;
  max_special_node_transactions : Z;
  max_register_reward_node_transactions : Z;
  max_renew_reward_node_transactions : Z;
  max_reward_attestation_bundle_transactions : Z;
  transaction_ttl_seconds : Z;
  pq_limits : PQPolicyLimits;
}.

Definition default_policy : MempoolPolicy := mkPolicy 1 100000 128 128 1000 32 8 16 128 (72 * 60 * 60) DEFAULT_PQ_POLICY_LIMITS.

(** The counters that do not time verifications *)
Record PQMempoolMetrics : Type := mkMetrics {
  pq_tx_accepted : Z;
  pq_tx_rejected : Z;
  pq_malformed : Z;
  pq_relay : Z;
  pq_mined : Z;
  pq_orphan : Z;
}.

Record MempoolManager : Type := mkMempool { repository : MempoolDb; pq_metrics : PQMempoolMetrics; clock_reads : nat }.

Definition new_mempool : MempoolManager := mkMempool (mkMempoolDb ∅) (mkMetrics 0 0 0 0 0 0) 0.

Abbreviation pool := (stm MempoolManager).

Definition of_pool {A} (f : MempoolDb -> res A) : pool A := asks (fun m => f (repository m)).
Definition set_repository (db : MempoolDb) (m : MempoolManager) : MempoolManager := mkMempool db (pq_metrics m) (clock_reads m).
Definition write_pool (f : MempoolDb -> res MempoolDb) : pool unit :=
  update (fun m => let* db := f (repository m) in Ok (tt, set_repository db m)).
Definition count_pq (f : PQMempoolMetrics -> PQMempoolMetrics) : pool unit :=
  modify (fun m => mkMempool (repository m) (f (pq_metrics m)) (clock_reads m)).

Definition one_accepted (c : PQMempoolMetrics) : PQMempoolMetrics :=
  mkMetrics (pq_tx_accepted c + 1) (pq_tx_rejected c) (pq_malformed c) (pq_relay c) (pq_mined c) (pq_orphan c).
Definition one_rejected (c : PQMempoolMetrics) : PQMempoolMetrics :=
  mkMetrics (pq_tx_accepted c) (pq_tx_rejected c + 1) (pq_malformed c) (pq_relay c) (pq_mined c) (pq_orphan c).
Definition one_malformed (c : PQMempoolMetrics) : PQMempoolMetrics :=
  mkMetrics (pq_tx_accepted c) (pq_tx_rejected c) (pq_malformed c + 1) (pq_relay c) (pq_mined c) (pq_orphan c).

Definition invalid {A} (msg : string) : res A := raise ValidationError msg.
Definition invalid_if (b : bool) (msg : string) : res unit := raise_if b ValidationError msg.

Definition _is_zero_fee_native_reward_transaction (t : Transaction) : bool :=
  has_kind REWARD_ATTESTATION_BUNDLE_KIND t || has_kind REWARD_SETTLE_EPOCH_KIND t.

Definition is_bundle_entry (entry : MempoolEntry) : bool := has_kind REWARD_ATTESTATION_BUNDLE_KIND (pool_transaction entry).

(** [except (KeyError, TypeError, ValueError)] *)
Definition parse_errors (e : exn) : bool := existsb (isinstance (exn_cls e)) [KeyError; TypeError; ValueError].

Definition txids_of (entries : list MempoolEntry) : res (list str) := mapM (fun entry => txid (pool_transaction entry)) entries.

Section mempool.
Context `{PyRepr, CryptoBackend} {B R : Type} `{UtxoView B} `{NodeRegistryView R}.
Variable chainstate : B.
Variable factory : OverlayUtxoView B -> res (ValidationContext (OverlayUtxoView B) R).
Variable known_chain_transaction_lookup : str -> res (option Transaction).
Variable policy : MempoolPolicy.
Variable clock : nat -> Z.

Definition time_provider : pool Z :=
  let! n := gets clock_reads in
  do! modify (fun m => mkMempool (repository m) (pq_metrics m) (S n)) in
  ret (clock n).

Definition _is_expired (added_at now : Z) : bool := transaction_ttl_seconds policy <=? now - added_at.

Definition _is_known_on_chain (id : str) : res bool :=
  let* found := known_chain_transaction_lookup id in Ok (match found with Some _ => true | None => false end).

(** *** Policy *)

Definition standard_output (o : TxOutput) : res unit :=
  invalid_if (value o <=? 0) "Transaction outputs must be positive for mempool policy." ;;
  let* valid := is_valid_address (recipient o) in
  invalid_if (negb valid) "Transaction output recipient is not a valid CHC address.".

Definition _enforce_pre_validation_policy (t : Transaction) : pool unit :=
  do! lift (let* raw := serialize_transaction t in
            invalid_if (max_transaction_size_bytes policy <? len raw) "Transaction exceeds mempool size policy." ;;
            invalid_if (max_transaction_inputs policy <? len (inputs t)) "Transaction exceeds mempool input-count policy." ;;
            invalid_if (max_transaction_outputs policy <? len (outputs t)) "Transaction exceeds mempool output-count policy.") in
  do! attempt (lift (enforce_pq_mempool_precheck t (pq_limits policy))) [PQPolicyError]
        (fun e => do! count_pq one_malformed in throw ValidationError (exn_msg e)) in
  lift (for_each standard_output (outputs t)).

Definition preflight (t : Transaction) : pool unit := _enforce_pre_validation_policy t.

Definition _enforce_policy (t : Transaction) (fee : Z) : pool unit :=
  do! _enforce_pre_validation_policy t in
  lift (invalid_if (fee <? 0) "Transaction fee cannot be negative." ;;
        invalid_if (negb (_is_zero_fee_native_reward_transaction t) && negb (is_special_node_transaction t)
            && (fee <? min_fee_chipbits_normal_tx policy)) "Transaction fee is below the configured mempool minimum.").

(** *** Registry transactions *)

Definition same_field (t : Transaction) (entry : MempoolEntry) (key : string) : bool :=
  bool_decide (md_get (metadata (pool_transaction entry)) key = md_get (metadata t) key).

Definition _ensure_no_duplicate_register_reward_node_action (t : Transaction) (entries : list MempoolEntry) : res unit :=
  for_each (fun entry =>
    invalid_if (same_field t entry "node_id") "Mempool already contains a register_reward_node transaction for this node_id." ;;
    invalid_if (same_field t entry "owner_pubkey_hex") "Mempool already contains a register_reward_node transaction for this owner_pubkey." ;;
    invalid_if (same_field t entry "node_pubkey_hex") "Mempool already contains a register_reward_node transaction for this node_pubkey.") entries.

Definition _ensure_no_duplicate_renew_reward_node_action (t : Transaction) (entries : list MempoolEntry) : res unit :=
  for_each (fun entry =>
    invalid_if (same_field t entry "node_id" && same_field t entry "renewal_epoch")
      "Mempool already contains a renew_reward_node transaction for this node_id and epoch.") entries.

Definition special_entries (entries : list MempoolEntry) : list MempoolEntry :=
  filter (fun e => is_special_node_transaction (pool_transaction e) = true) entries.
Definition register_entries (entries : list MempoolEntry) : list MempoolEntry :=
  filter (fun e => is_register_reward_node_transaction (pool_transaction e) = true) (special_entries entries).
Definition renew_entries (entries : list MempoolEntry) : list MempoolEntry :=
  filter (fun e => is_renew_reward_node_transaction (pool_transaction e) = true) (special_entries entries).

Definition _enforce_special_node_mempool_policy (t : Transaction) (entries : list MempoolEntry) : res unit :=
  if negb (is_special_node_transaction t) then Ok tt
  else
    invalid_if (max_special_node_transactions policy <=? len (special_entries entries)) "Mempool special-node transaction limit exceeded." ;;
    if is_register_reward_node_transaction t then
      invalid_if (max_register_reward_node_transactions policy <=? len (register_entries entries))
        "Mempool register_reward_node transaction limit exceeded." ;;
      _ensure_no_duplicate_register_reward_node_action t (register_entries entries)
    else if is_renew_reward_node_transaction t then
      invalid_if (max_renew_reward_node_transactions policy <=? len (renew_entries entries))
        "Mempool renew_reward_node transaction limit exceeded." ;;
      _ensure_no_duplicate_renew_reward_node_action t (renew_entries entries)
    else Ok tt.

(** *** Attestation bundles *)

Definition bundle_key (bundle : RewardAttestationBundle) : Z * Z * str :=
  (bundle_epoch_index bundle, bundle_window_index bundle, bundle_submitter_node_id bundle).
Definition bundle_identity_set (bundle : RewardAttestationBundle) : gset identity :=
  list_to_set (attestation_identity <$> attestations bundle).

(** The bundle of an entry, or nothing when its metadata cannot be parsed *)
Definition parsed_bundle (entry : MempoolEntry) : res (option RewardAttestationBundle) :=
  match parse_reward_attestation_bundle_metadata (metadata (pool_transaction entry)) with
  | Ok bundle => Ok (Some bundle)
  | Raise e => if parse_errors e then Ok None else Raise e
  end.

Definition collect_identities (key : Z * Z * str) (seen : gset identity) (entry : MempoolEntry) : res (gset identity) :=
  let* found := parsed_bundle entry in
  match found with
  | None => Ok seen
  | Some existing =>
      invalid_if (bool_decide (bundle_key existing = key))
        "Mempool already contains a reward_attestation_bundle transaction for this epoch, window, and submitter." ;;
      Ok (bundle_identity_set existing ∪ seen)
  end.

Definition _enforce_reward_attestation_bundle_mempool_policy (t : Transaction) (entries : list MempoolEntry) : res unit :=
  if negb (has_kind REWARD_ATTESTATION_BUNDLE_KIND t) then Ok tt
  else
    let* bundle := match parse_reward_attestation_bundle_metadata (metadata t) with
      | Ok bundle => Ok bundle
      | Raise e => if parse_errors e then invalid (exn_msg e) else Raise e
      end in
    let bundle_entries := filter (fun e => is_bundle_entry e = true) entries in
    invalid_if (max_reward_attestation_bundle_transactions policy <=? len bundle_entries)
      "Mempool reward_attestation_bundle transaction limit exceeded." ;;
    let* existing := foldM (collect_identities (bundle_key bundle)) ∅ bundle_entries in
    invalid_if (existsb (fun a => bool_decide (attestation_identity a ∈ existing)) (attestations bundle))
      "Mempool already contains this reward attestation.".

(** The bundles a better aggregate replaces: [None] when one overlaps it without
    being contained in it *)
Definition replacement_step (incoming : RewardAttestationBundle) (acc : option (list str * gset identity)) (entry : MempoolEntry) :
    res (option (list str * gset identity)) :=
  match acc with
  | None => Ok None
  | Some (replaced, identities) =>
      if negb (is_bundle_entry entry) then Ok acc
      else
        let* found := parsed_bundle entry in
        match found with
        | None => Ok acc
        | Some existing =>
            if negb (bundle_epoch_index existing =? bundle_epoch_index incoming)
               || negb (bundle_window_index existing =? bundle_window_index incoming) then Ok acc
            else if bool_decide (bundle_identity_set existing = ∅) then Ok acc
            else if bool_decide (bundle_identity_set existing ⊆ bundle_identity_set incoming) then
              let* id := txid (pool_transaction entry) in
              Ok (Some (replaced ++ [id], bundle_identity_set existing ∪ identities))
            else if bool_decide (bundle_identity_set existing ∩ bundle_identity_set incoming = ∅) then Ok acc else Ok None
        end
  end.

Definition _reward_attestation_bundle_replacement_txids (t : Transaction) (entries : list MempoolEntry) : res (list str) :=
  if negb (has_kind REWARD_ATTESTATION_BUNDLE_KIND t) then Ok []
  else
    match parse_reward_attestation_bundle_metadata (metadata t) with
    | Raise e => if parse_errors e then Ok [] else Raise e
    | Ok incoming =>
        let size_in := Z.of_nat (size (bundle_identity_set incoming)) in
        if negb (size_in =? len (attestations incoming)) || (size_in <=? 1) then Ok []
        else
          let* acc := foldM (replacement_step incoming) (Some ([], ∅)) entries in
          match acc with
          | None => Ok []
          | Some (replaced, identities) =>
              if (1 <? len replaced) || (Z.of_nat (size identities) <? size_in) then Ok replaced else Ok []
          end
    end.

(** *** Conflicts and the view of pending transactions *)

Definition reserved_outpoints (entries : list MempoolEntry) : list OutPoint := concat ((fun e => spends (pool_transaction e)) <$> entries).

Definition _ensure_no_mempool_double_spend (t : Transaction) (entries : list MempoolEntry) : res unit :=
  invalid_if (existsb (fun o => bool_decide (o ∈ reserved_outpoints entries)) (spends t))
    "Transaction conflicts with an existing mempool spend.".

Definition _snapshot_with_mempool_applied (entries : list MempoolEntry) : res (OverlayUtxoView B) :=
  let view := overlay_over chainstate in
  let* context := factory view in
  foldM (fun v e => overlay_apply_transaction v (pool_transaction e) (context_height context) false) view entries.

(** *** Removal *)

Definition _prune_expired (now : Z) : pool unit :=
  let! entries := of_pool mempool_list_all in
  sfold (fun _ e => if _is_expired (pool_added_at e) now then write_pool (fun db => let* id := txid (pool_transaction e) in Ok (mempool_remove db id))
                    else ret tt) tt entries.

(** [(entry.fee, entry.added_at, entry.transaction.txid())] *)
Definition eviction_key (item : MempoolEntry * str) : (Z * Z) * str := ((pool_fee item.1, pool_added_at item.1), item.2).

Definition evicted (entries : list MempoolEntry) (ids : list str) : list str :=
  (take (length entries - Z.to_nat (max_mempool_transactions policy)) (sorted_by eviction_key (zip entries ids))).*2.

Definition _evict_if_needed : pool unit :=
  let! entries := of_pool mempool_list_all in
  if len entries <=? max_mempool_transactions policy then ret tt
  else
    let! ids := lift (txids_of entries) in
    sfold (fun _ id => write_pool (fun db => Ok (mempool_remove db id))) tt (evicted entries ids).

Definition remove_many (ids : list str) : pool unit := sfold (fun _ id => write_pool (fun db => Ok (mempool_remove db id))) tt ids.
Definition clear : pool unit := write_pool (fun db => Ok (mempool_clear db)).
Definition list_transactions : pool (list MempoolEntry) := of_pool mempool_list_all.

(** *** Admission *)

(** What admission checks before it writes: the transactions to replace and the fee *)
Definition admission (t : Transaction) : pool (list str * Z) :=
  do! preflight t in
  let! id := lift (txid t) in
  let! present := of_pool (fun db => mempool_get db id) in
  do! lift (invalid_if (bool_decide (is_Some present)) "Transaction is already present in the mempool.") in
  let! confirmed := lift (_is_known_on_chain id) in
  do! lift (invalid_if confirmed "Transaction is already confirmed in the active chain.") in
  let! entries := of_pool mempool_list_all in
  let! replaced := lift (_reward_attestation_bundle_replacement_txids t entries) in
  let! effective := lift (filterM (fun e => let* i := txid (pool_transaction e) in Ok (negb (bool_decide (i ∈ replaced)))) entries) in
  do! lift (_enforce_special_node_mempool_policy t effective) in
  do! lift (_enforce_reward_attestation_bundle_mempool_policy t effective) in
  do! lift (_ensure_no_mempool_double_spend t effective) in
  let! fee := lift (let* snapshot := _snapshot_with_mempool_applied entries in
                    let* context := factory snapshot in
                    validate_transaction t context) in
  do! _enforce_policy t fee in
  ret (replaced, fee).

Definition accept (t : Transaction) (added_at : option Z) : pool (Transaction * Z) :=
  let! pq_candidate := lift (is_pq_transaction t) in
  do! lift (invalid_if (is_coinbase_transaction t) "Coinbase transactions are not valid mempool entries.") in
  attempt
    (let! admitted := admission t in
     let! accepted_at := (match added_at with None => time_provider | Some at_ => ret at_ end) in
     do! remove_many admitted.1 in
     do! write_pool (fun db => mempool_add db t admitted.2 accepted_at) in
     let! now := time_provider in
     do! _prune_expired now in
     do! _evict_if_needed in
     do! (if pq_candidate then count_pq one_accepted else ret tt) in
     ret (t, admitted.2))
    [ValidationError]
    (fun e => do! (if pq_candidate then count_pq one_rejected else ret tt) in lift (Raise e)).

(** *** Reconciliation after a change of the chain *)

(** The pending view and entries, as [readmit_fast] updates them *)
Record Pending : Type := mkPending { pending_view : OverlayUtxoView B; pending_entries : list MempoolEntry }.

Definition readmit_checked (h : Z) (p : Pending) (t : Transaction) (added_at : Z) : pool Pending :=
  do! lift (_enforce_special_node_mempool_policy t (pending_entries p)) in
  do! lift (_enforce_reward_attestation_bundle_mempool_policy t (pending_entries p)) in
  do! lift (_ensure_no_mempool_double_spend t (pending_entries p)) in
  let! fee := lift (let* context := factory (pending_view p) in validate_transaction t context) in
  do! _enforce_policy t fee in
  let! view := lift (overlay_apply_transaction (pending_view p) t h false) in
  do! write_pool (fun db => mempool_add db t fee added_at) in
  ret (mkPending view (pending_entries p ++ [mkPool t fee added_at])).

Definition readmit_fast (h : Z) (p : Pending) (t : Transaction) (added_at : Z) : pool Pending :=
  let! now := time_provider in
  if _is_expired added_at now then ret p
  else
    let! passed := attempt (do! _enforce_pre_validation_policy t in ret true) [ValidationError] (fun _ => ret false) in
    if negb passed then ret p
    else
      let! id := lift (txid t) in
      let! confirmed := lift (_is_known_on_chain id) in
      if confirmed then ret p
      else attempt (readmit_checked h p t added_at) [ValidationError] (fun _ => ret p).

(** [(entry.added_at, entry.transaction.txid())] *)
Definition reconcile_key (item : MempoolEntry * str) : Z * str := (pool_added_at item.1, item.2).

Definition reconcile (extra_transactions : option (list Transaction)) : pool unit :=
  let! entries := of_pool mempool_list_all in
  let! ids := lift (txids_of entries) in
  let preserved := (sorted_by reconcile_key (zip entries ids)).*1 in
  do! clear in
  let! context := lift (factory (overlay_over chainstate)) in
  let h := context_height context in
  let! p := sfold (fun p e => readmit_fast h p (pool_transaction e) (pool_added_at e)) (mkPending (overlay_over chainstate) []) preserved in
  let! _p := (match extra_transactions with
              | None => ret p
              | Some extra => let! now := time_provider in sfold (fun p t => readmit_fast h p t now) p extra
              end) in
  _evict_if_needed.

Definition _readmit (t : Transaction) (added_at : Z) : pool unit :=
  let! now := time_provider in
  if _is_expired added_at now then ret tt
  else attempt (let! _r := accept t (Some added_at) in ret tt) [ValidationError] (fun _ => ret tt).

(** *** Counters *)

Definition record_pq_relay (t : Transaction) : pool unit :=
  let! concerned := lift (is_pq_transaction t) in
  if concerned then count_pq (fun c => mkMetrics (pq_tx_accepted c) (pq_tx_rejected c) (pq_malformed c) (pq_relay c + 1) (pq_mined c) (pq_orphan c))
  else ret tt.

Definition pq_number (ts : list Transaction) : res Z := let* concerned := filterM is_pq_transaction ts in Ok (len concerned).

Definition record_pq_mined (ts : list Transaction) : pool unit :=
  let! n := lift (pq_number ts) in
  count_pq (fun c => mkMetrics (pq_tx_accepted c) (pq_tx_rejected c) (pq_malformed c) (pq_relay c) (pq_mined c + n) (pq_orphan c)).

Definition record_pq_orphan (ts : list Transaction) : pool unit :=
  let! n := lift (pq_number ts) in
  count_pq (fun c => mkMetrics (pq_tx_accepted c) (pq_tx_rejected c) (pq_malformed c) (pq_relay c) (pq_mined c) (pq_orphan c + n)).
End mempool.
