(* ===== verification/MempoolFacts.v ===== *)
(** * What the mempool keeps

    The transactions offered are spelled as a decoder spells them, which is how
    they arrive.  Every operation of the manager, whether it returns or raises,
    keeps the table well formed and free of conflicting spends, whatever the chain
    state, the clock and the lookups answer. *)

From S2P Require Import Prelude PyState PyOrder PyText Hashes Params Models Serialization Registry Economics Crypto Addresses Json Settlement Nodes Utxo UtxoStore RewardStore Validation PqPolicy Mempool.

(** ** The table *)

(** A row holds a transaction under its own identifier. *)
Definition row_holds (id : str) (row : MempoolRow) (t : Transaction) : Prop :=
  canonical_tx t = t /\ serialize_transaction t = Ok (raw_transaction row) /\ txid t = Ok id.

Definition holds (db : MempoolDb) (id : str) (t : Transaction) : Prop := exists row, mempool_rows db !! id = Some row /\ row_holds id row t.

Definition table_ok (db : MempoolDb) : Prop := map_Forall (fun id row => exists t, row_holds id row t) (mempool_rows db).

(** No two pending transactions spend one output. *)
Definition no_conflicts (db : MempoolDb) : Prop :=
  forall id1 id2 t1 t2 o, holds db id1 t1 -> holds db id2 t2 -> o ∈ spends t1 -> o ∈ spends t2 -> id1 = id2.

Record pool_ok (db : MempoolDb) : Prop := { pool_table : table_ok db; pool_conflicts : no_conflicts db }.

Lemma row_decodes id row t : row_holds id row t -> decode_pool_row row = Ok (mkPool t (row_fee row) (row_added_at row)).
Proof.
  intros (Hc & Hs & _). unfold decode_pool_row. pose proof (decodes_transaction t _ Hs [] []) as D. simpl in D.
  rewrite app_nil_r in D. change (len (@nil byte)) with 0 in D. rewrite D. cbn [rbind]. rewrite Hc, Z.add_0_l, Z.eqb_refl. done.
Qed.

Lemma holds_unique db id t1 t2 : holds db id t1 -> holds db id t2 -> t1 = t2.
Proof.
  intros (r1 & E1 & H1) (r2 & E2 & H2). rewrite E1 in E2. injection E2 as <-. apply row_decodes in H1, H2. congruence.
Qed.

(** The listing is the table in the order of arrival. *)
Lemma list_all_ok db :
  table_ok db -> exists entries, mempool_list_all db = Ok entries /\
    Forall2 (fun item e => decode_pool_row item.2 = Ok e) (sorted_by pool_order (map_to_list (mempool_rows db))) entries /\
    (forall e, e ∈ entries <-> exists id row, mempool_rows db !! id = Some row /\ decode_pool_row row = Ok e) /\
    length entries = size (mempool_rows db).
Proof.
  intros Hok. set (items := sorted_by pool_order (map_to_list (mempool_rows db))).
  assert (Hitems : forall item, item ∈ items <-> mempool_rows db !! item.1 = Some item.2).
  { intros [id row]. unfold items. by rewrite elem_of_sorted_by, elem_of_map_to_list. }
  assert (He : exists entries, mapM (fun item => decode_pool_row item.2) items = Ok entries).
  { clear -Hok Hitems. assert (Hf : Forall (fun item => is_ok (decode_pool_row item.2) = true) items).
    { apply Forall_forall. intros [id row] Hin%Hitems. destruct (Hok id row Hin) as [t Ht]. simpl. by rewrite (row_decodes id row t Ht). }
    clear Hitems. induction Hf as [|item l Hi _ [es IH]]; simpl; [by eexists|]. destruct (decode_pool_row item.2); [|done]. simpl.
    rewrite IH. by eexists. }
  destruct He as [entries He]. exists entries. pose proof (mapM_length _ _ _ He) as Hl. split; [exact He|]. apply mapM_Forall2 in He.
  split; [done|]. split.
  - intros e. split.
    + intros Hin. apply list_elem_of_lookup in Hin as [i Hi]. destruct (Forall2_lookup_r _ _ _ _ _ He Hi) as ([id row] & Hx & Hd).
      exists id, row. split; [|done]. apply (Hitems (id, row)). apply list_elem_of_lookup. eauto.
    + intros (id & row & Hr & Hd). assert (Hin : (id, row) ∈ items) by by apply Hitems. apply list_elem_of_lookup in Hin as [i Hi].
      destruct (Forall2_lookup_l _ _ _ _ _ He Hi) as (e' & Hx & Hd'). simpl in Hd'. rewrite Hd in Hd'. injection Hd' as ->.
      apply list_elem_of_lookup. eauto.
  - rewrite Hl. unfold items. rewrite sorted_by_length. by rewrite length_map_to_list.
Qed.

(** What is listed is held. *)
Lemma listed_holds db e entries :
  table_ok db -> mempool_list_all db = Ok entries -> e ∈ entries -> exists id, holds db id (pool_transaction e) /\ txid (pool_transaction e) = Ok id.
Proof.
  intros Hok He Hin. destruct (list_all_ok db Hok) as (entries' & He' & _ & Hm & _). rewrite He in He'. injection He' as <-.
  apply Hm in Hin as (id & row & Hr & Hd). destruct (Hok id row Hr) as [t Ht]. rewrite (row_decodes id row t Ht) in Hd. injection Hd as <-.
  exists id. split; [by exists row|]. by destruct Ht as (_ & _ & ?).
Qed.

Lemma held_listed db id t entries :
  table_ok db -> mempool_list_all db = Ok entries -> holds db id t -> exists e, e ∈ entries /\ pool_transaction e = t.
Proof.
  intros Hok He (row & Hr & Ht). destruct (list_all_ok db Hok) as (entries' & He' & _ & Hm & _). rewrite He in He'. injection He' as <-.
  eexists. split; [apply Hm; exists id, row; split; [done|exact (row_decodes id row t Ht)]|done].
Qed.

(** ** Writes *)

Lemma holds_remove db id0 id t : holds (mempool_remove db id0) id t <-> holds db id t /\ id ≠ id0.
Proof.
  unfold holds, mempool_remove. simpl. split.
  - intros (row & [Hne Hr]%lookup_delete_Some & Ht). split; [by exists row|done].
  - intros ((row & Hr & Ht) & Hne). exists row. by rewrite lookup_delete_ne.
Qed.

Lemma pool_ok_remove db id : pool_ok db -> pool_ok (mempool_remove db id).
Proof.
  intros [Ht Hc]. split.
  - intros i row Hr. simpl in Hr. apply lookup_delete_Some in Hr as [_ Hr]. by apply Ht.
  - intros id1 id2 t1 t2 o [H1 _]%holds_remove [H2 _]%holds_remove. by eapply Hc.
Qed.

Lemma pool_ok_clear db : pool_ok (mempool_clear db).
Proof. split; [by intros i row|]. by intros id1 id2 t1 t2 o (row & Hr & _). Qed.

Lemma pool_ok_add db t fee added_at db' :
  pool_ok db -> canonical_tx t = t ->
  (forall id' t', holds db id' t' -> txid t ≠ Ok id' -> forall o, o ∈ spends t -> o ∉ spends t') ->
  mempool_add db t fee added_at = Ok db' -> pool_ok db'.
Proof.
  intros [Ht Hc] Hcan Hdis E. unfold mempool_add in E. apply rbind_Ok in E as (id & Hid & E). apply rbind_Ok in E as (raw & Hraw & E).
  apply rbind_Ok in E as (fee' & _ & E). apply rbind_Ok in E as (added' & _ & E). injection E as <-.
  assert (Hnew : row_holds id (mkPoolRow raw fee' added') t) by done.
  assert (Hold : forall i t', holds (mkMempoolDb (<[id := mkPoolRow raw fee' added']> (mempool_rows db))) i t' ->
    (i = id /\ t' = t) \/ (i ≠ id /\ holds db i t')).
  { intros i t' (row & Hr & Hrow). simpl in Hr. destruct (decide (i = id)) as [->|Hne].
    - rewrite lookup_insert_eq in Hr. injection Hr as <-. left. split; [done|]. apply row_decodes in Hrow, Hnew. congruence.
    - rewrite lookup_insert_ne in Hr by done. right. split; [done|]. by exists row. }
  split.
  - apply map_Forall_insert_2; [by exists t|done].
  - intros id1 id2 t1 t2 o [[-> ->]|[N1 H1]]%Hold [[-> ->]|[N2 H2]]%Hold Ho1 Ho2; [done|..|by eapply Hc].
    + by destruct (Hdis id2 t2 H2 ltac:(congruence) o Ho1).
    + by destruct (Hdis id1 t1 H1 ltac:(congruence) o Ho2).
Qed.

Definition removed (db : MempoolDb) (ids : list str) : MempoolDb := foldl mempool_remove db ids.

Lemma removed_ok db ids : pool_ok db -> pool_ok (removed db ids).
Proof. revert db. induction ids as [|id ids IH]; intros db Hp; simpl; [done|]. by apply IH, pool_ok_remove. Qed.

Lemma holds_removed db ids id t : holds (removed db ids) id t <-> holds db id t /\ id ∉ ids.
Proof.
  revert db. induction ids as [|i ids IH]; intros db; simpl; [set_solver|]. rewrite IH, holds_remove. set_solver.
Qed.

Section facts.
Context `{PyRepr, CryptoBackend} {B R : Type} `{UtxoView B} `{NodeRegistryView R}.
Variable chainstate : B.
Variable factory : OverlayUtxoView B -> res (ValidationContext (OverlayUtxoView B) R).
Variable lookup : str -> res (option Transaction).
Variable policy : MempoolPolicy.
Variable clock : nat -> Z.

Definition manager_ok (m : MempoolManager) : Prop := pool_ok (repository m).
Abbreviation safe m := (keeps manager_ok (fun _ => True) m).

Lemma safe_write f : (forall db db', pool_ok db -> f db = Ok db' -> pool_ok db') -> safe (write_pool f).
Proof.
  intros Hf. apply keeps_update; [|done]. intros m [] m' Hm E. apply rbind_Ok in E as (db & E & E'). injection E' as <-. by eapply Hf.
Qed.

Lemma safe_of_pool {A} (f : MempoolDb -> res A) : safe (of_pool f).
Proof. by apply keeps_asks. Qed.
Lemma safe_count f : safe (count_pq f).
Proof. by apply keeps_modify. Qed.
Lemma safe_time : safe (time_provider clock).
Proof. unfold time_provider. keeps. by apply keeps_modify. Qed.
#[local] Hint Resolve safe_of_pool safe_count safe_time : keeps.

Lemma safe_prevalidation t : safe (_enforce_pre_validation_policy policy t).
Proof. unfold _enforce_pre_validation_policy. keeps. Qed.
#[local] Hint Resolve safe_prevalidation : keeps.

Lemma safe_policy t fee : safe (_enforce_policy policy t fee).
Proof. unfold _enforce_policy. keeps. Qed.

Lemma safe_remove id : safe (write_pool (fun db => Ok (mempool_remove db id))).
Proof. apply safe_write. intros db db' Hp [= <-]. by apply pool_ok_remove. Qed.

Lemma safe_remove_many ids : safe (remove_many ids).
Proof. apply keeps_fold. intros [] id _. apply safe_remove. Qed.

Lemma safe_prune now : safe (_prune_expired policy now).
Proof.
  unfold _prune_expired. keeps. apply keeps_fold. intros [] e _. destruct (_is_expired _ _ _); [|apply keeps_ret].
  apply safe_write. intros db db' Hp E. apply rbind_Ok in E as (id & _ & E). injection E as <-. by apply pool_ok_remove.
Qed.

Lemma safe_evict : safe (_evict_if_needed policy).
Proof. unfold _evict_if_needed. keeps. apply safe_remove_many. Qed.

Lemma safe_clear : safe clear.
Proof. apply safe_write. intros db db' _ [= <-]. apply pool_ok_clear. Qed.
#[local] Hint Resolve safe_policy safe_remove_many safe_prune safe_evict safe_clear : keeps.

(** ** Admission *)

(** What the policy asks of a transaction before validation, and of its fee *)
Record standard_shape (t : Transaction) : Prop := {
  shape_size : exists raw, serialize_transaction t = Ok raw /\ len raw <= max_transaction_size_bytes policy;
  shape_inputs : len (inputs t) <= max_transaction_inputs policy;
  shape_outputs : len (outputs t) <= max_transaction_outputs policy;
  shape_pq : enforce_pq_mempool_precheck t (pq_limits policy) = Ok tt;
  shape_recipients : Forall (fun o => 0 < value o /\ is_valid_address (recipient o) = Ok true) (outputs t);
}.

Definition fee_enough (t : Transaction) (fee : Z) : Prop :=
  0 <= fee /\ (_is_zero_fee_native_reward_transaction t = false -> is_special_node_transaction t = false ->
    min_fee_chipbits_normal_tx policy <= fee).

Abbreviation stays db := (fun m => repository m = db).
Abbreviation stays_exn db := (fun (_ : exn) m => repository m = db).

Lemma standard_output_spec o : standard_output o = Ok tt -> 0 < value o /\ is_valid_address (recipient o) = Ok true.
Proof.
  unfold standard_output, invalid_if. intros E. apply rbind_Ok in E as ([] & Hv%raise_if_Ok & E).
  apply rbind_Ok in E as (valid & Ha & E%raise_if_Ok). bool_prop. by rewrite Ha, E.
Qed.

Lemma prevalidation_spec db t :
  triple (stays db) (_enforce_pre_validation_policy policy t) (fun _ m => repository m = db /\ standard_shape t) (stays_exn db).
Proof.
  unfold _enforce_pre_validation_policy. apply triple_call; [auto|]. intros [] E1. apply rbind_Ok in E1 as (raw & Hraw & E1).
  unfold invalid_if in E1. apply rbind_Ok in E1 as ([] & Hsz%raise_if_Ok & E1). apply rbind_Ok in E1 as ([] & Hin%raise_if_Ok & Hout%raise_if_Ok).
  eapply (triple_bind _ _ _ (fun _ m => repository m = db /\ enforce_pq_mempool_precheck t (pq_limits policy) = Ok tt)).
  - eapply (triple_attempt _ _ _ _ _ _ (fun _ m => repository m = db)).
    + intros m Hm. unfold lift. by destruct (enforce_pq_mempool_precheck t (pq_limits policy)) as [[]|e].
    + intros e _ m Hm. exact Hm.
    + auto.
  - intros []. intros m [Hm Hpq]. unfold lift. destruct (for_each standard_output (outputs t)) as [[]|e] eqn:Ho; [|done].
    split; [done|]. bool_prop. split; [exists raw; split; [done|lia]|lia|lia|done|].
    apply for_each_Ok in Ho. eapply Forall_impl; [exact Ho|]. intros o. apply standard_output_spec.
Qed.

Lemma policy_spec db t fee :
  triple (stays db) (_enforce_policy policy t fee) (fun _ m => repository m = db /\ standard_shape t /\ fee_enough t fee) (stays_exn db).
Proof.
  unfold _enforce_policy. eapply triple_bind; [apply prevalidation_spec|]. intros [] m [Hm Hs]. unfold lift.
  destruct (rbind _ _) as [[]|e] eqn:E; [|done]. unfold invalid_if in E. apply rbind_Ok in E as ([] & Hneg%raise_if_Ok & Hmin%raise_if_Ok).
  split; [done|]. split; [done|]. bool_prop. split; [lia|]. intros Hz Hn. rewrite Hz, Hn in Hmin. simpl in Hmin. lia.
Qed.

(** The entries a transaction must agree with: the pool without what it replaces *)
Definition remaining (entries effective : list MempoolEntry) (replaced : list str) : Prop :=
  filterM (fun e => let* i := txid (pool_transaction e) in Ok (negb (bool_decide (i ∈ replaced)))) entries = Ok effective.

Record admitted (db : MempoolDb) (t : Transaction) (replaced : list str) (fee : Z) : Prop := {
  admitted_new : exists id, txid t = Ok id /\ mempool_rows db !! id = None /\ lookup id = Ok None;
  admitted_shape : standard_shape t;
  admitted_fee : fee_enough t fee;
  admitted_checks : exists entries effective view context,
    mempool_list_all db = Ok entries /\ remaining entries effective replaced /\
    _reward_attestation_bundle_replacement_txids t entries = Ok replaced /\
    _enforce_special_node_mempool_policy policy t effective = Ok tt /\
    _enforce_reward_attestation_bundle_mempool_policy policy t effective = Ok tt /\
    _ensure_no_mempool_double_spend t effective = Ok tt /\
    _snapshot_with_mempool_applied chainstate factory entries = Ok view /\ factory view = Ok context /\
    validate_transaction t context = Ok fee;
}.

Lemma no_entry_no_row db id : mempool_get db id = Ok None -> mempool_rows db !! id = None.
Proof. unfold mempool_get. destruct (mempool_rows db !! id); [|done]. intros E. by apply rbind_Ok in E as (? & _ & E). Qed.

Lemma admission_spec db t :
  triple (stays db) (admission chainstate factory lookup policy t) (fun r m => repository m = db /\ admitted db t r.1 r.2) (stays_exn db).
Proof.
  unfold admission, preflight. eapply triple_bind; [apply prevalidation_spec|]. intros [].
  apply triple_call; [by intros e m [? _]|]. intros id Hid. apply triple_read; [by intros e m [? _]|]. intros present.
  apply triple_call; [by intros e m [[? _] _]|]. intros _ Hp%raise_if_Ok. apply bool_decide_eq_false, eq_None_not_Some in Hp. subst present.
  apply triple_call; [by intros e m [[? _] _]|]. intros confirmed Hk.
  apply triple_call; [by intros e m [[? _] _]|]. intros _ Hc%raise_if_Ok. subst confirmed. apply triple_read; [by intros e m [[? _] _]|]. intros entries.
  apply triple_call; [by intros e m [[[? _] _] _]|]. intros replaced Hrep. apply triple_call; [by intros e m [[[? _] _] _]|]. intros effective Hrem.
  apply triple_call; [by intros e m [[[? _] _] _]|]. intros [] Hsp. apply triple_call; [by intros e m [[[? _] _] _]|]. intros [] Hbu.
  apply triple_call; [by intros e m [[[? _] _] _]|]. intros [] Hds. apply triple_call; [by intros e m [[[? _] _] _]|]. intros fee Hfee.
  intros m [[[Hm Hshape] Hget] Hlist]. rewrite Hm in Hget, Hlist. pose proof (policy_spec db t fee m Hm) as Hpol. unfold sbind.
  destruct (_enforce_policy policy t fee m) as [[[]|e] m']; [|done]. destruct Hpol as (Hm' & _ & Hf). split; [done|]. cbn [fst snd].
  apply rbind_Ok in Hfee as (view & Hv & Hfee). apply rbind_Ok in Hfee as (context & Hctx & Hval).
  split; [|done|done|exists entries, effective, view, context; by auto 10]. exists id. split; [done|]. split; [by apply no_entry_no_row|].
  unfold _is_known_on_chain in Hk. apply rbind_Ok in Hk as (found & Hl & Hk). destruct found; [discriminate|done].
Qed.

Lemma double_spend_checked t entries e o :
  _ensure_no_mempool_double_spend t entries = Ok tt -> e ∈ entries -> o ∈ spends t -> o ∉ spends (pool_transaction e).
Proof.
  intros Hds%raise_if_Ok Hin Ho Ho'.
  assert (Hf : existsb (fun o0 => bool_decide (o0 ∈ reserved_outpoints entries)) (spends t) = true); [|congruence].
  apply existsb_exists. exists o. split; [by apply list_elem_of_In|]. apply bool_decide_eq_true. unfold reserved_outpoints.
  apply list_elem_of_In, in_concat. exists (spends (pool_transaction e)). split; [|by apply list_elem_of_In].
  apply in_map_iff. exists e. split; [done|by apply list_elem_of_In].
Qed.

(** A transaction that passed agrees with every entry that stays. *)
Lemma admitted_disjoint db t replaced fee id' t' o :
  table_ok db -> admitted db t replaced fee -> holds db id' t' -> id' ∉ replaced -> o ∈ spends t -> o ∉ spends t'.
Proof.
  intros Hok [_ _ _ (entries & effective & view & context & Hlist & Hrem & _ & _ & _ & Hds & _)] Hh Hr Ho Ho'.
  destruct (held_listed db id' t' entries Hok Hlist Hh) as (e & Hin & He).
  unfold remaining in Hrem. apply filterM_spec in Hrem. assert (Heff : e ∈ effective).
  { rewrite Hrem. apply list_elem_of_filter. split; [|done]. rewrite He. destruct Hh as (row & _ & _ & _ & Hid). rewrite Hid. simpl.
    by rewrite bool_decide_eq_false_2. }
  rewrite <- He in Ho'. by apply (double_spend_checked t effective e o).
Qed.

(** *** The writes of an admission *)

Lemma remove_many_spec ids m : remove_many ids m = (Ok tt, set_repository (removed (repository m) ids) m).
Proof.
  unfold remove_many. revert m. induction ids as [|id ids IH]; intros m; simpl; [by destruct m|].
  unfold sbind, write_pool, update. simpl. rewrite IH. by destruct m.
Qed.

Lemma time_stays db : triple (stays db) (time_provider clock) (fun _ => stays db) (stays_exn db).
Proof. by intros m Hm. Qed.

(** The table after the new transaction took the place of those it replaces *)
Definition admitted_db (db : MempoolDb) (t : Transaction) (replaced : list str) (fee added_at : Z) : res MempoolDb :=
  mempool_add (removed db replaced) t fee added_at.

Lemma admitted_db_ok db t replaced fee added_at db' :
  pool_ok db -> canonical_tx t = t -> admitted db t replaced fee -> admitted_db db t replaced fee added_at = Ok db' -> pool_ok db'.
Proof.
  intros Hp Hc Ha E. eapply (pool_ok_add (removed db replaced)); [by apply removed_ok|done| |exact E].
  intros id' t' [Hh Hn]%holds_removed _ o Ho. eapply admitted_disjoint; [apply Hp|done..].
Qed.

Lemma safe_accept t added_at : canonical_tx t = t -> safe (accept chainstate factory lookup policy clock t added_at).
Proof.
  intros Hc. unfold accept. keeps_step; [keeps|]. keeps_step; [keeps|]. apply keeps_attempt; [|intros e _; keeps].
  intros m Hm. unfold manager_ok in Hm. set (db := repository m) in *.
  enough (Ht : triple (stays db) (
     let! admitted := admission chainstate factory lookup policy t in
     let! accepted_at := (match added_at with None => time_provider clock | Some at_ => ret at_ end) in
     do! remove_many admitted.1 in
     do! write_pool (fun db => mempool_add db t admitted.2 accepted_at) in
     let! now := time_provider clock in
     do! _prune_expired policy now in
     do! _evict_if_needed policy in
     do! (if a then count_pq one_accepted else ret tt) in
     ret (t, admitted.2)) (fun _ => manager_ok) (fun _ m => manager_ok m /\ True)) by exact (Ht m eq_refl).
  assert (Hstay : forall (e : exn) m, repository m = db -> manager_ok m /\ True) by (intros e m0 E; unfold manager_ok; by rewrite E).
  eapply (triple_bind _ _ _ (fun r m => repository m = db /\ admitted db t r.1 r.2)).
  { intros m0 Hm0. pose proof (admission_spec db t m0 Hm0) as Hs. destruct (admission _ _ _ _ t m0) as [[r|e] m1]; [done|by apply (Hstay e)]. }
  intros [replaced fee].
  eapply (triple_bind _ _ _ (fun _ m => repository m = db /\ admitted db t replaced fee)).
  { destruct added_at; [by intros m0 Hm0|]. by intros m0 Hm0. }
  intros accepted_at. cbn [fst snd]. eapply (triple_bind _ _ _ (fun _ m => repository m = removed db replaced /\ admitted db t replaced fee)).
  { intros m0 [Hm0 Ha]. rewrite remove_many_spec, Hm0. done. }
  intros _. eapply (triple_bind _ _ _ (fun _ => manager_ok)).
  - apply triple_update.
    + intros m0 [] m1 [Hm0 Ha] E. rewrite Hm0 in E. apply rbind_Ok in E as (db' & E & E'). injection E' as <-.
      unfold manager_ok. simpl. by eapply admitted_db_ok.
    + intros e m0 [Hm0 _] _. unfold manager_ok. rewrite Hm0. split; [by apply removed_ok|done].
  - intros _. change (safe (let! now := time_provider clock in do! _prune_expired policy now in do! _evict_if_needed policy in
      do! (if a then count_pq one_accepted else ret tt) in ret (t, fee))). keeps.
Qed.

(** *** Reconciliation *)

(** The pending entries are those of the table. *)
Definition mirrors (p : Pending (B := B)) (m : MempoolManager) : Prop :=
  pool_ok (repository m) /\
  forall id t, holds (repository m) id t -> exists e, e ∈ pending_entries p /\ pool_transaction e = t.

Lemma readmit_checked_mirrors h p t added_at :
  canonical_tx t = t ->
  triple (mirrors p) (readmit_checked factory policy h p t added_at) (fun p' => mirrors p') (fun _ => mirrors p).
Proof.
  intros Hc. unfold readmit_checked. do 2 (apply triple_call; [auto|]; intros [] _). apply triple_call; [auto|]. intros [] Hds.
  apply triple_call; [auto|]. intros fee _. eapply (triple_bind _ _ _ (fun _ => mirrors p)).
  { intros m Hm. pose proof (policy_spec (repository m) t fee m eq_refl) as Hpol. unfold mirrors in *.
    destruct (_enforce_policy policy t fee m) as [[[]|e] m']; [destruct Hpol as [-> _]|rewrite Hpol]; done. }
  intros _. apply triple_call; [auto|]. intros view _. eapply (triple_bind _ _ _ (fun _ => mirrors (mkPending view (pending_entries p ++ [mkPool t fee added_at])))); [|by intros ? m Hm].
  apply triple_update; [|auto]. intros m [] m' [Hp Hm] E. apply rbind_Ok in E as (db' & E & E'). injection E' as <-. unfold mirrors. simpl.
  split.
  - eapply pool_ok_add; [exact Hp|done| |exact E]. intros id' t' Hh _ o Ho Ho'. destruct (Hm id' t' Hh) as (e & Hin & He).
    rewrite <- He in Ho'. by apply (double_spend_checked t (pending_entries p) e o).
  - intros id t' (row & Hr & Hrow). unfold mempool_add in E. apply rbind_Ok in E as (id0 & Hid & E). apply rbind_Ok in E as (raw & Hraw & E).
    apply rbind_Ok in E as (fee' & _ & E). apply rbind_Ok in E as (added' & _ & E). injection E as <-. simpl in Hr.
    destruct (decide (id = id0)) as [->|Hne].
    + rewrite lookup_insert_eq in Hr. injection Hr as <-. exists (mkPool t fee added_at). split; [set_solver|]. simpl.
      assert (Hnew : row_holds id0 (mkPoolRow raw fee' added') t) by done. apply row_decodes in Hrow, Hnew. congruence.
    + rewrite lookup_insert_ne in Hr by done. destruct (Hm id t' (ex_intro _ row (conj Hr Hrow))) as (e & He & Et).
      exists e. split; [set_solver|done].
Qed.

Lemma mirrors_safe p m : mirrors p m -> manager_ok m.
Proof. by intros [? _]. Qed.

Lemma mirrors_stays p m m' : repository m' = repository m -> mirrors p m -> mirrors p m'.
Proof. unfold mirrors. by intros ->. Qed.

Lemma readmit_fast_mirrors h p t added_at :
  canonical_tx t = t ->
  triple (mirrors p) (readmit_fast factory lookup policy clock h p t added_at) (fun p' => mirrors p') (fun _ => manager_ok).
Proof.
  intros Hc. unfold readmit_fast. eapply (triple_bind _ _ _ (fun _ => mirrors p)); [by intros m Hm|]. intros now.
  destruct (_is_expired _ _ _); [by intros m Hm|].
  eapply (triple_bind _ _ _ (fun _ => mirrors p)).
  { intros m Hm. pose proof (prevalidation_spec (repository m) t m eq_refl) as Hs. unfold attempt, sbind.
    destruct (_enforce_pre_validation_policy policy t m) as [[[]|e] m'].
    - destruct Hs as [Hs _]. exact (mirrors_stays p m m' Hs Hm).
    - destruct (existsb _ _); [exact (mirrors_stays p m m' Hs Hm)|]. apply (mirrors_safe p). exact (mirrors_stays p m m' Hs Hm). }
  intros passed. destruct (negb passed); [by intros m Hm|].
  apply triple_call; [intros e m; apply mirrors_safe|]. intros id _. apply triple_call; [intros e m; apply mirrors_safe|]. intros confirmed _.
  destruct confirmed; [by intros m Hm|].
  eapply (triple_attempt _ _ _ _ _ _ (fun _ => mirrors p)); [by apply readmit_checked_mirrors|by intros e _ m Hm|].
  intros e m _. apply mirrors_safe.
Qed.

Lemma readmit_all_mirrors {X} h (tx : X -> Transaction) (at_ : X -> Z) xs p :
  Forall (fun x => canonical_tx (tx x) = tx x) xs ->
  triple (mirrors p) (sfold (fun p x => readmit_fast factory lookup policy clock h p (tx x) (at_ x)) p xs) (fun p' => mirrors p') (fun _ => manager_ok).
Proof.
  intros Hf. revert p. induction Hf as [|x xs Hx _ IH]; intros p; simpl; [by intros m Hm|].
  eapply triple_bind; [by apply readmit_fast_mirrors|]. intros p'. apply IH.
Qed.

Lemma listed_canonical db entries : table_ok db -> mempool_list_all db = Ok entries ->
  Forall (fun e => canonical_tx (pool_transaction e) = pool_transaction e) entries.
Proof.
  intros Hok Hl. apply Forall_forall. intros e Hin. destruct (listed_holds db e entries Hok Hl Hin) as (id & (row & _ & Hc & _) & _). done.
Qed.

Lemma safe_reconcile extra :
  (forall ts, extra = Some ts -> Forall (fun t => canonical_tx t = t) ts) -> safe (reconcile chainstate factory lookup policy clock extra).
Proof.
  intros Hx. unfold reconcile. apply triple_read; [auto|]. intros entries. apply triple_call; [by intros e m [? _]|]. intros ids _.
  set (preserved := (sorted_by reconcile_key (zip entries ids)).*1).
  eapply (triple_bind _ _ _ (fun _ m => mirrors (mkPending (overlay_over chainstate) []) m /\
    Forall (fun e => canonical_tx (pool_transaction e) = pool_transaction e) preserved)).
  { intros m [Hm Hl]. simpl. split.
    - split; [apply pool_ok_clear|]. by intros id t (row & Hr & _).
    - apply Forall_forall. intros e He. apply list_elem_of_fmap in He as ([e' id] & -> & He). apply elem_of_sorted_by in He.
      simpl. apply elem_of_zip_l in He. pose proof (listed_canonical (repository m) entries (pool_table _ Hm) Hl) as Hf.
      rewrite Forall_forall in Hf. by apply Hf. }
  intros _ m [Hm Hf]. revert m Hm.
  change (triple (mirrors (mkPending (overlay_over chainstate) [])) (
    let! context := lift (factory (overlay_over chainstate)) in
    let! p := sfold (fun p e => readmit_fast factory lookup policy clock (context_height context) p (pool_transaction e) (pool_added_at e))
      (mkPending (overlay_over chainstate) []) preserved in
    let! _p := (match extra with
              | None => ret p
              | Some extra => let! now := time_provider clock in sfold (fun p t => readmit_fast factory lookup policy clock (context_height context) p t now) p extra
              end) in
    _evict_if_needed policy) (fun _ => manager_ok) (fun _ m => manager_ok m /\ True)).
  assert (Hsafe : forall {A} (op : pool A) P Q, triple P op Q (fun _ => manager_ok) -> triple P op Q (fun _ m => manager_ok m /\ True)).
  { intros A op P Q Ht. eapply triple_consequence; [..|exact Ht]; auto. }
  apply triple_call; [intros e m Hm; split; [by eapply mirrors_safe|done]|]. intros context _.
  eapply triple_bind; [apply Hsafe, (readmit_all_mirrors (context_height context) pool_transaction pool_added_at); exact Hf|]. intros p.
  eapply (triple_bind _ _ _ (fun _ => manager_ok)); [|intros ?; apply safe_evict]. destruct extra as [ts|].
  - eapply (triple_bind _ _ _ (fun _ => mirrors p)); [by intros m Hm|]. intros now.
    eapply triple_consequence; [..|apply Hsafe, (readmit_all_mirrors (context_height context) id (fun _ => now)); by apply Hx]; auto.
    intros p' m. apply mirrors_safe.
  - intros m. apply mirrors_safe.
Qed.

Lemma safe_readmit t added_at : canonical_tx t = t -> safe (_readmit chainstate factory lookup policy clock t added_at).
Proof.
  intros Hc. unfold _readmit. keeps_step; [keeps|]. destruct (_is_expired _ _ _); [apply keeps_ret|].
  apply keeps_attempt; [|intros e _; apply keeps_ret]. apply keeps_bind; [by apply safe_accept|]. intros ?. apply keeps_ret.
Qed.
End facts.

(** ** Eviction *)

Lemma removed_lookup db ids id : mempool_rows (removed db ids) !! id = if decide (id ∈ ids) then None else mempool_rows db !! id.
Proof.
  revert db. induction ids as [|i ids IH]; intros db.
  { case_decide as Hd; [by apply not_elem_of_nil in Hd|done]. }
  cbn [removed foldl]. change (foldl mempool_remove (mempool_remove db i) ids) with (removed (mempool_remove db i) ids). rewrite IH. simpl.
  destruct (decide (id ∈ ids)); [by rewrite decide_True by set_solver|]. destruct (decide (id = i)) as [->|Hne].
  - rewrite decide_True by set_solver. apply lookup_delete_eq.
  - rewrite decide_False by set_solver. by rewrite lookup_delete_ne.
Qed.

Lemma removed_size db ids :
  NoDup ids -> (forall id, id ∈ ids -> is_Some (mempool_rows db !! id)) ->
  (size (mempool_rows (removed db ids)) + length ids = size (mempool_rows db))%nat.
Proof.
  revert db. induction ids as [|i ids IH]; intros db Hn Hs; simpl; [lia|]. apply NoDup_cons in Hn as [Hi Hn].
  destruct (Hs i ltac:(left)) as [row Hr]. specialize (IH (mempool_remove db i) Hn).
  assert (Hsz : size (mempool_rows (mempool_remove db i)) = pred (size (mempool_rows db))) by (simpl; by rewrite map_size_delete, Hr).
  assert (Hpos : (0 < size (mempool_rows db))%nat) by (destruct (size (mempool_rows db)) eqn:E; [|lia]; apply map_size_empty_inv in E; rewrite E in Hr; by rewrite lookup_empty in Hr).
  rewrite Hsz in IH. rewrite <- (Nat.succ_pred_pos _ Hpos), <- IH; [lia|]. intros id Hid. simpl. rewrite lookup_delete_ne by set_solver.
  apply Hs. set_solver.
Qed.

(** The identifiers of the listing are the keys of the table. *)
Lemma txids_of_listing db entries :
  table_ok db -> mempool_list_all db = Ok entries ->
  txids_of entries = Ok (sorted_by pool_order (map_to_list (mempool_rows db))).*1.
Proof.
  intros Hok Hl. destruct (list_all_ok db Hok) as (entries' & Hl' & Hf & _). rewrite Hl in Hl'. injection Hl' as <-.
  assert (Hitems : Forall (fun item => exists t, row_holds item.1 item.2 t) (sorted_by pool_order (map_to_list (mempool_rows db)))).
  { apply Forall_forall. intros [id row] Hin. apply elem_of_sorted_by, elem_of_map_to_list in Hin. by apply Hok. }
  unfold txids_of. clear Hl. induction Hf as [|[id row] e items es Hd _ IH]; [done|]. apply Forall_cons in Hitems as [[t Ht] Hitems].
  simpl in *. rewrite (row_decodes id row t Ht) in Hd. injection Hd as <-. simpl. destruct Ht as (_ & _ & ->). simpl.
  by rewrite (IH Hitems).
Qed.

(** Evicting removes the least, by fee, then by arrival, then by identifier. *)
Lemma evicted_spec policy db entries ids :
  table_ok db -> mempool_list_all db = Ok entries -> txids_of entries = Ok ids ->
  NoDup (evicted policy entries ids) /\
  (length (evicted policy entries ids) = length entries - Z.to_nat (max_mempool_transactions policy))%nat /\
  (forall id, id ∈ evicted policy entries ids -> is_Some (mempool_rows db !! id)) /\
  (forall id1 row1 id2 row2, mempool_rows db !! id1 = Some row1 -> mempool_rows db !! id2 = Some row2 ->
    id1 ∈ evicted policy entries ids -> id2 ∉ evicted policy entries ids ->
    py_le ((row_fee row1, row_added_at row1), id1) ((row_fee row2, row_added_at row2), id2)).
Proof.
  intros Hok Hl Hids. rewrite (txids_of_listing db entries Hok Hl) in Hids. injection Hids as <-.
  destruct (list_all_ok db Hok) as (entries' & Hl' & Hf & _ & Hsz). rewrite Hl in Hl'. injection Hl' as <-.
  set (items := sorted_by pool_order (map_to_list (mempool_rows db))) in *.
  assert (Hlen : length entries = length items) by (symmetry; by eapply Forall2_length).
  set (sorted := sorted_by eviction_key (zip entries items.*1)). unfold evicted. fold sorted.
  set (k := (length entries - _)%nat).
  assert (Hperm : sorted.*2 ≡ₚ items.*1).
  { unfold sorted. rewrite sorted_by_Permutation. rewrite snd_zip; [done|]. rewrite length_fmap. lia. }
  assert (Hkeys : items.*1 ≡ₚ (map_to_list (mempool_rows db)).*1) by (unfold items; by rewrite sorted_by_Permutation).
  assert (Hn : NoDup sorted.*2). { rewrite Hperm, Hkeys. apply NoDup_fst_map_to_list. }
  assert (Hrow : forall e id, (e, id) ∈ sorted -> exists row, mempool_rows db !! id = Some row /\ pool_fee e = row_fee row /\ pool_added_at e = row_added_at row).
  { intros e id Hin. unfold sorted in Hin. apply elem_of_sorted_by, list_elem_of_lookup in Hin as [i Hi].
    apply lookup_zip_with_Some in Hi as (e' & id' & [= <- <-] & He & Hid). rewrite list_lookup_fmap in Hid.
    apply fmap_Some in Hid as ([id0 row] & Hi' & ->). destruct (Forall2_lookup_l _ _ _ _ _ Hf Hi') as (e0 & He0 & Hd).
    rewrite He in He0. injection He0 as <-. assert (Hin : (id0, row) ∈ items) by (apply list_elem_of_lookup; eauto).
    unfold items in Hin. apply elem_of_sorted_by, elem_of_map_to_list in Hin. exists row. split; [done|].
    destruct (Hok id0 row Hin) as [t Ht]. simpl in Hd. rewrite (row_decodes id0 row t Ht) in Hd. by injection Hd as <-. }
  split; [|split; [|split]].
  - rewrite fmap_take. eapply sublist_NoDup; [exact Hn|apply sublist_take].
  - rewrite length_fmap, length_take. unfold sorted. rewrite sorted_by_length, length_zip_with, length_fmap. lia.
  - intros id Hin. apply list_elem_of_fmap in Hin as ([e i] & -> & Hin). apply (subseteq_take _ sorted) in Hin.
    destruct (Hrow e i Hin) as (row & Hr & _). simpl. by rewrite Hr.
  - intros id1 row1 id2 row2 H1 H2 Hin Hnin. apply list_elem_of_fmap in Hin as ([e1 i1] & -> & Hin1). simpl in *.
    assert (Hin2 : exists e2, (e2, id2) ∈ drop k sorted).
    { assert (Hall : id2 ∈ sorted.*2). { rewrite Hperm, Hkeys. apply list_elem_of_fmap. exists (id2, row2). by rewrite elem_of_map_to_list. }
      rewrite <- (take_drop k sorted), fmap_app in Hall. apply elem_of_app in Hall as [Hall|Hall]; [done|].
      apply list_elem_of_fmap in Hall as ([e2 i2] & -> & Hall). by exists e2. }
    destruct Hin2 as [e2 Hin2]. pose proof (sorted_by_StronglySorted eviction_key (zip entries items.*1)) as Hs. fold sorted in Hs.
    rewrite <- (take_drop k sorted) in Hs. pose proof (StronglySorted_app_1_elem_of _ _ _ _ _ Hs Hin1 Hin2) as Hle.
    destruct (Hrow e1 i1 ltac:(by apply (subseteq_take k sorted))) as (r1 & Hr1 & F1 & A1).
    destruct (Hrow e2 id2 ltac:(by apply (subseteq_drop k sorted))) as (r2 & Hr2 & F2 & A2).
    rewrite H1 in Hr1. injection Hr1 as <-. rewrite H2 in Hr2. injection Hr2 as <-.
    unfold key_le, eviction_key in Hle. simpl in Hle. by rewrite F1, A1, F2, A2 in Hle.
Qed.

(** What eviction does to the table *)
Definition evict_db (policy : MempoolPolicy) (db : MempoolDb) (entries : list MempoolEntry) : MempoolDb :=
  if len entries <=? max_mempool_transactions policy then db
  else removed db (evicted policy entries (sorted_by pool_order (map_to_list (mempool_rows db))).*1).

Lemma evict_run policy m entries :
  table_ok (repository m) -> mempool_list_all (repository m) = Ok entries ->
  _evict_if_needed policy m = (Ok tt, set_repository (evict_db policy (repository m) entries) m).
Proof.
  intros Hok Hl. unfold _evict_if_needed, evict_db, sbind, of_pool, asks. rewrite Hl. destruct (_ <=? _); [by destruct m|].
  unfold lift. rewrite (txids_of_listing _ _ Hok Hl). apply remove_many_spec.
Qed.

(** Eviction keeps the best: it returns, leaves as many transactions as there were or as
    the limit allows, whichever is less, and every transaction it removes ranks no
    higher, by fee, then by time, then by identifier, than every one it keeps. *)
Theorem eviction_keeps_best (policy : MempoolPolicy) (m : MempoolManager) :
  table_ok (repository m) -> 0 <= max_mempool_transactions policy ->
  exists m', _evict_if_needed policy m = (Ok tt, m') /\
    mempool_rows (repository m') ⊆ mempool_rows (repository m) /\
    Z.of_nat (size (mempool_rows (repository m'))) =
      Z.min (Z.of_nat (size (mempool_rows (repository m)))) (max_mempool_transactions policy) /\
    forall id1 row1 id2 row2, mempool_rows (repository m) !! id1 = Some row1 -> mempool_rows (repository m') !! id1 = None ->
      mempool_rows (repository m') !! id2 = Some row2 ->
      py_le ((row_fee row1, row_added_at row1), id1) ((row_fee row2, row_added_at row2), id2).
Proof.
  intros Hok Hmax. destruct (list_all_ok _ Hok) as (entries & Hl & _ & _ & Hsz). eexists. split; [exact (evict_run policy m entries Hok Hl)|].
  simpl. unfold evict_db. destruct (len entries <=? _) eqn:Ele; bool_prop; unfold len in Ele.
  { split; [done|]. split; [lia|]. intros id1 row1 id2 row2 H1 H2. congruence. }
  destruct (evicted_spec policy _ _ _ Hok Hl (txids_of_listing _ _ Hok Hl)) as (Hn & Hlen & Hin & Hle).
  set (gone := evicted _ _ _) in *. split; [|split].
  - apply map_subseteq_spec. intros id row. rewrite removed_lookup. by case_decide.
  - pose proof (removed_size _ gone Hn Hin). lia.
  - intros id1 row1 id2 row2 H1. rewrite !removed_lookup. case_decide as D1; [|congruence]. intros _. case_decide as D2; [done|]. intros H2.
    by apply Hle.
Qed.

Lemma evicted_size policy m m' :
  table_ok (repository m) -> 0 <= max_mempool_transactions policy -> _evict_if_needed policy m = (Ok tt, m') ->
  Z.of_nat (size (mempool_rows (repository m'))) <= max_mempool_transactions policy.
Proof.
  intros Hok Hmax E. destruct (list_all_ok _ Hok) as (entries & Hl & _ & _ & Hsz). rewrite (evict_run policy m entries Hok Hl) in E.
  injection E as <-. simpl. unfold evict_db. destruct (len entries <=? _) eqn:Ele; bool_prop; unfold len in Ele; [lia|].
  destruct (evicted_spec policy _ _ _ Hok Hl (txids_of_listing _ _ Hok Hl)) as (Hn & Hlen & Hin & _).
  pose proof (removed_size _ _ Hn Hin). lia.
Qed.

(** ** Every run of the mempool *)

Section runs.
Context `{PyRepr, CryptoBackend} {B R : Type} `{UtxoView B} `{NodeRegistryView R}.
Variable policy : MempoolPolicy.

(** Each operation, with any chain state, context factory, lookup and clock, and
    whether it returns or raises *)
Inductive mempool_step : MempoolManager -> MempoolManager -> Prop :=
| on_accept m (chainstate : B) (factory : OverlayUtxoView B -> res (ValidationContext (OverlayUtxoView B) R)) lookup clock t added_at :
    canonical_tx t = t -> mempool_step m (accept chainstate factory lookup policy clock t added_at m).2
| on_readmit m (chainstate : B) (factory : OverlayUtxoView B -> res (ValidationContext (OverlayUtxoView B) R)) lookup clock t added_at :
    canonical_tx t = t -> mempool_step m (_readmit chainstate factory lookup policy clock t added_at m).2
| on_reconcile m (chainstate : B) (factory : OverlayUtxoView B -> res (ValidationContext (OverlayUtxoView B) R)) lookup clock extra :
    (forall ts, extra = Some ts -> Forall (fun t => canonical_tx t = t) ts) ->
    mempool_step m (reconcile chainstate factory lookup policy clock extra m).2
| on_remove m ids : mempool_step m (remove_many ids m).2
| on_clear m : mempool_step m (clear m).2.

Lemma mempool_step_ok m m' : mempool_step m m' -> manager_ok m -> manager_ok m'.
Proof.
  assert (Hs : forall {A} (op : pool A) m, keeps manager_ok (fun _ => True) op -> manager_ok m -> manager_ok (op m).2).
  { intros A op m0 Hk Hm. specialize (Hk m0 Hm). destruct (op m0) as [[a|e] m1]; [done|]. by destruct Hk. }
  intros [m0 cs f l c t a Hc|m0 cs f l c t a Hc|m0 cs f l c ex Hc|m0 ids|m0] Hm; apply Hs; try done.
  - by apply safe_accept.
  - by apply safe_readmit.
  - by apply safe_reconcile.
  - apply safe_remove_many.
  - apply safe_clear.
Qed.

(** C14: The mempool never holds two transactions that spend one output: in every state
    it reaches from empty, through admissions, replacements, expiry, eviction and
    reconciliation, returned or raised, each row decodes to a transaction stored
    under its own identifier, and different rows spend different outputs. *)
Theorem mempool_conflict_free (m : MempoolManager) :
  rtc mempool_step new_mempool m ->
  (exists entries, mempool_list_all (repository m) = Ok entries) /\
  map_Forall (fun id row => exists t, decode_pool_row row = Ok (mkPool t (row_fee row) (row_added_at row)) /\ txid t = Ok id)
    (mempool_rows (repository m)) /\
  forall id1 row1 e1 id2 row2 e2 o,
    mempool_rows (repository m) !! id1 = Some row1 -> decode_pool_row row1 = Ok e1 ->
    mempool_rows (repository m) !! id2 = Some row2 -> decode_pool_row row2 = Ok e2 ->
    o ∈ spends (pool_transaction e1) -> o ∈ spends (pool_transaction e2) -> id1 = id2.
Proof.
  intros Hr. assert (Hm : manager_ok m).
  { eapply (rtc_preserved manager_ok); [exact mempool_step_ok|exact Hr|]. apply (pool_ok_clear (mkMempoolDb ∅)). }
  destruct Hm as [Hok Hc]. split; [destruct (list_all_ok _ Hok) as (entries & ? & _); eauto|]. split.
  - intros id row Hx. destruct (Hok id row Hx) as [t Ht]. exists t. split; [by eapply row_decodes|]. by destruct Ht as (_ & _ & ?).
  - intros id1 row1 e1 id2 row2 e2 o R1 D1 R2 D2. destruct (Hok _ _ R1) as [t1 T1], (Hok _ _ R2) as [t2 T2].
    rewrite (row_decodes _ _ _ T1) in D1. rewrite (row_decodes _ _ _ T2) in D2. injection D1 as <-. injection D2 as <-. simpl.
    apply Hc; by eexists.
Qed.

Variable chainstate : B.
Variable factory : OverlayUtxoView B -> res (ValidationContext (OverlayUtxoView B) R).
Variable lookup : str -> res (option Transaction).
Variable clock : nat -> Z.

Lemma time_run m : time_provider clock m = (Ok (clock (clock_reads m)), mkMempool (repository m) (pq_metrics m) (S (clock_reads m))).
Proof. reflexivity. Qed.

(** C15: Admission is validated: a transaction the mempool accepts is no coinbase, is
    new to the pool and to the chain, was validated with the fee returned against
    the chain state with the whole pool applied, spends nothing a remaining entry
    spends, and meets the size, count, output, post-quantum and fee policy; and the
    pool is then within its limit. *)
Theorem accepted_is_validated (m : MempoolManager) (t : Transaction) (added_at : option Z) (t' : Transaction) (fee : Z) (m' : MempoolManager) :
  pool_ok (repository m) -> canonical_tx t = t -> 0 <= max_mempool_transactions policy ->
  accept chainstate factory lookup policy clock t added_at m = (Ok (t', fee), m') ->
  t' = t /\ is_coinbase_transaction t = false /\
  (exists replaced, admitted chainstate factory lookup policy (repository m) t replaced fee /\
    forall id' t'' o, holds (repository m) id' t'' -> id' ∉ replaced -> o ∈ spends t -> o ∉ spends t'') /\
  Z.of_nat (size (mempool_rows (repository m'))) <= max_mempool_transactions policy.
Proof.
  intros Hp Hc Hmax E. unfold accept in E. unfold sbind at 1, lift at 1 in E. destruct (is_pq_transaction t) as [pqc|e]; [|discriminate].
  unfold sbind at 1, lift at 1 in E. destruct (invalid_if _ _) as [[]|e] eqn:Hcb; [|discriminate]. apply raise_if_Ok in Hcb.
  unfold attempt in E.
  assert (Hno : forall (e : exn) m0, (do! (if pqc then count_pq one_rejected else ret tt) in lift (Raise (A := Transaction * Z) e)) m0 ≠ (Ok (t', fee), m'))
    by (intros e m0; by destruct pqc).
  match type of E with match ?body m with _ => _ end = _ => destruct (body m) as [[r|e] m1] eqn:Eb end;
    [|destruct (existsb _ _); [by destruct (Hno e m1)|discriminate]].
  injection E as -> ->. unfold sbind at 1 in Eb.
  pose proof (admission_spec chainstate factory lookup policy (repository m) t m eq_refl) as Ha.
  destruct (admission _ _ _ _ t m) as [[[replaced fee0]|e] m1]; [|discriminate]. destruct Ha as [Em1 Ha]. cbn [fst snd] in *.
  unfold sbind at 1 in Eb.
  assert (Hat : exists at_ m2, (match added_at with None => time_provider clock | Some a => ret a end) m1 = (Ok at_, m2) /\ repository m2 = repository m)
    by (destruct added_at; eexists _, _; split; [reflexivity|simpl; done..]).
  destruct Hat as (at_ & m2 & Eat & Em2). rewrite Eat in Eb. unfold sbind at 1 in Eb. rewrite remove_many_spec, Em2 in Eb.
  unfold sbind at 1, write_pool, update in Eb. cbn [set_repository repository] in Eb.
  destruct (mempool_add (removed (repository m) replaced) t fee0 at_) as [db3|e] eqn:Eadd; [|discriminate]. cbn [rbind] in Eb.
  assert (Hdb3 : pool_ok db3) by (eapply (admitted_db_ok chainstate factory lookup policy (repository m)); done).
  unfold sbind at 1 in Eb. rewrite time_run in Eb. unfold sbind at 1 in Eb. set (m4 := mkMempool _ _ _) in Eb.
  pose proof (safe_prune policy (clock (clock_reads (set_repository db3 (set_repository (removed (repository m) replaced) m2)))) m4 Hdb3) as Hprune.
  destruct (_prune_expired policy _ m4) as [[[]|e] m5]; [|discriminate]. unfold sbind at 1 in Eb.
  destruct (list_all_ok _ (pool_table _ Hprune)) as (entries & Hl & _). pose proof (evict_run policy m5 entries (pool_table _ Hprune) Hl) as Hev.
  destruct (_evict_if_needed policy m5) as [[[]|e] m6] eqn:Ee; [|discriminate]. apply (evicted_size policy m5 m6 (pool_table _ Hprune) Hmax) in Ee.
  split; [by destruct pqc; injection Eb as <- _ _|]. split; [done|]. assert (fee0 = fee) as -> by (by destruct pqc; injection Eb as _ <- _).
  split; [|by destruct pqc; injection Eb as _ <-].
  exists replaced. split; [done|]. intros id' t'' o Hh Hn Ho. by eapply admitted_disjoint; [apply Hp|..].
Qed.
End runs.
