(* ===== verification/PoolReconcile.v ===== *)
(** * The pool follows the chain

    After a change of the chain the pool is rebuilt by [reconcile]: what remains is
    unconfirmed and spends outputs that exist. *)

From S2P Require Import Prelude PyState PyOrder PyText Hashes Params Models Serialization Registry Economics Crypto Addresses Json Settlement Nodes Utxo UtxoStore RewardStore Validation ValidationFacts PqPolicy Mempool MempoolFacts.

Lemma triple_conj {S A} (P1 P2 : S -> Prop) (m : stm S A) (Q1 Q2 : A -> S -> Prop) (E1 E2 : exn -> S -> Prop) :
  triple P1 m Q1 E1 -> triple P2 m Q2 E2 -> triple (fun s => P1 s /\ P2 s) m (fun a s => Q1 a s /\ Q2 a s) (fun e s => E1 e s /\ E2 e s).
Proof. intros T1 T2 s [H1 H2]. specialize (T1 s H1). specialize (T2 s H2). by destruct (m s) as [[a|e] s']. Qed.

Lemma after_transaction_Some m t id h c o :
  is_Some (after_transaction m t id h c !! o) -> is_Some (m !! o) \/ op_txid o = id.
Proof.
  unfold after_transaction. assert (Hi : forall es m', Forall (fun e => op_txid e.1 = id) es -> is_Some (insert_all m' es !! o) -> is_Some (m' !! o) \/ op_txid o = id).
  { induction es as [|[o' e] es IH]; intros m' Hf Hs; simpl in Hs; [by left|]. apply Forall_cons in Hf as [Ho Hf].
    apply (IH _ Hf) in Hs as [Hs|?]; [|by right]. simpl in Hs. destruct (decide (o' = o)) as [->|Hne]; [by right|]. rewrite lookup_insert_ne in Hs by done. by left. }
  intros Hs. apply Hi in Hs as [Hs|?]; [|by right|].
  - left. rewrite remove_all_lookup in Hs. case_decide; [by destruct Hs|done].
  - apply Forall_forall. intros e He. unfold creates in He. apply list_elem_of_fmap in He as ([i out] & -> & _). done.
Qed.

(** What eviction leaves was there. *)
Lemma evicted_subset policy m m' : table_ok (repository m) -> _evict_if_needed policy m = (Ok tt, m') ->
  forall id t, holds (repository m') id t -> holds (repository m) id t.
Proof.
  intros Hok E. destruct (list_all_ok _ Hok) as (entries & Hl & _). rewrite (evict_run policy m entries Hok Hl) in E. injection E as <-.
  intros id t. simpl. unfold evict_db. destruct (_ <=? _); [done|]. intros Hh. by apply holds_removed in Hh as [? _].
Qed.

Section reconcile.
Context `{PyRepr, CryptoBackend} {B R : Type} `{UtxoViewLaws B} `{NodeRegistryView R}.
Variable chainstate : B.
Variable factory : OverlayUtxoView B -> res (ValidationContext (OverlayUtxoView B) R).
Variable known : str -> res (option Transaction).
Variable policy : MempoolPolicy.
Variable clock : nat -> Z.
Hypothesis factory_view : forall v context, factory v = Ok context -> utxo_view context = v.

Variable sources : list Transaction.

(** An output exists: it is unspent on the chain, or of one of these transactions *)
Definition backed (ts : list Transaction) (o : OutPoint) : Prop :=
  is_Some (utxo_map chainstate !! o) \/ exists t, t ∈ ts /\ txid t = Ok (op_txid o).

Definition entry_backed (e : MempoolEntry) : Prop :=
  pool_transaction e ∈ sources /\ (exists id, txid (pool_transaction e) = Ok id /\ known id = Ok None) /\
  Forall (backed sources) (spends (pool_transaction e)).

Record supports (p : Pending (B := B)) : Prop := {
  view_backed : forall o, is_Some (utxo_map (pending_view p) !! o) -> backed sources o;
  entries_backed : Forall entry_backed (pending_entries p);
}.

Lemma backed_spends t (context : ValidationContext (OverlayUtxoView B) R) fee :
  validate_transaction t context = Ok fee -> (forall o, is_Some (utxo_map (utxo_view context) !! o) -> backed sources o) -> Forall (backed sources) (spends t).
Proof.
  intros E Hv. unfold validate_transaction in E. apply rbind_Ok in E as ([] & Hl & E). destruct (is_coinbase_transaction t) eqn:Hc.
  { unfold is_coinbase_transaction in Hc. apply andb_prop in Hc as [Hi%bool_decide_eq_true _]. unfold spends. by rewrite Hi. }
  destruct (is_standard t) eqn:Hs.
  - apply standard_stateful in E as (Hf & _); [|done..]. rewrite <- enumerate_inputs, !Forall_fmap. eapply Forall_impl; [exact Hf|].
    intros p (entry & He & _). apply Hv. by exists entry.
  - apply nonstandard_empty in Hl as [Hi _]; [|done]. unfold spends. by rewrite Hi.
Qed.

Lemma readmit_checked_supports h p t added_at id :
  t ∈ sources -> txid t = Ok id -> known id = Ok None -> supports p ->
  triple (fun _ => True) (readmit_checked factory policy h p t added_at) (fun p' _ => supports p') (fun _ _ => True).
Proof.
  intros Ht Hid Hk [Hv He]. unfold readmit_checked. do 3 (apply triple_call; [done|]; intros [] _).
  apply triple_call; [done|]. intros fee Hfee. apply rbind_Ok in Hfee as (context & Hctx & Hval).
  eapply (triple_bind _ _ _ (fun _ _ => True)); [by intros m _; destruct (_enforce_policy policy t fee m) as [[[]|]]|].
  intros _. apply triple_call; [done|]. intros view Hview.
  eapply (triple_bind _ _ _ (fun _ _ => True)); [by apply triple_update|]. intros _ m _. simpl. split; simpl.
  - intros o Ho. pose proof (apply_map (pending_view p) t h false view) as Happly. simpl in Happly. destruct (Happly Hview) as (id' & Hid' & Hm). rewrite Hid in Hid'. injection Hid' as <-.
    change (overlay_map view) with (utxo_map view) in *. rewrite Hm in Ho. apply after_transaction_Some in Ho as [Ho|Ho]; [by apply Hv|].
    right. exists t. split; [exact Ht|]. rewrite Ho. exact Hid.
  - apply Forall_app. split; [exact He|]. constructor; [|constructor]. split; [exact Ht|]. split; [exists id; split; [exact Hid|exact Hk]|].
    eapply backed_spends; [exact Hval|]. by rewrite (factory_view _ _ Hctx).
Qed.

Lemma readmit_fast_supports h p t added_at :
  t ∈ sources -> supports p ->
  triple (fun _ => True) (readmit_fast factory known policy clock h p t added_at) (fun p' _ => supports p') (fun _ _ => True).
Proof.
  intros Ht Hp. unfold readmit_fast. eapply (triple_bind _ _ _ (fun _ _ => True)); [by intros m _|]. intros now.
  destruct (_is_expired _ _ _); [by intros m _|]. eapply (triple_bind _ _ _ (fun _ _ => True)).
  { intros m _. unfold attempt, sbind. destruct (_enforce_pre_validation_policy policy t m) as [[[]|e] m']; [done|]. by destruct (existsb _ _). }
  intros passed. destruct (negb passed); [by intros m _|]. apply triple_call; [done|]. intros id Hid. apply triple_call; [done|]. intros confirmed Hc.
  unfold _is_known_on_chain in Hc. apply rbind_Ok in Hc as (found & Hf & Hc). injection Hc as <-. destruct found; [by intros m _|].
  eapply (triple_attempt _ _ _ _ _ _ (fun _ _ => True)); [by apply (readmit_checked_supports h p t added_at id)|by intros e _ m _|done].
Qed.

Lemma readmit_all_supports {X} h (tx : X -> Transaction) (at_ : X -> Z) xs p :
  Forall (fun x => tx x ∈ sources) xs -> supports p ->
  triple (fun _ => True) (sfold (fun p x => readmit_fast factory known policy clock h p (tx x) (at_ x)) p xs) (fun p' _ => supports p') (fun _ _ => True).
Proof.
  intros Hf. revert p. induction Hf as [|x xs Hx _ IH]; intros p Hp; simpl; [by intros m _|].
  eapply (triple_bind _ _ _ (fun p' _ => supports p')); [by apply readmit_fast_supports|]. intros p' m Hp'. by apply (IH p' Hp').
Qed.

Lemma readmit_all_both {X} h (tx : X -> Transaction) (at_ : X -> Z) xs p m p' m' :
  Forall (fun x => tx x ∈ sources /\ canonical_tx (tx x) = tx x) xs -> supports p -> mirrors p m ->
  sfold (fun p x => readmit_fast factory known policy clock h p (tx x) (at_ x)) p xs m = (Ok p', m') -> supports p' /\ mirrors p' m'.
Proof.
  intros [Hs Hc]%Forall_and Hp Hm E. pose proof (readmit_all_supports h tx at_ xs p Hs Hp m I) as T1.
  pose proof (readmit_all_mirrors factory known policy clock h tx at_ xs p Hc m Hm) as T2. rewrite E in T1, T2. done.
Qed.

End reconcile.

Section pool.
Context `{PyRepr, CryptoBackend} {B R : Type} `{UtxoViewLaws B} `{NodeRegistryView R}.
Variable chainstate : B.
Variable factory : OverlayUtxoView B -> res (ValidationContext (OverlayUtxoView B) R).
Variable known : str -> res (option Transaction).
Variable policy : MempoolPolicy.
Variable clock : nat -> Z.

Lemma overlay_backed sources : supports chainstate known sources (mkPending (overlay_over chainstate) []).
Proof.
  split; [|constructor]. simpl. intros o Ho. rewrite overlay_map_lookup in Ho. simpl in Ho. rewrite decide_False in Ho by set_solver.
  rewrite map_empty_union in Ho. by left.
Qed.

Lemma pool_backed (m m' : MempoolManager) (extra : option (list Transaction)) :
  (forall v context, factory v = Ok context -> utxo_view context = v) ->
  pool_ok (repository m) -> Forall (fun t => canonical_tx t = t) (default [] extra) ->
  reconcile chainstate factory known policy clock extra m = (Ok tt, m') ->
  exists entries, mempool_list_all (repository m) = Ok entries /\ forall id t, holds (repository m') id t ->
    t ∈ (pool_transaction <$> entries) ++ default [] extra /\ known id = Ok None /\
    Forall (backed chainstate ((pool_transaction <$> entries) ++ default [] extra)) (spends t).
Proof.
  intros Hfac Hp Hx E. destruct (list_all_ok _ (pool_table _ Hp)) as (entries & Hl & _). exists entries. split; [done|].
  set (sources := (pool_transaction <$> entries) ++ default [] extra).
  unfold reconcile, sbind at 1, of_pool, asks in E. rewrite Hl in E. unfold sbind at 1, lift at 1 in E. rewrite (txids_of_listing _ _ (pool_table _ Hp) Hl) in E.
  unfold sbind at 1, clear, write_pool, update in E. cbn [rbind] in E. unfold sbind at 1, lift at 1 in E.
  destruct (factory (overlay_over chainstate)) as [context|] eqn:Hctx; [|discriminate]. unfold sbind at 1 in E.
  set (preserved := (sorted_by reconcile_key _).*1) in E. set (m1 := set_repository _ m) in E.
  destruct (sfold _ _ preserved m1) as [[p|e] m2] eqn:Ep; [|discriminate].
  assert (Hpres : Forall (fun e => pool_transaction e ∈ sources /\ canonical_tx (pool_transaction e) = pool_transaction e) preserved).
  { pose proof (listed_canonical _ _ (pool_table _ Hp) Hl) as Hcan. rewrite Forall_forall in *. intros e He.
    apply list_elem_of_fmap in He as ([e' i] & -> & He). apply elem_of_sorted_by, elem_of_zip_l in He. split; [|by apply Hcan].
    apply elem_of_app. left. by apply list_elem_of_fmap_2. }
  assert (Hm1 : mirrors (mkPending (overlay_over chainstate) []) m1) by (split; [apply pool_ok_clear|by intros i t (row & Hr & _)]).
  destruct (readmit_all_both chainstate factory known policy clock Hfac sources _ _ _ _ _ _ _ _ Hpres (overlay_backed sources) Hm1 Ep) as [Hs2 Hm2].
  unfold sbind at 1 in E.
  assert (Hextra : exists p' m3, (match extra with
              | None => ret p
              | Some extra => let! now := time_provider clock in sfold (fun p t => readmit_fast factory known policy clock (context_height context) p t now) p extra
              end) m2 = (Ok p', m3) /\ supports chainstate known sources p' /\ mirrors p' m3 /\ _evict_if_needed policy m3 = (Ok tt, m')).
  { match type of E with match ?x with _ => _ end = _ => destruct x as [[p'|e] m3] eqn:Ex end; [|discriminate]. exists p', m3. split; [done|].
    split_and!; [| |done]; destruct extra as [ts|]; try (injection Ex as <- <-; done); unfold sbind in Ex; rewrite time_run in Ex;
      (apply (readmit_all_both chainstate factory known policy clock Hfac sources _ (fun t => t) (fun _ => _)) in Ex; [by destruct Ex| |done|done]);
      simpl in Hx; apply Forall_forall; rewrite Forall_forall in Hx; intros t Ht; (split; [apply elem_of_app; by right|by apply Hx]). }
  destruct Hextra as (p' & m3 & _ & [_ Hb] & [Hp3 Hmir] & Hev). intros id t Hh.
  apply (evicted_subset policy _ _ (pool_table _ Hp3) Hev) in Hh. destruct (Hmir id t Hh) as (e & He & <-). rewrite Forall_forall in Hb.
  destruct (Hb e He) as (Hsrc & (id' & Hid' & Hk) & Hsp). destruct Hh as (row & _ & _ & _ & Hid). rewrite Hid' in Hid. injection Hid as <-. done.
Qed.
End pool.
