(* ===== verification/Mining.v ===== *)
(** * Block templates and mining ([node/mining.py])

    The selection of pending transactions by fee rate, the coinbase that pays the
    miner and the nodes of a settlement, the template of a block and the search for
    a nonce.  The [while] loop of the selection takes the number of candidates as
    its bound: a round that goes on has taken one of them. *)

From S2P Require Import Prelude PyOrder PyText Hashes Params Models Serialization Registry Economics Pow Merkle Crypto Addresses Json Settlement Nodes Utxo UtxoStore RewardStore Validation PqPolicy PyState Mempool.

Record BlockTemplate : Type := mkTemplate { template_block : Block; template_height : Z; template_fees : Z }.

(** A candidate, with its identifier, under which the source keeps it *)
Record TransactionSelection : Type := mkSelection { selection_entry : MempoolEntry; weight_units : Z }.
Abbreviation candidate := (str * TransactionSelection)%type.

Definition fee_chipbits (s : TransactionSelection) : Z := pool_fee (selection_entry s).
Definition selection_transaction (s : TransactionSelection) : Transaction := pool_transaction (selection_entry s).

Definition build_coinbase_transaction (h : Z) (miner_address : str) (miner_amount : Z) (rewarded_outputs : list TxOutput)
    (extra_metadata : gmap str str) : Transaction :=
  mkTransaction 1 [] (mkTxOutput miner_amount miner_address :: rewarded_outputs) 0
    (extra_metadata ∪ list_to_map [(u "coinbase", u "true"); (u "height", py_str_int h)]).

(** ** Order of the candidates *)

Definition _compare_transaction_selection (left right : candidate) : Z :=
  let left_score := fee_chipbits left.2 * weight_units right.2 in
  let right_score := fee_chipbits right.2 * weight_units left.2 in
  if negb (left_score =? right_score) then if right_score <? left_score then -1 else 1
  else if negb (fee_chipbits left.2 =? fee_chipbits right.2) then if fee_chipbits right.2 <? fee_chipbits left.2 then -1 else 1
  else if negb (pool_added_at (selection_entry left.2) =? pool_added_at (selection_entry right.2)) then
    if pool_added_at (selection_entry left.2) <? pool_added_at (selection_entry right.2) then -1 else 1
  else if negb (bool_decide (left.1 = right.1)) then if py_leb left.1 right.1 then -1 else 1
  else 0.

(** [cmp_to_key]: [left] may stand before [right] *)
Definition before (left right : candidate) : Prop := _compare_transaction_selection left right <= 0.
#[global] Instance before_dec : RelDecision before := fun x y => Z_le_dec _ _.

(** The dictionary of candidates, in the order of the pool *)
Definition selections_of (mempool_entries : list MempoolEntry) : res (list candidate) :=
  foldM (fun d e =>
    let* id := txid (pool_transaction e) in
    let* w := transaction_weight_units (pool_transaction e) in
    Ok (dict_set d id (mkSelection e w))) [] mempool_entries.

Definition has_key (d : list candidate) (id : str) : bool := bool_decide (is_Some (dict_get d id)).

Definition _has_unresolved_parent_dependency (t : Transaction) (selections : list candidate) (included : list str) (confirmed : gset str) : bool :=
  existsb (fun tx_input =>
    let parent := op_txid (previous_output tx_input) in
    (has_key selections parent && negb (bool_decide (parent ∈ included)))
    || (negb (has_key selections parent) && negb (bool_decide (parent ∈ confirmed)))) (inputs t).

(** [verifier_window_counts] of one bundle *)
Definition window_key (a : RewardAttestation) : Z * str := (check_window_index a, verifier_node_id a).
Definition count_windows (l : list RewardAttestation) : gmap (Z * str) Z :=
  foldl (fun d a => <[window_key a := default 0 (d !! window_key a) + 1]> d) ∅ l.

Section mining.
Context `{PyRepr, CryptoBackend} {R : Type} `{NodeRegistryView R}.
Variable params : ConsensusParams.

(** The local variables of the selection *)
Record Chosen : Type := mkChosen {
  included_txids : list str;
  included_entries : list MempoolEntry;
  current_weight_units : Z;
  current_pq_signature_cost : Z;
  included_attestation_bundle_count : Z;
  included_attestation_identities : gset identity;
  included_verifier_window_counts : gmap (Z * str) Z;
  chosen_registry : R;
}.

(** What becomes of a candidate: it waits, it is dropped, or it is taken *)
Inductive verdict : Type :=
| Waits
| Dropped
| Taken (c : Chosen).

Section selection.
Variables (h : Z) (net : str) (max_weight : Z) (confirmed : gset str) (fee_registry_count : Z) (selections : list candidate).

(** The context shares the staged registry. *)
Definition special_node_context (registry : R) : ValidationContext InMemoryUtxoView R :=
  mkContext h 0 params (mkUtxos ∅) net registry ∅ [] ∅ ∅ None None true (Some fee_registry_count).

(** The attestations a candidate adds, [None] when the block has no room for them *)
Definition attestations_added (t : Transaction) (c : Chosen) : res (option (list RewardAttestation)) :=
  if negb (has_kind REWARD_ATTESTATION_BUNDLE_KIND t) then Ok (Some [])
  else if max_attestation_bundles_per_block params <=? included_attestation_bundle_count c then Ok None
  else
    let* bundle := parse_reward_attestation_bundle_metadata (metadata t) in
    if existsb (fun a => bool_decide (attestation_identity a ∈ included_attestation_identities c)) (attestations bundle) then Ok None
    else if existsb (fun kv => max_attestations_per_verifier_per_window params <?
                                default 0 (included_verifier_window_counts c !! kv.1) + kv.2) (map_to_list (count_windows (attestations bundle))) then Ok None
    else Ok (Some (attestations bundle)).

(** The registry after a registry transaction, [None] when it is not valid there *)
Definition registry_after (t : Transaction) (registry : R) : res (option R) :=
  if negb (is_special_node_transaction t) then Ok (Some registry)
  else
    match (let* _ := validate_transaction t (special_node_context registry) in apply_special_node_transaction t h registry) with
    | Ok registry' => Ok (Some registry')
    | Raise e => if isinstance (exn_cls e) ValidationError || isinstance (exn_cls e) ValueError then Ok None else Raise e
    end.

Definition add_windows (counts : gmap (Z * str) Z) (l : list RewardAttestation) : gmap (Z * str) Z :=
  foldl (fun d kv => <[kv.1 := default 0 (d !! kv.1) + kv.2]> d) counts (map_to_list (count_windows l)).

Definition include (id : str) (s : TransactionSelection) (cost : Z) (added : list RewardAttestation) (registry : R) (c : Chosen) : Chosen :=
  mkChosen (included_txids c ++ [id]) (included_entries c ++ [selection_entry s]) (current_weight_units c + weight_units s)
    (current_pq_signature_cost c + cost)
    (included_attestation_bundle_count c + (if has_kind REWARD_ATTESTATION_BUNDLE_KIND (selection_transaction s) then 1 else 0))
    (list_to_set (attestation_identity <$> added) ∪ included_attestation_identities c)
    (add_windows (included_verifier_window_counts c) added) registry.

(** One turn of the inner loop *)
Definition consider (item : candidate) (c : Chosen) : res verdict :=
  let '(id, s) := item in
  let t := selection_transaction s in
  if _has_unresolved_parent_dependency t selections (included_txids c) confirmed then Ok Waits
  else
    let* room := attestations_added t c in
    match room with
    | None => Ok Dropped
    | Some added =>
        if max_weight <? current_weight_units c + weight_units s then Ok Dropped
        else
          let cost := pq_signature_cost t DEFAULT_PQ_POLICY_LIMITS in
          if max_pq_signature_cost_per_block DEFAULT_PQ_POLICY_LIMITS <? current_pq_signature_cost c + cost then Ok Dropped
          else
            let* registry := registry_after t (chosen_registry c) in
            match registry with
            | None => Ok Dropped
            | Some registry' => Ok (Taken (include id s cost added registry' c))
            end
    end.

Record Round : Type := mkRound { round_chosen : Chosen; next_pending : list candidate; progressed : bool }.

Definition one_turn (r : Round) (item : candidate) : res Round :=
  let* v := consider item (round_chosen r) in
  Ok (match v with
      | Waits => mkRound (round_chosen r) (next_pending r ++ [item]) (progressed r)
      | Dropped => r
      | Taken c => mkRound c (next_pending r) true
      end).

Fixpoint select_loop (fuel : nat) (pending : list candidate) (c : Chosen) : res Chosen :=
  match fuel with
  | O => raise OutOfFuel "_select_mempool_entries"
  | S n =>
      match pending with
      | [] => Ok c
      | _ =>
          let* r := foldM one_turn (mkRound c [] false) pending in
          if progressed r then select_loop n (next_pending r) (round_chosen r) else Ok (round_chosen r)
      end
  end.

(** Every round that goes on has taken a candidate. *)
Definition select_rounds (pending : list candidate) (c : Chosen) : res Chosen := select_loop (S (length pending)) pending c.
End selection.

Definition _select_mempool_entries (mempool_entries : list MempoolEntry) (h : Z) (net : str) (max_weight : Z) (confirmed : gset str)
    (node_registry_view : R) : res (list MempoolEntry) :=
  let* selections := selections_of mempool_entries in
  let pending := merge_sort before selections in
  let* fee_registry_count := reward_fee_node_count node_registry_view h params in
  let* c := select_rounds h net max_weight confirmed fee_registry_count selections pending
              (mkChosen [] [] 0 0 0 ∅ ∅ node_registry_view) in
  Ok (included_entries c).

(** ** The template *)

Fixpoint _included_epoch_settlement (ts : list Transaction) (h : Z) : res (option RewardSettlement) :=
  match ts with
  | [] => Ok None
  | t :: ts' =>
      if negb (has_kind REWARD_SETTLE_EPOCH_KIND t) then _included_epoch_settlement ts' h
      else
        let* settlement := parse_reward_settlement_metadata (metadata t) in
        if epoch_end_height settlement =? h then Ok (Some settlement) else _included_epoch_settlement ts' h
  end.

Definition _reward_outputs_for_settlement (settlement : option RewardSettlement) : list TxOutput :=
  match settlement with
  | None => []
  | Some s => (fun e => mkTxOutput (entry_reward_chipbits e) (entry_payout_address e)) <$> sorted_by selection_rank (reward_entries s)
  end.

Definition settlement_note (settlement : option RewardSettlement) : gmap str str :=
  match settlement with
  | None => ∅
  | Some s => list_to_map [(u "reward_settlement_epoch", py_str_int (settlement_epoch_index s));
                           (u "reward_settlement_rewarded_count", py_str_int (rewarded_node_count s));
                           (u "reward_settlement_submission_mode", submission_mode s)]
  end.

Definition weights_of (ts : list Transaction) : res Z := let* ws := mapM transaction_weight_units ts in Ok (zsum ws).

(** The weight that is left for transactions of the pool *)
Definition weight_left (h : Z) (miner_address : str) (system_transactions : list Transaction) : res Z :=
  let* coinbase_weight := transaction_weight_units (build_coinbase_transaction h miner_address 0 [] ∅) in
  let* system_weight := weights_of system_transactions in
  Ok (Z.max 0 (max_block_weight params - coinbase_weight - system_weight)).

Definition build_block_template (now : Z) (previous : str) (net : str) (h : Z) (miner_address : str) (target : Z)
    (mempool_entries : list MempoolEntry) (node_registry_view : R) (confirmed : gset str) (extra_coinbase_metadata : gmap str str)
    (system_transactions : list Transaction) : res BlockTemplate :=
  let* '(miner_subsidy, _) := subsidy_split_chipbits h params in
  let* max_weight := weight_left h miner_address system_transactions in
  let* selected := _select_mempool_entries mempool_entries h net max_weight confirmed node_registry_view in
  let fees := zsum (pool_fee <$> selected) in
  let included := system_transactions ++ (pool_transaction <$> selected) in
  let* settlement := _included_epoch_settlement included h in
  let coinbase := build_coinbase_transaction h miner_address (miner_subsidy + fees) (_reward_outputs_for_settlement settlement)
                    (settlement_note settlement ∪ extra_coinbase_metadata) in
  let* ids := mapM txid (coinbase :: included) in
  let* root := merkle_root ids in
  Ok (mkTemplate (mkBlock (mkBlockHeader 1 previous root now target 0) (coinbase :: included)) h fees).

(** ** Mining *)

Definition with_nonce (hdr : BlockHeader) (n : Z) : BlockHeader :=
  mkBlockHeader (header_version hdr) (previous_block_hash hdr) (header_merkle_root hdr) (timestamp hdr) (bits hdr) n.

Fixpoint try_nonces (template : BlockTemplate) (nonces : list Z) : res (option Block) :=
  match nonces with
  | [] => Ok None
  | n :: nonces' =>
      let hdr := with_nonce (header (template_block template)) n in
      let* found := verify_proof_of_work hdr in
      if found then Ok (Some (mkBlock hdr (transactions (template_block template)))) else try_nonces template nonces'
  end.

Definition mine_block (template : BlockTemplate) (start_nonce max_nonce_attempts : Z) : res (option Block) :=
  try_nonces template ((fun i => start_nonce + i) <$> zrange max_nonce_attempts).
End mining.
