(* ===== verification/MiningFacts.v ===== *)
(** * What a block template guarantees

    The transactions a template takes from the pool fit into a block, stand after
    their parents, and leave out no plain transaction that would still fit; the
    selection ends; the coinbase pays what validation expects; and mining returns
    the first nonce with enough work. *)

From S2P Require Import Prelude PyOrder PyText Hashes Params Models Serialization Registry Economics Pow Merkle Crypto Addresses Json Settlement Nodes Utxo UtxoStore RewardStore Validation ValidationFacts PqPolicy PyState Mempool Mining.

(** ** Counting windows *)

Definition window_total (k : Z * str) (l : list RewardAttestation) : Z := len (filter (fun a => window_key a = k) l).

Lemma window_total_app k l1 l2 : window_total k (l1 ++ l2) = window_total k l1 + window_total k l2.
Proof. unfold window_total, len. rewrite filter_app, length_app. lia. Qed.

Lemma window_total_nonneg k l : 0 <= window_total k l.
Proof. unfold window_total, len. lia. Qed.

Lemma count_windows_app l a :
  count_windows (l ++ [a]) = <[window_key a := default 0 (count_windows l !! window_key a) + 1]> (count_windows l).
Proof. unfold count_windows. by rewrite foldl_app. Qed.

Lemma count_windows_spec l k : default 0 (count_windows l !! k) = window_total k l.
Proof.
  induction l as [|a l IH] using rev_ind; [done|]. rewrite count_windows_app, window_total_app.
  unfold window_total at 2. rewrite filter_cons, filter_nil. destruct (decide (window_key a = k)) as [<-|Hne].
  - rewrite lookup_insert_eq. simpl. rewrite IH. unfold len. simpl. lia.
  - rewrite lookup_insert_ne by done. rewrite IH. unfold len. simpl. lia.
Qed.

Lemma count_windows_None l k : count_windows l !! k = None -> window_total k l = 0.
Proof. intros E. pose proof (count_windows_spec l k) as Hs. rewrite E in Hs. by rewrite <- Hs. Qed.

(** Adding the entries of a map to counters *)
Definition add_counts (counts : gmap (Z * str) Z) (kvs : list (Z * str * Z)) : gmap (Z * str) Z :=
  foldl (fun d kv => <[kv.1 := default 0 (d !! kv.1) + kv.2]> d) counts kvs.

Lemma add_counts_spec kvs counts k :
  NoDup kvs.*1 -> default 0 (add_counts counts kvs !! k) = default 0 (counts !! k) + default 0 (list_to_map (M := gmap _ _) kvs !! k).
Proof.
  unfold add_counts. revert counts. induction kvs as [|[k' v] kvs IH]; intros counts Hn; csimpl.
  - rewrite lookup_empty. simpl. lia.
  - csimpl in Hn. apply NoDup_cons in Hn as [Hni Hn]. rewrite IH by done. destruct (decide (k' = k)) as [->|Hne].
    + rewrite !lookup_insert_eq. simpl. rewrite (not_elem_of_list_to_map_1 kvs k) by done. simpl. lia.
    + by rewrite !lookup_insert_ne.
Qed.

Lemma add_windows_spec counts l k :
  default 0 (add_windows counts l !! k) = default 0 (counts !! k) + window_total k l.
Proof.
  unfold add_windows. fold (add_counts counts (map_to_list (count_windows l))).
  rewrite add_counts_spec by apply NoDup_fst_map_to_list. by rewrite list_to_map_to_list, count_windows_spec.
Qed.

(** ** The order of the candidates *)

Lemma compare_flip x y : _compare_transaction_selection x y <= 0 \/ _compare_transaction_selection y x <= 0.
Proof.
  unfold _compare_transaction_selection. rewrite (Z.eqb_sym (fee_chipbits y.2 * _)), (Z.eqb_sym (fee_chipbits y.2) (fee_chipbits x.2)),
    (Z.eqb_sym (pool_added_at (selection_entry y.2))).
  rewrite (bool_decide_ext (y.1 = x.1) (x.1 = y.1)) by (split; congruence).
  destruct (Z.eqb_spec (fee_chipbits x.2 * weight_units y.2) (fee_chipbits y.2 * weight_units x.2)); cbn [negb];
    [|destruct (Z.ltb_spec (fee_chipbits y.2 * weight_units x.2) (fee_chipbits x.2 * weight_units y.2)); [left; lia|]; right;
      destruct (Z.ltb_spec (fee_chipbits x.2 * weight_units y.2) (fee_chipbits y.2 * weight_units x.2)); lia].
  destruct (Z.eqb_spec (fee_chipbits x.2) (fee_chipbits y.2)); cbn [negb];
    [|destruct (Z.ltb_spec (fee_chipbits y.2) (fee_chipbits x.2)); [left; lia|]; right; destruct (Z.ltb_spec (fee_chipbits x.2) (fee_chipbits y.2)); lia].
  destruct (Z.eqb_spec (pool_added_at (selection_entry x.2)) (pool_added_at (selection_entry y.2))); cbn [negb];
    [|destruct (Z.ltb_spec (pool_added_at (selection_entry x.2)) (pool_added_at (selection_entry y.2))); [left; lia|]; right;
      destruct (Z.ltb_spec (pool_added_at (selection_entry y.2)) (pool_added_at (selection_entry x.2))); lia].
  case_bool_decide; cbn [negb]; [left; lia|]. destruct (py_leb x.1 y.1) eqn:E; [left; lia|right]. apply py_leb_false in E. unfold py_le in E. rewrite E. lia.
Qed.

#[global] Instance before_total : Total before.
Proof. intros x y. apply compare_flip. Qed.

(** A higher or equal fee per unit of weight *)
Definition rate_ge (x y : candidate) : Prop := fee_chipbits y.2 * weight_units x.2 <= fee_chipbits x.2 * weight_units y.2.
Definition heavier (x y : candidate) : Prop := 0 < weight_units x.2 /\ 0 < weight_units y.2 /\ rate_ge x y.

Lemma before_rate x y : before x y -> rate_ge x y.
Proof.
  unfold before, rate_ge, _compare_transaction_selection.
  destruct (Z.eqb_spec (fee_chipbits x.2 * weight_units y.2) (fee_chipbits y.2 * weight_units x.2)); cbn [negb]; [lia|].
  destruct (Z.ltb_spec (fee_chipbits y.2 * weight_units x.2) (fee_chipbits x.2 * weight_units y.2)); lia.
Qed.

Lemma heavier_trans : Transitive heavier.
Proof.
  intros x y z (Hx & Hy & R1) (_ & Hz & R2). split; [done|]. split; [done|]. unfold rate_ge in *.
  apply (Z.mul_le_mono_pos_r _ _ (weight_units y.2)); [done|]. nia.
Qed.

Lemma ordered_by_rate l : Forall (fun x => 0 < weight_units x.2) l -> Sorted before l -> StronglySorted heavier l.
Proof.
  intros Hf Hs. apply Sorted_StronglySorted; [exact heavier_trans|]. induction Hs as [|x l Hs IH Hh]; [constructor|].
  apply Forall_cons in Hf as [Hx Hf]. constructor; [by apply IH|]. destruct Hh as [|y l Hb]; constructor.
  apply Forall_cons in Hf as [Hy _]. split; [done|]. split; [done|]. by apply before_rate.
Qed.

Lemma StronglySorted_sublist {A} (Q : relation A) l k : sublist l k -> StronglySorted Q k -> StronglySorted Q l.
Proof.
  induction 1 as [|x l k Hs IH|x l k Hs IH]; intros Hk; [constructor| |].
  - apply StronglySorted_inv in Hk as [Hk Hf]. constructor; [by apply IH|]. rewrite Forall_forall in *. intros y Hy. apply Hf. by eapply elem_of_sublist.
  - apply StronglySorted_inv in Hk as [Hk _]. by apply IH.
Qed.

Lemma weight_positive t w : transaction_weight_units t = Ok w -> 0 < w.
Proof.
  unfold transaction_weight_units, serialize_transaction. intros E. apply rbind_Ok in E as (raw & Hr & E). injection E as <-.
  apply rbind_Ok in Hr as (ver & Hv%pack_length & Hr). inv_ok. unfold len in *. rewrite length_app. lia.
Qed.

(** ** One candidate *)

Definition bundle_of `{PyRepr} (t : Transaction) : res (list RewardAttestation) :=
  if negb (has_kind REWARD_ATTESTATION_BUNDLE_KIND t) then Ok []
  else let* bundle := parse_reward_attestation_bundle_metadata (metadata t) in Ok (attestations bundle).

Definition is_bundle (x : candidate) : bool := has_kind REWARD_ATTESTATION_BUNDLE_KIND (selection_transaction x.2).
Definition pq_cost (x : candidate) : Z := pq_signature_cost (selection_transaction x.2) DEFAULT_PQ_POLICY_LIMITS.

(** Transactions that neither change the registry nor carry attestations *)
Definition plain (t : Transaction) : Prop :=
  has_kind REWARD_ATTESTATION_BUNDLE_KIND t = false /\ is_special_node_transaction t = false.

Section selection.
Context `{PyRepr, CryptoBackend} {R : Type} `{NodeRegistryView R}.
Variables (params : ConsensusParams) (h : Z) (net : str) (max_weight : Z) (confirmed : gset str) (fee_count : Z) (selections : list candidate).

Local Abbreviation Chosen := (@Chosen R).
Local Abbreviation consider := (consider params h net max_weight confirmed fee_count selections).
Local Abbreviation one_turn := (one_turn params h net max_weight confirmed fee_count selections).
Local Abbreviation select_loop := (select_loop params h net max_weight confirmed fee_count selections).
Definition waiting (x : candidate) (ids : list str) : bool :=
  _has_unresolved_parent_dependency (selection_transaction x.2) selections ids confirmed.

(** What was taken, with the attestations it added: the state is a function of it. *)
Record tracks (c : Chosen) (taken : list candidate) (added : list (list RewardAttestation)) : Prop := {
  track_ids : included_txids c = taken.*1;
  track_entries : included_entries c = selection_entry <$> taken.*2;
  track_weight : current_weight_units c = zsum (weight_units <$> taken.*2);
  track_cost : current_pq_signature_cost c = zsum (pq_cost <$> taken);
  track_bundles : included_attestation_bundle_count c = len (filter (fun x => is_bundle x = true) taken);
  track_identities : included_attestation_identities c = list_to_set (attestation_identity <$> concat added);
  track_windows : forall k, default 0 (included_verifier_window_counts c !! k) = window_total k (concat added);
}.

(** The limits of a block *)
Record within (taken : list candidate) (added : list (list RewardAttestation)) : Prop := {
  within_weight : zsum (weight_units <$> taken.*2) <= Z.max 0 max_weight;
  within_cost : zsum (pq_cost <$> taken) <= max_pq_signature_cost_per_block DEFAULT_PQ_POLICY_LIMITS;
  within_bundles : len (filter (fun x => is_bundle x = true) taken) <= Z.max 0 (max_attestation_bundles_per_block params);
  within_parsed : Forall2 (fun x l => bundle_of (selection_transaction x.2) = Ok l) taken added;
  within_windows : forall k, window_total k (concat added) <= Z.max 0 (max_attestations_per_verifier_per_window params);
  within_identities : forall pre l post, added = pre ++ l :: post ->
    forall a b, a ∈ concat pre -> b ∈ l -> attestation_identity a ≠ attestation_identity b;
  within_parents : forall pre x post, taken = pre ++ x :: post -> waiting x pre.*1 = false;
}.

Lemma attestations_added_spec t (c : Chosen) l :
  attestations_added params t c = Ok (Some l) ->
  bundle_of t = Ok l /\
  (has_kind REWARD_ATTESTATION_BUNDLE_KIND t = true ->
    included_attestation_bundle_count c < max_attestation_bundles_per_block params /\
    Forall (fun a => attestation_identity a ∉ included_attestation_identities c) l /\
    forall k, window_total k l = 0 \/ default 0 (included_verifier_window_counts c !! k) + window_total k l <= max_attestations_per_verifier_per_window params) /\
  (has_kind REWARD_ATTESTATION_BUNDLE_KIND t = false -> l = []).
Proof.
  unfold attestations_added, bundle_of. destruct (has_kind _ t); cbn [negb]; [|by intros [= <-]].
  destruct (_ <=? _) eqn:Ec; [discriminate|]. intros E. apply rbind_Ok in E as (bundle & -> & E). cbn [rbind].
  destruct (existsb _ (attestations bundle)) eqn:Ei; [discriminate|]. destruct (existsb _ (map_to_list _)) eqn:Ew; [discriminate|].
  injection E as <-. bool_prop. split; [done|]. split; [|done]. intros _. split; [lia|]. split.
  - apply Forall_forall. intros a Ha Hin. apply not_true_iff_false in Ei. apply Ei, existsb_exists. exists a.
    split; [by apply list_elem_of_In|by apply bool_decide_eq_true].
  - intros k. destruct (count_windows (attestations bundle) !! k) as [n|] eqn:Ek; [right|left; by apply count_windows_None].
    rewrite <- (count_windows_spec (attestations bundle) k), Ek. simpl. apply Z.nlt_ge. intros Hlt. apply not_true_iff_false in Ew.
    apply Ew, existsb_exists. exists (k, n). split; [by apply list_elem_of_In, elem_of_map_to_list|]. simpl. lia.
Qed.

(** The three verdicts *)
Lemma consider_spec x (c : Chosen) v :
  consider x c = Ok v ->
  match v with
  | Waits => waiting x (included_txids c) = true
  | Dropped => waiting x (included_txids c) = false /\
      (plain (selection_transaction x.2) -> max_weight < current_weight_units c + weight_units x.2 \/
        max_pq_signature_cost_per_block DEFAULT_PQ_POLICY_LIMITS < current_pq_signature_cost c + pq_cost x)
  | Taken c' => waiting x (included_txids c) = false /\ exists l registry,
      attestations_added params (selection_transaction x.2) c = Ok (Some l) /\ c' = include x.1 x.2 (pq_cost x) l registry c /\
      current_weight_units c + weight_units x.2 <= max_weight /\
      current_pq_signature_cost c + pq_cost x <= max_pq_signature_cost_per_block DEFAULT_PQ_POLICY_LIMITS
  end.
Proof.
  destruct x as [id s]. unfold Mining.consider, waiting. simpl. destruct (_has_unresolved_parent_dependency _ _ _ _); [by intros [= <-]|].
  intros E. apply rbind_Ok in E as (room & Hroom & E). destruct room as [l|]; [|injection E as <-; split; [done|]].
  2: { intros [Hp _]. unfold attestations_added in Hroom. rewrite Hp in Hroom. discriminate. }
  destruct (_ <? _) eqn:Ew; [injection E as <-; split; [done|]; intros _; left; bool_prop; lia|].
  fold (pq_cost (id, s)) in E. change (pq_signature_cost (selection_transaction s) DEFAULT_PQ_POLICY_LIMITS) with (pq_cost (id, s)) in E.
  destruct (_ <? _) eqn:Ec in E; [injection E as <-; split; [done|]; intros _; right; bool_prop; lia|].
  apply rbind_Ok in E as (registry & Hreg & E). destruct registry as [registry|]; injection E as <-; split; try done.
  - exists l, registry. bool_prop. repeat split; [done|lia..].
  - intros [_ Hp]. unfold registry_after in Hreg. rewrite Hp in Hreg. discriminate.
Qed.

(** Appending to a list: the last element or an earlier one *)
Lemma app_snoc_split {A} (l : list A) y pre x post :
  l ++ [y] = pre ++ x :: post -> (pre = l /\ x = y /\ post = []) \/ exists post', post = post' ++ [y] /\ l = pre ++ x :: post'.
Proof.
  intros E. destruct post as [|z post _] using rev_ind.
  - left. apply app_inj_tail in E as [-> ->]. done.
  - right. exists post. rewrite app_comm_cons, app_assoc in E. apply app_inj_tail in E as [-> ->]. done.
Qed.

(** Taking a candidate keeps the account and the limits. *)
Lemma tracks_include c taken added x l registry :
  tracks c taken added -> attestations_added params (selection_transaction x.2) c = Ok (Some l) ->
  tracks (include x.1 x.2 (pq_cost x) l registry c) (taken ++ [x]) (added ++ [l]).
Proof.
  intros [Hi He Hw Hc Hb Hd Hk] Ha%attestations_added_spec.
  split; cbn [include included_txids included_entries current_weight_units current_pq_signature_cost included_attestation_bundle_count included_attestation_identities included_verifier_window_counts]; rewrite ?fmap_app, ?zsum_app, ?concat_app; csimpl; rewrite ?app_nil_r.
  - by rewrite Hi.
  - by rewrite He.
  - lia.
  - lia.
  - rewrite Hb, filter_app, filter_cons, filter_nil. unfold len. rewrite length_app.
    change (is_bundle x) with (has_kind REWARD_ATTESTATION_BUNDLE_KIND (selection_transaction x.2)). destruct (has_kind _ _); simpl; lia.
  - rewrite Hd, fmap_app, list_to_set_app_L. set_solver.
  - intros k. by rewrite add_windows_spec, Hk, window_total_app.
Qed.

Lemma within_include c taken added x l :
  tracks c taken added -> within taken added -> waiting x taken.*1 = false ->
  attestations_added params (selection_transaction x.2) c = Ok (Some l) ->
  current_weight_units c + weight_units x.2 <= max_weight ->
  current_pq_signature_cost c + pq_cost x <= max_pq_signature_cost_per_block DEFAULT_PQ_POLICY_LIMITS ->
  within (taken ++ [x]) (added ++ [l]).
Proof.
  intros [Hi He Hw Hc Hb Hd Hk] [Ww Wc Wb Wp Ww' Wi Wt] Hwait (Hl & Hyes & Hno)%attestations_added_spec Hweight Hcost.
  split; rewrite ?fmap_app, ?zsum_app, ?concat_app; csimpl; rewrite ?app_nil_r.
  - lia.
  - lia.
  - rewrite filter_app, filter_cons, filter_nil. unfold len in *. rewrite length_app. change (is_bundle x) with (has_kind REWARD_ATTESTATION_BUNDLE_KIND (selection_transaction x.2)).
    destruct (has_kind _ _); simpl; [|lia]. destruct (Hyes eq_refl) as [? _]. lia.
  - apply Forall2_app; [done|by constructor].
  - intros k. rewrite window_total_app. destruct (has_kind _ (selection_transaction x.2)) eqn:E.
    + destruct (Hyes eq_refl) as (_ & _ & Hcap). specialize (Hcap k). specialize (Ww' k). rewrite Hk in Hcap. lia.
    + rewrite (Hno eq_refl). specialize (Ww' k). unfold window_total at 2. unfold len. simpl. lia.
  - intros pre l' post E a b Hin Hb'. apply app_snoc_split in E as [(-> & -> & ->)|(post' & -> & E)]; [|by eapply Wi].
    destruct (has_kind _ (selection_transaction x.2)) eqn:Ek; [|rewrite (Hno eq_refl) in Hb'; by apply not_elem_of_nil in Hb'].
    destruct (Hyes eq_refl) as (_ & Hf & _). rewrite Forall_forall in Hf. intros Eq. apply (Hf b Hb'). rewrite Hd, <- Eq.
    apply elem_of_list_to_set, list_elem_of_fmap. by exists a.
  - intros pre y post E. apply app_snoc_split in E as [(-> & -> & ->)|(post' & -> & E)]; [done|by eapply Wt].
Qed.

(** A candidate that was dropped although it is plain does not fit any more. *)
Definition full_for (taken : list candidate) (x : candidate) : Prop :=
  max_weight < zsum (weight_units <$> taken.*2) + weight_units x.2 \/
  max_pq_signature_cost_per_block DEFAULT_PQ_POLICY_LIMITS < zsum (pq_cost <$> taken) + pq_cost x.

Definition sized (x : candidate) : Prop := 0 <= weight_units x.2.

Lemma pq_cost_nonneg x : 0 <= pq_cost x.
Proof. unfold pq_cost, pq_signature_cost. apply Z.mul_nonneg_nonneg; [unfold pq_sigop_count, len; lia|done]. Qed.

Lemma zsum_nonneg {A} (f : A -> Z) l : Forall (fun x => 0 <= f x) l -> 0 <= zsum (f <$> l).
Proof. unfold zsum. induction 1; csimpl; lia. Qed.

Lemma full_for_more taken more x : Forall sized more -> full_for taken x -> full_for (taken ++ more) x.
Proof.
  intros Hs. unfold full_for. rewrite !fmap_app, !zsum_app.
  assert (0 <= zsum (weight_units <$> more.*2)) by (apply zsum_nonneg, Forall_fmap; exact Hs).
  assert (0 <= zsum (pq_cost <$> more)) by (apply zsum_nonneg, Forall_forall; intros ? _; apply pq_cost_nonneg). lia.
Qed.

(** The account of a selection under way: every candidate was taken, is pending or
    was dropped. *)
Record account (c : Chosen) (pending taken : list candidate) (added : list (list RewardAttestation)) : Prop := {
  account_tracks : tracks c taken added;
  account_within : within taken added;
  account_distinct : NoDup (taken ++ pending).*1;
  account_candidates : forall x, x ∈ taken ++ pending -> x ∈ selections;
  account_dropped : forall x, x ∈ selections -> plain (selection_transaction x.2) -> x ∈ taken ++ pending \/ full_for taken x;
}.

Hypothesis all_sized : Forall sized selections.

Lemma account_drop c x pending taken added :
  account c (x :: pending) taken added -> (plain (selection_transaction x.2) -> full_for taken x) -> account c pending taken added.
Proof.
  intros [Ht Hw Hd Hc Hp] Hf. split; [done|done| | |].
  - rewrite fmap_app in *. csimpl in Hd. by rewrite <- Permutation_middle in Hd; apply NoDup_cons in Hd as [_ ?].
  - intros y Hy. apply Hc. rewrite elem_of_app in *. rewrite elem_of_cons. tauto.
  - intros y Hy Hpl. destruct (Hp y Hy Hpl) as [Hin|?]; [|by right]. rewrite elem_of_app, elem_of_cons in Hin. rewrite elem_of_app.
    destruct Hin as [?|[->|?]]; [tauto|right; by apply Hf|tauto].
Qed.

Lemma account_take c x pending taken added l registry :
  account c (x :: pending) taken added -> waiting x taken.*1 = false ->
  attestations_added params (selection_transaction x.2) c = Ok (Some l) ->
  current_weight_units c + weight_units x.2 <= max_weight ->
  current_pq_signature_cost c + pq_cost x <= max_pq_signature_cost_per_block DEFAULT_PQ_POLICY_LIMITS ->
  account (include x.1 x.2 (pq_cost x) l registry c) pending (taken ++ [x]) (added ++ [l]).
Proof.
  intros [Ht Hw Hd Hc Hp] Hwait Ha Hwe Hco. split; rewrite <- ?(assoc_L (++)); simpl.
  - by apply tracks_include.
  - by eapply within_include.
  - done.
  - done.
  - intros y Hy Hpl. destruct (Hp y Hy Hpl) as [?|?]; [by left|right]. apply full_for_more; [|done].
    constructor; [|done]. rewrite Forall_forall in all_sized. apply all_sized, Hc, elem_of_app. right. left.
Qed.

Lemma account_permute c pending pending' taken added :
  pending ≡ₚ pending' -> account c pending taken added -> account c pending' taken added.
Proof.
  intros Hperm [Ht Hw Hd Hc Hp]. split; [done|done| | |].
  - by rewrite fmap_app, <- Hperm, <- fmap_app.
  - intros x. rewrite <- Hperm. apply Hc.
  - intros x. rewrite <- Hperm. apply Hp.
Qed.

(** One round over the pending candidates *)
Lemma round_account items c next p r taken added :
  foldM one_turn (mkRound c next p) items = Ok r -> account c (next ++ items) taken added ->
  exists more madded kept,
    account (round_chosen r) (next_pending r) (taken ++ more) (added ++ madded) /\
    next_pending r = next ++ kept /\ progressed r = p || negb (bool_decide (more = [])) /\
    sublist more items /\ sublist kept items /\
    Forall (fun x => exists m', m' `prefix_of` more /\ waiting x (taken ++ m').*1 = true) kept.
Proof.
  revert c next p taken added. induction items as [|x items IH]; intros c next p taken added E Hacc; cbn [foldM] in E.
  { injection E as <-. exists [], [], []. rewrite !app_nil_r in *. simpl. rewrite orb_false_r. split_and!; done. }
  apply rbind_Ok in E as (r1 & E1 & E). unfold Mining.one_turn in E1. apply rbind_Ok in E1 as (v & Hv%consider_spec & E1). injection E1 as <-.
  simpl in Hv. pose proof (track_ids _ _ _ (account_tracks _ _ _ _ Hacc)) as Hids. rewrite Hids in Hv. destruct v as [| |c1].
  - simpl in E. apply IH with (taken := taken) (added := added) in E; [|by rewrite <- (assoc_L (++))].
    destruct E as (more & madded & kept & Ha & Hn & Hp & Hs & Hl & Hk). exists more, madded, (x :: kept). split; [done|].
    split; [by rewrite Hn, <- (assoc_L (++))|]. split; [done|]. split; [by constructor|]. split; [by constructor|]. constructor; [|done].
    exists []. rewrite app_nil_r. split; [apply prefix_nil|done].
  - destruct Hv as [_ Hf]. simpl in E. apply IH with (taken := taken) (added := added) in E.
    + destruct E as (more & madded & kept & Ha & Hn & Hp & Hs & Hl & Hk). exists more, madded, kept. split_and!; [done..|by constructor|by constructor|done].
    + apply (account_drop _ x); [by apply (account_permute _ (next ++ x :: items)); [rewrite Permutation_middle|]|].
      intros Hpl. specialize (Hf Hpl). unfold full_for. destruct (account_tracks _ _ _ _ Hacc) as [_ _ Hw Hc _ _ _]. by rewrite <- Hw, <- Hc.
  - destruct Hv as (Hwait & l & registry & Hadd & -> & Hwe & Hco). simpl in E.
    apply IH with (taken := taken ++ [x]) (added := added ++ [l]) in E.
    + destruct E as (more & madded & kept & Ha & Hn & Hp & Hs & Hl & Hk). rewrite <- !(assoc_L (++)) in Ha. simpl in Ha.
      exists (x :: more), (l :: madded), kept. split; [done|]. split; [done|]. split; [rewrite Hp, (bool_decide_false (x :: more = [])) by done; by rewrite orb_true_r|]. split; [by constructor|].
      split; [by constructor|]. eapply Forall_impl; [exact Hk|]. intros y (m' & Hm & Hy). exists (x :: m').
      split; [by apply prefix_cons|]. by rewrite <- (assoc_L (++)) in Hy.
    + apply account_take; [|done..]. by apply (account_permute _ (next ++ x :: items)); [rewrite Permutation_middle|].
Qed.

(** The whole loop: what is still pending waits for a parent that was not taken. *)
Lemma loop_account fuel pending c c' taken added :
  select_loop fuel pending c = Ok c' -> account c pending taken added ->
  exists more madded waiters, account c' waiters (taken ++ more) (added ++ madded) /\
    Forall (fun x => waiting x (taken ++ more).*1 = true) waiters /\ (forall x, x ∈ more -> x ∈ pending).
Proof.
  revert pending c taken added. induction fuel as [|fuel IH]; intros pending c taken added E Hacc; cbn [Mining.select_loop] in E; [discriminate|].
  destruct pending as [|x0 pending0]; [injection E as <-; exists [], [], []; rewrite !app_nil_r; by split_and!|].
  apply rbind_Ok in E as (r & Hr & E). apply (round_account _ _ [] false r taken added) in Hr; [|done].
  destruct Hr as (more & madded & kept & Ha & Hn & Hp & Hs & Hs' & Hk). destruct (progressed r) eqn:Epr.
  - apply (IH _ _ _ _ E) in Ha as (more2 & madded2 & waiters & Ha & Hw & Hin). exists (more ++ more2), (madded ++ madded2), waiters.
    rewrite !(assoc_L (++)). split; [done|]. split; [done|]. rewrite Hn in Hin. intros x [Hx|Hx]%elem_of_app;
      [by eapply elem_of_sublist; [exact Hx|]|by eapply elem_of_sublist; [apply Hin, Hx|]].
  - injection E as <-. case_bool_decide as Hm; [|discriminate]. subst more. exists [], madded, (next_pending r). split; [done|].
    split; [|by intros ? ?%not_elem_of_nil]. simpl in Hn. rewrite Hn. eapply Forall_impl; [exact Hk|]. intros x (m' & Hm & Hx). by apply prefix_nil_inv in Hm as ->.
Qed.

(** A round that goes on leaves fewer candidates. *)
Lemma round_shorter items rd r :
  foldM one_turn rd items = Ok r -> (length (next_pending r) <= length (next_pending rd) + length items)%nat /\
  (progressed rd = false -> progressed r = true -> length (next_pending r) < length (next_pending rd) + length items)%nat.
Proof.
  revert rd. induction items as [|x items IH]; intros rd E; cbn [foldM] in E.
  { injection E as <-. simpl. split; [lia|congruence]. }
  apply rbind_Ok in E as (r1 & E1 & E). apply IH in E as [Hle Hlt]. unfold Mining.one_turn in E1.
  apply rbind_Ok in E1 as (v & _ & E1). injection E1 as <-. destruct v; cbn [next_pending progressed] in *; rewrite ?length_app in *; simpl in *;
    split; try lia; intros Hp Hr; try specialize (Hlt Hp Hr); lia.
Qed.

Lemma loop_bound fuel1 fuel2 pending c :
  (length pending < fuel1)%nat -> (length pending < fuel2)%nat -> select_loop fuel1 pending c = select_loop fuel2 pending c.
Proof.
  revert fuel2 pending c. induction fuel1 as [|fuel1 IH]; intros [|fuel2] pending c L1 L2; try lia. cbn [Mining.select_loop].
  destruct pending as [|x pending]; [done|]. destruct (foldM one_turn _ _) as [r|e] eqn:Hr; [|done]. cbn [rbind].
  apply round_shorter in Hr as [_ Hlt]. destruct (progressed r); [|done]. specialize (Hlt eq_refl eq_refl). simpl in *. apply IH; lia.
Qed.

(** The rounds end: the loop of the source, which goes on as long as a round has
    taken a transaction, is the model's loop without its bound. *)
Theorem selection_rounds_end (pending : list candidate) (c : Chosen) :
  select_rounds params h net max_weight confirmed fee_count selections pending c =
  match pending with
  | [] => Ok c
  | _ => let* r := foldM one_turn (mkRound c [] false) pending in
         if progressed r then select_rounds params h net max_weight confirmed fee_count selections (next_pending r) (round_chosen r)
         else Ok (round_chosen r)
  end.
Proof.
  unfold select_rounds at 1. cbn [Mining.select_loop]. destruct pending as [|x pending]; [done|].
  destruct (foldM one_turn _ _) as [r|e] eqn:Hr; [|done]. cbn [rbind]. apply round_shorter in Hr as [_ Hlt].
  destruct (progressed r); [|done]. specialize (Hlt eq_refl eq_refl). unfold select_rounds. apply loop_bound; cbn [next_pending length plus] in *; lia.
Qed.
End selection.

(** ** The candidates of a pool *)

Definition candidate_of (entries : list MempoolEntry) (x : candidate) : Prop :=
  txid (selection_transaction x.2) = Ok x.1 /\ transaction_weight_units (selection_transaction x.2) = Ok (weight_units x.2) /\
  selection_entry x.2 ∈ entries.

Lemma weight_nonneg t w : transaction_weight_units t = Ok w -> 0 <= w.
Proof. unfold transaction_weight_units. intros E. apply rbind_Ok in E as (raw & _ & E). injection E as <-. unfold len. lia. Qed.

Lemma selections_loop entries all d sel :
  foldM (fun d e => let* id := txid (pool_transaction e) in let* w := transaction_weight_units (pool_transaction e) in
                    Ok (dict_set d id (mkSelection e w))) d entries = Ok sel ->
  (forall e, e ∈ entries -> e ∈ all) -> NoDup d.*1 -> Forall (candidate_of all) d ->
  NoDup sel.*1 /\ Forall (candidate_of all) sel /\ (forall id, id ∈ sel.*1 <-> id ∈ d.*1 \/ exists e, e ∈ entries /\ txid (pool_transaction e) = Ok id).
Proof.
  revert d. induction entries as [|e entries IH]; intros d E Hsub Hn Hf; cbn [foldM] in E.
  { injection E as <-. split; [done|]. split; [done|]. intros id. split; [by left|]. intros [?|(e & He & _)]; [done|by apply not_elem_of_nil in He]. }
  apply rbind_Ok in E as (d' & E1 & E). apply rbind_Ok in E1 as (id & Hid & E1). apply rbind_Ok in E1 as (w & Hw & E1). injection E1 as <-.
  apply IH in E; [|by intros ? ?; apply Hsub; right|by apply dict_set_NoDup|].
  - destruct E as (Hn' & Hf' & Hk). split; [done|]. split; [done|]. intros i. rewrite Hk, dict_set_keys. split.
    + intros [Hi|(e' & He & Hi)]; [|right; exists e'; split; [by right|done]]. destruct (decide (id ∈ d.*1)); [by left|].
      apply elem_of_app in Hi as [?|Hi]; [by left|]. apply list_elem_of_singleton in Hi as ->. right. exists e. split; [by left|done].
    + intros [Hi|(e' & [->|He]%elem_of_cons & Hi)].
      * left. case_decide; [done|]. apply elem_of_app. by left.
      * left. rewrite Hid in Hi. injection Hi as ->. case_decide; [done|]. apply elem_of_app. right. by left.
      * right. by exists e'.
  - apply Forall_forall. intros x [->|Hx]%dict_set_elem; [|by rewrite Forall_forall in Hf; apply Hf]. split_and!; simpl; [done..|apply Hsub; left].
Qed.

Lemma selections_of_spec entries sel :
  selections_of entries = Ok sel ->
  NoDup sel.*1 /\ Forall (candidate_of entries) sel /\ (forall id, id ∈ sel.*1 <-> exists e, e ∈ entries /\ txid (pool_transaction e) = Ok id).
Proof.
  intros E. apply (selections_loop _ entries) in E; [|done|constructor|constructor]. destruct E as (Hn & Hf & Hk). split; [done|]. split; [done|].
  intros id. rewrite Hk. split; [intros [Hi|?]; [by apply not_elem_of_nil in Hi|done]|by right].
Qed.

Lemma candidates_sized entries sel : Forall (candidate_of entries) sel -> Forall sized sel.
Proof. intros Hf. eapply Forall_impl; [exact Hf|]. intros x (_ & Hw & _). by eapply weight_nonneg. Qed.

Lemma mapM_candidates {B} (f : Transaction -> res B) (g : candidate -> B) taken :
  Forall (fun x => f (selection_transaction x.2) = Ok (g x)) taken ->
  mapM f (pool_transaction <$> (selection_entry <$> taken.*2)) = Ok (g <$> taken).
Proof. induction 1 as [|x taken Hx _ IH]; [done|]. csimpl. fold (selection_transaction x.2). by rewrite Hx, IH. Qed.

(** ** The selection *)

Section selected.
Context `{PyRepr, CryptoBackend} {R : Type} `{NodeRegistryView R}.
Variables (params : ConsensusParams) (entries : list MempoolEntry) (h : Z) (net : str) (max_weight : Z) (confirmed : gset str) (registry : R).

Local Abbreviation select := (_select_mempool_entries params entries h net max_weight confirmed registry).

Definition initial_chosen : Chosen := mkChosen [] [] 0 0 0 ∅ ∅ registry.

Lemma initial_account sel : selections_of entries = Ok sel -> account params max_weight confirmed sel initial_chosen (merge_sort before sel) [] [].
Proof.
  intros (Hn & _)%selections_of_spec. pose proof (merge_sort_Permutation before sel) as Hp. split; simpl.
  - by split.
  - split; simpl; try done; try (unfold window_total, zsum, len; simpl; lia); intros pre x post Heq; by apply app_cons_not_nil in Heq.
  - by rewrite Hp.
  - intros x. by rewrite Hp.
  - intros x Hx _. left. by rewrite Hp.
Qed.

(** The first round goes through the candidates in their order; what is taken
    later had to wait. *)
Lemma select_account chosen :
  select = Ok chosen ->
  exists selections first later added waiters c, selections_of entries = Ok selections /\ chosen = selection_entry <$> (first ++ later).*2 /\
    @account _ R params max_weight confirmed selections c waiters (first ++ later) added /\
    Forall (fun x => waiting confirmed selections x (first ++ later).*1 = true) waiters /\
    sublist first (merge_sort before selections) /\ Forall (fun x => exists ids, waiting confirmed selections x ids = true) later.
Proof.
  unfold _select_mempool_entries. intros E. apply rbind_Ok in E as (sel & Hsel & E). cbv zeta in E. apply rbind_Ok in E as (n & _ & E).
  apply rbind_Ok in E as (c & Hc & E). injection E as <-. destruct (selections_of_spec _ _ Hsel) as (_ & Hf%candidates_sized & _).
  pose proof (initial_account sel Hsel) as Ha. fold initial_chosen in Hc. rewrite selection_rounds_end in Hc.
  destruct (merge_sort before sel) as [|x0 pending] eqn:Ep.
  { injection Hc as <-. exists sel, [], [], [], [], initial_chosen. split_and!; [done..|apply sublist_nil_l|done]. }
  rewrite <- Ep in Hc, Ha. clear Ep. apply rbind_Ok in Hc as (r & Hr & Hc). apply (round_account _ _ _ _ _ _ _ Hf _ _ [] _ _ [] []) in Hr; [|done].
  destruct Hr as (first & added & kept & Ha1 & Hn & Hp & Hs & _ & Hk).
  assert (Hl : exists later madded waiters, @account _ R params max_weight confirmed sel c waiters (first ++ later) (added ++ madded) /\
    Forall (fun x => waiting confirmed sel x (first ++ later).*1 = true) waiters /\ (forall x, x ∈ later -> x ∈ kept)).
  { rewrite Hn in *. destruct (progressed r); [by eapply loop_account in Hc|]. injection Hc as <-. case_bool_decide as Hz; [|discriminate]. subst first.
    exists [], [], kept. rewrite !app_nil_r. split_and!; [done| |by intros ? ?%not_elem_of_nil]. eapply Forall_impl; [exact Hk|].
    intros x (m' & Hm & Hx). by apply prefix_nil_inv in Hm as ->. }
  destruct Hl as (later & madded & waiters & Ha2 & Hw & Hin). exists sel, first, later, (added ++ madded), waiters, c. split_and!; [done| |done..|].
  - exact (track_entries _ _ _ (account_tracks _ _ _ _ _ _ _ _ Ha2)).
  - apply Forall_forall. intros x Hx. rewrite Forall_forall in Hk. destruct (Hk x (Hin x Hx)) as (m' & _ & Hm). by eexists.
Qed.

Lemma taken_candidates sel taken waiters c added :
  selections_of entries = Ok sel -> @account _ R params max_weight confirmed sel c waiters taken added -> Forall (candidate_of entries) taken.
Proof.
  intros (_ & Hf & _)%selections_of_spec Ha. apply Forall_forall. intros x Hx. rewrite Forall_forall in Hf. apply Hf.
  apply (account_candidates _ _ _ _ _ _ _ _ Ha), elem_of_app. by left.
Qed.

Lemma candidate_exists sel e :
  selections_of entries = Ok sel ->
  (forall e1 e2, e1 ∈ entries -> e2 ∈ entries -> txid (pool_transaction e1) = txid (pool_transaction e2) -> e1 = e2) ->
  e ∈ entries -> exists x, x ∈ sel /\ selection_entry x.2 = e.
Proof.
  intros Hsel Huniq He. destruct (selections_of_spec _ _ Hsel) as (_ & Hcand & Hk).
  assert (Hid : exists id, txid (pool_transaction e) = Ok id).
  { unfold selections_of in Hsel. apply list_elem_of_split in He as (l1 & l2 & ->). rewrite foldM_app in Hsel.
    apply rbind_Ok in Hsel as (d & _ & Hsel). cbn [foldM] in Hsel. apply rbind_Ok in Hsel as (d' & E & _). apply rbind_Ok in E as (id & E & _). by exists id. }
  destruct Hid as [id Hid]. assert (Hin : id ∈ sel.*1) by (apply Hk; by exists e). apply list_elem_of_fmap in Hin as (x & Ex & Hx).
  exists x. split; [done|]. rewrite Forall_forall in Hcand. destruct (Hcand x Hx) as (Et & _ & Hxe). apply Huniq; [done|done|].
  unfold selection_transaction in Et. by rewrite Et, Hid, Ex.
Qed.

Lemma taken_weight taken :
  Forall (candidate_of entries) taken ->
  weights_of (pool_transaction <$> (selection_entry <$> taken.*2)) = Ok (zsum (weight_units <$> taken.*2)).
Proof.
  intros Hf. unfold weights_of. rewrite (mapM_candidates _ (fun x => weight_units x.2)); [cbn [rbind]; by rewrite <- list_fmap_compose|].
  eapply Forall_impl; [exact Hf|]. by intros x (_ & ? & _).
Qed.

Lemma select_weight chosen :
  select = Ok chosen -> exists weight, weights_of (pool_transaction <$> chosen) = Ok weight /\ weight <= Z.max 0 max_weight.
Proof.
  intros (sel & first & later & added & waiters & c & Hsel & -> & Ha & _)%select_account. eexists.
  split; [apply taken_weight, (taken_candidates _ _ _ _ _ Hsel Ha)|apply (within_weight _ _ _ _ _ _ (account_within _ _ _ _ _ _ _ _ Ha))].
Qed.

(** C40: What is selected fits into a block: the entries are entries of the pool,
    each at most once, and together within the weight, the post-quantum cost, the
    number of attestation bundles and the attestations per verifier and window; and
    no attestation of one bundle is repeated by a later one. *)
Theorem selection_within_limits (chosen : list MempoolEntry) :
  select = Ok chosen ->
  exists ids bundles,
    (forall e, e ∈ chosen -> e ∈ entries) /\ mapM txid (pool_transaction <$> chosen) = Ok ids /\ NoDup ids /\
    (exists weight, weights_of (pool_transaction <$> chosen) = Ok weight /\ weight <= Z.max 0 max_weight) /\
    zsum ((fun e => pq_signature_cost (pool_transaction e) DEFAULT_PQ_POLICY_LIMITS) <$> chosen)
      <= max_pq_signature_cost_per_block DEFAULT_PQ_POLICY_LIMITS /\
    mapM bundle_of (pool_transaction <$> chosen) = Ok bundles /\
    len (filter (fun e => has_kind REWARD_ATTESTATION_BUNDLE_KIND (pool_transaction e) = true) chosen)
      <= Z.max 0 (max_attestation_bundles_per_block params) /\
    (forall k, window_total k (concat bundles) <= Z.max 0 (max_attestations_per_verifier_per_window params)) /\
    (forall pre l post, bundles = pre ++ l :: post -> forall a b, a ∈ concat pre -> b ∈ l -> attestation_identity a ≠ attestation_identity b).
Proof.
  intros (sel & first & later & added & waiters & c & Hsel & -> & Ha & _)%select_account; set (taken := first ++ later) in *. pose proof (taken_candidates _ _ _ _ _ Hsel Ha) as Hf.
  destruct Ha as [_ [Ww Wc Wb Wp Wn Wi _] Hd _ _]. exists taken.*1, added.
  pose proof (taken_weight taken Hf) as Hw.
  split_and!; [| | |by eexists| | | |done|done].
  - intros e (s & -> & (x & -> & Hx)%list_elem_of_fmap)%list_elem_of_fmap. rewrite Forall_forall in Hf. by destruct (Hf x Hx) as (_ & _ & ?).
  - rewrite (mapM_candidates _ fst); [done|]. eapply Forall_impl; [exact Hf|]. by intros x (? & _).
  - rewrite fmap_app in Hd. by apply NoDup_app in Hd as [? _].
  - rewrite <- !list_fmap_compose. exact Wc.
  - apply mapM_Forall2. rewrite <- !list_fmap_compose. by apply Forall2_fmap_l.
  - etrans; [|exact Wb]. apply Z.eq_le_incl. unfold len. f_equal. clear. induction taken as [|x taken IH]; [done|]. csimpl.
    rewrite !filter_cons. change (is_bundle x) with (has_kind REWARD_ATTESTATION_BUNDLE_KIND (pool_transaction (selection_entry x.2))).
    case_decide; simpl; lia.
Qed.

(** The parent of an input is at hand: an earlier entry has it, or it is confirmed
    and not in the pool. *)
Definition parent_at_hand (earlier : list MempoolEntry) (tx_input : TxInput) : Prop :=
  (exists e, e ∈ earlier /\ txid (pool_transaction e) = Ok (op_txid (previous_output tx_input))) \/
  (op_txid (previous_output tx_input) ∈ confirmed /\ forall e, e ∈ entries -> txid (pool_transaction e) ≠ Ok (op_txid (previous_output tx_input))).

Lemma waiting_spec sel pre x :
  selections_of entries = Ok sel -> Forall (candidate_of entries) pre ->
  waiting confirmed sel x pre.*1 = false <-> Forall (parent_at_hand (selection_entry <$> pre.*2)) (inputs (selection_transaction x.2)).
Proof.
  intros (Hn & Hf & Hk)%selections_of_spec Hpre. unfold waiting, _has_unresolved_parent_dependency.
  assert (Hkey : forall p, has_key sel p = true <-> p ∈ sel.*1).
  { intros p. unfold has_key. rewrite bool_decide_eq_true. split.
    - intros [s Hs%dict_get_elem]. apply list_elem_of_fmap. by exists (p, s).
    - intros ([p' s] & -> & Hs)%list_elem_of_fmap. exists s. by apply dict_get_NoDup. }
  assert (Hin : forall p, p ∈ pre.*1 <-> exists e, e ∈ selection_entry <$> pre.*2 /\ txid (pool_transaction e) = Ok p).
  { rewrite Forall_forall in Hpre. intros p. rewrite <- list_fmap_compose. split.
    - intros (y & -> & Hy)%list_elem_of_fmap. exists (selection_entry y.2). split; [by apply (list_elem_of_fmap_2 (selection_entry ∘ snd))|apply Hpre, Hy].
    - intros (e & (y & -> & Hy)%list_elem_of_fmap & E). destruct (Hpre y Hy) as [Ey _]. simpl in E. unfold selection_transaction in Ey.
      rewrite E in Ey. injection Ey as ->. by apply list_elem_of_fmap_2. }
  assert (Hpool : forall p, p ∈ sel.*1 -> ~ forall e, e ∈ entries -> txid (pool_transaction e) ≠ Ok p)
    by (intros p (e & He & E)%Hk Hno; by eapply Hno).
  induction (inputs (selection_transaction x.2)) as [|i l IH]; [done|]. cbn [existsb]. rewrite Forall_cons, orb_false_iff, IH. apply and_iff_compat_r.
  unfold parent_at_hand. set (p := op_txid (previous_output i)). rewrite <- Hin. destruct (has_key sel p) eqn:Eh; cbn [negb andb orb].
  - apply Hkey in Eh. rewrite orb_false_r, negb_false_iff, bool_decide_eq_true. split; [by left|]. intros [?|[_ Hno]]; [done|by destruct (Hpool p Eh)].
  - rewrite negb_false_iff, bool_decide_eq_true. assert (Hnp : p ∉ sel.*1) by (intros Hp%Hkey; congruence). split.
    + intros Hc. right. split; [done|]. intros e He E. apply Hnp, Hk. by exists e.
    + intros [(e & He & E)%Hin|[? _]]; [|done]. destruct Hnp. apply Hk. exists e. split; [|done].
      apply list_elem_of_fmap in He as (s & -> & (y & -> & Hy)%list_elem_of_fmap). rewrite Forall_forall in Hpre. by destruct (Hpre y Hy) as (_ & _ & ?).
Qed.

(** Parents come first: every input of a selected transaction spends an output of
    a transaction selected before it, or of a confirmed one. *)
Theorem selection_parents_first (chosen pre : list MempoolEntry) (e : MempoolEntry) (post : list MempoolEntry) :
  select = Ok chosen -> chosen = pre ++ e :: post -> Forall (parent_at_hand pre) (inputs (pool_transaction e)).
Proof.
  intros (sel & first & later & added & waiters & c & Hsel & -> & Ha & _)%select_account; set (taken := first ++ later) in *; intros E. pose proof (taken_candidates _ _ _ _ _ Hsel Ha) as Hf.
  rewrite <- list_fmap_compose in E. apply fmap_app_inv in E as (tpre & tpost & -> & E & ->).
  destruct tpost as [|x tpost]; [discriminate|]. injection E as -> _. rewrite list_fmap_compose. apply (waiting_spec sel tpre x Hsel).
  - by apply Forall_app in Hf as [? _].
  - by eapply (within_parents _ _ _ _ _ _ (account_within _ _ _ _ _ _ _ _ Ha)).
Qed.

(** Nothing plain is left out without need: a transaction of the pool that neither
    changes the registry nor carries attestations, whose parents are selected or
    confirmed, and that was not selected, would exceed the weight or the
    post-quantum cost of the block. *)
Theorem selection_maximal (chosen : list MempoolEntry) (e : MempoolEntry) :
  select = Ok chosen ->
  (forall e1 e2, e1 ∈ entries -> e2 ∈ entries -> txid (pool_transaction e1) = txid (pool_transaction e2) -> e1 = e2) ->
  e ∈ entries -> e ∉ chosen -> plain (pool_transaction e) -> Forall (parent_at_hand chosen) (inputs (pool_transaction e)) ->
  exists weight w, weights_of (pool_transaction <$> chosen) = Ok weight /\ transaction_weight_units (pool_transaction e) = Ok w /\
    (max_weight < weight + w \/
     max_pq_signature_cost_per_block DEFAULT_PQ_POLICY_LIMITS <
       zsum ((fun e => pq_signature_cost (pool_transaction e) DEFAULT_PQ_POLICY_LIMITS) <$> chosen) +
       pq_signature_cost (pool_transaction e) DEFAULT_PQ_POLICY_LIMITS).
Proof.
  intros (sel & first & later & added & waiters & c & Hsel & -> & Ha & Hw & _)%select_account; set (taken := first ++ later) in *; intros Huniq He Hne Hpl Hpar.
  pose proof (taken_candidates _ _ _ _ _ Hsel Ha) as Hf. destruct (candidate_exists sel e Hsel Huniq He) as (x & Hx & <-).
  destruct (selections_of_spec _ _ Hsel) as (_ & Hcand & _). rewrite Forall_forall in Hcand. destruct (Hcand x Hx) as (_ & Hwx & _).
  exists (zsum (weight_units <$> taken.*2)), (weight_units x.2). split; [by apply taken_weight|]. split; [done|].
  destruct (account_dropped _ _ _ _ _ _ _ _ Ha x Hx Hpl) as [Hin|Hfull].
  - apply elem_of_app in Hin as [Hin|Hin]; [destruct Hne; rewrite <- list_fmap_compose; by apply (list_elem_of_fmap_2 (selection_entry ∘ snd))|].
    rewrite Forall_forall in Hw. specialize (Hw x Hin). apply (waiting_spec sel taken x Hsel Hf) in Hpar. congruence.
  - unfold full_for in Hfull. rewrite <- !list_fmap_compose in *. exact Hfull.
Qed.

Lemma waiting_mono sel x ids : waiting confirmed sel x ids = true -> waiting confirmed sel x [] = true.
Proof.
  unfold waiting, _has_unresolved_parent_dependency. rewrite !existsb_exists. intros (i & Hi & E). exists i. split; [done|].
  apply orb_true_iff in E as [E|E]; [|by rewrite E, orb_true_r]. apply andb_true_iff in E as [-> _]. done.
Qed.

(** Fees decide: a selected transaction that spends no output of the pool comes
    after another selected one only if that one pays at least as much per unit of
    weight. *)
Theorem selection_by_fee_rate (chosen pre mid post : list MempoolEntry) (x y : MempoolEntry) (wx wy : Z) :
  select = Ok chosen -> chosen = pre ++ x :: mid ++ y :: post -> Forall (parent_at_hand []) (inputs (pool_transaction y)) ->
  transaction_weight_units (pool_transaction x) = Ok wx -> transaction_weight_units (pool_transaction y) = Ok wy ->
  pool_fee y * wx <= pool_fee x * wy.
Proof.
  intros (sel & first & later & added & waiters & c & Hsel & -> & Ha & _ & Hs & Hl)%select_account E Hpar Hwx Hwy.
  pose proof (taken_candidates _ _ _ _ _ Hsel Ha) as Hf. rewrite <- list_fmap_compose in E.
  apply fmap_app_inv in E as (tpre & tpost & -> & E & Et). destruct tpost as [|tx tpost]; [discriminate|]. injection E as -> E.
  symmetry in E. apply fmap_app_inv in E as (tmid & tpost' & -> & E & ->). destruct tpost' as [|ty tpost']; [discriminate|]. injection E as -> _.
  assert (Hnot : ty ∉ later).
  { intros Hin. rewrite Forall_forall in Hl. destruct (Hl ty Hin) as [ids Hw%waiting_mono].
    pose proof (proj2 (waiting_spec sel [] ty Hsel ltac:(constructor)) Hpar) as Hno. simpl in Hno. congruence. }
  assert (Hfirst : exists rest, first = (tpre ++ tx :: tmid) ++ ty :: rest).
  { assert (Et' : first ++ later = (tpre ++ tx :: tmid) ++ ty :: tpost') by (rewrite Et, <- (assoc_L (++)); done).
    apply app_eq_inv in Et' as [(k & -> & E)|(k & _ & E)].
    - destruct k as [|z k]; [|injection E as -> _; by exists k]. destruct Hnot. simpl in E. rewrite <- E. left.
    - destruct Hnot. rewrite E. apply elem_of_app. right. left. }
  destruct Hfirst as [rest ->]. pose proof (ordered_by_rate (merge_sort before sel)) as Ho. destruct (selections_of_spec _ _ Hsel) as (_ & Hc & _).
  assert (Hpos : Forall (fun x => 0 < weight_units x.2) (merge_sort before sel)).
  { rewrite merge_sort_Permutation. eapply Forall_impl; [exact Hc|]. intros z (_ & ? & _). by eapply weight_positive. }
  specialize (Ho Hpos (Sorted_merge_sort _ _)). apply (StronglySorted_sublist _ _ _ Hs) in Ho.
  assert (Hh : heavier tx ty) by (eapply StronglySorted_app_1_elem_of; [exact Ho|apply elem_of_app; right; left|left]).
  rewrite Forall_forall in Hf. destruct (Hf tx) as (_ & Wx & _); [rewrite Et; apply elem_of_app; right; left|].
  destruct (Hf ty) as (_ & Wy & _); [rewrite Et; apply elem_of_app; right; right; apply elem_of_app; right; left|].
  unfold selection_transaction in Wx, Wy. simpl in *. rewrite Hwx in Wx. rewrite Hwy in Wy. injection Wx as ->. injection Wy as ->.
  by destruct Hh as (_ & _ & ?).
Qed.
End selected.
