(* ===== verification/TemplateFacts.v ===== *)
(** * Templates and validation agree

    The coinbase of a template is the one validation expects of its transactions;
    a template is within the weight limit up to what the final coinbase is longer
    than the one measured; mining returns the first nonce with enough work. *)

From S2P Require Import Prelude PyOrder PyText Hashes Params Models Serialization Registry Economics Pow Merkle Crypto Addresses Json Settlement Nodes Utxo UtxoStore RewardStore Validation ValidationFacts PqPolicy PyState Mempool Mining MiningFacts.

(** ** The settlement of a block *)


Lemma split_off_epoch h params m n closing :
  subsidy_split_chipbits h params = Ok (m, n) -> is_epoch_reward_height h params = Ok closing -> closing = false -> n = 0.
Proof.
  unfold subsidy_split_chipbits, _scheduled_node_epoch_reward_chipbits. intros E Hc ->. destruct (h <? 0); [discriminate|].
  apply rbind_Ok in E as (mine & _ & E). rewrite Hc in E. cbn [rbind negb] in E. destruct (_ && _); [by injection E as _ <-|].
  apply rbind_Ok in E as (before & _ & E). destruct (_ <=? 0) eqn:Er in E; [by injection E as _ <-|]. injection E as _ <-. bool_prop. lia.
Qed.

Section settlements.
Context `{PyRepr, CryptoBackend} {U R : Type} `{UtxoView U, NodeRegistryView R}.
Variable context : ValidationContext U R.
Hypothesis epochs_have_blocks : 0 < epoch_length_blocks (context_params context).

(** What the transaction rules checked of a settlement *)
Record settled_here (s : RewardSettlement) : Prop := {
  settled_end : epoch_end_height s = context_height context;
  settled_close : epoch_close_height (settlement_epoch_index s) (context_params context) = Ok (context_height context);
  settled_sum : zsum (entry_reward_chipbits <$> reward_entries s) = distributed_node_reward_chipbits s;
  settled_pool : exists miner pool, subsidy_split_chipbits (context_height context) (context_params context) = Ok (miner, pool) /\
    distributed_node_reward_chipbits s + undistributed_node_reward_chipbits s = pool;
}.

Lemma settle_checked t staged x :
  context_height staged = context_height context -> context_params staged = context_params context ->
  _validate_reward_settle_epoch_transaction_with_params (U := U) t staged = Ok x ->
  exists s, _parse_reward_settlement t = Ok s /\ (settlement_epoch_index s ∉ settled_epoch_indexes staged) /\ settled_here s.
Proof.
  intros Hh Hp E. pose proof (settle_sound _ _ _ E) as (s & Hs & Hsum & Hnew & Hend & Hclose). exists s. split; [done|]. split; [done|].
  rewrite Hp, Hend, Hh in Hclose. rewrite Hh in Hend. split; [done|done|done|].
  unfold _validate_reward_settle_epoch_transaction_with_params in E. rewrite Hs in E. cbn [rbind] in E. cbv zeta in E.
  do 2 apply rbind_Ok in E as ([] & _ & E). apply rbind_Ok in E as ([] & _ & E). apply rbind_Ok in E as (close & _ & E).
  do 2 apply rbind_Ok in E as ([] & _ & E). destruct (epoch_seed_by_index staged !! _); [|discriminate].
  do 2 apply rbind_Ok in E as ([] & _ & E). apply rbind_Ok in E as ([miner pool] & Hsp & E). apply rbind_Ok in E as ([] & Hd%raise_if_Ok & _).
  bool_prop. rewrite Hend, Hp in Hsp. by exists miner, pool.
Qed.

Lemma close_injective i j c params : 0 < epoch_length_blocks params -> epoch_close_height i params = Ok c -> epoch_close_height j params = Ok c -> i = j.
Proof. unfold epoch_close_height. intros Hl. destruct (i <? 0), (j <? 0); try discriminate. intros [= <-] [= E]. nia. Qed.

(** One turn of the loop and the settlement it stages *)
Lemma stage_settlement st t (st' : Staged (U:=U) (R:=R)) :
  stage_transaction context st t = Ok st' -> is_coinbase_transaction t = false ->
  if has_kind REWARD_SETTLE_EPOCH_KIND t then
    exists s, parse_reward_settlement_metadata (metadata t) = Ok s /\ settled_here s /\ (settlement_epoch_index s ∉ staged_settled_epoch_indexes st) /\
      staged_epoch_settlement st' = Some s /\ settlement_epoch_index s ∈ staged_settled_epoch_indexes st'
  else staged_epoch_settlement st' = staged_epoch_settlement st /\ staged_settled_epoch_indexes st' = staged_settled_epoch_indexes st.
Proof.
  intros (seen & counts & ss & staged & fee & _ & _ & Hst & Hv & E)%stage_transaction_inv Hc. unfold stage_effects in E.
  apply staged_context_fields in Hst as (_ & _ & Hh & Hp & _ & _ & Hi). fold (_is_reward_settle_epoch_transaction t).
  destruct (_is_reward_settle_epoch_transaction t) eqn:Ek.
  - destruct (settle_kind t Ek) as [Hs Hb]. unfold validate_transaction_stateful in Hv. unfold _is_reward_attestation_bundle_transaction in *.
    rewrite Hc, Hs, Hb, Ek in Hv. rewrite Hs, Hb in E. apply rbind_Ok in Hv as ([] & _ & Hv). apply rbind_Ok in Hv as ([] & Hv & _).
    apply settle_checked in Hv as (s & Hps & Hnew & Hset); [|done..]. rewrite Hps in E. cbn [rbind] in E. injection E as <-.
    exists s. cbn [staged_epoch_settlement staged_settled_epoch_indexes]. rewrite (settled_end _ Hset), Z.eqb_refl, <- Hi.
    split; [|split_and!; [done..|set_solver]]. unfold _parse_reward_settlement in Hps. apply rbind_Ok in Hps as (s' & -> & Hps). by inv_ok.
  - destruct (is_special_node_transaction t); [apply rbind_Ok in E as (y & _ & E); by injection E as <-|].
    destruct (_is_reward_attestation_bundle_transaction t); apply rbind_Ok in E as (y & _ & E); by injection E as <-.
Qed.

(** After a settlement no other one is accepted. *)
Lemma stage_settled ts st s (st' : Staged (U:=U) (R:=R)) :
  foldM (stage_transaction context) st ts = Ok st' -> Forall (fun t => is_coinbase_transaction t = false) ts ->
  staged_epoch_settlement st = Some s -> settled_here s -> settlement_epoch_index s ∈ staged_settled_epoch_indexes st ->
  staged_epoch_settlement st' = Some s.
Proof.
  intros E Hc. revert st E. induction Hc as [|t ts Ht _ IH]; intros st E Hst Hs Hin; cbn [foldM] in E; [by injection E as <-|].
  apply rbind_Ok in E as (st1 & E1 & E). apply stage_settlement in E1; [|done]. destruct (has_kind _ t).
  - destruct E1 as (s2 & _ & Hs2 & Hnew & _). destruct Hnew.
    by rewrite (close_injective _ _ _ _ epochs_have_blocks (settled_close _ Hs2) (settled_close _ Hs)).
  - destruct E1 as [E1 E2]. apply (IH st1); [done|congruence|done|congruence].
Qed.

Lemma staged_is_included ts st (st' : Staged (U:=U) (R:=R)) :
  foldM (stage_transaction context) st ts = Ok st' -> Forall (fun t => is_coinbase_transaction t = false) ts -> staged_epoch_settlement st = None ->
  _included_epoch_settlement ts (context_height context) = Ok (staged_epoch_settlement st') /\
  (forall s, staged_epoch_settlement st' = Some s -> settled_here s).
Proof.
  intros E Hc. revert st E. induction Hc as [|t ts Ht Hts IH]; intros st E Hn; cbn [foldM] in E; [injection E as <-; by rewrite Hn|].
  apply rbind_Ok in E as (st1 & E1 & E). apply stage_settlement in E1; [|done]. cbn [_included_epoch_settlement].
  destruct (has_kind _ t); cbn [negb].
  - destruct E1 as (s & -> & Hs & _ & Hs1 & Hin). cbn [rbind]. rewrite (settled_end _ Hs), Z.eqb_refl.
    rewrite (stage_settled _ _ _ _ E Hts Hs1 Hs Hin). split; [done|]. by intros ? [= <-].
  - apply (IH st1); [done|]. destruct E1 as [-> _]. done.
Qed.
End settlements.

(** ** The coinbase of a template *)

Section template.
Context `{PyRepr, CryptoBackend} {U R : Type} `{UtxoView U, NodeRegistryView R}.

Lemma reward_outputs_match settlement : payout <$> _reward_outputs_for_settlement settlement = rewarded_outputs_of settlement.
Proof. destruct settlement as [s|]; [|done]. simpl. rewrite <- list_fmap_compose. done. Qed.

Lemma node_outputs_checked outs pre post :
  outs = pre ++ post -> Forall (fun e => check_node_output outs e = Ok tt) (enumerate_from (len pre) (payout <$> post)).
Proof.
  intros ->. revert pre. induction post as [|out post IH]; intros pre; csimpl; constructor.
  - unfold check_node_output, payout, len. rewrite Nat2Z.id, list_lookup_middle by done. simpl.
    by rewrite bool_decide_true, Z.eqb_refl.
  - specialize (IH (pre ++ [out])). rewrite <- (assoc_L (++)) in IH. simpl in IH. replace (len (pre ++ [out])) with (len pre + 1) in IH; [done|].
    unfold len. rewrite length_app. simpl. lia.
Qed.

(** The distribution rule holds of the coinbase that pays the subsidy with the fees
    and the outputs of the settlement, when a settlement that pays anyone pays the
    whole pool. *)
Lemma distribution_accepted (context : ValidationContext U R) settlement coinbase fees miner_address miner pool :
  0 < epoch_length_blocks (context_params context) -> 0 <= context_height context ->
  subsidy_split_chipbits (context_height context) (context_params context) = Ok (miner, pool) ->
  outputs coinbase = mkTxOutput (miner + fees) miner_address :: _reward_outputs_for_settlement settlement ->
  (forall s, settlement = Some s -> settled_here context s /\ (reward_entries s ≠ [] -> undistributed_node_reward_chipbits s = 0)) ->
  _validate_coinbase_distribution coinbase (context_height context) fees context settlement = Ok tt.
Proof.
  intros Hl Hh Hsplit Hout Hs. unfold _validate_coinbase_distribution. rewrite Hout, Hsplit. cbn [rbind].
  assert (Hcl : exists closing, is_epoch_reward_height (context_height context) (context_params context) = Ok closing).
  { unfold is_epoch_reward_height. rewrite (proj2 (Z.ltb_ge _ _)) by lia. by eexists. }
  destruct Hcl as [closing Hcl]. rewrite Hcl. cbn [rbind]. cbv zeta.
  assert (Hnone : closing = false -> pool = 0) by (by eapply split_off_epoch).
  assert (Hrest : closing = false -> settlement = None).
  { intros ->. destruct settlement as [s|]; [|done]. destruct (Hs s eq_refl) as [Hset _]. pose proof (settled_close _ _ Hset) as Hc.
    unfold epoch_close_height in Hc. destruct (_ <? 0); [discriminate|]. injection Hc as Hc. unfold is_epoch_reward_height in Hcl. rewrite <- Hc in Hcl.
    destruct (_ <? 0) in Hcl; [discriminate|]. injection Hcl as Hcl. rewrite Z.sub_add, Z.mod_mul in Hcl by lia. discriminate. }
  rewrite <- (reward_outputs_match settlement). unfold contextual_if, raise_if.
  replace (negb closing && negb (pool =? 0)) with false by (destruct closing; [done|by rewrite Hnone]).
  replace (negb closing && negb (bool_decide _)) with false by (destruct closing; [done|by rewrite Hrest, bool_decide_true]). cbn [rbind].
  replace (negb (_ =? 1 + _)) with false; [|unfold len; rewrite length_fmap; symmetry; apply negb_false_iff, Z.eqb_eq; cbn [length]; lia].
  cbn [rbind value]. rewrite Z.eqb_refl. cbn [negb rbind].
  rewrite (proj2 (for_each_Ok (check_node_output _) _ tt)) by (by apply (node_outputs_checked _ [mkTxOutput (miner + fees) miner_address])).
  cbn [rbind]. destruct settlement as [s|]; [|done]. destruct (Hs s eq_refl) as [Hset Hfull]. destruct (settled_pool _ _ Hset) as (m' & p' & Hsp & Hsum).
  rewrite Hsplit in Hsp. injection Hsp as <- <-. pose proof (settled_sum _ _ Hset) as Ht. destruct (decide (reward_entries s = [])) as [Hz|Hz].
  - rewrite Hz in Ht. unfold zsum in Ht. simpl in Ht. unfold _reward_outputs_for_settlement. rewrite Hz. simpl. by rewrite <- Ht.
  - rewrite (bool_decide_false (payout <$> _ = [])).
    + simpl. replace (distributed_node_reward_chipbits s =? pool) with true; [done|]. symmetry. apply Z.eqb_eq. specialize (Hfull Hz). lia.
    + simpl. intros E%fmap_nil_inv%fmap_nil_inv. apply Hz. apply Permutation_nil_r. by rewrite <- E, sorted_by_Permutation.
Qed.

Lemma split_height h params m n : subsidy_split_chipbits h params = Ok (m, n) -> 0 <= h.
Proof. unfold subsidy_split_chipbits. destruct (h <? 0) eqn:E; [discriminate|]. intros _. bool_prop. lia. Qed.

Lemma weights_of_app ts1 ts2 :
  weights_of (ts1 ++ ts2) = let* w1 := weights_of ts1 in let* w2 := weights_of ts2 in Ok (w1 + w2).
Proof.
  unfold weights_of. induction ts1 as [|t ts1 IH]; simpl.
  - by destruct (mapM transaction_weight_units ts2).
  - destruct (transaction_weight_units t) as [w|]; [|done]. cbn [rbind].
    destruct (mapM transaction_weight_units ts1) as [ws1|]; cbn [rbind] in *; destruct (mapM transaction_weight_units (ts1 ++ ts2)) as [ws|]; cbn [rbind] in *;
      destruct (mapM transaction_weight_units ts2) as [ws2|]; cbn [rbind] in *; try done; try congruence.
    injection IH as IH. f_equal. unfold zsum in *. simpl. lia.
Qed.

Lemma first_weighed block weight :
  block_weight_units block = Ok weight -> exists w, weights_of (take 1 (transactions block)) = Ok w.
Proof.
  unfold block_weight_units. fold (weights_of (transactions block)). rewrite <- (take_drop 1 (transactions block)) at 1.
  rewrite weights_of_app. intros (w & Hw & _)%rbind_Ok. by exists w.
Qed.

Lemma valid_block_weighed block (context : ValidationContext U R) fees : validate_block block context = Ok fees -> exists w, block_weight_units block = Ok w.
Proof.
  unfold validate_block. intros E. apply rbind_Ok in E as ([] & E & _). unfold validate_block_stateless in E. destruct (transactions block); [discriminate|].
  do 4 apply rbind_Ok in E as ([] & _ & E). apply rbind_Ok in E as (w & Hw & _). by exists w.
Qed.

(** A template, taken apart *)
Lemma template_inv params now previous net h miner_address target entries (registry : R) confirmed extra system tpl :
  build_block_template params now previous net h miner_address target entries registry confirmed extra system = Ok tpl ->
  exists miner pool max_weight selected settlement root,
    subsidy_split_chipbits h params = Ok (miner, pool) /\ weight_left params h miner_address system = Ok max_weight /\
    _select_mempool_entries params entries h net max_weight confirmed registry = Ok selected /\
    _included_epoch_settlement (system ++ (pool_transaction <$> selected)) h = Ok settlement /\
    template_fees tpl = zsum (pool_fee <$> selected) /\ header (template_block tpl) = mkBlockHeader 1 previous root now target 0 /\
    transactions (template_block tpl) =
      build_coinbase_transaction h miner_address (miner + template_fees tpl) (_reward_outputs_for_settlement settlement)
        (settlement_note settlement ∪ extra) :: system ++ (pool_transaction <$> selected).
Proof.
  unfold build_block_template. intros E. apply rbind_Ok in E as ([miner pool] & Hs & E). apply rbind_Ok in E as (w & Hw & E).
  apply rbind_Ok in E as (selected & Hsel & E). cbv zeta in E. apply rbind_Ok in E as (settlement & Hset & E).
  apply rbind_Ok in E as (ids & _ & E). apply rbind_Ok in E as (root & _ & E). injection E as <-.
  exists miner, pool, w, selected, settlement, root. by split_and!.
Qed.

(** C18: Templates pay what validation expects, under two conditions on their
    transactions: when they validate one after the other with the fees the pool
    recorded for them, and a settlement among them that pays anyone has no
    undistributed remainder, then the whole block passes the contextual rules,
    coinbase included, with exactly those fees.  (Without the second condition this
    is false: see [NodeSettlements.partial_settlement_holds_up].) *)
Theorem template_coinbase_accepted params now previous net h miner_address target entries (registry : R) confirmed extra system
    (tpl : BlockTemplate) (context : ValidationContext U R) (st : Staged (U:=U) (R:=R)) :
  build_block_template params now previous net h miner_address target entries registry confirmed extra system = Ok tpl ->
  context_height context = h -> context_params context = params -> 0 < epoch_length_blocks params ->
  expected_previous_block_hash context = Some previous -> expected_bits context = Some target ->
  Forall (fun t => is_coinbase_transaction t = false) (tail (transactions (template_block tpl))) ->
  foldM (stage_transaction context) (initial_staged context) (tail (transactions (template_block tpl))) = Ok st ->
  total_fees_chipbits st = template_fees tpl ->
  (forall s, staged_epoch_settlement st = Some s -> reward_entries s ≠ [] -> undistributed_node_reward_chipbits s = 0) ->
  validate_block_stateful (template_block tpl) context = Ok (template_fees tpl).
Proof.
  intros (miner & pool & w & selected & settlement & root & Hsp & _ & _ & Hset & Hfees & Hhdr & Htx)%template_inv Hh Hp Hl Hprev Hbits Hc Hst Hf Hfull.
  unfold validate_block_stateful. rewrite Hprev, Hbits, Hhdr. cbn [previous_block_hash bits]. rewrite bool_decide_true by done. rewrite Z.eqb_refl.
  cbn [negb contextual_if raise_if rbind]. rewrite Hst. cbn [rbind]. rewrite Htx in Hc, Hst |- *. cbn [tail] in Hc, Hst. subst h params.
  destruct (staged_is_included context Hl _ _ _ Hst Hc eq_refl) as [Hinc Hhere]. rewrite Hset in Hinc. injection Hinc as ->.
  rewrite Hf. erewrite distribution_accepted; [done|done|by eapply split_height|exact Hsp|reflexivity|].
  intros s Es. split; [by apply Hhere|by apply Hfull].
Qed.

(** The weight of a template is within the limit of a block, up to what the coinbase
    of the template is longer than the one without rewards that was measured. *)
Theorem template_weight_bound params now previous net h miner_address target entries (registry : R) confirmed extra system
    (tpl : BlockTemplate) (measured system_weight : Z) :
  build_block_template params now previous net h miner_address target entries registry confirmed extra system = Ok tpl ->
  transaction_weight_units (build_coinbase_transaction h miner_address 0 [] ∅) = Ok measured -> weights_of system = Ok system_weight ->
  forall coinbase_weight weight, weights_of (take 1 (transactions (template_block tpl))) = Ok coinbase_weight ->
  block_weight_units (template_block tpl) = Ok weight ->
  weight <= Z.max (max_block_weight params) (measured + system_weight) + (coinbase_weight - measured).
Proof.
  intros (miner & pool & w & selected & settlement & root & _ & Hw & Hsel & _ & _ & _ & Htx)%template_inv Hm Hs cw weight Hcw Hbw.
  unfold weight_left in Hw. rewrite Hm in Hw. cbn [rbind] in Hw. rewrite Hs in Hw. cbn [rbind] in Hw. injection Hw as <-.
  destruct (select_weight _ _ _ _ _ _ _ _ Hsel) as (sw & Hsw & Hle).
  unfold block_weight_units in Hbw. rewrite Htx in Hbw, Hcw. fold (weights_of (build_coinbase_transaction h miner_address (miner + template_fees tpl)
    (_reward_outputs_for_settlement settlement) (settlement_note settlement ∪ extra) :: system ++ (pool_transaction <$> selected))) in Hbw.
  change (?c :: system ++ ?s) with ([c] ++ system ++ s) in Hbw. rewrite !weights_of_app in Hbw. simpl in Hcw. rewrite Hs, Hsw in Hbw.
  apply rbind_Ok in Hbw as (cw' & Hcw' & Hbw). cbn [rbind] in Hbw. injection Hbw as <-.
  change (weights_of [build_coinbase_transaction h miner_address (miner + template_fees tpl)
    (_reward_outputs_for_settlement settlement) (settlement_note settlement ∪ extra)] = Ok cw) in Hcw.
  rewrite Hcw' in Hcw. injection Hcw as <-. lia.
Qed.

Lemma partial_settlement_refused (context : ValidationContext U R) coinbase fees s x :
  _validate_coinbase_distribution coinbase (context_height context) fees context (Some s) = Ok x -> settled_here context s ->
  reward_entries s ≠ [] -> undistributed_node_reward_chipbits s = 0.
Proof.
  intros (miner & pool & _ & Hsp & _ & _ & _ & Hr)%coinbase_distribution_inv Hset Hne. destruct (settled_pool _ _ Hset) as (m' & p' & Hsp' & Hsum).
  rewrite Hsp in Hsp'. injection Hsp' as <- <-. destruct Hr as [Hz|(s' & [= <-] & Hd & _)]; [|lia].
  destruct Hne. simpl in Hz. apply fmap_nil_inv in Hz. apply Permutation_nil_r. by rewrite <- Hz, sorted_by_Permutation.
Qed.

Lemma staged_settlement_of (context : ValidationContext U R) ts (st st' : Staged (U:=U) (R:=R)) t s :
  0 < epoch_length_blocks (context_params context) -> foldM (stage_transaction context) st ts = Ok st' ->
  Forall (fun t => is_coinbase_transaction t = false) ts -> t ∈ ts -> has_kind REWARD_SETTLE_EPOCH_KIND t = true ->
  parse_reward_settlement_metadata (metadata t) = Ok s -> staged_epoch_settlement st' = Some s /\ settled_here context s.
Proof.
  intros Hl E Hc Hin Hk Hp. apply list_elem_of_split in Hin as (ts1 & ts2 & ->). rewrite foldM_app in E. apply rbind_Ok in E as (st1 & E1 & E).
  cbn [foldM] in E. apply rbind_Ok in E as (st2 & E2 & E). apply Forall_app in Hc as [_ [Ht Hc2]%Forall_cons].
  apply (stage_settlement context) in E2; [|done..]. rewrite Hk in E2. destruct E2 as (s2 & Hp2 & Hs & _ & Hst & Hin). rewrite Hp in Hp2. injection Hp2 as <-.
  split; [|done]. by eapply stage_settled.
Qed.

(** A block settles an epoch completely or not at all: a settlement that a valid
    block carries and that pays anyone leaves nothing of the pool undistributed.
    The rules for the settlement alone do not ask for this. *)
Lemma settles_completely (block : Block) (context : ValidationContext U R) (fees : Z) (t : Transaction) (s : RewardSettlement) :
  validate_block block context = Ok fees -> 0 < epoch_length_blocks (context_params context) ->
  t ∈ tail (transactions block) -> has_kind REWARD_SETTLE_EPOCH_KIND t = true -> parse_reward_settlement_metadata (metadata t) = Ok s ->
  reward_entries s ≠ [] -> undistributed_node_reward_chipbits s = 0.
Proof.
  intros (coinbase & rest & st & Ht & _ & _ & Hrest & Hst & Hd & _)%validate_block_inv Hl Hin Hk Hp. rewrite Ht in Hin. simpl in Hin.
  destruct (staged_settlement_of _ _ _ _ _ _ Hl Hst (block_rest_coinbase_free _ Hrest) Hin Hk Hp) as [Hs Hh]. rewrite Hs in Hd.
  by eapply partial_settlement_refused.
Qed.
End template.

(** ** The search for a nonce *)

Section mining.
Variable tpl : BlockTemplate.

Definition has_work (n : Z) (b : bool) : Prop := verify_proof_of_work (with_nonce (header (template_block tpl)) n) = Ok b.

Lemma try_nonces_spec nonces r :
  try_nonces tpl nonces = Ok r ->
  match r with
  | Some block => exists pre n post, nonces = pre ++ n :: post /\ Forall (fun m => has_work m false) pre /\ has_work n true /\
      block = mkBlock (with_nonce (header (template_block tpl)) n) (transactions (template_block tpl))
  | None => Forall (fun m => has_work m false) nonces
  end.
Proof.
  induction nonces as [|n nonces IH]; intros E; cbn [try_nonces] in E; [injection E as <-; constructor|].
  apply rbind_Ok in E as (b & Hb & E). destruct b; [injection E as <-; by exists [], n, nonces|]. apply IH in E. destruct r as [block|].
  - destruct E as (pre & m & post & -> & Hf & Hm & ->). exists (n :: pre), m, post. split; [done|]. split; [by constructor|done].
  - by constructor.
Qed.

(** Mining finds the first nonce: within the budget, [mine_block] returns the
    template's block with the least nonce from the start on whose header has enough
    work, and nothing exactly when no nonce of the budget has. *)
Theorem mine_block_first_nonce (start attempts : Z) (r : option Block) :
  mine_block tpl start attempts = Ok r ->
  match r with
  | Some block => exists n, start <= n < start + attempts /\ has_work n true /\ (forall m, start <= m < n -> has_work m false) /\
      block = mkBlock (with_nonce (header (template_block tpl)) n) (transactions (template_block tpl))
  | None => forall m, start <= m < start + attempts -> has_work m false
  end.
Proof.
  unfold mine_block. intros E%try_nonces_spec. set (nonces := (fun i => start + i) <$> zrange attempts) in *.
  assert (Hnth : forall i, (i < Z.to_nat attempts)%nat -> nonces !! i = Some (start + Z.of_nat i)).
  { intros i Hi. unfold nonces, zrange. rewrite !list_lookup_fmap, lookup_seq_lt by done. done. }
  assert (Hlen : length nonces = Z.to_nat attempts) by (unfold nonces, zrange; by rewrite !length_fmap, length_seq).
  destruct r as [block|].
  - destruct E as (pre & n & post & En & Hf & Hn & ->). exists n.
    assert (Hi : (length pre < Z.to_nat attempts)%nat) by (rewrite <- Hlen, En, length_app; simpl; lia).
    assert (Heq : n = start + Z.of_nat (length pre)).
    { specialize (Hnth _ Hi). rewrite En, list_lookup_middle in Hnth by done. by injection Hnth. }
    split; [lia|]. split; [done|]. split; [|done]. intros m Hm. rewrite Forall_forall in Hf. apply Hf.
    apply (list_elem_of_lookup_2 _ (Z.to_nat (m - start))). assert (Hlt : (Z.to_nat (m - start) < length pre)%nat) by lia.
    specialize (Hnth (Z.to_nat (m - start)) ltac:(lia)). rewrite En, lookup_app_l in Hnth by done. rewrite Hnth. f_equal. lia.
  - intros m Hm. rewrite Forall_forall in E. apply E, (list_elem_of_lookup_2 _ (Z.to_nat (m - start))). rewrite Hnth by lia. f_equal. lia.
Qed.
End mining.
