(* ===== verification/Service.v ===== *)
(** * The active chain of a node ([node/service.py])

    The persisted state of a node and the two operations that change its active
    chain: [apply_block], which extends the tip, and [activate_chain], which
    switches to a stored branch; with what they compute on the way: the expected
    difficulty, the epoch seeds, the registry and reward effects of a block.

    Both write one table after the other.  [sqlite_transaction] opens no database
    transaction of its own, so every call of a repository commits alone, and an
    exception leaves the tables that were written before it as they are then; one
    call of a repository is all or nothing.  The operations therefore run in [stm].
    The mempool's reconciliation is in [Node]; the caches and the log are not part
    of this state.  The cache of [_reward_validation_state], keyed by the tip, is
    the tables it was filled from as long as the tip and the tables change together,
    which only an interrupted write breaks. *)

From S2P Require Import Prelude PyState PyOrder PyText Hashes Params Models Serialization Registry Economics Pow Merkle Crypto Addresses Json Settlement Nodes Utxo UtxoStore Headers RewardStore Validation.

Record SnapshotAnchor : Type := mkAnchor { anchor_height : Z; anchor_hash : str }.

Record NodeService : Type := mkService {
  service_params : ConsensusParams;
  service_network : str;
  headers : HeaderDb;
  blocks : BlockDb;
  chainstate : SQLiteChainStateRepository;
  node_registry : SQLiteNodeRegistryRepository;
  reward_attestations : RewardAttestationDb;
  reward_settlements : EpochSettlementDb;
  snapshot_anchor : option SnapshotAnchor;
}.

Definition new_service (params : ConsensusParams) (net : str) : NodeService :=
  mkService params net (mkHeaderDb ∅ None) (mkBlockDb ∅) (mkChainState ∅) (mkRegistryDb ∅) (mkAttestationDb ∅ ∅) (mkSettlementDb ∅) None.

(** ** Assignments to the tables *)

Definition with_headers (s : NodeService) (hdb : HeaderDb) : NodeService :=
  mkService (service_params s) (service_network s) hdb (blocks s) (chainstate s) (node_registry s) (reward_attestations s)
    (reward_settlements s) (snapshot_anchor s).
Definition with_blocks (s : NodeService) (bdb : BlockDb) : NodeService :=
  mkService (service_params s) (service_network s) (headers s) bdb (chainstate s) (node_registry s) (reward_attestations s)
    (reward_settlements s) (snapshot_anchor s).
Definition with_chainstate (s : NodeService) (utxos : SQLiteChainStateRepository) : NodeService :=
  mkService (service_params s) (service_network s) (headers s) (blocks s) utxos (node_registry s) (reward_attestations s)
    (reward_settlements s) (snapshot_anchor s).
Definition with_registry (s : NodeService) (registry : SQLiteNodeRegistryRepository) : NodeService :=
  mkService (service_params s) (service_network s) (headers s) (blocks s) (chainstate s) registry (reward_attestations s)
    (reward_settlements s) (snapshot_anchor s).
Definition rewards (s : NodeService) : RewardAttestationDb * EpochSettlementDb := (reward_attestations s, reward_settlements s).
Definition with_rewards (s : NodeService) (dbs : RewardAttestationDb * EpochSettlementDb) : NodeService :=
  mkService (service_params s) (service_network s) (headers s) (blocks s) (chainstate s) (node_registry s) dbs.1 dbs.2 (snapshot_anchor s).

Definition with_attestations (s : NodeService) (adb : RewardAttestationDb) : NodeService := with_rewards s (adb, reward_settlements s).
Definition with_settlements (s : NodeService) (sdb : EpochSettlementDb) : NodeService := with_rewards s (reward_attestations s, sdb).

Abbreviation service := (stm NodeService).

(** One call of a repository *)
Definition on_headers : (HeaderDb -> res HeaderDb) -> service unit := on_part headers with_headers.
Definition on_blocks : (BlockDb -> res BlockDb) -> service unit := on_part blocks with_blocks.
Definition on_chainstate : (SQLiteChainStateRepository -> res SQLiteChainStateRepository) -> service unit := on_part chainstate with_chainstate.
Definition on_registry : (SQLiteNodeRegistryRepository -> res SQLiteNodeRegistryRepository) -> service unit := on_part node_registry with_registry.
Definition on_rewards : (RewardAttestationDb * EpochSettlementDb -> res (RewardAttestationDb * EpochSettlementDb)) -> service unit :=
  on_part rewards with_rewards.
Definition on_attestations : (RewardAttestationDb -> res RewardAttestationDb) -> service unit := on_part reward_attestations with_attestations.
Definition on_settlements : (EpochSettlementDb -> res EpochSettlementDb) -> service unit := on_part reward_settlements with_settlements.

Definition chain_tip (s : NodeService) : option ChainTip := header_get_tip (headers s).

Definition get_block_by_hash (s : NodeService) (hash : str) : res (option Block) := block_get (blocks s) hash.

Definition get_block_by_height (s : NodeService) (h : Z) : res (option Block) :=
  match header_get_hash_at_height (headers s) h with
  | None => Ok None
  | Some hash => block_get (blocks s) hash
  end.

(** ** Expected difficulty *)

Definition retarget (s : NodeService) (previous_header first_header : BlockHeader) (h : Z) : res Z :=
  let actual_timespan_seconds := Z.max 1 (timestamp previous_header - timestamp first_header) in
  calculate_next_work_required (bits previous_header) actual_timespan_seconds (service_params s) (Some h).

Definition _expected_bits_for_height (s : NodeService) (h : Z) : res Z :=
  if h <=? 0 then Ok (genesis_bits (service_params s))
  else
    match header_get_hash_at_height (headers s) (h - 1) with
    | None => Ok (genesis_bits (service_params s))
    | Some previous_hash =>
        let* found := header_get (headers s) previous_hash in
        match found with
        | None => Ok (genesis_bits (service_params s))
        | Some previous_header =>
            if negb (h mod difficulty_adjustment_window (service_params s) =? 0) then Ok (bits previous_header)
            else
              let window_start_height := Z.max 0 (h - difficulty_adjustment_window (service_params s)) in
              match header_get_hash_at_height (headers s) window_start_height with
              | None => Ok (bits previous_header)
              | Some first_hash =>
                  let* first := header_get (headers s) first_hash in
                  match first with
                  | None => Ok (bits previous_header)
                  | Some first_header => retarget s previous_header first_header h
                  end
              end
        end
    end.

(** [xs[i]] *)
Definition py_index {A} (xs : list A) (i : Z) : res A :=
  match xs !! Z.to_nat (if i <? 0 then i + len xs else i) with
  | Some x => if (i <? 0) && (i + len xs <? 0) then raise IndexError "list index out of range" else Ok x
  | None => raise IndexError "list index out of range"
  end.

Definition _expected_bits_for_candidate_height (s : NodeService) (h : Z) (validated_headers : list BlockHeader)
    (path_hashes : option (list str)) : res Z :=
  if h <=? 0 then Ok (genesis_bits (service_params s))
  else
    let* previous := match path_hashes with
      | None => Ok (last validated_headers)
      | Some path => let* hash := py_index path (h - 1) in header_get (headers s) hash
      end in
    match previous with
    | None => Ok (genesis_bits (service_params s))
    | Some previous_header =>
        if negb (h mod difficulty_adjustment_window (service_params s) =? 0) then Ok (bits previous_header)
        else
          let window_start_height := Z.max 0 (h - difficulty_adjustment_window (service_params s)) in
          let* first := match path_hashes with
            | None => let* hdr := py_index validated_headers window_start_height in Ok (Some hdr)
            | Some path => let* hash := py_index path window_start_height in header_get (headers s) hash
            end in
          match first with
          | None => Ok (bits previous_header)
          | Some first_header => retarget s previous_header first_header h
          end
    end.

(** ** Epoch seeds *)

Definition _hash_at_height (s : NodeService) (h : Z) (path_hashes : option (list str)) : option str :=
  match path_hashes with
  | Some path => if (0 <=? h) && (h <? len path) then path !! Z.to_nat h else header_get_hash_at_height (headers s) h
  | None => header_get_hash_at_height (headers s) h
  end.

(** The hashes at [start], ..., [start + n - 1], or nothing when one is missing *)
Fixpoint hashes_from (s : NodeService) (path_hashes : option (list str)) (start : Z) (n : nat) : option (list str) :=
  match n with
  | O => Some []
  | S n' =>
      match _hash_at_height s start path_hashes with
      | None => None
      | Some hash => match hashes_from s path_hashes (start + 1) n' with None => None | Some rest => Some (hash :: rest) end
      end
  end.

Definition _previous_epoch_seed_block_hashes (s : NodeService) (epoch : Z) (path_hashes : option (list str)) : res (list str) :=
  if epoch =? 0 then Ok [zero_hash]
  else
    let* previous_close_height := epoch_close_height (epoch - 1) (service_params s) in
    let* seed_version := reward_epoch_seed_version (service_network s) epoch in
    let window_size := if seed_version =? 1 then 1 else REWARD_EPOCH_SEED_V2_BLOCK_WINDOW in
    let start_height := Z.max 0 (previous_close_height - window_size + 1) in
    Ok (default [] (hashes_from s path_hashes start_height (Z.to_nat (previous_close_height + 1 - start_height)))).

Fixpoint seed_loop (s : NodeService) (path_hashes : option (list str)) (epochs : list Z) (mapping : gmap Z bytes) : res (gmap Z bytes) :=
  match epochs with
  | [] => Ok mapping
  | epoch :: epochs' =>
      let* previous_close_height := epoch_close_height (epoch - 1) (service_params s) in
      match _hash_at_height s previous_close_height path_hashes with
      | None => Ok mapping
      | Some previous_close_hash =>
          let* seed_hashes := _previous_epoch_seed_block_hashes s epoch path_hashes in
          if bool_decide (seed_hashes = []) then Ok mapping
          else
            let* seed := reward_epoch_seed previous_close_hash seed_hashes epoch (service_network s) in
            seed_loop s path_hashes epochs' (<[epoch := seed]> mapping)
      end
  end.

Definition _epoch_seed_map (s : NodeService) (next_height : Z) (path_hashes : option (list str)) : res (gmap Z bytes) :=
  let last_epoch := Z.max 0 (next_height / epoch_length_blocks (service_params s)) in
  let* seed0 := reward_epoch_seed zero_hash [zero_hash] 0 (service_network s) in
  seed_loop s path_hashes ((fun i => i + 1) <$> zrange last_epoch) {[0 := seed0]}.

(** ** Effects of a block on the registry and on the recorded rewards *)

Section effects.
Context `{PyRepr, CryptoBackend}.

Definition _apply_node_registry_block {V} `{NodeRegistryView V} (block : Block) (h : Z) (target_registry : V) : res V :=
  foldM (fun v t => if is_special_node_transaction t then apply_special_node_transaction t h v else Ok v)
    target_registry (tail (transactions block)).

Record Collected : Type := mkCollected {
  collected_bundles : list StoredRewardAttestationBundle;
  collected_settlements : list StoredEpochSettlement;
  collected_identities : gset identity;
  collected_settled : gset Z;
}.

(** One turn of [_collect_native_reward_block] *)
Definition collect_step (h : Z) (c : Collected) (t : Transaction) : res Collected :=
  let kind := md_get (metadata t) "kind" in
  if bool_decide (kind = Some REWARD_ATTESTATION_BUNDLE_KIND) then
    let* bundle := parse_reward_attestation_bundle_metadata (metadata t) in
    let* id := txid t in
    Ok (mkCollected (collected_bundles c ++ [mkStoredBundle id h bundle]) (collected_settlements c)
      (list_to_set (attestation_identity <$> attestations bundle) ∪ collected_identities c) (collected_settled c))
  else if bool_decide (kind = Some REWARD_SETTLE_EPOCH_KIND) then
    let* settlement := parse_reward_settlement_metadata (metadata t) in
    let* id := txid t in
    Ok (mkCollected (collected_bundles c) (collected_settlements c ++ [mkStoredSettlement id h settlement])
      (collected_identities c) ({[settlement_epoch_index settlement]} ∪ collected_settled c))
  else Ok c.

Definition _collect_native_reward_block (block : Block) (h : Z) (c : Collected) : res Collected :=
  foldM (collect_step h) c (tail (transactions block)).

(** One turn of the same loop with [persist=True] *)
Definition persist_step (h : Z) (dbs : RewardAttestationDb * EpochSettlementDb) (t : Transaction) :
    res (RewardAttestationDb * EpochSettlementDb) :=
  let kind := md_get (metadata t) "kind" in
  if bool_decide (kind = Some REWARD_ATTESTATION_BUNDLE_KIND) then
    let* bundle := parse_reward_attestation_bundle_metadata (metadata t) in
    let* id := txid t in
    let* db := add_bundle dbs.1 id h bundle in Ok (db, dbs.2)
  else if bool_decide (kind = Some REWARD_SETTLE_EPOCH_KIND) then
    let* settlement := parse_reward_settlement_metadata (metadata t) in
    let* id := txid t in
    let* db := add_settlement dbs.2 id h settlement in Ok (dbs.1, db)
  else Ok dbs.

(** ** Extending the tip *)

Definition _reward_validation_state (s : NodeService) : res (gset identity * list RewardAttestationBundle * gset Z) :=
  let* stored := list_bundles (reward_attestations s) None in
  Ok (attestation_identities (reward_attestations s), stored_bundle <$> stored, store_settled_epoch_indexes (reward_settlements s)).

Definition next_height (s : NodeService) : Z := match chain_tip s with None => 0 | Some tip => tip_height tip + 1 end.

(** The context [apply_block] validates in *)
Definition tip_context (s : NodeService) :
    res (ValidationContext (OverlayUtxoView SQLiteChainStateRepository) InMemoryNodeRegistryView) :=
  let h := next_height s in
  let previous_hash := match chain_tip s with None => zero_hash | Some tip => tip_hash tip end in
  let* '(identities, bundles, settled) := _reward_validation_state s in
  let* median := match chain_tip s with
    | None => Ok 0
    | Some tip =>
        let* found := header_get (headers s) (tip_hash tip) in
        match found with Some hdr => Ok (timestamp hdr) | None => raise AttributeError "timestamp" end
    end in
  let* seeds := _epoch_seed_map s h None in
  let* bits := _expected_bits_for_height s h in
  Ok (mkContext h median (service_params s) (overlay_over (chainstate s)) (service_network s)
    (registry_store_snapshot (node_registry s)) identities bundles settled seeds (Some previous_hash) (Some bits) true None).

(** What is checked before a block is written: the work of the chain so far, and the
    fees of the block *)
Definition checked_block (s : NodeService) (block : Block) : res (Z * Z) :=
  let* previous_cumulative_work := match chain_tip s with
    | None => Ok 0
    | Some tip =>
        let* record := header_get_record (headers s) (tip_hash tip) in
        Ok (match record with Some r => default 0 (record_work r) | None => 0 end)
    end in
  let* context := tip_context s in
  let* total_fees := validate_block block context in
  Ok (previous_cumulative_work, total_fees).

(** The writes of a block, each committed alone.  [chainstate.apply_block] spends and
    creates outputs one call at a time. *)
Definition write_transaction (h : Z) (coinbase : bool) (t : Transaction) : service unit :=
  do! sfold (fun _ o => on_chainstate (fun db => store_spend_utxo db o)) tt (spends t) in
  let! id := lift (txid t) in
  sfold (fun _ '(o, e) => on_chainstate (fun db => store_put_utxo db o e)) tt (creates t id h coinbase).

Definition write_outputs (block : Block) (h : Z) : service unit :=
  sfold (fun _ '(index, t) => write_transaction h (index =? 0) t) tt (enumerate (transactions block)).

Definition write_registry (block : Block) (h : Z) : service unit :=
  sfold (fun _ t => if is_special_node_transaction t then on_registry (apply_special_node_transaction t h) else ret tt)
    tt (tail (transactions block)).

Definition _apply_native_reward_block (block : Block) (h : Z) : service unit :=
  sfold (fun _ t => on_rewards (fun dbs => persist_step h dbs t)) tt (tail (transactions block)).

Definition write_block (block : Block) (previous_cumulative_work : Z) : service unit :=
  let! h := gets next_height in
  let! work := lift (header_work (header block)) in
  do! on_headers (fun db => header_put db (header block) (Some h) (Some (previous_cumulative_work + work)) true) in
  do! on_blocks (fun db => block_put db block) in
  do! write_outputs block h in
  do! write_registry block h in
  do! _apply_native_reward_block block h in
  let! hash := lift (block_hash (header block)) in
  on_headers (fun db => header_set_tip db hash h).

Definition apply_block (block : Block) : service Z :=
  let! checked := asks (fun s => checked_block s block) in
  do! write_block block checked.1 in
  ret checked.2.

(** ** Switching branches *)

Record Replay : Type := mkReplay {
  replay_utxos : InMemoryUtxoView;
  replay_registry : InMemoryNodeRegistryView;
  replay_rewards : Collected;
  replay_previous_hash : str;
  replay_median_time_past : Z;
  replay_headers : list BlockHeader;
}.

Definition empty_replay : Replay :=
  mkReplay (mkUtxos ∅) (mkRegistry []) (mkCollected [] [] ∅ ∅) zero_hash 0 [].

(** The context of one block of a candidate branch *)
Definition branch_context (s : NodeService) (path_hashes : list str) (r : Replay) (h : Z) :
    res (ValidationContext InMemoryUtxoView InMemoryNodeRegistryView) :=
  let* seeds := _epoch_seed_map s h (Some path_hashes) in
  let* bits := _expected_bits_for_candidate_height s h (replay_headers r) (Some path_hashes) in
  Ok (mkContext h (replay_median_time_past r) (service_params s) (replay_utxos r) (service_network s) (replay_registry r)
    (collected_identities (replay_rewards r)) (stored_bundle <$> collected_bundles (replay_rewards r))
    (collected_settled (replay_rewards r)) seeds (Some (replay_previous_hash r)) (Some bits) true None).

(** The body of the loops over the heights of the branch *)
Definition replay_block (s : NodeService) (path_hashes : list str) (r : Replay) (h : Z) : res Replay :=
  let* hash := py_index path_hashes h in
  let* found := block_get (blocks s) hash in
  match found with
  | None => raise ValueError "Cannot activate chain without stored block"
  | Some block =>
      let* context := branch_context s path_hashes r h in
      let* _ := validate_block block context in
      let* utxos := utxo_apply_block (replay_utxos r) block h in
      let* registry := _apply_node_registry_block block h (replay_registry r) in
      let* rewards := _collect_native_reward_block block h (replay_rewards r) in
      Ok (mkReplay utxos registry rewards hash (timestamp (header block)) (replay_headers r ++ [header block]))
  end.

(** [range(a, b)] *)
Definition py_range (a c : Z) : list Z := (fun i => a + i) <$> zrange (c - a).

Fixpoint common_prefix (old_path new_path : list str) : Z :=
  match old_path, new_path with
  | a :: old', c :: new' => if bool_decide (a = c) then 1 + common_prefix old' new' else 0
  | _, _ => 0
  end.

(** Where the replay starts: at the tip when the branch extends it, at the root
    otherwise *)
Definition start_replay (s : NodeService) (path_hashes old_path : list str) (previous_tip : option ChainTip) : res Replay :=
  let prefix := common_prefix old_path path_hashes in
  match previous_tip with
  | Some tip =>
      if prefix =? len old_path then
        let* bundles := list_bundles (reward_attestations s) None in
        let* settlements := list_settlements (reward_settlements s) None in
        let* found := header_get (headers s) (tip_hash tip) in
        match found with
        | None => raise ValueError "missing current active tip header"
        | Some previous_header =>
            Ok (mkReplay (memory_from_entries (store_list_utxos (chainstate s))) (registry_store_snapshot (node_registry s))
              (mkCollected bundles settlements (attestation_identities (reward_attestations s))
                (store_settled_epoch_indexes (reward_settlements s)))
              (tip_hash tip) (timestamp previous_header) [])
        end
      else foldM (replay_block s path_hashes) empty_replay (zrange prefix)
  | None => foldM (replay_block s path_hashes) empty_replay (zrange prefix)
  end.

Definition check_anchor (s : NodeService) (path_hashes : list str) : res unit :=
  match snapshot_anchor s with
  | None => Ok tt
  | Some anchor =>
      if (len path_hashes <=? anchor_height anchor) then raise ValueError "candidate chain does not match the trusted snapshot anchor"
      else
        let* hash := py_index path_hashes (anchor_height anchor) in
        raise_if (negb (bool_decide (hash = anchor_hash anchor))) ValueError "candidate chain does not match the trusted snapshot anchor"
  end.

Record ChainActivationResult : Type := mkActivation {
  activated_tip : str;
  applied_blocks : Z;
  reorged : bool;
  reorg_depth : Z;
  old_tip : option str;
  new_tip : str;
  common_ancestor : option str;
  disconnected_blocks : Z;
  readded_transaction_count : Z;
}.

(** The transactions of the blocks a change of branch disconnects *)
Definition _disconnected_branch_transactions (s : NodeService) (previous_tip : option ChainTip) (new_tip_hash : str) :
    res (list Transaction) :=
  match previous_tip with
  | None => Ok []
  | Some tip =>
      let* old_path := header_path_to_root (headers s) (tip_hash tip) in
      let* new_path := header_path_to_root (headers s) new_tip_hash in
      let disconnected_hashes := drop (Z.to_nat (common_prefix old_path new_path)) old_path in
      let* groups := mapM (fun hash => let* found := block_get (blocks s) hash in
        Ok (match found with Some block => tail (transactions block) | None => [] end)) disconnected_hashes in
      Ok (concat groups)
  end.

(** Writes the replayed state and makes the branch the main chain, one table after
    the other *)
Definition commit_replay (path_hashes : list str) (r : Replay) : service unit :=
  do! on_chainstate (fun db => store_replace_all db (memory_list_entries (replay_utxos r))) in
  do! on_registry (fun db => registry_store_replace_all db (list_records (replay_registry r))) in
  do! on_attestations (fun db => attestations_replace_all db (collected_bundles (replay_rewards r))) in
  do! on_settlements (fun db => settlements_replace_all db (collected_settlements (replay_rewards r))) in
  on_headers (fun db => header_set_main_chain db path_hashes).

(** What is computed before a branch is written: the report, the branch, the state at
    its end and the transactions of the blocks it disconnects *)
Definition branch_plan (s : NodeService) (hash : str) (previous_tip : option ChainTip) :
    res (ChainActivationResult * list str * Replay * list Transaction) :=
  let* path_hashes := header_path_to_root (headers s) hash in
  check_anchor s path_hashes ;;
  let* old_path := match previous_tip with None => Ok [] | Some tip => header_path_to_root (headers s) (tip_hash tip) end in
  let prefix := common_prefix old_path path_hashes in
  let* ancestor := (if 0 <? prefix then let* a := py_index path_hashes (prefix - 1) in Ok (Some a) else Ok None) in
  let* r0 := start_replay s path_hashes old_path previous_tip in
  let* r := foldM (replay_block s path_hashes) r0 (py_range prefix (len path_hashes)) in
  let* disconnected_transactions := _disconnected_branch_transactions s previous_tip hash in
  Ok (mkActivation hash (Z.max 0 (len path_hashes - prefix))
        (match previous_tip with Some tip => negb (bool_decide (tip_hash tip ∈ path_hashes)) | None => false end)
        (len old_path - prefix) (tip_hash <$> previous_tip) hash ancestor (len old_path - prefix) (len disconnected_transactions),
      path_hashes, r, disconnected_transactions).

Definition activate_branch (hash : str) (previous_tip : option ChainTip) : service ChainActivationResult :=
  let! plan := asks (fun s => branch_plan s hash previous_tip) in
  let '(result, path_hashes, r, _) := plan in
  do! commit_replay path_hashes r in
  ret result.

(** What a result without a change of branch says *)
Definition no_reorg (hash : str) (n : Z) (old : option str) : ChainActivationResult := mkActivation hash n false 0 old hash old 0 0.

Definition activate_chain (hash : str) : service ChainActivationResult :=
  let! previous_tip := gets chain_tip in
  let old := tip_hash <$> previous_tip in
  let! candidate := asks (fun s => header_get_record (headers s) hash) in
  if bool_decide (old = Some hash) then ret (no_reorg hash 0 old)
  else
    match previous_tip, candidate with
    | Some tip, Some record =>
        if bool_decide (record_previous record = tip_hash tip) then
          let! found := asks (fun s => block_get (blocks s) hash) in
          match found with
          | None => throw ValueError "Cannot activate chain without stored block"
          | Some block => let! _fees := apply_block block in ret (no_reorg hash 1 old)
          end
        else activate_branch hash previous_tip
    | _, _ => activate_branch hash previous_tip
    end.
End effects.
