(* ===== verification/ServiceRuns.v ===== *)
(** * What the writes of the chain do ([Service])

    [apply_block] and [activate_chain] write one table after the other.  The
    functions of this file say in one expression what a call that returns has made
    of the node; each is proved to be the outcome of the sequence of writes, and
    the sequence raises the exception of the first write that fails. *)

From S2P Require Import Prelude PyState PyOrder PyText Hashes Params Models Serialization Registry Economics Pow Merkle Crypto Addresses Json Settlement Nodes Utxo UtxoStore Headers RewardStore Validation Service.

#[global] Instance headers_part : Part headers with_headers.
Proof. by split; intros []. Qed.
#[global] Instance blocks_part : Part blocks with_blocks.
Proof. by split; intros []. Qed.
#[global] Instance chainstate_part : Part chainstate with_chainstate.
Proof. by split; intros []. Qed.
#[global] Instance registry_part : Part node_registry with_registry.
Proof. by split; intros []. Qed.
#[global] Instance rewards_part : Part rewards with_rewards.
Proof. split; [by intros [] []|done|by intros []]. Qed.

#[global] Instance attestations_part : Part reward_attestations with_attestations.
Proof. by split; intros []. Qed.
#[global] Instance settlements_part : Part reward_settlements with_settlements.
Proof. by split; intros []. Qed.

Lemma headers_write f : performs headers with_headers (on_headers f) f.
Proof. apply performs_part, _. Qed.
Lemma blocks_write f : performs blocks with_blocks (on_blocks f) f.
Proof. apply performs_part, _. Qed.
Lemma chainstate_write f : performs chainstate with_chainstate (on_chainstate f) f.
Proof. apply performs_part, _. Qed.
Lemma registry_write f : performs node_registry with_registry (on_registry f) f.
Proof. apply performs_part, _. Qed.
Lemma rewards_write f : performs rewards with_rewards (on_rewards f) f.
Proof. apply performs_part, _. Qed.

Lemma attestations_write f : performs reward_attestations with_attestations (on_attestations f) f.
Proof. apply performs_part, _. Qed.
Lemma settlements_write f : performs reward_settlements with_settlements (on_settlements f) f.
Proof. apply performs_part, _. Qed.

Section runs.
Context `{PyRepr, CryptoBackend}.

(** ** The writes of a block *)

Lemma write_transaction_performs h coinbase t :
  performs chainstate with_chainstate (write_transaction h coinbase t) (fun db => store_apply_transaction db t h coinbase).
Proof.
  apply performs_bind; [apply _| |intros _].
  - apply performs_fold; [apply _|]. intros _ o. apply performs_part, _.
  - apply performs_call; [apply _|]. intros id. apply performs_fold; [apply _|]. intros _ [o e]. apply performs_part, _.
Qed.

Lemma write_outputs_performs block h :
  performs chainstate with_chainstate (write_outputs block h) (fun db => utxo_apply_block db block h).
Proof. apply performs_fold; [apply _|]. intros _ [index t]. apply write_transaction_performs. Qed.

Lemma write_registry_performs block h :
  performs node_registry with_registry (write_registry block h) (_apply_node_registry_block block h).
Proof.
  apply performs_fold; [apply _|]. intros _ t. destruct (is_special_node_transaction t); [apply performs_part, _|apply performs_ret, _].
Qed.

Definition rewards_recorded (block : Block) (h : Z) (dbs : RewardAttestationDb * EpochSettlementDb) :
    res (RewardAttestationDb * EpochSettlementDb) :=
  foldM (persist_step h) dbs (tail (transactions block)).

Lemma write_rewards_performs block h : performs rewards with_rewards (_apply_native_reward_block block h) (rewards_recorded block h).
Proof. apply performs_fold; [apply _|]. intros _ t. apply performs_part, _. Qed.

(** ** Extending the tip *)

Definition block_written (s : NodeService) (block : Block) (previous_cumulative_work : Z) : res NodeService :=
  let h := next_height s in
  let* work := header_work (header block) in
  let* hdb := header_put (headers s) (header block) (Some h) (Some (previous_cumulative_work + work)) true in
  let* bdb := block_put (blocks s) block in
  let* utxos := utxo_apply_block (chainstate s) block h in
  let* registry := _apply_node_registry_block block h (node_registry s) in
  let* '(adb, sdb) := rewards_recorded block h (reward_attestations s, reward_settlements s) in
  let* hash := block_hash (header block) in
  let* hdb' := header_set_tip hdb hash h in
  Ok (mkService (service_params s) (service_network s) hdb' bdb utxos registry adb sdb (snapshot_anchor s)).

(** One write of a sequence *)
Ltac run_write Hp :=
  unfold sbind at 1;
  match goal with |- match match ?m ?s with _ => _ end with _ => _ end =>
    let Hw := fresh "Hw" in pose proof (Hp s) as Hw; destruct (m s) as [[[]|?] ?];
    destruct Hw as (? & Hw & ->); unfold rewards in Hw; cbn [with_headers with_blocks with_chainstate with_registry with_rewards with_attestations with_settlements
      headers blocks chainstate node_registry reward_attestations reward_settlements fst snd] in Hw; rewrite Hw; cbn [rbind]; clear Hw; [|done]
  end.

Ltac last_write Hp :=
  match goal with |- match ?m ?s with _ => _ end =>
    let Hw := fresh "Hw" in pose proof (Hp s) as Hw; destruct (m s) as [[[]|?] ?];
    destruct Hw as (? & Hw & ->);
    unfold rewards in Hw; cbn [with_headers with_blocks with_chainstate with_registry with_rewards with_attestations with_settlements
      headers blocks chainstate node_registry reward_attestations reward_settlements fst snd] in Hw; rewrite Hw; cbn [rbind]; clear Hw
  end.

Lemma write_block_runs block work : runs_as (write_block block work) (fun s => let* s' := block_written s block work in Ok (tt, s')).
Proof.
  intros s. unfold write_block, block_written, sbind at 1, gets. cbv zeta. unfold sbind at 1, lift at 1.
  destruct (header_work (header block)) as [w|e]; cbn [rbind]; [|done].
  run_write (headers_write (fun db => header_put db (header block) (Some (next_height s)) (Some (work + w)) true)).
  run_write (blocks_write (fun db => block_put db block)).
  run_write (write_outputs_performs block (next_height s)).
  run_write (write_registry_performs block (next_height s)).
  run_write (write_rewards_performs block (next_height s)). match goal with dbs : _ * _ |- _ => destruct dbs as [adb sdb] end.
  unfold sbind at 1, lift at 1. destruct (block_hash (header block)) as [hash|e]; cbn [rbind]; [|done].
  by last_write (headers_write (fun db => header_set_tip db hash (next_height s))).
Qed.

Definition block_applied (s : NodeService) (block : Block) : res (Z * NodeService) :=
  let* '(previous_cumulative_work, total_fees) := checked_block s block in
  let* s' := block_written s block previous_cumulative_work in
  Ok (total_fees, s').

Lemma apply_block_runs block : runs_as (apply_block block) (fun s => block_applied s block).
Proof.
  intros s. unfold apply_block, block_applied, sbind at 1, asks. destruct (checked_block s block) as [[work fees]|e]; cbn [rbind]; [|done].
  unfold sbind at 1. pose proof (write_block_runs block work s) as Hw. cbn [fst snd]. destruct (write_block block work s) as [[[]|e] s'].
  - apply rbind_Ok in Hw as (s1 & -> & Hw). by injection Hw as ->.
  - destruct (block_written s block work); [discriminate|]. by injection Hw as ->.
Qed.

(** ** Switching branches *)

Definition replay_committed (s : NodeService) (path_hashes : list str) (r : Replay) : res NodeService :=
  let* utxos := store_replace_all (chainstate s) (memory_list_entries (replay_utxos r)) in
  let* registry := registry_store_replace_all (node_registry s) (list_records (replay_registry r)) in
  let* adb := attestations_replace_all (reward_attestations s) (collected_bundles (replay_rewards r)) in
  let* sdb := settlements_replace_all (reward_settlements s) (collected_settlements (replay_rewards r)) in
  let* hdb := header_set_main_chain (headers s) path_hashes in
  Ok (mkService (service_params s) (service_network s) hdb (blocks s) utxos registry adb sdb (snapshot_anchor s)).

Lemma commit_replay_runs path r : runs_as (commit_replay path r) (fun s => let* s' := replay_committed s path r in Ok (tt, s')).
Proof.
  intros s. unfold commit_replay, replay_committed.
  run_write (chainstate_write (fun db => store_replace_all db (memory_list_entries (replay_utxos r)))).
  run_write (registry_write (fun db => registry_store_replace_all db (list_records (replay_registry r)))).
  run_write (attestations_write (fun db => attestations_replace_all db (collected_bundles (replay_rewards r)))).
  run_write (settlements_write (fun db => settlements_replace_all db (collected_settlements (replay_rewards r)))).
  by last_write (headers_write (fun db => header_set_main_chain db path)).
Qed.

Definition branch_activated (s : NodeService) (hash : str) (previous_tip : option ChainTip) : res (ChainActivationResult * NodeService) :=
  let* '(result, path_hashes, r, _) := branch_plan s hash previous_tip in
  let* s' := replay_committed s path_hashes r in
  Ok (result, s').

Lemma activate_branch_runs hash tip : runs_as (activate_branch hash tip) (fun s => branch_activated s hash tip).
Proof.
  intros s. unfold activate_branch, branch_activated, sbind at 1, asks. destruct (branch_plan s hash tip) as [[[[result path] r] ts]|e]; cbn [rbind]; [|done].
  unfold sbind at 1. pose proof (commit_replay_runs path r s) as Hw. destruct (commit_replay path r s) as [[[]|e] s'].
  - apply rbind_Ok in Hw as (s1 & -> & Hw). by injection Hw as ->.
  - destruct (replay_committed s path r); [discriminate|]. by injection Hw as ->.
Qed.

Definition chain_activated (s : NodeService) (hash : str) : res (ChainActivationResult * NodeService) :=
  let previous_tip := chain_tip s in
  let old := tip_hash <$> previous_tip in
  let* candidate := header_get_record (headers s) hash in
  if bool_decide (old = Some hash) then Ok (no_reorg hash 0 old, s)
  else
    match previous_tip, candidate with
    | Some tip, Some record =>
        if bool_decide (record_previous record = tip_hash tip) then
          let* found := block_get (blocks s) hash in
          match found with
          | None => raise ValueError "Cannot activate chain without stored block"
          | Some block => let* '(_, s') := block_applied s block in Ok (no_reorg hash 1 old, s')
          end
        else branch_activated s hash previous_tip
    | _, _ => branch_activated s hash previous_tip
    end.

Lemma activate_chain_runs hash : runs_as (activate_chain hash) (fun s => chain_activated s hash).
Proof.
  intros s. unfold activate_chain, chain_activated, sbind at 1, gets. cbv zeta. unfold sbind at 1, asks.
  destruct (header_get_record (headers s) hash) as [candidate|e]; cbn [rbind]; [|done]. case_bool_decide; [done|].
  destruct (chain_tip s) as [tip|]; [|apply activate_branch_runs]. destruct candidate as [record|]; [|apply activate_branch_runs].
  case_bool_decide; [|apply activate_branch_runs]. unfold sbind at 1, asks.
  destruct (block_get (blocks s) hash) as [[block|]|e]; cbn [rbind]; [|done..].
  unfold sbind. pose proof (apply_block_runs block s) as Hw. by destruct (apply_block block s) as [[fees|e] s']; rewrite Hw.
Qed.

(** ** Calls that return *)

Lemma apply_block_returns block s fees s' : apply_block block s = (Ok fees, s') <-> block_applied s block = Ok (fees, s').
Proof. split; [apply (runs_as_returns _ (fun s => block_applied s block))|apply (runs_as_ok _ (fun s => block_applied s block))]; apply apply_block_runs. Qed.

Lemma activate_chain_returns hash s result s' : activate_chain hash s = (Ok result, s') <-> chain_activated s hash = Ok (result, s').
Proof. split; [apply (runs_as_returns _ (fun s => chain_activated s hash))|apply (runs_as_ok _ (fun s => chain_activated s hash))]; apply activate_chain_runs. Qed.

End runs.
