(* ===== verification/Ledger.v ===== *)
(** * The ledger as a function of the blocks

    What the node promises of its persisted state: the unspent outputs and the
    registry are a function of the sequence of blocks of the active chain,
    whatever order of extensions and reorganisations led to it.  [Ledger] is that
    function's state, [ledger_step] one block of it; the lemmas show that the
    views the code updates in place, in memory and in the tables, follow it. *)

From S2P Require Import Prelude PyOrder PyText Hashes Params Models Serialization Registry Economics Pow Merkle Crypto Addresses Json Settlement Nodes Utxo UtxoStore Headers RewardStore Validation ValidationFacts RegistryRules Service.

(** ** Registry transactions as updates of a finite map *)

Section nodes.
Context `{CryptoBackend}.

(** The record a registry transaction writes, from the record its node has *)
Definition special_record (t : Transaction) (h : Z) (existing : str -> option NodeRecord) : res NodeRecord :=
  let m := metadata t in
  if is_legacy_register_node_transaction t then
    let* owner_hex := md_index m "owner_pubkey_hex" in
    let* owner := parse_public_key_hex owner_hex in
    let* i := md_index m "node_id" in
    let* payout := md_index m "payout_address" in
    Ok (mkNodeRecord i payout owner h h None None None false)
  else if is_register_reward_node_transaction t then
    let* owner_hex := md_index m "owner_pubkey_hex" in
    let* owner := parse_public_key_hex owner_hex in
    let* i := md_index m "node_id" in
    let* payout := md_index m "payout_address" in
    let* node_key_hex := md_index m "node_pubkey_hex" in
    let* node_key := parse_public_key_hex node_key_hex in
    let* host := md_index m "declared_host" in
    let* port := md_int m "declared_port" in
    let registered := match existing i with None => h | Some record => registered_height record end in
    Ok (mkNodeRecord i payout owner registered h (Some node_key) (Some host) (Some port) true)
  else if is_renew_node_transaction t then
    let* i := md_index m "node_id" in
    match existing i with
    | None => raise ValueError "Cannot renew a node that is not registered."
    | Some record =>
        if is_legacy_renew_node_transaction t then
          Ok (mkNodeRecord (node_id record) (payout_address record) (owner_pubkey record) (registered_height record) h None None None false)
        else
          let* host := md_index m "declared_host" in
          let* port := md_int m "declared_port" in
          Ok (mkNodeRecord (node_id record) (payout_address record) (owner_pubkey record) (registered_height record) h
            (node_pubkey record) (Some host) (Some port) (reward_registration record))
    end
  else raise ValueError "Transaction is not a special node transaction.".

Lemma special_record_ext t h f g : (forall i, f i = g i) -> special_record t h f = special_record t h g.
Proof.
  intros Hfg. unfold special_record.
  destruct (is_legacy_register_node_transaction t); [done|].
  destruct (is_register_reward_node_transaction t).
  - repeat (apply rbind_ext; intros). by rewrite Hfg.
  - destruct (is_renew_node_transaction t); [|done]. apply rbind_ext. intros i. by rewrite Hfg.
Qed.

Lemma apply_special_record {V} `{NodeRegistryView V} t h (v : V) :
  apply_special_node_transaction t h v = rbind (special_record t h (get_by_node_id v)) (fun r => Ok (upsert v r)).
Proof.
  unfold apply_special_node_transaction, special_record, is_renew_node_transaction. cbv zeta.
  destruct (is_legacy_register_node_transaction t).
  { rewrite !rbind_assoc. do 4 (apply rbind_ext; intros ?; rewrite ?rbind_assoc). done. }
  destruct (is_register_reward_node_transaction t).
  { rewrite !rbind_assoc. do 8 (apply rbind_ext; intros ?; rewrite ?rbind_assoc). done. }
  destruct (is_legacy_renew_node_transaction t); simpl.
  { rewrite !rbind_assoc. apply rbind_ext. intros i. by destruct (get_by_node_id v i). }
  destruct (is_renew_reward_node_transaction t); [|done].
  rewrite !rbind_assoc. apply rbind_ext. intros i. destruct (get_by_node_id v i); [|done].
  rewrite !rbind_assoc. do 2 (apply rbind_ext; intros ?; rewrite ?rbind_assoc). done.
Qed.

Lemma special_record_id t h existing r :
  (forall i old, existing i = Some old -> node_id old = i) -> special_record t h existing = Ok r ->
  md_index (metadata t) "node_id" = Ok (node_id r).
Proof.
  intros Hk E. unfold special_record in E. cbv zeta in E.
  destruct (is_legacy_register_node_transaction t); [inv_ok; done|].
  destruct (is_register_reward_node_transaction t); [inv_ok; done|].
  destruct (is_renew_node_transaction t); [|discriminate]. apply rbind_Ok in E as (i & Hi & E).
  destruct (existing i) as [old|] eqn:Eo; [|discriminate]. apply Hk in Eo. subst i. rewrite Hi.
  destruct (is_legacy_renew_node_transaction t); inv_ok; done.
Qed.

(** One registry transaction on the map of records by node id *)
Definition nodes_step (h : Z) (m : gmap str NodeRecord) (t : Transaction) : res (gmap str NodeRecord) :=
  if is_special_node_transaction t then
    let* r := special_record t h (fun i => m !! i) in Ok (<[node_id r := r]> m)
  else Ok m.

(** A view that stands for a map, with unique owners *)
Definition tracks {V} `{NodeRegistryLaws V} (v : V) (m : gmap str NodeRecord) : Prop :=
  view_wf v /\ owners_unique v /\ forall i, get_by_node_id v i = m !! i.

Definition owner_free_in (m : gmap str NodeRecord) (r : NodeRecord) : Prop :=
  forall i r', m !! i = Some r' -> owner_pubkey r' = owner_pubkey r -> i = node_id r.

Lemma tracks_owner_free {V} `{NodeRegistryLaws V} (v : V) m r : tracks v m -> owner_free v r <-> owner_free_in m r.
Proof.
  intros (Hw & _ & Hg). split; intros Hf.
  - intros i r' Hi Ho. rewrite <- Hg in Hi. rewrite <- (get_by_node_id_key v i r' Hw Hi). apply Hf; [|done].
    apply list_records_get; [done|]. by rewrite (get_by_node_id_key v i r' Hw Hi).
  - intros r' Hin Ho. apply list_records_get in Hin; [|done]. rewrite Hg in Hin. by apply (Hf (node_id r') r').
Qed.

Lemma tracks_upsert {V} `{NodeRegistryLaws V} (v : V) m r :
  tracks v m -> owner_free_in m r -> tracks (upsert v r) (<[node_id r := r]> m).
Proof.
  intros Ht Hf. apply (tracks_owner_free v m r Ht) in Hf. destruct Ht as (Hw & Hu & Hg).
  split; [by apply upsert_wf|]. split; [by apply upsert_owners_unique|]. intros i.
  destruct (decide (i = node_id r)) as [->|Hne].
  - rewrite lookup_insert_eq. by apply get_upsert_same.
  - rewrite lookup_insert_ne by done. rewrite <- Hg. by apply get_upsert_other.
Qed.

(** Uniqueness of owners is a property of the map. *)
Lemma tracks_ext {V} `{NodeRegistryLaws V} {V'} `{NodeRegistryLaws V'} (v : V) (w : V') m :
  tracks v m -> view_wf w -> (forall i, get_by_node_id w i = m !! i) -> tracks w m.
Proof.
  intros (Hw & Hu & Hg) Hw' Hg'. split; [done|]. split; [|done]. intros r1 r2 Hr1 Hr2 Ho.
  apply list_records_get in Hr1, Hr2; [|done..]. rewrite Hg', <- Hg in Hr1. rewrite Hg', <- Hg in Hr2.
  apply Hu; [by apply list_records_get..|done].
Qed.

Lemma tracks_snapshot db m : tracks db m -> tracks (registry_store_snapshot db) m.
Proof.
  intros Ht. apply (tracks_ext db _ m Ht); [apply registry_from_records_wf|].
  intros i. rewrite registry_snapshot_get by apply Ht. apply Ht.
Qed.

Lemma registry_inserts_rows records db db' :
  foldM registry_store_insert db records = Ok db' ->
  registry_rows db' = foldl (fun m r => <[node_id r := r]> m) (registry_rows db) records.
Proof.
  revert db. induction records as [|r records IH]; intros db E; simpl in E |- *; [by injection E as <-|].
  apply rbind_Ok in E as (db1 & E1 & E). apply IH in E. rewrite E. unfold registry_store_insert in E1.
  do 2 (case_bool_decide; [discriminate|]). by injection E1 as <-.
Qed.

Lemma inserted_lookup (records : list NodeRecord) (m : gmap str NodeRecord) (i : str) :
  NoDup (node_id <$> records) ->
  foldl (fun m r => <[node_id r := r]> m) m records !! i =
  match list_find (fun r => node_id r = i) records with Some (_, r) => Some r | None => m !! i end.
Proof.
  revert m. induction records as [|r l IH]; intros m Hn; [done|]. csimpl in Hn. apply NoDup_cons in Hn as [Hr Hn].
  simpl. rewrite IH by done. destruct (decide (node_id r = i)) as [<-|Hne].
  - destruct (list_find (fun r0 => node_id r0 = node_id r) l) as [[j r']|] eqn:E; simpl; [|apply lookup_insert_eq].
    apply list_find_Some in E as (Hj & Hid & _). destruct Hr. apply list_elem_of_fmap. exists r'. split; [done|].
    by eapply list_elem_of_lookup_2.
  - destruct (list_find (fun r0 => node_id r0 = i) l) as [[j r']|]; simpl; [done|]. by apply lookup_insert_ne.
Qed.

(** Writing the records of a view to the table keeps the map. *)
Lemma tracks_replace {V} `{NodeRegistryLaws V} (v : V) db db' m :
  tracks v m -> registry_store_replace_all db (list_records v) = Ok db' -> tracks db' m.
Proof.
  intros Ht E. apply registry_inserts_rows in E. simpl in E. pose proof (proj1 Ht) as Hw.
  assert (Hl : forall i, registry_rows db' !! i = m !! i).
  { intros i. rewrite E, inserted_lookup by by apply list_records_NoDup. rewrite lookup_empty, <- (proj2 (proj2 Ht) i).
    destruct (list_find (fun r => node_id r = i) (list_records v)) as [[j r]|] eqn:Ef.
    - apply list_find_Some in Ef as (Hj & <- & _). apply list_elem_of_lookup_2, list_records_get in Hj; [|done]. done.
    - destruct (get_by_node_id v i) as [r|] eqn:Eg; [|done]. apply list_find_None in Ef. rewrite Forall_forall in Ef.
      pose proof (get_by_node_id_key v i r Hw Eg) as Hk. destruct (Ef r); [|done]. apply list_records_get; [done|]. by rewrite Hk. }
  apply (tracks_ext v db' m Ht); [|done]. intros i r Hr. rewrite Hl, <- (proj2 (proj2 Ht) i) in Hr. by eapply get_by_node_id_key.
Qed.
End nodes.

Section ledger.
Context `{PyRepr, CryptoBackend}.

(** A registry transaction that validates against one view moves every view of
    the same map to the same map. *)
Lemma special_tracks {U R} `{UtxoView U} `{NodeRegistryLaws R} {V} `{NodeRegistryLaws V}
    t (context : ValidationContext U R) x (v' : R) (w w' : V) m :
  is_special_node_transaction t = true -> _validate_special_node_transaction_stateful t context = Ok x ->
  tracks (node_registry_view context) m -> tracks w m ->
  apply_special_node_transaction t (context_height context) (node_registry_view context) = Ok v' ->
  apply_special_node_transaction t (context_height context) w = Ok w' ->
  exists m', nodes_step (context_height context) m t = Ok m' /\ tracks v' m' /\ tracks w' m'.
Proof.
  intros Hs Hv Htv Htw Ea Eb. destruct Htv as (Hw & Hu & Hg).
  destruct (special_update t context x v' Hw Hu Hs Hv Ea) as (_ & owner & _ & _ & _ & Hup).
  rewrite apply_special_record in Ea. rewrite apply_special_record in Eb. apply rbind_Ok in Ea as (r & Er & Ea). injection Ea as <-.
  rewrite (special_record_ext _ _ _ _ Hg) in Er. rewrite (special_record_ext _ _ _ _ (proj2 (proj2 Htw))), Er in Eb. injection Eb as <-.
  unfold nodes_step. rewrite Hs, Er. exists (<[node_id r := r]> m). split; [done|].
  assert (Hf : owner_free_in m r).
  { intros i r' Hi Ho. destruct Hup as [Hw' Hu' (i' & r0 & Hi' & _ & _ & _ & Hother & _)].
    pose proof (special_record_id t (context_height context) (fun i => m !! i) r) as Hid. rewrite Er in Hid.
    assert (i' = node_id r) as ->.
    { rewrite Hid in Hi'; [by injection Hi'|intros j old Hj; rewrite <- Hg in Hj; by apply (get_by_node_id_key _ _ _ Hw Hj)|done]. }
    destruct (decide (i = node_id r)) as [->|Hne]; [done|]. rewrite <- Hg in Hi. pose proof (get_by_node_id_key _ _ _ Hw Hi) as <-.
    rewrite <- (Hother _ Hne) in Hi. f_equal. apply Hu'; [by apply list_records_get|apply list_records_get; [done|by apply get_upsert_same]|done]. }
  split; apply tracks_upsert; done.
Qed.

(** A validated block moves every view of the registry it was validated against
    as its registry transactions move the map. *)
Lemma block_tracks {U R} `{UtxoView U} `{NodeRegistryLaws R} {V} `{NodeRegistryLaws V}
    (context : ValidationContext U R) ts (st st' : Staged (U:=U) (R:=R)) (w w' : V) m :
  Forall (fun t => is_coinbase_transaction t = false) ts -> foldM (stage_transaction context) st ts = Ok st' ->
  tracks (staged_registry st) m -> tracks w m -> foldM (registry_step (context_height context)) w ts = Ok w' ->
  exists m', foldM (nodes_step (context_height context)) m ts = Ok m' /\ tracks (staged_registry st') m' /\ tracks w' m'.
Proof.
  intros Hts. revert st w m. induction Hts as [|t ts Hc _ IH]; intros st w m E Hst Hw Ew; simpl in E, Ew |- *.
  { injection E as <-. injection Ew as <-. by exists m. }
  apply rbind_Ok in E as (st1 & E1 & E). apply rbind_Ok in Ew as (w1 & Ew1 & Ew).
  apply stage_transaction_inv in E1 as (? & ? & ? & staged & fee & _ & _ & Hs & Hv & E1).
  apply stage_effects_registry in E1. simpl in E1. apply staged_context_fields in Hs as (_ & Hr & Hh & _).
  assert (Hstep : exists m1, nodes_step (context_height context) m t = Ok m1 /\ tracks (staged_registry st1) m1 /\ tracks w1 m1).
  { unfold registry_step in E1, Ew1. destruct (is_special_node_transaction t) eqn:Hsp.
    - apply special_stateful_validated in Hv; [|done..]. rewrite <- Hr, <- Hh in E1. rewrite <- Hr in Hst. rewrite <- Hh in Ew1. rewrite <- Hh.
      by eapply special_tracks.
    - injection E1 as <-. injection Ew1 as <-. exists m. unfold nodes_step. by rewrite Hsp. }
  destruct Hstep as (m1 & -> & Ht1 & Hw1). simpl. by eapply IH.
Qed.

(** ** The ledger *)

Record Ledger : Type := mkLedger { ledger_utxos : utxo_set; ledger_nodes : gmap str NodeRecord }.

Definition empty_ledger : Ledger := mkLedger ∅ ∅.

Definition ledger_step (l : Ledger) (numbered : Z * Block) : res Ledger :=
  let '(h, block) := numbered in
  let* utxos := utxo_apply_block (mkUtxos (ledger_utxos l)) block h in
  let* nodes := foldM (nodes_step h) (ledger_nodes l) (tail (transactions block)) in
  Ok (mkLedger (utxo_entries utxos) nodes).

(** The ledger of a chain of blocks, from the empty one *)
Definition ledger_of (chain : list Block) : res Ledger := foldM ledger_step empty_ledger (enumerate chain).

Lemma enumerate_snoc {A} (xs : list A) x : enumerate (xs ++ [x]) = enumerate xs ++ [(len xs, x)].
Proof.
  unfold enumerate. assert (G : forall i, enumerate_from i (xs ++ [x]) = enumerate_from i xs ++ [(i + len xs, x)]).
  { induction xs as [|y xs IH]; intros i; [by rewrite Z.add_0_r|]. cbn [app enumerate_from]. rewrite IH, len_cons.
    by replace (i + (1 + len xs)) with (i + 1 + len xs) by lia. }
  apply G.
Qed.

Lemma ledger_of_snoc chain block l :
  ledger_of chain = Ok l -> ledger_of (chain ++ [block]) = ledger_step l (len chain, block).
Proof.
  unfold ledger_of. intros E. rewrite enumerate_snoc, foldM_app, E. cbn [rbind foldM]. by destruct (ledger_step l (len chain, block)).
Qed.

(** All that can have been minted through a height *)
Definition minted (params : ConsensusParams) (h : Z) : Z := ok_or (total_subsidy_through_height h params) 0.

Definition supply_ok (params : ConsensusParams) (h : Z) (m : utxo_set) : Prop :=
  nonneg_outputs m /\ utxo_total m <= minted params h.

Lemma supply_empty params : supply_ok params (-1) ∅.
Proof. split; [apply map_Forall_empty|]. unfold utxo_total. by rewrite map_fold_empty. Qed.

(** Whatever a view of outputs computes for a block, the in-memory view computes *)
Lemma apply_block_memory {W} `{UtxoViewLaws W} (w w' : W) block h :
  utxo_apply_block w block h = Ok w' ->
  utxo_apply_block (mkUtxos (utxo_map w)) block h = Ok (mkUtxos (utxo_map w')).
Proof.
  unfold utxo_apply_block. generalize (enumerate (transactions block)). intros ts. revert w.
  induction ts as [|[i t] ts IH]; intros w E; cbn [foldM] in E |- *; [by injection E as <-|].
  apply rbind_Ok in E as (w1 & E1 & E). apply apply_map in E1 as (id & Hid & E1).
  assert (Hm : utxo_apply_transaction (mkUtxos (utxo_map w)) t h (i =? 0) = Ok (mkUtxos (utxo_map w1)))
    by (rewrite E1; cbn; unfold memory_apply_transaction; by rewrite Hid).
  rewrite Hm. by apply IH.
Qed.

(** A validated block, applied to any view of the outputs and to any view of the
    registry it was validated against, moves them as the ledger moves, and keeps
    the supply within what has been minted. *)
Lemma ledger_block {U R} `{UtxoViewLaws U} `{NodeRegistryLaws R} {W} `{UtxoViewLaws W} {V} `{NodeRegistryLaws V}
    block (context : ValidationContext U R) fees l (w w' : W) (v v' : V) :
  validate_block block context = Ok fees -> params_ok (context_params context) -> 0 <= context_height context ->
  utxo_map (utxo_view context) = ledger_utxos l -> tracks (node_registry_view context) (ledger_nodes l) ->
  utxo_map w = ledger_utxos l -> utxo_apply_block w block (context_height context) = Ok w' ->
  tracks v (ledger_nodes l) -> _apply_node_registry_block block (context_height context) v = Ok v' ->
  supply_ok (context_params context) (context_height context - 1) (ledger_utxos l) ->
  exists l', ledger_step l (context_height context, block) = Ok l' /\ utxo_map w' = ledger_utxos l' /\
    tracks v' (ledger_nodes l') /\ supply_ok (context_params context) (context_height context) (ledger_utxos l').
Proof.
  intros Hval Hp Hh Hu Htr Hw Ew Hv Ev [Hn Ht].
  destruct (validated_block_supply block context fees w w' Hval Ew) as (miner & pool & Hs & Hn' & Hor); [congruence|by rewrite Hw|].
  destruct (split_totals_step _ _ Hp Hh) as (m & n & before & Hs' & Hb & Ha & _ & Hpool). rewrite Hs in Hs'. injection Hs' as <- <-.
  apply validate_block_inv in Hval as (coinbase & rest & st & Etx & _ & _ & Hr & Hst & _).
  apply apply_block_memory in Ew. rewrite Hw in Ew.
  unfold _apply_node_registry_block in Ev. rewrite Etx in Ev. simpl in Ev.
  destruct (block_tracks context rest (initial_staged context) st v v' (ledger_nodes l)) as (nodes & En & _ & Hv'); [|done..|].
  { by apply block_rest_coinbase_free. }
  exists (mkLedger (utxo_map w') nodes). unfold ledger_step. rewrite Ew, Etx. simpl. rewrite En. simpl.
  split; [done|]. split; [done|]. split; [done|]. split; [done|].
  unfold minted in *. rewrite Hb in Ht. rewrite Ha. simpl in *. rewrite Hw in Hor. lia.
Qed.
End ledger.
