(* ===== verification/ChainFacts.v ===== *)
(** * What the active chain guarantees

    The states a node reaches by extending its tip, by switching branches and by
    storing headers and blocks it receives; and the invariant of those states: the
    tip is at the height of its branch, the persisted outputs and registry are the
    ledger of the blocks stored along the branch, owner keys are unique, and the
    unspent value is within what the schedule has minted.  The invariant is that of
    calls that return or are refused before they write; [torn_step] is what an
    exception between two writes leaves. *)

From S2P Require Import Prelude PyState PyOrder PyText Hashes Params Models Serialization Registry Economics Pow Merkle Crypto Addresses Json Settlement Nodes Utxo UtxoStore Headers RewardStore Validation ValidationFacts RegistryRules Service ServiceRuns Ledger.

(** ** Branches of the header table *)

(** [branch rows hash path]: following parents from [hash] visits [path],
    backwards, and stops at a root. *)
Inductive branch (rows : gmap str HeaderRow) : str -> list str -> Prop :=
| branch_stop : branch rows [] []
| branch_root hash row : hash ≠ [] -> rows !! hash = Some row -> row_previous row = zero_hash -> branch rows hash [hash]
| branch_link hash row path : hash ≠ [] -> rows !! hash = Some row -> row_previous row ≠ zero_hash ->
    branch rows (row_previous row) path -> branch rows hash (path ++ [hash]).

Lemma path_loop_branch fuel db current path full :
  path_loop fuel db current path = Ok full -> exists pre, branch (header_rows db) current pre /\ full = pre ++ path.
Proof.
  revert current path. induction fuel as [|fuel IH]; intros current path E; [discriminate|]. cbn [path_loop] in E.
  case_bool_decide as Hc; [injection E as <-; subst; exists []; split; [constructor|done]|].
  apply rbind_Ok in E as (r & Hr & E). destruct r as [r|]; [|discriminate].
  unfold header_get_record in Hr. destruct (header_rows db !! current) as [row|] eqn:Erow; [|discriminate].
  apply rbind_Ok in Hr as (hdr & _ & Hr). apply rbind_Ok in Hr as (work & _ & Hr). injection Hr as <-. simpl in E.
  case_bool_decide as Hz.
  - injection E as <-. exists [current]. split; [by eapply branch_root|done].
  - apply IH in E as (pre & Hb & ->). exists (pre ++ [current]). split; [by eapply branch_link|by rewrite <- app_assoc].
Qed.

Lemma path_to_root_branch db hash path : header_path_to_root db hash = Ok path -> branch (header_rows db) hash path.
Proof. intros (pre & Hb & ->)%path_loop_branch. by rewrite app_nil_r. Qed.

Section branches.
Variable rows : gmap str HeaderRow.

Lemma branch_functional hash p1 p2 : branch rows hash p1 -> branch rows hash p2 -> p1 = p2.
Proof.
  intros B1. revert p2. induction B1 as [|hash row Hne Hr Hz|hash row path Hne Hr Hz B IH]; intros p2 B2;
    inversion B2; subst; simplify_eq; try done. f_equal. by apply IH.
Qed.

Lemma branch_rows hash path x : branch rows hash path -> x ∈ path -> x ≠ [] /\ is_Some (rows !! x).
Proof.
  induction 1 as [|hash row Hne Hr Hz|hash row path Hne Hr Hz B IH]; intros Hx.
  - by apply not_elem_of_nil in Hx.
  - apply list_elem_of_singleton in Hx as ->. by rewrite Hr.
  - apply elem_of_app in Hx as [Hx| ->%list_elem_of_singleton]; [by apply IH|by rewrite Hr].
Qed.

Lemma branch_last hash path : branch rows hash path -> hash ≠ [] -> exists pre, path = pre ++ [hash].
Proof. destruct 1; intros; [done|by exists []|by eexists]. Qed.

Lemma branch_prefix hash path x : branch rows hash path -> x ∈ path -> exists p q, branch rows x p /\ path = p ++ q.
Proof.
  intros B Hx. induction B as [|hash row Hne Hr Hz|hash row path Hne Hr Hz B IH].
  - by apply not_elem_of_nil in Hx.
  - apply list_elem_of_singleton in Hx as ->. exists [hash], []. split; [by eapply branch_root|done].
  - apply elem_of_app in Hx as [Hx| ->%list_elem_of_singleton].
    + destruct (IH Hx) as (p & q & Hp & ->). exists p, (q ++ [hash]). split; [done|by rewrite app_assoc].
    + exists (path ++ [hash]), []. split; [by eapply branch_link|by rewrite app_nil_r].
Qed.

(** A header whose parent is the end of a branch is not on it. *)
Lemma branch_acyclic hash path x row :
  branch rows hash path -> hash ≠ zero_hash -> rows !! x = Some row -> row_previous row = hash -> x ∉ path.
Proof.
  intros B Hz Hx Hp Hin. destruct (branch_prefix hash path x B Hin) as (p & q & Bx & ->).
  destruct (branch_rows _ _ _ B Hin) as [Hne _]. inversion Bx; subst; simplify_eq.
  match goal with Bp : branch rows (row_previous _) ?pp |- _ => pose proof (branch_functional _ _ _ B Bp) as E end.
  apply (f_equal length) in E. rewrite !length_app in E. simpl in E. lia.
Qed.
End branches.

(** Branches depend on the parents of the headers on them only. *)
Lemma branch_agree (rows rows' : gmap str HeaderRow) hash path :
  (forall x, x ∈ path -> row_previous <$> rows' !! x = row_previous <$> rows !! x) ->
  branch rows hash path -> branch rows' hash path.
Proof.
  intros Ha B. induction B as [|hash row Hne Hr Hz|hash row path Hne Hr Hz B IH]; [constructor|..].
  - specialize (Ha hash ltac:(left)). rewrite Hr in Ha. apply fmap_Some in Ha as (row' & Hr' & Hp).
    eapply branch_root; [done..|]. congruence.
  - assert (Hh : row_previous <$> rows' !! hash = row_previous <$> rows !! hash) by (apply Ha; set_solver).
    rewrite Hr in Hh. apply fmap_Some in Hh as (row' & Hr' & Hp).
    eapply (branch_link _ hash row'); [done..|congruence|]. rewrite <- Hp. apply IH. intros x Hx. apply Ha. set_solver.
Qed.

(** ** Updates of the header table *)

Lemma update_row_previous rows hash f x :
  (forall row, row_previous (f row) = row_previous row) -> row_previous <$> update_row rows hash f !! x = row_previous <$> rows !! x.
Proof.
  intros Hf. destruct (decide (x = hash)) as [->|Hne]; [|by rewrite update_row_other].
  rewrite update_row_same. destruct (rows !! hash); simpl; [by rewrite Hf|done].
Qed.

Lemma set_main_chain_spec db pre t db' :
  header_set_main_chain db (pre ++ [t]) = Ok db' -> is_Some (header_rows db !! t) ->
  (forall x, row_previous <$> header_rows db' !! x = row_previous <$> header_rows db !! x) /\
  header_get_tip db' = Some (mkTip t (len pre)).
Proof.
  intros E Ht. unfold header_set_main_chain in E. apply rbind_Ok in E as (rows & E & E'). injection E' as <-.
  rewrite last_snoc. rewrite enumerate_snoc, foldM_app in E. apply rbind_Ok in E as (rows1 & E1 & E).
  assert (Hp : forall x, row_previous <$> rows1 !! x = row_previous <$> header_rows db !! x).
  { intros x. revert E1. apply (foldM_inv (fun rows1 => row_previous <$> rows1 !! x = row_previous <$> header_rows db !! x)).
    - intros s [h hash] s' _ Hs Es. apply rbind_Ok in Es as (h' & _ & Es). injection Es as <-. by rewrite update_row_previous.
    - rewrite lookup_fmap. by destruct (header_rows db !! x). }
  cbn [foldM] in E. apply rbind_Ok in E as (rows2 & E2 & E). injection E as <-.
  apply rbind_Ok in E2 as (h' & [-> _]%sqlite_int_id & E2). injection E2 as <-. simpl. split.
  - intros x. by rewrite update_row_previous.
  - unfold header_get_tip. simpl. rewrite update_row_same. specialize (Hp t).
    destruct Ht as [row Hr]. rewrite Hr in Hp. apply fmap_Some in Hp as (row' & Hr' & _). by rewrite Hr'.
Qed.

(** ** What is decoded is canonical *)

Lemma canonical_hex bs : canonical_hash (hex bs) = hex bs.
Proof. unfold canonical_hash. by rewrite fromhex_hex. Qed.

Lemma decode_many_Forall {A} (P : A -> Prop) (decode : Z -> res (A * Z)) fuel count offset xs o :
  (forall offset x o, decode offset = Ok (x, o) -> P x) -> decode_many decode fuel count offset = Ok (xs, o) -> Forall P xs.
Proof.
  intros Hd. revert count offset xs o. induction fuel as [|fuel IH]; intros count offset xs o E; cbn [decode_many] in E.
  - destruct (_ <=? _); [by injection E as <- <-|discriminate].
  - destruct (_ <=? _); [by injection E as <- <-|]. apply rbind_Ok in E as ([x o1] & Hx & E). cbv beta iota in E.
    apply rbind_Ok in E as ([xs' o2] & Hxs & E). injection E as <- <-. constructor; [by eapply Hd|by eapply IH].
Qed.

Lemma input_canonical ver payload offset i o : deserialize_input ver payload offset = Ok (i, o) -> canonical_input i = i.
Proof.
  unfold deserialize_input. cbv zeta. intros E. apply rbind_Ok in E as (ix & _ & E). apply rbind_Ok in E as ([scheme o1] & _ & E). cbv beta iota in E.
  apply rbind_Ok in E as ([sig o2] & _ & E). cbv beta iota in E. apply rbind_Ok in E as ([key o3] & _ & E). cbv beta iota in E.
  apply rbind_Ok in E as (sq & _ & E). injection E as <- _. unfold canonical_input. cbn [previous_output op_txid]. by rewrite canonical_hex.
Qed.

Lemma transaction_canonical payload offset t o : deserialize_transaction payload offset = Ok (t, o) -> canonical_tx t = t.
Proof.
  unfold deserialize_transaction. cbv zeta. intros E. apply rbind_Ok in E as (ver & _ & E). apply rbind_Ok in E as ([n o1] & _ & E). cbv beta iota in E.
  apply rbind_Ok in E as ([ins o2] & Hins & E). cbv beta iota in E. apply rbind_Ok in E as ([n' o3] & _ & E). cbv beta iota in E.
  apply rbind_Ok in E as ([outs o4] & _ & E). cbv beta iota in E. apply rbind_Ok in E as (lock & _ & E). apply rbind_Ok in E as ([meta o5] & _ & E).
  injection E as <- _. unfold canonical_tx. cbn [inputs version outputs locktime metadata]. f_equal.
  apply (decode_many_Forall (fun i => canonical_input i = i)) in Hins; [|intros; by eapply input_canonical].
  clear -Hins. induction Hins as [|i ins Hi _ IH]; [done|]. rewrite fmap_cons. by rewrite Hi, IH.
Qed.

Lemma block_canonical payload offset block o : deserialize_block payload offset = Ok (block, o) -> canonical_block block = block.
Proof.
  unfold deserialize_block. intros E. apply rbind_Ok in E as ([h o1] & Hh & E). cbv beta iota in E. apply rbind_Ok in E as ([n o2] & _ & E).
  cbv beta iota in E. apply rbind_Ok in E as ([ts o3] & Hts & E). injection E as <- _. unfold canonical_block. cbn [header transactions]. f_equal.
  - unfold deserialize_block_header in Hh. cbv zeta in Hh. do 4 (apply rbind_Ok in Hh as (? & _ & Hh)). injection Hh as <- _.
    unfold canonical_header. cbn [header_version previous_block_hash header_merkle_root timestamp bits nonce]. by rewrite !canonical_hex.
  - apply (decode_many_Forall (fun t => canonical_tx t = t)) in Hts; [|intros; by eapply transaction_canonical].
    clear -Hts. induction Hts as [|t ts Ht _ IH]; [done|]. rewrite fmap_cons. by rewrite Ht, IH.
Qed.

Lemma canonical_transactions block : canonical_block block = block -> Forall (fun t => canonical_tx t = t) (transactions block).
Proof.
  intros E%(f_equal transactions). cbn [canonical_block transactions] in E. induction (transactions block) as [|t ts IH]; [constructor|].
  rewrite fmap_cons in E. injection E as Ht Hts. constructor; auto.
Qed.

(** ** The block store *)

(** What the store returns for a hash is a block of that hash. *)
Definition blocks_ok (db : BlockDb) : Prop :=
  forall hash block, block_get db hash = Ok (Some block) -> block_hash (header block) = Ok hash.

Lemma canonical_header_hash hdr raw :
  serialize_block_header hdr = Ok raw -> block_hash (canonical_header hdr) = block_hash hdr.
Proof.
  intros E. assert (Ec : serialize_block_header (canonical_header hdr) = Ok raw); [|unfold block_hash; by rewrite E, Ec].
  unfold serialize_block_header in E. apply rbind_Ok in E as (v & Ev & E). apply rbind_Ok in E as (p & Ep & E).
  apply rbind_Ok in E as (r & Er & E). apply rbind_Ok in E as (t & Et & E). apply rbind_Ok in E as (bi & Ebi & E).
  apply rbind_Ok in E as (n & En & E).
  destruct (encode_hash_canonical _ _ Ep) as [Cp Lp]. destruct (encode_hash_canonical _ _ Er) as [Cr Lr].
  unfold serialize_block_header, canonical_header. cbn [header_version previous_block_hash header_merkle_root timestamp bits nonce].
  rewrite Cp, Cr, Ev. unfold _encode_hash. rewrite !fromhex_hex. cbn [rbind]. rewrite Lp, Lr. cbn [Z.eqb negb rbind].
  rewrite Et. cbn [rbind]. rewrite Ebi. cbn [rbind]. rewrite En. exact E.
Qed.

Lemma block_put_ok db block db' : blocks_ok db -> block_put db block = Ok db' -> blocks_ok db'.
Proof.
  intros Hok E hash block' Hg. unfold block_put in E. apply rbind_Ok in E as (hash0 & Hh & E).
  apply rbind_Ok in E as (raw & Hraw & E). injection E as <-. unfold block_get in Hg. cbn [block_rows] in Hg.
  destruct (decide (hash = hash0)) as [->|Hne].
  - rewrite lookup_insert_eq in Hg. pose proof (decodes_block block raw Hraw [] []) as D. simpl in D. rewrite app_nil_r in D.
    change (len (@nil byte)) with 0 in D. rewrite D in Hg. cbn [rbind] in Hg.
    destruct (negb (0 + len raw =? len raw)); [discriminate|]. injection Hg as <-.
    unfold canonical_block. cbn [header]. unfold serialize_block in Hraw. apply rbind_Ok in Hraw as (h & Hser & _).
    by rewrite (canonical_header_hash _ h Hser).
  - rewrite lookup_insert_ne in Hg by done. by apply Hok.
Qed.

Lemma stored_canonical db hash block : block_get db hash = Ok (Some block) -> canonical_block block = block.
Proof.
  unfold block_get. destruct (block_rows db !! hash) as [raw|]; [|discriminate]. intros E. apply rbind_Ok in E as ([b o] & Hb & E).
  cbv beta iota in E. destruct (negb _); [discriminate|]. injection E as <-. by eapply block_canonical.
Qed.

Lemma block_put_get db block hash db' :
  block_put db block = Ok db' -> block_hash (header block) = Ok hash -> block_get db' hash = Ok (Some (canonical_block block)).
Proof.
  intros E Hh. unfold block_put in E. rewrite Hh in E. cbn [rbind] in E. apply rbind_Ok in E as (raw & Hraw & E). injection E as <-.
  unfold block_get. cbn [block_rows]. rewrite lookup_insert_eq. pose proof (decodes_block block raw Hraw [] []) as D. simpl in D.
  rewrite app_nil_r in D. change (len (@nil byte)) with 0 in D. rewrite D. cbn [rbind]. by rewrite Z.add_0_l, Z.eqb_refl.
Qed.

Lemma block_put_other db block hash db' x :
  block_put db block = Ok db' -> block_hash (header block) = Ok hash -> x ≠ hash -> block_get db' x = block_get db x.
Proof.
  intros E Hh Hx. unfold block_put in E. rewrite Hh in E. cbn [rbind] in E. apply rbind_Ok in E as (raw & _ & E). injection E as <-.
  unfold block_get. cbn [block_rows]. by rewrite lookup_insert_ne by congruence.
Qed.

(** ** The invariant *)

Section chain.
Context `{PyRepr, CryptoBackend}.
Variable params : ConsensusParams.
Hypothesis Hparams : params_ok params.

(** The blocks that are stored along a path *)
Definition stored_along (db : BlockDb) (chain : list Block) (path : list str) : Prop :=
  Forall2 (fun block hash => block_get db hash = Ok (Some block) /\ block_hash (header block) = Ok hash) chain path.

(** The outputs and the registry are the ledger of the blocks stored along a path,
    and hold no more than was minted along it. *)
Record ledger_at {W V} `{UtxoViewLaws W} `{NodeRegistryLaws V} (db : BlockDb) (path : list str) (w : W) (v : V) (chain : list Block) (l : Ledger) : Prop := {
  at_blocks : stored_along db chain path;
  at_ledger : ledger_of chain = Ok l;
  at_utxos : utxo_map w = ledger_utxos l;
  at_nodes : tracks v (ledger_nodes l);
  at_supply : supply_ok params (len path - 1) (ledger_utxos l);
}.

(** The active path of a header table *)
Definition active_path (db : HeaderDb) (path : list str) : Prop :=
  match chain_tip_hash db with
  | None => path = []
  | Some t => t ≠ [] /\ branch (header_rows db) t path /\ header_get_tip db = Some (mkTip t (len path - 1))
  end.

Record chain_inv (s : NodeService) : Prop := {
  inv_params : service_params s = params;
  inv_zero : header_rows (headers s) !! zero_hash = None;
  inv_blocks : blocks_ok (blocks s);
  inv_state : exists path chain l, active_path (headers s) path /\ ledger_at (blocks s) path (chainstate s) (node_registry s) chain l;
}.

Lemma len_stored db chain path : stored_along db chain path -> len chain = len path.
Proof. intros Hf. unfold len. by rewrite (Forall2_length _ _ _ Hf). Qed.

(** A table that still has the blocks of the path *)
Lemma stored_along_agree db db' chain path :
  (forall x, x ∈ path -> block_get db' x = block_get db x) -> stored_along db chain path -> stored_along db' chain path.
Proof.
  intros Ha Hs. induction Hs as [|block hash chain path [Hg Hh] _ IH]; constructor.
  - rewrite Ha by left. done.
  - apply IH. intros x Hx. apply Ha. by right.
Qed.

Lemma len_snoc {A} (xs : list A) x : len (xs ++ [x]) - 1 = len xs.
Proof. rewrite len_app. unfold len. simpl. lia. Qed.

(** One validated block more, on any views of the ledger *)
Lemma ledger_at_extend {U R} `{UtxoViewLaws U} `{NodeRegistryLaws R} {W} `{UtxoViewLaws W} {V} `{NodeRegistryLaws V}
    db db' path chain l (w w' : W) (v v' : V) block hash (context : ValidationContext U R) fees :
  ledger_at db path w v chain l -> (forall x, x ∈ path -> block_get db' x = block_get db x) ->
  block_get db' hash = Ok (Some block) -> validate_block block context = Ok fees -> block_hash (header block) = Ok hash ->
  context_params context = params -> context_height context = len path ->
  utxo_map (utxo_view context) = ledger_utxos l -> tracks (node_registry_view context) (ledger_nodes l) ->
  utxo_apply_block w block (len path) = Ok w' -> _apply_node_registry_block block (len path) v = Ok v' ->
  exists l', ledger_at db' (path ++ [hash]) w' v' (chain ++ [block]) l'.
Proof.
  intros [Hh Hl Hu Hn Hs] Ha Hg Hv Hb Hp Hc Hcu Hcn Ew Ev. rewrite <- Hc in Ew, Ev. rewrite <- Hp in Hs. rewrite <- Hc in Hs.
  destruct (ledger_block block context fees l w w' v v') as (l' & El & Hu' & Hn' & Hs'); try done;
    [by rewrite Hp|rewrite Hc; apply len_nonneg|].
  exists l'. split; [| |done|done|by rewrite len_snoc, <- Hc, <- Hp].
  - apply Forall2_app; [by apply (stored_along_agree db)|by constructor].
  - rewrite (ledger_of_snoc chain block l Hl), (len_stored db chain path Hh), <- Hc. done.
Qed.

(** ** Extending the tip *)

(** A header that does not collide: its hash is not the null hash, and a stored
    header of the same hash has the same parent. *)
Definition admissible (db : HeaderDb) (hdr : BlockHeader) : Prop :=
  forall hash, block_hash hdr = Ok hash -> hash ≠ zero_hash /\
    forall row, header_rows db !! hash = Some row -> row_previous row = previous_block_hash hdr.

Lemma block_hash_nonempty hdr hash : block_hash hdr = Ok hash -> hash ≠ [].
Proof.
  unfold block_hash. intros E. apply rbind_Ok in E as (raw & _ & E). injection E as <-. intros Hn.
  apply (f_equal length) in Hn. rewrite double_sha256_hex_length in Hn. discriminate.
Qed.

Lemma active_path_next s path : active_path (headers s) path -> next_height s = len path /\
  (path = [] -> chain_tip s = None) /\ (forall pre t, path = pre ++ [t] -> chain_tip s = Some (mkTip t (len pre))).
Proof.
  unfold active_path, next_height, chain_tip. destruct (chain_tip_hash (headers s)) as [t|] eqn:Et.
  - intros (Hne & B & ->). destruct (branch_last _ _ _ B Hne) as [pre ->]. rewrite len_snoc. cbn [tip_height].
    split; [rewrite len_app; unfold len; simpl; lia|]. split; [by destruct pre|]. by intros pre' t' [-> ->]%app_inj_tail.
  - intros ->. unfold header_get_tip. rewrite Et. split; [done|]. split; [done|]. by intros [] ? ?.
Qed.

Lemma tip_context_fields s context :
  tip_context s = Ok context ->
  context_height context = next_height s /\ context_params context = service_params s /\
  utxo_view context = overlay_over (chainstate s) /\ node_registry_view context = registry_store_snapshot (node_registry s) /\
  expected_previous_block_hash context = Some (match chain_tip s with None => zero_hash | Some tip => tip_hash tip end).
Proof.
  unfold tip_context. cbv zeta. intros E. apply rbind_Ok in E as ([[ids bundles] settled] & _ & E). cbv beta iota in E.
  apply rbind_Ok in E as (median & _ & E). apply rbind_Ok in E as (seeds & _ & E). apply rbind_Ok in E as (nbits & _ & E).
  by injection E as <-.
Qed.

Lemma validated_previous {U R} `{UtxoView U} `{NodeRegistryView R} block (context : ValidationContext U R) fees p :
  validate_block block context = Ok fees -> expected_previous_block_hash context = Some p ->
  previous_block_hash (header block) = p.
Proof.
  unfold validate_block. intros E Hp. apply rbind_Ok in E as ([] & _ & E). unfold validate_block_stateful in E. rewrite Hp in E.
  apply rbind_Ok in E as ([] & Hc%raise_if_Ok & _). by apply negb_false_iff, bool_decide_eq_true in Hc.
Qed.

Lemma overlay_over_map {B} `{UtxoViewLaws B} (b : B) : utxo_map (overlay_over b) = utxo_map b.
Proof.
  apply map_eq. intros o. change (utxo_map (overlay_over b)) with (overlay_map (overlay_over b)). rewrite overlay_map_lookup.
  rewrite decide_False by apply not_elem_of_empty. unfold overlay_over. simpl. by rewrite (left_id ∅ _).
Qed.

(** The hash of a header on the tip is not on the active path. *)
Lemma next_hash_fresh s path hdr hash :
  active_path (headers s) path -> header_rows (headers s) !! zero_hash = None -> admissible (headers s) hdr ->
  previous_block_hash hdr = match chain_tip s with None => zero_hash | Some tip => tip_hash tip end ->
  block_hash hdr = Ok hash -> hash ∉ path.
Proof.
  intros Hpath Hzero Hadm Hprev Hhash Hx. destruct (Hadm hash Hhash) as [_ Hsame].
  pose proof (active_path_next s path Hpath) as (_ & _ & Hsnoc). unfold active_path in Hpath.
  destruct (chain_tip_hash (headers s)) as [t|]; [|subst; by apply not_elem_of_nil in Hx].
  destruct Hpath as (Htne & B & _). destruct (branch_last _ _ _ B Htne) as [pre Epre]. rewrite (Hsnoc pre t Epre) in Hprev. simpl in Hprev.
  assert (Htz : t ≠ zero_hash). { intros ->. destruct (branch_rows _ _ _ zero_hash B) as [_ [? ?]]; [rewrite Epre; set_solver|congruence]. }
  destruct (branch_rows _ _ _ hash B Hx) as [_ [row' Hr']]. pose proof (Hsame row' Hr') as Hp. rewrite Hprev in Hp.
  by apply (branch_acyclic _ t path hash row' B Htz Hr' Hp).
Qed.

(** The new header extends the active path. *)
Lemma active_path_extend s path hdr hash h work hdb hdb' :
  active_path (headers s) path -> header_rows (headers s) !! zero_hash = None -> admissible (headers s) hdr ->
  previous_block_hash hdr = match chain_tip s with None => zero_hash | Some tip => tip_hash tip end ->
  block_hash hdr = Ok hash -> header_put (headers s) hdr (Some h) work true = Ok hdb -> header_set_tip hdb hash h = Ok hdb' ->
  h = len path -> active_path hdb' (path ++ [hash]) /\ header_rows hdb' !! zero_hash = None.
Proof.
  intros Hpath Hzero Hadm Hprev Hhash Eput Eset ->. pose proof (next_hash_fresh s path hdr hash Hpath Hzero Hadm Hprev Hhash) as Hfresh.
  destruct (Hadm hash Hhash) as [Hz Hsame].
  pose proof (block_hash_nonempty _ _ Hhash) as Hne. pose proof (active_path_next s path Hpath) as (_ & Hnil & Hsnoc).
  unfold header_put in Eput. rewrite Hhash in Eput. cbn [rbind] in Eput. apply rbind_Ok in Eput as (raw & _ & Eput).
  apply rbind_Ok in Eput as (hc & Hhc & Eput). injection Eput as <-.
  apply rbind_Ok in Hhc as (h' & [-> _]%sqlite_int_id & Hhc). injection Hhc as <-.
  unfold header_set_tip in Eset. apply rbind_Ok in Eset as (h' & [-> _]%sqlite_int_id & Eset). injection Eset as <-.
  cbn [header_rows]. set (row := mkRow _ _ _ _ _). set (rows := update_row _ _ _).
  assert (Hrow : rows !! hash = Some (on_main (len path) row)) by (unfold rows; by rewrite update_row_same, lookup_insert_eq).
  assert (Hother : forall x, x ≠ hash -> rows !! x = header_rows (headers s) !! x).
  { intros x Hx. unfold rows. by rewrite update_row_other, lookup_insert_ne. }
  split; [|by rewrite Hother]. unfold active_path. cbn [chain_tip_hash header_rows]. split; [done|]. rewrite len_snoc. split.
  2:{ unfold header_get_tip. cbn [chain_tip_hash header_rows]. by rewrite Hrow. }
  unfold active_path in Hpath. destruct (chain_tip_hash (headers s)) as [t|] eqn:Et.
  - destruct Hpath as (Htne & B & _). destruct (branch_last _ _ _ B Htne) as [pre Epre]. rewrite (Hsnoc pre t Epre) in Hprev. simpl in Hprev.
    assert (Htz : t ≠ zero_hash). { intros ->. destruct (branch_rows _ _ _ zero_hash B) as [_ [? ?]]; [rewrite Epre; set_solver|congruence]. }
    eapply branch_link; [done|exact Hrow|simpl; congruence|]. simpl. rewrite Hprev.
    apply (branch_agree (header_rows (headers s))); [|done]. intros x Hx. rewrite Hother; [done|]. by intros ->.
  - subst path. rewrite (Hnil eq_refl) in Hprev. eapply branch_root; [done|exact Hrow|]. simpl. done.
Qed.

(** The steps of [apply_block] *)
Lemma apply_block_parts s block fees s' :
  block_applied s block = Ok (fees, s') ->
  exists context work hdb bdb utxos registry adb sdb hash hdb',
    tip_context s = Ok context /\ validate_block block context = Ok fees /\
    header_put (headers s) (header block) (Some (next_height s)) (Some work) true = Ok hdb /\
    block_put (blocks s) block = Ok bdb /\
    utxo_apply_block (chainstate s) block (next_height s) = Ok utxos /\
    _apply_node_registry_block block (next_height s) (node_registry s) = Ok registry /\
    block_hash (header block) = Ok hash /\ header_set_tip hdb hash (next_height s) = Ok hdb' /\
    s' = mkService (service_params s) (service_network s) hdb' bdb utxos registry adb sdb (snapshot_anchor s).
Proof.
  intros E. apply rbind_Ok in E as ([before total] & Hc & E). cbv beta iota in E. apply rbind_Ok in E as (s1 & Hw & E). injection E as <- <-.
  apply rbind_Ok in Hc as (work & _ & Hc). apply rbind_Ok in Hc as (context & Hctx & Hc). apply rbind_Ok in Hc as (fees' & Hv & Hc).
  injection Hc as <- <-. unfold block_written in Hw. cbv zeta in Hw.
  apply rbind_Ok in Hw as (bw & _ & Hw). apply rbind_Ok in Hw as (hdb & Hput & Hw). apply rbind_Ok in Hw as (bdb & Hbdb & Hw).
  apply rbind_Ok in Hw as (utxos & Hu & Hw). apply rbind_Ok in Hw as (registry & Hr & Hw).
  apply rbind_Ok in Hw as ([adb sdb] & _ & Hw). cbv beta iota in Hw. apply rbind_Ok in Hw as (hash & Hh & Hw).
  apply rbind_Ok in Hw as (hdb' & Hset & Hw). injection Hw as <-.
  exists context, (work + bw), hdb, bdb, utxos, registry, adb, sdb, hash, hdb'. by split_and!.
Qed.

Lemma applied_validated s block fees s' :
  block_applied s block = Ok (fees, s') -> exists context, tip_context s = Ok context /\ validate_block block context = Ok fees.
Proof. intros (context & ? & ? & ? & ? & ? & ? & ? & ? & ? & Hc & Hv & _)%apply_block_parts. by exists context. Qed.

Lemma applied_outputs s block fees s' :
  block_applied s block = Ok (fees, s') -> utxo_apply_block (chainstate s) block (next_height s) = Ok (chainstate s').
Proof. by intros (? & ? & ? & ? & ? & ? & ? & ? & ? & ? & _ & _ & _ & _ & Hu & _ & _ & _ & ->)%apply_block_parts. Qed.

Lemma apply_block_params s block fees s' : block_applied s block = Ok (fees, s') -> service_params s' = service_params s.
Proof. by intros (? & ? & ? & ? & ? & ? & ? & ? & ? & ? & _ & _ & _ & _ & _ & _ & _ & _ & ->)%apply_block_parts. Qed.

Lemma apply_block_inv s block fees s' :
  chain_inv s -> admissible (headers s) (header block) -> canonical_block block = block -> block_applied s block = Ok (fees, s') -> chain_inv s'.
Proof.
  intros [Hp Hz Hb (path & chain & l & Hpath & Hat)] Hadm Hcan E. destruct (active_path_next s path Hpath) as (Hnext & _).
  apply apply_block_parts in E as (context & work & hdb & bdb & utxos & registry & adb & sdb & hash & hdb' &
    Hc & Hv & Hput & Hbdb & Hu & Hr & Hh & Hset & ->). rewrite Hnext in *.
  apply tip_context_fields in Hc as (Hch & Hcp & Hcu & Hcr & Hprev).
  pose proof (validated_previous _ _ _ _ Hv Hprev) as Hpr.
  destruct (active_path_extend s path (header block) hash (len path) (Some work) hdb hdb') as [Hpath' Hz']; [done..|].
  pose proof (next_hash_fresh s path _ hash Hpath Hz Hadm Hpr Hh) as Hfresh.
  destruct (ledger_at_extend (blocks s) bdb path chain l (chainstate s) utxos (node_registry s) registry block hash context fees) as (l' & Hat');
    try done; [| |by rewrite Hcp|by rewrite Hch| | |].
  - intros x Hx. apply (block_put_other _ _ _ _ _ Hbdb Hh). by intros ->.
  - by rewrite (block_put_get _ _ _ _ Hbdb Hh), Hcan.
  - rewrite Hcu, overlay_over_map. apply Hat.
  - rewrite Hcr. apply tracks_snapshot, Hat.
  - split; [done|done|by eapply block_put_ok|]. by exists (path ++ [hash]), (chain ++ [block]), l'.
Qed.

(** ** Switching branches *)

Lemma py_index_lookup {A} (xs : list A) i x : 0 <= i -> py_index xs i = Ok x -> xs !! Z.to_nat i = Some x.
Proof.
  intros Hi. unfold py_index. rewrite (proj2 (Z.ltb_ge i 0)) by done.
  destruct (xs !! Z.to_nat i) as [y|]; simpl; [|discriminate]. by intros [= ->].
Qed.

Lemma common_prefix_take old new :
  exists n, common_prefix old new = Z.of_nat n /\ take n old = take n new /\ (n <= length old)%nat /\ (n <= length new)%nat.
Proof.
  revert new. induction old as [|a old IH]; intros new; [exists O; split_and!; simpl; done || lia|].
  destruct new as [|c new]; cbn [common_prefix]; [exists O; split_and!; simpl; done || lia|]. simpl.
  case_bool_decide as Hac; [|exists O; split_and!; simpl; done || lia]. subst. destruct (IH new) as (n & -> & Ht & Ho & Hn).
  exists (S n). split; [lia|]. split; [by rewrite !firstn_cons, Ht|]. lia.
Qed.

Lemma py_range_cons a c : a < c -> py_range a c = a :: py_range (a + 1) c.
Proof.
  intros Hac. unfold py_range. replace (c - a) with ((c - (a + 1)) + 1) by lia.
  unfold zrange. replace (Z.to_nat (c - (a + 1) + 1)) with (S (Z.to_nat (c - (a + 1)))) by lia.
  cbn [seq]. csimpl. rewrite Z.add_0_r. f_equal. rewrite <- fmap_S_seq, <- !list_fmap_compose.
  apply list_fmap_ext. intros _ x _. simpl. lia.
Qed.

Lemma py_range_nil a c : c <= a -> py_range a c = [].
Proof. intros Hac. unfold py_range, zrange. by replace (Z.to_nat (c - a)) with O by lia. Qed.

Lemma zrange_py_range n : zrange n = py_range 0 n.
Proof. unfold py_range. rewrite Z.sub_0_r. symmetry. rewrite <- (list_fmap_id (zrange n)) at 2. by apply list_fmap_ext. Qed.

(** The replay after the first [k] blocks of a path *)
Definition replay_at (db : BlockDb) (path : list str) (k : Z) (r : Replay) : Prop :=
  exists chain l, ledger_at db (take (Z.to_nat k) path) (replay_utxos r) (replay_registry r) chain l.

Lemma replay_start db path : replay_at db path 0 empty_replay.
Proof.
  exists [], empty_ledger. split; [constructor|done|done| |apply supply_empty].
  split; [apply (registry_from_records_wf [])|]. split; [|done]. intros r1 r2 Hr. by apply not_elem_of_nil in Hr.
Qed.

Lemma branch_context_fields s path r h context :
  branch_context s path r h = Ok context ->
  context_height context = h /\ context_params context = service_params s /\
  utxo_view context = replay_utxos r /\ node_registry_view context = replay_registry r.
Proof.
  unfold branch_context. intros E. apply rbind_Ok in E as (seeds & _ & E). apply rbind_Ok in E as (nbits & _ & E).
  by injection E as <-.
Qed.

Lemma len_take_index {A} (xs : list A) (k : Z) x : 0 <= k -> xs !! Z.to_nat k = Some x -> len (take (Z.to_nat k) xs) = k.
Proof. intros Hk Hx. apply lookup_lt_Some in Hx. unfold len. rewrite length_take. lia. Qed.

Lemma replay_block_at s path r h r' :
  service_params s = params -> blocks_ok (blocks s) -> 0 <= h ->
  replay_at (blocks s) path h r -> replay_block s path r h = Ok r' -> replay_at (blocks s) path (h + 1) r'.
Proof.
  intros Hp Hb Hh (chain & l & Hat) E. unfold replay_block in E. apply rbind_Ok in E as (hash & Hi & E).
  apply py_index_lookup in Hi; [|done]. apply rbind_Ok in E as (found & Hf & E). destruct found as [block|]; [|discriminate].
  pose proof (Hb _ _ Hf) as Hbh. apply rbind_Ok in E as (context & Hc & E). apply rbind_Ok in E as (fees & Hv & E).
  apply rbind_Ok in E as (utxos & Hu & E). apply rbind_Ok in E as (registry & Hr & E). apply rbind_Ok in E as (rewards & _ & E).
  injection E as <-. apply branch_context_fields in Hc as (Hch & Hcp & Hcu & Hcr). pose proof (len_take_index path h hash Hh Hi) as Hl.
  destruct (ledger_at_extend (blocks s) (blocks s) (take (Z.to_nat h) path) chain l (replay_utxos r) utxos (replay_registry r) registry block hash context fees)
    as (l' & Hat'); try done; [by rewrite Hcp|by rewrite Hch, Hl|rewrite Hcu; apply Hat|rewrite Hcr; apply Hat|by rewrite Hl..|].
  exists (chain ++ [block]), l'. replace (Z.to_nat (h + 1)) with (S (Z.to_nat h)) by lia.
  by rewrite (take_S_r _ _ _ Hi).
Qed.

Lemma replay_range s path a c r r' :
  service_params s = params -> blocks_ok (blocks s) -> 0 <= a <= c ->
  replay_at (blocks s) path a r -> foldM (replay_block s path) r (py_range a c) = Ok r' -> replay_at (blocks s) path c r'.
Proof.
  intros Hp Hb Hac. remember (Z.to_nat (c - a)) as n eqn:Hn. revert a r Hac Hn. induction n as [|n IH]; intros a r Hac Hn Hr E.
  - assert (a = c) as -> by lia. rewrite py_range_nil in E by lia. by injection E as <-.
  - rewrite py_range_cons in E by lia. cbn [foldM] in E. apply rbind_Ok in E as (r1 & E1 & E).
    apply replay_block_at in E1; [|done..|lia|done]. eapply (IH (a + 1)); [lia..|done|done].
Qed.

(** The replay starts with the ledger of the common prefix. *)
Lemma start_replay_at s path old_path r :
  chain_inv s -> (forall tip, chain_tip s = Some tip -> header_path_to_root (headers s) (tip_hash tip) = Ok old_path) ->
  start_replay s path old_path (chain_tip s) = Ok r -> replay_at (blocks s) path (common_prefix old_path path) r.
Proof.
  intros [Hp Hz Hb (active & chain & l & Hpath & Hat)] Hold E.
  destruct (common_prefix_take old_path path) as (n & Hn & Ht & Hlo & Hlp). unfold start_replay in E. cbv zeta in E.
  assert (Hroot : foldM (replay_block s path) empty_replay (zrange (common_prefix old_path path)) = Ok r ->
    replay_at (blocks s) path (common_prefix old_path path) r).
  { rewrite zrange_py_range, Hn. intros Ef.
    apply (replay_range s path 0 (Z.of_nat n) empty_replay); [done..|lia|apply replay_start|exact Ef]. }
  destruct (chain_tip s) as [tip|] eqn:Etip; [|by apply Hroot].
  destruct (common_prefix old_path path =? len old_path) eqn:Eext; [|by apply Hroot]. clear Hroot.
  apply rbind_Ok in E as (bundles & _ & E). apply rbind_Ok in E as (settlements & _ & E). apply rbind_Ok in E as (found & _ & E).
  destruct found as [hdr|]; [|discriminate]. injection E as <-.
  specialize (Hold tip eq_refl). apply path_to_root_branch in Hold.
  assert (Hact : active = old_path).
  { unfold active_path in Hpath. unfold chain_tip in Etip. destruct (chain_tip_hash (headers s)) as [t|] eqn:Et.
    - destruct Hpath as (_ & B & Eg). rewrite Etip in Eg. injection Eg as ->. by eapply branch_functional.
    - unfold header_get_tip in Etip. by rewrite Et in Etip. }
  subst active. apply Z.eqb_eq in Eext. unfold len in Eext. assert (n = length old_path) as -> by lia.
  exists chain, l. rewrite Hn, Nat2Z.id, <- Ht, take_ge by lia. destruct Hat as [Hh Hl Hu Hnodes Hs]. split; try done.
  - rewrite <- Hu. simpl. apply insert_listing.
  - by apply tracks_snapshot.
Qed.

Lemma commit_replay_inv s path r s' pre t :
  chain_inv s -> branch (header_rows (headers s)) t path -> path = pre ++ [t] -> t ≠ [] ->
  replay_at (blocks s) path (len path) r -> replay_committed s path r = Ok s' -> chain_inv s'.
Proof.
  intros [Hp Hz Hb _] B Epath Hne (chain & l & Hat) E. unfold replay_committed in E. apply rbind_Ok in E as (utxos & Hu & E).
  apply rbind_Ok in E as (registry & Hr & E). apply rbind_Ok in E as (adb & _ & E). apply rbind_Ok in E as (sdb & _ & E).
  apply rbind_Ok in E as (hdb & Hm & E). injection E as <-. rewrite Epath in Hm.
  destruct (set_main_chain_spec _ _ _ _ Hm) as [Hprev Htip].
  { apply (branch_rows _ t path t B). rewrite Epath. set_solver. }
  assert (B' : branch (header_rows hdb) t path) by (eapply branch_agree; [|exact B]; intros; apply Hprev).
  assert (Htip' : chain_tip_hash hdb = Some t).
  { unfold header_get_tip in Htip. destruct (chain_tip_hash hdb) as [t'|]; [|discriminate].
    destruct (header_rows hdb !! t'); [|discriminate]. destruct (row_height _); [|discriminate]. by injection Htip as ->. }
  split; cbn [service_params headers blocks chainstate node_registry]; [done| |done|].
  - specialize (Hprev zero_hash). rewrite Hz in Hprev. by apply fmap_None in Hprev.
  - exists path, chain, l. split; [unfold active_path; rewrite Htip', Htip; by rewrite Epath, len_snoc, <- Epath|].
    unfold len in Hat. rewrite Nat2Z.id, take_ge in Hat by lia. destruct Hat as [Hh Hl Hu' Hn Hs]. split; try done.
    + rewrite <- Hu'. apply (store_replace_rows _ _ _ Hu).
    + exact (tracks_replace (replay_registry r) (node_registry s) registry _ Hn Hr).
Qed.

(** The steps of [activate_branch] *)
Lemma branch_parts s hash tip result s' :
  branch_activated s hash tip = Ok (result, s') ->
  exists path old_path r0 r,
    header_path_to_root (headers s) hash = Ok path /\
    match tip with None => Ok [] | Some tip => header_path_to_root (headers s) (tip_hash tip) end = Ok old_path /\
    start_replay s path old_path tip = Ok r0 /\
    foldM (replay_block s path) r0 (py_range (common_prefix old_path path) (len path)) = Ok r /\
    replay_committed s path r = Ok s' /\
    applied_blocks result = Z.max 0 (len path - common_prefix old_path path) /\
    reorg_depth result = len old_path - common_prefix old_path path /\ new_tip result = hash /\ old_tip result = tip_hash <$> tip.
Proof.
  intros E. apply rbind_Ok in E as ([[[result' path] r] disconnected] & Hplan & E). cbv beta iota in E.
  apply rbind_Ok in E as (s1 & Hs & E). injection E as -> ->.
  apply rbind_Ok in Hplan as (path' & Hpath & E). apply rbind_Ok in E as ([] & _ & E). apply rbind_Ok in E as (old_path & Hold & E). cbv zeta in E.
  apply rbind_Ok in E as (ancestor & _ & E). apply rbind_Ok in E as (r0 & Hr0 & E). apply rbind_Ok in E as (r' & Hr & E).
  apply rbind_Ok in E as (ts & _ & E). injection E as <- -> -> ->. exists path, old_path, r0, r. by split_and!.
Qed.

Lemma activate_branch_inv s hash result s' :
  chain_inv s -> hash ≠ [] -> branch_activated s hash (chain_tip s) = Ok (result, s') -> chain_inv s'.
Proof.
  intros Hinv Hne (path & old_path & r0 & r & Hpath & Hold & Hr0 & Hr & Hs1 & _)%branch_parts. apply path_to_root_branch in Hpath.
  apply start_replay_at in Hr0; [|done|intros tip Htip; by rewrite Htip in Hold].
  destruct (common_prefix_take old_path path) as (n & Hn & _ & _ & Hlp).
  apply (replay_range s path (common_prefix old_path path) (len path)) in Hr; [|apply Hinv..|unfold len; lia|done].
  destruct (branch_last _ _ _ Hpath Hne) as [pre Epre]. by eapply commit_replay_inv.
Qed.

Lemma activate_chain_inv s hash result s' :
  chain_inv s -> hash ≠ [] ->
  (forall block, block_get (blocks s) hash = Ok (Some block) -> admissible (headers s) (header block)) ->
  chain_activated s hash = Ok (result, s') -> chain_inv s'.
Proof.
  intros Hinv Hne Hadm E. unfold chain_activated in E. cbv zeta in E. apply rbind_Ok in E as (candidate & _ & E).
  case_bool_decide; [by injection E as _ <-|].
  destruct (chain_tip s) as [tip|] eqn:Etip.
  2:{ eapply activate_branch_inv; [done..|]. rewrite Etip. exact E. }
  destruct candidate as [record|].
  2:{ eapply activate_branch_inv; [done..|]. rewrite Etip. exact E. }
  case_bool_decide.
  - apply rbind_Ok in E as (found & Hf & E). destruct found as [block|]; [|discriminate].
    apply rbind_Ok in E as ([fees s1] & Ha & E). injection E as _ <-.
    eapply apply_block_inv; [done| |by eapply stored_canonical|exact Ha]. by apply Hadm.
  - eapply activate_branch_inv; [done..|]. rewrite Etip. exact E.
Qed.

(** ** Reachable states *)

(** What changes the chain state of a node: a block that extends the tip, a
    change of branch, and the headers and blocks that synchronisation stores,
    whatever they are, with the height and the work it records for them.  The first
    two are the calls that return. *)
Inductive chain_step : NodeService -> NodeService -> Prop :=
| step_extend s block fees s' :
    admissible (headers s) (header block) -> canonical_block block = block -> apply_block block s = (Ok fees, s') -> chain_step s s'
| step_activate s hash result s' :
    hash ≠ [] -> (forall block, block_get (blocks s) hash = Ok (Some block) -> admissible (headers s) (header block)) ->
    activate_chain hash s = (Ok result, s') -> chain_step s s'
| step_header s hdr hash h work hdb :
    block_hash hdr = Ok hash -> hash ≠ zero_hash -> header_get_record (headers s) hash = Ok None ->
    header_put (headers s) hdr h work false = Ok hdb -> chain_step s (with_headers s hdb)
| step_block s block hash bdb :
    block_hash (header block) = Ok hash -> block_get (blocks s) hash = Ok None ->
    block_put (blocks s) block = Ok bdb -> chain_step s (with_blocks s bdb).

(** A change of the chain that passed its checks and that an exception interrupted
    between two writes: what was written stays. *)
Inductive torn_step : NodeService -> NodeService -> Prop :=
| torn_extend s block work fees e s' :
    admissible (headers s) (header block) -> canonical_block block = block ->
    checked_block s block = Ok (work, fees) -> write_block block work s = (Raise e, s') -> torn_step s s'
| torn_activate s hash result path r ts e s' :
    hash ≠ [] -> branch_plan s hash (chain_tip s) = Ok (result, path, r, ts) ->
    commit_replay path r s = (Raise e, s') -> torn_step s s'.

Definition any_step (s s' : NodeService) : Prop := chain_step s s' \/ torn_step s s'.

Definition reachable (net : str) : NodeService -> Prop := rtc chain_step (new_service params net).

Lemma new_service_inv net : chain_inv (new_service params net).
Proof.
  split; [done|done|by intros hash block Hg|]. exists [], [], empty_ledger. split; [done|].
  split; [constructor|done|done| |apply supply_empty].
  split; [by intros i r Hr|]. split; [|done]. intros r1 r2 Hr. by apply not_elem_of_nil in Hr.
Qed.

(** A header that was not in the table leaves the active path alone. *)
Lemma store_header_path db hdr hash h work hdb path :
  active_path db path -> block_hash hdr = Ok hash -> header_rows db !! hash = None -> header_put db hdr h work false = Ok hdb ->
  active_path hdb path.
Proof.
  intros Hpath Hhash Hnew E. unfold header_put in E. rewrite Hhash in E. cbn [rbind] in E. apply rbind_Ok in E as (raw & _ & E).
  apply rbind_Ok in E as (hc & _ & E). injection E as <-. unfold active_path in *. cbn [chain_tip_hash header_rows].
  destruct (chain_tip_hash db) as [t|] eqn:Et; [|done]. destruct Hpath as (Hne & B & Htip). split; [done|].
  assert (Hother : forall x, x ∈ path -> x ≠ hash). { intros x Hx ->. destruct (branch_rows _ _ _ hash B Hx) as [_ [? ?]]. congruence. }
  split; [eapply branch_agree; [|exact B]; intros x Hx; rewrite lookup_insert_ne; [done|by apply not_eq_sym, Hother]|].
  destruct (branch_last _ _ _ B Hne) as [pre Epre]. rewrite <- Htip. unfold header_get_tip. cbn [chain_tip_hash header_rows].
  rewrite Et, lookup_insert_ne; [done|]. apply not_eq_sym, Hother. rewrite Epre. set_solver.
Qed.

Lemma chain_step_inv s s' : chain_step s s' -> chain_inv s -> chain_inv s'.
Proof.
  intros [s0 block fees s1 Hadm Hcan E%apply_block_returns|s0 hash result s1 Hne Hadm E%activate_chain_returns|
    s0 hdr hash h work hdb Hh Hz Hnew E|s0 block hash bdb Hh Hnew E] Hinv.
  - by eapply apply_block_inv.
  - by eapply activate_chain_inv.
  - destruct Hinv as [Hp Hzero Hb (path & chain & l & Hpath & Hat)].
    assert (Hnone : header_rows (headers s0) !! hash = None).
    { unfold header_get_record in Hnew. destruct (header_rows (headers s0) !! hash); [|done].
      apply rbind_Ok in Hnew as (? & _ & Hnew). by apply rbind_Ok in Hnew as (? & _ & Hnew). }
    split; simpl; [done| |done|].
    + unfold header_put in E. rewrite Hh in E. cbn [rbind] in E. apply rbind_Ok in E as (raw & _ & E).
      apply rbind_Ok in E as (hc & _ & E). injection E as <-. cbn [header_rows]. by rewrite lookup_insert_ne.
    + exists path, chain, l. split; [by eapply store_header_path|done].
  - destruct Hinv as [Hp Hzero Hb (path & chain & l & Hpath & [Hs Hl Hu Hn Hm])]. split; simpl; [done|done|by eapply block_put_ok|].
    exists path, chain, l. split; [done|]. split; [|done..]. eapply stored_along_agree; [|exact Hs]. intros x Hx.
    apply (block_put_other _ _ _ _ _ E Hh). intros ->. destruct (list_elem_of_lookup_1 _ _ Hx) as [i Hi].
    destruct (Forall2_lookup_r _ _ _ _ _ Hs Hi) as (b & _ & Hg & _). congruence.
Qed.

(** ** Every outcome of the two operations is a step, or nothing *)

Lemma apply_block_steps block s : admissible (headers s) (header block) -> canonical_block block = block ->
  match apply_block block s with
  | (Ok _, s') => chain_step s s'
  | (Raise _, s') => s' = s \/ torn_step s s'
  end.
Proof.
  intros Ha Hc. destruct (apply_block block s) as [[fees|e] s'] eqn:E; [by eapply step_extend|].
  unfold apply_block, sbind at 1, asks in E. destruct (checked_block s block) as [[work fees]|e0] eqn:Ec; [|left; congruence].
  unfold sbind, ret in E. cbn [fst snd] in E. destruct (write_block block work s) as [[[]|e1] s1] eqn:Ew; [discriminate|].
  injection E as _ <-. right. by eapply torn_extend.
Qed.

Lemma activate_chain_steps hash s : hash ≠ [] ->
  (forall block, block_get (blocks s) hash = Ok (Some block) -> admissible (headers s) (header block)) ->
  match activate_chain hash s with
  | (Ok _, s') => chain_step s s'
  | (Raise _, s') => s' = s \/ torn_step s s'
  end.
Proof.
  intros Hne Ha. destruct (activate_chain hash s) as [[result|e] s'] eqn:E; [by eapply step_activate|].
  unfold activate_chain, sbind at 1, gets in E. cbv zeta in E. unfold sbind at 1, asks in E.
  destruct (header_get_record (headers s) hash) as [candidate|e0]; [|left; congruence]. case_bool_decide; [discriminate|].
  assert (Hbranch : activate_branch hash (chain_tip s) s = (Raise e, s') -> s' = s \/ torn_step s s').
  { clear E. unfold activate_branch, sbind at 1, asks. destruct (branch_plan s hash (chain_tip s)) as [[[[result path] r] ts]|e0] eqn:Ep; [|intros; left; congruence].
    unfold sbind, ret. destruct (commit_replay path r s) as [[[]|e1] s1] eqn:Ew; [discriminate|]. intros [= _ <-]. right. by eapply torn_activate. }
  destruct (chain_tip s) as [tip|]; [|by apply Hbranch]. destruct candidate as [record|]; [|by apply Hbranch].
  case_bool_decide; [|by apply Hbranch]. unfold sbind at 1, asks in E.
  destruct (block_get (blocks s) hash) as [[block|]|e0] eqn:Eg; [|left; injection E; congruence|left; congruence].
  pose proof (apply_block_steps block s (Ha block eq_refl) (stored_canonical _ _ _ Eg)) as Hs. unfold sbind, ret in E.
  destruct (apply_block block s) as [[fees|e1] s1]; [discriminate|]. by injection E as _ <-.
Qed.

(** A run is complete, or some write of it was interrupted in a reachable state. *)
Lemma runs_complete_or_torn net s : rtc any_step (new_service params net) s ->
  reachable net s \/ exists s1 s2, reachable net s1 /\ torn_step s1 s2 /\ rtc any_step s2 s.
Proof.
  revert s. apply rtc_ind_r; [left; constructor|]. intros s s' _ Hstep [Hr|(s1 & s2 & Hr & Ht & Hrun)].
  - destruct Hstep as [Hs|Hs]; [left; by eapply rtc_r|]. right. exists s, s'. split; [done|]. by split.
  - right. exists s1, s2. split; [done|]. split; [done|]. by eapply rtc_r.
Qed.

Lemma reachable_inv net s : reachable net s -> chain_inv s.
Proof.
  intros R. eapply (rtc_preserved chain_inv); [exact chain_step_inv|exact R|apply new_service_inv].
Qed.

(** C1: The persisted state is a function of the active chain: after any sequence of
    calls of [apply_block] and [activate_chain] that return and of stored headers and
    blocks, the tip ends a branch of the header table at the height of the branch's
    length less one, the table of blocks has a block of that hash at every place of
    the branch, and the unspent outputs and the registry are exactly the ledger of
    these stored blocks, applied in order from nothing. *)
Theorem active_chain_refines_ledger (net : str) (s : NodeService) :
  reachable net s ->
  exists path chain l,
    match chain_tip s with
    | None => path = []
    | Some tip => branch (header_rows (headers s)) (tip_hash tip) path /\ tip_height tip = len path - 1
    end /\
    Forall2 (fun block hash => block_get (blocks s) hash = Ok (Some block) /\ block_hash (header block) = Ok hash) chain path /\
    ledger_of chain = Ok l /\ utxo_rows (chainstate s) = ledger_utxos l /\
    (forall i, get_by_node_id (node_registry s) i = ledger_nodes l !! i).
Proof.
  intros [_ _ _ (path & chain & l & Hpath & [Hh Hl Hu Hn _])]%reachable_inv. exists path, chain, l.
  split; [|split; [done|split; [done|split; [done|apply Hn]]]]. unfold active_path in Hpath. unfold chain_tip.
  destruct (chain_tip_hash (headers s)) as [t|] eqn:Et; [by destruct Hpath as (_ & B & ->)|].
  unfold header_get_tip. by rewrite Et.
Qed.

(** C2: The supply is bounded after any sequence of changes of the chain that return:
    no output is negative, and all unspent outputs together hold at most what the schedule has minted
    through the tip's height, hence never more than the cap on the money. *)
Theorem reachable_supply_bounded (net : str) (s : NodeService) :
  reachable net s ->
  nonneg_outputs (utxo_rows (chainstate s)) /\
  utxo_total (utxo_rows (chainstate s)) <= minted params (next_height s - 1) /\
  minted params (next_height s - 1) <= max_money_chipbits params.
Proof.
  intros [_ _ _ (path & chain & l & Hpath & [_ _ Hu _ [Hnn Hle]])]%reachable_inv.
  destruct (active_path_next s path Hpath) as [-> _]. simpl in Hu. rewrite Hu. split; [done|]. split; [done|].
  unfold minted. rewrite total_subsidy_min by done. simpl. lia.
Qed.

(** C20: In every reachable state the registry is well formed: each row is stored
    under its own node id and no two nodes have the same owner key, so looking a
    node up by owner is unambiguous. *)
Theorem reachable_registry_unique (net : str) (s : NodeService) :
  reachable net s ->
  registry_db_wf (node_registry s) /\
  (forall r1 r2, r1 ∈ registry_store_list (node_registry s) -> r2 ∈ registry_store_list (node_registry s) ->
    owner_pubkey r1 = owner_pubkey r2 -> r1 = r2) /\
  (forall r, r ∈ registry_store_list (node_registry s) ->
    registry_store_get_by_owner (node_registry s) (owner_pubkey r) = Some r).
Proof.
  intros [_ _ _ (path & chain & l & _ & [_ _ _ (Hw & Hu & _) _])]%reachable_inv. split; [done|]. split; [done|].
  intros r Hr. destruct (registry_store_get_by_owner (node_registry s) (owner_pubkey r)) as [r'|] eqn:E.
  - destruct (@get_by_owner_Some _ _ sqlite_registry_laws (node_registry s) _ r' Hw E) as [Ho Hin]. f_equal. by apply Hu.
  - by destruct (@get_by_owner_None _ _ sqlite_registry_laws (node_registry s) _ Hw E r Hr).
Qed.

(** ** What an activation reports *)

Definition accounts (s s' : NodeService) (hash : str) (result : ChainActivationResult) : Prop :=
  tip_hash <$> chain_tip s' = Some hash /\ new_tip result = hash /\ old_tip result = tip_hash <$> chain_tip s /\
  0 <= applied_blocks result /\ 0 <= reorg_depth result /\
  next_height s' = next_height s - reorg_depth result + applied_blocks result.

Lemma next_height_tip s tip : chain_tip s = Some tip -> next_height s = tip_height tip + 1.
Proof. intros E. unfold next_height. by rewrite E. Qed.

Lemma apply_block_tip s block fees s' hash path :
  active_path (headers s) path -> block_hash (header block) = Ok hash -> block_applied s block = Ok (fees, s') ->
  chain_tip s' = Some (mkTip hash (next_height s)).
Proof.
  intros Hpath Hh E. apply apply_block_parts in E as (? & work & hdb & ? & ? & ? & ? & ? & hash' & hdb' & _ & _ & Hput & _ & _ & _ & Hh' & Hset & ->).
  rewrite Hh in Hh'. injection Hh' as <-. unfold chain_tip. cbn [headers].
  unfold header_put in Hput. rewrite Hh in Hput. cbn [rbind] in Hput. apply rbind_Ok in Hput as (raw & _ & Hput).
  apply rbind_Ok in Hput as (hc & _ & Hput). injection Hput as <-.
  unfold header_set_tip in Hset. apply rbind_Ok in Hset as (h' & [-> _]%sqlite_int_id & Hset). injection Hset as <-.
  unfold header_get_tip. cbn [chain_tip_hash header_rows]. by rewrite update_row_same, lookup_insert_eq.
Qed.

Lemma activate_branch_accounts s hash result s' :
  chain_inv s -> hash ≠ [] -> branch_activated s hash (chain_tip s) = Ok (result, s') -> accounts s s' hash result.
Proof.
  intros [_ _ _ (active & chain & l & Hact & _)] Hne (path & old_path & r0 & r & Hpath & Hold & _ & _ & Hs1 & Ha & Hd & Hnt & Hot)%branch_parts.
  apply path_to_root_branch in Hpath.
  destruct (common_prefix_take old_path path) as (n & Hn & _ & Hlo & Hlp).
  destruct (branch_last _ _ _ Hpath Hne) as [pre Epre].
  assert (Htip : chain_tip s' = Some (mkTip hash (len pre))).
  { unfold replay_committed in Hs1. do 4 (apply rbind_Ok in Hs1 as (? & _ & Hs1)). apply rbind_Ok in Hs1 as (hdb & Hm & Hs1).
    injection Hs1 as <-. rewrite Epre in Hm. apply (set_main_chain_spec _ _ _ _ Hm), (branch_rows _ hash path hash Hpath).
    rewrite Epre. set_solver. }
  assert (Hnext : next_height s = len old_path).
  { destruct (active_path_next s active Hact) as (-> & Hnil & _). unfold active_path in Hact. unfold chain_tip in *.
    destruct (chain_tip_hash (headers s)) as [t|] eqn:Et.
    - destruct Hact as (_ & B & Eg). rewrite Eg in Hold. apply path_to_root_branch in Hold. simpl in Hold.
      by rewrite (branch_functional _ _ _ _ B Hold).
    - unfold header_get_tip in Hold. rewrite Et in Hold. subst active. by injection Hold as <-. }
  unfold accounts. rewrite Ha, Hd, Htip, (next_height_tip s' _ Htip), Hnext. cbn [tip_height].
  pose proof (len_snoc pre hash) as Hl. rewrite <- Epre in Hl. split; [done|]. split; [done|]. split; [done|].
  unfold len in *. lia.
Qed.

(** An activation that returns has made the requested header the tip, and its
    report adds up: the new chain is as long as the old one, less the blocks it
    says were disconnected, plus the blocks it says were applied. *)
Theorem activation_report (net : str) (s : NodeService) (hash : str) (result : ChainActivationResult) (s' : NodeService) :
  reachable net s -> hash ≠ [] -> activate_chain hash s = (Ok result, s') ->
  tip_hash <$> chain_tip s' = Some hash /\ new_tip result = hash /\ old_tip result = tip_hash <$> chain_tip s /\
  0 <= applied_blocks result /\ 0 <= reorg_depth result /\
  next_height s' = next_height s - reorg_depth result + applied_blocks result.
Proof.
  intros Hinv%reachable_inv Hne E%activate_chain_returns. unfold chain_activated in E. cbv zeta in E. apply rbind_Ok in E as (candidate & _ & E).
  case_bool_decide as Hsame.
  { injection E as <- <-. rewrite Hsame. simpl. repeat (split; [done|]). lia. }
  destruct (chain_tip s) as [tip|] eqn:Etip.
  2:{ rewrite <- Etip in E |- *. by apply activate_branch_accounts. }
  destruct candidate as [record|].
  2:{ rewrite <- Etip in E |- *. by apply activate_branch_accounts. }
  case_bool_decide.
  - apply rbind_Ok in E as (found & Hf & E). destruct found as [block|]; [|discriminate].
    apply rbind_Ok in E as ([fees s1] & Ha & E). injection E as <- <-.
    destruct Hinv as [_ _ Hb (path & chain & l & Hpath & _)]. apply Hb in Hf.
    pose proof (apply_block_tip s block fees s1 hash path Hpath Hf Ha) as Ht. rewrite Ht, (next_height_tip s1 _ Ht). simpl.
    repeat (split; [done|]). lia.
  - rewrite <- Etip in E |- *. by apply activate_branch_accounts.
Qed.
End chain.
