(* ===== verification/Node.v ===== *)
(** * The node: chain, mempool and templates together ([node/service.py])

    The operations of the service in which the active chain, the mempool and the
    templates for miners meet: the context pending transactions are validated in,
    the reception of a transaction, the candidate block, the templates handed out to
    miners and what comes back from them, and [apply_block] and [activate_chain]
    with the reconciliation of the pool.  The last two write the tables of the chain
    and then the pool, each call of a repository committing alone: what was written
    before an exception stays ([Service]).

    The index of confirmed transactions is a cache of
    [_build_active_chain_transaction_index], which the service drops before it
    reconciles the pool with a new chain; here it is computed at every lookup.  Identifiers of templates are
    random, so [get_block_template] takes one as an argument. *)

From S2P Require Import Prelude PyState PyOrder PyText Hashes Params Models Serialization Registry Economics Pow Merkle Crypto Addresses Json Settlement Nodes Utxo UtxoStore Headers RewardStore Validation PqPolicy Mempool Mining Service.

Record MiningTemplateRecord : Type := mkTemplateRecord {
  created_at : Z;
  expires_at : Z;
  record_previous_block_hash : str;
  template_block_height : Z;
  template_version : Z;
  template_bits : Z;
  target_text : str;
  payout_to : str;
  miner_id : str;
  coinbase_outputs : list TxOutput;
  non_coinbase_transactions : list Transaction;
  coinbase_value_chipbits : Z;
  node_reward_total_chipbits : Z;
}.

Record Node : Type := mkNode {
  node_chain : NodeService;
  node_pool : MempoolManager;
  _mining_templates : list (str * MiningTemplateRecord);
  _template_cache_tip_hash : option str;
}.

Definition new_node (params : ConsensusParams) (net : str) : Node := mkNode (new_service params net) new_mempool [] None.

Abbreviation node := (stm Node).

Definition set_chain (s : NodeService) (n : Node) : Node := mkNode s (node_pool n) (_mining_templates n) (_template_cache_tip_hash n).
Definition set_pool (m : MempoolManager) (n : Node) : Node := mkNode (node_chain n) m (_mining_templates n) (_template_cache_tip_hash n).
Definition set_templates (ts : list (str * MiningTemplateRecord)) (n : Node) : Node :=
  mkNode (node_chain n) (node_pool n) ts (_template_cache_tip_hash n).

Definition of_chain {A} (f : NodeService -> res A) : node A := asks (fun n => f (node_chain n)).

(** A method of the pool *)
Definition on_pool {A} (op : pool A) : node A := fun n => let '(r, m) := op (node_pool n) in (r, set_pool m n).

Definition zero_or_tip (s : NodeService) : str := match chain_tip s with None => zero_hash | Some tip => tip_hash tip end.

(** ** Confirmed transactions *)

Definition index_block (s : NodeService) (index : gmap str (str * Z)) (h : Z) : res (gmap str (str * Z)) :=
  match header_get_hash_at_height (headers s) h with
  | None => Ok index
  | Some hash =>
      let* found := block_get (blocks s) hash in
      match found with
      | None => Ok index
      | Some block => foldM (fun ix t => let* id := txid t in Ok (<[id := (hash, h)]> ix)) index (transactions block)
      end
  end.

Definition _build_active_chain_transaction_index (s : NodeService) : res (gmap str (str * Z)) :=
  match chain_tip s with
  | None => Ok ∅
  | Some tip => foldM (index_block s) ∅ (zrange (tip_height tip + 1))
  end.

(** The first transaction of a list with an identifier *)
Fixpoint find_txid (ts : list Transaction) (id : str) : res (option Transaction) :=
  match ts with
  | [] => Ok None
  | t :: ts' => let* i := txid t in if bool_decide (i = id) then Ok (Some t) else find_txid ts' id
  end.

Definition _find_transaction_in_active_chain (s : NodeService) (id : str) : res (option Transaction) :=
  let* index := _build_active_chain_transaction_index s in
  match index !! id with
  | None => Ok None
  | Some (hash, _) =>
      let* found := block_get (blocks s) hash in
      match found with
      | None => Ok None
      | Some block => find_txid (transactions block) id
      end
  end.

Definition _known_confirmed_transaction_ids (s : NodeService) : gset str :=
  list_to_set ((fun item => op_txid item.1) <$> store_list_utxos (chainstate s)).

Section node.
Context `{PyRepr, CryptoBackend}.
Variable clock : nat -> Z.

Abbreviation pool_context := (ValidationContext (OverlayUtxoView SQLiteChainStateRepository) InMemoryNodeRegistryView).

(** ** Validation of pending transactions *)

Definition median_of_tip (s : NodeService) : res Z :=
  match chain_tip s with
  | None => Ok 0
  | Some tip =>
      let* found := header_get (headers s) (tip_hash tip) in
      match found with Some hdr => Ok (timestamp hdr) | None => raise AttributeError "timestamp" end
  end.

Definition _validation_context_for_view (s : NodeService) (view : OverlayUtxoView SQLiteChainStateRepository)
    (registry : option InMemoryNodeRegistryView) (fee_registry_count : option Z) : res pool_context :=
  let h := next_height s in
  let registry_view := match registry with None => registry_store_snapshot (node_registry s) | Some r => r end in
  let* '(identities, bundles, settled) := _reward_validation_state s in
  let* median := median_of_tip s in
  let* seeds := _epoch_seed_map s h None in
  let* count := match fee_registry_count with Some n => Ok n | None => reward_fee_node_count registry_view h (service_params s) end in
  Ok (mkContext h median (service_params s) view (service_network s) registry_view identities bundles settled seeds None None true (Some count)).

Definition factory (s : NodeService) (view : OverlayUtxoView SQLiteChainStateRepository) : res pool_context :=
  _validation_context_for_view s view None None.

Definition policy : MempoolPolicy := default_policy.
Definition pool_time : node Z := on_pool (time_provider clock).

(** A context shares its registry with the code that updates it. *)
Definition with_node_registry (context : pool_context) (registry : InMemoryNodeRegistryView) : pool_context :=
  mkContext (context_height context) (median_time_past context) (context_params context) (utxo_view context) (network context) registry
    (reward_attestation_identities context) (reward_attestation_bundles context) (settled_epoch_indexes context) (epoch_seed_by_index context)
    (expected_previous_block_hash context) (expected_bits context) (enforce_coinbase_maturity context) (reward_fee_registry_count context).

(** The context over the persisted outputs with a registry of its own *)
Definition staged_registry_context (s : NodeService) : res pool_context :=
  let staged := registry_store_snapshot (node_registry s) in
  let* count := reward_fee_node_count staged (next_height s) (service_params s) in
  _validation_context_for_view s (overlay_over (chainstate s)) (Some staged) (Some count).

Definition apply_pending (context : pool_context) (t : Transaction) : res pool_context :=
  let* _ := validate_transaction t context in
  let* registry := apply_special_node_transaction t (context_height context) (node_registry_view context) in
  Ok (with_node_registry context registry).

Definition _validate_special_node_mempool_sequence (s : NodeService) (db : MempoolDb) (t : Transaction) : res unit :=
  if negb (is_special_node_transaction t) then Ok tt
  else
    let* context := staged_registry_context s in
    let* entries := mempool_list_all db in
    let* context' := foldM (fun c e => if is_special_node_transaction (pool_transaction e) then apply_pending c (pool_transaction e) else Ok c)
                       context entries in
    let* _ := validate_transaction t context' in
    Ok tt.

Definition invalidate_mining_templates : node unit :=
  modify (fun n => mkNode (node_chain n) (node_pool n) [] None).

Definition receive_transaction (t : Transaction) : node (Transaction * Z) :=
  do! attempt
        (do! on_pool (preflight policy t) in
         asks (fun n => _validate_special_node_mempool_sequence (node_chain n) (repository (node_pool n)) t))
        [ValidationError]
        (fun e => let! concerned := lift (is_pq_transaction t) in
                  do! (if concerned then on_pool (count_pq one_rejected) else ret tt) in
                  lift (Raise e)) in
  let! s := gets node_chain in
  let! accepted := on_pool (accept (chainstate s) (factory s) (_find_transaction_in_active_chain s) policy clock t None) in
  do! invalidate_mining_templates in
  ret accepted.

Definition decode_raw_transaction (raw_hex : str) : res Transaction :=
  let* encoded := fromhex raw_hex in
  raise_if (max_transaction_size_bytes policy <? len encoded) ValueError "Raw transaction exceeds mempool size policy." ;;
  let* '(t, offset) := deserialize_transaction encoded 0 in
  raise_if (negb (offset =? len encoded)) ValueError "Raw transaction contains trailing bytes." ;;
  Ok t.

(** ** Candidate blocks *)

Record TemplateCounts : Type := mkCounts { special_count : Z; register_reward_count : Z; renew_reward_count : Z }.

Definition _special_node_template_policy_rejection (t : Transaction) (c : TemplateCounts) : option string :=
  if max_special_node_transactions policy <=? special_count c then Some "Mempool special-node transaction limit exceeded."%string
  else if is_register_reward_node_transaction t && (max_register_reward_node_transactions policy <=? register_reward_count c)
  then Some "Mempool register_reward_node transaction limit exceeded."%string
  else if is_renew_reward_node_transaction t && (max_renew_reward_node_transactions policy <=? renew_reward_count c)
  then Some "Mempool renew_reward_node transaction limit exceeded."%string
  else None.

Record Filtering : Type := mkFiltering {
  filter_context : pool_context;
  filtered_entries : list MempoolEntry;
  pruned_txids : list str;
  filter_counts : TemplateCounts;
}.

Definition count_special (t : Transaction) (c : TemplateCounts) : TemplateCounts :=
  mkCounts (special_count c + 1)
    (if is_register_reward_node_transaction t then register_reward_count c + 1 else register_reward_count c)
    (if negb (is_register_reward_node_transaction t) && is_renew_reward_node_transaction t then renew_reward_count c + 1 else renew_reward_count c).

Definition _record_pruned_special_node_mempool_transaction (f : Filtering) (t : Transaction) : res Filtering :=
  let* id := txid t in Ok (mkFiltering (filter_context f) (filtered_entries f) (pruned_txids f ++ [id]) (filter_counts f)).

Definition filter_entry (f : Filtering) (e : MempoolEntry) : res Filtering :=
  let t := pool_transaction e in
  if negb (is_special_node_transaction t)
  then Ok (mkFiltering (filter_context f) (filtered_entries f ++ [e]) (pruned_txids f) (filter_counts f))
  else match _special_node_template_policy_rejection t (filter_counts f) with
       | Some _ => _record_pruned_special_node_mempool_transaction f t
       | None =>
           match apply_pending (filter_context f) t with
           | Ok context => Ok (mkFiltering context (filtered_entries f ++ [e]) (pruned_txids f) (count_special t (filter_counts f)))
           | Raise e => if isinstance (exn_cls e) ValidationError then _record_pruned_special_node_mempool_transaction f t else Raise e
           end
       end.

Definition _filter_template_mempool_entries (mempool_entries : list MempoolEntry) : node (list MempoolEntry) :=
  let! context := of_chain staged_registry_context in
  let! f := lift (foldM filter_entry (mkFiltering context [] [] (mkCounts 0 0 0)) mempool_entries) in
  do! (if bool_decide (pruned_txids f = []) then ret tt
       else do! on_pool (remove_many (pruned_txids f)) in invalidate_mining_templates) in
  ret (filtered_entries f).

(** The registry before a height: the stored one at the tip, or replayed *)
Definition _node_registry_view_before_height (s : NodeService) (h : Z) : res InMemoryNodeRegistryView :=
  if h <? 0 then raise ValueError "height cannot be negative"
  else
    let replayed := foldM (fun v h => let* found := get_block_by_height s h in
        match found with None => raise ValueError "Missing active-chain block" | Some block => _apply_node_registry_block block h v end)
        (mkRegistry []) (zrange h) in
    match chain_tip s with
    | Some tip => if tip_height tip + 1 <=? h then Ok (registry_store_snapshot (node_registry s)) else replayed
    | None => replayed
    end.

Definition list_active_reward_nodes (s : NodeService) (h : Z) : res (list NodeRecord) :=
  let* v := _node_registry_view_before_height s h in active_node_records v h (service_params s).

(** [{record.node_id: record for record in records if record.reward_registration}] *)
Definition reward_nodes_by_id (records : list NodeRecord) : list (str * NodeRecord) :=
  foldl (fun d r => if reward_registration r then dict_set d (node_id r) r else d) [] records.

Record SeedDiagnostics : Type := mkSeedDiagnostics {
  resolved_epoch : Z;
  epoch_first : Z;
  epoch_last : Z;
  evaluation_height : Z;
  previous_epoch_close_height : option Z;
  previous_epoch_close_hash : option str;
  diagnosed_seed_version : Z;
  seed_domain : str;
  seed_block_window : Z;
  seed_block_hashes : list str;
  epoch_seed_hex : option str;
}.

Definition native_reward_epoch_seed_diagnostics (s : NodeService) (epoch_index : option Z) : res SeedDiagnostics :=
  let current_height := next_height s - 1 in
  let current_epoch := next_height s / epoch_length_blocks (service_params s) in
  let epoch := default current_epoch epoch_index in
  let* seed_map := _epoch_seed_map s (next_height s) None in
  let* close_height := (if epoch =? 0 then Ok None else let* h := epoch_close_height (epoch - 1) (service_params s) in Ok (Some h)) in
  let close_hash := match close_height with None => Some zero_hash | Some h => header_get_hash_at_height (headers s) h end in
  let* seed_version := reward_epoch_seed_version (service_network s) epoch in
  let* seed_hashes := _previous_epoch_seed_block_hashes s epoch None in
  let* last := epoch_close_height epoch (service_params s) in
  Ok (mkSeedDiagnostics epoch (epoch * epoch_length_blocks (service_params s)) last
    (if epoch =? current_epoch then next_height s else Z.min last current_height) close_height close_hash seed_version
    (if seed_version =? 1 then u "reward-epoch-v1" else REWARD_EPOCH_SEED_V2_DOMAIN_PREFIX ++ u ":" ++ service_network s)
    (if seed_version =? 1 then match close_hash with None => 0 | Some _ => 1 end else len seed_hashes)
    (if seed_version =? 1 then option_list close_hash else seed_hashes)
    (hex <$> seed_map !! epoch)).

Definition build_native_reward_settlement (s : NodeService) (epoch_index : option Z) (mode : str) : res RewardSettlement :=
  let* payload := native_reward_epoch_seed_diagnostics s epoch_index in
  match epoch_seed_hex payload with
  | None => raise ValueError "Epoch seed is unavailable for the requested epoch."
  | Some seed =>
      let* active := list_active_reward_nodes s (epoch_last payload) in
      let* stored := list_bundles (reward_attestations s) (Some (resolved_epoch payload)) in
      let* pool := node_reward_pool_chipbits (epoch_last payload) (service_params s) in
      build_reward_settlement (resolved_epoch payload) seed (epoch_first payload) (epoch_last payload) (u "native-v1-prototype") mode
        (reward_nodes_by_id active) (concat ((fun b => attestations (stored_bundle b)) <$> stored)) pool (service_params s)
  end.

Definition build_native_reward_settlement_transaction (s : NodeService) (epoch_index : option Z) (mode : str) : res Transaction :=
  let* settlement := build_native_reward_settlement s epoch_index mode in Ok (build_reward_settlement_transaction settlement).

(** The manual settlements of a height that wait in the pool *)
Definition manual_candidates (h : Z) (entries : list MempoolEntry) : res (list Transaction) :=
  foldM (fun acc e =>
    if negb (has_kind REWARD_SETTLE_EPOCH_KIND (pool_transaction e)) then Ok acc
    else
      let* settlement := parse_reward_settlement_metadata (metadata (pool_transaction e)) in
      Ok (if epoch_end_height settlement =? h then acc ++ [pool_transaction e] else acc)) [] entries.

Definition _preferred_native_reward_settlement_transaction (s : NodeService) (h : Z) (entries : list MempoolEntry) : res (option Transaction) :=
  if h <? node_reward_activation_height (service_params s) then Ok None
  else
    let* closing := is_epoch_reward_height h (service_params s) in
    if negb closing then Ok None
    else
      let epoch := h / epoch_length_blocks (service_params s) in
      if bool_decide (epoch ∈ store_settled_epoch_indexes (reward_settlements s)) then Ok None
      else
        let* manual := manual_candidates h entries in
        let* ids := mapM txid manual in
        match sorted_by snd (zip manual ids) with
        | (t, _) :: _ => Ok (Some t)
        | [] => let* t := build_native_reward_settlement_transaction s (Some epoch) (u "auto") in Ok (Some t)
        end.

Definition build_candidate_block (miner_address : str) : node BlockTemplate :=
  let! s := gets node_chain in
  let h := next_height s in
  let! target := lift (_expected_bits_for_height s h) in
  let! entries := on_pool list_transactions in
  let! filtered := _filter_template_mempool_entries entries in
  let! preferred := lift (_preferred_native_reward_settlement_transaction s h filtered) in
  let! kept := lift (match preferred with
                     | None => Ok filtered
                     | Some t => filterM (fun e => let* id := txid (pool_transaction e) in let* own := txid t in Ok (negb (bool_decide (id = own)))) filtered
                     end) in
  let! now := pool_time in
  lift (build_block_template (service_params s) now (zero_or_tip s) (service_network s) h miner_address target kept
          (registry_store_snapshot (node_registry s)) (_known_confirmed_transaction_ids s) ∅ (option_list preferred)).

(** ** Templates for miners *)

Definition _mining_template_ttl_seconds : Z := 15.

Definition expected_next_bits (s : NodeService) : res Z := _expected_bits_for_height s (next_height s).

Definition _format_target (compact : Z) : res str := let* target := bits_to_target compact in Ok (py_str_int target).

Definition discard_mining_template (template_id : str) : node unit :=
  modify (fun n => set_templates (dict_pop (_mining_templates n) template_id) n).

Definition _expire_stale_templates : node unit :=
  let! now := pool_time in
  let! templates := gets _mining_templates in
  let expired_ids := (filter (fun kv => expires_at kv.2 <= now) templates).*1 in
  sfold (fun _ id => discard_mining_template id) tt expired_ids.

(** One transaction as a template lists it: identifier, serialization, weight *)
Definition template_entry (t : Transaction) : res (str * str * Z) :=
  let* id := txid t in
  let* raw := serialize_transaction t in
  let* w := transaction_weight_units t in
  Ok (id, hex raw, w).

Definition template_record (now : Z) (candidate : BlockTemplate) (target payout_address miner : str) (coinbase : Transaction)
    (rest : list Transaction) : MiningTemplateRecord :=
  let first_value := match outputs coinbase with [] => 0 | o :: _ => value o end in
  mkTemplateRecord now (now + _mining_template_ttl_seconds) (previous_block_hash (header (template_block candidate)))
    (template_height candidate) (header_version (header (template_block candidate))) (bits (header (template_block candidate))) target
    payout_address miner (outputs coinbase) rest first_value (zsum (value <$> tail (outputs coinbase))).

Definition remember_template (template_id : str) (record : MiningTemplateRecord) : node unit :=
  modify (fun n => mkNode (node_chain n) (node_pool n) (dict_set (_mining_templates n) template_id record)
                     (Some (record_previous_block_hash record))).

Definition get_block_template (template_id payout_address miner template_mode : str) : node (MiningTemplateRecord * list (str * str * Z)) :=
  do! lift (raise_if (negb (bool_decide (template_mode ∈ [u "full_block"; u "header_and_coinbase_data"]))) ValueError
              "template_mode must be full_block or header_and_coinbase_data") in
  do! _expire_stale_templates in
  let! candidate := build_candidate_block payout_address in
  let! now := pool_time in
  match transactions (template_block candidate) with
  | [] => throw IndexError "tuple index out of range"
  | coinbase :: rest =>
      let! target := lift (_format_target (bits (header (template_block candidate)))) in
      let record := template_record now candidate target payout_address miner coinbase rest in
      do! remember_template template_id record in
      let! listed := lift (mapM template_entry rest) in
      ret (record, listed)
  end.

(** Why a submission is refused *)
Inductive Refusal : Type :=
| unknown_or_expired_template | miner_id_mismatch | stale_template | decode_error (e : exn) | trailing_bytes
| bits_mismatch | missing_coinbase | coinbase_outputs_mismatch | transaction_set_mismatch.

(** The checks of a submission against the template it names *)
Definition check_submission (record : MiningTemplateRecord) (current_previous_hash miner serialized_block_hex : str) : res (Block + Refusal) :=
  if negb (bool_decide (miner_id record = miner)) then Ok (inr miner_id_mismatch)
  else if negb (bool_decide (current_previous_hash = record_previous_block_hash record)) then Ok (inr stale_template)
  else
    match (let* payload := fromhex serialized_block_hex in
           let* '(block, offset) := deserialize_block payload 0 in Ok (payload, block, offset)) with
    | Raise e => if isinstance (exn_cls e) ValueError then Ok (inr (decode_error e)) else Raise e
    | Ok (payload, block, offset) =>
        if negb (offset =? len payload) then Ok (inr trailing_bytes)
        else if negb (bool_decide (previous_block_hash (header block) = record_previous_block_hash record)) then Ok (inr stale_template)
        else if negb (bits (header block) =? template_bits record) then Ok (inr bits_mismatch)
        else
          match transactions block with
          | [] => Ok (inr missing_coinbase)
          | coinbase :: rest =>
              if negb (bool_decide (outputs coinbase = coinbase_outputs record)) then Ok (inr coinbase_outputs_mismatch)
              else
                let* expected_txids := mapM txid (non_coinbase_transactions record) in
                let* actual_txids := mapM txid rest in
                Ok (if bool_decide (actual_txids = expected_txids) then inl block else inr transaction_set_mismatch)
          end
    end.

Definition prepare_mined_block_submission (template_id serialized_block_hex miner : str) : node (Block + Refusal) :=
  do! _expire_stale_templates in
  let! templates := gets _mining_templates in
  match dict_get templates template_id with
  | None => ret (inr unknown_or_expired_template)
  | Some record => asks (fun n => check_submission record (zero_or_tip (node_chain n)) miner serialized_block_hex)
  end.

(** ** Changes of the chain *)

(** The writes of the chain *)
Definition on_chain {A} (op : stm NodeService A) : node A := fun n => let '(r, s) := op (node_chain n) in (r, set_chain s n).

Definition reconcile_pool (extra : option (list Transaction)) : node unit :=
  let! s := gets node_chain in
  on_pool (reconcile (chainstate s) (factory s) (_find_transaction_in_active_chain s) policy clock extra).

Definition node_apply_block (block : Block) : node Z :=
  let! checked := of_chain (fun s => checked_block s block) in
  do! on_pool (record_pq_mined (tail (transactions block))) in
  do! on_chain (write_block block checked.1) in
  do! reconcile_pool None in
  do! invalidate_mining_templates in
  ret checked.2.

Definition node_activate_branch (hash : str) : node ChainActivationResult :=
  let! plan := of_chain (fun s => branch_plan s hash (chain_tip s)) in
  let '(result, path_hashes, r, disconnected_transactions) := plan in
  do! on_pool (record_pq_orphan disconnected_transactions) in
  do! on_chain (commit_replay path_hashes r) in
  do! reconcile_pool (Some disconnected_transactions) in
  do! invalidate_mining_templates in
  ret result.

Definition node_activate_chain (hash : str) : node ChainActivationResult :=
  let! s := gets node_chain in
  let old := tip_hash <$> chain_tip s in
  let! candidate := lift (header_get_record (headers s) hash) in
  if bool_decide (old = Some hash) then ret (no_reorg hash 0 old)
  else
    match chain_tip s, candidate with
    | Some tip, Some record =>
        if bool_decide (record_previous record = tip_hash tip) then
          let! found := lift (block_get (blocks s) hash) in
          match found with
          | None => throw ValueError "Cannot activate chain without stored block"
          | Some block => let! _fees := node_apply_block block in ret (no_reorg hash 1 old)
          end
        else node_activate_branch hash
    | _, _ => node_activate_branch hash
    end.

(** What a miner is told of a submission *)
Inductive SubmitResult : Type :=
| Submitted (hash : str) (became_tip : bool)
| Refused (why : Refusal)
| Invalid (e : exn).

Definition submit_mined_block (template_id serialized_block_hex miner : str) : node SubmitResult :=
  let! prepared := prepare_mined_block_submission template_id serialized_block_hex miner in
  match prepared with
  | inr why => ret (Refused why)
  | inl block =>
      let! outcome := (fun n => match attempt (let! _fees := node_apply_block block in ret None) [ValidationError]
                                        (fun e => do! discard_mining_template template_id in ret (Some e)) n with
                                | (r, n') => (r, set_templates (dict_pop (_mining_templates n') template_id) n')
                                end) in
      match outcome with
      | Some e => ret (Invalid e)
      | None =>
          let! s := gets node_chain in
          let! hash := lift (block_hash (header block)) in
          ret (Submitted hash (match chain_tip s with Some tip => bool_decide (tip_hash tip = hash) | None => false end))
      end
  end.
End node.
