(* ===== verification/NodeFacts.v ===== *)
(** * The chain, the pool and the templates of a node stay consistent

    The operations of [Node] against those of the chain and of the pool alone: what
    a change makes of the chain is what [apply_block] and [activate_chain] make of
    it, interrupted writes included; when it returns, the pool follows, and
    templates do not outlive the state they were built on. *)

From S2P Require Import Prelude PyState PyOrder PyText Hashes Params Models Serialization Registry Economics Pow Merkle Crypto Addresses Json Settlement Nodes Utxo UtxoStore Headers RewardStore Validation ValidationFacts PqPolicy Mempool MempoolFacts PoolReconcile Mining Service ServiceRuns Ledger ChainFacts Node.

(** ** Disconnected transactions *)

Lemma mapM_Forall {A B} (f : A -> res B) (P : B -> Prop) xs ys :
  (forall x y, f x = Ok y -> P y) -> mapM f xs = Ok ys -> Forall P ys.
Proof.
  intros Hf. revert ys. induction xs as [|x xs IH]; intros ys E; cbn [mapM] in E; [by injection E as <-|].
  apply rbind_Ok in E as (y & Hy & E). apply rbind_Ok in E as (ys' & Hys & E). injection E as <-. constructor; eauto.
Qed.

Lemma disconnected_canonical s tip hash ts :
  _disconnected_branch_transactions s tip hash = Ok ts -> Forall (fun t => canonical_tx t = t) ts.
Proof.
  unfold _disconnected_branch_transactions. destruct tip as [tip|]; [|intros [= <-]; constructor]. intros E.
  apply rbind_Ok in E as (old & _ & E). apply rbind_Ok in E as (new & _ & E). cbv zeta in E.
  apply rbind_Ok in E as (groups & Hg & E). injection E as <-. apply Forall_concat.
  eapply mapM_Forall; [|exact Hg]. intros x g Hx. cbv beta in Hx. apply rbind_Ok in Hx as ([block|] & Hb & Hx); injection Hx as <-; [|constructor].
  apply stored_canonical, canonical_transactions in Hb. by apply Forall_tail.
Qed.

Section node.
Context `{PyRepr, CryptoBackend}.
Variable clock : nat -> Z.

Lemma factory_keeps_view s v context : factory s v = Ok context -> utxo_view context = v.
Proof.
  unfold factory, _validation_context_for_view. cbv zeta. intros E. apply rbind_Ok in E as ([[ids bundles] settled] & _ & E). cbv beta iota in E.
  do 3 (apply rbind_Ok in E as (? & _ & E)). by injection E as <-.
Qed.

(** ** Changes of the chain *)

(** Statements that only read, or count *)
Definition counting {A} (op : pool A) : Prop := forall m, repository (op m).2 = repository m.

Lemma counting_bind {A B} (op : pool A) (k : A -> pool B) : counting op -> (forall a, counting (k a)) -> counting (sbind op k).
Proof. intros Hop Hk m. unfold sbind. specialize (Hop m). destruct (op m) as [[a|e] m']; [|done]. simpl in Hop. by rewrite Hk. Qed.
Lemma counting_lift {A} (r : res A) : counting (lift r).
Proof. done. Qed.
Lemma counting_count f : counting (count_pq f).
Proof. done. Qed.
Lemma counting_mined ts : counting (record_pq_mined ts).
Proof. apply counting_bind; [apply counting_lift|intros k; apply counting_count]. Qed.
Lemma counting_orphan ts : counting (record_pq_orphan ts).
Proof. apply counting_bind; [apply counting_lift|intros k; apply counting_count]. Qed.

Lemma plan_disconnected s hash tip result path r ts :
  branch_plan s hash tip = Ok (result, path, r, ts) -> _disconnected_branch_transactions s tip hash = Ok ts.
Proof.
  intros Ep. unfold branch_plan in Ep. apply rbind_Ok in Ep as (? & _ & E). apply rbind_Ok in E as ([] & _ & E). apply rbind_Ok in E as (? & _ & E). cbv zeta in E.
  do 3 (apply rbind_Ok in E as (? & _ & E)). apply rbind_Ok in E as (ts' & Hts & E). by injection E as _ _ _ <-.
Qed.

(** The pool after a change of the chain to [s] *)
Definition reconciled (s : NodeService) (extra : option (list Transaction)) (before : MempoolDb) (after : MempoolManager) : Prop :=
  exists m, repository m = before /\
    reconcile (Service.chainstate s) (factory s) (_find_transaction_in_active_chain s) policy clock extra m = (Ok tt, after).

(** A change of the chain that returns *)
Lemma change_run count (write : stm NodeService unit) extra n n' :
  counting count ->
  (do! on_pool count in do! on_chain write in do! reconcile_pool clock extra in invalidate_mining_templates) n = (Ok tt, n') ->
  exists s m, write (node_chain n) = (Ok tt, s) /\ reconciled s extra (repository (node_pool n)) m /\ n' = mkNode s m [] None.
Proof.
  intros Hc E. specialize (Hc (node_pool n)). destruct n as [s m ts tip]. cbn [node_chain node_pool] in Hc |- *.
  unfold sbind at 1, on_pool at 1 in E. cbn [node_pool] in E. destruct (count m) as [[[]|e] m1]; simpl in Hc; [|discriminate].
  unfold sbind at 1, on_chain in E. cbn [set_pool node_chain] in E. destruct (write s) as [[[]|e] s']; [|discriminate].
  unfold reconcile_pool, sbind, gets, on_pool in E. cbn [set_chain set_pool node_chain node_pool] in E.
  destruct (reconcile _ _ _ _ _ _ m1) as [[[]|e] m2] eqn:Er; [|discriminate]. injection E as <-.
  exists s', m2. split; [done|]. split; [|done]. by exists m1.
Qed.

(** What a change of the chain makes of the chain, whether it returns or raises *)
Definition chain_effect (n n' : Node) (s : NodeService) : Prop := node_chain n' = node_chain n \/ node_chain n' = s.

Lemma change_chain {A} count (write : stm NodeService unit) extra (a : A) n r n' :
  (do! on_pool count in do! on_chain write in do! reconcile_pool clock extra in do! invalidate_mining_templates in ret a) n = (r, n') ->
  chain_effect n n' (write (node_chain n)).2.
Proof.
  unfold sbind at 1, on_pool at 1. destruct (count (node_pool n)) as [[[]|e] m1]; [|intros [= _ <-]; by left].
  unfold sbind at 1, on_chain. cbn [set_pool node_chain]. destruct (write (node_chain n)) as [[[]|e] s']; [|intros [= _ <-]; by right].
  unfold reconcile_pool, sbind, gets, on_pool. cbn [set_chain set_pool node_chain node_pool].
  destruct (reconcile _ _ _ _ _ _ m1) as [[[]|e] m2]; intros [= _ <-]; by right.
Qed.

(** What follows a change does not depend on how it is bracketed. *)
Lemma change_then {A} count write reconciling (a : A) n :
  (do! on_pool count in do! on_chain write in do! reconciling in do! invalidate_mining_templates in ret a) n =
  (do! (do! on_pool count in do! on_chain write in do! reconciling in invalidate_mining_templates) in ret a) n.
Proof.
  unfold sbind. destruct (on_pool count n) as [[u1|e] n1]; [|done]. destruct (on_chain write n1) as [[u2|e] n2]; [|done].
  destruct (reconciling n2) as [[u3|e] n3]; [|done]. by destruct (invalidate_mining_templates n3) as [[u4|e] n4].
Qed.

Lemma node_apply_returns block n fees n' :
  node_apply_block clock block n = (Ok fees, n') ->
  exists s m, apply_block block (node_chain n) = (Ok fees, s) /\ reconciled s None (repository (node_pool n)) m /\ n' = mkNode s m [] None.
Proof.
  unfold node_apply_block, of_chain, sbind at 1, asks. destruct (checked_block (node_chain n) block) as [[work fees']|e] eqn:Ec; [|discriminate].
  cbn [fst snd]. rewrite change_then. unfold sbind at 1. destruct (sbind _ _ n) as [[[]|e] n1] eqn:E; [|discriminate]. intros [= <- <-].
  apply change_run in E as (s & m & Hw & Hm & ->); [|apply counting_mined]. exists s, m. split; [|done].
  unfold apply_block, sbind at 1, asks. rewrite Ec. unfold sbind. cbn [fst snd]. by rewrite Hw.
Qed.

Lemma node_apply_chain block n r n' :
  node_apply_block clock block n = (r, n') -> chain_effect n n' (apply_block block (node_chain n)).2.
Proof.
  unfold node_apply_block, of_chain, sbind at 1, asks.
  destruct (checked_block (node_chain n) block) as [[work fees]|e] eqn:Ec; [|intros [= _ <-]; by left].
  cbn [fst snd]. intros E%change_chain. unfold apply_block, sbind, asks. rewrite Ec. cbn [fst snd]. by destruct (write_block block work (node_chain n)) as [[[]|e] s'].
Qed.

Lemma node_branch_returns hash n result n' :
  node_activate_branch clock hash n = (Ok result, n') ->
  exists s m ts, activate_branch hash (chain_tip (node_chain n)) (node_chain n) = (Ok result, s) /\
    _disconnected_branch_transactions (node_chain n) (chain_tip (node_chain n)) hash = Ok ts /\
    reconciled s (Some ts) (repository (node_pool n)) m /\ n' = mkNode s m [] None.
Proof.
  unfold node_activate_branch, of_chain, sbind at 1, asks.
  destruct (branch_plan (node_chain n) hash (chain_tip (node_chain n))) as [[[[result' path] r] ts]|e] eqn:Ep; [|discriminate].
  rewrite change_then. unfold sbind at 1. destruct (sbind _ _ n) as [[[]|e] n1] eqn:E; [|discriminate]. intros [= <- <-].
  apply change_run in E as (s & m & Hw & Hm & ->); [|apply counting_orphan]. exists s, m, ts. split_and!; [| |done|done].
  - unfold activate_branch, sbind at 1, asks. rewrite Ep. unfold sbind. by rewrite Hw.
  - by eapply plan_disconnected.
Qed.

Lemma node_branch_chain hash n r n' :
  node_activate_branch clock hash n = (r, n') -> chain_effect n n' (activate_branch hash (chain_tip (node_chain n)) (node_chain n)).2.
Proof.
  unfold node_activate_branch, of_chain, sbind at 1, asks.
  destruct (branch_plan (node_chain n) hash (chain_tip (node_chain n))) as [[[[result path] r'] ts]|e] eqn:Ep; [|intros [= _ <-]; by left].
  intros E%change_chain. unfold activate_branch, sbind, asks. rewrite Ep. by destruct (commit_replay path r' (node_chain n)) as [[[]|e] s'].
Qed.

(** The pool of [n'] follows the chain of [n'], which replaced that of [n]. *)
Record follows (n n' : Node) (returned : option (list Transaction)) : Prop := {
  follows_reconciled : reconciled (node_chain n') returned (repository (node_pool n)) (node_pool n');
  follows_canonical : Forall (fun t => canonical_tx t = t) (default [] returned);
  follows_templates : _mining_templates n' = [] /\ _template_cache_tip_hash n' = None;
}.

Lemma node_activate_returns hash n result n' :
  node_activate_chain clock hash n = (Ok result, n') ->
  activate_chain hash (node_chain n) = (Ok result, node_chain n') /\
  (tip_hash <$> chain_tip (node_chain n) = Some hash /\ n' = n \/
   exists returned, follows n n' returned /\
     (returned = None \/ exists ts, returned = Some ts /\ _disconnected_branch_transactions (node_chain n) (chain_tip (node_chain n)) hash = Ok ts)).
Proof.
  intros E. unfold node_activate_chain, sbind at 1, gets in E. cbv zeta in E. unfold sbind at 1, lift at 1 in E.
  destruct (header_get_record (headers (node_chain n)) hash) as [candidate|] eqn:Ec; [|discriminate].
  unfold activate_chain, sbind, gets, asks. cbv zeta. rewrite Ec.
  case_bool_decide as Hs; [injection E as <- <-; split; [done|by left]|].
  assert (Hbranch : node_activate_branch clock hash n = (Ok result, n') ->
    activate_branch hash (chain_tip (node_chain n)) (node_chain n) = (Ok result, node_chain n') /\
    (tip_hash <$> chain_tip (node_chain n) = Some hash /\ n' = n \/ exists returned, follows n n' returned /\
     (returned = None \/ exists ts, returned = Some ts /\ _disconnected_branch_transactions (node_chain n) (chain_tip (node_chain n)) hash = Ok ts))).
  { intros (s & m & ts & Ha & Hd & Hm & ->)%node_branch_returns. split; [done|]. right. exists (Some ts). split; [|right; by exists ts].
    split; [done|by eapply disconnected_canonical|done]. }
  destruct (chain_tip (node_chain n)) as [tip|] eqn:Et; [|exact (Hbranch E)]. destruct candidate as [record|]; [|exact (Hbranch E)].
  case_bool_decide; [|exact (Hbranch E)]. clear Hbranch. unfold sbind at 1, lift at 1 in E.
  destruct (block_get (blocks (node_chain n)) hash) as [[block|]|]; [|discriminate..]. unfold sbind in E.
  destruct (node_apply_block clock block n) as [[fees|e] n1] eqn:E1; [|discriminate]. injection E as <- <-.
  apply node_apply_returns in E1 as (s & m & -> & Hm & ->). split; [done|]. right. exists None. split; [|by left]. by split.
Qed.

(** The cases of [activate_chain] are those of [node_activate_chain]. *)
Lemma node_activate_effect hash n r n' :
  node_activate_chain clock hash n = (r, n') -> chain_effect n n' (activate_chain hash (node_chain n)).2.
Proof.
  intros E. unfold node_activate_chain, sbind at 1, gets in E. cbv zeta in E. unfold sbind at 1, lift at 1 in E.
  destruct (header_get_record (headers (node_chain n)) hash) as [candidate|] eqn:Ec; [|injection E as _ <-; by left].
  unfold activate_chain, sbind, gets, asks. cbv zeta. rewrite Ec.
  case_bool_decide as Hs; [injection E as _ <-; by left|]. pose proof (node_branch_chain hash n r n') as Hbranch.
  destruct (chain_tip (node_chain n)) as [tip|]; [|exact (Hbranch E)]. destruct candidate as [record|]; [|exact (Hbranch E)].
  case_bool_decide; [|exact (Hbranch E)]. clear Hbranch. unfold sbind at 1, lift at 1 in E.
  destruct (block_get (blocks (node_chain n)) hash) as [[block|]|] eqn:Eg; [|injection E as _ <-; by left..].
  pose proof (node_apply_chain block n) as Ha. unfold sbind in E.
  destruct (node_apply_block clock block n) as [[fees|e] n1]; injection E as _ <-; specialize (Ha _ _ eq_refl);
    by destruct (apply_block block (node_chain n)) as [[?|?] s'].
Qed.

(** C5: An activation makes of the chain what [activate_chain] makes of it, drops every
    template, and leaves a pool that fits the new chain: what waits in it was there
    or comes from a disconnected block, is not confirmed on the new chain, and
    spends outputs that the new chain or a transaction that was waiting provides. *)
Theorem activation_pool_follows (hash : str) (n n' : Node) (result : ChainActivationResult) :
  pool_ok (repository (node_pool n)) -> tip_hash <$> chain_tip (node_chain n) ≠ Some hash ->
  node_activate_chain clock hash n = (Ok result, n') ->
  activate_chain hash (node_chain n) = (Ok result, node_chain n') /\ _mining_templates n' = [] /\
  exists entries returned,
    mempool_list_all (repository (node_pool n)) = Ok entries /\
    (returned = [] \/ _disconnected_branch_transactions (node_chain n) (chain_tip (node_chain n)) hash = Ok returned) /\
    forall id t, holds (repository (node_pool n')) id t ->
      t ∈ (pool_transaction <$> entries) ++ returned /\
      _find_transaction_in_active_chain (node_chain n') id = Ok None /\
      Forall (backed (Service.chainstate (node_chain n')) ((pool_transaction <$> entries) ++ returned)) (spends t).
Proof.
  intros Hp Hne (Ha & [[? _]|(returned & [Hrec Hcan [Ht _]] & Hd)])%node_activate_returns; [done|].
  split; [done|]. split; [done|]. destruct Hrec as (m & Hm & Hrec). rewrite <- Hm in Hp.
  destruct (pool_backed _ _ _ _ _ m (node_pool n') returned (factory_keeps_view _) Hp Hcan Hrec) as (entries & Hl & Hall).
  rewrite Hm in Hl. exists entries, (default [] returned). split; [done|]. split; [|exact Hall].
  destruct Hd as [->|(ts & -> & Hts)]; [by left|by right].
Qed.

(** ** Runs of a node *)

Variable params : ConsensusParams.
Variable net : str.

Record node_ok (n : Node) : Prop := {
  node_reached : rtc any_step (new_service params net) (node_chain n);
  node_pool_ok : manager_ok (node_pool n);
}.

Abbreviation safe op := (keeps node_ok (fun _ => True) op).

Lemma safe_on_pool {A} (op : pool A) : keeps manager_ok (fun _ => True) op -> safe (on_pool op).
Proof.
  intros Hop n [Hr Hp]. specialize (Hop (node_pool n) Hp). unfold on_pool. destruct (op (node_pool n)) as [[a|e] m]; [by split|].
  destruct Hop. by split_and!.
Qed.

Lemma safe_pool_time : safe (pool_time clock).
Proof. apply safe_on_pool, safe_time. Qed.

Lemma safe_of_chain {A} (f : NodeService -> res A) : safe (of_chain f).
Proof. by apply keeps_asks. Qed.

Lemma safe_templates f : (forall n, node_chain (f n) = node_chain n /\ node_pool (f n) = node_pool n) -> safe (modify f).
Proof. intros Hf. apply keeps_modify. intros n [Hr Hp]. destruct (Hf n) as [Ec Ep]. split; [by rewrite Ec|by rewrite Ep]. Qed.

Lemma safe_invalidate : safe invalidate_mining_templates.
Proof. by apply safe_templates. Qed.
Lemma safe_discard id : safe (discard_mining_template id).
Proof. by apply safe_templates. Qed.
Lemma safe_remember id record : safe (remember_template id record).
Proof. by apply safe_templates. Qed.
#[local] Hint Resolve safe_pool_time safe_of_chain safe_invalidate safe_discard safe_remember : keeps.

Lemma safe_receive t : canonical_tx t = t -> safe (receive_transaction clock t).
Proof.
  intros Hc. unfold receive_transaction. keeps.
  - apply safe_on_pool, safe_prevalidation. exact clock.
  - apply safe_on_pool, safe_count.
  - by apply safe_on_pool, safe_accept.
Qed.

Lemma safe_expire : safe (_expire_stale_templates clock).
Proof. unfold _expire_stale_templates. keeps. apply keeps_fold. intros [] id _. apply safe_discard. Qed.

Lemma safe_template id payout miner mode : safe (get_block_template clock id payout miner mode).
Proof.
  unfold get_block_template, build_candidate_block, _filter_template_mempool_entries. keeps; [apply safe_expire| |].
  - apply safe_on_pool. by apply keeps_asks.
  - apply safe_on_pool, safe_remove_many.
Qed.

(** *** Changes of the chain *)

(** The writes of a block up to the rewards *)
Lemma torn_by_rewards s block work own hdb bdb utxos registry e :
  header_work (header block) = Ok own ->
  header_put (headers s) (header block) (Some (next_height s)) (Some (work + own)) true = Ok hdb -> block_put (blocks s) block = Ok bdb ->
  utxo_apply_block (Service.chainstate s) block (next_height s) = Ok utxos ->
  _apply_node_registry_block block (next_height s) (node_registry s) = Ok registry ->
  rewards_recorded block (next_height s) (rewards s) = Raise e ->
  exists dbs, write_block block work s =
    (Raise e, with_rewards (with_registry (with_chainstate (with_blocks (with_headers s hdb) bdb) utxos) registry) dbs).
Proof.
  intros Hw Hput Hb Hu Hr Hrew. unfold write_block, sbind at 1, gets. unfold sbind at 1, lift at 1. rewrite Hw.
  unfold sbind at 1. rewrite (performs_Ok _ _ _ _ _ _ (headers_write _) Hput).
  unfold sbind at 1. rewrite (performs_Ok _ _ _ _ (with_headers s hdb) _ (blocks_write _) Hb).
  unfold sbind at 1. rewrite (performs_Ok _ _ _ _ (with_blocks (with_headers s hdb) bdb) _ (write_outputs_performs _ _) Hu).
  unfold sbind at 1. rewrite (performs_Ok _ _ _ _ (with_chainstate (with_blocks (with_headers s hdb) bdb) utxos) _ (write_registry_performs _ _) Hr).
  set (s4 := with_registry _ _). destruct (performs_Raise _ _ _ _ s4 e (write_rewards_performs block (next_height s)) Hrew) as [dbs Hdbs].
  exists dbs. unfold sbind at 1. by rewrite Hdbs.
Qed.

Abbreviation pool_safe op := (keeps (fun n => manager_ok (node_pool n)) (fun _ => True) op).

Lemma pool_safe_on_pool {A} (op : pool A) : keeps manager_ok (fun _ => True) op -> pool_safe (on_pool op).
Proof.
  intros Hop n Hp. specialize (Hop (node_pool n) Hp). unfold on_pool. by destruct (op (node_pool n)) as [[a|e] m].
Qed.
Lemma pool_safe_on_chain {A} (op : stm NodeService A) : pool_safe (on_chain op).
Proof. intros n Hp. unfold on_chain. by destruct (op (node_chain n)) as [[a|e] s]. Qed.
Lemma pool_safe_reconcile extra :
  (forall ts, extra = Some ts -> Forall (fun t => canonical_tx t = t) ts) -> pool_safe (reconcile_pool clock extra).
Proof. intros Hx. unfold reconcile_pool. apply keeps_bind; [apply keeps_gets|]. intros s. by apply pool_safe_on_pool, safe_reconcile. Qed.
Lemma pool_safe_invalidate : pool_safe invalidate_mining_templates.
Proof. by apply keeps_modify. Qed.
Lemma counting_safe (op : pool unit) : counting op -> keeps manager_ok (fun _ => True) op.
Proof.
  intros Hc m Hm. specialize (Hc m). unfold manager_ok in *. destruct (op m) as [[a|e] m']; simpl in Hc; rewrite Hc; done.
Qed.

Lemma pool_safe_apply block : pool_safe (node_apply_block clock block).
Proof.
  unfold node_apply_block, of_chain. keeps.
  - apply pool_safe_on_pool, counting_safe, counting_mined.
  - apply pool_safe_on_chain.
  - by apply pool_safe_reconcile.
  - apply pool_safe_invalidate.
Qed.

Lemma pool_safe_branch hash : pool_safe (node_activate_branch clock hash).
Proof.
  unfold node_activate_branch, of_chain. apply triple_read; [done|]. intros [[[result path] r] ts].
  intros n [Hp Hplan]. apply plan_disconnected, disconnected_canonical in Hplan. revert n Hp. clear -Hplan.
  change (pool_safe (do! on_pool (record_pq_orphan ts) in do! on_chain (commit_replay path r) in
    do! reconcile_pool clock (Some ts) in do! invalidate_mining_templates in ret result)). keeps.
  - apply pool_safe_on_pool, counting_safe, counting_orphan.
  - apply pool_safe_on_chain.
  - apply pool_safe_reconcile. by intros ? [= <-].
  - apply pool_safe_invalidate.
Qed.

Lemma pool_safe_activate hash : pool_safe (node_activate_chain clock hash).
Proof.
  unfold node_activate_chain. pose proof (pool_safe_branch hash). pose proof pool_safe_apply. keeps; auto.
Qed.

(** A state after a change that returned, was refused or was interrupted *)
Definition outcome (s s' : NodeService) : Prop := s' = s \/ any_step s s'.

Lemma outcome_reached s s' : outcome s s' -> rtc any_step (new_service params net) s -> rtc any_step (new_service params net) s'.
Proof. intros [->|Hs] Hr; [done|by eapply rtc_r]. Qed.

Lemma apply_outcome block s : admissible (headers s) (header block) -> canonical_block block = block -> outcome s (apply_block block s).2.
Proof.
  intros Ha Hc. pose proof (apply_block_steps block s Ha Hc) as Hs. unfold outcome, any_step.
  destruct (apply_block block s) as [[fees|e] s']; simpl; tauto.
Qed.

Lemma activate_outcome hash s : hash ≠ [] ->
  (forall block, block_get (blocks s) hash = Ok (Some block) -> admissible (headers s) (header block)) -> outcome s (activate_chain hash s).2.
Proof.
  intros Hne Ha. pose proof (activate_chain_steps hash s Hne Ha) as Hs. unfold outcome, any_step.
  destruct (activate_chain hash s) as [[fees|e] s']; simpl; tauto.
Qed.

Lemma effect_outcome n n' s : chain_effect n n' s -> outcome (node_chain n) s -> outcome (node_chain n) (node_chain n').
Proof. intros [->| ->] Ho; [by left|done]. Qed.

(** What a change of the chain makes of the chain *)
Lemma node_apply_outcome block n : admissible (headers (node_chain n)) (header block) -> canonical_block block = block ->
  outcome (node_chain n) (node_chain (node_apply_block clock block n).2).
Proof.
  intros Ha Hc. eapply effect_outcome; [eapply node_apply_chain, surjective_pairing|by apply apply_outcome].
Qed.

Lemma node_activate_outcome hash n : hash ≠ [] ->
  (forall block, block_get (blocks (node_chain n)) hash = Ok (Some block) -> admissible (headers (node_chain n)) (header block)) ->
  outcome (node_chain n) (node_chain (node_activate_chain clock hash n).2).
Proof.
  intros Hne Ha. eapply effect_outcome; [eapply node_activate_effect, surjective_pairing|by apply activate_outcome].
Qed.

Lemma kept_after {A} (op : node A) n : pool_safe op -> manager_ok (node_pool n) -> manager_ok (node_pool (op n).2).
Proof. intros Hs Hn. specialize (Hs n Hn). destruct (op n) as [[a|e] n']; [done|by destruct Hs]. Qed.

Lemma changed_ok {A} (op : node A) n : pool_safe op -> outcome (node_chain n) (node_chain (op n).2) -> node_ok n -> node_ok (op n).2.
Proof. intros Hs Ho [Hr Hp]. split; [by eapply outcome_reached|by apply kept_after]. Qed.

(** The block a submission carries *)
Definition carries (text : str) (block : Block) : Prop :=
  exists payload offset, fromhex text = Ok payload /\ deserialize_block payload 0 = Ok (block, offset).

Lemma check_carries record tip miner text block : check_submission record tip miner text = Ok (inl block) -> carries text block.
Proof.
  unfold check_submission. do 2 (destruct (negb _); [discriminate|]).
  destruct (fromhex text) as [payload|e] eqn:Ef; cbn [rbind]; [|destruct (isinstance _ _); discriminate].
  destruct (deserialize_block payload 0) as [[b offset]|e] eqn:Ed; cbn [rbind]; [|destruct (isinstance _ _); discriminate].
  do 3 (destruct (negb _); [discriminate|]). destruct (transactions b) as [|c rest]; [discriminate|]. destruct (negb _); [discriminate|].
  intros E. apply rbind_Ok in E as (x & _ & E). apply rbind_Ok in E as (y & _ & E). case_bool_decide; [|discriminate]. injection E as <-.
  by exists payload, offset.
Qed.

(** ** Expiry of templates *)

Lemma pops_run ids n :
  sfold (fun _ id => discard_mining_template id) tt ids n = (Ok tt, set_templates (foldl dict_pop (_mining_templates n) ids) n).
Proof.
  revert n. induction ids as [|id ids IH]; intros n; simpl; [by destruct n|]. unfold sbind at 1, discard_mining_template at 1, modify. by rewrite IH.
Qed.

(** What expiry does: the clock is read once, and a template survives it exactly when
    its time has not come. *)
Lemma expire_run n : exists n',
  _expire_stale_templates clock n = (Ok tt, n') /\ node_chain n' = node_chain n /\ repository (node_pool n') = repository (node_pool n) /\
  forall id record, dict_get (_mining_templates n') id = Some record ->
    dict_get (_mining_templates n) id = Some record /\ clock (clock_reads (node_pool n)) < expires_at record.
Proof.
  unfold _expire_stale_templates, sbind at 1, pool_time, on_pool. rewrite time_run. unfold sbind, gets. rewrite pops_run.
  eexists. split; [done|]. split; [done|]. split; [done|]. intros id record. cbn [set_templates set_pool _mining_templates].
  rewrite dict_get_pops. case_decide as Hd; [discriminate|]. intros Hg. split; [done|].
  destruct (decide (clock (clock_reads (node_pool n)) < expires_at record)) as [?|Hge]; [done|]. exfalso. apply Hd.
  apply list_elem_of_fmap. exists (id, record). split; [done|]. apply list_elem_of_filter. split; [simpl; lia|]. by apply dict_get_elem.
Qed.

(** ** Submissions *)

(** A submission answers a template: it comes from the miner the template was made
    for, on the tip it was made for, and carries a block with its parent, its
    target, its coinbase outputs and its transactions. *)
Record answers (record : MiningTemplateRecord) (tip miner text : str) (block : Block) : Prop := {
  answers_miner : miner_id record = miner;
  answers_tip : tip = record_previous_block_hash record;
  answers_text : exists payload, fromhex text = Ok payload /\ deserialize_block payload 0 = Ok (block, len payload);
  answers_parent : previous_block_hash (header block) = record_previous_block_hash record;
  answers_bits : bits (header block) = template_bits record;
  answers_transactions : exists coinbase rest ids, transactions block = coinbase :: rest /\ outputs coinbase = coinbase_outputs record /\
    mapM txid (non_coinbase_transactions record) = Ok ids /\ mapM txid rest = Ok ids;
}.

Lemma check_answers record tip miner text block :
  check_submission record tip miner text = Ok (inl block) <-> answers record tip miner text block.
Proof.
  unfold check_submission. split.
  - case_bool_decide as Hm; [|discriminate]. case_bool_decide as Ht; [|discriminate]. cbn [negb].
    destruct (fromhex text) as [payload|e] eqn:Ef; cbn [rbind]; [|destruct (isinstance _ _); discriminate].
    destruct (deserialize_block payload 0) as [[b offset]|e] eqn:Ed; cbn [rbind]; [|destruct (isinstance _ _); discriminate].
    destruct (offset =? len payload) eqn:Eo; [|discriminate]. case_bool_decide as Hp; [|discriminate]. destruct (bits (header b) =? _) eqn:Eb; [|discriminate]. cbn [negb].
    destruct (transactions b) as [|c rest] eqn:Et; [discriminate|]. case_bool_decide as Hc; [|discriminate]. cbn [negb].
    intros E. apply rbind_Ok in E as (x & Hx & E). apply rbind_Ok in E as (y & Hy & E). case_bool_decide as Hxy; [|discriminate].
    injection E as <-. subst y. apply Z.eqb_eq in Eo as ->. apply Z.eqb_eq in Eb. split; try done; [by exists payload|by exists c, rest, x].
  - intros [Hm Ht (payload & -> & Hd) Hp Hb (c & rest & ids & Hts & Hc & Hx & Hy)]. rewrite !bool_decide_true by done. cbn [negb rbind]. rewrite Hd. cbn [rbind].
    rewrite Z.eqb_refl, Hb, Z.eqb_refl, Hts, Hx, Hy, (bool_decide_true _ Hp), (bool_decide_true _ Hc). cbn [negb rbind]. by rewrite bool_decide_true.
Qed.

Lemma prepare_run id text miner n :
  match prepare_mined_block_submission clock id text miner n with
  | (r, n') => node_chain n' = node_chain n /\ repository (node_pool n') = repository (node_pool n) /\
      forall block, r = Ok (inl block) -> exists record, dict_get (_mining_templates n) id = Some record /\
        clock (clock_reads (node_pool n)) < expires_at record /\ answers record (zero_or_tip (node_chain n)) miner text block
  end.
Proof.
  unfold prepare_mined_block_submission, sbind at 1. destruct (expire_run n) as (n1 & -> & Hc & Hp & Hlive). unfold sbind, gets.
  destruct (dict_get (_mining_templates n1) id) as [record|] eqn:Eg; [|done]. unfold asks. rewrite Hc. split; [done|]. split; [done|].
  intros block E. exists record. destruct (Hlive _ _ Eg). split; [done|]. split; [done|]. by apply check_answers.
Qed.

(** A submission that is accepted *)
Lemma submit_returns id text miner n hash became n' :
  submit_mined_block clock id text miner n = (Ok (Submitted hash became), n') ->
  exists block record fees m,
    dict_get (_mining_templates n) id = Some record /\ clock (clock_reads (node_pool n)) < expires_at record /\
    answers record (zero_or_tip (node_chain n)) miner text block /\
    apply_block block (node_chain n) = (Ok fees, node_chain n') /\ block_hash (header block) = Ok hash /\
    became = match chain_tip (node_chain n') with Some tip => bool_decide (tip_hash tip = hash) | None => false end /\
    n' = mkNode (node_chain n') m [] None.
Proof.
  unfold submit_mined_block, sbind at 1. pose proof (prepare_run id text miner n) as Hr.
  destruct (prepare_mined_block_submission clock id text miner n) as [r n1]. destruct Hr as (Hc & Hp & Hr).
  destruct r as [[block|why]|e]; [|discriminate..]. destruct (Hr block eq_refl) as (record & Hg & Hl & Ha).
  unfold sbind at 1, attempt, sbind at 1. destruct (node_apply_block clock block n1) as [[fees|e] n2] eqn:E; cbn [ret].
  - apply node_apply_returns in E as (s & m & Hs & Hm & ->). rewrite Hc in Hs. unfold sbind, gets, lift. cbn [node_chain set_templates].
    destruct (block_hash (header block)) as [hash'|e] eqn:Hh; [|discriminate]. intros [= <- <- <-].
    exists block, record, fees, m. by split_and!.
  - cbn [existsb]. destruct (isinstance (exn_cls e) ValidationError); simpl; discriminate.
Qed.

(** What a submission makes of the chain *)
Lemma submit_outcome id text miner n r n' :
  (forall block, carries text block -> admissible (headers (node_chain n)) (header block)) ->
  submit_mined_block clock id text miner n = (r, n') -> outcome (node_chain n) (node_chain n').
Proof.
  intros Hadm. unfold submit_mined_block, sbind at 1. pose proof (prepare_run id text miner n) as Hr.
  destruct (prepare_mined_block_submission clock id text miner n) as [r1 n1]. destruct Hr as (Hc & Hp & Hr).
  destruct r1 as [[block|why]|e]; [|intros [= _ <-]; by left..]. destruct (Hr block eq_refl) as (record & _ & _ & [_ _ (payload & Ef & Ed) _ _ _]).
  assert (Ho : outcome (node_chain n) (node_chain (node_apply_block clock block n1).2)).
  { rewrite <- Hc. apply node_apply_outcome; [rewrite Hc; apply Hadm; by exists payload, (len payload)|by eapply block_canonical]. }
  unfold sbind at 1, attempt, sbind at 1. destruct (node_apply_block clock block n1) as [[fees|e] n2]; simpl in Ho; cbn [ret].
  - unfold sbind, gets, lift. cbn [node_chain set_templates]. by destruct (block_hash (header block)) as [hash|e]; intros [= _ <-].
  - cbn [existsb]. destruct (isinstance (exn_cls e) ValidationError); intros [= _ <-]; done.
Qed.

Lemma pool_safe_expire : pool_safe (_expire_stale_templates clock).
Proof.
  unfold _expire_stale_templates, pool_time. keeps; [apply pool_safe_on_pool, safe_time|]. apply keeps_fold. intros [] id _. by apply keeps_modify.
Qed.

Lemma pool_safe_submit id text miner : pool_safe (submit_mined_block clock id text miner).
Proof.
  unfold submit_mined_block, prepare_mined_block_submission. pose proof pool_safe_expire. pose proof pool_safe_apply. keeps; auto.
  intros n Hn. match goal with |- context [attempt ?m ?c ?h n] => assert (Hs : pool_safe (attempt m c h)) end.
  { keeps; auto. by apply keeps_modify. }
  specialize (Hs n Hn). destruct (attempt _ _ _ n) as [[a|e] n']; [done|by destruct Hs].
Qed.

(** ** Theorems *)

(** What a node does: it receives transactions, hands out templates, takes mined
    blocks back, applies blocks, activates branches, and stores the headers and blocks
    of its peers.  Operations that raise are steps as well. *)
Inductive node_step : Node -> Node -> Prop :=
| on_receive n t : canonical_tx t = t -> node_step n (receive_transaction clock t n).2
| on_template n id payout miner mode : node_step n (get_block_template clock id payout miner mode n).2
| on_submit n id text miner :
    (forall block, carries text block -> admissible (headers (node_chain n)) (header block)) ->
    node_step n (submit_mined_block clock id text miner n).2
| on_apply n block : admissible (headers (node_chain n)) (header block) -> canonical_block block = block ->
    node_step n (node_apply_block clock block n).2
| on_activate n hash : hash ≠ [] ->
    (forall block, block_get (blocks (node_chain n)) hash = Ok (Some block) -> admissible (headers (node_chain n)) (header block)) ->
    node_step n (node_activate_chain clock hash n).2
| on_header n hdr hash h work hdb :
    block_hash hdr = Ok hash -> hash ≠ zero_hash -> header_get_record (headers (node_chain n)) hash = Ok None ->
    header_put (headers (node_chain n)) hdr h work false = Ok hdb -> node_step n (set_chain (with_headers (node_chain n) hdb) n)
| on_block n block hash bdb :
    block_hash (header block) = Ok hash -> block_get (blocks (node_chain n)) hash = Ok None ->
    block_put (blocks (node_chain n)) block = Ok bdb -> node_step n (set_chain (with_blocks (node_chain n) bdb) n).

Lemma keeps_after {A} (op : node A) n : safe op -> node_ok n -> node_ok (op n).2.
Proof. intros Hs Hn. specialize (Hs n Hn). destruct (op n) as [[a|e] n']; [done|by destruct Hs]. Qed.

Lemma node_step_ok n n' : node_step n n' -> node_ok n -> node_ok n'.
Proof.
  intros Hs Hn. destruct Hs as [n t Hc|n id payout miner mode|n id text miner Ha|n block Ha Hc|n hash Hne Ha|n hdr hash h work hdb Hh Hz Hg Hput|n block hash bdb Hh Hg Hput].
  - by apply keeps_after; [apply safe_receive|].
  - by apply keeps_after; [apply safe_template|].
  - apply changed_ok; [apply pool_safe_submit| |done]. by eapply submit_outcome, surjective_pairing.
  - apply changed_ok; [apply pool_safe_apply| |done]. by apply node_apply_outcome.
  - apply changed_ok; [apply pool_safe_activate| |done]. by apply node_activate_outcome.
  - destruct Hn as [Hr Hp]. split; [|done]. eapply rtc_r; [exact Hr|]. left. by eapply step_header.
  - destruct Hn as [Hr Hp]. split; [|done]. eapply rtc_r; [exact Hr|]. left. by eapply step_block.
Qed.

(** C4: The parts of a node stay consistent together: whatever sequence of operations a
    node performs, those that raise included, no two transactions of its pool spend
    the same output, and its chain is one that completed changes reach from the
    empty chain, unless an exception once interrupted the writes of a block or of a
    branch: then the chain was such a chain until the first interruption, and the
    run goes on from the partly written state. *)
Theorem node_runs_consistent (n : Node) :
  rtc node_step (new_node params net) n ->
  no_conflicts (repository (node_pool n)) /\
  (reachable params net (node_chain n) \/
   exists s1 s2, reachable params net s1 /\ torn_step s1 s2 /\ rtc any_step s2 (node_chain n)).
Proof.
  intros Hr. assert (Hn : node_ok n).
  { eapply (rtc_preserved node_ok); [exact node_step_ok|exact Hr|]. split; [constructor|apply (pool_ok_clear (mkMempoolDb ∅))]. }
  split; [apply Hn|apply runs_complete_or_torn, Hn].
Qed.

(** C17: A mined block is accepted only in answer to a template that the node made for
    this miner on its present tip and that has not expired, with the target, the
    coinbase outputs and the transactions of the template; it then is the new tip
    of the chain [apply_block] makes, and every template is gone. *)
Theorem submission_answers_template (n n' : Node) (id text miner hash : str) (became : bool) :
  params_ok params -> reachable params net (node_chain n) ->
  submit_mined_block clock id text miner n = (Ok (Submitted hash became), n') ->
  became = true /\ _mining_templates n' = [] /\
  exists block record fees,
    dict_get (_mining_templates n) id = Some record /\ clock (clock_reads (node_pool n)) < expires_at record /\
    answers record (zero_or_tip (node_chain n)) miner text block /\ block_hash (header block) = Ok hash /\
    apply_block block (node_chain n) = (Ok fees, node_chain n').
Proof.
  intros Hparams Hr (block & record & fees & m & Hg & Hl & Ha & Hs & Hh & -> & En)%submit_returns.
  pose proof (proj1 (apply_block_returns _ _ _ _) Hs) as Hs'.
  destruct (reachable_inv params Hparams net _ Hr) as [_ _ _ (path & chain & l & Hpath & _)].
  rewrite (apply_block_tip _ block fees _ hash path Hpath Hh Hs'). cbn [tip_hash]. rewrite bool_decide_true by done.
  split; [done|]. split; [by rewrite En|]. by exists block, record, fees.
Qed.

(** C16: An exception between two writes leaves a block half applied: when the block
    passed validation and its rewards are refused by the database, [apply_block]
    raises, but the block, its spent and created outputs and its registrations are
    there, while the tip is still the old one and neither the pool nor the templates
    have followed. *)
Theorem interrupted_block_stays (n : Node) (block : Block) (work fees own : Z) (hdb : HeaderDb) (bdb : BlockDb)
    (utxos : SQLiteChainStateRepository) (registry : SQLiteNodeRegistryRepository) (e : exn) :
  checked_block (node_chain n) block = Ok (work, fees) ->
  (record_pq_mined (tail (transactions block)) (node_pool n)).1 = Ok tt ->
  header_work (header block) = Ok own ->
  header_put (headers (node_chain n)) (header block) (Some (next_height (node_chain n))) (Some (work + own)) true = Ok hdb ->
  block_put (blocks (node_chain n)) block = Ok bdb ->
  utxo_apply_block (Service.chainstate (node_chain n)) block (next_height (node_chain n)) = Ok utxos ->
  _apply_node_registry_block block (next_height (node_chain n)) (node_registry (node_chain n)) = Ok registry ->
  rewards_recorded block (next_height (node_chain n)) (rewards (node_chain n)) = Raise e ->
  exists n', node_apply_block clock block n = (Raise e, n') /\
    chain_tip_hash (headers (node_chain n')) = chain_tip_hash (headers (node_chain n)) /\
    blocks (node_chain n') = bdb /\ Service.chainstate (node_chain n') = utxos /\ node_registry (node_chain n') = registry /\
    repository (node_pool n') = repository (node_pool n) /\ _mining_templates n' = _mining_templates n.
Proof.
  intros Hc Hpq Hw Hput Hb Hu Hr Hrew. unfold node_apply_block, of_chain, sbind at 1, asks. rewrite Hc. cbn [fst snd].
  pose proof (counting_mined (tail (transactions block)) (node_pool n)) as Hk. unfold sbind at 1, on_pool at 1.
  destruct (record_pq_mined (tail (transactions block)) (node_pool n)) as [r m1]. simpl in Hpq, Hk. subst r.
  destruct (torn_by_rewards (node_chain n) block work own hdb bdb utxos registry e) as (dbs & Hwrite); [done..|].
  unfold sbind at 1, on_chain. cbn [set_pool node_chain]. rewrite Hwrite. eexists. split; [done|].
  cbn [set_chain set_pool node_chain node_pool _mining_templates with_rewards headers blocks Service.chainstate node_registry].
  split; [|done]. unfold header_put in Hput. apply rbind_Ok in Hput as (x & _ & Hput). apply rbind_Ok in Hput as (raw & _ & Hput).
  apply rbind_Ok in Hput as (hc & _ & Hput). by injection Hput as <-.
Qed.
End node.
