(* ===== verification/NodeSettlements.v ===== *)
(** * The settlement a node puts into a closing block ([node/service.py])

    The candidate block that closes an epoch carries a settlement that waits in the
    pool, if there is one, and one the node derives itself otherwise.  The rules for
    transactions accept a settlement that distributes a part of the pool among the
    eligible nodes; the rules for blocks do not. *)

From S2P Require Import Prelude PyState PyOrder PyText Hashes Params Models Serialization Registry Economics Pow Merkle Crypto Addresses Json Settlement Nodes Utxo UtxoStore Headers RewardStore Validation ValidationFacts PqPolicy Mempool Mining MiningFacts TemplateFacts Service Node.

Section settlements.
Context `{PyRepr, CryptoBackend}.

(** A settlement that pays somebody and leaves a part of the pool undistributed *)
Definition partial (t : Transaction) : Prop :=
  exists settlement, parse_reward_settlement_metadata (metadata t) = Ok settlement /\ reward_entries settlement ≠ [] /\
    undistributed_node_reward_chipbits settlement ≠ 0.

Lemma manual_candidates_kind h entries manual : manual_candidates h entries = Ok manual ->
  Forall (fun t => has_kind REWARD_SETTLE_EPOCH_KIND t = true) manual.
Proof.
  unfold manual_candidates. intros E. revert E. apply (foldM_inv (Forall (fun t => has_kind REWARD_SETTLE_EPOCH_KIND t = true))); [|constructor].
  intros acc e acc' _ Hacc E. destruct (has_kind REWARD_SETTLE_EPOCH_KIND (pool_transaction e)) eqn:Ek; cbn [negb] in E; [|by injection E as <-].
  apply rbind_Ok in E as (settlement & _ & E). injection E as <-. case_match; [|done]. apply Forall_app. split; [done|]. by constructor.
Qed.

(** A waiting settlement is preferred. *)
Lemma waiting_preferred s h entries manual ids :
  node_reward_activation_height (service_params s) <= h -> is_epoch_reward_height h (service_params s) = Ok true ->
  h / epoch_length_blocks (service_params s) ∉ store_settled_epoch_indexes (reward_settlements s) ->
  manual_candidates h entries = Ok manual -> mapM txid manual = Ok ids -> manual ≠ [] ->
  exists t, t ∈ manual /\ _preferred_native_reward_settlement_transaction s h entries = Ok (Some t).
Proof.
  intros Ha Hc Hn Hm Hids Hne. unfold _preferred_native_reward_settlement_transaction.
  rewrite (proj2 (Z.ltb_ge _ _) Ha), Hc. cbn [rbind negb]. cbv zeta. rewrite bool_decide_false by done. rewrite Hm. cbn [rbind].
  rewrite Hids. cbn [rbind]. destruct (sorted_by snd (zip manual ids)) as [|[t id] l] eqn:El.
  - exfalso. apply Hne. assert (Hz : zip manual ids = []) by (apply Permutation_nil_r; by rewrite <- El, sorted_by_Permutation).
    pose proof (mapM_length _ _ _ Hids) as Hl. destruct manual as [|t manual]; [done|]. by destruct ids.
  - exists t. split; [|done]. assert (Hin : (t, id) ∈ zip manual ids) by (rewrite <- (sorted_by_Permutation snd), El; left).
    by apply elem_of_zip_l in Hin.
Qed.

End settlements.
