(* ===== verification/Wire.v ===== *)
(** * Messages between peers and their frames ([node/messages.py], [node/p2p/codec.py], [node/p2p/transport.py])

    The typed payloads, their binary encoding, the frame with magic, command, length
    and checksum, and the reading of frames from a stream of bytes.  The helpers of
    the codec are its own: they bound what they read and raise [CodecError].  The
    class [Transport] and the sockets under it are outside; what is modelled of
    [TCPTransport.receive] is how it cuts the stream. *)

From S2P Require Import Prelude PyOrder PyText Hashes Models Serialization.

(** ** Messages *)

Record VersionMessage : Type := mkVersion {
  protocol_version : Z; announced_network : str; announced_node_id : str; start_height : Z; user_agent : str; relay : bool;
}.
Record InventoryVector : Type := mkInventory { object_type : str; object_hash : str }.
Record LocatorMessage : Type := mkLocator { locator_version : Z; locator_hashes : list str; stop_hash : str }.
Record PeerAddress : Type := mkPeerAddress { address_host : str; address_port : Z; services : Z; address_timestamp : Z }.

Inductive MessagePayload : Type :=
| EmptyPayload
| VersionPayload (m : VersionMessage)
| PingMessage (nonce : Z)
| PongMessage (nonce : Z)
| InvMessage (items : list InventoryVector)
| GetDataMessage (items : list InventoryVector)
| TransactionMessage (t : Transaction)
| BlockMessage (b : Block)
| GetHeadersMessage (m : LocatorMessage)
| HeadersMessage (hs : list BlockHeader)
| GetBlocksMessage (m : LocatorMessage)
| AddrMessage (addresses : list PeerAddress).

Record MessageEnvelope : Type := mkMessage { command : str; payload : MessagePayload }.

#[global] Instance VersionMessage_eq_dec : EqDecision VersionMessage.
Proof. solve_decision. Defined.
#[global] Instance InventoryVector_eq_dec : EqDecision InventoryVector.
Proof. solve_decision. Defined.
#[global] Instance LocatorMessage_eq_dec : EqDecision LocatorMessage.
Proof. solve_decision. Defined.
#[global] Instance PeerAddress_eq_dec : EqDecision PeerAddress.
Proof. solve_decision. Defined.
#[global] Instance MessagePayload_eq_dec : EqDecision MessagePayload.
Proof. solve_decision. Defined.
#[global] Instance MessageEnvelope_eq_dec : EqDecision MessageEnvelope.
Proof. solve_decision. Defined.

(** ** Fields *)

Definition codec_encode_varint (v : Z) : res bytes :=
  if v <? 0 then raise CodecError "varint value cannot be negative"
  else if v <? 0xFD then Ok [byte.of_Z v]
  else if v <=? 0xFFFF then let* p := pack 2 v in Ok (byte.of_Z 0xFD :: p)
  else if v <=? 0xFFFFFFFF then let* p := pack 4 v in Ok (byte.of_Z 0xFE :: p)
  else if v <=? 0xFFFFFFFFFFFFFFFF then let* p := pack 8 v in Ok (byte.of_Z 0xFF :: p)
  else raise CodecError "varint value exceeds 64-bit range".

Definition codec_unpack (n : nat) (buffer : bytes) (offset : Z) : res Z :=
  if (offset <? 0) || (len buffer <? offset + Z.of_nat n) then raise CodecError "Unexpected end of payload."
  else unpack_from n buffer offset.

Definition codec_decode_varint (buffer : bytes) (offset : Z) : res (Z * Z) :=
  if len buffer <=? offset then raise CodecError "Unexpected end of payload while decoding varint."
  else match buffer !! Z.to_nat offset with
  | None => raise IndexError "index out of range"
  | Some x =>
      let prefix := byte.unsigned x in
      let offset := offset + 1 in
      if prefix <? 0xFD then Ok (prefix, offset)
      else if prefix =? 0xFD then let* v := codec_unpack 2 buffer offset in Ok (v, offset + 2)
      else if prefix =? 0xFE then let* v := codec_unpack 4 buffer offset in Ok (v, offset + 4)
      else let* v := codec_unpack 8 buffer offset in Ok (v, offset + 8)
  end.

Definition codec_encode_bytes (v : bytes) : res bytes := let* n := codec_encode_varint (len v) in Ok (n ++ v).

Definition codec_decode_bytes (buffer : bytes) (offset : Z) : res (bytes * Z) :=
  let* '(length, offset) := codec_decode_varint buffer offset in
  let end_ := offset + length in
  if len buffer <? end_ then raise CodecError "Unexpected end of payload while decoding bytes."
  else Ok (slice buffer offset end_, end_).

Definition codec_encode_string (v : str) : res bytes := let* raw := utf8_encode v in codec_encode_bytes raw.

Definition codec_decode_string (buffer : bytes) (offset : Z) : res (str * Z) :=
  let* '(raw, offset) := codec_decode_bytes buffer offset in
  let* text := utf8_decode raw in
  Ok (text, offset).

Definition codec_encode_hash (hash_hex : str) : res bytes :=
  let* raw := fromhex hash_hex in
  if negb (len raw =? 32) then raise CodecError "Hashes must be exactly 32 bytes." else Ok raw.

Definition codec_decode_hash (buffer : bytes) (offset : Z) : res (str * Z) :=
  let end_ := offset + 32 in
  if len buffer <? end_ then raise CodecError "Unexpected end of payload while decoding hash."
  else Ok (hex (slice buffer offset end_), end_).

Definition codec_decode_number (n : nat) (buffer : bytes) (offset : Z) : res (Z * Z) :=
  let* v := codec_unpack n buffer offset in Ok (v, offset + Z.of_nat n).

Definition _ensure_count_at_most (count limit : Z) : res unit := raise_if (limit <? count) CodecError "count exceeds limit".
Definition _ensure_fully_consumed (payload : bytes) (offset : Z) : res unit :=
  raise_if (negb (offset =? len payload)) CodecError "payload contains trailing bytes.".

Definition MAX_INVENTORY_ITEMS : Z := 500.
Definition MAX_LOCATOR_HASHES : Z := 64.
Definition MAX_HEADERS : Z := 2000.
Definition MAX_ADDR_RECORDS : Z := 1000.

(** A list with its count in front *)
Definition encode_counted {A} (limit : Z) (encode : A -> res bytes) (xs : list A) : res bytes :=
  _ensure_count_at_most (len xs) limit ;;
  let* n := codec_encode_varint (len xs) in
  let* parts := mapM encode xs in
  Ok (n ++ concat parts).

Definition decode_counted {A} (limit : Z) (decode : bytes -> Z -> res (A * Z)) (buffer : bytes) (offset : Z) : res (list A * Z) :=
  let* '(count, offset) := codec_decode_varint buffer offset in
  _ensure_count_at_most count limit ;;
  decode_many (decode buffer) (Z.to_nat limit) count offset.

(** ** Payloads *)

Definition INVENTORY_TYPE_CODES : list (str * Z) := [(u "tx", 1); (u "block", 2)].
Definition INVENTORY_TYPE_NAMES : list (Z * str) := [(1, u "tx"); (2, u "block")].

Definition encode_inventory_item (item : InventoryVector) : res bytes :=
  match dict_get INVENTORY_TYPE_CODES (object_type item) with
  | None => raise KeyError "object_type"
  | Some code => let* c := pack 4 code in let* h := codec_encode_hash (object_hash item) in Ok (c ++ h)
  end.

Definition decode_inventory_item (buffer : bytes) (offset : Z) : res (InventoryVector * Z) :=
  let* '(code, offset) := codec_decode_number 4 buffer offset in
  let* '(hash, offset) := codec_decode_hash buffer offset in
  match dict_get INVENTORY_TYPE_NAMES code with
  | None => raise CodecError "Unknown inventory type code"
  | Some name => Ok (mkInventory name hash, offset)
  end.

Definition _encode_inventory : list InventoryVector -> res bytes := encode_counted MAX_INVENTORY_ITEMS encode_inventory_item.
Definition _decode_inventory : bytes -> Z -> res (list InventoryVector * Z) := decode_counted MAX_INVENTORY_ITEMS decode_inventory_item.

Definition _encode_hash_locator (m : LocatorMessage) : res bytes :=
  _ensure_count_at_most (len (locator_hashes m)) MAX_LOCATOR_HASHES ;;
  let* v := pack 4 (locator_version m) in
  let* hashes := encode_counted MAX_LOCATOR_HASHES codec_encode_hash (locator_hashes m) in
  let* stop := codec_encode_hash (stop_hash m) in
  Ok (v ++ hashes ++ stop).

Definition _decode_hash_locator (buffer : bytes) (offset : Z) : res (LocatorMessage * Z) :=
  let* '(v, offset) := codec_decode_number 4 buffer offset in
  let* '(hashes, offset) := decode_counted MAX_LOCATOR_HASHES codec_decode_hash buffer offset in
  let* '(stop, offset) := codec_decode_hash buffer offset in
  Ok (mkLocator v hashes stop, offset).

Definition encode_address (a : PeerAddress) : res bytes :=
  let* t := pack 4 (address_timestamp a) in
  let* s := pack 8 (services a) in
  let* h := codec_encode_string (address_host a) in
  let* p := pack 2 (address_port a) in
  Ok (t ++ s ++ h ++ p).

Definition decode_address (buffer : bytes) (offset : Z) : res (PeerAddress * Z) :=
  let* '(t, offset) := codec_decode_number 4 buffer offset in
  let* '(s, offset) := codec_decode_number 8 buffer offset in
  let* '(h, offset) := codec_decode_string buffer offset in
  let* '(p, offset) := codec_decode_number 2 buffer offset in
  Ok (mkPeerAddress h p s t, offset).

(** [pack("<?", flag)] and back *)
Definition pack_bool (flag : bool) : bytes := [byte.of_Z (if flag then 1 else 0)].

Definition encode_version (m : VersionMessage) : res bytes :=
  let* v := pack 4 (protocol_version m) in
  let* n := codec_encode_string (announced_network m) in
  let* i := codec_encode_string (announced_node_id m) in
  let* h := pack 4 (start_height m) in
  let* a := codec_encode_string (user_agent m) in
  Ok (v ++ n ++ i ++ h ++ a ++ pack_bool (relay m)).

Definition decode_version (buffer : bytes) (offset : Z) : res (VersionMessage * Z) :=
  let* '(v, offset) := codec_decode_number 4 buffer offset in
  let* '(n, offset) := codec_decode_string buffer offset in
  let* '(i, offset) := codec_decode_string buffer offset in
  let* '(h, offset) := codec_decode_number 4 buffer offset in
  let* '(a, offset) := codec_decode_string buffer offset in
  let* '(flag, offset) := codec_decode_number 1 buffer offset in
  Ok (mkVersion v n i h a (negb (flag =? 0)), offset).

Definition unexpected_payload {A} : res A := raise CodecError "unexpected payload type".

Definition _encode_payload (m : MessageEnvelope) : res bytes :=
  let named name := bool_decide (command m = u name) in
  if named "verack"%string || named "getaddr"%string then match payload m with EmptyPayload => Ok [] | _ => unexpected_payload end
  else if named "version"%string then match payload m with VersionPayload v => encode_version v | _ => unexpected_payload end
  else if named "ping"%string then match payload m with PingMessage n => pack 8 n | _ => unexpected_payload end
  else if named "pong"%string then match payload m with PongMessage n => pack 8 n | _ => unexpected_payload end
  else if named "inv"%string then match payload m with InvMessage items => _encode_inventory items | _ => unexpected_payload end
  else if named "getdata"%string then match payload m with GetDataMessage items => _encode_inventory items | _ => unexpected_payload end
  else if named "tx"%string then match payload m with TransactionMessage t => serialize_transaction t | _ => unexpected_payload end
  else if named "block"%string then match payload m with BlockMessage b => serialize_block b | _ => unexpected_payload end
  else if named "getheaders"%string then match payload m with GetHeadersMessage l => _encode_hash_locator l | _ => unexpected_payload end
  else if named "headers"%string then match payload m with HeadersMessage hs => encode_counted MAX_HEADERS serialize_block_header hs | _ => unexpected_payload end
  else if named "getblocks"%string then match payload m with GetBlocksMessage l => _encode_hash_locator l | _ => unexpected_payload end
  else if named "addr"%string then match payload m with AddrMessage l => encode_counted MAX_ADDR_RECORDS encode_address l | _ => unexpected_payload end
  else raise CodecError "Unsupported command".

(** A decoder that has to read the whole payload *)
Definition decode_all {A} (decode : bytes -> Z -> res (A * Z)) (wrap : A -> MessagePayload) (data : bytes) : res MessagePayload :=
  let* '(x, offset) := decode data 0 in
  _ensure_fully_consumed data offset ;;
  Ok (wrap x).

Definition _decode_fixed_nonce (wrap : Z -> MessagePayload) (data : bytes) : res MessagePayload :=
  raise_if (negb (len data =? 8)) CodecError "payload must be exactly eight bytes." ;;
  let* nonce := codec_unpack 8 data 0 in
  Ok (wrap nonce).

Definition decode_body (name : str) (data : bytes) : res MessagePayload :=
  let named c := bool_decide (name = u c) in
  if named "verack"%string || named "getaddr"%string then Ok EmptyPayload
  else if named "version"%string then decode_all decode_version VersionPayload data
  else if named "ping"%string then _decode_fixed_nonce PingMessage data
  else if named "pong"%string then _decode_fixed_nonce PongMessage data
  else if named "inv"%string then decode_all _decode_inventory InvMessage data
  else if named "getdata"%string then decode_all _decode_inventory GetDataMessage data
  else if named "tx"%string then decode_all deserialize_transaction TransactionMessage data
  else if named "block"%string then decode_all deserialize_block BlockMessage data
  else if named "getheaders"%string then decode_all _decode_hash_locator GetHeadersMessage data
  else if named "headers"%string then decode_all (decode_counted MAX_HEADERS deserialize_block_header) HeadersMessage data
  else if named "getblocks"%string then decode_all _decode_hash_locator GetBlocksMessage data
  else if named "addr"%string then decode_all (decode_counted MAX_ADDR_RECORDS decode_address) AddrMessage data
  else raise CodecError "Unsupported command".

Definition _decode_payload (name : str) (data : bytes) : res MessageEnvelope :=
  let* body := decode_body name data in Ok (mkMessage name body).

(** ** Frames *)

Definition COMMAND_SIZE : Z := 12.
Definition FRAME_HEADER_SIZE : Z := 24.

Definition zero_byte : Init.Byte.byte := byte.of_Z 0.

(** [text.encode("ascii")] and [data.decode("ascii")] *)
Definition ascii_encode (s : str) : res bytes :=
  if forallb (fun c => c <? 128) s then Ok (byte.of_Z <$> s) else raise UnicodeError "'ascii' codec can't encode character".
Definition ascii_decode (data : bytes) : res str :=
  if forallb (fun x => byte.unsigned x <? 128) data then Ok (byte.unsigned <$> data) else raise UnicodeError "'ascii' codec can't decode byte".

Definition _encode_command (name : str) : res bytes :=
  let* encoded := ascii_encode name in
  raise_if (COMMAND_SIZE <? len encoded) CodecError "Command name exceeds fixed-width header field." ;;
  Ok (encoded ++ replicate (Z.to_nat (COMMAND_SIZE - len encoded)) zero_byte).

(** [data.rstrip(b"\x00")] *)
Fixpoint rstrip_zero (data : bytes) : bytes :=
  match data with
  | [] => []
  | x :: rest => match rstrip_zero rest with
                 | [] => if bool_decide (x = zero_byte) then [] else [x]
                 | kept => x :: kept
                 end
  end.

Definition _decode_command (command_bytes : bytes) : res str :=
  let* name := ascii_decode (rstrip_zero command_bytes) in
  raise_if (bool_decide (name = [])) CodecError "Frame command is empty." ;;
  Ok name.

Definition checksum (data : bytes) : bytes := take 4 (double_sha256 data).

Definition encode_message (magic : bytes) (m : MessageEnvelope) : res bytes :=
  raise_if (negb (len magic =? 4)) CodecError "Network magic must be exactly four bytes." ;;
  let* data := _encode_payload m in
  let* name := _encode_command (command m) in
  let* size := pack 4 (len data) in
  Ok (magic ++ name ++ size ++ checksum data ++ data).

Definition decode_message (expected_magic : bytes) (frame : bytes) : res MessageEnvelope :=
  raise_if (len frame <? FRAME_HEADER_SIZE) MalformedMessageError "Frame is shorter than the fixed header size." ;;
  raise_if (negb (bool_decide (slice frame 0 4 = expected_magic))) WrongNetworkMagicError "Unexpected network magic." ;;
  let* name := _decode_command (slice frame 4 (4 + COMMAND_SIZE)) in
  let* payload_length := unpack_from 4 frame 16 in
  let data := slice frame 24 (len frame) in
  raise_if (negb (len data =? payload_length)) MalformedMessageError "Frame payload length does not match header length." ;;
  raise_if (negb (bool_decide (checksum data = slice frame 20 24))) ChecksumError "Frame checksum does not match payload." ;;
  _decode_payload name data.

(** ** Frames from a stream *)

Definition MAX_P2P_FRAME_PAYLOAD_SIZE : Z := 8000000.

(** [reader.readexactly(n)] on what the peer sends before it closes *)
Definition readexactly (n : Z) (stream : bytes) : res (bytes * bytes) :=
  if len stream <? n then raise ConnectionClosedError "Peer connection closed while reading frame."
  else Ok (take (Z.to_nat n) stream, drop (Z.to_nat n) stream).

Definition receive (stream : bytes) : res (bytes * bytes) :=
  let* '(hdr, rest) := readexactly FRAME_HEADER_SIZE stream in
  let payload_length := le_combine (slice hdr 16 20) in
  raise_if (MAX_P2P_FRAME_PAYLOAD_SIZE <? payload_length) TransportError "P2P frame payload exceeds maximum size" ;;
  let* '(data, rest) := readexactly payload_length rest in
  Ok (hdr ++ data, rest).

(** The frames of a stream, until it ends or one is refused; each takes at least a
    header's worth of bytes. *)
Fixpoint receive_frames (fuel : nat) (magic : bytes) (stream : bytes) : list MessageEnvelope * exn :=
  match fuel with
  | O => ([], Exn OutOfFuel "receive_frames")
  | S fuel' =>
      match (let* '(frame, rest) := receive stream in let* m := decode_message magic frame in Ok (m, rest)) with
      | Raise e => ([], e)
      | Ok (m, rest) => let '(ms, e) := receive_frames fuel' magic rest in (m :: ms, e)
      end
  end.

Definition receive_all (magic stream : bytes) : list MessageEnvelope * exn := receive_frames (S (length stream)) magic stream.
