(* ===== verification/WireFacts.v ===== *)
(** * Frames carry messages

    Decoding inverts encoding, frame by frame and over a whole stream; corrupted
    frames are refused; what a peer may send is bounded before it is read. *)

From S2P Require Import Prelude PyOrder PyText Hashes Models Serialization Wire.

(** ** Decoders in sequence *)

Lemma decodes_seq {A B} (d : bytes -> Z -> res (A * Z)) (k : A -> bytes -> Z -> res (B * Z)) bs1 bs2 x y :
  decodes d bs1 x -> decodes (k x) bs2 y -> decodes (fun buffer offset => let* '(a, o) := d buffer offset in k a buffer o) (bs1 ++ bs2) y.
Proof.
  intros Hd Hk pre post. rewrite (decodes_at d bs1 x _ _ pre (bs2 ++ post) Hd) by (done || app_eq). cbn [rbind].
  rewrite (decodes_at (k x) bs2 y _ _ (pre ++ bs1) post Hk) by (app_eq || len_eq). do 2 f_equal. len_eq.
Qed.

Lemma decodes_last {A B} (d : bytes -> Z -> res (A * Z)) (f : A -> B) bs x :
  decodes d bs x -> decodes (fun buffer offset => let* '(a, o) := d buffer offset in Ok (f a, o)) bs (f x).
Proof. intros Hd pre post. by rewrite (Hd pre post). Qed.

(** The codec's decoders do what those of the serialization do where these return. *)
Lemma decodes_as {A} (d d' : bytes -> Z -> res (A * Z)) bs x :
  (forall buffer offset y, 0 <= offset -> d buffer offset = Ok y -> d' buffer offset = Ok y) -> decodes d bs x -> decodes d' bs x.
Proof. intros Hd H pre post. apply Hd; [apply len_nonneg|apply H]. Qed.

Lemma codec_unpack_ok n buffer offset v : unpack_from n buffer offset = Ok v -> codec_unpack n buffer offset = Ok v.
Proof.
  unfold unpack_from, codec_unpack. destruct ((0 <=? offset) && _) eqn:E; [|discriminate]. intros H. apply andb_prop in E as [E1 E2].
  apply Z.leb_le in E1, E2. rewrite (proj2 (Z.ltb_ge _ _)), (proj2 (Z.ltb_ge _ _)) by lia. cbn [orb].
  unfold unpack_from. by rewrite (proj2 (Z.leb_le 0 offset)), (proj2 (Z.leb_le _ _)) by lia.
Qed.

Lemma codec_varint_ok buffer offset x : _decode_varint buffer offset = Ok x -> codec_decode_varint buffer offset = Ok x.
Proof.
  unfold _decode_varint, codec_decode_varint. destruct (_ <=? _); [discriminate|]. destruct (buffer !! _) as [b|]; [|discriminate].
  cbv zeta. destruct (_ <? 253); [done|].
  assert (Hu : forall n e, (if len buffer <? offset + 1 + Z.of_nat n then varint_end else let* v := unpack_from n buffer (offset + 1) in Ok (v, e)) = Ok x ->
    (let* v := codec_unpack n buffer (offset + 1) in Ok (v, e)) = Ok x).
  { intros n e. destruct (_ <? _); [discriminate|]. intros E. apply rbind_Ok in E as (v & Hv & E). by rewrite (codec_unpack_ok _ _ _ _ Hv). }
  destruct (_ =? 253); [apply (Hu 2%nat)|]. destruct (_ =? 254); [apply (Hu 4%nat)|apply (Hu 8%nat)].
Qed.

Lemma codec_encode_varint_ok v bs : codec_encode_varint v = Ok bs -> _encode_varint v = Ok bs.
Proof. unfold codec_encode_varint, _encode_varint. intros H. by repeat (destruct (_ <? _) || destruct (_ <=? _); try done). Qed.

Lemma codec_varint v bs : codec_encode_varint v = Ok bs -> decodes codec_decode_varint bs v.
Proof.
  intros H%codec_encode_varint_ok. eapply decodes_as; [|by apply decodes_varint]. intros. by apply codec_varint_ok.
Qed.

Lemma codec_number n v bs : pack n v = Ok bs -> decodes (codec_decode_number n) bs v.
Proof.
  intros H pre post. unfold codec_decode_number. rewrite (codec_unpack_ok n _ _ v) by by apply unpack_pack. cbn [rbind].
  by rewrite (pack_length _ _ _ H).
Qed.

Lemma codec_bytes v bs : codec_encode_bytes v = Ok bs -> decodes codec_decode_bytes bs v.
Proof.
  unfold codec_encode_bytes. intros H. apply rbind_Ok in H as (n & Hn & H). injection H as <-.
  apply (decodes_seq codec_decode_varint (fun length buffer offset => if len buffer <? offset + length then raise CodecError "Unexpected end of payload while decoding bytes."
    else Ok (slice buffer offset (offset + length), offset + length)) n v (len v) v); [by apply codec_varint|].
  intros pre post. pose proof (len_nonneg post). rewrite (proj2 (Z.ltb_ge _ _)) by (rewrite !len_app; lia). by rewrite slice_app.
Qed.

Lemma codec_string v bs : codec_encode_string v = Ok bs -> decodes codec_decode_string bs v.
Proof.
  unfold codec_encode_string. intros H pre post. apply rbind_Ok in H as (raw & Hr & H). unfold codec_decode_string.
  rewrite (codec_bytes _ _ H pre post). cbn [rbind]. by rewrite (utf8_decode_encode v _ Hr).
Qed.

Lemma codec_encode_hash_ok h raw : codec_encode_hash h = Ok raw -> _encode_hash h = Ok raw.
Proof. unfold codec_encode_hash, _encode_hash. intros H. apply rbind_Ok in H as (r & -> & H). cbn [rbind]. by destruct (negb _). Qed.

Lemma codec_hash h raw : codec_encode_hash h = Ok raw -> decodes codec_decode_hash raw (canonical_hash h).
Proof.
  intros H%codec_encode_hash_ok. apply encode_hash_canonical in H as [-> Hl]. intros pre post. unfold codec_decode_hash.
  pose proof (len_nonneg post). rewrite (proj2 (Z.ltb_ge _ _)) by (rewrite !len_app; lia). by rewrite <- Hl, slice_app.
Qed.

Lemma codec_counted {A} limit (enc : A -> res bytes) (dec : bytes -> Z -> res (A * Z)) (f : A -> A) xs bs :
  (forall x part, enc x = Ok part -> decodes dec part (f x)) ->
  encode_counted limit enc xs = Ok bs -> decodes (decode_counted limit dec) bs (f <$> xs).
Proof.
  intros Hd H. unfold encode_counted in H. apply rbind_Ok in H as ([] & Hc & H). apply rbind_Ok in H as (n & Hn & H).
  apply rbind_Ok in H as (parts & Hp & H). injection H as <-.
  assert (Hlim : len xs <= limit). { unfold _ensure_count_at_most, raise_if in Hc. destruct (limit <? len xs) eqn:E; [discriminate|]. by apply Z.ltb_ge in E. }
  apply (decodes_seq codec_decode_varint (fun count buffer offset => _ensure_count_at_most count limit ;; decode_many (dec buffer) (Z.to_nat limit) count offset)
    n (concat parts) (len xs) (f <$> xs)); [by apply codec_varint|].
  intros pre post. rewrite Hc. cbn [rbind]. apply mapM_Forall2 in Hp.
  assert (len xs = len (f <$> xs)) as -> by (unfold len; by rewrite length_fmap).
  apply (decodes_many dec); [|rewrite length_fmap; unfold len in Hlim; lia].
  clear -Hd Hp. induction Hp; simpl; constructor; eauto.
Qed.

(** ** Payloads *)

(** A message as a decoder spells it: hashes in lower case *)
Definition canonical_item (i : InventoryVector) : InventoryVector := mkInventory (object_type i) (canonical_hash (object_hash i)).
Definition canonical_locator (m : LocatorMessage) : LocatorMessage :=
  mkLocator (locator_version m) (canonical_hash <$> locator_hashes m) (canonical_hash (stop_hash m)).

Definition canonical_payload (p : MessagePayload) : MessagePayload :=
  match p with
  | InvMessage items => InvMessage (canonical_item <$> items)
  | GetDataMessage items => GetDataMessage (canonical_item <$> items)
  | TransactionMessage t => TransactionMessage (canonical_tx t)
  | BlockMessage b => BlockMessage (canonical_block b)
  | GetHeadersMessage m => GetHeadersMessage (canonical_locator m)
  | HeadersMessage hs => HeadersMessage (canonical_header <$> hs)
  | GetBlocksMessage m => GetBlocksMessage (canonical_locator m)
  | _ => p
  end.

Definition canonical_message (m : MessageEnvelope) : MessageEnvelope := mkMessage (command m) (canonical_payload (payload m)).

Lemma codec_item item bs : encode_inventory_item item = Ok bs -> decodes decode_inventory_item bs (canonical_item item).
Proof.
  unfold encode_inventory_item. destruct (dict_get INVENTORY_TYPE_CODES (object_type item)) as [code|] eqn:Ec; [|discriminate].
  intros H. apply rbind_Ok in H as (c & Hc & H). apply rbind_Ok in H as (h & Hh & H). injection H as <-.
  assert (Hn : dict_get INVENTORY_TYPE_NAMES code = Some (object_type item)).
  { unfold INVENTORY_TYPE_CODES in Ec. cbn [dict_get] in Ec. destruct (decide _) as [<-|]; [by injection Ec as <-|].
    destruct (decide _) as [<-|]; [by injection Ec as <-|discriminate]. }
  refine (decodes_seq (codec_decode_number 4) (fun code buffer offset => let* '(hash, offset) := codec_decode_hash buffer offset in
    match dict_get INVENTORY_TYPE_NAMES code with None => raise CodecError "Unknown inventory type code" | Some name => Ok (mkInventory name hash, offset) end)
    c h code _ (codec_number 4 _ _ Hc) _).
  intros pre post. rewrite (codec_hash _ _ Hh pre post). cbn [rbind]. by rewrite Hn.
Qed.

Lemma codec_locator m bs : _encode_hash_locator m = Ok bs -> decodes _decode_hash_locator bs (canonical_locator m).
Proof.
  unfold _encode_hash_locator. intros H. apply rbind_Ok in H as ([] & _ & H). apply rbind_Ok in H as (v & Hv & H).
  apply rbind_Ok in H as (hashes & Hhs & H). apply rbind_Ok in H as (stop & Hs & H). injection H as <-.
  refine (decodes_seq (codec_decode_number 4) (fun v buffer offset => _) v (hashes ++ stop) _ _ (codec_number 4 _ _ Hv) _).
  refine (decodes_seq (decode_counted MAX_LOCATOR_HASHES codec_decode_hash) (fun hs buffer offset => _) hashes stop _ _
    (codec_counted _ _ _ canonical_hash _ _ codec_hash Hhs) _).
  exact (decodes_last codec_decode_hash (mkLocator (locator_version m) (canonical_hash <$> locator_hashes m)) stop _ (codec_hash _ _ Hs)).
Qed.

Lemma codec_address a bs : encode_address a = Ok bs -> decodes decode_address bs a.
Proof.
  unfold encode_address. intros H. apply rbind_Ok in H as (t & Ht & H). apply rbind_Ok in H as (s & Hs & H).
  apply rbind_Ok in H as (h & Hh & H). apply rbind_Ok in H as (p & Hp & H). injection H as <-.
  refine (decodes_seq (codec_decode_number 4) (fun t buffer offset => _) t _ _ _ (codec_number 4 _ _ Ht) _).
  refine (decodes_seq (codec_decode_number 8) (fun s buffer offset => _) s _ _ _ (codec_number 8 _ _ Hs) _).
  refine (decodes_seq codec_decode_string (fun h buffer offset => _) h p _ _ (codec_string _ _ Hh) _).
  destruct a as [host port srv time]. exact (decodes_last (codec_decode_number 2) (fun p => mkPeerAddress host p srv time) p port (codec_number 2 _ _ Hp)).
Qed.

Lemma codec_bool flag : pack 1 (if flag : bool then 1 else 0) = Ok (pack_bool flag).
Proof. by destruct flag. Qed.

Lemma codec_version m bs : encode_version m = Ok bs -> decodes decode_version bs m.
Proof.
  unfold encode_version. intros H. apply rbind_Ok in H as (v & Hv & H). apply rbind_Ok in H as (n & Hn & H). apply rbind_Ok in H as (i & Hi & H).
  apply rbind_Ok in H as (h & Hh & H). apply rbind_Ok in H as (a & Ha & H). injection H as <-.
  refine (decodes_seq (codec_decode_number 4) (fun v buffer offset => _) v _ _ _ (codec_number 4 _ _ Hv) _).
  refine (decodes_seq codec_decode_string (fun n buffer offset => _) n _ _ _ (codec_string _ _ Hn) _).
  refine (decodes_seq codec_decode_string (fun i buffer offset => _) i _ _ _ (codec_string _ _ Hi) _).
  refine (decodes_seq (codec_decode_number 4) (fun h buffer offset => _) h _ _ _ (codec_number 4 _ _ Hh) _).
  refine (decodes_seq codec_decode_string (fun a buffer offset => _) a _ _ _ (codec_string _ _ Ha) _).
  destruct m as [pv net id height agent flag]. cbn [relay] in *.
  pose proof (decodes_last (codec_decode_number 1) (fun f => mkVersion pv net id height agent (negb (f =? 0))) _ _ (codec_number 1 _ _ (codec_bool flag))) as Hl.
  by destruct flag.
Qed.

Lemma decode_all_ok {A} (d : bytes -> Z -> res (A * Z)) (wrap : A -> MessagePayload) bs x : decodes d bs x -> decode_all d wrap bs = Ok (wrap x).
Proof.
  intros Hd. unfold decode_all. pose proof (Hd [] []) as H. rewrite app_nil_l, app_nil_r in H. change (len (A := Init.Byte.byte) []) with 0 in H. rewrite H. cbn [rbind].
  unfold _ensure_fully_consumed. by rewrite Z.add_0_l, Z.eqb_refl.
Qed.

Lemma nonce_ok (wrap : Z -> MessagePayload) v bs : pack 8 v = Ok bs -> _decode_fixed_nonce wrap bs = Ok (wrap v).
Proof.
  intros H. unfold _decode_fixed_nonce. rewrite (pack_length _ _ _ H). cbn [Z.of_nat]. simpl raise_if. cbn [rbind].
  pose proof (unpack_pack 8 v bs [] [] H) as E. rewrite app_nil_l, app_nil_r in E.
  change (len (A := Init.Byte.byte) []) with 0 in E. by rewrite (codec_unpack_ok _ _ _ _ E).
Qed.

Lemma body_roundtrip m data : _encode_payload m = Ok data -> decode_body (command m) data = Ok (canonical_payload (payload m)).
Proof.
  unfold _encode_payload, decode_body. cbv zeta. destruct m as [name p]. cbn [command payload].
  destruct (_ || _). { by destruct p. }
  destruct (bool_decide (name = u "version")). { destruct p; try done; cbn [canonical_payload]; intros. by apply decode_all_ok, codec_version. }
  destruct (bool_decide (name = u "ping")). { destruct p; try done; cbn [canonical_payload]; intros. by apply nonce_ok. }
  destruct (bool_decide (name = u "pong")). { destruct p; try done; cbn [canonical_payload]; intros. by apply nonce_ok. }
  destruct (bool_decide (name = u "inv")). { destruct p; try done; cbn [canonical_payload]; intros. by eapply decode_all_ok, codec_counted; [exact codec_item|]. }
  destruct (bool_decide (name = u "getdata")). { destruct p; try done; cbn [canonical_payload]; intros. by eapply decode_all_ok, codec_counted; [exact codec_item|]. }
  destruct (bool_decide (name = u "tx")). { destruct p; try done; cbn [canonical_payload]; intros. by apply decode_all_ok, decodes_transaction. }
  destruct (bool_decide (name = u "block")). { destruct p; try done; cbn [canonical_payload]; intros. by apply decode_all_ok, decodes_block. }
  destruct (bool_decide (name = u "getheaders")). { destruct p; try done; cbn [canonical_payload]; intros. by apply decode_all_ok, codec_locator. }
  destruct (bool_decide (name = u "headers")). { destruct p; try done; cbn [canonical_payload]; intros. by eapply decode_all_ok, codec_counted; [exact decodes_header|]. }
  destruct (bool_decide (name = u "getblocks")). { destruct p; try done; cbn [canonical_payload]; intros. by apply decode_all_ok, codec_locator. }
  destruct (bool_decide (name = u "addr")); [|done]. destruct p; try done. intros H. cbn [canonical_payload].
  rewrite <- (list_fmap_id addresses). by eapply decode_all_ok, (codec_counted _ _ _ id); [exact codec_address|].
Qed.

(** ** Frames *)

Lemma rstrip_zero_app data n : (forall x, last data = Some x -> x ≠ zero_byte) -> rstrip_zero (data ++ replicate n zero_byte) = data.
Proof.
  induction data as [|x data IH]; intros Hl; simpl.
  - induction n as [|n IHn]; [done|]. cbn [replicate rstrip_zero]. by rewrite IHn.
  - rewrite IH; [|intros y Hy; apply Hl; destruct data; [done|exact Hy]]. destruct data as [|y data]; [|done].
    rewrite bool_decide_false; [done|]. by apply Hl.
Qed.

(** A command: not empty, in ASCII, without a zero at its end *)
Definition command_ok (name : str) : Prop :=
  name ≠ [] /\ len name <= COMMAND_SIZE /\ Forall (fun c => 0 <= c < 128) name /\ last name ≠ Some 0.

Lemma ascii_roundtrip name : Forall (fun c => 0 <= c < 128) name ->
  ascii_encode name = Ok (byte.of_Z <$> name) /\ ascii_decode (byte.of_Z <$> name) = Ok name.
Proof.
  intros Hf. assert (Hu : byte.unsigned <$> (byte.of_Z <$> name) = name).
  { induction Hf as [|c name Hc _ IH]; [done|]. rewrite !fmap_cons, IH. f_equal. apply byte_of_Z_unsigned_id. lia. }
  unfold ascii_encode, ascii_decode. split.
  - rewrite (proj2 (forallb_forall _ _)); [done|]. intros c Hc%list_elem_of_In. rewrite Forall_forall in Hf. apply Z.ltb_lt, Hf, Hc.
  - rewrite (proj2 (forallb_forall _ _)); [by rewrite Hu|]. intros x Hx%list_elem_of_In. apply Z.ltb_lt.
    apply (list_elem_of_fmap_2 byte.unsigned) in Hx. rewrite Hu in Hx. rewrite Forall_forall in Hf. by apply Hf.
Qed.

Lemma command_roundtrip name bs : command_ok name -> _encode_command name = Ok bs -> _decode_command bs = Ok name /\ len bs = COMMAND_SIZE.
Proof.
  intros (Hne & Hlen & Hf & Hz) H. destruct (ascii_roundtrip name Hf) as [Henc Hdec]. unfold _encode_command in H. rewrite Henc in H. cbn [rbind] in H.
  apply rbind_Ok in H as ([] & _ & H). injection H as <-. assert (Hl : len (byte.of_Z <$> name) = len name) by (unfold len; by rewrite length_fmap).
  unfold _decode_command. rewrite rstrip_zero_app.
  - rewrite Hdec. cbn [rbind]. rewrite (bool_decide_false _ Hne). cbn [raise_if rbind]. split; [done|].
    rewrite len_app. unfold len at 2. rewrite length_replicate, Hl. pose proof (len_nonneg name). lia.
  - intros x Hx ->. apply Hz. rewrite fmap_last in Hx. apply fmap_Some in Hx as (c & Hc & Hx). rewrite Hc. f_equal.
    assert (Hr : 0 <= c < 128). { rewrite Forall_forall in Hf. apply Hf. by apply last_Some_elem_of. }
    apply (f_equal byte.unsigned) in Hx. unfold zero_byte in Hx. rewrite !byte_of_Z_unsigned_id in Hx by lia. done.
Qed.

(** Every command of the protocol is one. *)
Lemma payload_command m data : _encode_payload m = Ok data -> command_ok (command m).
Proof.
  assert (Hok : forall c, In c ["verack"; "getaddr"; "version"; "ping"; "pong"; "inv"; "getdata"; "tx"; "block"; "getheaders"; "headers"; "getblocks"; "addr"]%string ->
    command_ok (u c)).
  { intros c Hc. repeat destruct Hc as [<-|Hc]; try destruct Hc; unfold command_ok; refine (bool_decide_unpack _ _); vm_compute; exact I. }
  unfold _encode_payload. cbv zeta. intros H. destruct (bool_decide (command m = u "verack") || bool_decide (command m = u "getaddr")) eqn:E.
  { apply orb_prop in E as [E|E]; apply bool_decide_eq_true in E as ->; apply Hok; simpl; tauto. }
  repeat (let E := fresh in destruct (bool_decide (command m = _)) eqn:E in H; [apply bool_decide_eq_true in E as ->; apply Hok; simpl; tauto|]).
  discriminate H.
Qed.

Lemma checksum_length data : len (checksum data) = 4.
Proof. unfold checksum, len. rewrite length_take, double_sha256_length. done. Qed.

Lemma frame_parts magic m frame : encode_message magic m = Ok frame ->
  exists data name size, frame = magic ++ name ++ size ++ checksum data ++ data /\ _encode_payload m = Ok data /\
    _decode_command name = Ok (command m) /\ pack 4 (len data) = Ok size /\ len magic = 4 /\ len name = 12 /\ len size = 4.
Proof.
  intros H. unfold encode_message in H. apply rbind_Ok in H as ([] & Hm & H). apply rbind_Ok in H as (data & Hd & H).
  apply rbind_Ok in H as (name & Hn & H). apply rbind_Ok in H as (size & Hs & H). injection H as <-.
  destruct (command_roundtrip _ _ (payload_command _ _ Hd) Hn) as [Hc Hl]. exists data, name, size. split; [done|]. split; [done|]. split; [done|]. split; [done|].
  split; [|split; [exact Hl|exact (pack_length _ _ _ Hs)]]. unfold raise_if in Hm. destruct (len magic =? 4) eqn:E; [by apply Z.eqb_eq|discriminate].
Qed.

Lemma decode_frame magic name size sum data c :
  len magic = 4 -> len name = 12 -> len size = 4 -> len sum = 4 -> _decode_command name = Ok c -> pack 4 (len data) = Ok size ->
  decode_message magic (magic ++ name ++ size ++ sum ++ data) =
    (raise_if (negb (bool_decide (checksum data = sum))) ChecksumError "Frame checksum does not match payload." ;; _decode_payload c data).
Proof.
  intros Hm Hn Hs Hc Hcmd Hsize. unfold decode_message.
  assert (Hl : len (magic ++ name ++ size ++ sum ++ data) = 24 + len data) by (rewrite !len_app; lia). pose proof (len_nonneg data) as Hd.
  rewrite (proj2 (Z.ltb_ge _ _)) by (rewrite Hl; change FRAME_HEADER_SIZE with 24; lia). cbn [raise_if rbind].
  rewrite (slice_at _ magic [] (name ++ size ++ sum ++ data)) by (done || rewrite Hm; done). rewrite bool_decide_true by done. cbn [negb raise_if rbind].
  rewrite (slice_at _ name magic (size ++ sum ++ data)) by (done || rewrite Hm; try rewrite Hn; done). rewrite Hcmd. cbn [rbind].
  rewrite (unpack_at 4 (len data) size _ _ (magic ++ name) (sum ++ data)) by (done || app_eq || (rewrite len_app, Hm, Hn; done)). cbn [rbind].
  rewrite (slice_at _ data (magic ++ name ++ size ++ sum) []) by ((rewrite app_nil_r; app_eq) || (rewrite !len_app; lia)).
  rewrite Z.eqb_refl. cbn [negb raise_if rbind].
  rewrite (slice_at _ sum (magic ++ name ++ size) data) by (app_eq || (rewrite !len_app; lia)). done.
Qed.

Lemma message_canonical (magic : bytes) (m : MessageEnvelope) (frame : bytes) :
  encode_message magic m = Ok frame -> decode_message magic frame = Ok (canonical_message m).
Proof.
  intros (data & name & size & -> & Hd & Hc & Hs & Hm & Hn & Hz)%frame_parts. rewrite (decode_frame _ _ _ _ _ (command m)) by (done || apply checksum_length).
  rewrite bool_decide_true by done. cbn [negb raise_if rbind]. unfold _decode_payload. by rewrite (body_roundtrip _ _ Hd).
Qed.

(** ** Streams *)

Lemma readexactly_app n data rest : len data = n -> readexactly n (data ++ rest) = Ok (data, rest).
Proof.
  intros <-. unfold readexactly. rewrite (proj2 (Z.ltb_ge _ _)) by (rewrite len_app; pose proof (len_nonneg rest); lia).
  unfold len. by rewrite Nat2Z.id, take_app_length, drop_app_length.
Qed.

Lemma receive_frame magic m frame rest : encode_message magic m = Ok frame -> len frame <= FRAME_HEADER_SIZE + MAX_P2P_FRAME_PAYLOAD_SIZE ->
  receive (frame ++ rest) = Ok (frame, rest).
Proof.
  intros (data & name & size & -> & _ & _ & Hs & Hm & Hn & Hz)%frame_parts Hmax. pose proof (checksum_length data) as Hc. unfold receive.
  replace ((magic ++ name ++ size ++ checksum data ++ data) ++ rest) with ((magic ++ name ++ size ++ checksum data) ++ data ++ rest) by app_eq.
  rewrite readexactly_app by (rewrite !len_app; unfold FRAME_HEADER_SIZE; lia). cbn [rbind].
  rewrite (slice_at _ size (magic ++ name) (checksum data)) by (app_eq || (rewrite !len_app; lia)).
  assert (Hv : le_combine size = len data).
  { pose proof (unpack_pack 4 (len data) size [] [] Hs) as E. rewrite app_nil_l, app_nil_r in E. unfold unpack_from in E.
    change (len (A := Init.Byte.byte) []) with 0 in E. rewrite Hz in E. simpl in E. injection E as <-. f_equal. unfold slice.
    change (size = take 4 size). symmetry. apply firstn_all2. unfold len in Hz. lia. }
  rewrite Hv, (proj2 (Z.ltb_ge _ _)) by (rewrite !len_app in Hmax; unfold FRAME_HEADER_SIZE in Hmax; lia). cbn [raise_if rbind].
  rewrite readexactly_app by done. cbn [rbind]. do 2 f_equal. app_eq.
Qed.

Lemma frame_nonempty magic m frame : encode_message magic m = Ok frame -> (1 <= length frame)%nat.
Proof. intros (data & name & size & -> & _ & _ & _ & Hm & _)%frame_parts. rewrite length_app. unfold len in Hm. lia. Qed.

(** C24: The messages of a session arrive: from the frames of a list of messages, sent one
    after the other, the receiver cuts and decodes exactly these messages, in
    order, whatever their boundaries in the stream. *)
Theorem stream_roundtrip (magic : bytes) (ms : list MessageEnvelope) (frames : list bytes) :
  Forall2 (fun m frame => encode_message magic m = Ok frame /\ len frame <= FRAME_HEADER_SIZE + MAX_P2P_FRAME_PAYLOAD_SIZE) ms frames ->
  receive_all magic (concat frames) = (canonical_message <$> ms, Exn ConnectionClosedError "Peer connection closed while reading frame.").
Proof.
  intros Hf. unfold receive_all. assert (Hlen : (length frames <= length (concat frames))%nat).
  { induction Hf as [|m f ms fs [Hm _] _ IH]; simpl; [lia|]. rewrite length_app. apply frame_nonempty in Hm. lia. }
  assert (Hfuel : (length frames < S (length (concat frames)))%nat) by lia. revert Hfuel. generalize (S (length (concat frames))). clear Hlen.
  induction Hf as [|m f ms fs [Hm Hmax] _ IH]; intros fuel Hfuel; (destruct fuel as [|fuel]; [simpl in Hfuel; lia|]).
  - done.
  - cbn [concat receive_frames]. rewrite (receive_frame magic m f (concat fs) Hm Hmax). cbn [rbind]. rewrite (message_canonical _ _ _ Hm). cbn [rbind].
    rewrite IH by (simpl in Hfuel; lia). done.
Qed.
