(* ===== verification/Session.v ===== *)
(** * The session with a peer ([node/p2p/protocol.py], [node/p2p/errors.py])

    The handshake and the liveness checks of one connection as a state machine: the
    methods of [PeerProtocol] update its state, write frames and hand messages on.
    The transport below is the parameter [send_failure], which says whether the wait
    that follows the n-th write fails and how; what arrives is the argument of [reader_turn], one turn of
    the reader's loop.  Waiting (events, futures, timeouts of [asyncio]) is left out:
    a timeout is an arrival, and a ping that is answered is recorded.  The callbacks
    [on_message] and [on_handshake_complete] are recorded as well. *)

From S2P Require Import Prelude PyState PyOrder PyText Hashes Models Serialization Wire.

Record LocalPeerIdentity : Type := mkIdentity {
  local_node_id : str; local_network : str; local_start_height : Z; local_user_agent : str;
  local_protocol_version : Z; local_relay : bool; network_magic : bytes;
}.

Record SessionState : Type := mkSession {
  version_sent : bool;
  version_received : bool;
  verack_sent : bool;
  verack_received : bool;
  handshake_complete : bool;
  closed : bool;
  remote_version : option VersionMessage;
  last_ping_nonce : option Z;
  last_pong_nonce : option Z;
  errors : list string;
  error_causes : list exn;
}.

Record PeerProtocol : Type := mkProtocol {
  identity : LocalPeerIdentity;
  inbound : bool;
  state : SessionState;
  _pong_waiters : list Z;
  answered : list Z;
  callback_started : bool;
  reader_failure : option exn;
  sent : list (MessageEnvelope * bytes);
  writes : nat;
  delivered : list MessageEnvelope;
}.

Definition new_session (id : LocalPeerIdentity) (is_inbound : bool) : PeerProtocol :=
  mkProtocol id is_inbound (mkSession false false false false false false None None None [] []) [] [] false None [] 0 [].

Abbreviation session := (stm PeerProtocol).

Definition set_state (f : SessionState -> SessionState) : session unit :=
  modify (fun p => mkProtocol (identity p) (inbound p) (f (state p)) (_pong_waiters p) (answered p) (callback_started p)
                     (reader_failure p) (sent p) (writes p) (delivered p)).
Definition set_waiters (f : list Z -> list Z) : session unit :=
  modify (fun p => mkProtocol (identity p) (inbound p) (state p) (f (_pong_waiters p)) (answered p) (callback_started p)
                     (reader_failure p) (sent p) (writes p) (delivered p)).

(** Assignments to the fields of the state *)
Definition with_version_sent (s : SessionState) : SessionState :=
  mkSession true (version_received s) (verack_sent s) (verack_received s) (handshake_complete s) (closed s) (remote_version s)
    (last_ping_nonce s) (last_pong_nonce s) (errors s) (error_causes s).
Definition with_remote_version (v : VersionMessage) (s : SessionState) : SessionState :=
  mkSession (version_sent s) true (verack_sent s) (verack_received s) (handshake_complete s) (closed s) (Some v)
    (last_ping_nonce s) (last_pong_nonce s) (errors s) (error_causes s).
Definition with_verack_sent (s : SessionState) : SessionState :=
  mkSession (version_sent s) (version_received s) true (verack_received s) (handshake_complete s) (closed s) (remote_version s)
    (last_ping_nonce s) (last_pong_nonce s) (errors s) (error_causes s).
Definition with_verack_received (s : SessionState) : SessionState :=
  mkSession (version_sent s) (version_received s) (verack_sent s) true (handshake_complete s) (closed s) (remote_version s)
    (last_ping_nonce s) (last_pong_nonce s) (errors s) (error_causes s).
Definition with_ping (n : Z) (s : SessionState) : SessionState :=
  mkSession (version_sent s) (version_received s) (verack_sent s) (verack_received s) (handshake_complete s) (closed s) (remote_version s)
    (Some n) (last_pong_nonce s) (errors s) (error_causes s).
Definition with_pong (n : Z) (s : SessionState) : SessionState :=
  mkSession (version_sent s) (version_received s) (verack_sent s) (verack_received s) (handshake_complete s) (closed s) (remote_version s)
    (last_ping_nonce s) (Some n) (errors s) (error_causes s).
Definition with_error (msg : string) (s : SessionState) : SessionState :=
  mkSession (version_sent s) (version_received s) (verack_sent s) (verack_received s) (handshake_complete s) (closed s) (remote_version s)
    (last_ping_nonce s) (last_pong_nonce s) (errors s ++ [msg]) (error_causes s).

(** [version_sent and version_received and verack_sent and verack_received] *)
Definition handshake_done (s : SessionState) : bool := version_sent s && version_received s && verack_sent s && verack_received s.

Section session.
Variable send_failure : nat -> option exn.

(** The frame is handed to the stream before the wait for the stream to drain, which
    is what can fail: the peer may have it either way. *)
Definition transport_send (m : MessageEnvelope) (frame : bytes) : session unit :=
  fun p =>
    if FRAME_HEADER_SIZE + MAX_P2P_FRAME_PAYLOAD_SIZE <? len frame then (raise TransportError "P2P frame exceeds maximum size", p)
    else
      let p' := mkProtocol (identity p) (inbound p) (state p) (_pong_waiters p) (answered p) (callback_started p) (reader_failure p)
                  (sent p ++ [(m, frame)]) (S (writes p)) (delivered p) in
      match send_failure (writes p) with
      | Some e => (Raise e, p')
      | None => (Ok tt, p')
      end.

Definition send_message (m : MessageEnvelope) : session unit :=
  let! frame := asks (fun p => encode_message (network_magic (identity p)) m) in
  transport_send m frame.

Definition local_version (id : LocalPeerIdentity) : MessageEnvelope :=
  mkMessage (u "version") (VersionPayload (mkVersion (local_protocol_version id) (local_network id) (local_node_id id)
    (local_start_height id) (local_user_agent id) (local_relay id))).
Definition verack : MessageEnvelope := mkMessage (u "verack") EmptyPayload.

Definition _send_version : session unit :=
  let! p := gets id in
  if version_sent (state p) then ret tt
  else do! send_message (local_version (identity p)) in set_state with_version_sent.

Definition _update_handshake_state : session unit :=
  do! set_state (fun s => mkSession (version_sent s) (version_received s) (verack_sent s) (verack_received s) (handshake_done s) (closed s)
                            (remote_version s) (last_ping_nonce s) (last_pong_nonce s) (errors s) (error_causes s)) in
  modify (fun p => mkProtocol (identity p) (inbound p) (state p) (_pong_waiters p) (answered p)
                     (callback_started p || handshake_complete (state p)) (reader_failure p) (sent p) (writes p) (delivered p)).

Definition _handle_version (v : VersionMessage) : session unit :=
  let! p := gets id in
  do! lift (raise_if (version_received (state p)) HandshakeFailedError "Peer sent duplicate version message.") in
  do! lift (raise_if (negb (bool_decide (announced_network v = local_network (identity p)))) HandshakeFailedError
              "Peer announced a different network.") in
  do! set_state (with_remote_version v) in
  do! (if inbound p then _send_version else ret tt) in
  let! s := gets state in
  do! (if verack_sent s then ret tt else do! send_message verack in set_state with_verack_sent) in
  _update_handshake_state.

(** [message.payload.nonce] *)
Definition payload_nonce (b : MessagePayload) : res Z :=
  match b with PingMessage n | PongMessage n => Ok n | _ => raise AttributeError "nonce" end.

Definition answer_pong (n : Z) : session unit :=
  modify (fun p => if bool_decide (n ∈ _pong_waiters p)
    then mkProtocol (identity p) (inbound p) (state p) (filter (fun k => k ≠ n) (_pong_waiters p)) (answered p ++ [n]) (callback_started p)
           (reader_failure p) (sent p) (writes p) (delivered p)
    else p).

Definition handle_message (m : MessageEnvelope) : session unit :=
  if bool_decide (command m = u "version") then
    match payload m with VersionPayload v => _handle_version v | _ => throw AttributeError "network" end
  else if bool_decide (command m = u "verack") then do! set_state with_verack_received in _update_handshake_state
  else if bool_decide (command m = u "ping") then
    let! n := lift (payload_nonce (payload m)) in
    do! set_state (with_ping n) in
    send_message (mkMessage (u "pong") (PongMessage n))
  else if bool_decide (command m = u "pong") then
    let! n := lift (payload_nonce (payload m)) in
    do! set_state (with_pong n) in
    answer_pong n
  else modify (fun p => mkProtocol (identity p) (inbound p) (state p) (_pong_waiters p) (answered p) (callback_started p)
                          (reader_failure p) (sent p) (writes p) (delivered p ++ [m])).

(** What [ping] does before it waits, and when the wait times out *)
Definition ping (n : Z) : session unit :=
  let! s := gets state in
  do! lift (raise_if (closed s) ConnectionClosedError "Cannot ping on a closed session.") in
  do! set_waiters (fun ws => if bool_decide (n ∈ ws) then ws else ws ++ [n]) in
  send_message (mkMessage (u "ping") (PingMessage n)).

Definition ping_timeout (n : Z) : session unit :=
  do! set_waiters (filter (fun k => k ≠ n)) in
  throw ProtocolTimeoutError "Timed out waiting for pong response.".

Definition close (reason : option string) (error : option exn) : session unit :=
  let! s := gets state in
  if closed s then ret tt
  else
    do! set_state (fun s => mkSession (version_sent s) (version_received s) (verack_sent s) (verack_received s) (handshake_complete s) true
          (remote_version s) (last_ping_nonce s) (last_pong_nonce s)
          (errors s ++ match reason, error with Some r, _ => [r] | None, Some e => [exn_msg e] | None, None => [] end)
          (error_causes s ++ match error with Some e => [e] | None => [] end)) in
    set_waiters (fun _ => []).

(** ** The reader *)

(** What the transport gives to the reader: a frame, or an exception *)
Inductive arrival : Type :=
| Frame (frame : bytes)
| Failure (e : exn).

Definition reader_body (a : arrival) : session unit :=
  match a with
  | Failure e => lift (Raise e)
  | Frame frame =>
      let! m := asks (fun p => decode_message (network_magic (identity p)) frame) in
      handle_message m
  end.

(** One turn of the loop; an exception that nothing catches ends the task. *)
Definition reader_turn (a : arrival) : session unit :=
  let! p := gets id in
  if closed (state p) || bool_decide (is_Some (reader_failure p)) then ret tt
  else
    fun p =>
      match attempt
              (attempt (reader_body a) [TransportTimeoutError]
                 (fun e => let! s := gets state in
                           if handshake_complete s && negb (closed s) then set_state (with_error (exn_msg e))
                           else close (Some (exn_msg e)) (Some e)))
              [P2PError; TransportError]
              (fun e => close (Some (exn_msg e)) (Some e)) p with
      | (Ok _, p') => (Ok tt, p')
      | (Raise e, p') => (Ok tt, mkProtocol (identity p') (inbound p') (state p') (_pong_waiters p') (answered p') (callback_started p')
                                   (Some e) (sent p') (writes p') (delivered p'))
      end.

(** [start]: the side that connects speaks first. *)
Definition start_session : session unit :=
  let! p := gets id in if inbound p then ret tt else _send_version.

(** What the wait that follows in [start] ends with, and how [start] then returns *)
Inductive waited : Type := HandshakeEvent | ClosedEvent | TimedOut.

Definition start_outcome (event : waited) : session unit :=
  let! s := gets state in
  if handshake_complete s then ret tt
  else
    match event with
    | TimedOut =>
        do! close (Some "Handshake timed out."%string) (Some (Exn HandshakeFailedError "Timed out waiting for handshake completion.")) in
        throw HandshakeFailedError "Timed out waiting for handshake completion."
    | HandshakeEvent => ret tt
    | ClosedEvent =>
        match last (error_causes s) with
        | Some e => lift (Raise e)
        | None => throw HandshakeFailedError (match last (errors s) with Some r => r | None => "Peer connection closed before handshake completion."%string end)
        end
    end.
End session.
