(* ===== verification/SessionFacts.v ===== *)
(** * Sessions follow the handshake

    In every state of a session the handshake is complete only when the versions, for
    the same network, and the acknowledgements of both sides were read and written; two peers that speak to each
    other complete it; and a payload that decodes to neither a message nor a codec
    error stops the reader without closing the session. *)

From S2P Require Import Prelude PyState PyOrder PyText Hashes Models Serialization Wire WireFacts Session.

Definition is_command (name : string) (item : MessageEnvelope * bytes) : bool := bool_decide (command item.1 = u name).
Definition sent_count (name : string) (p : PeerProtocol) : nat := length (filter (fun item => is_command name item = true) (sent p)).

Section session.
Variable send_failure : nat -> option exn.
Variable me : LocalPeerIdentity.
Variable side : bool.

(** A frame that was read decodes to the message; a frame of the message was written. *)
Definition arrived (log : list arrival) (m : MessageEnvelope) : Prop :=
  exists frame, Frame frame ∈ log /\ decode_message (network_magic me) frame = Ok m.
Definition written (m : MessageEnvelope) (p : PeerProtocol) : Prop :=
  exists frame, encode_message (network_magic me) m = Ok frame /\ (m, frame) ∈ sent p.

(** [log] is what the reader was given, and [pending] says that the version of the side
    that connects is written but its flag not set yet. *)
Record session_ok (log : list arrival) (pending : bool) (p : PeerProtocol) : Prop := {
  identity_fixed : identity p = me;
  side_fixed : inbound p = side;
  complete_done : handshake_complete (state p) = true -> handshake_done (state p) = true;
  callback_done : callback_started p = true -> handshake_done (state p) = true;
  version_read : version_received (state p) = true -> exists v, remote_version (state p) = Some v /\
    announced_network v = local_network me /\ arrived log (mkMessage (u "version") (VersionPayload v));
  verack_read : verack_received (state p) = true -> exists m, command m = u "verack" /\ arrived log m;
  version_written : pending || version_sent (state p) = true -> written (local_version me) p;
  verack_written : verack_sent (state p) = true -> written verack p;
  quiet_before : version_received (state p) = false ->
    sent_count "verack" p = 0%nat /\ (side = true -> sent_count "version" p = 0%nat);
  versions_sent : (sent_count "version" p <= 1)%nat;
  veracks_sent : (sent_count "verack" p <= 1)%nat;
}.

Lemma sent_count_app name p out w :
  sent_count name (mkProtocol (identity p) (inbound p) (state p) (_pong_waiters p) (answered p) (callback_started p) (reader_failure p)
    (sent p ++ out) w (delivered p)) = (sent_count name p + length (filter (fun item => is_command name item = true) out))%nat.
Proof. unfold sent_count. cbn [sent]. by rewrite filter_app, length_app. Qed.

Lemma count_other name m frame : command m ≠ u name -> length (filter (fun item => is_command name item = true) [(m, frame)]) = 0%nat.
Proof. intros Hn. rewrite filter_cons. unfold is_command. cbn [fst]. by rewrite bool_decide_false. Qed.

Lemma count_le name (item : MessageEnvelope * bytes) : (length (filter (fun item => is_command name item = true) [item]) <= 1)%nat.
Proof. rewrite filter_cons. case_decide; simpl; lia. Qed.

Lemma arrived_more log a m : arrived log m -> arrived (log ++ [a]) m.
Proof. intros (frame & Hf & Hd). exists frame. split; [set_solver|done]. Qed.

Lemma session_log_more log a pending p : session_ok log pending p -> session_ok (log ++ [a]) pending p.
Proof.
  intros []. split; try done.
  - intros Hv. destruct (version_read0 Hv) as (v & ? & ? & ?). exists v. split; [done|]. split; [done|by apply arrived_more].
  - intros Hv. destruct (verack_read0 Hv) as (m & ? & ?). exists m. split; [done|by apply arrived_more].
Qed.

(** What a write changes: the frames, and the number of writes; the frame is there
    when the write succeeds, and can be there when it fails. *)
Lemma send_run m p :
  exists out w, (send_message send_failure m p).2 =
      mkProtocol (identity p) (inbound p) (state p) (_pong_waiters p) (answered p) (callback_started p) (reader_failure p)
        (sent p ++ out) w (delivered p) /\
    (out = [] \/ exists frame, out = [(m, frame)]) /\
    (is_ok (send_message send_failure m p).1 = true -> exists frame, encode_message (network_magic (identity p)) m = Ok frame /\ out = [(m, frame)]).
Proof.
  unfold send_message, sbind, asks. destruct (encode_message _ m) as [frame|e] eqn:E; cbn [fst snd].
  2: { exists [], (writes p). rewrite app_nil_r. split; [by destruct p|]. split; [by left|discriminate]. }
  unfold transport_send. destruct (_ <? _); cbn [fst snd].
  { exists [], (writes p). rewrite app_nil_r. split; [by destruct p|]. split; [by left|discriminate]. }
  exists [(m, frame)], (S (writes p)). destruct (send_failure _); cbn [fst snd]; (split; [done|]; split; [right; by exists frame|]); [discriminate|by exists frame].
Qed.

(** A version is written when none was, an acknowledgement when none was and after
    the peer's version. *)
Definition may_send (m : MessageEnvelope) (p : PeerProtocol) : Prop :=
  (command m = u "version" -> sent_count "version" p = 0%nat /\ (side = true -> version_received (state p) = true)) /\
  (command m = u "verack" -> sent_count "verack" p = 0%nat /\ version_received (state p) = true).

Lemma write_ok log pending p m out w : session_ok log pending p -> may_send m p -> (out = [] \/ exists frame, out = [(m, frame)]) ->
  session_ok log pending (mkProtocol (identity p) (inbound p) (state p) (_pong_waiters p) (answered p) (callback_started p) (reader_failure p)
    (sent p ++ out) w (delivered p)).
Proof.
  intros Hp [Hv Ha] Hout. assert (Hw : forall m', written m' p -> forall q, sent q = sent p ++ out -> written m' q).
  { intros m' (frame & E & Hin) q Hq. exists frame. split; [done|]. rewrite Hq. apply elem_of_app. by left. }
  destruct Hout as [->|[frame ->]].
  { destruct Hp. split; cbn [identity inbound state callback_started]; unfold sent_count, written in *; cbn [sent]; rewrite ?app_nil_r; done. }
  destruct Hp. split; cbn [identity inbound state callback_started]; try done.
  - intros E. by eapply Hw; [apply version_written0|].
  - intros E. by eapply Hw; [apply verack_written0|].
  - intros E. destruct (quiet_before0 E) as [Q1 Q2]. rewrite !sent_count_app. split.
    + rewrite count_other; [lia|]. intros Hc. destruct (Ha Hc). congruence.
    + intros Hs. rewrite count_other; [specialize (Q2 Hs); lia|]. intros Hc. destruct (Hv Hc) as [_ Hr]. specialize (Hr Hs). congruence.
  - rewrite sent_count_app. destruct (decide (command m = u "version")) as [Hc|Hc]; [destruct (Hv Hc) as [-> _]; apply count_le|].
    rewrite count_other by done. lia.
  - rewrite sent_count_app. destruct (decide (command m = u "verack")) as [Hc|Hc]; [destruct (Ha Hc) as [-> _]; apply count_le|].
    rewrite count_other by done. lia.
Qed.

Lemma send_ok log pending m p : session_ok log pending p -> may_send m p ->
  session_ok log pending (send_message send_failure m p).2 /\ state (send_message send_failure m p).2 = state p /\
  (command m ≠ u "verack" -> sent_count "verack" (send_message send_failure m p).2 = sent_count "verack" p) /\
  (is_ok (send_message send_failure m p).1 = true -> written m (send_message send_failure m p).2).
Proof.
  intros Hp Hm. destruct (send_run m p) as (out & w & -> & Hout & Hok). split; [by apply (write_ok _ _ _ m)|]. split; [done|]. split.
  - intros Hc. rewrite sent_count_app. destruct Hout as [->|[frame ->]]; [simpl; lia|]. rewrite count_other by done. lia.
  - intros E. destruct (Hok E) as (frame & Ef & ->). rewrite (identity_fixed _ _ _ Hp) in Ef. exists frame. split; [done|]. cbn [sent]. set_solver.
Qed.

Section operations.
Variable log : list arrival.
Variable pending : bool.

Abbreviation safe op := (keeps (session_ok log pending) (fun _ => True) op).

(** Sending anything but the messages of the handshake *)
Lemma safe_send m : command m ≠ u "version" -> command m ≠ u "verack" -> safe (send_message send_failure m).
Proof.
  intros Hv Ha p Hp. destruct (send_ok log pending m p Hp) as (H & _); [by split|]. by destruct (send_message send_failure m p) as [[[]|e] p'].
Qed.

Lemma safe_set_state f :
  (forall s, handshake_done s = true -> handshake_done (f s) = true) -> (forall s, handshake_complete (f s) = handshake_complete s) ->
  (forall s, version_received (f s) = version_received s) -> (forall s, remote_version (f s) = remote_version s) ->
  (forall s, version_sent (f s) = version_sent s) -> (forall s, verack_sent (f s) = verack_sent s) ->
  (forall s, verack_received (f s) = verack_received s) -> safe (set_state f).
Proof.
  intros Hd Hc Hv Hr Hs Ha Hk. apply keeps_modify. intros p []. split; cbn [state callback_started identity inbound]; rewrite ?Hc, ?Hv, ?Hr, ?Hs, ?Ha, ?Hk; auto.
Qed.

Lemma safe_waiters f : safe (set_waiters f).
Proof. apply keeps_modify. intros p []. by split. Qed.

Lemma safe_update : safe _update_handshake_state.
Proof.
  intros p Hp. unfold _update_handshake_state, sbind, set_state, modify. destruct Hp as [? ? Hc Hcb ? ? ? ? ? ? ?]. split; cbn; try done.
  intros E. apply orb_prop in E as [E|E]; [by apply Hcb|done].
Qed.

Lemma safe_verack m : command m = u "verack" -> arrived log m -> safe (do! set_state with_verack_received in _update_handshake_state).
Proof.
  intros Hm Hl. apply keeps_bind; [|intros _; apply safe_update]. apply keeps_modify. intros p [? ? Hc Hcb ? ? ? ? ? ? ?].
  assert (Hd : handshake_done (state p) = true -> handshake_done (with_verack_received (state p)) = true).
  { unfold handshake_done. cbn. by destruct (version_sent (state p)), (version_received (state p)), (verack_sent (state p)). }
  split; cbn [state callback_started identity inbound]; try done; auto. intros _. by exists m.
Qed.

Lemma safe_close reason error : safe (close reason error).
Proof.
  unfold close. apply keeps_bind; [apply keeps_gets|]. intros s. destruct (closed s); [apply keeps_ret|].
  apply keeps_bind; [by apply safe_set_state|]. intros _. apply safe_waiters.
Qed.

(** The flags that follow a write *)
Lemma version_flag_ok p : session_ok log pending p -> written (local_version me) p -> session_ok log pending (set_state with_version_sent p).2.
Proof.
  intros [? ? Hc Hcb ? ? ? ? ? ? ?] Hw. assert (Hd : handshake_done (state p) = true -> handshake_done (with_version_sent (state p)) = true).
  { unfold handshake_done. cbn. by destruct (version_sent (state p)). }
  split; cbn [set_state modify snd state callback_started identity inbound]; try done; auto.
Qed.

Lemma verack_flag_ok p : session_ok log pending p -> written verack p -> session_ok log pending (set_state with_verack_sent p).2.
Proof.
  intros [? ? Hc Hcb ? ? ? ? ? ? ?] Hw. assert (Hd : handshake_done (state p) = true -> handshake_done (with_verack_sent (state p)) = true).
  { unfold handshake_done. cbn. by destruct (version_sent (state p)), (version_received (state p)), (verack_sent (state p)). }
  split; cbn [set_state modify snd state callback_started identity inbound]; try done; auto.
Qed.

Lemma remote_version_ok v p : announced_network v = local_network me -> arrived log (mkMessage (u "version") (VersionPayload v)) ->
  session_ok log pending p -> session_ok log pending (set_state (with_remote_version v) p).2.
Proof.
  intros Hn Hl [? ? Hc Hcb ? ? ? ? ? ? ?].
  assert (Hd : handshake_done (state p) = true -> handshake_done (with_remote_version v (state p)) = true).
  { unfold handshake_done. cbn. by destruct (version_sent (state p)), (version_received (state p)). }
  split; cbn [set_state modify snd state callback_started identity inbound]; try done; auto. intros _. by exists v.
Qed.

(** The version of the side that answers, written while the peer's is handled *)
Lemma answer_version_ok p : session_ok log pending p -> sent_count "version" p = 0%nat -> version_received (state p) = true ->
  let '(r, q) := _send_version send_failure p in
  session_ok log pending q /\ version_received (state q) = true /\ sent_count "verack" q = sent_count "verack" p.
Proof.
  intros Hp H0 Hr. unfold _send_version, sbind at 1, gets, id. destruct (version_sent (state p)) eqn:Ev; [done|].
  destruct (send_ok log pending (local_version (identity p)) p Hp) as (Hq & Es & Hc & Hw); [by split|].
  unfold sbind. rewrite (identity_fixed _ _ _ Hp) in *. destruct (send_message send_failure (local_version me) p) as [[[]|e] q]; cbn [fst snd] in *.
  - pose proof (version_flag_ok q Hq (Hw eq_refl)) as Hq'. split; [exact Hq'|]. split; [cbn; by rewrite Es|].
    rewrite <- Hc by done. done.
  - split; [done|]. split; [by rewrite Es|]. by apply Hc.
Qed.

Lemma answer_verack_ok p : session_ok log pending p -> sent_count "verack" p = 0%nat -> version_received (state p) = true ->
  session_ok log pending ((if verack_sent (state p) then ret tt else do! send_message send_failure verack in set_state with_verack_sent) p).2.
Proof.
  intros Hp H0 Hr. destruct (verack_sent (state p)); [done|].
  destruct (send_ok log pending verack p Hp) as (Hq & Es & _ & Hw); [by split|]. unfold sbind.
  destruct (send_message send_failure verack p) as [[[]|e] q]; cbn [fst snd] in *; [|done]. exact (verack_flag_ok q Hq (Hw eq_refl)).
Qed.

Lemma safe_handle_version v : arrived log (mkMessage (u "version") (VersionPayload v)) -> safe (_handle_version send_failure v).
Proof.
  intros Hl p Hp. unfold _handle_version, sbind at 1, gets, id. unfold sbind at 1, lift at 1.
  destruct (version_received (state p)) eqn:Er; cbn [raise_if]; [done|].
  unfold sbind at 1, lift at 1. rewrite (identity_fixed _ _ _ Hp), (side_fixed _ _ _ Hp). case_bool_decide as Hn; cbn [negb raise_if]; [|done].
  destruct (quiet_before _ _ _ Hp Er) as [Q1 Q2]. pose proof (remote_version_ok v p Hn Hl Hp) as H1. unfold sbind at 1.
  destruct (set_state (with_remote_version v) p) as [r1 p1] eqn:E1. injection E1 as <- Ep. cbn [snd] in H1.
  assert (Hc1 : forall name, sent_count name p1 = sent_count name p) by (intros name; by rewrite <- Ep).
  assert (Hr1 : version_received (state p1) = true) by by rewrite <- Ep.
  assert (H2 : let '(r, q) := (if side then _send_version send_failure else ret tt) p1 in
               session_ok log pending q /\ version_received (state q) = true /\ sent_count "verack" q = 0%nat).
  { destruct side eqn:Hs.
    - pose proof (answer_version_ok p1 H1 (eq_trans (Hc1 _) (Q2 eq_refl)) Hr1) as H2.
      destruct (_send_version send_failure p1). destruct H2 as (? & ? & E). by rewrite Hc1, Q1 in E.
    - cbn. split; [done|]. split; [done|]. by rewrite Hc1. }
  unfold sbind at 1. destruct ((if side then _send_version send_failure else ret tt) p1) as [[[]|e] q]; destruct H2 as (Hq & Hrq & Hcq); [|done].
  unfold sbind at 1, gets. unfold sbind at 1. pose proof (answer_verack_ok q Hq Hcq Hrq) as H3.
  destruct ((if verack_sent (state q) then ret tt else do! send_message send_failure verack in set_state with_verack_sent) q) as [[[]|e] q']; cbn [snd] in H3; [exact (safe_update q' H3)|done].
Qed.

Lemma safe_record f : (forall p, identity (f p) = identity p /\ inbound (f p) = inbound p /\ state (f p) = state p /\
  callback_started (f p) = callback_started p /\ sent (f p) = sent p) -> safe (modify f).
Proof.
  intros Hf. apply keeps_modify. intros p []. destruct (Hf p) as (Ei & Eb & Es & Ec & Et).
  split; unfold sent_count, written in *; rewrite ?Ei, ?Eb, ?Es, ?Ec, ?Et; done.
Qed.

Lemma safe_handle_message m : arrived log m -> safe (handle_message send_failure m).
Proof.
  intros Hl. unfold handle_message. case_bool_decide as Hv.
  { destruct m as [name body]. cbn in Hv |- *. subst name. destruct body; first [by apply safe_handle_version|apply keeps_throw_any]. }
  case_bool_decide as Ha; [by eapply safe_verack|]. case_bool_decide.
  { apply keeps_bind; [apply keeps_lift_any|]. intros n. apply keeps_bind; [by apply safe_set_state|]. intros _. by apply safe_send. }
  case_bool_decide; [|by apply safe_record].
  apply keeps_bind; [apply keeps_lift_any|]. intros n. apply keeps_bind; [by apply safe_set_state|]. intros _. apply safe_record. intros p. by case_bool_decide.
Qed.

Lemma safe_body frame : Frame frame ∈ log -> safe (reader_body send_failure (Frame frame)).
Proof.
  intros Hl p Hp. unfold reader_body, sbind, asks. rewrite (identity_fixed _ _ _ Hp).
  destruct (decode_message (network_magic me) frame) as [m|e] eqn:Hd; [|done]. apply safe_handle_message; [by exists frame|done].
Qed.

Lemma safe_reader a : a ∈ log -> safe (reader_turn send_failure a).
Proof.
  intros Hl p Hp. unfold reader_turn, sbind at 1, gets at 1, id at 1. destruct (closed (state p) || _); [done|].
  assert (Hb : safe (attempt
    (attempt (reader_body send_failure a) [TransportTimeoutError]
       (fun e => let! s := gets state in if handshake_complete s && negb (closed s) then set_state (with_error (exn_msg e)) else close (Some (exn_msg e)) (Some e)))
    [P2PError; TransportError] (fun e => close (Some (exn_msg e)) (Some e)))).
  { apply keeps_attempt; [apply keeps_attempt|].
    - destruct a as [frame|e]; [by apply safe_body|apply keeps_lift_any].
    - intros e _. apply keeps_bind; [apply keeps_gets|]. intros s. destruct (_ && _); [by apply safe_set_state|apply safe_close].
    - intros e _. apply safe_close. }
  specialize (Hb p Hp). revert Hb. match goal with |- context [attempt ?a ?b ?c p] => destruct (attempt a b c p) as [[[]|e] p'] end; intros Hb; [exact Hb|].
  destruct Hb as [[] _]. by split.
Qed.

Lemma session_kept {A} (op : session A) p : safe op -> session_ok log pending p -> session_ok log pending (op p).2.
Proof. intros Ho Hp. specialize (Ho p Hp). destruct (op p) as [[a|e] q]; [done|by destruct Ho]. Qed.
End operations.

(** What happens to a session, with what its reader was given so far.  The side that
    connects writes its version once, when it starts; the reader may run before that
    write returns and its flag is set, which is what [pending] stands for. *)
Inductive session_run : bool -> list arrival -> PeerProtocol -> Prop :=
| session_accepted : side = true -> session_run false [] (new_session me side)
| session_starts r p : side = false -> send_message send_failure (local_version me) (new_session me side) = (r, p) -> session_run (is_ok r) [] p
| session_started log p : session_run true log p -> session_run false log (set_state with_version_sent p).2
| session_start_returns b log p event : session_run b log p -> session_run b log (start_outcome event p).2
| session_reads b log p a : session_run b log p -> session_run b (log ++ [a]) (reader_turn send_failure a p).2
| session_pings b log p n : session_run b log p -> session_run b log (ping send_failure n p).2
| session_ping_expires b log p n : session_run b log p -> session_run b log (ping_timeout n p).2
| session_closes b log p reason error : session_run b log p -> session_run b log (close reason error p).2.

Lemma new_session_ok : session_ok [] false (new_session me side).
Proof. split; try done; cbn; lia. Qed.

Lemma pending_ok log p : session_ok log false p -> written (local_version me) p -> session_ok log true p.
Proof. by intros []. Qed.

Lemma session_run_ok b log p : session_run b log p -> session_ok log b p.
Proof.
  induction 1 as [Hs|r p Hs E|log p _ IH|b log p event _ IH|b log p a _ IH|b log p n _ IH|b log p n _ IH|b log p reason error _ IH].
  - apply new_session_ok.
  - destruct (send_ok [] false (local_version me) _ new_session_ok) as (Hp & _ & _ & Hw); [by split; [split; [done|congruence]|]|].
    rewrite E in Hp, Hw. cbn [fst snd] in *. destruct (is_ok r); [apply pending_ok; auto|done].
  - assert (Hw : written (local_version me) p) by by apply (version_written _ _ _ IH). pose proof (version_flag_ok _ _ p IH Hw) as H. by destruct H.
  - apply session_kept; [|done]. unfold start_outcome. apply keeps_bind; [apply keeps_gets|]. intros s. destruct (handshake_complete s); [apply keeps_ret|].
    destruct event; [apply keeps_ret|destruct (last _); [apply keeps_lift_any|apply keeps_throw_any]|].
    apply keeps_bind; [apply safe_close|]. intros []. apply keeps_throw_any.
  - apply session_kept; [apply safe_reader; set_solver|by apply session_log_more].
  - apply session_kept; [|done]. unfold ping. apply keeps_bind; [apply keeps_gets|]. intros s. apply keeps_bind; [apply keeps_lift_any|]. intros [].
    apply keeps_bind; [apply safe_waiters|]. intros []. by apply safe_send.
  - apply session_kept; [|done]. unfold ping_timeout. apply keeps_bind; [apply safe_waiters|]. intros []. apply keeps_throw_any.
  - apply session_kept; [apply safe_close|done].
Qed.

(** C22: Whatever a peer sends and whenever writes fail, a session counts the handshake as
    complete, and starts what follows it, only when a frame it was given decodes to
    the peer's version, for the session's own network, and one to an acknowledgement,
    and when frames of its own version and of its acknowledgement were written; the
    version it keeps is the one that arrived, and it writes each of the two at most
    once, failed writes included. *)
Theorem handshake_sound (pending : bool) (log : list arrival) (p : PeerProtocol) :
  session_run pending log p ->
  (handshake_complete (state p) = true \/ callback_started p = true ->
     (exists v, remote_version (state p) = Some v /\ announced_network v = local_network me /\
        arrived log (mkMessage (u "version") (VersionPayload v))) /\
     (exists m, command m = u "verack" /\ arrived log m) /\
     written (local_version me) p /\ written verack p) /\
  (sent_count "version" p <= 1)%nat /\ (sent_count "verack" p <= 1)%nat.
Proof.
  intros Hp%session_run_ok. split; [|split; [exact (versions_sent _ _ _ Hp)|exact (veracks_sent _ _ _ Hp)]].
  destruct Hp as [_ _ Hc Hcb Hv Ha Hvw Haw _ _ _].
  intros Hd. assert (Hdone : handshake_done (state p) = true) by (destruct Hd; auto). unfold handshake_done in Hdone.
  apply andb_prop in Hdone as [Hdone H4]. apply andb_prop in Hdone as [Hdone H3]. apply andb_prop in Hdone as [H1 H2].
  split; [by apply Hv|]. split; [by apply Ha|]. split; [|by apply Haw]. apply Hvw. by rewrite H1, orb_true_r.
Qed.
End session.

(** ** Two peers *)

(** A transport that does not fail *)
Definition reliable (n : nat) : option exn := None.

Lemma reader_handles send_failure p frame m p' :
  closed (state p) = false -> reader_failure p = None -> decode_message (network_magic (identity p)) frame = Ok m ->
  handle_message send_failure m p = (Ok tt, p') -> reader_turn send_failure (Frame frame) p = (Ok tt, p').
Proof.
  intros Hc Hf Hd Hh. unfold reader_turn, sbind at 1, gets at 1, id. rewrite Hc, Hf. cbn [orb]. rewrite bool_decide_false by (by intros [? ?]).
  unfold attempt at 1 2. unfold reader_body, sbind at 1, asks. rewrite Hd, Hh. done.
Qed.

Lemma verack_frame magic : len magic = 4 -> exists frame, encode_message magic verack = Ok frame /\ len frame = 24.
Proof.
  intros Hm. unfold encode_message. rewrite Hm. cbn [Z.eqb negb raise_if rbind Pos.eqb].
  change (_encode_payload verack) with (@Ok bytes []). cbn [rbind].
  destruct (_encode_command (command verack)) as [name|] eqn:En; [|vm_compute in En; discriminate]. cbn [rbind].
  destruct (pack 4 (len (A := Init.Byte.byte) [])) as [size|] eqn:Es; [|vm_compute in Es; discriminate]. cbn [rbind].
  eexists. split; [reflexivity|]. assert (Hn : len name = 12) by (vm_compute in En; injection En as <-; reflexivity).
  rewrite !len_app, checksum_length, (pack_length _ _ _ Es), Hm, Hn. reflexivity.
Qed.

(** The session of the side that connects after it has started, the frames a session
    has written, and what becomes of a session that reads frames *)
Definition caller (a : LocalPeerIdentity) : PeerProtocol := (start_session reliable (new_session a false)).2.
Definition frames_of (p : PeerProtocol) : list bytes := (sent p).*2.
Definition reads (frames : list bytes) (p : PeerProtocol) : PeerProtocol :=
  foldl (fun p frame => (reader_turn reliable (Frame frame) p).2) p frames.

Lemma send_reliable m frame p : encode_message (network_magic (identity p)) m = Ok frame -> len frame <= FRAME_HEADER_SIZE + MAX_P2P_FRAME_PAYLOAD_SIZE ->
  send_message reliable m p = (Ok tt, mkProtocol (identity p) (inbound p) (state p) (_pong_waiters p) (answered p) (callback_started p) (reader_failure p)
    (sent p ++ [(m, frame)]) (S (writes p)) (delivered p)).
Proof.
  intros E Hl. unfold send_message, sbind, asks. rewrite E. unfold transport_send. rewrite (proj2 (Z.ltb_ge _ _)) by done. done.
Qed.

Lemma sbind_eq {A B} (m : session A) (k : A -> session B) p a p' r : m p = (Ok a, p') -> k a p' = r -> sbind m k p = r.
Proof. intros Hm Hk. unfold sbind. by rewrite Hm. Qed.

(** Nothing is left to say but the acknowledgement. *)
Ltac answer_verack Ev Lv := eapply sbind_eq; [reflexivity|]; eapply sbind_eq; [reflexivity|];
  eapply sbind_eq; [eapply sbind_eq; [refine (send_reliable _ _ _ _ Lv); exact Ev|reflexivity]|].

(** The answer to the peer's version *)
Lemma version_answered p v fl fv :
  version_received (state p) = false -> announced_network v = local_network (identity p) -> verack_sent (state p) = false ->
  encode_message (network_magic (identity p)) (local_version (identity p)) = Ok fl -> len fl <= FRAME_HEADER_SIZE + MAX_P2P_FRAME_PAYLOAD_SIZE ->
  encode_message (network_magic (identity p)) verack = Ok fv -> len fv <= FRAME_HEADER_SIZE + MAX_P2P_FRAME_PAYLOAD_SIZE ->
  exists w, _handle_version reliable v p = (Ok tt, mkProtocol (identity p) (inbound p)
    (mkSession (version_sent (state p) || inbound p) true true (verack_received (state p)) ((version_sent (state p) || inbound p) && verack_received (state p))
       (closed (state p)) (Some v) (last_ping_nonce (state p)) (last_pong_nonce (state p)) (errors (state p)) (error_causes (state p)))
    (_pong_waiters p) (answered p) (callback_started p || ((version_sent (state p) || inbound p) && verack_received (state p))) (reader_failure p)
    (sent p ++ (if inbound p && negb (version_sent (state p)) then [(local_version (identity p), fl)] else []) ++ [(verack, fv)]) w (delivered p)).
Proof.
  destruct p as [me side [vs vr as_ ar hc cl rv lp lq er ec] ws an cb rf st wr dl]. cbn [state version_received identity verack_sent inbound version_sent verack_received closed
    last_ping_nonce last_pong_nonce errors error_causes _pong_waiters answered callback_started reader_failure sent delivered].
  intros -> Hn -> El Ll Ev Lv. unfold _handle_version.
  destruct side, vs; eexists; (eapply sbind_eq; [reflexivity|]; eapply sbind_eq; [reflexivity|];
    eapply sbind_eq; [cbn [identity id]; by rewrite (bool_decide_true _ Hn)|]; eapply sbind_eq; [reflexivity|]; cbn [inbound id]).
  - answer_verack Ev Lv. reflexivity.
  - eapply sbind_eq; [unfold _send_version; eapply sbind_eq; [reflexivity|]; eapply sbind_eq; [refine (send_reliable _ fl _ _ Ll); exact El|reflexivity]|].
    eapply sbind_eq; [reflexivity|]. eapply sbind_eq; [eapply sbind_eq; [refine (send_reliable _ fv _ _ Lv); exact Ev|reflexivity]|]. cbn. rewrite <- app_assoc. reflexivity.
  - answer_verack Ev Lv. reflexivity.
  - answer_verack Ev Lv. reflexivity.
Qed.

(** What a session that is still open becomes when the peer's version and
    acknowledgement arrive *)
Definition version_of (c : LocalPeerIdentity) : VersionMessage :=
  mkVersion (local_protocol_version c) (local_network c) (local_node_id c) (local_start_height c) (local_user_agent c) (local_relay c).

Lemma reads_version p c f : closed (state p) = false -> reader_failure p = None -> decode_message (network_magic (identity p)) f = Ok (local_version c) ->
  forall p', _handle_version reliable (version_of c) p = (Ok tt, p') -> reads [f] p = p'.
Proof. intros Hc Hf Hd p' Hh. unfold reads. cbn [foldl]. by rewrite (reader_handles _ _ _ _ p' Hc Hf Hd Hh). Qed.

Lemma reads_verack p f : closed (state p) = false -> reader_failure p = None -> decode_message (network_magic (identity p)) f = Ok verack ->
  reads [f] p = (handle_message reliable verack p).2.
Proof.
  intros Hc Hf Hd. unfold reads. cbn [foldl]. destruct (handle_message reliable verack p) as [r q] eqn:E.
  assert (r = Ok tt) as -> by (injection E as <- _; reflexivity). by rewrite (reader_handles _ _ _ _ q Hc Hf Hd E).
Qed.

Lemma reads_cons f fs p : reads (f :: fs) p = reads fs (reads [f] p).
Proof. done. Qed.

(** C23: Two peers of one network that can encode their versions complete the handshake:
    the side that connects speaks first, the other answers with its version and its
    acknowledgement, the first acknowledges, and both then know each other. *)
Theorem handshake_completes (a b : LocalPeerIdentity) (fa fb : bytes) :
  local_network a = local_network b -> network_magic a = network_magic b ->
  encode_message (network_magic a) (local_version a) = Ok fa -> len fa <= FRAME_HEADER_SIZE + MAX_P2P_FRAME_PAYLOAD_SIZE ->
  encode_message (network_magic b) (local_version b) = Ok fb -> len fb <= FRAME_HEADER_SIZE + MAX_P2P_FRAME_PAYLOAD_SIZE ->
  exists ab ba, frames_of (caller a) = [fa] /\
    frames_of (reads [fa] (new_session b true)) = ba /\ frames_of (reads ba (caller a)) = fa :: ab /\
    handshake_complete (state (reads ba (caller a))) = true /\
    handshake_complete (state (reads ab (reads [fa] (new_session b true)))) = true /\
    remote_version (state (reads ba (caller a))) = Some (version_of b) /\
    remote_version (state (reads ab (reads [fa] (new_session b true)))) = Some (version_of a).
Proof.
  intros Hnet Hmag Ea La Eb Lb. assert (Hm : len (network_magic a) = 4) by by apply frame_parts in Ea as (? & ? & ? & _ & _ & _ & _ & ? & _).
  destruct (verack_frame _ Hm) as (fv & Ev & Lv). assert (Lv' : len fv <= FRAME_HEADER_SIZE + MAX_P2P_FRAME_PAYLOAD_SIZE) by (rewrite Lv; vm_compute; discriminate).
  pose proof (message_canonical _ _ _ Ea) as Da. pose proof (message_canonical _ _ _ Eb) as Db. pose proof (message_canonical _ _ _ Ev) as Dv.
  change (canonical_message (local_version a)) with (local_version a) in Da. change (canonical_message (local_version b)) with (local_version b) in Db.
  change (canonical_message verack) with verack in Dv. pose proof Ev as Ev'. rewrite Hmag in Ev'.
  destruct (version_answered (new_session b true) (version_of a) fb fv eq_refl Hnet eq_refl Eb Lb Ev' Lv') as (w & Hb).
  assert (Hb1 := reads_version (new_session b true) a fa eq_refl eq_refl ltac:(cbn [new_session identity]; rewrite <- Hmag; exact Da) _ Hb).
  rewrite Hb1. cbn [frames_of sent new_session app fmap list_fmap snd].
  assert (Hp1 : caller a = mkProtocol a false (mkSession true false false false false false None None None [] []) [] [] false None [(local_version a, fa)] 1 []).
  { unfold caller, start_session, sbind at 1, gets. cbn [inbound new_session id]. unfold _send_version, sbind at 1, gets. cbn [version_sent state new_session id].
    unfold sbind. rewrite (send_reliable _ fa) by done. done. }
  rewrite Hp1. exists [fv], [fb; fv]. rewrite (reads_cons fb).
  match goal with |- context [reads [fb] ?p] => 
    destruct (version_answered p (version_of b) fa fv eq_refl (eq_sym Hnet) eq_refl Ea La Ev Lv') as (w' & Ha);
    rewrite (reads_version p b fb eq_refl eq_refl ltac:(cbn [identity]; rewrite Hmag; exact Db) _ Ha) end.
  rewrite reads_verack by (try reflexivity; exact Dv). rewrite (reads_verack _ fv) by (try reflexivity; cbn [identity new_session]; rewrite <- Hmag; exact Dv).
  split_and!; reflexivity.
Qed.

(** ** A payload the codec does not recognise as malformed *)

(** A frame with a header in order that announces a transaction of no bytes *)
Definition empty_tx_frame (magic : bytes) : bytes :=
  magic ++ ((byte.of_Z <$> u "tx") ++ replicate 10 zero_byte) ++ replicate 4 zero_byte ++ checksum [] ++ [].

Lemma empty_tx_refused magic : len magic = 4 -> exists e, decode_message magic (empty_tx_frame magic) = Raise e /\ exn_cls e = StructError.
Proof.
  intros Hm. unfold empty_tx_frame. rewrite (decode_frame _ _ _ _ _ (u "tx")) by (done || apply checksum_length || (vm_compute; reflexivity)).
  rewrite bool_decide_true by done. cbn [negb raise_if rbind]. destruct (_decode_payload (u "tx") []) as [m|e] eqn:E; vm_compute in E; [discriminate|].
  injection E as <-. eexists. split; reflexivity.
Qed.

Lemma reader_stops send_failure p frame e : closed (state p) = false -> reader_failure p = None ->
  decode_message (network_magic (identity p)) frame = Raise e -> existsb (isinstance (exn_cls e)) [TransportTimeoutError; P2PError; TransportError] = false ->
  reader_turn send_failure (Frame frame) p = (Ok tt, mkProtocol (identity p) (inbound p) (state p) (_pong_waiters p) (answered p) (callback_started p)
    (Some e) (sent p) (writes p) (delivered p)).
Proof.
  intros Hc Hf He Hcls. apply orb_false_elim in Hcls as [Ht Hp]. unfold reader_turn, sbind at 1, gets at 1, id. rewrite Hc, Hf. cbn [orb].
  rewrite bool_decide_false by (by intros [? ?]). unfold attempt at 1 2. unfold reader_body, sbind at 1, asks. rewrite He.
  assert (Ht' : existsb (isinstance (exn_cls e)) [TransportTimeoutError] = false) by (cbn [existsb]; by rewrite Ht).
  rewrite Ht'. change (existsb (isinstance (exn_cls e)) [P2PError; TransportError] = false) in Hp. rewrite Hp. done.
Qed.

(** C33: An exception of the codec that is not a peer-to-peer error ends the reader for good
    and leaves the session open: after such a frame every open session that was
    being read is neither closed nor ever reads again. *)
Theorem undecodable_payload_stops_reader (send_failure : nat -> option exn) (p : PeerProtocol) (arrivals : list arrival) :
  len (network_magic (identity p)) = 4 -> closed (state p) = false -> reader_failure p = None ->
  let p' := foldl (fun p a => (reader_turn send_failure a p).2) p (Frame (empty_tx_frame (network_magic (identity p))) :: arrivals) in
  state p' = state p /\ (exists e, reader_failure p' = Some e /\ exn_cls e = StructError) /\ delivered p' = delivered p /\ sent p' = sent p.
Proof.
  intros Hm Hc Hf. destruct (empty_tx_refused _ Hm) as (e & He & Hcls). cbv zeta. cbn [foldl].
  rewrite (reader_stops _ _ _ e Hc Hf He) by (rewrite Hcls; reflexivity). cbn [snd]. set (p1 := mkProtocol _ _ _ _ _ _ _ _ _ _).
  assert (Hp1 : state p1 = state p /\ reader_failure p1 = Some e /\ delivered p1 = delivered p /\ sent p1 = sent p) by done.
  destruct Hp1 as (Hs & Hfail & Hd). assert (Hstay : foldl (fun p a => (reader_turn send_failure a p).2) p1 arrivals = p1).
  { clearbody p1. induction arrivals as [|a l IH]; [done|]. cbn [foldl]. rewrite <- IH at 2. f_equal.
    unfold reader_turn, sbind at 1, gets at 1, id. rewrite Hfail. rewrite bool_decide_true by eauto. by rewrite orb_true_r. }
  rewrite Hstay. split; [done|]. split; [by exists e|done].
Qed.
