(* ===== verification/Wallet.v ===== *)
(** * The wallet ([wallet/models.py], [wallet/selection.py], [wallet/signer.py])

    Coin selection, the construction and signing of payments, of the transactions of
    the node registry and of reward attestations.  The signing primitives are those
    of [Crypto]; [entropy] is what the library draws for each signature. *)

From S2P Require Import Prelude PyOrder PyText Hashes Params Models Serialization Registry Crypto Addresses Json Settlement Nodes Utxo Validation.

Record SpendCandidate : Type := mkCandidate {
  candidate_txid : str;
  candidate_index : Z;
  amount_chipbits : Z;
  candidate_recipient : str;
}.

Record WalletKey : Type := mkWalletKey {
  wallet_private_key : bytes;
  wallet_public_key : bytes;
  wallet_address : str;
  wallet_compressed : bool;
  wallet_scheme_id : Z;
  wallet_scheme_name : string;
  wallet_address_kind : string;
  private_seed : option bytes;
}.

Record SelectionResult : Type := mkSelection {
  selected : list SpendCandidate;
  total_input_chipbits : Z;
  change_chipbits : Z;
}.

Record BuiltTransaction : Type := mkBuilt {
  transaction : Transaction;
  built_fee_chipbits : Z;
  built_change_chipbits : Z;
}.

(** ** Selection *)

Definition candidate_key (c : SpendCandidate) : Z * (str * Z) := (amount_chipbits c, (candidate_txid c, candidate_index c)).

(** The loop over the ordered candidates *)
Fixpoint selection_loop (target : Z) (chosen : list SpendCandidate) (total : Z) (ordered : list SpendCandidate) : res SelectionResult :=
  match ordered with
  | [] => raise ValueError "Insufficient spendable balance for the requested amount and fee."
  | c :: rest =>
      let chosen := chosen ++ [c] in
      let total := total + amount_chipbits c in
      if target <=? total then Ok (mkSelection chosen total (total - target)) else selection_loop target chosen total rest
  end.

Definition select_inputs (candidates : list SpendCandidate) (target_value : Z) : res SelectionResult :=
  raise_if (target_value <=? 0) ValueError "Target value must be positive." ;;
  selection_loop target_value [] 0 (sorted_by candidate_key candidates).

Section signer.
Context `{CryptoBackend}.

(** ** Keys *)

Definition wallet_key_from_private_key (private_key : bytes) (compressed : bool) : res WalletKey :=
  let* pubkey := derive_public_key private_key compressed in
  let* address := public_key_to_address pubkey in
  Ok (mkWalletKey private_key pubkey address compressed SIG_SCHEME_LEGACY_ECDSA "secp256k1-ecdsa" "legacy" None).

Definition wallet_key_from_mldsa44_seed (seed : bytes) : res WalletKey :=
  let* scheme := get_signature_scheme SIG_SCHEME_ML_DSA_44 in
  let* '(private_material, pubkey) := scheme_derive_keypair scheme seed in
  let* address := public_key_to_pq_address pubkey SIG_SCHEME_ML_DSA_44 in
  Ok (mkWalletKey private_material pubkey address false SIG_SCHEME_ML_DSA_44 (scheme_name scheme) "pq" (Some seed)).

(** [secrets.token_bytes] as what the generator yields *)
Definition generate_wallet_key (candidates : list bytes) (token : bytes) (compressed : bool) (scheme : str) : option (res WalletKey) :=
  if bool_decide (scheme ∈ [u "secp256k1"; u "ecdsa"; u "legacy"]) then
    private_key ← generate_private_key candidates; Some (wallet_key_from_private_key private_key compressed)
  else if bool_decide (scheme = u "mldsa44") then Some (wallet_key_from_mldsa44_seed token)
  else Some (raise ValueError "Unsupported wallet signature scheme").

(** ** Signing *)

Variable wallet_key : WalletKey.

Definition sign (entropy digest : bytes) : res bytes :=
  if wallet_scheme_id wallet_key =? SIG_SCHEME_ML_DSA_44 then
    let* scheme := get_signature_scheme (wallet_scheme_id wallet_key) in
    let seed := match private_seed wallet_key with Some (x :: s) => x :: s | _ => wallet_private_key wallet_key end in
    scheme_sign scheme seed digest
  else sign_digest (wallet_private_key wallet_key) digest entropy.

Definition unsigned_input (c : SpendCandidate) : TxInput :=
  mkTxInput (mkOutPoint (candidate_txid c) (candidate_index c)) [] [] 0xFFFFFFFF (wallet_scheme_id wallet_key).

(** The transaction before it is signed *)
Definition unsigned_transaction (selection : SelectionResult) (to change_recipient : str) (amount locktime : Z) (metadata : gmap str str) : Transaction :=
  mkTransaction (if wallet_scheme_id wallet_key =? SIG_SCHEME_LEGACY_ECDSA then 1 else 2)
    (unsigned_input <$> selected selection)
    (mkTxOutput amount to :: if 0 <? change_chipbits selection then [mkTxOutput (change_chipbits selection) change_recipient] else [])
    locktime metadata.

Definition signed_input (entropy : Z -> bytes) (net : str) (unsigned : Transaction) (index_candidate : Z * SpendCandidate) : res TxInput :=
  let '(input_index, c) := index_candidate in
  raise_if (negb (bool_decide (candidate_recipient c = wallet_address wallet_key))) ValueError
    "Spend candidate recipient does not belong to this wallet key." ;;
  let* digest := transaction_signature_digest unsigned input_index (mkTxOutput (amount_chipbits c) (candidate_recipient c)) net in
  let* sig := sign (entropy input_index) digest in
  Ok (mkTxInput (previous_output (unsigned_input c)) sig (wallet_public_key wallet_key) (sequence (unsigned_input c)) (wallet_scheme_id wallet_key)).

Definition build_signed_transaction (entropy : Z -> bytes) (spend_candidates : list SpendCandidate) (to : str) (amount fee : Z)
    (change_recipient : option str) (locktime : Z) (metadata : option (gmap str str)) (net : str) : res BuiltTransaction :=
  raise_if (amount <=? 0) ValueError "Amount must be positive." ;;
  raise_if (fee <? 0) ValueError "Fee cannot be negative." ;;
  let* valid := is_valid_address to in
  raise_if (negb valid) ValueError "Recipient must be a valid Chipcoin address." ;;
  let resolved_change_recipient := match change_recipient with None => wallet_address wallet_key | Some r => r end in
  let* valid := is_valid_address resolved_change_recipient in
  raise_if (negb valid) ValueError "Change recipient must be a valid Chipcoin address." ;;
  let* selection := select_inputs spend_candidates (amount + fee) in
  let unsigned := unsigned_transaction selection to resolved_change_recipient amount locktime
                    (match metadata with None => ∅ | Some m => m end) in
  let* signed_inputs := mapM (signed_input entropy net unsigned) (enumerate (selected selection)) in
  Ok (mkBuilt (mkTransaction (version unsigned) signed_inputs (outputs unsigned) (Models.locktime unsigned) (Models.metadata unsigned))
        fee (change_chipbits selection)).

(** ** Registry transactions *)

Definition special_transaction (metadata : gmap str str) : Transaction := mkTransaction 1 [] [] 0 metadata.

Definition _sign_special_node_metadata (entropy : bytes) (metadata : gmap str str) (net : str) (height : Z) : res Transaction :=
  let required_version := special_node_signature_version_for_height net height in
  let v2 := bool_decide (required_version = SPECIAL_NODE_SIGNATURE_VERSION_V2) in
  let signed_metadata :=
    if v2 then <[u "owner_signature_network" := net]> (<[u "owner_signature_version" := SPECIAL_NODE_SIGNATURE_VERSION_V2]> metadata) else metadata in
  let* digest := if v2 then special_node_transaction_signature_digest_v2 (special_transaction signed_metadata) net
                 else special_node_transaction_signature_digest (special_transaction signed_metadata) in
  let* sig := sign entropy digest in
  Ok (special_transaction (<[u "owner_signature_hex" := hex sig]> signed_metadata)).

Definition check_node_id (node_id : str) : res unit := raise_if (bool_decide (node_id = [])) ValueError "Node id must not be empty.".
Definition check_payout (payout : str) : res unit :=
  let* valid := is_valid_address payout in raise_if (negb valid) ValueError "Payout address must be a valid CHC address.".

Definition build_register_node_transaction (entropy : bytes) (node_id payout : str) (net : str) (height : Z) : res Transaction :=
  check_node_id node_id ;;
  check_payout payout ;;
  let* owner := serialize_public_key_hex (wallet_public_key wallet_key) in
  _sign_special_node_metadata entropy
    (list_to_map [(u "kind", u "register_node"); (u "node_id", node_id); (u "payout_address", payout);
                  (u "owner_pubkey_hex", owner); (u "owner_signature_hex", [])]) net height.

Definition build_renew_node_transaction (entropy : bytes) (node_id : str) (renewal_epoch : Z) (net : str) (height : Z) : res Transaction :=
  check_node_id node_id ;;
  let* owner := serialize_public_key_hex (wallet_public_key wallet_key) in
  _sign_special_node_metadata entropy
    (list_to_map [(u "kind", u "renew_node"); (u "node_id", node_id); (u "renewal_epoch", py_str_int renewal_epoch);
                  (u "owner_pubkey_hex", owner); (u "owner_signature_hex", [])]) net height.

Definition build_register_reward_node_transaction (entropy : bytes) (node_id payout node_public_key_hex declared_host : str)
    (declared_port registration_fee_chipbits : Z) (net : str) (height : Z) : res Transaction :=
  check_node_id node_id ;;
  check_payout payout ;;
  raise_if (bool_decide (node_public_key_hex = [])) ValueError "Node public key hex must not be empty." ;;
  let* owner := serialize_public_key_hex (wallet_public_key wallet_key) in
  _sign_special_node_metadata entropy
    (list_to_map [(u "kind", u "register_reward_node"); (u "node_id", node_id); (u "payout_address", payout);
                  (u "node_pubkey_hex", node_public_key_hex); (u "declared_host", declared_host); (u "declared_port", py_str_int declared_port);
                  (u "registration_fee_chipbits", py_str_int registration_fee_chipbits);
                  (u "owner_pubkey_hex", owner); (u "owner_signature_hex", [])]) net height.

Definition build_renew_reward_node_transaction (entropy : bytes) (node_id : str) (renewal_epoch : Z) (declared_host : str)
    (declared_port renewal_fee_chipbits : Z) (net : str) (height : Z) : res Transaction :=
  check_node_id node_id ;;
  let* owner := serialize_public_key_hex (wallet_public_key wallet_key) in
  _sign_special_node_metadata entropy
    (list_to_map [(u "kind", u "renew_reward_node"); (u "node_id", node_id); (u "renewal_epoch", py_str_int renewal_epoch);
                  (u "declared_host", declared_host); (u "declared_port", py_str_int declared_port);
                  (u "renewal_fee_chipbits", py_str_int renewal_fee_chipbits);
                  (u "owner_pubkey_hex", owner); (u "owner_signature_hex", [])]) net height.

Definition sign_reward_attestation (entropy : bytes) (a : RewardAttestation) : res RewardAttestation :=
  let* digest := reward_attestation_signature_digest a in
  let* sig := sign entropy digest in
  Ok (mkAttestation (epoch_index a) (check_window_index a) (candidate_node_id a) (verifier_node_id a) (result_code a)
        (observed_sync_gap a) (endpoint_commitment a) (concentration_key a) (hex sig)).
End signer.
