(* ===== verification/WalletFacts.v ===== *)
(** * Wallet transactions are accepted

    Selection takes the shortest run of the smallest candidates that covers the
    target; a payment built from the wallet's own mature outputs passes the
    validation rules with exactly the fee asked for; and the registry transactions a
    wallet signs carry a signature that verifies for the network and height asked. *)

From S2P Require Import Prelude PyOrder PyText Hashes Params Models Serialization Registry Crypto Addresses Json Settlement Nodes Utxo Validation ValidationFacts Wallet.

(** ** Selection *)

Definition candidates_total (cs : list SpendCandidate) : Z := zsum (amount_chipbits <$> cs).

Lemma candidates_total_app l1 l2 : candidates_total (l1 ++ l2) = candidates_total l1 + candidates_total l2.
Proof. unfold candidates_total. by rewrite fmap_app, zsum_app. Qed.

Lemma selection_loop_spec target chosen ordered : candidates_total chosen < target ->
  match selection_loop target chosen (candidates_total chosen) ordered with
  | Ok s => exists more last rest, ordered = more ++ last :: rest /\ selected s = chosen ++ more ++ [last] /\
      candidates_total (chosen ++ more) < target <= candidates_total (selected s) /\
      total_input_chipbits s = candidates_total (selected s) /\ change_chipbits s = candidates_total (selected s) - target
  | Raise e => exn_cls e = ValueError /\ candidates_total (chosen ++ ordered) < target
  end.
Proof.
  revert chosen. induction ordered as [|c l IH]; intros chosen Hc; cbn [selection_loop].
  { simpl. by rewrite app_nil_r. }
  assert (Hs : candidates_total (chosen ++ [c]) = candidates_total chosen + amount_chipbits c)
    by (rewrite candidates_total_app; unfold candidates_total at 2; simpl; lia).
  rewrite <- Hs. destruct (Z.leb_spec target (candidates_total (chosen ++ [c]))) as [Ht|Ht].
  - exists [], c, l. cbn [selected total_input_chipbits change_chipbits app]. rewrite app_nil_r. done.
  - specialize (IH (chosen ++ [c]) Ht). destruct (selection_loop _ _ _ l) as [s|e].
    + destruct IH as (more & last & rest & -> & Hsel & Hsum & Htot & Hch). exists (c :: more), last, rest.
      rewrite <- app_assoc in Hsel, Hsum. done.
    + by rewrite <- app_assoc in IH.
Qed.

Definition selection_spec (candidates : list SpendCandidate) (target : Z) (r : res SelectionResult) : Prop :=
  match r with
  | Ok s => 0 < target /\ exists more last rest, sorted_by candidate_key candidates = selected s ++ rest /\ selected s = more ++ [last] /\
      candidates_total more < target <= candidates_total (selected s) /\
      total_input_chipbits s = candidates_total (selected s) /\ change_chipbits s = candidates_total (selected s) - target
  | Raise e => exn_cls e = ValueError /\ (target <= 0 \/ candidates_total candidates < target)
  end.

Lemma select_inputs_spec candidates target : selection_spec candidates target (select_inputs candidates target).
Proof.
  unfold selection_spec, select_inputs. destruct (Z.leb_spec target 0) as [Ht|Ht]; cbn [raise_if rbind]; [split; [done|by left]|].
  pose proof (selection_loop_spec target [] (sorted_by candidate_key candidates)) as Hl. change (candidates_total []) with 0 in Hl.
  specialize (Hl Ht). destruct (selection_loop _ _ _ _) as [s|e].
  - destruct Hl as (more & last & rest & Ho & Hsel & Hsum). split; [done|]. exists more, last, rest.
    rewrite Hsel, Ho. cbn [app]. rewrite <- app_assoc. rewrite Hsel in Hsum. done.
  - destruct Hl as [He Hl]. split; [done|]. right. unfold candidates_total in *. cbn [app] in Hl.
    by rewrite <- (zsum_Permutation _ _ (fmap_Permutation _ _ _ (sorted_by_Permutation candidate_key candidates))).
Qed.

(** Selection returns the shortest prefix of the candidates, smallest first, that
    covers the target, with its total and the change; it fails only when the target
    is not positive or all the candidates together do not reach it; and the order in
    which candidates with distinct keys are listed does not change the result. *)
Theorem selection_minimal (candidates : list SpendCandidate) (target : Z) :
  selection_spec candidates target (select_inputs candidates target) /\
  forall candidates', (forall x y, x ∈ candidates -> y ∈ candidates -> candidate_key x = candidate_key y -> x = y) -> candidates ≡ₚ candidates' -> select_inputs candidates' target = select_inputs candidates target.
Proof.
  split; [apply select_inputs_spec|]. intros cs Hn Hp. unfold select_inputs. by rewrite (sorted_by_deterministic candidate_key candidates cs Hn Hp).
Qed.

(** ** Keys and signatures *)

(** Sizes of SEC1 points and of DER-encoded signatures *)
Class SignatureSizes `{CryptoBackend} : Prop := {
  dss_size : forall r s sig, 0 < r < SECP256K1_ORDER -> 0 < s < SECP256K1_ORDER -> encode_dss_signature r s = Ok sig -> 8 <= len sig <= 72;
  public_bytes_size : forall k c, 0 < k < SECP256K1_ORDER -> 33 <= len (ec_public_bytes k c) <= 65;
}.

#[global] Instance demo_sizes : SignatureSizes.
Proof.
  split.
  - intros r s sig Hr Hs Hsig. cbn [encode_dss_signature demo_backend] in Hsig. unfold demo_encode in Hsig.
    apply rbind_Ok in Hsig as (r' & Er & Hsig). apply rbind_Ok in Hsig as (s' & Es & Hsig). injection Hsig as <-.
    unfold to_bytes_big in Er, Es. inv_ok. rewrite len_app. unfold len.
    cbn [length]. lia.
  - intros k c Hk. cbn [ec_public_bytes demo_backend]. unfold demo_public. rewrite len_cons. unfold len. rewrite be32_length. lia.
Qed.

Section wallet.
Context `{PyRepr, CryptoLaws, !SignatureSizes} {U R : Type} `{UtxoView U, NodeRegistryView R}.

(** A wallet key made from a private key *)
Lemma legacy_wallet private_key compressed w : wallet_key_from_private_key private_key compressed = Ok w ->
  validate_private_key private_key = Ok tt /\ derive_public_key private_key compressed = Ok (wallet_public_key w) /\
  33 <= len (wallet_public_key w) <= 65 /\ wallet_private_key w = private_key /\ wallet_scheme_id w = SIG_SCHEME_LEGACY_ECDSA /\
  public_key_to_address (wallet_public_key w) = Ok (wallet_address w) /\ load_public_key (wallet_public_key w) = Ok tt.
Proof.
  intros Hw. unfold wallet_key_from_private_key in Hw. apply rbind_Ok in Hw as (pk & Hpk & Hw). apply rbind_Ok in Hw as (a & Ha & Hw).
  injection Hw as <-. cbn. pose proof Hpk as Hd. unfold derive_public_key in Hd. apply rbind_Ok in Hd as ([] & Hv & Hd). injection Hd as Hd.
  destruct (validate_private_key_range _ Hv) as [_ Hr]. split; [done|]. split; [done|]. split; [rewrite <- Hd; by apply public_bytes_size|].
  do 3 (split; [done|]). rewrite <- Hd. unfold load_public_key. by rewrite ec_public_bytes_loads.
Qed.

(** What it signs verifies, and has the size of a signature. *)
Lemma wallet_signs private_key compressed w entropy digest : wallet_key_from_private_key private_key compressed = Ok w -> len digest = 32 ->
  exists sig, sign w entropy digest = Ok sig /\ verify_digest (wallet_public_key w) digest sig = Ok true /\ 8 <= len sig <= 72.
Proof.
  intros Hw Hd. destruct (legacy_wallet _ _ _ Hw) as (Hv & Hpk & _ & Hpriv & Hid & _).
  destruct (sign_then_verify private_key digest entropy compressed Hv Hd) as (pk & sig & Epk & Es & Evf). rewrite Hpk in Epk. injection Epk as <-.
  exists sig. unfold sign. rewrite Hid, Hpriv. change (SIG_SCHEME_LEGACY_ECDSA =? SIG_SCHEME_ML_DSA_44) with false. cbv iota. split; [done|]. split; [done|].
  unfold sign_digest in Es. rewrite Hd in Es. cbn [Z.eqb Pos.eqb negb] in Es. apply rbind_Ok in Es as (k & Hk & Es).
  unfold load_private_key in Hk. rewrite Hv in Hk. injection Hk as <-. destruct (validate_private_key_range _ Hv) as [_ Hr].
  destruct (ec_sign_decodes (from_bytes_big private_key) entropy digest Hr Hd) as (r & s & Hdec & Hrr & Hss).
  unfold _normalize_low_s in Es. rewrite Hdec in Es. cbn [rbind] in Es. eapply dss_size; [exact Hrr| |exact Es].
  pose proof order_odd. case_match; bool_prop; lia.
Qed.

Lemma double_sha256_len data : len (double_sha256 data) = 32.
Proof. unfold len. by rewrite double_sha256_length. Qed.

Lemma digest_len t i o n d : transaction_signature_digest t i o n = Ok d -> len d = 32.
Proof. unfold transaction_signature_digest. intros Hd. apply rbind_Ok in Hd as (raw & _ & Hd). injection Hd as <-. apply double_sha256_len. Qed.

(** Signatures and keys are not part of what is signed. *)
Lemma digest_ignores_signatures t t' i o n :
  version t = version t' -> strip_input <$> inputs t = strip_input <$> inputs t' -> outputs t = outputs t' -> locktime t = locktime t' -> metadata t = metadata t' ->
  transaction_signature_digest t i o n = transaction_signature_digest t' i o n.
Proof.
  intros Hv Hi Ho Hl Hm. unfold transaction_signature_digest, serialize_transaction_for_signing. rewrite Hi, Hv, Ho, Hl, Hm.
  assert (Hn : len (inputs t) = len (inputs t')) by (unfold len; apply (f_equal length) in Hi; rewrite !length_fmap in Hi; by rewrite Hi). by rewrite Hn.
Qed.

(** ** Payments *)

Definition candidate_outpoint (c : SpendCandidate) : OutPoint := mkOutPoint (candidate_txid c) (candidate_index c).

(** The candidate is an output of the view that the wallet may spend at this height. *)
Definition spendable (w : WalletKey) (context : ValidationContext U R) (c : SpendCandidate) : Prop :=
  candidate_recipient c = wallet_address w /\ _validate_outpoint (candidate_txid c) = Ok tt /\ 0 <= candidate_index c /\
  exists entry, utxo_get (utxo_view context) (candidate_outpoint c) = Ok (Some entry) /\
    output entry = mkTxOutput (amount_chipbits c) (wallet_address w) /\
    (enforce_coinbase_maturity context = true -> is_coinbase_mature entry (context_height context) (context_params context) = true).

(** An input the wallet has signed: position, candidate and input *)
Definition signed_for (w : WalletKey) (net : str) (unsigned : Transaction) (i : Z) (c : SpendCandidate) (tx_input : TxInput) : Prop :=
  exists digest sig, transaction_signature_digest unsigned i (mkTxOutput (amount_chipbits c) (wallet_address w)) net = Ok digest /\
    tx_input = mkTxInput (candidate_outpoint c) sig (wallet_public_key w) 0xFFFFFFFF SIG_SCHEME_LEGACY_ECDSA /\
    verify_digest (wallet_public_key w) digest sig = Ok true /\ 8 <= len sig <= 72.

Section payment.
Variables (private_key : bytes) (compressed : bool) (w : WalletKey) (context : ValidationContext U R).
Hypothesis Hw : wallet_key_from_private_key private_key compressed = Ok w.

Lemma signed_input_total entropy unsigned i c :
  candidate_recipient c = wallet_address w ->
  is_ok (transaction_signature_digest unsigned i (mkTxOutput (amount_chipbits c) (candidate_recipient c)) (network context)) = true ->
  exists tx_input, signed_input w entropy (network context) unsigned (i, c) = Ok tx_input /\ signed_for w (network context) unsigned i c tx_input.
Proof.
  intros Hr Hd. unfold signed_input. rewrite bool_decide_true by done. cbn [negb raise_if rbind].
  destruct (transaction_signature_digest _ _ _ _) as [digest|e] eqn:Ed; [|discriminate Hd]. cbn [rbind]. rewrite Hr in Ed.
  destruct (wallet_signs _ _ _ (entropy i) digest Hw (digest_len _ _ _ _ _ Ed)) as (sig & Es & Ev & El). rewrite Es. cbn [rbind].
  destruct (legacy_wallet _ _ _ Hw) as (_ & _ & _ & _ & Hid & _). eexists. split; [reflexivity|]. exists digest, sig. rewrite Hid. done.
Qed.

Lemma signed_inputs_total entropy unsigned i cs :
  Forall (fun c => candidate_recipient c = wallet_address w) cs ->
  (forall j c, cs !! j = Some c ->
     is_ok (transaction_signature_digest unsigned (i + Z.of_nat j) (mkTxOutput (amount_chipbits c) (candidate_recipient c)) (network context)) = true) ->
  exists ins, mapM (signed_input w entropy (network context) unsigned) (enumerate_from i cs) = Ok ins /\
    Forall2 (fun ic => signed_for w (network context) unsigned ic.1 ic.2) (enumerate_from i cs) ins.
Proof.
  revert i. induction cs as [|c cs IH]; intros i Hf Hd; [by exists []|]. apply Forall_cons in Hf as [Hr Hf].
  destruct (signed_input_total entropy unsigned i c Hr) as (tx_input & E & Hs); [rewrite <- (Z.add_0_r i); exact (Hd 0%nat c eq_refl)|].
  destruct (IH (i + 1) Hf) as (ins & Es & Hs').
  { intros j x Hx. replace (i + 1 + Z.of_nat j) with (i + Z.of_nat (S j)) by lia. exact (Hd (S j) x Hx). }
  exists (tx_input :: ins). cbn [enumerate_from mapM]. rewrite E. cbn [rbind]. rewrite Es. split; [done|]. by constructor.
Qed.

(** The stateless rules for the inputs *)
Lemma checked_inputs unsigned net i cs ins seen :
  Forall2 (fun ic => signed_for w net unsigned ic.1 ic.2) (enumerate_from i cs) ins ->
  Forall (spendable w context) cs -> NoDup (candidate_outpoint <$> cs) -> (forall c, c ∈ cs -> candidate_outpoint c ∉ seen) ->
  exists seen', foldM (check_input 1) seen ins = Ok seen'.
Proof.
  destruct (legacy_wallet _ _ _ Hw) as (_ & _ & Hpk & _).
  revert i ins seen. induction cs as [|c cs IH]; intros i ins seen Hs Hf Hn Hseen; cbn [enumerate_from] in Hs.
  { apply Forall2_nil_inv_l in Hs as ->. by exists seen. }
  apply Forall2_cons_inv_l in Hs as (tx_input & ins' & (digest & sig & _ & -> & _ & Hl) & Hs & ->).
  apply Forall_cons in Hf as [(_ & Ho & Hi & _) Hf]. cbn [fmap list_fmap] in Hn. apply NoDup_cons in Hn as [Hc Hn].
  assert (Hone : check_input 1 seen (mkTxInput (candidate_outpoint c) sig (wallet_public_key w) 0xFFFFFFFF SIG_SCHEME_LEGACY_ECDSA)
                 = Ok ({[candidate_outpoint c]} ∪ seen)).
  { unfold check_input. cbn [previous_output op_txid op_index candidate_outpoint public_key signature sig_scheme_id]. rewrite Ho. cbn [rbind].
    rewrite (proj2 (Z.ltb_ge _ _) Hi). rewrite (bool_decide_false (_ ∈ seen)) by (apply Hseen; apply elem_of_cons; by left).
    rewrite (proj2 (Z.ltb_ge MAX_TRANSACTION_PUBLIC_KEY_BYTES _)) by (unfold MAX_TRANSACTION_PUBLIC_KEY_BYTES; lia).
    rewrite (proj2 (Z.ltb_ge MAX_TRANSACTION_SIGNATURE_BYTES _)) by (unfold MAX_TRANSACTION_SIGNATURE_BYTES; lia).
    rewrite !bool_decide_false by (intros Hp; first [rewrite Hp in Hpk; unfold len in Hpk; simpl in Hpk; lia|rewrite Hp in Hl; unfold len in Hl; simpl in Hl; lia]).
    reflexivity. }
  cbn [foldM snd]. rewrite Hone. cbn [rbind]. apply (IH (i + 1) ins' _ Hs Hf Hn). intros x Hx. apply not_elem_of_union. split; [|apply Hseen; apply elem_of_cons; by right].
  rewrite elem_of_singleton. intros Heq. apply Hc. rewrite <- Heq. by apply list_elem_of_fmap_2.
Qed.

Lemma wallet_address_legacy : exists info, parse_address (wallet_address w) = Ok info /\ kind info = legacy.
Proof.
  destruct (legacy_wallet _ _ _ Hw) as (_ & _ & _ & _ & _ & Ha & Hl). unfold load_public_key in Hl. destruct (from_encoded_point _) eqn:Hp; [|discriminate Hl].
  destruct (address_roundtrip (wallet_public_key w) 0 Hp) as (a & q & Ea & _ & Eh & _); [lia|]. rewrite Ha in Ea. injection Ea as <-.
  unfold address_to_public_key_hash in Eh. apply rbind_Ok in Eh as (info & Hi & Eh). exists info. split; [done|]. destruct (bool_decide _) eqn:Ek in Eh; [|discriminate Eh].
  by apply bool_decide_eq_true in Ek.
Qed.

(** The stateful rules for the inputs *)
Lemma spent_inputs t unsigned i cs ins total :
  version t = 1 -> (forall i o, transaction_signature_digest t i o (network context) = transaction_signature_digest unsigned i o (network context)) ->
  Forall2 (fun ic => signed_for w (network context) unsigned ic.1 ic.2) (enumerate_from i cs) ins -> Forall (spendable w context) cs ->
  foldM (spend_input t context) total (enumerate_from i ins) = Ok (total + candidates_total cs).
Proof.
  intros Hv Hdig. destruct wallet_address_legacy as (info & Hinfo & Hkind). destruct (legacy_wallet _ _ _ Hw) as (_ & _ & _ & _ & _ & Ha & _).
  revert i ins total. induction cs as [|c cs IH]; intros i ins total Hs Hf; cbn [enumerate_from] in Hs.
  { apply Forall2_nil_inv_l in Hs as ->. cbn. f_equal. unfold candidates_total. simpl. lia. }
  apply Forall2_cons_inv_l in Hs as (tx_input & ins' & (digest & sig & Hd & -> & Hver & _) & Hs & ->).
  apply Forall_cons in Hf as [(_ & _ & _ & entry & Hget & Hout & Hmat) Hf]. cbn [fst snd] in Hd, Hget. cbn [enumerate_from foldM snd].
  unfold spend_input at 1. cbn [previous_output]. rewrite Hget. cbn [rbind].
  assert (Hm : enforce_coinbase_maturity context && negb (is_coinbase_mature entry (context_height context) (context_params context)) = false).
  { destruct (enforce_coinbase_maturity context); [by rewrite Hmat|done]. }
  rewrite Hm. unfold contextual_if at 1. cbn [raise_if rbind]. unfold _validate_standard_input_signature. rewrite Hout. cbn [recipient]. rewrite Hinfo.
  cbn [try_except rbind]. rewrite Hv, Hkind. cbn [Z.eqb Pos.eqb]. rewrite bool_decide_true by done. cbn [negb sig_scheme_id]. unfold contextual_if at 1 2.
  cbn [raise_if rbind Z.eqb SIG_SCHEME_LEGACY_ECDSA negb]. unfold _validate_legacy_input_signature. cbn [public_key signature recipient]. rewrite Ha. cbn [try_except rbind].
  rewrite bool_decide_true by done. cbn [negb]. unfold contextual_if at 1. cbn [raise_if rbind]. rewrite Hdig, Hd. cbn [rbind]. rewrite Hver. cbn [rbind negb].
  unfold contextual_if. cbn [raise_if rbind value]. rewrite (IH (i + 1) ins' _ Hs Hf). change (candidates_total (c :: cs)) with (amount_chipbits c + candidates_total cs).
  f_equal. lia.
Qed.

(** The rules that concern a payment as a whole, for inputs and outputs in order *)
Lemma payment_valid ins to amount change lock total seen :
  0 <= amount -> 0 <= change -> 0 <= lock -> ins ≠ [] -> foldM (check_input 1) ∅ ins = Ok seen ->
  is_valid_address to = Ok true -> (startswith to PQ_ADDRESS_PREFIX = true -> _pq_support_active context = true) ->
  let t := mkTransaction 1 ins (mkTxOutput amount to :: if 0 <? change then [mkTxOutput change (wallet_address w)] else []) lock ∅ in
  foldM (spend_input t context) 0 (enumerate ins) = Ok total -> amount + change <= total ->
  validate_transaction t context = Ok (total - (amount + change)).
Proof.
  intros Ha Hc Hl Hins Hcheck Hto Hpq t Hspend Hle.
  assert (Hparse : exists info, parse_address to = Ok info).
  { unfold is_valid_address in Hto. destruct (parse_address to) as [info|e]; [by exists info|]. by destruct (isinstance _ _). }
  destruct Hparse as [info Hparse]. destruct wallet_address_legacy as (winfo & Hwp & Hwk).
  assert (Hnil : forall a x, parse_address a = Ok x -> bool_decide (a = []) = false) by (intros a x E; apply bool_decide_false; intros ->; vm_compute in E; discriminate E).
  assert (Hstart : startswith (wallet_address w) PQ_ADDRESS_PREFIX = false).
  { destruct (startswith (wallet_address w) PQ_ADDRESS_PREFIX) eqn:E; [|reflexivity]. unfold parse_address in Hwp. rewrite E in Hwp. by inv_ok. }
  assert (Hout : forall o, o ∈ outputs t -> check_output o = Ok tt).
  { intros o Ho. unfold t in Ho. cbn [outputs] in Ho. apply elem_of_cons in Ho as [->|Ho].
    - unfold check_output. cbn [value recipient]. rewrite (proj2 (Z.ltb_ge _ _) Ha), (Hnil _ _ Hparse). done.
    - destruct (0 <? change); [apply list_elem_of_singleton in Ho as ->|by apply not_elem_of_nil in Ho].
      unfold check_output. cbn [value recipient]. rewrite (proj2 (Z.ltb_ge _ _) Hc), (Hnil _ _ Hwp). done. }
  assert (Hact : _validate_transaction_outputs_for_activation t context = Ok tt).
  { unfold _validate_transaction_outputs_for_activation, t. cbn [outputs for_each recipient]. destruct (startswith to PQ_ADDRESS_PREFIX) eqn:Es; cbn [negb].
    - rewrite Hparse. cbn [try_except rbind]. rewrite Hpq by done. rewrite andb_false_r. unfold contextual_if. cbn [raise_if rbind].
      destruct (0 <? change); cbn [for_each recipient]; [by rewrite Hstart|done].
    - cbn [rbind]. destruct (0 <? change); cbn [for_each recipient]; [by rewrite Hstart|done]. }
  assert (Htotal : transaction_output_total t = amount + change).
  { unfold transaction_output_total, t. cbn [outputs]. destruct (Z.ltb_spec 0 change); simpl; lia. }
  assert (Hcb : is_coinbase_transaction t = false) by (unfold is_coinbase_transaction; rewrite bool_decide_false by done; done).
  unfold validate_transaction, validate_transaction_stateless, validate_transaction_stateful.
  change (version t) with 1. change (is_special_node_transaction t) with false. change (_is_reward_attestation_bundle_transaction t) with false.
  change (_is_reward_settle_epoch_transaction t) with false. change (locktime t) with lock. rewrite Hcb, Hact, Htotal. change (inputs t) with ins.
  rewrite Hspend. unfold stateless_if, contextual_if. rewrite (proj2 (Z.ltb_ge lock 0)) by done. rewrite (bool_decide_false (ins = [])) by done.
  rewrite (bool_decide_false (outputs t = [])) by done. cbn [raise_if rbind Z.leb].
  assert (Hfe : for_each check_output (outputs t) = Ok tt).
  { revert Hout. generalize (outputs t). intros l. induction l as [|o l IH]; intros Hl'; [done|]. cbn [for_each].
    rewrite Hl' by (apply elem_of_cons; by left). cbn [rbind]. apply IH. intros x Hx. apply Hl'. apply elem_of_cons. by right. }
  rewrite Hfe. cbn [rbind]. rewrite Hcheck. cbn [rbind]. rewrite (proj2 (Z.ltb_ge _ _)) by lia. done.
Qed.

(** What is selected is spendable and distinct when the candidates are. *)
Lemma selected_spendable cs target s : select_inputs cs target = Ok s -> Forall (spendable w context) cs -> NoDup (candidate_outpoint <$> cs) ->
  Forall (spendable w context) (selected s) /\ NoDup (candidate_outpoint <$> selected s) /\ selected s ≠ [].
Proof.
  intros Es Hf Hn. pose proof (select_inputs_spec cs target) as Hs. rewrite Es in Hs. destruct Hs as (_ & more & last & rest & Ho & Hl & _).
  pose proof (sorted_by_Permutation candidate_key cs) as Hp. split_and!.
  - apply (Forall_app _ _ rest). rewrite <- Ho. by rewrite Hp.
  - rewrite <- Hp, Ho, fmap_app in Hn. by apply NoDup_app in Hn as [? _].
  - rewrite Hl. by destruct more.
Qed.

(** The unsigned payment and the signed one have the same digests. *)
Lemma strip_signed net unsigned i cs ins : Forall2 (fun ic => signed_for w net unsigned ic.1 ic.2) (enumerate_from i cs) ins ->
  strip_input <$> ins = strip_input <$> (unsigned_input w <$> cs).
Proof.
  destruct (legacy_wallet _ _ _ Hw) as (_ & _ & _ & _ & Hid & _).
  revert i ins. induction cs as [|c cs IH]; intros i ins Hs; cbn [enumerate_from] in Hs; [by apply Forall2_nil_inv_l in Hs as ->|].
  apply Forall2_cons_inv_l in Hs as (tx_input & ins' & (digest & sig & _ & -> & _) & Hs & ->). cbn [fmap list_fmap]. f_equal; [|by eapply IH].
  unfold strip_input, unsigned_input. cbn. by rewrite Hid.
Qed.

(** C21: From enough outputs of its own, all of them mature, a wallet with a secp256k1 key
    builds a payment that passes the validation rules and whose fee is exactly the
    one asked for; it pays the amount to the recipient and the change, if any, back
    to itself.  The recipient is a valid address, a post-quantum one only when
    post-quantum support is active at the height, and the amounts and texts of the
    payment fit its encoding (the last hypothesis). *)
Theorem wallet_payment_accepted (entropy : Z -> bytes) (candidates : list SpendCandidate) (to : str) (amount fee lock : Z) :
  0 < amount -> 0 <= fee -> 0 <= lock -> is_valid_address to = Ok true ->
  (startswith to PQ_ADDRESS_PREFIX = true -> _pq_support_active context = true) ->
  Forall (spendable w context) candidates -> NoDup (candidate_outpoint <$> candidates) -> amount + fee <= candidates_total candidates ->
  (forall s i c, select_inputs candidates (amount + fee) = Ok s -> selected s !! i = Some c ->
     is_ok (transaction_signature_digest (unsigned_transaction w s to (wallet_address w) amount lock ∅) (Z.of_nat i)
              (mkTxOutput (amount_chipbits c) (candidate_recipient c)) (network context)) = true) ->
  exists built change, build_signed_transaction w entropy candidates to amount fee None lock None (network context) = Ok built /\
    validate_transaction (transaction built) context = Ok fee /\ built_fee_chipbits built = fee /\
    outputs (transaction built) = mkTxOutput amount to :: (if 0 <? change then [mkTxOutput change (wallet_address w)] else []).
Proof.
  intros Ha Hfee Hl Hto Hpq Hf Hn Hsum Henc. pose proof (select_inputs_spec candidates (amount + fee)) as Hs.
  destruct (select_inputs candidates (amount + fee)) as [s|e] eqn:Es; [|destruct Hs as [_ [?|?]]; lia].
  destruct Hs as (_ & more & last & rest & _ & _ & Hcover & _ & Hchange). destruct (selected_spendable _ _ _ Es Hf Hn) as (Hf' & Hn' & Hne).
  set (unsigned := unsigned_transaction w s to (wallet_address w) amount lock ∅) in *.
  assert (Hown : Forall (fun c => candidate_recipient c = wallet_address w) (selected s)) by (eapply Forall_impl; [exact Hf'|]; by intros c (? & _)).
  destruct (signed_inputs_total entropy unsigned 0 (selected s) Hown) as (ins & Hins & Hsig).
  { intros j c Hc. rewrite Z.add_0_l. by apply Henc. }
  destruct (legacy_wallet _ _ _ Hw) as (_ & _ & _ & _ & Hid & _). destruct wallet_address_legacy as (info & Hinfo & _).
  destruct (checked_inputs _ _ _ _ _ ∅ Hsig Hf' Hn') as [seen Hseen]; [set_solver|].
  unfold build_signed_transaction. rewrite (proj2 (Z.leb_gt _ _)), (proj2 (Z.ltb_ge fee 0)), Hto by lia. cbn [raise_if rbind negb].
  unfold is_valid_address. rewrite Hinfo. cbn [rbind negb raise_if]. rewrite Es. cbn [rbind]. fold unsigned. change (enumerate (selected s)) with (enumerate_from 0 (selected s)).
  rewrite Hins. cbn [rbind]. eexists _, (change_chipbits s). split; [reflexivity|]. cbn [transaction built_fee_chipbits outputs].
  assert (Hu : unsigned = mkTransaction 1 (unsigned_input w <$> selected s)
    (mkTxOutput amount to :: if 0 <? change_chipbits s then [mkTxOutput (change_chipbits s) (wallet_address w)] else []) lock ∅)
    by (unfold unsigned, unsigned_transaction; by rewrite Hid).
  split; [|by rewrite Hu]. rewrite Hu. cbn [version outputs Models.locktime Models.metadata].
  rewrite (payment_valid ins to amount (change_chipbits s) lock (candidates_total (selected s)) seen); try done; try lia.
  - rewrite Hchange. f_equal. lia.
  - intros ->. apply Forall2_nil_inv_r in Hsig. by destruct (selected s).
  - rewrite <- (Z.add_0_l (candidates_total _)). eapply spent_inputs; [reflexivity| |exact Hsig|exact Hf'].
    intros i o. apply digest_ignores_signatures; rewrite Hu; try done. eapply strip_signed; exact Hsig.
Qed.
End payment.
End wallet.
