(* ===== verification/WalletRegistry.v ===== *)
(** * Registry transactions signed by a wallet

    The four builders of registry transactions return, for a request whose fields
    are in order, a transaction that passes the stateless rules and whose owner
    signature verifies for the network and the height it was made for. *)

From S2P Require Import Prelude PyOrder PyText Hashes Params Models Serialization Registry Crypto Addresses Json Settlement Nodes Utxo Validation Wallet WalletFacts.

(** ** Text that has an encoding *)

Definition encodable (s : str) : Prop := Forall (fun c => is_ok (utf8_encode_char c) = true) s.

Lemma encodable_encodes s : encodable s -> exists bs, utf8_encode s = Ok bs.
Proof.
  intros Hs. unfold utf8_encode. assert (Hm : exists parts, mapM utf8_encode_char s = Ok parts).
  { induction Hs as [|c s Hc _ [parts IH]]; [by exists []|]. cbn [mapM]. destruct (utf8_encode_char c) as [bs|e]; [|discriminate Hc].
    cbn [rbind]. rewrite IH. cbn [rbind]. by exists (bs :: parts). }
  destruct Hm as [parts ->]. by exists (concat parts).
Qed.

Lemma encodable_ascii s : Forall (fun c => 0 <= c < 128) s -> encodable s.
Proof.
  intros Hs. eapply Forall_impl; [exact Hs|]. cbv beta. intros c Hc. unfold utf8_encode_char. rewrite (proj2 (Z.ltb_ge c 0)) by lia.
  by rewrite (proj2 (Z.ltb_lt c 128)) by lia.
Qed.

Lemma encodable_app s1 s2 : encodable s1 -> encodable s2 -> encodable (s1 ++ s2).
Proof. intros ? ?. by apply Forall_app. Qed.

Lemma encodable_join sep parts : encodable sep -> Forall encodable parts -> encodable (join_text sep parts).
Proof.
  intros Hsep Hp. induction Hp as [|p ps Hp Hps IH]; [constructor|]. destruct ps as [|q ps]; [exact Hp|].
  change (join_text sep (p :: q :: ps)) with (p ++ sep ++ join_text sep (q :: ps)). by repeat apply encodable_app.
Qed.

Lemma encodable_hex bs : encodable (hex bs).
Proof.
  apply encodable_ascii. unfold hex. induction bs as [|x bs IH]; [constructor|]. cbn [fmap list_fmap concat]. apply Forall_app. split; [|exact IH].
  pose proof (byte.unsigned_range x) as Hx. assert (Hd : forall n, 0 <= n < 16 -> 0 <= hex_digit n < 128) by (intros n Hn; unfold hex_digit; case_match; lia).
  repeat constructor; apply Hd; Z.to_euclidean_division_equations; lia.
Qed.

Lemma encodable_int n : 0 <= n -> encodable (py_str_int n).
Proof.
  intros Hn. apply encodable_ascii. unfold py_str_int. rewrite (proj2 (Z.ltb_ge _ _)) by done.
  eapply Forall_impl; [by apply dec_digits_Forall|]. cbn. lia.
Qed.

Lemma encodable_u s : forallb (fun c => (0 <=? c) && (c <? 128)) (u s) = true -> encodable (u s).
Proof.
  intros Hs. apply encodable_ascii. apply Forall_forall. intros c Hc. apply forallb_forall with (x := c) in Hs; [|by apply list_elem_of_In]. bool_prop. lia.
Qed.

(** ** Owner signatures *)

(** The keys a signed payload is made of *)
Definition payload_keys : list string :=
  ["kind"; "node_id"; "payout_address"; "owner_pubkey_hex"; "node_pubkey_hex"; "declared_host"; "declared_port"; "registration_fee_chipbits";
   "renewal_epoch"; "renewal_fee_chipbits"]%string.

(** Membership in a list of literals *)
Ltac in_payload := apply (bool_decide_unpack _); vm_compute; exact I.

Lemma payload_ext m m' : (forall k, k ∈ payload_keys -> m !! u k = m' !! u k) ->
  _special_node_transaction_signature_payload_v1 (special_transaction m) = _special_node_transaction_signature_payload_v1 (special_transaction m').
Proof.
  intros Hk. assert (Ht : forall k, bool_decide (k ∈ payload_keys) = true -> md_text (special_transaction m) k = md_text (special_transaction m') k).
  { intros k Hb. apply bool_decide_eq_true in Hb. unfold md_text, md_get_or. cbn [metadata special_transaction]. by rewrite Hk. }
  unfold _special_node_transaction_signature_payload_v1. by rewrite !Ht by reflexivity.
Qed.

Lemma digest_v1_ext m m' : (forall k, k ∈ payload_keys -> m !! u k = m' !! u k) ->
  special_node_transaction_signature_digest (special_transaction m) = special_node_transaction_signature_digest (special_transaction m').
Proof. intros Hk. unfold special_node_transaction_signature_digest. by rewrite (payload_ext m m' Hk). Qed.

Lemma digest_v2_ext m m' net : (forall k, k ∈ payload_keys -> m !! u k = m' !! u k) ->
  special_node_transaction_signature_digest_v2 (special_transaction m) net = special_node_transaction_signature_digest_v2 (special_transaction m') net.
Proof. intros Hk. unfold special_node_transaction_signature_digest_v2, special_node_payload_v2. by rewrite (payload_ext m m' Hk). Qed.

(** What the signer adds to the metadata *)
Definition versioned_metadata (net : str) (height : Z) (m : gmap str str) : gmap str str :=
  if bool_decide (special_node_signature_version_for_height net height = SPECIAL_NODE_SIGNATURE_VERSION_V2)
  then <[u "owner_signature_network" := net]> (<[u "owner_signature_version" := SPECIAL_NODE_SIGNATURE_VERSION_V2]> m) else m.
Definition signed_metadata (net : str) (height : Z) (m : gmap str str) (sig : bytes) : gmap str str :=
  <[u "owner_signature_hex" := hex sig]> (versioned_metadata net height m).

Lemma payload_key_other k : k ∈ payload_keys -> u "owner_signature_hex" ≠ u k /\ u "owner_signature_network" ≠ u k /\ u "owner_signature_version" ≠ u k.
Proof.
  intros Hk. unfold payload_keys in Hk. repeat (apply elem_of_cons in Hk as [->|Hk]; [split_and!; vm_compute; discriminate|]). by apply not_elem_of_nil in Hk.
Qed.

Lemma versioned_payload net height m k : k ∈ payload_keys -> versioned_metadata net height m !! u k = m !! u k.
Proof. intros (_ & Hn & Hv)%payload_key_other. unfold versioned_metadata. destruct (bool_decide _); [|done]. by rewrite !lookup_insert_ne. Qed.

Lemma signed_payload net height m sig k : k ∈ payload_keys -> signed_metadata net height m sig !! u k = m !! u k.
Proof. intros Hk. unfold signed_metadata. rewrite lookup_insert_ne by apply (payload_key_other k Hk). by apply versioned_payload. Qed.

(** The version and network it declares *)
Lemma signed_version net height m sig : m !! u "owner_signature_version" = None ->
  md_text (special_transaction (signed_metadata net height m sig)) "owner_signature_version" = special_node_signature_version_for_height net height /\
  (special_node_signature_version_for_height net height = SPECIAL_NODE_SIGNATURE_VERSION_V2 ->
   md_text (special_transaction (signed_metadata net height m sig)) "owner_signature_network" = net) /\
  special_node_signature_version_for_height net height ∈ [[]; SPECIAL_NODE_SIGNATURE_VERSION_V2].
Proof.
  intros Hver. unfold md_text, md_get_or, signed_metadata, versioned_metadata. cbn [metadata special_transaction].
  rewrite !(lookup_insert_ne _ (u "owner_signature_hex")) by (vm_compute; discriminate).
  unfold special_node_signature_version_for_height. destruct (_ && _).
  - rewrite bool_decide_false by (vm_compute; discriminate). rewrite Hver. split_and!; [done|vm_compute; discriminate|set_solver].
  - rewrite bool_decide_true by done. rewrite !lookup_insert_eq, lookup_insert_ne by (vm_compute; discriminate). rewrite lookup_insert_eq. split_and!; [done|done|set_solver].
Qed.

Lemma owner_digest_total m text net : _special_node_transaction_signature_payload_v1 (special_transaction m) = Ok text -> encodable text -> encodable net -> net ≠ [] ->
  (exists d, special_node_transaction_signature_digest (special_transaction m) = Ok d /\ len d = 32) /\
  (exists d, special_node_transaction_signature_digest_v2 (special_transaction m) net = Ok d /\ len d = 32).
Proof.
  intros Hp Ht Hnet Hne. unfold special_node_transaction_signature_digest, special_node_transaction_signature_digest_v2, special_node_payload_v2.
  rewrite Hp. cbn [rbind]. rewrite bool_decide_false by done. split.
  - destruct (encodable_encodes text Ht) as [bs ->]. eexists. split; [reflexivity|apply double_sha256_len].
  - set (full := join_text bar _). assert (Hf : encodable full).
    { apply encodable_join; [by apply encodable_u|]. repeat constructor; [|done]. repeat apply encodable_app; try done; by apply encodable_u. }
    destruct (encodable_encodes full Hf) as [bs ->]. eexists. split; [reflexivity|apply double_sha256_len].
Qed.

Section registry.
Context `{PyRepr, CryptoLaws, !SignatureSizes}.
Variables (private_key : bytes) (compressed : bool) (w : WalletKey).
Hypothesis Hw : wallet_key_from_private_key private_key compressed = Ok w.

Lemma owner_key_parses : parse_public_key_hex (hex (wallet_public_key w)) = Ok (wallet_public_key w) /\
  serialize_public_key_hex (wallet_public_key w) = Ok (hex (wallet_public_key w)).
Proof.
  destruct (legacy_wallet _ _ _ Hw) as (_ & _ & _ & _ & _ & _ & Hl). unfold parse_public_key_hex, serialize_public_key_hex.
  rewrite fromhex_hex. cbn [try_except rbind]. by rewrite Hl.
Qed.

Lemma sign_special entropy m net height text :
  m !! u "owner_pubkey_hex" = Some (hex (wallet_public_key w)) -> m !! u "owner_signature_version" = None ->
  _special_node_transaction_signature_payload_v1 (special_transaction m) = Ok text -> encodable text -> encodable net -> net ≠ [] ->
  exists sig, let t := special_transaction (signed_metadata net height m sig) in
    _sign_special_node_metadata w entropy m net height = Ok t /\ 8 <= len sig <= 72 /\
    special_node_transaction_signature_is_valid t net height = Ok true /\ special_node_transaction_signature_is_valid_stateless t = Ok true.
Proof.
  intros Hpk Hver Hp Ht Hnet Hne. destruct owner_key_parses as [Hparse _].
  destruct (owner_digest_total m text net Hp Ht Hnet Hne) as [(d1 & Hd1 & Hl1) (d2 & Hd2 & Hl2)].
  set (v2 := bool_decide (special_node_signature_version_for_height net height = SPECIAL_NODE_SIGNATURE_VERSION_V2)).
  destruct (wallet_signs _ _ _ entropy (if v2 then d2 else d1) Hw) as (sig & Es & Ev & Hsize); [by destruct v2|]. exists sig. cbv zeta.
  assert (Hsig : signed_metadata net height m sig !! u "owner_signature_hex" = Some (hex sig)) by (unfold signed_metadata; apply lookup_insert_eq).
  assert (Hkey : signed_metadata net height m sig !! u "owner_pubkey_hex" = Some (hex (wallet_public_key w)))
    by (rewrite signed_payload; [exact Hpk|in_payload]).
  rewrite <- (digest_v1_ext _ _ (signed_payload net height m sig)) in Hd1. rewrite <- (digest_v2_ext _ _ net (signed_payload net height m sig)) in Hd2.
  destruct (signed_version net height m sig Hver) as (Hv & Hsn & Hin). split; [|split; [done|]].
  - unfold _sign_special_node_metadata. fold (versioned_metadata net height m). fold v2.
    rewrite (digest_v1_ext (versioned_metadata net height m) (signed_metadata net height m sig)) by (intros k Hk; by rewrite versioned_payload, signed_payload).
    rewrite (digest_v2_ext (versioned_metadata net height m) (signed_metadata net height m sig)) by (intros k Hk; by rewrite versioned_payload, signed_payload).
    rewrite Hd1, Hd2. destruct v2; cbn [rbind]; by rewrite Es.
  - unfold special_node_transaction_signature_is_valid, special_node_transaction_signature_is_valid_stateless, md_index. cbn [metadata special_transaction].
    rewrite Hkey, Hsig. cbn [rbind]. rewrite Hparse, fromhex_hex. cbn [rbind]. rewrite Hv, (bool_decide_true (_ = _)) by done. cbn [negb].
    fold v2. destruct v2 eqn:E2.
    + rewrite Hsn by (by apply bool_decide_eq_true in E2). rewrite bool_decide_true, bool_decide_false by done. cbn [negb]. rewrite Hd2. cbn [rbind]. by rewrite Ev.
    + apply bool_decide_eq_false in E2. assert (Hnil : special_node_signature_version_for_height net height = []) by set_solver.
      rewrite Hnil, bool_decide_true by done. cbn [negb]. rewrite Hd1. cbn [rbind]. by rewrite Ev.
Qed.

(** ** The four requests *)

Inductive registry_request : Type :=
| RegisterNode (node_id payout : str)
| RenewNode (node_id : str) (renewal_epoch : Z)
| RegisterRewardNode (node_id payout node_public_key_hex declared_host : str) (declared_port fee : Z)
| RenewRewardNode (node_id : str) (renewal_epoch : Z) (declared_host : str) (declared_port fee : Z).

Definition build_request (entropy : bytes) (request : registry_request) (net : str) (height : Z) : res Transaction :=
  match request with
  | RegisterNode i payout => build_register_node_transaction w entropy i payout net height
  | RenewNode i epoch => build_renew_node_transaction w entropy i epoch net height
  | RegisterRewardNode i payout key host port fee => build_register_reward_node_transaction w entropy i payout key host port fee net height
  | RenewRewardNode i epoch host port fee => build_renew_reward_node_transaction w entropy i epoch host port fee net height
  end.

Definition valid_payout (payout : str) : Prop := is_valid_address payout = Ok true /\ encodable payout.
Definition valid_endpoint (host : str) (port fee : Z) : Prop := host ≠ [] /\ encodable host /\ 0 < port <= 65535 /\ 0 <= fee < 10 ^ max_str_digits.

Definition request_ok (request : registry_request) : Prop :=
  match request with
  | RegisterNode i payout => i ≠ [] /\ encodable i /\ valid_payout payout
  | RenewNode i epoch => i ≠ [] /\ encodable i /\ 0 <= epoch
  | RegisterRewardNode i payout key host port fee =>
      i ≠ [] /\ encodable i /\ valid_payout payout /\ is_ok (parse_public_key_hex key) = true /\ key ≠ [] /\ encodable key /\ valid_endpoint host port fee
  | RenewRewardNode i epoch host port fee => i ≠ [] /\ encodable i /\ 0 <= epoch /\ valid_endpoint host port fee
  end.

Lemma hex_nonempty bs : 1 <= len bs -> hex bs ≠ [].
Proof. destruct bs as [|x bs]; [unfold len; simpl; lia|]. intros _. rewrite hex_cons. discriminate. Qed.

(** The checks the four validators share *)
Lemma common_checks net height m sig :
  m !! u "owner_pubkey_hex" = Some (hex (wallet_public_key w)) -> m !! u "owner_signature_version" = None -> net ≠ [] -> 8 <= len sig ->
  _validate_node_metadata_common (special_transaction (signed_metadata net height m sig)) = Ok tt.
Proof.
  intros Hpk Hver Hne Hl. destruct (signed_version net height m sig Hver) as (Hv & Hsn & Hin). destruct (legacy_wallet _ _ _ Hw) as (_ & _ & Hsize & _).
  unfold _validate_node_metadata_common. cbn [inputs outputs special_transaction]. rewrite !(bool_decide_true ([] = [])) by done.
  assert (Hk : md_text (special_transaction (signed_metadata net height m sig)) "owner_pubkey_hex" = hex (wallet_public_key w)).
  { unfold md_text, md_get_or. cbn [metadata special_transaction]. rewrite signed_payload, Hpk; [done|]. in_payload. }
  assert (Hs : md_text (special_transaction (signed_metadata net height m sig)) "owner_signature_hex" = hex sig).
  { unfold md_text, md_get_or, signed_metadata. cbn [metadata special_transaction]. by rewrite lookup_insert_eq. }
  fold (special_transaction (signed_metadata net height m sig)). rewrite Hk, Hs, Hv.
  rewrite (bool_decide_false (hex (wallet_public_key w) = [])) by (apply hex_nonempty; lia). rewrite (bool_decide_false (hex sig = [])) by (apply hex_nonempty; lia).
  cbn [negb raise_if rbind]. destruct (decide (special_node_signature_version_for_height net height = SPECIAL_NODE_SIGNATURE_VERSION_V2)) as [E|E].
  - rewrite (Hsn E), E, (bool_decide_false (net = [])) by done. reflexivity.
  - assert (Hnil : special_node_signature_version_for_height net height = []) by set_solver. rewrite Hnil. reflexivity.
Qed.

Lemma owner_check m sig net height msg : m !! u "owner_pubkey_hex" = Some (hex (wallet_public_key w)) ->
  special_node_transaction_signature_is_valid_stateless (special_transaction (signed_metadata net height m sig)) = Ok true ->
  check_owner_signature (special_transaction (signed_metadata net height m sig)) msg = Ok tt.
Proof.
  intros Hpk Hvalid. unfold check_owner_signature, md_index. cbn [metadata special_transaction].
  rewrite signed_payload, Hpk; [|in_payload]. cbn [rbind]. destruct owner_key_parses as [-> _]. cbn [rbind].
  fold (special_transaction (signed_metadata net height m sig)). by rewrite Hvalid.
Qed.

Lemma signed_text m sig net height k : k ∈ payload_keys ->
  md_text (special_transaction (signed_metadata net height m sig)) k = md_text (special_transaction m) k.
Proof. intros Hk. unfold md_text, md_get_or. cbn [metadata special_transaction]. by rewrite signed_payload. Qed.

Lemma signed_kind m sig net height k : has_kind k (special_transaction (signed_metadata net height m sig)) = has_kind k (special_transaction m).
Proof. unfold has_kind, md_get. cbn [metadata special_transaction]. rewrite signed_payload; [done|in_payload]. Qed.

Lemma stateless_accepts m sig net height :
  is_special_node_transaction (special_transaction m) = true ->
  validate_special_node_transaction_stateless (special_transaction (signed_metadata net height m sig)) = Ok tt ->
  validate_transaction_stateless (special_transaction (signed_metadata net height m sig)) = Ok tt.
Proof.
  intros Hk Hv. unfold validate_transaction_stateless. unfold is_special_node_transaction in *. rewrite !signed_kind, Hk, Hv. reflexivity.
Qed.

(** The payout and endpoint checks *)
Lemma payout_check payout msg : valid_payout payout -> check_payout_address payout msg = Ok tt /\ check_payout payout = Ok tt.
Proof.
  intros [Hv _]. unfold check_payout_address, check_payout. rewrite Hv. cbn [rbind negb]. split; [|reflexivity].
  rewrite bool_decide_false; [reflexivity|]. intros ->. vm_compute in Hv. discriminate Hv.
Qed.

Lemma endpoint_check host port fee msg : valid_endpoint host port fee ->
  _validate_declared_endpoint host (py_str_int port) = Ok tt /\ check_declared_fee (py_str_int fee) msg = Ok tt.
Proof.
  intros (Hh & _ & Hp & Hf). unfold _validate_declared_endpoint, check_declared_fee.
  assert (Hbig : 65535 < 10 ^ max_str_digits) by (apply (Z.lt_le_trans _ (10 ^ 5)); [done|apply Z.pow_le_mono_r; [done|vm_compute; discriminate]]).
  rewrite (bool_decide_false (host = [])) by done. rewrite !(bool_decide_false (py_str_int _ = [])) by apply py_str_int_nonempty.
  rewrite !py_int_str_int by lia. cbn [raise_if rbind]. rewrite (proj2 (Z.leb_gt port 0)), (proj2 (Z.ltb_ge 65535 port)), (proj2 (Z.ltb_ge fee 0)) by lia. done.
Qed.

(** A joined payload whose parts have an encoding *)
Ltac text_parts := apply encodable_join; [by apply encodable_u|];
  repeat match goal with |- Forall encodable (_ :: _) => apply Forall_cons_2 | |- Forall encodable [] => apply Forall_nil_2 end;
  try done; try (by apply encodable_u); try apply encodable_hex; try (apply encodable_int; lia).

(** What is left to show of a request: the payload of its metadata, and that the
    validator of its kind reduces to its own checks on the fields. *)
Lemma request_signed entropy m net height text :
  m !! u "owner_pubkey_hex" = Some (hex (wallet_public_key w)) -> m !! u "owner_signature_version" = None ->
  _special_node_transaction_signature_payload_v1 (special_transaction m) = Ok text -> encodable text -> encodable net -> net ≠ [] ->
  is_special_node_transaction (special_transaction m) = true ->
  (forall sig, let t := special_transaction (signed_metadata net height m sig) in
     _validate_node_metadata_common t = Ok tt -> (forall msg, check_owner_signature t msg = Ok tt) ->
     validate_special_node_transaction_stateless t = Ok tt) ->
  exists t, _sign_special_node_metadata w entropy m net height = Ok t /\ validate_transaction_stateless t = Ok tt /\
    special_node_transaction_signature_is_valid t net height = Ok true.
Proof.
  intros Hpk Hver Hp Ht Htn Hn Hk Hcheck. destruct (sign_special entropy m net height text Hpk Hver Hp Ht Htn Hn) as (sig & Hbuild & Hl & Hvalid & Hstate).
  exists (special_transaction (signed_metadata net height m sig)). split; [done|]. split; [|done]. apply stateless_accepts; [done|]. apply Hcheck.
  - apply common_checks; done || lia.
  - intros msg. by apply owner_check.
Qed.

(** The fields of the request in the signed transaction, and the test of its kind *)
Ltac request_fields := unfold validate_special_node_transaction_stateless, is_legacy_register_node_transaction, is_legacy_renew_node_transaction,
  is_register_reward_node_transaction, is_renew_reward_node_transaction; rewrite !signed_kind;
  repeat match goal with |- context [has_kind ?k ?t] => let r := eval vm_compute in (has_kind k t) in change (has_kind k t) with r end; cbv iota.
Ltac field_is key v := repeat rewrite (signed_text _ _ _ _ key) by in_payload;
  match goal with |- context [md_text (special_transaction ?m) key] => change (md_text (special_transaction m) key) with v end.

Lemma register_ok entropy i payout net height : request_ok (RegisterNode i payout) -> encodable net -> net ≠ [] ->
  exists t, build_register_node_transaction w entropy i payout net height = Ok t /\ validate_transaction_stateless t = Ok tt /\
    special_node_transaction_signature_is_valid t net height = Ok true.
Proof.
  intros (Hi & Hti & Hpay) Htn Hn. destruct (payout_check payout "register_node transactions must declare a valid payout_address." Hpay) as [Hpay1 Hpay2].
  unfold build_register_node_transaction, check_node_id. rewrite bool_decide_false by done. cbn [raise_if rbind]. rewrite Hpay2. cbn [rbind].
  destruct owner_key_parses as [_ ->]. cbn [rbind]. eapply request_signed; [reflexivity|reflexivity|reflexivity| |done|done|reflexivity|].
  { destruct Hpay as [_ Hp]. text_parts. }
  intros sig t Hc Ho. unfold t in *. request_fields. unfold _validate_register_node_transaction. rewrite Hc. cbn [rbind].
  field_is "node_id" i. field_is "payout_address" payout. rewrite bool_decide_false by done. cbn [raise_if rbind]. rewrite Hpay1. apply Ho.
Qed.

Lemma renew_ok entropy i epoch net height : request_ok (RenewNode i epoch) -> encodable net -> net ≠ [] ->
  exists t, build_renew_node_transaction w entropy i epoch net height = Ok t /\ validate_transaction_stateless t = Ok tt /\
    special_node_transaction_signature_is_valid t net height = Ok true.
Proof.
  intros (Hi & Hti & He) Htn Hn. unfold build_renew_node_transaction, check_node_id. rewrite bool_decide_false by done. cbn [raise_if rbind].
  destruct owner_key_parses as [_ ->]. cbn [rbind]. eapply request_signed; [reflexivity|reflexivity|reflexivity| |done|done|reflexivity|]; [text_parts|].
  intros sig t Hc Ho. unfold t in *. request_fields. unfold _validate_renew_node_transaction. rewrite Hc. cbn [rbind].
  field_is "node_id" i. field_is "renewal_epoch" (py_str_int epoch). rewrite !bool_decide_false by (done || apply py_str_int_nonempty). apply Ho.
Qed.

Lemma register_reward_ok entropy i payout key host port fee net height : request_ok (RegisterRewardNode i payout key host port fee) -> encodable net -> net ≠ [] ->
  exists t, build_register_reward_node_transaction w entropy i payout key host port fee net height = Ok t /\ validate_transaction_stateless t = Ok tt /\
    special_node_transaction_signature_is_valid t net height = Ok true.
Proof.
  intros (Hi & Hti & Hpay & Hkey & Hkne & Hkt & Hend) Htn Hn.
  destruct (payout_check payout "register_reward_node transactions must declare a valid payout_address." Hpay) as [Hpay1 Hpay2].
  destruct (endpoint_check host port fee "register_reward_node transactions must declare a non-negative registration_fee_chipbits." Hend) as [He1 He2].
  unfold build_register_reward_node_transaction, check_node_id. rewrite bool_decide_false by done. cbn [raise_if rbind]. rewrite Hpay2. cbn [rbind].
  rewrite bool_decide_false by done. cbn [raise_if rbind]. destruct owner_key_parses as [_ ->]. cbn [rbind].
  eapply request_signed; [reflexivity|reflexivity|reflexivity| |done|done|reflexivity|].
  { destruct Hpay as [_ Hp]. destruct Hend as (_ & Hh & Hport & Hfee). text_parts. }
  intros sig t Hc Ho. unfold t in *. request_fields. unfold _validate_register_reward_node_transaction. rewrite Hc. cbn [rbind].
  field_is "node_id" i. field_is "payout_address" payout. field_is "node_pubkey_hex" key. field_is "declared_host" host.
  field_is "declared_port" (py_str_int port). field_is "registration_fee_chipbits" (py_str_int fee).
  rewrite !bool_decide_false by done. cbn [raise_if rbind]. rewrite Hpay1. cbn [rbind]. destruct (parse_public_key_hex key); [|discriminate Hkey]. cbn [rbind].
  rewrite He1. cbn [rbind]. rewrite He2. apply Ho.
Qed.

Lemma renew_reward_ok entropy i epoch host port fee net height : request_ok (RenewRewardNode i epoch host port fee) -> encodable net -> net ≠ [] ->
  exists t, build_renew_reward_node_transaction w entropy i epoch host port fee net height = Ok t /\ validate_transaction_stateless t = Ok tt /\
    special_node_transaction_signature_is_valid t net height = Ok true.
Proof.
  intros (Hi & Hti & Hep & Hend) Htn Hn.
  destruct (endpoint_check host port fee "renew_reward_node transactions must declare a non-negative renewal_fee_chipbits." Hend) as [He1 He2].
  unfold build_renew_reward_node_transaction, check_node_id. rewrite bool_decide_false by done. cbn [raise_if rbind].
  destruct owner_key_parses as [_ ->]. cbn [rbind]. eapply request_signed; [reflexivity|reflexivity|reflexivity| |done|done|reflexivity|].
  { destruct Hend as (_ & Hh & Hport & Hfee). text_parts. }
  intros sig t Hc Ho. unfold t in *. request_fields. unfold _validate_renew_reward_node_transaction. rewrite Hc. cbn [rbind].
  field_is "node_id" i. field_is "renewal_epoch" (py_str_int epoch). field_is "declared_host" host.
  field_is "declared_port" (py_str_int port). field_is "renewal_fee_chipbits" (py_str_int fee).
  rewrite !bool_decide_false by (done || apply py_str_int_nonempty). cbn [raise_if rbind]. rewrite He1. cbn [rbind]. rewrite He2. apply Ho.
Qed.

(** For a request with its fields in order, whichever of the four kinds it is, the
    wallet returns a transaction that the stateless rules accept and whose owner
    signature is valid for the network and the height it was made for. *)
Theorem wallet_registration_accepted (entropy : bytes) (request : registry_request) (net : str) (height : Z) :
  request_ok request -> encodable net -> net ≠ [] ->
  exists t, build_request entropy request net height = Ok t /\ validate_transaction_stateless t = Ok tt /\
    special_node_transaction_signature_is_valid t net height = Ok true.
Proof.
  intros Hr Ht Hn. destruct request; cbn [build_request].
  - by apply register_ok.
  - by apply renew_ok.
  - by apply register_reward_ok.
  - by apply renew_reward_ok.
Qed.
End registry.
