(* ===== verification/Snapshots.v ===== *)
(** * Snapshots of the chain state ([node/snapshots.py])

    The JSON payload of a snapshot, its checksum and signatures, the two file formats
    and the decoder with its checks.  Payloads are JSON objects as association
    lists.  [gzip] and Ed25519 come from outside and are the class
    [SnapshotBackend]; [SnapshotLaws] names what their documentation promises. *)

From S2P Require Import Prelude PyOrder PyText Hashes Params Models Serialization Registry Pow Json Settlement Utxo Headers RewardStore.

Definition SNAPSHOT_KIND : str := u "chipcoin-chainstate-snapshot".
Definition SNAPSHOT_FORMAT_VERSION_V1 : Z := 1.
Definition SNAPSHOT_FORMAT_VERSION_V2 : Z := 2.
Definition SNAPSHOT_SIGNATURE_ALGORITHM : str := u "ed25519".
Definition SNAPSHOT_V2_MAGIC : bytes := byte.of_Z <$> [67; 72; 67; 83; 78; 80; 50; 10].
Definition SNAPSHOT_V2_HEADER_SIZE : Z := 24.
Definition SNAPSHOT_V2_PAYLOAD_ENCODING : str := u "gzip+json".

Abbreviation dict := (list (str * json)).

(** [d.get(key)] and [d.get(key, default)] *)
Definition dget (d : dict) (key : string) : option json := dict_get d (u key).
Definition dget_or (d : dict) (key : string) (default : json) : json := match dict_get d (u key) with Some v => v | None => default end.

Class SnapshotBackend := {
  gzip_compress : bytes -> bytes;
  gzip_decompress : bytes -> res bytes;
  (** [Ed25519PrivateKey.from_private_bytes(k).public_key()] as raw bytes, [sign] and
      [verify] without an exception *)
  ed25519_public : bytes -> bytes;
  ed25519_sign : bytes -> bytes -> bytes;
  ed25519_verify : bytes -> bytes -> bytes -> bool;
}.

Class SnapshotLaws `{SnapshotBackend} : Prop := {
  decompress_compress : forall data, gzip_decompress (gzip_compress data) = Ok data;
  ed25519_public_size : forall k, len k = 32 -> len (ed25519_public k) = 32;
  ed25519_sign_verifies : forall k d, len k = 32 -> ed25519_verify (ed25519_public k) (ed25519_sign k d) d = true;
  ed25519_sign_nonempty : forall k d, ed25519_sign k d ≠ [];
}.

Record SnapshotHeaderRecord : Type := mkSnapshotHeader {
  snapshot_header : BlockHeader;
  snapshot_header_height : Z;
  snapshot_cumulative_work : Z;
}.

Record LoadedSnapshot : Type := mkLoaded {
  loaded_metadata : dict;
  loaded_headers : list SnapshotHeaderRecord;
  loaded_blocks : list Block;
  loaded_utxos : list (OutPoint * UtxoEntry);
  node_registry_records : list NodeRecord;
  reward_attestation_bundles : list StoredRewardAttestationBundle;
  epoch_settlements : list StoredEpochSettlement;
  valid_signature_count : Z;
  trusted_signature_count : Z;
  accepted_signer_pubkeys : list str;
  snapshot_warnings : list str;
}.

Section snapshots.
Context `{PyRepr, SnapshotBackend}.

Definition canonical_json_dumps (payload : json) : res bytes := utf8_encode (json_dumps payload).

(** [json.loads(json.dumps(payload))]; the source keeps the order of the keys and this
    sorts them, which nothing observes. *)
Definition _normalize_snapshot_payload (payload : dict) : res dict :=
  let* copy := json_loads (json_dumps (JObj payload)) in
  match copy with JObj d => Ok d | _ => raise TypeError "not an object" end.

(** Listed in the order in which they are printed *)
Definition body_keys : list string :=
  ["blocks"; "epoch_settlements"; "headers"; "node_registry"; "reward_attestation_bundles"; "utxos"]%string.
Definition _snapshot_body (payload : dict) : dict := (fun key => (u key, dget_or payload key (JList []))) <$> body_keys.

(** [dict(v)] for a value of the payload *)
Definition as_dict (v : json) : res dict := match v with JObj d => Ok d | _ => raise TypeError "cannot convert to a dictionary" end.

Definition canonicalize_snapshot_payload (payload : dict) (include_checksum : bool) : res dict :=
  let* normalized := _normalize_snapshot_payload payload in
  let* metadata := as_dict (dget_or normalized "metadata" (JObj [])) in
  let metadata := dict_set metadata (u "signatures") (JList []) in
  let metadata := if include_checksum then metadata else dict_set metadata (u "checksum_sha256") JNull in
  Ok (dict_set normalized (u "metadata") (JObj metadata)).

Definition snapshot_checksum (payload : dict) : res str :=
  let* normalized := canonicalize_snapshot_payload payload false in
  let* data := canonical_json_dumps (JObj normalized) in
  Ok (hex (sha256 data)).

Definition snapshot_signature_digest (payload : dict) : res bytes :=
  let* normalized := canonicalize_snapshot_payload payload true in
  let* data := canonical_json_dumps (JObj normalized) in
  Ok (sha256 data).

(** ** Signing *)

Definition parse_ed25519_private_key_hex (v : str) : res bytes :=
  let* private_key := try_except (fromhex v) ValueError (fun _ => raise ValueError "Snapshot signer private key hex is invalid.") in
  raise_if (negb (len private_key =? 32)) ValueError "Snapshot signer private key must be exactly 32 bytes." ;;
  Ok private_key.

Definition parse_ed25519_public_key_hex (v : str) : res bytes :=
  let* key := try_except (fromhex v) ValueError (fun _ => raise ValueError "Snapshot trusted public key hex is invalid.") in
  raise_if (negb (len key =? 32)) ValueError "Snapshot trusted public key must be exactly 32 bytes." ;;
  Ok key.

Definition ed25519_public_key_hex_from_private_key (private_key : bytes) : res str :=
  raise_if (negb (len private_key =? 32)) ValueError "Snapshot signer private key must be exactly 32 bytes." ;;
  Ok (hex (ed25519_public private_key)).

Definition signature_record (public_key_hex signature_hex : str) : json :=
  JObj [(u "algorithm", JStr SNAPSHOT_SIGNATURE_ALGORITHM); (u "public_key_hex", JStr public_key_hex); (u "signature_hex", JStr signature_hex)].

(** [isinstance(entry, dict) and entry.get("public_key_hex") == public_key_hex] *)
Definition signed_by (public_key_hex : str) (entry : json) : bool :=
  match entry with
  | JObj d => match dget d "public_key_hex" with Some (JStr k) => bool_decide (k = public_key_hex) | _ => false end
  | _ => false
  end.

Definition sign_snapshot_payload (payload : dict) (private_key : bytes) : res dict :=
  raise_if (negb (len private_key =? 32)) ValueError "Snapshot signer private key must be exactly 32 bytes." ;;
  let* normalized := _normalize_snapshot_payload payload in
  let* metadata := as_dict (dget_or normalized "metadata" (JObj [])) in
  let* digest := snapshot_signature_digest normalized in
  let public_key_hex := hex (ed25519_public private_key) in
  let record := signature_record public_key_hex (hex (ed25519_sign private_key digest)) in
  let signatures := match dget metadata "signatures" with Some (JList l) => l | _ => [] end in
  let filtered := filter (fun entry => signed_by public_key_hex entry = false) signatures ++ [record] in
  let metadata := dict_set metadata (u "signatures") (JList filtered) in
  let* checksum := snapshot_checksum normalized in
  let metadata := dict_set metadata (u "checksum_sha256") (JStr checksum) in
  Ok (dict_set normalized (u "metadata") (JObj metadata)).

(** ** Files *)

Definition compatibility (preferred : Z) : json :=
  JObj [(u "min_reader_format_version", JInt SNAPSHOT_FORMAT_VERSION_V1); (u "preferred_reader_format_version", JInt preferred)].

(** [metadata.setdefault(key, v)] *)
Definition setdefault (d : dict) (key : string) (v : json) : dict :=
  match dget d key with Some _ => d | None => dict_set d (u key) v end.

(** What is written to the path *)
Definition write_snapshot_file (payload : dict) : res bytes :=
  let* normalized := _normalize_snapshot_payload payload in
  let* metadata := as_dict (dget_or normalized "metadata" (JObj [])) in
  let* checksum := snapshot_checksum normalized in
  let metadata := dict_set metadata (u "checksum_sha256") (JStr checksum) in
  let normalized := dict_set normalized (u "metadata") (JObj metadata) in
  let* format_version := json_int (dget_or metadata "format_version" (JInt SNAPSHOT_FORMAT_VERSION_V1)) in
  if format_version =? SNAPSHOT_FORMAT_VERSION_V1 then
    let* data := canonical_json_dumps (JObj normalized) in Ok (data ++ [byte.of_Z 10])
  else if negb (format_version =? SNAPSHOT_FORMAT_VERSION_V2) then raise ValueError "unsupported snapshot format version for writing"
  else
    let* body_bytes := canonical_json_dumps (JObj (_snapshot_body normalized)) in
    let compressed_body := gzip_compress body_bytes in
    let metadata := dict_set metadata (u "payload_encoding") (JStr SNAPSHOT_V2_PAYLOAD_ENCODING) in
    let metadata := dict_set metadata (u "payload_sha256") (JStr (hex (sha256 body_bytes))) in
    let metadata := dict_set metadata (u "compressed_payload_sha256") (JStr (hex (sha256 compressed_body))) in
    let metadata := setdefault metadata "compatibility" (compatibility SNAPSHOT_FORMAT_VERSION_V2) in
    let* checksum := snapshot_checksum (dict_set normalized (u "metadata") (JObj metadata)) in
    let metadata := dict_set metadata (u "checksum_sha256") (JStr checksum) in
    let* metadata_bytes := canonical_json_dumps (JObj metadata) in
    let* n := to_bytes_big 8 (len metadata_bytes) in
    let* m := to_bytes_big 8 (len compressed_body) in
    Ok (SNAPSHOT_V2_MAGIC ++ n ++ m ++ metadata_bytes ++ compressed_body).

(** [raw.lstrip().startswith(b"{")] *)
Definition byte_space (x : Init.Byte.byte) : bool := let c := byte.unsigned x in (c =? 32) || ((9 <=? c) && (c <=? 13)).
Fixpoint starts_with_brace (raw : bytes) : bool :=
  match raw with
  | [] => false
  | x :: rest => if byte_space x then starts_with_brace rest else byte.unsigned x =? 123
  end.

(** [{"metadata": metadata, **body}] *)
Definition merge_body (metadata body : dict) : dict := foldl (fun d kv => dict_set d kv.1 kv.2) [(u "metadata", JObj metadata)] body.

(** [json.loads(data.decode("utf-8"))] for a value that has to be an object *)
Definition loads_object (data : bytes) (msg : string) : res dict :=
  let* text := utf8_decode data in
  let* v := json_loads text in
  match v with JObj d => Ok d | _ => raise ValueError msg end.

Definition read_snapshot_payload (raw : bytes) : res dict :=
  if starts_with_brace raw then loads_object raw "not an object"
  else
    raise_if (len raw <? SNAPSHOT_V2_HEADER_SIZE) ValueError "snapshot file is too short" ;;
    raise_if (negb (bool_decide (slice raw 0 8 = SNAPSHOT_V2_MAGIC))) ValueError "unsupported snapshot binary container" ;;
    let metadata_length := from_bytes_big (slice raw 8 16) in
    let payload_length := from_bytes_big (slice raw 16 24) in
    let metadata_bytes := slice raw 24 (24 + metadata_length) in
    let payload_bytes := slice raw (24 + metadata_length) (24 + metadata_length + payload_length) in
    raise_if (negb (len metadata_bytes =? metadata_length) || negb (len payload_bytes =? payload_length)) ValueError
      "snapshot v2 container is truncated" ;;
    let* metadata := loads_object metadata_bytes "snapshot v2 metadata must be an object" in
    raise_if (match dget metadata "payload_encoding" with Some (JStr e) => negb (bool_decide (e = SNAPSHOT_V2_PAYLOAD_ENCODING)) | _ => true end)
      ValueError "unsupported snapshot v2 payload encoding" ;;
    raise_if (match dget metadata "compressed_payload_sha256" with Some (JStr h) => negb (bool_decide (hex (sha256 payload_bytes) = h)) | _ => false end)
      ValueError "snapshot compressed payload checksum mismatch" ;;
    let* body_bytes := match gzip_decompress payload_bytes with Ok x => Ok x | Raise _ => raise ValueError "snapshot v2 compressed payload is invalid" end in
    raise_if (match dget metadata "payload_sha256" with Some (JStr h) => negb (bool_decide (hex (sha256 body_bytes) = h)) | _ => true end)
      ValueError "snapshot payload checksum mismatch" ;;
    let* body := loads_object body_bytes "snapshot v2 payload body must be an object" in
    Ok (merge_body metadata body).

(** ** Headers *)

(** The state of the loop: the previous header, the cumulative work and the headers so far *)
Record HeaderCheck : Type := mkHeaderCheck {
  previous_header : option BlockHeader;
  previous_cumulative_work : Z;
  validated_headers : list BlockHeader;
}.

Definition expected_snapshot_bits (params : ConsensusParams) (checked : HeaderCheck) (index : Z) (h : BlockHeader) : res Z :=
  match previous_header checked with
  | None =>
      raise_if (negb (bool_decide (previous_block_hash h = zero_hash))) ValueError "snapshot genesis header must anchor to the zero hash" ;;
      Ok (genesis_bits params)
  | Some previous =>
      let* hash := block_hash previous in
      raise_if (negb (bool_decide (previous_block_hash h = hash))) ValueError "snapshot headers do not form a connected main chain" ;;
      raise_if (timestamp h <? timestamp previous) ValueError "snapshot header timestamp is below the previous header timestamp" ;;
      if index mod difficulty_adjustment_window params =? 0 then
        let window_start_height := Z.max 0 (index - difficulty_adjustment_window params) in
        match validated_headers checked !! Z.to_nat window_start_height with
        | None => raise IndexError "list index out of range"
        | Some first => calculate_next_work_required (bits previous) (Z.max 1 (timestamp previous - timestamp first)) params (Some index)
        end
      else Ok (bits previous)
  end.

Definition check_snapshot_header (params : ConsensusParams) (checked : HeaderCheck) (index_record : Z * SnapshotHeaderRecord) : res HeaderCheck :=
  let '(index, record) := index_record in
  let h := snapshot_header record in
  raise_if (negb (snapshot_header_height record =? index)) ValueError "snapshot headers must form a contiguous height sequence" ;;
  raise_if (timestamp h <? 0) ValueError "snapshot header timestamp cannot be negative" ;;
  let* valid := verify_proof_of_work h in
  raise_if (negb valid) ValueError "snapshot header proof of work is invalid" ;;
  let* expected_bits := expected_snapshot_bits params checked index h in
  raise_if (negb (bits h =? expected_bits)) ValueError "snapshot header difficulty does not match expected retarget rules" ;;
  let* work := header_work h in
  let cumulative := previous_cumulative_work checked + work in
  raise_if (negb (snapshot_cumulative_work record =? cumulative)) ValueError "snapshot cumulative work is inconsistent with embedded headers" ;;
  Ok (mkHeaderCheck (Some h) cumulative (validated_headers checked ++ [h])).

Definition _validate_snapshot_headers (records : list SnapshotHeaderRecord) (params : ConsensusParams) : res unit :=
  let* _ := foldM (check_snapshot_header params) (mkHeaderCheck None 0 []) (enumerate records) in Ok tt.

(** ** Signatures *)

Definition OFF : str := u "off".
Definition WARN : str := u "warn".
Definition ENFORCE : str := u "enforce".

Record SignatureCheck : Type := mkSignatureCheck {
  valid_count : Z;
  trusted_count : Z;
  accepted_signers : list str;
  trust_warnings : list str;
}.

(** A non-empty text of a dictionary *)
Definition required_text (d : dict) (key msg : string) : res str :=
  match dget d key with Some (JStr (c :: s)) => Ok (c :: s) | _ => raise ValueError msg end.

Definition warn_or_raise (trust_mode : str) (c : SignatureCheck) (warning msg : string) : res SignatureCheck :=
  if bool_decide (trust_mode = WARN)
  then Ok (mkSignatureCheck (valid_count c) (trusted_count c) (accepted_signers c) (trust_warnings c ++ [u warning]))
  else raise ValueError msg.

(** One turn of the loop over the signatures *)
Definition check_signature (trust_mode : str) (trusted_key_set : list str) (digest : bytes) (c : SignatureCheck) (raw_signature : json) : res SignatureCheck :=
  match raw_signature with
  | JObj d =>
      raise_if (match dget d "algorithm" with Some (JStr a) => negb (bool_decide (a = SNAPSHOT_SIGNATURE_ALGORITHM)) | _ => true end)
        ValueError "unsupported snapshot signature algorithm" ;;
      let* public_key_hex := required_text d "public_key_hex" "snapshot signature public_key_hex is required" in
      let* signature_hex := required_text d "signature_hex" "snapshot signature_hex is required" in
      let* key := parse_ed25519_public_key_hex public_key_hex in
      match fromhex signature_hex with
      | Raise _ => warn_or_raise trust_mode c "snapshot_signature_encoding_invalid" "snapshot signature_hex is invalid"
      | Ok sig =>
          if negb (ed25519_verify key sig digest)
          then warn_or_raise trust_mode c "snapshot_signature_invalid" "snapshot signature is invalid for the canonical payload"
          else
            let trusted := bool_decide (public_key_hex ∈ trusted_key_set) in
            Ok (mkSignatureCheck (valid_count c + 1) (trusted_count c + if trusted then 1 else 0) (accepted_signers c ++ [public_key_hex])
                  (trust_warnings c ++
                   if negb trusted && negb (bool_decide (trusted_key_set = [])) && bool_decide (trust_mode = WARN)
                   then [u "snapshot_signer_not_trusted"] else []))
      end
  | _ => raise ValueError "snapshot signature entry must be an object"
  end.

(** [tuple(dict.fromkeys(warnings))] *)
Definition from_keys (l : list str) : list str := foldl (fun acc x => if bool_decide (x ∈ acc) then acc else acc ++ [x]) [] l.

Definition _validate_snapshot_signatures (payload : dict) (trust_mode : str) (trusted_keys : list bytes) : res (Z * Z * list str * list str) :=
  raise_if (negb (bool_decide (trust_mode ∈ [OFF; WARN; ENFORCE]))) ValueError "snapshot trust mode must be one of: off, warn, enforce" ;;
  match dget payload "metadata" with
  | Some (JObj metadata) =>
      let* signatures := match dget_or metadata "signatures" (JList []) with
                         | JNull => Ok []
                         | JList l => Ok l
                         | _ => raise ValueError "snapshot signatures must be a list"
                         end in
      let* digest := snapshot_signature_digest payload in
      let trusted_key_set := hex <$> trusted_keys in
      let* c := foldM (check_signature trust_mode trusted_key_set digest) (mkSignatureCheck 0 0 [] []) signatures in
      let unsigned := bool_decide (length signatures = 0%nat) in
      let* last_warning :=
        if bool_decide (trust_mode = ENFORCE) then
          raise_if unsigned ValueError "snapshot must contain at least one signature in enforce mode" ;;
          raise_if (trusted_count c =? 0) ValueError "snapshot does not contain a valid signature from a trusted signer" ;;
          Ok []
        else if bool_decide (trust_mode = WARN) then
          Ok (if unsigned then [u "snapshot_unsigned_but_accepted_due_to_warn_mode"]
              else if valid_count c =? 0 then [u "snapshot_unverified_but_accepted_due_to_warn_mode"]
              else if negb (bool_decide (trusted_key_set = [])) && (trusted_count c =? 0)
              then [u "snapshot_untrusted_signer_but_accepted_due_to_warn_mode"] else [])
        else Ok [] in
      Ok (valid_count c, trusted_count c, py_sorted (remove_dups (accepted_signers c)), from_keys (trust_warnings c ++ last_warning))
  | _ => raise ValueError "snapshot metadata is required"
  end.

(** ** Decoding *)

(** [if not isinstance(record, dict): raise ValueError(msg)] *)
Definition need_object (v : json) (msg : string) : res unit := match v with JObj _ => Ok tt | _ => raise ValueError msg end.
Definition need_list (v : option json) (msg : string) : res (list json) := match v with Some (JList l) => Ok l | _ => raise ValueError msg end.

(** [record.get("raw_hex")] as bytes *)
Definition raw_bytes (record : json) (msg : string) : res bytes :=
  match record with
  | JObj d => match dget d "raw_hex" with Some (JStr h) => fromhex h | _ => raise ValueError msg end
  | _ => raise ValueError msg
  end.

Definition decode_header_record (raw_record : json) : res SnapshotHeaderRecord :=
  need_object raw_record "snapshot header record must be an object" ;;
  let* raw := raw_bytes raw_record "snapshot header raw_hex is required" in
  let* '(h, offset) := deserialize_block_header raw 0 in
  raise_if (negb (offset =? len raw)) ValueError "snapshot header contains trailing bytes" ;;
  let* height := item_int raw_record "height" in
  let* work := item_int raw_record "cumulative_work" in
  Ok (mkSnapshotHeader h height work).

Definition decode_utxo (raw_entry : json) : res (OutPoint * UtxoEntry) :=
  need_object raw_entry "snapshot utxo entry must be an object" ;;
  let* id := item_str raw_entry "txid" in
  let* index := item_int raw_entry "output_index" in
  let* v := item_int raw_entry "value_chipbits" in
  let* to := item_str raw_entry "recipient" in
  let* height := item_int raw_entry "height" in
  let* coinbase := json_item raw_entry "is_coinbase" in
  Ok (mkOutPoint id index, mkUtxoEntry (mkTxOutput v to) height (json_bool coinbase)).

Definition decode_block_record (records : list SnapshotHeaderRecord) (index_block : Z * json) : res Block :=
  let '(index, raw_block) := index_block in
  need_object raw_block "snapshot block record must be an object" ;;
  let* raw := raw_bytes raw_block "snapshot block raw_hex is required" in
  let* '(block, offset) := deserialize_block raw 0 in
  raise_if (negb (offset =? len raw)) ValueError "snapshot block contains trailing bytes" ;;
  match records !! Z.to_nat index with
  | None => raise IndexError "list index out of range"
  | Some record =>
      raise_if (negb (bool_decide (header block = snapshot_header record))) ValueError "snapshot block does not match embedded main-chain header" ;;
      Ok block
  end.

(** [record.get(key) in (None, "")] *)
Definition absent (record : json) (key : string) : bool :=
  match record with
  | JObj d => match dget d key with None | Some JNull | Some (JStr []) => true | _ => false end
  | _ => true
  end.

Definition optional {A} (record : json) (key : string) (parse : json -> res A) : res (option A) :=
  if absent record key then Ok None else let* v := json_item record key in let* x := parse v in Ok (Some x).

Definition decode_registry_record (raw_record : json) : res NodeRecord :=
  need_object raw_record "snapshot node registry record must be an object" ;;
  let* i := item_str raw_record "node_id" in
  let* payout := item_str raw_record "payout_address" in
  let* owner_hex := item_str raw_record "owner_pubkey_hex" in
  let* owner := fromhex owner_hex in
  let* registered := item_int raw_record "registered_height" in
  let* renewed := item_int raw_record "last_renewed_height" in
  let* node_key := optional raw_record "node_pubkey_hex" (fun v => fromhex (json_str v)) in
  let* host := optional raw_record "declared_host" (fun v => Ok (json_str v)) in
  let* port := optional raw_record "declared_port" json_int in
  let reward := match raw_record with JObj d => json_bool (dget_or d "reward_registration" (JBool false)) | _ => false end in
  Ok (mkNodeRecord i payout owner registered renewed node_key host port reward).

(** Fields of the record as the metadata of a transaction *)
Definition text_fields (record : json) (fields : list (string * string)) : res (list (str * str)) :=
  mapM (fun '(key, source) => let* v := item_str record source in Ok (u key, v)) fields.

Definition decode_bundle (raw_bundle : json) : res StoredRewardAttestationBundle :=
  need_object raw_bundle "snapshot reward attestation bundle must be an object" ;;
  let* fields := text_fields raw_bundle [("epoch_index", "epoch_index"); ("bundle_window_index", "bundle_window_index");
    ("bundle_submitter_node_id", "bundle_submitter_node_id"); ("attestation_count", "attestation_count")]%string in
  let* attestations := json_item raw_bundle "attestations" in
  let* bundle := parse_reward_attestation_bundle_metadata (list_to_map ((u "attestations_json", json_dumps attestations) :: fields)) in
  let* id := item_str raw_bundle "txid" in
  let* height := item_int raw_bundle "block_height" in
  Ok (mkStoredBundle id height bundle).

Definition decode_settlement (raw_settlement : json) : res StoredEpochSettlement :=
  need_object raw_settlement "snapshot epoch settlement must be an object" ;;
  let* first := text_fields raw_settlement [("epoch_index", "epoch_index"); ("epoch_start_height", "epoch_start_height");
    ("epoch_end_height", "epoch_end_height"); ("epoch_seed", "epoch_seed_hex"); ("policy_version", "policy_version")]%string in
  let mode := match raw_settlement with JObj d => json_str (dget_or d "submission_mode" (JStr (u "manual"))) | _ => [] end in
  let* rest := text_fields raw_settlement [("candidate_summary_root", "candidate_summary_root"); ("verified_nodes_root", "verified_nodes_root");
    ("rewarded_nodes_root", "rewarded_nodes_root"); ("rewarded_node_count", "rewarded_node_count");
    ("distributed_node_reward_chipbits", "distributed_node_reward_chipbits");
    ("undistributed_node_reward_chipbits", "undistributed_node_reward_chipbits")]%string in
  let* entries := json_item raw_settlement "reward_entries" in
  let* settlement := parse_reward_settlement_metadata
    (list_to_map ((u "reward_entries_json", json_dumps entries) :: (u "submission_mode", mode) :: first ++ rest)) in
  let* id := item_str raw_settlement "txid" in
  let* height := item_int raw_settlement "block_height" in
  Ok (mkStoredSettlement id height settlement).

Definition decode_snapshot_payload (payload : dict) (net : str) (params : ConsensusParams) (trust_mode : str) (trusted_keys : list bytes) : res LoadedSnapshot :=
  match dget payload "metadata" with
  | Some (JObj metadata) =>
      raise_if (match dget metadata "kind" with Some (JStr k) => negb (bool_decide (k = SNAPSHOT_KIND)) | _ => true end) ValueError "unsupported snapshot kind" ;;
      let* format_version := json_int (dget_or metadata "format_version" (JInt (-1))) in
      raise_if (negb (bool_decide (format_version ∈ [SNAPSHOT_FORMAT_VERSION_V1; SNAPSHOT_FORMAT_VERSION_V2]))) ValueError "unsupported snapshot format version" ;;
      raise_if (match dget metadata "network" with Some (JStr n) => negb (bool_decide (n = net)) | _ => true end) ValueError
        "snapshot network does not match configured node network" ;;
      let* expected_checksum := required_text metadata "checksum_sha256" "snapshot checksum is required" in
      let* actual_checksum := snapshot_checksum payload in
      raise_if (negb (bool_decide (actual_checksum = expected_checksum))) ValueError "snapshot checksum mismatch" ;;
      let* '(valid, trusted, signers, warnings) := _validate_snapshot_signatures payload trust_mode trusted_keys in
      let* raw_headers := need_list (dget payload "headers") "snapshot must contain main-chain headers" in
      raise_if (bool_decide (length raw_headers = 0%nat)) ValueError "snapshot must contain main-chain headers" ;;
      let* records := mapM decode_header_record raw_headers in
      _validate_snapshot_headers records params ;;
      let* anchor_height := json_int (dget_or metadata "snapshot_height" (JInt (-1))) in
      match last records with
      | None => raise IndexError "list index out of range"
      | Some tip =>
          raise_if (negb (anchor_height =? snapshot_header_height tip)) ValueError "snapshot height does not match header chain height" ;;
          let* tip_hash := block_hash (snapshot_header tip) in
          raise_if (match dget metadata "snapshot_block_hash" with Some (JStr h) => negb (bool_decide (h = tip_hash)) | _ => true end)
            ValueError "snapshot anchor hash does not match last header" ;;
          let* raw_utxos := need_list (dget payload "utxos") "snapshot utxos must be a list" in
          let* utxos := mapM decode_utxo raw_utxos in
          let* raw_blocks := need_list (Some (dget_or payload "blocks" (JList []))) "snapshot blocks must be a list" in
          let* decoded_blocks := mapM (decode_block_record records) (enumerate raw_blocks) in
          let* raw_registry := need_list (dget payload "node_registry") "snapshot node_registry must be a list" in
          let* registry := mapM decode_registry_record raw_registry in
          let* raw_bundles := need_list (Some (dget_or payload "reward_attestation_bundles" (JList []))) "snapshot reward_attestation_bundles must be a list" in
          let* bundles := mapM decode_bundle raw_bundles in
          let* raw_settlements := need_list (Some (dget_or payload "epoch_settlements" (JList []))) "snapshot epoch_settlements must be a list" in
          let* settlements := mapM decode_settlement raw_settlements in
          Ok (mkLoaded metadata records decoded_blocks utxos registry bundles settlements valid trusted signers warnings)
      end
  | _ => raise ValueError "snapshot metadata is required"
  end.

Definition load_snapshot_file (raw : bytes) (net : str) (params : ConsensusParams) (trust_mode : str) (trusted_keys : list bytes) : res LoadedSnapshot :=
  let* payload := read_snapshot_payload raw in decode_snapshot_payload payload net params trust_mode trusted_keys.

(** ** Building; dictionaries are listed in the order of their keys *)

Definition header_record_json (record : SnapshotHeaderRecord) : res json :=
  let* hash := block_hash (snapshot_header record) in
  let* raw := serialize_block_header (snapshot_header record) in
  Ok (JObj [(u "block_hash", JStr hash); (u "cumulative_work", JStr (py_str_int (snapshot_cumulative_work record)));
            (u "height", JInt (snapshot_header_height record)); (u "raw_hex", JStr (hex raw))]).

Definition block_record_json (index_block : Z * Block) : res json :=
  let* hash := block_hash (header index_block.2) in
  let* raw := serialize_block index_block.2 in
  Ok (JObj [(u "block_hash", JStr hash); (u "height", JInt index_block.1); (u "raw_hex", JStr (hex raw))]).

Definition utxo_json (item : OutPoint * UtxoEntry) : json :=
  let '(o, entry) := item in
  JObj [(u "height", JInt (utxo_height entry)); (u "is_coinbase", JBool (is_coinbase entry)); (u "output_index", JInt (op_index o));
        (u "recipient", JStr (recipient (output entry))); (u "txid", JStr (op_txid o)); (u "value_chipbits", JInt (value (output entry)))].

Definition optional_json {A} (f : A -> json) (o : option A) : json := match o with None => JNull | Some x => f x end.

Definition registry_record_json (r : NodeRecord) : json :=
  JObj [(u "declared_host", optional_json JStr (declared_host r)); (u "declared_port", optional_json JInt (declared_port r));
        (u "last_renewed_height", JInt (last_renewed_height r)); (u "node_id", JStr (node_id r));
        (u "node_pubkey_hex", optional_json (fun k => JStr (hex k)) (node_pubkey r)); (u "owner_pubkey_hex", JStr (hex (owner_pubkey r)));
        (u "payout_address", JStr (payout_address r)); (u "registered_height", JInt (registered_height r));
        (u "reward_registration", JBool (reward_registration r))].

Definition attestation_record_json (a : RewardAttestation) : json :=
  JObj [(u "candidate_node_id", JStr (candidate_node_id a)); (u "check_window_index", JInt (check_window_index a));
        (u "concentration_key", JStr (concentration_key a)); (u "endpoint_commitment", JStr (endpoint_commitment a));
        (u "epoch_index", JInt (epoch_index a)); (u "observed_sync_gap", JInt (observed_sync_gap a)); (u "result_code", JStr (result_code a));
        (u "signature_hex", JStr (signature_hex a)); (u "verifier_node_id", JStr (verifier_node_id a))].

Definition bundle_json (stored : StoredRewardAttestationBundle) : json :=
  let bundle := stored_bundle stored in
  JObj [(u "attestation_count", JInt (len (attestations bundle))); (u "attestations", JList (attestation_record_json <$> attestations bundle));
        (u "block_height", JInt (bundle_block_height stored)); (u "bundle_submitter_node_id", JStr (bundle_submitter_node_id bundle));
        (u "bundle_window_index", JInt (bundle_window_index bundle)); (u "epoch_index", JInt (bundle_epoch_index bundle));
        (u "txid", JStr (bundle_txid stored))].

Definition settlement_json (stored : StoredEpochSettlement) : json :=
  let s := stored_settlement stored in
  JObj [(u "block_height", JInt (settlement_block_height stored)); (u "candidate_summary_root", JStr (candidate_summary_root s));
        (u "distributed_node_reward_chipbits", JInt (distributed_node_reward_chipbits s)); (u "epoch_end_height", JInt (epoch_end_height s));
        (u "epoch_index", JInt (settlement_epoch_index s)); (u "epoch_seed_hex", JStr (epoch_seed_hex s));
        (u "epoch_start_height", JInt (epoch_start_height s)); (u "policy_version", JStr (policy_version s));
        (u "reward_entries", JList (entry_json <$> reward_entries s)); (u "rewarded_node_count", JInt (rewarded_node_count s));
        (u "rewarded_nodes_root", JStr (rewarded_nodes_root s)); (u "submission_mode", JStr (submission_mode s)); (u "txid", JStr (settlement_txid stored));
        (u "undistributed_node_reward_chipbits", JInt (undistributed_node_reward_chipbits s)); (u "verified_nodes_root", JStr (verified_nodes_root s))].

Definition consensus_json (params : ConsensusParams) : json :=
  JObj [(u "coinbase_maturity", JInt (coinbase_maturity params)); (u "difficulty_adjustment_window", JInt (difficulty_adjustment_window params));
        (u "genesis_bits", JInt (genesis_bits params)); (u "legacy_target_block_time_seconds", optional_json JInt (legacy_target_block_time_seconds params));
        (u "max_block_weight", JInt (max_block_weight params));
        (u "target_block_time_activation_height", JInt (target_block_time_activation_height params));
        (u "target_block_time_seconds", JInt (target_block_time_seconds params))].

(** What a snapshot is made of *)
Record SnapshotContents : Type := mkContents {
  content_headers : list SnapshotHeaderRecord;
  content_blocks : list Block;
  content_utxos : list (OutPoint * UtxoEntry);
  content_registry : list NodeRecord;
  content_bundles : list StoredRewardAttestationBundle;
  content_settlements : list StoredEpochSettlement;
}.

Definition snapshot_metadata (net : str) (params : ConsensusParams) (created_at : Z) (c : SnapshotContents) (format_version : Z)
    (tip : SnapshotHeaderRecord) (tip_hash : str) : dict :=
  let v1 := format_version =? SNAPSHOT_FORMAT_VERSION_V1 in
  [(u "block_count", JInt (len (content_blocks c))); (u "checksum_sha256", JNull);
   (u "compatibility", compatibility (if v1 then SNAPSHOT_FORMAT_VERSION_V1 else SNAPSHOT_FORMAT_VERSION_V2));
   (u "compressed_payload_sha256", JNull); (u "consensus", consensus_json params); (u "created_at", JInt created_at);
   (u "epoch_settlement_count", JInt (len (content_settlements c))); (u "format_version", JInt format_version);
   (u "header_count", JInt (len (content_headers c))); (u "kind", JStr SNAPSHOT_KIND); (u "network", JStr net);
   (u "node_registry_count", JInt (len (content_registry c)));
   (u "payload_encoding", if v1 then JNull else JStr SNAPSHOT_V2_PAYLOAD_ENCODING); (u "payload_sha256", JNull);
   (u "reward_attestation_bundle_count", JInt (len (content_bundles c))); (u "signatures", JList []); (u "snapshot_block_hash", JStr tip_hash);
   (u "snapshot_block_timestamp", JInt (timestamp (snapshot_header tip))); (u "snapshot_height", JInt (snapshot_header_height tip));
   (u "utxo_count", JInt (len (content_utxos c)))].

Definition build_snapshot_payload (net : str) (params : ConsensusParams) (created_at : Z) (c : SnapshotContents) (format_version : Z) : res dict :=
  match last (content_headers c) with
  | None => raise ValueError "cannot export a snapshot without headers"
  | Some tip =>
      raise_if (negb (len (content_blocks c) =? len (content_headers c))) ValueError "snapshot blocks must match embedded header count" ;;
      let* tip_hash := block_hash (snapshot_header tip) in
      let metadata := snapshot_metadata net params created_at c format_version tip tip_hash in
      let* raw_headers := mapM header_record_json (content_headers c) in
      let* raw_blocks := mapM block_record_json (enumerate (content_blocks c)) in
      let body metadata :=
        [(u "blocks", JList raw_blocks); (u "epoch_settlements", JList (settlement_json <$> content_settlements c)); (u "headers", JList raw_headers);
         (u "metadata", JObj metadata); (u "node_registry", JList (registry_record_json <$> content_registry c));
         (u "reward_attestation_bundles", JList (bundle_json <$> content_bundles c)); (u "utxos", JList (utxo_json <$> content_utxos c))] in
      let* checksum := snapshot_checksum (body metadata) in
      Ok (body (dict_set metadata (u "checksum_sha256") (JStr checksum)))
  end.
End snapshots.
