(* ===== verification/SnapshotFacts.v ===== *)
(** * What an accepted snapshot guarantees

    The headers of an accepted snapshot are a chain with the work they claim; in
    enforce mode a trusted key has signed exactly this content. *)

From S2P Require Import Prelude PyOrder PyText Hashes Params Models Serialization Registry Pow Json Settlement Utxo Headers RewardStore Snapshots.

(** ** Headers *)

(** The difficulty that follows from the headers before *)
Definition difficulty_follows (params : ConsensusParams) (before : list BlockHeader) (h : BlockHeader) : Prop :=
  match last before with
  | None => bits h = genesis_bits params
  | Some previous =>
      if len before mod difficulty_adjustment_window params =? 0
      then exists first, before !! Z.to_nat (Z.max 0 (len before - difficulty_adjustment_window params)) = Some first /\
        calculate_next_work_required (bits previous) (Z.max 1 (timestamp previous - timestamp first)) params (Some (len before)) = Ok (bits h)
      else bits h = bits previous
  end.

(** A chain of headers from nothing: each with valid proof of work, linked to the
    one before, not older than it, and of the difficulty that follows. *)
Inductive header_chain (params : ConsensusParams) : list BlockHeader -> Prop :=
| chain_empty : header_chain params []
| chain_next before h : header_chain params before -> verify_proof_of_work h = Ok true -> 0 <= timestamp h ->
    match last before with
    | None => previous_block_hash h = zero_hash
    | Some previous => block_hash previous = Ok (previous_block_hash h) /\ timestamp previous <= timestamp h
    end -> difficulty_follows params before h -> header_chain params (before ++ [h]).

(** Heights count from zero and the recorded work is the sum of the work of the headers. *)
Definition works_recorded (records : list SnapshotHeaderRecord) : Prop :=
  forall i r, records !! i = Some r -> snapshot_header_height r = Z.of_nat i /\
    exists ws, mapM header_work (snapshot_header <$> take (S i) records) = Ok ws /\ snapshot_cumulative_work r = zsum ws.

Definition checked_state (params : ConsensusParams) (records : list SnapshotHeaderRecord) (c : HeaderCheck) : Prop :=
  validated_headers c = snapshot_header <$> records /\ previous_header c = last (snapshot_header <$> records) /\
  header_chain params (snapshot_header <$> records) /\ works_recorded records /\
  exists ws, mapM header_work (snapshot_header <$> records) = Ok ws /\ previous_cumulative_work c = zsum ws.

Lemma mapM_app {A B} (f : A -> res B) xs ys a b : mapM f xs = Ok a -> mapM f ys = Ok b -> mapM f (xs ++ ys) = Ok (a ++ b).
Proof.
  revert a. induction xs as [|x xs IH]; intros a Ha Hb; cbn [mapM app] in *; [by injection Ha as <-|].
  apply rbind_Ok in Ha as (y & Ey & Ha). apply rbind_Ok in Ha as (l & El & Ha). injection Ha as <-. rewrite Ey. cbn [rbind]. by rewrite (IH _ El Hb).
Qed.

Lemma check_header_step params records c r c' :
  checked_state params records c -> check_snapshot_header params c (len records, r) = Ok c' -> checked_state params (records ++ [r]) c'.
Proof.
  intros (Hv & Hp & Hc & Hw & ws & Hws & Hcum) E. unfold check_snapshot_header in E.
  apply rbind_Ok in E as ([] & Hh%raise_if_Ok & E). apply rbind_Ok in E as ([] & Ht%raise_if_Ok & E). apply rbind_Ok in E as (valid & Hpow & E).
  apply rbind_Ok in E as ([] & Hvalid%raise_if_Ok & E). apply rbind_Ok in E as (eb & Heb & E). apply rbind_Ok in E as ([] & Hb%raise_if_Ok & E).
  apply rbind_Ok in E as (work & Hwork & E). apply rbind_Ok in E as ([] & Hcw%raise_if_Ok & E). injection E as <-.
  apply negb_false_iff in Hh, Hb, Hcw, Hvalid. apply Z.eqb_eq in Hh, Hb, Hcw. apply Z.ltb_ge in Ht. subst valid.
  assert (Hws' : mapM header_work (snapshot_header <$> records ++ [r]) = Ok (ws ++ [work])).
  { rewrite fmap_app. apply mapM_app; [done|]. cbn [fmap list_fmap mapM]. by rewrite Hwork. }
  assert (Hsum : snapshot_cumulative_work r = zsum (ws ++ [work])) by (rewrite Hcw, zsum_app, Hcum; simpl; lia).
  unfold checked_state. cbn [validated_headers previous_header previous_cumulative_work]. rewrite fmap_app, last_app. cbn [fmap list_fmap last].
  split; [by rewrite Hv|]. split; [done|]. split; [|split; [|exists (ws ++ [work]); split; [by rewrite fmap_app in Hws'|by rewrite <- Hcw]]].
  - unfold expected_snapshot_bits in Heb. rewrite Hp in Heb. constructor; [done|done|done| |]; unfold difficulty_follows; destruct (last (snapshot_header <$> records)) as [previous|].
    + apply rbind_Ok in Heb as (hash & Hhash & Heb). apply rbind_Ok in Heb as ([] & He%raise_if_Ok & Heb). apply rbind_Ok in Heb as ([] & Hts%raise_if_Ok & _).
      apply negb_false_iff, bool_decide_eq_true in He. apply Z.ltb_ge in Hts. by rewrite He.
    + apply rbind_Ok in Heb as ([] & He%raise_if_Ok & _). by apply negb_false_iff, bool_decide_eq_true in He.
    + apply rbind_Ok in Heb as (hash & Hhash & Heb). apply rbind_Ok in Heb as ([] & _ & Heb). apply rbind_Ok in Heb as ([] & _ & Heb).
      assert (Hlen : len (snapshot_header <$> records) = len records) by (unfold len; by rewrite length_fmap). rewrite Hlen.
      rewrite Hv in Heb. destruct (_ =? 0); [|congruence]. destruct (_ !! _) as [first|]; [|discriminate Heb]. exists first. by rewrite Hb.
    + apply rbind_Ok in Heb as ([] & _ & Heb). congruence.
  - intros i x Hx. destruct (decide (i < length records)%nat) as [Hi|Hi].
    + rewrite lookup_app_l in Hx by done. rewrite take_app_le by lia. by apply Hw.
    + rewrite lookup_app_r in Hx by lia. apply list_lookup_singleton_Some in Hx as [Hi' <-].
      assert (i = length records) as -> by lia. split; [exact Hh|]. exists (ws ++ [work]). rewrite firstn_all2 by (rewrite length_app; simpl; lia). done.
Qed.

Lemma check_headers_state params records done_ c c' :
  checked_state params done_ c -> foldM (check_snapshot_header params) c (enumerate_from (len done_) records) = Ok c' -> checked_state params (done_ ++ records) c'.
Proof.
  revert done_ c. induction records as [|r rs IH]; intros dn c Hc E; cbn [enumerate_from foldM] in E; [injection E as <-; by rewrite app_nil_r|].
  apply rbind_Ok in E as (c1 & E1 & E). pose proof (check_header_step _ _ _ _ _ Hc E1) as Hc1.
  replace (len dn + 1) with (len (dn ++ [r])) in E by (rewrite len_app; unfold len; simpl; lia). specialize (IH _ _ Hc1 E). by rewrite <- app_assoc in IH.
Qed.

Lemma validated_chain params records : _validate_snapshot_headers records params = Ok tt ->
  header_chain params (snapshot_header <$> records) /\ works_recorded records.
Proof.
  intros Hval. unfold _validate_snapshot_headers in Hval. apply rbind_Ok in Hval as (c & Hc & _).
  assert (Hs : checked_state params [] (mkHeaderCheck None 0 [])).
  { split; [done|]. split; [done|]. split; [apply chain_empty|]. split; [by intros i r Hr|by exists []]. }
  destruct (check_headers_state params records [] _ c Hs Hc) as (_ & _ & Hchain & Hwork & _). done.
Qed.

Section accepted.
Context `{PyRepr, SnapshotBackend}.

(** The checks a payload has passed *)
Lemma decode_snapshot_inv payload net params mode keys s : decode_snapshot_payload payload net params mode keys = Ok s ->
  dget payload "metadata" = Some (JObj (loaded_metadata s)) /\
  dget (loaded_metadata s) "network" = Some (JStr net) /\
  (exists checksum, snapshot_checksum payload = Ok checksum /\ dget (loaded_metadata s) "checksum_sha256" = Some (JStr checksum)) /\
  _validate_snapshot_signatures payload mode keys = Ok (valid_signature_count s, trusted_signature_count s, accepted_signer_pubkeys s, snapshot_warnings s) /\
  _validate_snapshot_headers (loaded_headers s) params = Ok tt /\
  exists tip hash, last (loaded_headers s) = Some tip /\
    json_int (dget_or (loaded_metadata s) "snapshot_height" (JInt (-1))) = Ok (snapshot_header_height tip) /\
    block_hash (snapshot_header tip) = Ok hash /\ dget (loaded_metadata s) "snapshot_block_hash" = Some (JStr hash).
Proof.
  unfold decode_snapshot_payload. intros E. destruct (dget payload "metadata") as [[| | | | | |md]|] eqn:Emd; try discriminate E.
  apply rbind_Ok in E as ([] & _ & E). apply rbind_Ok in E as (fv & _ & E). apply rbind_Ok in E as ([] & _ & E). apply rbind_Ok in E as ([] & Hnet%raise_if_Ok & E).
  apply rbind_Ok in E as (ck & Hck & E). apply rbind_Ok in E as (ck' & Hck' & E). apply rbind_Ok in E as ([] & Heq%raise_if_Ok & E).
  apply rbind_Ok in E as ([[[valid trusted] signers] warnings] & Hsig & E). apply rbind_Ok in E as (raw & _ & E). apply rbind_Ok in E as ([] & _ & E).
  apply rbind_Ok in E as (records & _ & E). apply rbind_Ok in E as ([] & Hval & E). apply rbind_Ok in E as (ah & Hah & E).
  destruct (last records) as [tip|] eqn:El; [|discriminate E]. apply rbind_Ok in E as ([] & Hh%raise_if_Ok & E). apply rbind_Ok in E as (th & Hth & E).
  apply rbind_Ok in E as ([] & Hbh%raise_if_Ok & E). do 10 (apply rbind_Ok in E as (? & _ & E)). injection E as <-.
  cbn [loaded_metadata loaded_headers valid_signature_count trusted_signature_count accepted_signer_pubkeys snapshot_warnings].
  apply negb_false_iff, bool_decide_eq_true in Heq. apply negb_false_iff, Z.eqb_eq in Hh. subst ck' ah.
  split; [done|]. split; [destruct (dget md "network") as [[| | | |n| |]|]; try discriminate Hnet; by apply negb_false_iff, bool_decide_eq_true in Hnet as ->|].
  split; [exists ck; split; [done|]; unfold required_text in Hck; destruct (dget md "checksum_sha256") as [[| | | |[|c t]| |]|]; try discriminate Hck; by injection Hck as <-|].
  split; [done|]. split; [done|]. exists tip, th. do 3 (split; [done|]).
  destruct (dget md "snapshot_block_hash") as [[| | | |n| |]|]; try discriminate Hbh. by apply negb_false_iff, bool_decide_eq_true in Hbh as ->.
Qed.

(** C27: The headers of a snapshot that loads are a chain from the zero hash with valid
    proof of work and the difficulty that follows from the headers before, the heights
    count from zero, the recorded work is that of the headers, and the anchor names
    the last of them. *)
Theorem snapshot_headers_checked (payload : dict) (net : str) (params : ConsensusParams) (mode : str) (keys : list bytes) (s : LoadedSnapshot) :
  decode_snapshot_payload payload net params mode keys = Ok s ->
  header_chain params (snapshot_header <$> loaded_headers s) /\ works_recorded (loaded_headers s) /\
  exists tip hash, last (loaded_headers s) = Some tip /\
    json_int (dget_or (loaded_metadata s) "snapshot_height" (JInt (-1))) = Ok (snapshot_header_height tip) /\
    block_hash (snapshot_header tip) = Ok hash /\ dget (loaded_metadata s) "snapshot_block_hash" = Some (JStr hash).
Proof.
  intros (_ & _ & _ & _ & Hval & Htip)%decode_snapshot_inv. by destruct (validated_chain _ _ Hval).
Qed.

(** ** Signatures *)

(** Entries of the list that count as trusted are signatures by a trusted key. *)
Definition trusted_signature (keys : list bytes) (digest : bytes) (entry : json) : Prop :=
  exists d key sig, entry = JObj d /\ key ∈ keys /\ dget d "public_key_hex" = Some (JStr (hex key)) /\
    (exists t, dget d "signature_hex" = Some (JStr t) /\ fromhex t = Ok sig) /\ ed25519_verify key sig digest = true.

Lemma check_signature_trusted mode keys digest c entry c' :
  check_signature mode (hex <$> keys) digest c entry = Ok c' -> trusted_count c' = trusted_count c \/ trusted_signature keys digest entry.
Proof.
  intros E. unfold check_signature in E. destruct entry as [| | | | | |d]; try discriminate E. apply rbind_Ok in E as ([] & _ & E).
  apply rbind_Ok in E as (pk & Hpk & E). apply rbind_Ok in E as (sh & Hsh & E). apply rbind_Ok in E as (key & Hkey & E).
  unfold required_text in Hpk, Hsh. destruct (dget d "public_key_hex") as [[| | | |[|c1 t1]| |]|] eqn:Epk; try discriminate Hpk. injection Hpk as <-.
  destruct (dget d "signature_hex") as [[| | | |[|c2 t2]| |]|] eqn:Esh; try discriminate Hsh. injection Hsh as <-.
  assert (Hwarn : forall w m x, warn_or_raise mode c w m = Ok x -> trusted_count x = trusted_count c).
  { intros w m x Hx. unfold warn_or_raise in Hx. destruct (bool_decide (mode = WARN)); [by injection Hx as <-|discriminate Hx]. }
  destruct (fromhex (c2 :: t2)) as [sig|e] eqn:Esig; [|left; by eapply Hwarn]. destruct (ed25519_verify key sig digest) eqn:Ev; cbn [negb] in E; [|left; by eapply Hwarn].
  injection E as <-. cbn [trusted_count]. destruct (bool_decide (c1 :: t1 ∈ hex <$> keys)) eqn:Ein; [right|left; lia].
  apply bool_decide_eq_true, list_elem_of_fmap in Ein as (k & Hk & Hin). exists d, k, sig.
  unfold parse_ed25519_public_key_hex in Hkey. rewrite Hk, fromhex_hex in Hkey. cbn [try_except rbind] in Hkey. apply rbind_Ok in Hkey as ([] & _ & Hkey).
  injection Hkey as <-. rewrite Hk in Epk. split_and!; try done. by exists (c2 :: t2).
Qed.

Lemma check_signatures_trusted mode keys digest c entries c' :
  foldM (check_signature mode (hex <$> keys) digest) c entries = Ok c' -> trusted_count c' = trusted_count c \/ Exists (trusted_signature keys digest) entries.
Proof.
  revert c. induction entries as [|e l IH]; intros c E; cbn [foldM] in E; [injection E as <-; by left|].
  apply rbind_Ok in E as (c1 & E1 & E). destruct (check_signature_trusted _ _ _ _ _ _ E1) as [H1|H1]; [|right; by apply Exists_cons_hd].
  destruct (IH _ E) as [H2|H2]; [left; congruence|right; by apply Exists_cons_tl].
Qed.

(** In enforce mode a snapshot loads only when its list of signatures holds one, by a
    trusted key, over the digest of its content. *)
Lemma enforced_signed payload net params keys s : decode_snapshot_payload payload net params ENFORCE keys = Ok s ->
  exists digest signatures, snapshot_signature_digest payload = Ok digest /\ dget (loaded_metadata s) "signatures" = Some (JList signatures) /\
    Exists (trusted_signature keys digest) signatures.
Proof.
  intros (Hmd & _ & _ & Hsig & _)%decode_snapshot_inv. unfold _validate_snapshot_signatures in Hsig. rewrite Hmd in Hsig.
  apply rbind_Ok in Hsig as ([] & _ & Hsig). apply rbind_Ok in Hsig as (sigs & Hl & Hsig). apply rbind_Ok in Hsig as (digest & Hd & Hsig).
  apply rbind_Ok in Hsig as (c & Hc & Hsig). rewrite bool_decide_true in Hsig by done. apply rbind_Ok in Hsig as (w & Hw & Hsig).
  apply rbind_Ok in Hw as ([] & _ & Hw). apply rbind_Ok in Hw as ([] & Ht%raise_if_Ok & _). exists digest, sigs. split; [done|].
  destruct (check_signatures_trusted _ _ _ _ _ _ Hc) as [H1|H1]; [cbn in H1; rewrite H1 in Ht; discriminate Ht|]. split; [|done].
  unfold dget_or in Hl. unfold dget. destruct (dict_get (loaded_metadata s) (u "signatures")) as [[]|]; try discriminate Hl; injection Hl as <-; try done; by apply Exists_nil in H1.
Qed.
End accepted.
