(* ===== verification/SnapshotFiles.v ===== *)
(** * Snapshot files

    A payload that is written to a file, in either format, is read back as it was
    but for the checksums of its metadata; the signature digest commits to
    everything but the list of signatures. *)

From S2P Require Import Prelude PyOrder PyText Hashes Params Models Serialization Registry Pow Json Settlement Utxo Headers RewardStore Snapshots SnapshotFacts.

(** ** Dictionaries that can be written *)

Definition members_ok (d : dict) : Prop := Forall (fun kv => text_ok kv.1 /\ dumpable kv.2) d.

Lemma dumpable_members d : dumpable (JObj d) <-> members_ok d /\ StronglySorted (key_le fst) d /\ NoDup d.*1.
Proof.
  cbn [dumpable]. assert (Hf : foldr (fun (kv : str * json) P => (text_ok kv.1 /\ dumpable kv.2) /\ P) True d <-> members_ok d); [|by rewrite Hf].
  unfold members_ok. induction d as [|kv d IH]; simpl; [split; [by constructor|done]|]. rewrite Forall_cons, IH. done.
Qed.

Lemma dumpable_list l : dumpable (JList l) <-> Forall dumpable l.
Proof. cbn [dumpable]. induction l as [|x l IH]; simpl; [split; [by constructor|done]|]. by rewrite Forall_cons, IH. Qed.

Lemma sorted_keys {V W} (d : list (str * V)) (e : list (str * W)) : d.*1 = e.*1 -> StronglySorted (key_le fst) d -> StronglySorted (key_le fst) e.
Proof.
  revert e. induction d as [|kv d IH]; intros [|kv' e] He Hs; try discriminate He; [constructor|]. injection He as Hk He. change (d.*1 = e.*1) in He.
  apply StronglySorted_inv in Hs as [Hs Hf]. constructor; [by apply IH|]. apply Forall_forall. intros x Hx.
  assert (Hx' : x.1 ∈ d.*1) by (rewrite He; by apply list_elem_of_fmap_2). apply list_elem_of_fmap in Hx' as (y & Hy & Hin).
  rewrite Forall_forall in Hf. specialize (Hf y Hin). unfold key_le in *. by rewrite <- Hk, Hy.
Qed.

Lemma dict_set_same_keys {V} (d : list (str * V)) k v : k ∈ d.*1 -> (dict_set d k v).*1 = d.*1.
Proof.
  induction d as [|[k' v'] d IH]; intros Hk; [by apply not_elem_of_nil in Hk|]. cbn [dict_set]. case_decide as Hd; [by subst|].
  cbn [fmap list_fmap fst] in *. apply elem_of_cons in Hk as [Hk|Hk]; [done|]. by rewrite IH.
Qed.

Lemma dict_set_members d k v : members_ok d -> text_ok k -> dumpable v -> members_ok (dict_set d k v).
Proof.
  intros Hd Hk Hv. apply Forall_forall. intros kv Hin. apply dict_set_elem in Hin as [->|Hin]; [done|]. unfold members_ok in Hd. rewrite Forall_forall in Hd. by apply Hd.
Qed.

(** Replacing the value of a key *)
Lemma dumpable_set d k v : dumpable (JObj d) -> k ∈ d.*1 -> dumpable v -> dumpable (JObj (dict_set d k v)).
Proof.
  rewrite !dumpable_members. intros (Hm & Hs & Hn) Hk Hv. rewrite dict_set_same_keys by done. split; [|split; [|done]].
  - apply dict_set_members; try done. apply list_elem_of_fmap in Hk as (kv & -> & Hin). unfold members_ok in Hm. rewrite Forall_forall in Hm. by apply Hm.
  - eapply sorted_keys; [|exact Hs]. by rewrite dict_set_same_keys.
Qed.

Lemma dumpable_get d k v : dumpable (JObj d) -> dict_get d k = Some v -> dumpable v /\ k ∈ d.*1.
Proof.
  rewrite dumpable_members. intros (Hm & _) Hg%dict_get_elem. unfold members_ok in Hm. rewrite Forall_forall in Hm. split; [by apply (Hm _ Hg)|].
  by apply (list_elem_of_fmap_2 fst) in Hg.
Qed.

Lemma hex_chars bs : Forall (fun c => 0 <= c < 128) (hex bs).
Proof.
  unfold hex. induction bs as [|x bs IH]; [constructor|]. cbn [fmap list_fmap concat]. apply Forall_app. split; [|exact IH].
  pose proof (byte.unsigned_range x) as Hx. assert (Hd : forall n, 0 <= n < 16 -> 0 <= hex_digit n < 128) by (intros n Hn; unfold hex_digit; case_match; lia).
  repeat constructor; apply Hd; Z.to_euclidean_division_equations; lia.
Qed.

Lemma hex_text_ok bs : text_ok (hex bs).
Proof. eapply Forall_impl; [apply hex_chars|]. intros c Hc. cbn in Hc. unfold scalar. lia. Qed.

Section files.
Context `{PyRepr, SnapshotBackend}.

Lemma normalize_dumpable d : dumpable (JObj d) -> _normalize_snapshot_payload d = Ok d.
Proof. intros Hd. unfold _normalize_snapshot_payload. by rewrite json_roundtrip. Qed.

(** *** Printed values are ASCII *)

Definition ascii (s : str) : Prop := Forall (fun c => 0 <= c < 128) s.

Lemma ascii_app s t : ascii (s ++ t) <-> ascii s /\ ascii t.
Proof. apply Forall_app. Qed.

Lemma ascii_join sep parts : ascii sep -> Forall ascii parts -> ascii (join_text sep parts).
Proof.
  intros Hsep Hp. induction Hp as [|p ps Hp Hps IH]; [constructor|]. destruct ps as [|q ps]; [exact Hp|].
  change (join_text sep (p :: q :: ps)) with (p ++ sep ++ join_text sep (q :: ps)). by rewrite !ascii_app.
Qed.

Lemma ascii_u t : forallb (fun c => (0 <=? c) && (c <? 128)) (u t) = true -> ascii (u t).
Proof. intros Ht. apply Forall_forall. intros c Hc. eapply forallb_forall in Ht; [|apply list_elem_of_In; exact Hc]. bool_prop. lia. Qed.

Lemma ascii_u_escape c : 0 <= c < 65536 -> ascii (u_escape c).
Proof.
  intros Hc. assert (Hd : forall n, 0 <= n < 16 -> 0 <= hex_digit n < 128) by (intros n Hn; unfold hex_digit; case_match; lia).
  unfold u_escape, hex4_text. repeat constructor; try lia; apply Hd; Z.to_euclidean_division_equations; lia.
Qed.

Lemma ascii_escape c : scalar c -> ascii (escape_char c).
Proof.
  intros [Hc _]. unfold escape_char. repeat case_match; bool_prop; try (repeat constructor; lia); [apply ascii_u_escape; lia|].
  apply ascii_app. split; apply ascii_u_escape; Z.to_euclidean_division_equations; lia.
Qed.

Lemma ascii_string s : text_ok s -> ascii (dump_string s).
Proof.
  intros Hs. unfold dump_string. constructor; [lia|]. apply ascii_app. split; [|repeat constructor; lia].
  induction Hs as [|c s Hc _ IH]; [constructor|]. cbn [fmap list_fmap concat]. apply ascii_app. split; [by apply ascii_escape|exact IH].
Qed.

Lemma ascii_int n : ascii (py_str_int n).
Proof.
  assert (Hd : forall fuel m, 0 <= m -> ascii (dec_digits fuel m)) by (intros fuel m Hm; eapply Forall_impl; [by apply dec_digits_Forall|]; cbn; lia).
  unfold py_str_int. case_match; bool_prop; [constructor; [lia|]|]; apply Hd; lia.
Qed.

Lemma ascii_dumps v : dumpable v -> ascii (json_dumps v).
Proof.
  induction v as [|x|n|x|s|l IH|l IH] using json_nested_ind; intros Hv; cbn [json_dumps].
  - by apply ascii_u.
  - destruct x; by apply ascii_u.
  - apply ascii_int.
  - destruct Hv.
  - by apply ascii_string.
  - rewrite !ascii_app. split; [by apply ascii_u|]. split; [|by apply ascii_u]. apply ascii_join; [by apply ascii_u|].
    rewrite dumpable_list in Hv. apply Forall_fmap. rewrite Forall_forall in *. intros x Hx. by apply IH, Hv.
  - rewrite !ascii_app. split; [by apply ascii_u|]. split; [|by apply ascii_u]. apply ascii_join; [by apply ascii_u|].
    apply dumpable_members in Hv as (Hm & _). apply Forall_fmap, Forall_forall. intros kv Hkv. apply elem_of_sorted_by, list_elem_of_fmap in Hkv as (x & -> & Hx).
    unfold members_ok in Hm. rewrite Forall_forall in IH, Hm. destruct (Hm x Hx) as [Ht Hd]. cbn [compose fst snd]. rewrite !ascii_app.
    split; [by apply ascii_string|]. split; [by apply ascii_u|]. by apply IH.
Qed.

(** Printing and reading back, as bytes *)
Lemma ascii_encodes s : ascii s -> exists bs, utf8_encode s = Ok bs.
Proof.
  intros Hs. unfold utf8_encode. assert (Hm : exists parts, mapM utf8_encode_char s = Ok parts).
  { induction Hs as [|c s Hc _ [parts IH]]; [by exists []|]. cbn [mapM]. unfold utf8_encode_char at 1. rewrite (proj2 (Z.ltb_ge c 0)) by lia.
    rewrite (proj2 (Z.ltb_lt c 128)) by lia. cbn [rbind]. rewrite IH. by eexists. }
  destruct Hm as [parts ->]. by exists (concat parts).
Qed.

Lemma dumps_bytes v : dumpable v -> exists bs, canonical_json_dumps v = Ok bs /\ utf8_decode bs = Ok (json_dumps v).
Proof.
  intros Hv. destruct (ascii_encodes _ (ascii_dumps v Hv)) as [bs Hbs]. exists bs. split; [exact Hbs|]. by apply utf8_decode_encode.
Qed.

Lemma loads_dumps d bs msg : dumpable (JObj d) -> canonical_json_dumps (JObj d) = Ok bs -> loads_object bs msg = Ok d.
Proof.
  intros Hd E. destruct (dumps_bytes _ Hd) as (bs' & E' & Hdec). rewrite E in E'. injection E' as <-. unfold loads_object. rewrite Hdec. cbn [rbind].
  by rewrite json_roundtrip.
Qed.

(** ** The digest commits to the content *)

(** A payload with metadata of the usual form *)
Record payload_ok (payload md : dict) : Prop := {
  payload_dumpable : dumpable (JObj payload);
  payload_metadata : dget payload "metadata" = Some (JObj md);
  metadata_signatures : u "signatures" ∈ md.*1;
  metadata_checksum : u "checksum_sha256" ∈ md.*1;
}.

Definition with_metadata (payload md : dict) : dict := dict_set payload (u "metadata") (JObj md).
Definition unsigned (md : dict) : dict := dict_set md (u "signatures") (JList []).
Definition unchecked (md : dict) : dict := dict_set (unsigned md) (u "checksum_sha256") JNull.

Lemma payload_parts payload md : payload_ok payload md ->
  u "metadata" ∈ payload.*1 /\ dumpable (JObj md) /\ dumpable (JObj (unsigned md)) /\ dumpable (JObj (unchecked md)).
Proof.
  intros [Hd Hm Hs Hc]. destruct (dumpable_get _ _ _ Hd Hm) as [Hmd Hk]. assert (Hu : dumpable (JObj (unsigned md))) by by apply dumpable_set.
  split_and!; try done. apply dumpable_set; [done| |done]. unfold unsigned. by rewrite dict_set_same_keys.
Qed.

Lemma with_metadata_dumpable payload md md' : payload_ok payload md -> dumpable (JObj md') -> dumpable (JObj (with_metadata payload md')).
Proof. intros Hp Hm. apply dumpable_set; [apply Hp|by apply (payload_parts _ _ Hp)|done]. Qed.

Lemma canonicalize_ok payload md : payload_ok payload md ->
  canonicalize_snapshot_payload payload true = Ok (with_metadata payload (unsigned md)) /\
  canonicalize_snapshot_payload payload false = Ok (with_metadata payload (unchecked md)).
Proof.
  intros [Hd Hm _ _]. unfold canonicalize_snapshot_payload. rewrite normalize_dumpable by done. cbn [rbind]. unfold dget_or. unfold dget in Hm. rewrite Hm. done.
Qed.

Lemma get_with_metadata payload md k : u "metadata" ∈ payload.*1 -> k ≠ u "metadata" -> dict_get (with_metadata payload md) k = dict_get payload k.
Proof. intros _ Hk. by apply dict_get_set_ne. Qed.

(** Two payloads with the same content but for the list of signatures *)
Definition same_content (p1 md1 p2 md2 : dict) : Prop :=
  (forall k, k ≠ u "metadata" -> dict_get p1 k = dict_get p2 k) /\ (forall k, k ≠ u "signatures" -> dict_get md1 k = dict_get md2 k).

(** The bytes whose digest is signed *)
Definition signed_bytes (payload : dict) : res bytes :=
  let* normalized := canonicalize_snapshot_payload payload true in
  canonical_json_dumps (JObj normalized).

Lemma digest_of_bytes payload d : snapshot_signature_digest payload = Ok d -> exists data, signed_bytes payload = Ok data /\ sha256 data = d.
Proof.
  unfold snapshot_signature_digest, signed_bytes. intros (c & -> & (data & Hd & [= <-])%rbind_Ok)%rbind_Ok. by exists data.
Qed.

Lemma signed_bytes_content p1 md1 p2 md2 data : payload_ok p1 md1 -> payload_ok p2 md2 ->
  signed_bytes p1 = Ok data -> signed_bytes p2 = Ok data -> same_content p1 md1 p2 md2.
Proof.
  intros H1 H2 Ex Ey. unfold signed_bytes in Ex, Ey. rewrite (proj1 (canonicalize_ok _ _ H1)) in Ex. rewrite (proj1 (canonicalize_ok _ _ H2)) in Ey.
  cbn [rbind] in Ex, Ey. destruct (payload_parts _ _ H1) as (K1 & _ & U1 & _). destruct (payload_parts _ _ H2) as (K2 & _ & U2 & _).
  pose proof (with_metadata_dumpable _ _ _ H1 U1) as D1. pose proof (with_metadata_dumpable _ _ _ H2 U2) as D2.
  assert (Eq : with_metadata p1 (unsigned md1) = with_metadata p2 (unsigned md2)).
  { pose proof (loads_dumps _ _ "" D1 Ex) as L1. pose proof (loads_dumps _ _ "" D2 Ey) as L2. congruence. }
  assert (Em : unsigned md1 = unsigned md2).
  { assert (Hg : dict_get (with_metadata p1 (unsigned md1)) (u "metadata") = dict_get (with_metadata p2 (unsigned md2)) (u "metadata")) by by rewrite Eq.
    unfold with_metadata in Hg. rewrite !dict_get_set_eq in Hg. by injection Hg. }
  split; intros k Hk.
  - by rewrite <- (get_with_metadata p1 (unsigned md1) k), Eq, get_with_metadata.
  - assert (Hg : dict_get (unsigned md1) k = dict_get (unsigned md2) k) by by rewrite Em. unfold unsigned in Hg. by rewrite !dict_get_set_ne in Hg.
Qed.


(** ** Checksums *)

Lemma dict_set_set {V} (d : list (str * V)) k a b : dict_set (dict_set d k a) k b = dict_set d k b.
Proof.
  induction d as [|[k' v'] d IH]; cbn [dict_set]; [by rewrite decide_True|]. case_decide as Hd; cbn [dict_set]; [by rewrite decide_True|].
  rewrite decide_False by done. by rewrite IH.
Qed.

Lemma dict_set_swap {V} (d : list (str * V)) k1 k2 a b : k1 ≠ k2 -> k1 ∈ d.*1 -> k2 ∈ d.*1 -> dict_set (dict_set d k1 a) k2 b = dict_set (dict_set d k2 b) k1 a.
Proof.
  intros Hne. induction d as [|[k v] d IH]; intros H1 H2; [by apply not_elem_of_nil in H1|]. cbn [fmap list_fmap fst] in H1, H2. apply elem_of_cons in H1, H2.
  cbn [dict_set]. destruct (decide (k = k1)) as [E1|E1], (decide (k = k2)) as [E2|E2]; cbn [dict_set].
  - congruence.
  - by rewrite decide_False, decide_True by congruence.
  - by rewrite decide_True, decide_False by congruence.
  - rewrite !decide_False by congruence. rewrite IH; [done|..]; naive_solver.
Qed.

(** The recorded checksum is not part of what is checked. *)
Lemma unchecked_checksum md v : u "signatures" ∈ md.*1 -> u "checksum_sha256" ∈ md.*1 -> unchecked (dict_set md (u "checksum_sha256") v) = unchecked md.
Proof.
  intros Hs Hc. unfold unchecked, unsigned. rewrite (dict_set_swap md (u "checksum_sha256") (u "signatures")) by (done || (vm_compute; discriminate)). by rewrite dict_set_set.
Qed.

Lemma with_metadata_twice payload md md' : with_metadata (with_metadata payload md) md' = with_metadata payload md'.
Proof. apply dict_set_set. Qed.

Lemma with_metadata_ok payload md md' : payload_ok payload md -> dumpable (JObj md') -> md'.*1 = md.*1 -> payload_ok (with_metadata payload md') md'.
Proof.
  intros Hp Hd Hk. split; [by eapply with_metadata_dumpable|unfold dget, with_metadata; by rewrite dict_get_set_eq|rewrite Hk; apply Hp|rewrite Hk; apply Hp].
Qed.

Lemma checksum_ok payload md : payload_ok payload md -> exists data, canonical_json_dumps (JObj (with_metadata payload (unchecked md))) = Ok data /\
  snapshot_checksum payload = Ok (hex (sha256 data)).
Proof.
  intros Hp. destruct (payload_parts _ _ Hp) as (_ & _ & _ & Hu). destruct (dumps_bytes _ (with_metadata_dumpable _ _ _ Hp Hu)) as (data & Hd & _).
  exists data. split; [done|]. unfold snapshot_checksum. rewrite (proj2 (canonicalize_ok _ _ Hp)). cbn [rbind]. by rewrite Hd.
Qed.

(** Recording the checksum leaves it right. *)
Lemma checksum_recorded payload md ck : payload_ok payload md -> snapshot_checksum payload = Ok ck ->
  let md' := dict_set md (u "checksum_sha256") (JStr ck) in
  payload_ok (with_metadata payload md') md' /\ snapshot_checksum (with_metadata payload md') = Ok ck.
Proof.
  intros Hp Hck md'. destruct (checksum_ok _ _ Hp) as (data & Hd & Hck'). rewrite Hck in Hck'. injection Hck' as ->.
  assert (Hmd : dumpable (JObj md')).
  { apply dumpable_set; [by apply (payload_parts _ _ Hp)|apply Hp|apply hex_text_ok]. }
  assert (Hok : payload_ok (with_metadata payload md') md') by (eapply with_metadata_ok; [done|done|]; apply dict_set_same_keys; apply Hp).
  split; [done|]. unfold snapshot_checksum. rewrite (proj2 (canonicalize_ok _ _ Hok)). cbn [rbind]. rewrite with_metadata_twice.
  unfold md'. rewrite unchecked_checksum by apply Hp. by rewrite Hd.
Qed.

(** ** The two formats *)

Definition snapshot_keys : list string :=
  ["blocks"; "epoch_settlements"; "headers"; "metadata"; "node_registry"; "reward_attestation_bundles"; "utxos"]%string.
(** What writing a file may change in the metadata *)
Definition file_keys : list string := ["checksum_sha256"; "compatibility"; "compressed_payload_sha256"; "payload_encoding"; "payload_sha256"]%string.

(** A payload as [build_snapshot_payload] makes it *)
Record snapshot_payload (payload md : dict) : Prop := {
  snapshot_ok : payload_ok payload md;
  snapshot_has_keys : payload.*1 = u <$> snapshot_keys;
  metadata_has_keys : Forall (fun k => u k ∈ md.*1) file_keys;
}.

Lemma keep_keys payload md md' : snapshot_payload payload md -> dumpable (JObj md') -> md'.*1 = md.*1 -> snapshot_payload (with_metadata payload md') md'.
Proof.
  intros [Hp Hk Hm] Hd Hk'. split; [by eapply with_metadata_ok|unfold with_metadata; rewrite dict_set_same_keys; [done|]|by rewrite Hk'].
  by apply (payload_parts _ _ Hp).
Qed.

Lemma file_key k payload md : snapshot_payload payload md -> bool_decide (k ∈ file_keys) = true -> u k ∈ md.*1.
Proof. intros [_ _ Hm] Hk. apply bool_decide_eq_true in Hk. rewrite Forall_forall in Hm. by apply Hm. Qed.

(** The metadata in a version 2 file, before its checksum *)
Definition v2_metadata (md : dict) (body_bytes compressed : bytes) : dict :=
  dict_set (dict_set (dict_set md (u "payload_encoding") (JStr SNAPSHOT_V2_PAYLOAD_ENCODING)) (u "payload_sha256") (JStr (hex (sha256 body_bytes))))
    (u "compressed_payload_sha256") (JStr (hex (sha256 compressed))).

Lemma v2_metadata_ok payload md x y : snapshot_payload payload md -> dumpable (JObj (v2_metadata md x y)) /\ (v2_metadata md x y).*1 = md.*1.
Proof.
  intros Hp. assert (Hk : forall k, bool_decide (k ∈ file_keys) = true -> u k ∈ md.*1) by (intros k; by apply (file_key k payload)).
  destruct (payload_parts _ _ (snapshot_ok _ _ Hp)) as (_ & Hmd & _). unfold v2_metadata.
  set (m1 := dict_set md _ _). assert (K1 : m1.*1 = md.*1) by (apply dict_set_same_keys, Hk; reflexivity).
  assert (D1 : dumpable (JObj m1)) by (apply dumpable_set; [done|apply Hk; reflexivity|]; apply ascii_text_ok).
  set (m2 := dict_set m1 _ _). assert (K2 : m2.*1 = md.*1) by (unfold m2; rewrite dict_set_same_keys; [done|rewrite K1; apply Hk; reflexivity]).
  assert (D2 : dumpable (JObj m2)) by (apply dumpable_set; [done|rewrite K1; apply Hk; reflexivity|apply hex_text_ok]).
  split; [apply dumpable_set; [done|rewrite K2; apply Hk; reflexivity|apply hex_text_ok]|].
  rewrite dict_set_same_keys; [done|rewrite K2; apply Hk; reflexivity].
Qed.

Lemma v2_metadata_get md x y k : k ∉ u <$> file_keys -> dict_get (v2_metadata md x y) k = dict_get md k.
Proof.
  intros Hk. unfold v2_metadata. rewrite !dict_get_set_ne; [done|..]; intros <-; apply Hk; apply (bool_decide_unpack _); vm_compute; exact I.
Qed.

Lemma setdefault_present d key v : u key ∈ d.*1 -> setdefault d key v = d.
Proof.
  intros Hk. unfold setdefault, dget. destruct (dict_get d (u key)) eqn:E; [done|]. exfalso. clear v. induction d as [|[k' v'] d IH]; [by apply not_elem_of_nil in Hk|].
  cbn [dict_get] in E. case_decide as Hd; [discriminate E|]. apply IH; [|done]. cbn [fmap list_fmap fst] in Hk. by apply elem_of_cons in Hk as [Hk|Hk].
Qed.

(** The body of a payload and what joins it with metadata again *)
Lemma body_merges payload md md' : snapshot_payload payload md -> dumpable (JObj md') ->
  dumpable (JObj (_snapshot_body (with_metadata payload md'))) /\ merge_body md' (_snapshot_body (with_metadata payload md')) ≡ₚ with_metadata payload md'.
Proof.
  intros [[Hd Hm _ _] Hk _] Hd'. unfold snapshot_keys in Hk. apply dumpable_members in Hd as (Hok & _ & _).
  destruct payload as [|[k1 v1] [|[k2 v2] [|[k3 v3] [|[k4 v4] [|[k5 v5] [|[k6 v6] [|[k7 v7] [|]]]]]]]]; try discriminate Hk.
  injection Hk as -> -> -> -> -> -> ->. unfold members_ok in Hok. repeat (apply Forall_cons in Hok as [[? ?] Hok]). cbn [snd] in *.
  assert (Eb : _snapshot_body (with_metadata [(u "blocks", v1); (u "epoch_settlements", v2); (u "headers", v3); (u "metadata", v4); (u "node_registry", v5);
     (u "reward_attestation_bundles", v6); (u "utxos", v7)] md') =
     [(u "blocks", v1); (u "epoch_settlements", v2); (u "headers", v3); (u "node_registry", v5); (u "reward_attestation_bundles", v6); (u "utxos", v7)]) by reflexivity.
  rewrite Eb. split.
  - apply dumpable_members. split; [|split; [by apply sorted_check|]].
    + unfold members_ok. repeat (apply Forall_cons; split; [split; [apply ascii_text_ok|done]|]). by apply Forall_nil.
    + apply keys_NoDup. reflexivity.
  - assert (Em : merge_body md' [(u "blocks", v1); (u "epoch_settlements", v2); (u "headers", v3); (u "node_registry", v5); (u "reward_attestation_bundles", v6); (u "utxos", v7)] =
     [(u "metadata", JObj md'); (u "blocks", v1); (u "epoch_settlements", v2); (u "headers", v3); (u "node_registry", v5); (u "reward_attestation_bundles", v6); (u "utxos", v7)]) by reflexivity.
    rewrite Em. apply (Permutation_middle [(u "blocks", v1); (u "epoch_settlements", v2); (u "headers", v3)]).
Qed.

Lemma body_ignores_metadata payload md md' : _snapshot_body (with_metadata payload md) = _snapshot_body (with_metadata payload md').
Proof.
  unfold _snapshot_body, body_keys, dget_or, with_metadata. cbn [fmap list_fmap]. rewrite !dict_get_set_ne by (vm_compute; discriminate). done.
Qed.

Lemma from_to_bytes_big n v bs : to_bytes_big n v = Ok bs -> from_bytes_big bs = v /\ len bs = Z.of_nat n.
Proof.
  unfold to_bytes_big. intros E. destruct ((0 <=? v) && (v <? 2 ^ (8 * Z.of_nat n))) eqn:Hr; [|discriminate E]. apply andb_prop in Hr as [H1 H2].
  apply Z.leb_le in H1. apply Z.ltb_lt in H2. injection E as <-. unfold from_bytes_big, len. rewrite rev_involutive, length_rev, length_le_split, le_combine_split.
  split; [|done]. apply Z.mod_small. rewrite Z.mul_comm in H2. lia.
Qed.

(** What is in a version 2 file *)
Lemma read_container md body n m mdb bb : dumpable (JObj md) -> dumpable (JObj body) ->
  canonical_json_dumps (JObj md) = Ok mdb -> canonical_json_dumps (JObj body) = Ok bb ->
  to_bytes_big 8 (len mdb) = Ok n -> to_bytes_big 8 (len (gzip_compress bb)) = Ok m -> gzip_decompress (gzip_compress bb) = Ok bb ->
  dget md "payload_encoding" = Some (JStr SNAPSHOT_V2_PAYLOAD_ENCODING) -> dget md "payload_sha256" = Some (JStr (hex (sha256 bb))) ->
  dget md "compressed_payload_sha256" = Some (JStr (hex (sha256 (gzip_compress bb)))) ->
  read_snapshot_payload (SNAPSHOT_V2_MAGIC ++ n ++ m ++ mdb ++ gzip_compress bb) = Ok (merge_body md body).
Proof.
  intros Hmd Hbody Emd Ebb En Em Hgz Henc Hsha Hcsha. destruct (from_to_bytes_big _ _ _ En) as [Vn Ln]. destruct (from_to_bytes_big _ _ _ Em) as [Vm Lm].
  set (z := gzip_compress bb) in *. unfold read_snapshot_payload. change (starts_with_brace (SNAPSHOT_V2_MAGIC ++ n ++ m ++ mdb ++ z)) with false. cbv iota.
  assert (Lmagic : len SNAPSHOT_V2_MAGIC = 8) by reflexivity. pose proof (len_nonneg mdb). pose proof (len_nonneg z).
  rewrite (proj2 (Z.ltb_ge _ _)) by (rewrite !len_app; unfold SNAPSHOT_V2_HEADER_SIZE; lia). cbn [raise_if rbind].
  assert (S0 : slice (SNAPSHOT_V2_MAGIC ++ n ++ m ++ mdb ++ z) 0 8 = SNAPSHOT_V2_MAGIC) by (by apply (slice_at _ _ [] (n ++ m ++ mdb ++ z))).
  assert (S1 : slice (SNAPSHOT_V2_MAGIC ++ n ++ m ++ mdb ++ z) 8 16 = n) by (apply (slice_at _ _ SNAPSHOT_V2_MAGIC (m ++ mdb ++ z)); (done || lia)).
  assert (S2 : slice (SNAPSHOT_V2_MAGIC ++ n ++ m ++ mdb ++ z) 16 24 = m)
    by (apply (slice_at _ _ (SNAPSHOT_V2_MAGIC ++ n) (mdb ++ z)); [app_eq|rewrite len_app; lia..]).
  assert (S3 : slice (SNAPSHOT_V2_MAGIC ++ n ++ m ++ mdb ++ z) 24 (24 + len mdb) = mdb)
    by (apply (slice_at _ _ (SNAPSHOT_V2_MAGIC ++ n ++ m) z); [app_eq|rewrite !len_app; lia..]).
  assert (S4 : slice (SNAPSHOT_V2_MAGIC ++ n ++ m ++ mdb ++ z) (24 + len mdb) (24 + len mdb + len z) = z)
    by (apply (slice_at _ _ (SNAPSHOT_V2_MAGIC ++ n ++ m ++ mdb) []); [rewrite app_nil_r; app_eq|rewrite !len_app; lia..]).
  rewrite S0, S1, S2, Vn, Vm, S3, S4. rewrite bool_decide_true by done. cbn [negb raise_if rbind].
  rewrite !Z.eqb_refl. cbn [negb orb raise_if rbind]. rewrite (loads_dumps md mdb) by done. cbn [rbind]. rewrite Henc, Hcsha, Hsha.
  rewrite !bool_decide_true by done. cbn [negb raise_if rbind]. rewrite Hgz. cbn [rbind]. rewrite !bool_decide_true by done. cbn [negb raise_if rbind].
  by rewrite (loads_dumps body bb).
Qed.

(** A version 1 file is the text of the payload and a line feed. *)
Lemma read_text payload data : dumpable (JObj payload) -> canonical_json_dumps (JObj payload) = Ok data ->
  read_snapshot_payload (data ++ [byte.of_Z 10]) = Ok payload.
Proof.
  intros Hd E. unfold read_snapshot_payload, loads_object. assert (E' : utf8_encode (json_dumps (JObj payload) ++ [10]) = Ok (data ++ [byte.of_Z 10])).
  { unfold canonical_json_dumps, utf8_encode in *. apply rbind_Ok in E as (parts & Hp & E). injection E as <-.
    rewrite (mapM_app _ _ [10] parts [[byte.of_Z 10]] Hp eq_refl). cbn [rbind]. rewrite concat_app. done. }
  assert (Hb : starts_with_brace (data ++ [byte.of_Z 10]) = true).
  { unfold canonical_json_dumps in E. cbn [json_dumps] in E. unfold utf8_encode in E. apply rbind_Ok in E as (parts & Hp & E). injection E as <-.
    change (u "{" ++ ?x) with (123 :: x) in Hp. cbn [mapM] in Hp. apply rbind_Ok in Hp as (y & Hy & Hp). vm_compute in Hy. injection Hy as <-.
    apply rbind_Ok in Hp as (l & _ & Hp). injection Hp as <-. reflexivity. }
  rewrite Hb, (utf8_decode_encode _ _ E'). cbn [rbind].
  assert (Hl : json_loads (json_dumps (JObj payload) ++ [10]) = Ok (JObj payload)).
  { unfold json_loads. destruct (dumps_head (JObj payload) Hd) as (c & t & Et & Hc).
    assert (expect 0xFEFF (json_dumps (JObj payload) ++ [10]) = None) as -> by (rewrite Et; simpl; by rewrite (proj2 (Z.eqb_neq c 0xFEFF)) by tauto).
    rewrite (skip_ws_dumps _ [10] Hd). rewrite (parse_value_dumped _ Hd); [done|unfold json_fuel; rewrite length_app; lia|]. done. }
  by rewrite Hl.
Qed.

(** Two payloads are the same dictionary when they list the same items. *)
Definition same_metadata (md md' : dict) : Prop := forall k, k ∉ u <$> file_keys -> dict_get md' k = dict_get md k.

(** Metadata that writing a file leaves as it is: the checksums are those of the payload *)
Record settled (payload md : dict) : Prop := {
  settled_payload : snapshot_payload payload md;
  settled_checksum : exists ck, snapshot_checksum payload = Ok ck /\ dget md "checksum_sha256" = Some (JStr ck);
  settled_body : json_int (dget_or md "format_version" (JInt SNAPSHOT_FORMAT_VERSION_V1)) = Ok SNAPSHOT_FORMAT_VERSION_V2 ->
    exists bb, canonical_json_dumps (JObj (_snapshot_body payload)) = Ok bb /\ dget md "payload_encoding" = Some (JStr SNAPSHOT_V2_PAYLOAD_ENCODING) /\
      dget md "payload_sha256" = Some (JStr (hex (sha256 bb))) /\ dget md "compressed_payload_sha256" = Some (JStr (hex (sha256 (gzip_compress bb))));
}.

Lemma dict_set_id {V} (d : list (str * V)) k v : dict_get d k = Some v -> dict_set d k v = d.
Proof.
  induction d as [|[k' v'] d IH]; intros E; [discriminate E|]. cbn [dict_get] in E. cbn [dict_set]. case_decide as Hd; [|by rewrite IH]. subst k'. by injection E as ->.
Qed.

Lemma with_metadata_same payload md : payload_ok payload md -> with_metadata payload md = payload.
Proof. intros Hp. apply dict_set_id, Hp. Qed.

Lemma file_roundtrip `{!SnapshotLaws} payload md raw : snapshot_payload payload md -> write_snapshot_file payload = Ok raw ->
  exists payload' md', read_snapshot_payload raw = Ok payload' /\ payload' ≡ₚ with_metadata payload md' /\
    settled (with_metadata payload md') md' /\ same_metadata md md' /\ (settled payload md -> md' = md).
Proof.
  intros Hp E. pose proof (snapshot_ok _ _ Hp) as Hok. unfold write_snapshot_file in E. rewrite normalize_dumpable in E by apply Hok. cbn [rbind] in E.
  unfold dget_or at 1 in E. pose proof (payload_metadata _ _ Hok) as Hmd. unfold dget in Hmd. rewrite Hmd in E. cbn [as_dict rbind] in E.
  apply rbind_Ok in E as (ck & Hck & E). destruct (checksum_recorded _ _ _ Hok Hck) as [Hok1 Hck1]. set (md1 := dict_set md (u "checksum_sha256") (JStr ck)) in *.
  fold (with_metadata payload md1) in E. assert (K1 : md1.*1 = md.*1) by (apply dict_set_same_keys; apply Hok).
  assert (Hsame1 : same_metadata md md1).
  { intros k Hk. apply dict_get_set_ne. intros <-. apply Hk. apply (bool_decide_unpack _); vm_compute; exact I. }
  destruct (payload_parts _ _ Hok1) as (_ & Dmd1 & _). assert (Hp1 : snapshot_payload (with_metadata payload md1) md1) by by eapply keep_keys.
  assert (Hid1 : settled payload md -> md1 = md).
  { intros [_ (ck' & Hck' & Hget) _]. apply dict_set_id. rewrite Hck in Hck'. by injection Hck' as <-. }
  apply rbind_Ok in E as (fv & Hfv & E). destruct (Z.eqb_spec fv SNAPSHOT_FORMAT_VERSION_V1) as [->|_].
  - apply rbind_Ok in E as (data & Hdata & E). injection E as <-. exists (with_metadata payload md1), md1.
    split; [apply read_text; [apply Hok1|done]|]. split_and!; try done. split; [done|exists ck; split; [done|apply dict_get_set_eq]|].
    intros Hfv'. rewrite Hfv in Hfv'. discriminate Hfv'.
  - destruct (Z.eqb_spec fv SNAPSHOT_FORMAT_VERSION_V2) as [->|_]; cbn [negb] in E; [|discriminate E]. apply rbind_Ok in E as (bb & Hbb & E).
    set (md2 := v2_metadata md1 bb (gzip_compress bb)) in *. fold (v2_metadata md1 bb (gzip_compress bb)) in E. fold md2 in E.
    destruct (v2_metadata_ok _ _ bb (gzip_compress bb) Hp1) as [D2 K2]. fold md2 in D2, K2.
    rewrite setdefault_present in E by (rewrite K2; apply (file_key _ _ _ Hp1); reflexivity). fold (with_metadata (with_metadata payload md1) md2) in E.
    rewrite with_metadata_twice in E. assert (Hp2 : snapshot_payload (with_metadata payload md2) md2) by (eapply keep_keys; [exact Hp|done|congruence]).
    apply rbind_Ok in E as (ck2 & Hck2 & E). destruct (checksum_recorded _ _ _ (snapshot_ok _ _ Hp2) Hck2) as [Hok3 Hck3]. rewrite with_metadata_twice in Hok3, Hck3.
    set (md3 := dict_set md2 (u "checksum_sha256") (JStr ck2)) in *. destruct (payload_parts _ _ Hok3) as (_ & D3 & _).
    assert (K3 : md3.*1 = md.*1) by (unfold md3; rewrite dict_set_same_keys; [congruence|rewrite K2; apply Hok1]).
    apply rbind_Ok in E as (mdb & Hmdb & E). apply rbind_Ok in E as (n & Hn & E). apply rbind_Ok in E as (m & Hm & E). injection E as <-.
    destruct (body_merges _ _ md3 Hp D3) as [Dbody Hmerge]. rewrite (body_ignores_metadata _ md1 md3) in Hbb.
    assert (G1 : dget md3 "payload_encoding" = Some (JStr SNAPSHOT_V2_PAYLOAD_ENCODING) /\ dget md3 "payload_sha256" = Some (JStr (hex (sha256 bb))) /\
      dget md3 "compressed_payload_sha256" = Some (JStr (hex (sha256 (gzip_compress bb))))).
    { split_and!; unfold dget, md3, md2, v2_metadata; rewrite ?dict_get_set_ne by (vm_compute; discriminate); apply dict_get_set_eq. }
    destruct G1 as (G1 & G2 & G3).
    eexists _, md3. split; [apply (read_container md3 _ n m mdb bb D3 Dbody); try done; apply decompress_compress|]. split; [done|]. split.
    { split; [by eapply keep_keys|exists ck2; split; [done|apply dict_get_set_eq]|]. intros _. by exists bb. }
    split.
    + intros k Hk. unfold md3. rewrite dict_get_set_ne by (intros <-; apply Hk; apply (bool_decide_unpack _); vm_compute; exact I).
      unfold md2. rewrite v2_metadata_get by done. by apply Hsame1.
    + intros Hset. specialize (Hid1 Hset). destruct Hset as [_ (ck' & Hck' & Hget) Hbody]. rewrite Hid1 in *. destruct (Hbody Hfv) as (bb' & Hbb' & F1 & F2 & F3).
      rewrite (body_ignores_metadata _ md3 md), with_metadata_same, Hbb' in Hbb by done. injection Hbb as ->.
      assert (E2 : md2 = md) by (unfold md2, v2_metadata; rewrite Hid1; rewrite (dict_set_id md) by done; rewrite (dict_set_id md) by done; by apply dict_set_id).
      rewrite E2, with_metadata_same, Hck' in Hck2 by done. injection Hck2 as <-. unfold md3. rewrite E2. by apply dict_set_id.
Qed.
End files.
