(* ===== verification/SnapshotRoundtrip.v ===== *)
(** * A snapshot brings back what it was made of

    The records of a snapshot are read back from their JSON form; a payload built from
    the state of a chain, written to a file in either format and loaded again gives
    the headers, blocks, outputs, registry and reward tables it was built from. *)

From S2P Require Import Prelude PyOrder PyText Hashes Params Models Serialization Registry Pow Json Settlement Utxo Headers RewardStore Snapshots SnapshotFacts SnapshotFiles.

(** ** Records *)

Definition header_record_ok (r : SnapshotHeaderRecord) : Prop :=
  canonical_header (snapshot_header r) = snapshot_header r /\ int_ok (snapshot_header_height r) /\ int_ok (snapshot_cumulative_work r) /\ int_ok (timestamp (snapshot_header r)).
Definition utxo_ok (item : OutPoint * UtxoEntry) : Prop :=
  text_ok (op_txid item.1) /\ text_ok (recipient (output item.2)) /\ int_ok (op_index item.1) /\ int_ok (value (output item.2)) /\ int_ok (utxo_height item.2).
Definition registry_ok (r : NodeRecord) : Prop :=
  text_ok (node_id r) /\ text_ok (payout_address r) /\ int_ok (registered_height r) /\ int_ok (last_renewed_height r) /\
  match node_pubkey r with Some k => k ≠ [] | None => True end /\
  match declared_host r with Some h => h ≠ [] /\ text_ok h | None => True end /\
  match declared_port r with Some p => int_ok p | None => True end.
Definition attestation_ok (a : RewardAttestation) : Prop :=
  attestation_texts a /\ int_ok (epoch_index a) /\ int_ok (check_window_index a) /\ int_ok (observed_sync_gap a).
Definition stored_bundle_ok (s : StoredRewardAttestationBundle) : Prop :=
  text_ok (bundle_txid s) /\ int_ok (bundle_block_height s) /\ int_ok (bundle_epoch_index (stored_bundle s)) /\ int_ok (bundle_window_index (stored_bundle s)) /\
  bundle_submitter_node_id (stored_bundle s) ≠ [] /\ text_ok (bundle_submitter_node_id (stored_bundle s)) /\
  int_ok (len (attestations (stored_bundle s))) /\ Forall attestation_ok (attestations (stored_bundle s)).
Definition stored_settlement_ok (s : StoredEpochSettlement) : Prop :=
  text_ok (settlement_txid s) /\ int_ok (settlement_block_height s) /\ settlement_ok (stored_settlement s) /\
  text_ok (epoch_seed_hex (stored_settlement s)) /\ text_ok (policy_version (stored_settlement s)) /\ text_ok (submission_mode (stored_settlement s)) /\
  text_ok (candidate_summary_root (stored_settlement s)) /\ text_ok (verified_nodes_root (stored_settlement s)) /\ text_ok (rewarded_nodes_root (stored_settlement s)).

(** An object of literal keys in order can be printed when its values can. *)
Ltac dump_object := apply dumpable_members; split; [unfold members_ok; repeat (apply Forall_cons; split; [split; [apply ascii_text_ok|cbn [snd]]|]); [..|by apply Forall_nil]
  |split; [by apply sorted_check|apply keys_NoDup; reflexivity]].

Lemma optional_dumpable {A} (f : A -> json) (o : option A) : match o with Some x => dumpable (f x) | None => True end -> dumpable (optional_json f o).
Proof. by destruct o. Qed.

Lemma block_hash_text h hash : block_hash h = Ok hash -> text_ok hash.
Proof. unfold block_hash. intros E. apply rbind_Ok in E as (raw & _ & E). injection E as <-. apply hex_text_ok. Qed.

Lemma header_record_dumpable r j : header_record_ok r -> header_record_json r = Ok j -> dumpable j.
Proof.
  intros (_ & Hh & _) E. unfold header_record_json in E. apply rbind_Ok in E as (hash & Hhash & E). apply rbind_Ok in E as (raw & _ & E). injection E as <-.
  dump_object; [by eapply block_hash_text| |done|apply hex_text_ok]. eapply Forall_impl; [apply ascii_int|]. intros c Hc. cbn in Hc. unfold scalar. lia.
Qed.

Lemma block_record_dumpable ib j : int_ok ib.1 -> block_record_json ib = Ok j -> dumpable j.
Proof.
  intros Hi E. unfold block_record_json in E. apply rbind_Ok in E as (hash & Hhash & E). apply rbind_Ok in E as (raw & _ & E). injection E as <-.
  dump_object; [by eapply block_hash_text|done|apply hex_text_ok].
Qed.

Lemma utxo_dumpable item : utxo_ok item -> dumpable (utxo_json item).
Proof. destruct item as [o e]. intros (H1 & H2 & H3 & H4 & H5). unfold utxo_json. dump_object; done. Qed.

Lemma registry_dumpable r : registry_ok r -> dumpable (registry_record_json r).
Proof.
  intros (H1 & H2 & H3 & H4 & H5 & H6 & H7). unfold registry_record_json.
  dump_object; try done; try apply hex_text_ok; apply optional_dumpable; [destruct (declared_host r); [by destruct H6|done]|by destruct (declared_port r)|destruct (node_pubkey r); [apply hex_text_ok|done]].
Qed.

Lemma attestations_dumpable l : Forall attestation_ok l -> dumpable (JList (attestation_record_json <$> l)).
Proof.
  intros Hl. apply dumpable_list, Forall_fmap. eapply Forall_impl; [exact Hl|]. intros a ((T1 & T2 & T3 & T4 & T5 & T6) & I1 & I2 & I3).
  unfold compose, attestation_record_json. dump_object; done.
Qed.

Lemma bundle_dumpable s : stored_bundle_ok s -> dumpable (bundle_json s).
Proof. intros (H1 & H2 & H3 & H4 & H5 & H6 & H7 & H8). unfold bundle_json. dump_object; try done. by apply attestations_dumpable. Qed.

Lemma settlement_dumpable s : stored_settlement_ok s -> dumpable (settlement_json s).
Proof.
  intros (H1 & H2 & (I1 & I2 & I3 & I4 & I5 & I6 & _ & _ & _ & _ & _ & He) & T1 & T2 & T3 & T4 & T5 & T6). unfold settlement_json.
  dump_object; try done. by apply entries_json_dumpable.
Qed.

Section records.
Context `{PyRepr}.

Lemma decode_header_json r j : header_record_ok r -> header_record_json r = Ok j -> decode_header_record j = Ok r.
Proof.
  intros (Hc & _ & Hw & _) E. unfold header_record_json in E. apply rbind_Ok in E as (hash & _ & E). apply rbind_Ok in E as (raw & Hraw & E). injection E as <-.
  unfold decode_header_record. cbn [need_object rbind]. change (raw_bytes _ _) with (fromhex (hex raw)). rewrite fromhex_hex. cbn [rbind].
  pose proof (decodes_header _ _ Hraw [] []) as Hd. rewrite app_nil_l, app_nil_r in Hd. change (len (A := Init.Byte.byte) []) with 0 in Hd. rewrite Hd. cbn [rbind].
  rewrite Z.add_0_l, Z.eqb_refl, Hc. cbn [negb raise_if rbind]. change (item_int _ "height") with (@Ok Z (snapshot_header_height r)). cbn [rbind].
  change (item_int _ "cumulative_work") with (py_int (py_str_int (snapshot_cumulative_work r))). rewrite py_int_str_int by done. by destruct r.
Qed.

Lemma decode_utxo_json item : decode_utxo (utxo_json item) = Ok item.
Proof. by destruct item as [[id i] [[v to] h c]]. Qed.

Lemma decode_block_json records i b j r : block_record_json (Z.of_nat i, b) = Ok j -> canonical_block b = b -> records !! i = Some r -> header b = snapshot_header r ->
  decode_block_record records (Z.of_nat i, j) = Ok b.
Proof.
  intros E Hc Hr Hh. unfold block_record_json in E. apply rbind_Ok in E as (hash & _ & E). apply rbind_Ok in E as (raw & Hraw & E). injection E as <-.
  unfold decode_block_record. cbn [need_object rbind]. change (raw_bytes _ _) with (fromhex (hex raw)). rewrite fromhex_hex. cbn [rbind]. cbn [snd] in Hraw.
  pose proof (decodes_block _ _ Hraw [] []) as Hd. rewrite app_nil_l, app_nil_r in Hd. change (len (A := Init.Byte.byte) []) with 0 in Hd. rewrite Hd. cbn [rbind].
  rewrite Z.add_0_l, Z.eqb_refl, Hc. cbn [negb raise_if rbind]. rewrite Nat2Z.id, Hr, bool_decide_true by done. done.
Qed.

Lemma decode_registry_json r : registry_ok r -> decode_registry_record (registry_record_json r) = Ok r.
Proof.
  destruct r as [i payout owner reg ren key host port rew]. intros (_ & _ & _ & _ & Hk & Hh & _). cbn [node_pubkey declared_host] in Hk, Hh.
  unfold decode_registry_record. set (j := registry_record_json _). change (need_object j _) with (Ok tt). cbn [rbind].
  change (item_str j "node_id") with (Ok i). change (item_str j "payout_address") with (Ok payout). change (item_str j "owner_pubkey_hex") with (Ok (hex owner)).
  change (item_int j "registered_height") with (Ok reg). change (item_int j "last_renewed_height") with (Ok ren). cbn [rbind]. rewrite fromhex_hex. cbn [rbind].
  assert (E1 : optional j "node_pubkey_hex" (fun v => fromhex (json_str v)) = Ok key).
  { destruct key as [[|x k]|]; [done| |done]. unfold optional. change (absent j "node_pubkey_hex") with false. cbv iota.
    change (json_item j "node_pubkey_hex") with (Ok (JStr (hex (x :: k)))). cbn [rbind json_str]. by rewrite fromhex_hex. }
  assert (E2 : optional j "declared_host" (fun v => Ok (json_str v)) = Ok host) by (destruct host as [[|c h]|]; [by destruct Hh|done|done]).
  assert (E3 : optional j "declared_port" json_int = Ok port) by by destruct port.
  rewrite E1, E2, E3. done.
Qed.

Lemma decode_bundle_json s : stored_bundle_ok s -> decode_bundle (bundle_json s) = Ok s.
Proof.
  intros (_ & _ & I1 & I2 & Hs & _ & I3 & Ha). destruct s as [id height bundle]. cbn [stored_bundle] in *. unfold decode_bundle. set (j := bundle_json _).
  change (need_object j _) with (Ok tt). cbn [rbind].
  change (text_fields j _) with (Ok [(u "epoch_index", py_str_int (bundle_epoch_index bundle)); (u "bundle_window_index", py_str_int (bundle_window_index bundle));
    (u "bundle_submitter_node_id", bundle_submitter_node_id bundle); (u "attestation_count", py_str_int (len (attestations bundle)))]). cbn [rbind].
  change (json_item j "attestations") with (Ok (JList (stored_attestation_json <$> attestations bundle))). cbn [rbind].
  set (text := json_dumps (JList (stored_attestation_json <$> attestations bundle))).
  set (m := list_to_map _ : gmap str str).
  assert (HL : m !! u "epoch_index" = Some (py_str_int (bundle_epoch_index bundle)) /\ m !! u "bundle_window_index" = Some (py_str_int (bundle_window_index bundle)) /\
    m !! u "bundle_submitter_node_id" = Some (bundle_submitter_node_id bundle) /\ m !! u "attestation_count" = Some (py_str_int (len (attestations bundle))) /\
    m !! u "attestations_json" = Some text).
  { unfold m. clearbody text. cbn [list_to_map foldr]. split_and!; repeat (rewrite lookup_insert_ne by (vm_compute; discriminate)); apply lookup_insert_eq. }
  destruct HL as (L1 & L2 & L3 & L4 & L5). clearbody m. rewrite (parse_bundle_holds m bundle) by (done || apply (attestations_dumpable _ Ha)). cbn [rbind].
  change (item_str j "txid") with (Ok id). change (item_int j "block_height") with (Ok height). done.
Qed.

Lemma decode_settlement_json s : stored_settlement_ok s -> decode_settlement (settlement_json s) = Ok s.
Proof.
  intros (_ & _ & Hok & _). destruct s as [id height s]. cbn [stored_settlement] in *. unfold decode_settlement. set (j := settlement_json _).
  change (need_object j _) with (Ok tt). cbn [rbind].
  change (text_fields j [("epoch_index", "epoch_index"); ("epoch_start_height", "epoch_start_height"); ("epoch_end_height", "epoch_end_height");
    ("epoch_seed", "epoch_seed_hex"); ("policy_version", "policy_version")]%string)
    with (Ok [(u "epoch_index", py_str_int (settlement_epoch_index s)); (u "epoch_start_height", py_str_int (epoch_start_height s));
      (u "epoch_end_height", py_str_int (epoch_end_height s)); (u "epoch_seed", epoch_seed_hex s); (u "policy_version", policy_version s)]).
  change (text_fields j [("candidate_summary_root", "candidate_summary_root"); ("verified_nodes_root", "verified_nodes_root"); ("rewarded_nodes_root", "rewarded_nodes_root");
    ("rewarded_node_count", "rewarded_node_count"); ("distributed_node_reward_chipbits", "distributed_node_reward_chipbits");
    ("undistributed_node_reward_chipbits", "undistributed_node_reward_chipbits")]%string)
    with (Ok [(u "candidate_summary_root", candidate_summary_root s); (u "verified_nodes_root", verified_nodes_root s); (u "rewarded_nodes_root", rewarded_nodes_root s);
      (u "rewarded_node_count", py_str_int (rewarded_node_count s)); (u "distributed_node_reward_chipbits", py_str_int (distributed_node_reward_chipbits s));
      (u "undistributed_node_reward_chipbits", py_str_int (undistributed_node_reward_chipbits s))]).
  cbn [rbind]. change (json_item j "reward_entries") with (Ok (JList (entry_json <$> reward_entries s))). cbn [rbind app].
  change (match j with JObj d => json_str (dget_or d "submission_mode" (JStr (u "manual"))) | _ => [] end) with (submission_mode s).
  set (text := json_dumps (JList (entry_json <$> reward_entries s))). rewrite (parse_settlement_holds _ s Hok).
  - cbn [rbind]. change (item_str j "txid") with (Ok id). change (item_int j "block_height") with (Ok height). done.
  - unfold text. split; cbn [list_to_map foldr]; repeat (rewrite lookup_insert_ne by (vm_compute; discriminate)); apply lookup_insert_eq.
Qed.
End records.

(** ** Lists of records *)

Lemma mapM_inverse {A B} (P : A -> Prop) (f : A -> res B) (g : B -> res A) xs ys :
  (forall x y, P x -> f x = Ok y -> g y = Ok x) -> Forall P xs -> mapM f xs = Ok ys -> mapM g ys = Ok xs.
Proof.
  intros Hfg Hp. revert ys. induction Hp as [|x xs Hx _ IH]; intros ys E; cbn [mapM] in E; [by injection E as <-|].
  apply rbind_Ok in E as (y & Ey & E). apply rbind_Ok in E as (l & El & E). injection E as <-. cbn [mapM]. rewrite (Hfg _ _ Hx Ey). cbn [rbind]. by rewrite (IH _ El).
Qed.

Lemma mapM_fmap_id {A B} (P : A -> Prop) (f : A -> B) (g : B -> res A) xs : (forall x, P x -> g (f x) = Ok x) -> Forall P xs -> mapM g (f <$> xs) = Ok xs.
Proof.
  intros Hfg Hp. induction Hp as [|x xs Hx _ IH]; [done|]. change (mapM g (f <$> x :: xs)) with (let* y := g (f x) in let* l := mapM g (f <$> xs) in Ok (y :: l)).
  by rewrite (Hfg _ Hx), IH.
Qed.

Lemma mapM_property {A B} (P : A -> Prop) (Q : B -> Prop) (f : A -> res B) xs ys :
  (forall x y, P x -> f x = Ok y -> Q y) -> Forall P xs -> mapM f xs = Ok ys -> Forall Q ys.
Proof.
  intros Hfg Hp. revert ys. induction Hp as [|x xs Hx _ IH]; intros ys E; cbn [mapM] in E; [by injection E as <-|].
  apply rbind_Ok in E as (y & Ey & E). apply rbind_Ok in E as (l & El & E). injection E as <-. constructor; [by eapply Hfg|by apply IH].
Qed.

Lemma decode_blocks_json records i bs js :
  mapM block_record_json (enumerate_from (Z.of_nat i) bs) = Ok js -> Forall (fun b => canonical_block b = b) bs ->
  (forall k b, bs !! k = Some b -> exists r, records !! (i + k)%nat = Some r /\ header b = snapshot_header r) ->
  mapM (decode_block_record records) (enumerate_from (Z.of_nat i) js) = Ok bs.
Proof.
  revert i js. induction bs as [|b bs IH]; intros i js E Hc Hr; cbn [enumerate_from mapM] in E; [by injection E as <-|].
  apply rbind_Ok in E as (j & Ej & E). apply rbind_Ok in E as (l & El & E). injection E as <-. apply Forall_cons in Hc as [Hb Hc].
  destruct (Hr 0%nat b eq_refl) as (r & Hr0 & Hh). rewrite Nat.add_0_r in Hr0. cbn [enumerate_from mapM]. rewrite (decode_block_json records i b j r Ej Hb Hr0 Hh). cbn [rbind].
  replace (Z.of_nat i + 1) with (Z.of_nat (S i)) in * by lia. rewrite (IH (S i) l El Hc); [done|].
  intros k x Hx. destruct (Hr (S k) x Hx) as (r' & Hr' & Hh'). exists r'. split; [|done]. by rewrite Nat.add_succ_r in Hr'.
Qed.

(** ** Payloads that differ in the order of their items *)

Lemma dict_get_perm {V} (d e : list (str * V)) k : d ≡ₚ e -> NoDup d.*1 -> dict_get d k = dict_get e k.
Proof.
  intros Hp Hn. assert (Hn' : NoDup e.*1) by by rewrite <- Hp. destruct (dict_get d k) as [v|] eqn:E.
  - apply dict_get_elem in E. rewrite Hp in E. symmetry. by apply dict_get_NoDup.
  - destruct (dict_get e k) as [v|] eqn:E'; [|done]. apply dict_get_elem in E'. rewrite <- Hp in E'. rewrite (dict_get_NoDup _ _ _ Hn E') in E. discriminate E.
Qed.

Section roundtrip.
Context `{PyRepr, SnapshotLaws}.

Lemma dumps_perm d e : d ≡ₚ e -> NoDup d.*1 -> json_dumps (JObj d) = json_dumps (JObj e).
Proof.
  intros Hp Hn. cbn [json_dumps]. do 3 f_equal. f_equal. apply sorted_by_deterministic; [|by rewrite Hp].
  intros x y Hx Hy Hk. apply list_elem_of_fmap in Hx as (kv & -> & Hx). apply list_elem_of_fmap in Hy as (kv' & -> & Hy). cbn [fst] in Hk.
  destruct kv as [k v], kv' as [k' v']. cbn [fst] in Hk. subst k'. apply (dict_get_NoDup _ _ _ Hn) in Hx, Hy. rewrite Hx in Hy. by injection Hy as ->.
Qed.

(** Nothing in the loader depends on the order of the items. *)
Lemma decode_perm d e net params mode keys : d ≡ₚ e -> NoDup d.*1 ->
  decode_snapshot_payload d net params mode keys = decode_snapshot_payload e net params mode keys.
Proof.
  intros Hp Hn. assert (Hg : forall k, dget d k = dget e k) by (intros k; by apply dict_get_perm).
  assert (Hgo : forall k v, dget_or d k v = dget_or e k v) by (intros k v; unfold dget_or; by rewrite (dict_get_perm d e (u k) Hp Hn)).
  assert (Hnorm : _normalize_snapshot_payload d = _normalize_snapshot_payload e) by (unfold _normalize_snapshot_payload; by rewrite (dumps_perm _ _ Hp Hn)).
  assert (Hcan : forall c, canonicalize_snapshot_payload d c = canonicalize_snapshot_payload e c) by (intros c; unfold canonicalize_snapshot_payload; by rewrite Hnorm).
  assert (Hck : snapshot_checksum d = snapshot_checksum e) by (unfold snapshot_checksum; by rewrite Hcan).
  assert (Hsig : _validate_snapshot_signatures d mode keys = _validate_snapshot_signatures e mode keys).
  { unfold _validate_snapshot_signatures, snapshot_signature_digest. by rewrite Hg, Hcan. }
  unfold decode_snapshot_payload. rewrite !Hg, !Hgo, Hck, Hsig. done.
Qed.

(** ** Snapshots of a chain *)

(** Contents that a snapshot can hold: headers that pass the checks, a block for each
    of them, and values whose texts and numbers can be printed and read back *)
Record contents_ok (net : str) (params : ConsensusParams) (created_at : Z) (c : SnapshotContents) : Prop := {
  headers_ok : Forall header_record_ok (content_headers c);
  headers_valid : _validate_snapshot_headers (content_headers c) params = Ok tt;
  blocks_ok : Forall (fun b => canonical_block b = b) (content_blocks c);
  blocks_match : Forall2 (fun b r => header b = snapshot_header r) (content_blocks c) (content_headers c);
  utxos_ok : Forall utxo_ok (content_utxos c);
  records_ok : Forall registry_ok (content_registry c);
  bundles_ok : Forall stored_bundle_ok (content_bundles c);
  settlements_ok : Forall stored_settlement_ok (content_settlements c);
  counts_ok : Forall int_ok [len (content_headers c); len (content_blocks c); len (content_utxos c); len (content_registry c); len (content_bundles c);
    len (content_settlements c)];
  network_ok : text_ok net;
  created_ok : int_ok created_at;
  params_printable : Forall int_ok [coinbase_maturity params; difficulty_adjustment_window params; genesis_bits params; max_block_weight params;
    target_block_time_activation_height params; target_block_time_seconds params] /\
    match legacy_target_block_time_seconds params with Some n => int_ok n | None => True end;
}.

Lemma enumerate_int_ok i (bs : list Block) : 0 <= i -> int_ok (i + len bs) -> Forall (fun ib => int_ok ib.1) (enumerate_from i bs).
Proof.
  revert i. induction bs as [|b bs IH]; intros i Hi Hb; [constructor|]. rewrite len_cons in Hb. pose proof (len_nonneg bs). cbn [enumerate_from]. unfold int_ok in *.
  constructor; [cbn [fst]; lia|]. apply IH; [lia|]. by replace (i + 1 + len bs) with (i + (1 + len bs)) by lia.
Qed.

Lemma metadata_dumpable net params created_at c fv tip hash : contents_ok net params created_at c -> int_ok fv -> header_record_ok tip -> text_ok hash ->
  dumpable (JObj (snapshot_metadata net params created_at c fv tip hash)).
Proof.
  intros [_ _ _ _ _ _ _ _ Hc Hn Hcr [Hp Hl]] Hfv (_ & Hh & _ & Ht) Hhash. repeat (apply Forall_cons in Hc as [? Hc]). repeat (apply Forall_cons in Hp as [? Hp]).
  assert (Hcompat : forall v, v = 1 \/ v = 2 -> dumpable (compatibility v)).
  { intros v Hv. unfold compatibility. dump_object; apply int_ok_small; unfold SNAPSHOT_FORMAT_VERSION_V1; lia. }
  assert (Hcons : dumpable (consensus_json params)) by (unfold consensus_json; dump_object; try done; by apply optional_dumpable; destruct (legacy_target_block_time_seconds params)).
  unfold snapshot_metadata. dump_object; try done; try apply ascii_text_ok.
  - apply Hcompat. unfold SNAPSHOT_FORMAT_VERSION_V1, SNAPSHOT_FORMAT_VERSION_V2. destruct (fv =? 1); lia.
  - destruct (fv =? _); [done|apply ascii_text_ok].
Qed.

(** The payload around the metadata *)
Definition payload_around (c : SnapshotContents) (raw_headers raw_blocks : list json) (md : dict) : dict :=
  [(u "blocks", JList raw_blocks); (u "epoch_settlements", JList (settlement_json <$> content_settlements c)); (u "headers", JList raw_headers);
   (u "metadata", JObj md); (u "node_registry", JList (registry_record_json <$> content_registry c));
   (u "reward_attestation_bundles", JList (bundle_json <$> content_bundles c)); (u "utxos", JList (utxo_json <$> content_utxos c))].

Lemma payload_around_dumpable net params created_at c raw_headers raw_blocks md : contents_ok net params created_at c ->
  mapM header_record_json (content_headers c) = Ok raw_headers -> mapM block_record_json (enumerate (content_blocks c)) = Ok raw_blocks ->
  dumpable (JObj md) -> dumpable (JObj (payload_around c raw_headers raw_blocks md)).
Proof.
  intros [Hh _ _ _ Hu Hr Hb Hs Hcounts _ _ _] Hrh Hrb Hmd. unfold payload_around. dump_object; try done; apply dumpable_list.
  - eapply (mapM_property (fun ib => int_ok ib.1)); [|apply (enumerate_int_ok 0); [done|]|exact Hrb]; [intros x y Hx Hy; by eapply block_record_dumpable|].
    repeat (apply Forall_cons in Hcounts as [? Hcounts]). done.
  - apply Forall_fmap. eapply Forall_impl; [exact Hs|]. intros x Hx. by apply settlement_dumpable.
  - eapply (mapM_property header_record_ok); [|exact Hh|exact Hrh]. intros x y Hx Hy. by eapply header_record_dumpable.
  - apply Forall_fmap. eapply Forall_impl; [exact Hr|]. intros x Hx. by apply registry_dumpable.
  - apply Forall_fmap. eapply Forall_impl; [exact Hb|]. intros x Hx. by apply bundle_dumpable.
  - apply Forall_fmap. eapply Forall_impl; [exact Hu|]. intros x Hx. by apply utxo_dumpable.
Qed.

(** The payload before its checksum is recorded *)
Lemma unrecorded_ok net params created_at c fv tip hash raw_headers raw_blocks : contents_ok net params created_at c -> int_ok fv ->
  last (content_headers c) = Some tip -> block_hash (snapshot_header tip) = Ok hash ->
  mapM header_record_json (content_headers c) = Ok raw_headers -> mapM block_record_json (enumerate (content_blocks c)) = Ok raw_blocks ->
  let md := snapshot_metadata net params created_at c fv tip hash in
  payload_ok (payload_around c raw_headers raw_blocks md) md /\ Forall (fun k => u k ∈ md.*1) file_keys.
Proof.
  intros Hc Hfv Hlast Hhash Hrh Hrb md. assert (Htip : header_record_ok tip).
  { pose proof (headers_ok _ _ _ _ Hc) as Hh. rewrite Forall_forall in Hh. apply Hh. by apply last_Some_elem_of. }
  pose proof (metadata_dumpable net params created_at c fv tip hash Hc Hfv Htip (block_hash_text _ _ Hhash)) as Hmd.
  assert (Hk : md.*1 = u <$> ["block_count"; "checksum_sha256"; "compatibility"; "compressed_payload_sha256"; "consensus"; "created_at"; "epoch_settlement_count";
    "format_version"; "header_count"; "kind"; "network"; "node_registry_count"; "payload_encoding"; "payload_sha256"; "reward_attestation_bundle_count"; "signatures";
    "snapshot_block_hash"; "snapshot_block_timestamp"; "snapshot_height"; "utxo_count"]%string) by reflexivity.
  assert (Hin : forall k, bool_decide (u k ∈ u <$> ["checksum_sha256"; "compatibility"; "compressed_payload_sha256"; "payload_encoding"; "payload_sha256"; "signatures"]%string) = true -> u k ∈ md.*1).
  { intros k Hb'. apply bool_decide_eq_true in Hb'. rewrite Hk. set_solver. }
  split; [split; [by eapply payload_around_dumpable|reflexivity|apply Hin; reflexivity|apply Hin; reflexivity]|].
  unfold file_keys. repeat (apply Forall_cons; split; [apply Hin; reflexivity|]). by apply Forall_nil.
Qed.

(** What [build_snapshot_payload] makes *)
Lemma build_inv net params created_at c fv payload : contents_ok net params created_at c -> int_ok fv ->
  build_snapshot_payload net params created_at c fv = Ok payload ->
  exists tip hash raw_headers raw_blocks ck, last (content_headers c) = Some tip /\ block_hash (snapshot_header tip) = Ok hash /\
    mapM header_record_json (content_headers c) = Ok raw_headers /\ mapM block_record_json (enumerate (content_blocks c)) = Ok raw_blocks /\
    let md := dict_set (snapshot_metadata net params created_at c fv tip hash) (u "checksum_sha256") (JStr ck) in
    snapshot_payload payload md /\
    payload = payload_around c raw_headers raw_blocks md.
Proof.
  intros Hc Hfv E. unfold build_snapshot_payload in E. destruct (last (content_headers c)) as [tip|] eqn:El; [|discriminate E].
  apply rbind_Ok in E as ([] & _ & E). apply rbind_Ok in E as (hash & Hhash & E). apply rbind_Ok in E as (raw_headers & Hrh & E). apply rbind_Ok in E as (raw_blocks & Hrb & E).
  apply rbind_Ok in E as (ck & Hck & E). injection E as <-. exists tip, hash, raw_headers, raw_blocks, ck. do 4 (split; [done|]). cbv zeta. split; [|done].
  destruct (unrecorded_ok _ _ _ _ _ _ _ _ _ Hc Hfv El Hhash Hrh Hrb) as [Hok Hkeys]. destruct (checksum_recorded _ _ _ Hok Hck) as [Hok' _].
  split; [exact Hok'|reflexivity|]. rewrite dict_set_same_keys by apply Hok. exact Hkeys.
Qed.

(** Building fails only where a header or block cannot be serialized. *)
Lemma build_succeeds net params created_at c fv raw_headers raw_blocks : contents_ok net params created_at c -> int_ok fv -> content_headers c ≠ [] ->
  mapM header_record_json (content_headers c) = Ok raw_headers -> mapM block_record_json (enumerate (content_blocks c)) = Ok raw_blocks ->
  exists payload, build_snapshot_payload net params created_at c fv = Ok payload.
Proof.
  intros Hc Hfv Hne Hrh Hrb. destruct (last (content_headers c)) as [tip|] eqn:El; [|by apply last_None in El].
  assert (Hhash : exists hash, block_hash (snapshot_header tip) = Ok hash).
  { destruct (proj1 (last_Some _ _) El) as [l Hl]. rewrite Hl in Hrh. clear -Hrh. revert raw_headers Hrh. induction l as [|x l IH]; intros ys E; cbn [app mapM] in E.
    - apply rbind_Ok in E as (y & Ey & _). unfold header_record_json in Ey. apply rbind_Ok in Ey as (hash & Hhash & _). by exists hash.
    - apply rbind_Ok in E as (y & _ & E). apply rbind_Ok in E as (ys' & E & _). by apply (IH ys'). }
  destruct Hhash as [hash Hhash]. destruct (unrecorded_ok _ _ _ _ _ _ _ _ _ Hc Hfv El Hhash Hrh Hrb) as [Hok _].
  destruct (checksum_ok _ _ Hok) as (data & _ & Hck). unfold build_snapshot_payload. rewrite El.
  assert (Hlen : len (content_blocks c) = len (content_headers c)) by (unfold len; f_equal; eapply Forall2_length, (blocks_match _ _ _ _ Hc)).
  rewrite Hlen, Z.eqb_refl. cbn [negb raise_if rbind]. rewrite Hhash. cbn [rbind]. rewrite Hrh. cbn [rbind]. rewrite Hrb. cbn [rbind].
  unfold payload_around in Hck. rewrite Hck. by eexists.
Qed.

Lemma unsigned_accepted payload md keys : payload_ok payload md -> dget md "signatures" = Some (JList []) ->
  _validate_snapshot_signatures payload OFF keys = Ok (0, 0, [], []).
Proof.
  intros Hp Hs. unfold _validate_snapshot_signatures. rewrite bool_decide_true by (apply (bool_decide_unpack _); vm_compute; exact I). cbn [negb raise_if rbind].
  rewrite (payload_metadata _ _ Hp). unfold dget_or. unfold dget in Hs. rewrite Hs. cbn [rbind].
  destruct (payload_parts _ _ Hp) as (_ & _ & Hu & _). destruct (dumps_bytes _ (with_metadata_dumpable _ _ _ Hp Hu)) as (data & Hd & _).
  unfold snapshot_signature_digest. rewrite (proj1 (canonicalize_ok _ _ Hp)). cbn [rbind]. rewrite Hd. reflexivity.
Qed.

(** The metadata the loader looks at *)
Record metadata_read (net : str) (fv : Z) (tip : SnapshotHeaderRecord) (hash ck : str) (md : dict) : Prop := {
  read_kind : dget md "kind" = Some (JStr SNAPSHOT_KIND);
  read_version : dget_or md "format_version" (JInt (-1)) = JInt fv;
  read_network : dget md "network" = Some (JStr net);
  read_height : dget_or md "snapshot_height" (JInt (-1)) = JInt (snapshot_header_height tip);
  read_hash : dget md "snapshot_block_hash" = Some (JStr hash);
  read_checksum : dget md "checksum_sha256" = Some (JStr ck);
}.

Lemma metadata_kept net params created_at c fv tip hash ck0 ck md :
  same_metadata (dict_set (snapshot_metadata net params created_at c fv tip hash) (u "checksum_sha256") (JStr ck0)) md ->
  dget md "checksum_sha256" = Some (JStr ck) -> metadata_read net fv tip hash ck md /\ dget md "signatures" = Some (JList []).
Proof.
  intros Hs Hck. split; [split; [..|done]|]; unfold dget, dget_or; rewrite Hs by (apply (bool_decide_unpack _); vm_compute; exact I); reflexivity.
Qed.

Lemma decode_payload_around net params created_at c fv tip hash ck raw_headers raw_blocks md mode keys valid trusted signers warnings :
  contents_ok net params created_at c -> fv = SNAPSHOT_FORMAT_VERSION_V1 \/ fv = SNAPSHOT_FORMAT_VERSION_V2 ->
  last (content_headers c) = Some tip -> block_hash (snapshot_header tip) = Ok hash ->
  mapM header_record_json (content_headers c) = Ok raw_headers -> mapM block_record_json (enumerate (content_blocks c)) = Ok raw_blocks ->
  let payload := payload_around c raw_headers raw_blocks md in
  payload_ok payload md -> metadata_read net fv tip hash ck md -> snapshot_checksum payload = Ok ck ->
  _validate_snapshot_signatures payload mode keys = Ok (valid, trusted, signers, warnings) ->
  decode_snapshot_payload payload net params mode keys =
    Ok (mkLoaded md (content_headers c) (content_blocks c) (content_utxos c) (content_registry c) (content_bundles c) (content_settlements c)
          valid trusted signers warnings).
Proof.
  intros Hc Hfv Hlast Hhash Hrh Hrb payload Hp [Hkind Hver Hnet Hheight Htip Hsum] Hck Hval. destruct Hc as [Hh Hv Hbc Hbm _ Hr Hb Hs _ _ _ _].
  assert (Dh : mapM decode_header_record raw_headers = Ok (content_headers c)) by (eapply mapM_inverse; [|exact Hh|exact Hrh]; intros x y; apply decode_header_json).
  assert (Dr : mapM decode_registry_record (registry_record_json <$> content_registry c) = Ok (content_registry c)) by (eapply mapM_fmap_id; [|exact Hr]; apply decode_registry_json).
  assert (Db : mapM decode_bundle (bundle_json <$> content_bundles c) = Ok (content_bundles c)) by (eapply mapM_fmap_id; [|exact Hb]; apply decode_bundle_json).
  assert (Ds : mapM decode_settlement (settlement_json <$> content_settlements c) = Ok (content_settlements c)) by (eapply mapM_fmap_id; [|exact Hs]; apply decode_settlement_json).
  assert (Du : mapM decode_utxo (utxo_json <$> content_utxos c) = Ok (content_utxos c))
    by (apply (mapM_fmap_id (fun _ => True)); [intros x _; apply decode_utxo_json|by apply Forall_true]).
  assert (Dk : mapM (decode_block_record (content_headers c)) (enumerate raw_blocks) = Ok (content_blocks c)).
  { apply (decode_blocks_json _ 0%nat); [done|done|]. intros k b Hk. destruct (Forall2_lookup_l _ _ _ _ _ Hbm Hk) as (r & Hr' & He). by exists r. }
  assert (Hck0 : required_text md "checksum_sha256" "snapshot checksum is required" = Ok ck).
  { unfold required_text. rewrite Hsum. unfold snapshot_checksum in Hck. apply rbind_Ok in Hck as (n & _ & Hck). apply rbind_Ok in Hck as (data & _ & Hck). injection Hck as <-.
    pose proof (Sha256.sha256_digest_length data : length (sha256 data) = 32%nat) as Hl. destruct (sha256 data) as [|x l]; [discriminate Hl|]. done. }
  unfold decode_snapshot_payload. rewrite (payload_metadata _ _ Hp), Hkind, Hver, Hnet, Hck0, Hck, Hval, Hheight, Htip. cbn [json_int rbind].
  rewrite !bool_decide_true by (done || (destruct Hfv as [->| ->]; apply (bool_decide_unpack _); vm_compute; exact I)). cbn [negb raise_if rbind].
  change (dget payload "headers") with (Some (JList raw_headers)). change (dget payload "utxos") with (Some (JList (utxo_json <$> content_utxos c))).
  change (dget_or payload "blocks" (JList [])) with (JList raw_blocks). change (dget payload "node_registry") with (Some (JList (registry_record_json <$> content_registry c))).
  change (dget_or payload "reward_attestation_bundles" (JList [])) with (JList (bundle_json <$> content_bundles c)).
  change (dget_or payload "epoch_settlements" (JList [])) with (JList (settlement_json <$> content_settlements c)). cbn [need_list rbind].
  assert (Hne : bool_decide (length raw_headers = 0%nat) = false).
  { apply bool_decide_eq_false. destruct raw_headers; [|done]. injection Dh as Dh. rewrite <- Dh in Hlast. discriminate Hlast. }
  rewrite Hne. cbn [raise_if rbind]. rewrite Dh. cbn [rbind]. rewrite Hv, Hlast. cbn [rbind]. rewrite Z.eqb_refl, Hhash. cbn [negb raise_if rbind].
  rewrite bool_decide_true by done. cbn [negb raise_if rbind]. rewrite Du, Dk, Dr, Db, Ds. done.
Qed.

Lemma checksum_ascii payload ck : snapshot_checksum payload = Ok ck -> ascii ck.
Proof. unfold snapshot_checksum. intros E. do 2 apply rbind_Ok in E as (? & _ & E). injection E as <-. apply hex_chars. Qed.

Lemma written_loads net params created_at c fv payload raw keys : contents_ok net params created_at c ->
  fv = SNAPSHOT_FORMAT_VERSION_V1 \/ fv = SNAPSHOT_FORMAT_VERSION_V2 ->
  build_snapshot_payload net params created_at c fv = Ok payload -> write_snapshot_file payload = Ok raw ->
  exists md md' tip hash ck, dget payload "metadata" = Some (JObj md) /\ same_metadata md md' /\ metadata_read net fv tip hash ck md' /\ ascii ck /\
    last (content_headers c) = Some tip /\ block_hash (snapshot_header tip) = Ok hash /\
    load_snapshot_file raw net params OFF keys =
      Ok (mkLoaded md' (content_headers c) (content_blocks c) (content_utxos c) (content_registry c) (content_bundles c) (content_settlements c) 0 0 [] []).
Proof.
  intros Hc Hfv Eb Ew. assert (Hfv' : int_ok fv) by (apply int_ok_small; unfold SNAPSHOT_FORMAT_VERSION_V1, SNAPSHOT_FORMAT_VERSION_V2 in Hfv; lia).
  destruct (build_inv _ _ _ _ _ _ Hc Hfv' Eb) as (tip & hash & rh & rb & ck & Hlast & Hhash & Hrh & Hrb & Hp & ->).
  destruct (file_roundtrip _ _ _ Hp Ew) as (payload' & md' & Hread & Hperm & [Hp' (ck' & Hck & Hsum) _] & Hsame & _).
  destruct (metadata_kept _ _ _ _ _ _ _ _ _ _ Hsame Hsum) as [Hmd Hsig].
  eexists _, md', tip, hash, ck'. split; [apply Hp|]. split; [exact Hsame|]. split; [exact Hmd|]. split; [by eapply checksum_ascii|].
  split; [exact Hlast|]. split; [exact Hhash|]. unfold load_snapshot_file. rewrite Hread. cbn [rbind].
  pose proof (snapshot_ok _ _ Hp') as Hok. pose proof (payload_dumpable _ _ Hok) as Hd. apply dumpable_members in Hd as (_ & _ & Hn).
  rewrite (decode_perm _ _ _ _ _ _ Hperm) by by rewrite Hperm.
  eapply decode_payload_around; [exact Hc|exact Hfv|exact Hlast|exact Hhash|exact Hrh|exact Hrb|exact Hok|exact Hmd|exact Hck|by eapply unsigned_accepted].
Qed.

(** A snapshot of a chain that is built and written to a file, in either format,
    loads again and gives the headers, blocks, unspent outputs, registry records,
    attestation bundles and settlements it was made of, with the metadata it was
    built with but for the checksums that belong to the file. *)
Theorem snapshot_roundtrip (net : str) (params : ConsensusParams) (created_at : Z) (c : SnapshotContents) (format_version : Z) (payload : dict) (raw : bytes) (keys : list bytes) :
  contents_ok net params created_at c ->
  format_version = SNAPSHOT_FORMAT_VERSION_V1 \/ format_version = SNAPSHOT_FORMAT_VERSION_V2 ->
  build_snapshot_payload net params created_at c format_version = Ok payload -> write_snapshot_file payload = Ok raw ->
  exists md md', dget payload "metadata" = Some (JObj md) /\ same_metadata md md' /\
    load_snapshot_file raw net params OFF keys =
      Ok (mkLoaded md' (content_headers c) (content_blocks c) (content_utxos c) (content_registry c) (content_bundles c) (content_settlements c) 0 0 [] []).
Proof.
  intros Hc Hfv Eb Ew. destruct (written_loads _ _ _ _ _ _ _ keys Hc Hfv Eb Ew) as (md & md' & tip & hash & ck & Hmd & Hsame & _ & _ & _ & _ & Hl). by exists md, md'.
Qed.
End roundtrip.
