(* ===== verification/SnapshotSigning.v ===== *)
(** * Signed snapshots

    The command that signs a snapshot file reads it, appends the signature and writes
    the file again.  The signature covers the checksums of the metadata, which
    writing computes anew: it stays valid because a file that was written before
    has them already. *)

From S2P Require Import Prelude PyOrder PyText Hashes Params Models Serialization Registry Pow Json Settlement Utxo Headers RewardStore Snapshots SnapshotFacts SnapshotFiles SnapshotRoundtrip.

Section signing.
Context `{PyRepr, SnapshotLaws}.

(** The command [snapshot-sign] on the bytes of the file *)
Definition snapshot_sign (raw : bytes) (private_key_hex : str) : res bytes :=
  let* payload := read_snapshot_payload raw in
  let* private_key := parse_ed25519_private_key_hex private_key_hex in
  let* signed_payload := sign_snapshot_payload payload private_key in
  write_snapshot_file signed_payload.

Lemma normalize_perm payload p : payload ≡ₚ p -> dumpable (JObj p) -> _normalize_snapshot_payload payload = Ok p.
Proof.
  intros Hperm Hd. pose proof Hd as (_ & _ & Hn)%dumpable_members. unfold _normalize_snapshot_payload.
  rewrite (dumps_perm _ _ Hperm) by by rewrite Hperm. by rewrite json_roundtrip.
Qed.

(** Checksum and digest do not depend on the list of signatures. *)
Definition with_signatures (md : dict) (entries : list json) : dict := dict_set md (u "signatures") (JList entries).

Lemma signed_metadata_ok p md entries : payload_ok p md -> Forall dumpable entries ->
  dumpable (JObj (with_signatures md entries)) /\ (with_signatures md entries).*1 = md.*1 /\ payload_ok (with_metadata p (with_signatures md entries)) (with_signatures md entries).
Proof.
  intros Hp He. assert (Hk : (with_signatures md entries).*1 = md.*1) by (apply dict_set_same_keys, Hp).
  assert (Hd : dumpable (JObj (with_signatures md entries))) by (apply dumpable_set; [by apply (payload_parts _ _ Hp)|apply Hp|by apply dumpable_list]).
  split; [done|]. split; [done|]. by eapply with_metadata_ok.
Qed.

Lemma signed_checksum p md entries : payload_ok p md -> Forall dumpable entries ->
  snapshot_checksum (with_metadata p (with_signatures md entries)) = snapshot_checksum p /\
  snapshot_signature_digest (with_metadata p (with_signatures md entries)) = snapshot_signature_digest p.
Proof.
  intros Hp He. destruct (signed_metadata_ok _ _ _ Hp He) as (_ & _ & Hp'). unfold snapshot_checksum, snapshot_signature_digest.
  rewrite (proj2 (canonicalize_ok _ _ Hp)), (proj2 (canonicalize_ok _ _ Hp')), (proj1 (canonicalize_ok _ _ Hp)), (proj1 (canonicalize_ok _ _ Hp')), !with_metadata_twice.
  unfold unchecked, unsigned, with_signatures. by rewrite dict_set_set.
Qed.

Lemma settled_signed p md entries : settled p md -> Forall dumpable entries -> settled (with_metadata p (with_signatures md entries)) (with_signatures md entries).
Proof.
  intros [Hp (ck & Hck & Hget) Hbody] He. pose proof (snapshot_ok _ _ Hp) as Hok. destruct (signed_metadata_ok _ _ _ Hok He) as (Hd & Hk & _).
  assert (Hg : forall k, u k ≠ u "signatures" -> dget (with_signatures md entries) k = dget md k) by (intros k Hne; by apply dict_get_set_ne).
  split; [by eapply keep_keys|exists ck; rewrite (proj1 (signed_checksum _ _ _ Hok He)); split; [done|]; rewrite Hg; [done|vm_compute; discriminate]|].
  unfold dget_or, with_signatures at 1. rewrite (dict_get_set_ne md) by (vm_compute; discriminate). intros Hfv. destruct (Hbody Hfv) as (bb & Hbb & G1 & G2 & G3).
  exists bb. rewrite (body_ignores_metadata _ _ md), with_metadata_same by done. rewrite !Hg by (vm_compute; discriminate). done.
Qed.

(** Signing a file that has been written *)
Lemma sign_settled payload p md key : payload ≡ₚ p -> settled p md -> dget md "signatures" = Some (JList []) -> len key = 32 ->
  exists digest, snapshot_signature_digest p = Ok digest /\
    sign_snapshot_payload payload key =
      Ok (with_metadata p (with_signatures md [signature_record (hex (ed25519_public key)) (hex (ed25519_sign key digest))])).
Proof.
  intros Hperm [Hp (ck & Hck & Hget) _] Hs Hl. pose proof (snapshot_ok _ _ Hp) as Hok. destruct (payload_parts _ _ Hok) as (_ & _ & Hu & _).
  destruct (dumps_bytes _ (with_metadata_dumpable _ _ _ Hok Hu)) as (data & Hd & _). exists (sha256 data).
  assert (Hdig : snapshot_signature_digest p = Ok (sha256 data)) by (unfold snapshot_signature_digest; rewrite (proj1 (canonicalize_ok _ _ Hok)); cbn [rbind]; by rewrite Hd).
  split; [done|]. unfold sign_snapshot_payload. rewrite Hl. cbn [Z.eqb Pos.eqb negb raise_if rbind]. rewrite (normalize_perm _ _ Hperm) by apply Hok. cbn [rbind].
  unfold dget_or. pose proof (payload_metadata _ _ Hok) as Hmd. unfold dget in Hmd. rewrite Hmd. cbn [as_dict rbind]. rewrite Hdig, Hck, Hs. cbn [rbind filter list_filter app].
  fold (with_signatures md [signature_record (hex (ed25519_public key)) (hex (ed25519_sign key (sha256 data)))]). rewrite (dict_set_id (with_signatures md _)); [done|].
  unfold with_signatures. rewrite dict_get_set_ne by (vm_compute; discriminate). exact Hget.
Qed.

Lemma signature_record_dumpable x y : dumpable (signature_record (hex x) (hex y)).
Proof. unfold signature_record. dump_object; (apply ascii_text_ok || apply hex_text_ok). Qed.

Lemma hex_head bs : bs ≠ [] -> exists c t, hex bs = c :: t.
Proof. destruct bs as [|x l]; [done|]. intros _. by eexists _, _. Qed.

Lemma signature_accepted p md key digest keys : payload_ok p md -> snapshot_signature_digest p = Ok digest -> len key = 32 -> ed25519_public key ∈ keys ->
  dget md "signatures" = Some (JList [signature_record (hex (ed25519_public key)) (hex (ed25519_sign key digest))]) ->
  _validate_snapshot_signatures p ENFORCE keys = Ok (1, 1, [hex (ed25519_public key)], []).
Proof.
  intros Hp Hd Hl Hin Hs. unfold _validate_snapshot_signatures. rewrite bool_decide_true by (apply (bool_decide_unpack _); vm_compute; exact I). cbn [negb raise_if rbind].
  rewrite (payload_metadata _ _ Hp). unfold dget_or. unfold dget in Hs. rewrite Hs, Hd. cbn [rbind foldM].
  assert (Hpub : ed25519_public key ≠ []) by (intros E; pose proof (ed25519_public_size key Hl) as Hz; rewrite E in Hz; discriminate Hz).
  destruct (hex_head _ Hpub) as (c1 & t1 & E1). destruct (hex_head _ (ed25519_sign_nonempty key digest)) as (c2 & t2 & E2).
  assert (Hc : check_signature ENFORCE (hex <$> keys) digest (mkSignatureCheck 0 0 [] []) (signature_record (hex (ed25519_public key)) (hex (ed25519_sign key digest))) =
    Ok (mkSignatureCheck 1 1 [hex (ed25519_public key)] [])).
  { unfold check_signature, signature_record, required_text. set (d := [_; _; _]). change (dget d "algorithm") with (Some (JStr SNAPSHOT_SIGNATURE_ALGORITHM)).
    change (dget d "public_key_hex") with (Some (JStr (hex (ed25519_public key)))). change (dget d "signature_hex") with (Some (JStr (hex (ed25519_sign key digest)))).
    cbv iota. rewrite (bool_decide_true (SNAPSHOT_SIGNATURE_ALGORITHM = SNAPSHOT_SIGNATURE_ALGORITHM)) by done. cbn [negb raise_if rbind]. rewrite E1, E2. cbn [rbind]. rewrite <- E1, <- E2. unfold parse_ed25519_public_key_hex.
    rewrite !fromhex_hex. cbn [try_except rbind]. rewrite (ed25519_public_size key Hl). cbn [Z.eqb Pos.eqb negb raise_if rbind].
    rewrite ed25519_sign_verifies by done. cbn [negb]. rewrite bool_decide_true by (by apply list_elem_of_fmap_2). reflexivity. }
  rewrite Hc. reflexivity.
Qed.

(** What is in the file after the command *)
Lemma signed_decodes net params created_at c format_version payload raw signed key keys :
  contents_ok net params created_at c ->
  format_version = SNAPSHOT_FORMAT_VERSION_V1 \/ format_version = SNAPSHOT_FORMAT_VERSION_V2 ->
  build_snapshot_payload net params created_at c format_version = Ok payload -> write_snapshot_file payload = Ok raw ->
  len key = 32 -> ed25519_public key ∈ keys -> snapshot_sign raw (hex key) = Ok signed ->
  exists payload' p md, read_snapshot_payload signed = Ok payload' /\ payload' ≡ₚ p /\ payload_ok p md /\
    decode_snapshot_payload p net params ENFORCE keys =
      Ok (mkLoaded md (content_headers c) (content_blocks c) (content_utxos c) (content_registry c) (content_bundles c) (content_settlements c)
            1 1 [hex (ed25519_public key)] []).
Proof.
  intros Hc Hfv Eb Ew Hl Hin Es. assert (Hfv' : int_ok format_version) by (apply int_ok_small; unfold SNAPSHOT_FORMAT_VERSION_V1, SNAPSHOT_FORMAT_VERSION_V2 in Hfv; lia).
  destruct (build_inv _ _ _ _ _ _ Hc Hfv' Eb) as (tip & hash & rh & rb & ck & Hlast & Hhash & Hrh & Hrb & Hp & ->).
  destruct (file_roundtrip _ _ _ Hp Ew) as (payload1 & md1 & Hread & Hperm & Hset & Hsame & _). pose proof Hset as [Hp1 (ck1 & Hck1 & Hsum1) _].
  destruct (metadata_kept _ _ _ _ _ _ _ _ _ _ Hsame Hsum1) as [Hmd Hsig].
  unfold snapshot_sign in Es. rewrite Hread in Es. unfold parse_ed25519_private_key_hex in Es. cbn [rbind] in Es. rewrite fromhex_hex in Es. cbn [try_except rbind] in Es.
  rewrite Hl in Es. cbn [Z.eqb Pos.eqb negb raise_if rbind] in Es.
  destruct (sign_settled _ _ _ _ Hperm Hset Hsig Hl) as (digest & Hdig & Esign). rewrite Esign in Es. cbn [rbind] in Es. rewrite with_metadata_twice in Es.
  set (record := signature_record _ _) in *. assert (Hrec : Forall dumpable [record]) by (apply Forall_singleton, signature_record_dumpable).
  pose proof (settled_signed _ _ _ Hset Hrec) as Hset2. pose proof (signed_checksum _ _ _ (snapshot_ok _ _ Hp1) Hrec) as [Eck Edig]. rewrite with_metadata_twice in Hset2, Eck, Edig.
  destruct (file_roundtrip _ _ _ (settled_payload _ _ Hset2) Es) as (payload2 & md2 & Hread2 & Hperm2 & _ & _ & Hkeep). rewrite (Hkeep Hset2), with_metadata_twice in Hperm2.
  pose proof (snapshot_ok _ _ (settled_payload _ _ Hset2)) as Hok2. eexists payload2, _, (with_signatures md1 [record]). split; [done|]. split; [done|]. split; [exact Hok2|].
  eapply (decode_payload_around net params created_at c format_version tip hash ck1); [exact Hc|exact Hfv|exact Hlast|exact Hhash|exact Hrh|exact Hrb|exact Hok2| | |].
  - destruct Hmd as [R1 R2 R3 R4 R5 R6]. split; unfold dget, dget_or, with_signatures; rewrite dict_get_set_ne by (vm_compute; discriminate); done.
  - rewrite <- Hck1. exact Eck.
  - eapply signature_accepted; [exact Hok2|rewrite <- Hdig; exact Edig|done|done|]. apply dict_get_set_eq.
Qed.

(** C28: A snapshot that was exported to a file, in either format, and signed there with
    the command for it loads in enforce mode when the signer's key is trusted, and
    gives what it was made of. *)
Theorem signed_snapshot_trusted (net : str) (params : ConsensusParams) (created_at : Z) (c : SnapshotContents) (format_version : Z) (payload : dict)
    (raw signed : bytes) (key : bytes) (keys : list bytes) :
  contents_ok net params created_at c ->
  format_version = SNAPSHOT_FORMAT_VERSION_V1 \/ format_version = SNAPSHOT_FORMAT_VERSION_V2 ->
  build_snapshot_payload net params created_at c format_version = Ok payload -> write_snapshot_file payload = Ok raw ->
  len key = 32 -> ed25519_public key ∈ keys -> snapshot_sign raw (hex key) = Ok signed ->
  exists md, load_snapshot_file signed net params ENFORCE keys =
    Ok (mkLoaded md (content_headers c) (content_blocks c) (content_utxos c) (content_registry c) (content_bundles c) (content_settlements c)
          1 1 [hex (ed25519_public key)] []).
Proof.
  intros Hc Hfv Eb Ew Hl Hin Es. destruct (signed_decodes _ _ _ _ _ _ _ _ _ keys Hc Hfv Eb Ew Hl Hin Es) as (payload' & p & md & Hread & Hperm & Hok & Hd).
  exists md. unfold load_snapshot_file. rewrite Hread. cbn [rbind]. pose proof (payload_dumpable _ _ Hok) as (_ & _ & Hn)%dumpable_members.
  by rewrite (decode_perm _ _ _ _ _ _ Hperm) by by rewrite Hperm.
Qed.

(** ** Version 1 files can always be written *)

Lemma write_text payload md : snapshot_payload payload md -> dget_or md "format_version" (JInt SNAPSHOT_FORMAT_VERSION_V1) = JInt SNAPSHOT_FORMAT_VERSION_V1 ->
  exists raw, write_snapshot_file payload = Ok raw.
Proof.
  intros Hp Hfv. pose proof (snapshot_ok _ _ Hp) as Hok. unfold write_snapshot_file. rewrite normalize_dumpable by apply Hok. cbn [rbind].
  unfold dget_or at 1. pose proof (payload_metadata _ _ Hok) as Hmd. unfold dget in Hmd. rewrite Hmd. cbn [as_dict rbind].
  destruct (checksum_ok _ _ Hok) as (data & _ & Hck). rewrite Hck. cbn [rbind]. destruct (checksum_recorded _ _ _ Hok Hck) as [Hok1 _].
  unfold dget_or at 1. rewrite dict_get_set_ne by (vm_compute; discriminate). unfold dget_or in Hfv. rewrite Hfv. cbn [json_int rbind].
  destruct (dumps_bytes _ (payload_dumpable _ _ Hok1)) as (bs & Hbs & _). rewrite Z.eqb_refl. unfold with_metadata in Hbs. rewrite Hbs. by eexists.
Qed.

Lemma text_files net params created_at c raw_headers raw_blocks key : contents_ok net params created_at c -> content_headers c ≠ [] ->
  mapM header_record_json (content_headers c) = Ok raw_headers -> mapM block_record_json (enumerate (content_blocks c)) = Ok raw_blocks -> len key = 32 ->
  exists payload raw signed, build_snapshot_payload net params created_at c SNAPSHOT_FORMAT_VERSION_V1 = Ok payload /\ write_snapshot_file payload = Ok raw /\
    snapshot_sign raw (hex key) = Ok signed.
Proof.
  intros Hc Hne Hrh Hrb Hl. assert (Hfv : int_ok SNAPSHOT_FORMAT_VERSION_V1) by (apply int_ok_small; unfold SNAPSHOT_FORMAT_VERSION_V1; lia).
  destruct (build_succeeds _ _ _ _ _ _ _ Hc Hfv Hne Hrh Hrb) as [payload Eb]. exists payload.
  destruct (build_inv _ _ _ _ _ _ Hc Hfv Eb) as (tip & hash & rh & rb & ck & _ & _ & _ & _ & Hp & _).
  destruct (write_text _ _ Hp) as [raw Ew]; [reflexivity|]. exists raw.
  destruct (file_roundtrip _ _ _ Hp Ew) as (payload1 & md1 & Hread & Hperm & Hset & Hsame & _). pose proof Hset as [Hp1 (ck1 & _ & Hsum1) _].
  destruct (metadata_kept _ _ _ _ _ _ _ _ _ _ Hsame Hsum1) as [Hmd Hsig]. destruct (sign_settled _ _ _ _ Hperm Hset Hsig Hl) as (digest & _ & Esign).
  assert (Hrec : Forall dumpable [signature_record (hex (ed25519_public key)) (hex (ed25519_sign key digest))]) by (apply Forall_singleton, signature_record_dumpable).
  destruct (write_text _ _ (settled_payload _ _ (settled_signed _ _ _ Hset Hrec))) as [signed Es].
  { unfold dget_or, with_signatures. rewrite dict_get_set_ne by (vm_compute; discriminate). rewrite Hsame by (apply (bool_decide_unpack _); vm_compute; exact I). reflexivity. }
  exists signed. split; [done|]. split; [done|]. unfold snapshot_sign, parse_ed25519_private_key_hex. rewrite Hread. cbn [rbind]. rewrite fromhex_hex. cbn [try_except rbind].
  rewrite Hl. cbn [Z.eqb Pos.eqb negb raise_if rbind]. rewrite Esign. exact Es.
Qed.
End signing.
