(* ===== verification/SnapshotNode.v ===== *)
(** * Exporting and importing snapshots ([node/service.py])

    The operations of the node service that make a snapshot of the active chain and
    that replace the persisted state by one.  An import is one database
    transaction: an exception leaves every table as it was.  The state adds to the
    node the table [chain_meta] but for the tip, which the header table of
    [Headers.v] has, the cached index of confirmed transactions, and the status that
    the runtime reports.  The service is backed by a database. *)

From S2P Require Import Prelude PyState PyOrder PyText Hashes Params Models Serialization Registry Pow Json Settlement Utxo UtxoStore Headers RewardStore Mempool Service Node Snapshots.

Record SnapshotNode : Type := mkSnapshotNode {
  base_node : Node;
  chain_meta : gmap str str;
  _active_chain_transaction_index : option (gmap str (str * Z));
  _runtime_sync_status : option dict;
}.

Definition service_of (sn : SnapshotNode) : NodeService := node_chain (base_node sn).

Section operations.
Context `{PyRepr, SnapshotBackend}.

(** ** Export *)

Definition export_record (s : NodeService) (h : Z) : res (SnapshotHeaderRecord * Block) :=
  match header_get_hash_at_height (headers s) h with
  | None => raise ValueError "missing main-chain header at height"
  | Some hash =>
      let* record := header_get_record (headers s) hash in
      match record with
      | Some r =>
          match record_work r with
          | None => raise ValueError "missing main-chain header metadata at height"
          | Some work =>
              let* found := block_get (blocks s) hash in
              match found with
              | None => raise ValueError "missing main-chain block at height"
              | Some block => Ok (mkSnapshotHeader (record_header r) h work, block)
              end
          end
      | None => raise ValueError "missing main-chain header metadata at height"
      end
  end.

(** What [export_snapshot_payload] passes to [build_snapshot_payload] *)
Definition export_contents (s : NodeService) : res SnapshotContents :=
  match chain_tip s with
  | None => raise ValueError "cannot export a snapshot from an empty chain"
  | Some tip =>
      let* items := mapM (export_record s) (zrange (tip_height tip + 1)) in
      let* bundles := list_bundles (reward_attestations s) None in
      let* settlements := list_settlements (reward_settlements s) None in
      Ok (mkContents items.*1 items.*2 (store_list_utxos (chainstate s)) (registry_store_list (node_registry s)) bundles settlements)
  end.

Definition export_snapshot_payload (s : NodeService) (now format_version : Z) : res dict :=
  let* contents := export_contents s in
  build_snapshot_payload (service_network s) (service_params s) now contents format_version.

(** The bytes of the file and the metadata that is reported *)
Definition export_snapshot_file (s : NodeService) (now format_version : Z) : res (bytes * dict) :=
  let* payload := export_snapshot_payload s now format_version in
  let* raw := write_snapshot_file payload in
  let* written := read_snapshot_payload raw in
  let* v := json_item (JObj written) "metadata" in
  let* metadata := as_dict v in
  Ok (raw, metadata).

(** ** The metadata table *)

Definition _get_chain_meta (meta : gmap str str) (key : string) : option str := meta !! u key.
Definition _set_chain_meta (meta : gmap str str) (key : string) (v : str) : res (gmap str str) :=
  let* v' := sqlite_text v in Ok (<[u key := v']> meta).

Definition stored_anchor (meta : gmap str str) : res (option SnapshotAnchor) :=
  match _get_chain_meta meta "snapshot_height", _get_chain_meta meta "snapshot_block_hash" with
  | Some height, Some hash => let* h := py_int height in Ok (Some (mkAnchor h hash))
  | _, _ => Ok None
  end.

Definition ascii_lower (c : Z) : Z := if (65 <=? c) && (c <=? 90) then c + 32 else c.
(** [key LIKE 'snapshot_%']: the comparison ignores the case of ASCII letters, and the
    underscore stands for any character *)
Definition like_snapshot (key : str) : bool := bool_decide (ascii_lower <$> take 8 key = u "snapshot") && (9 <=? len key).

(** ** Import *)

(** [LoadedSnapshot.anchor] *)
Definition anchor (snapshot : LoadedSnapshot) : res SnapshotAnchor :=
  let* h := item_int (JObj (loaded_metadata snapshot)) "snapshot_height" in
  let* hash := item_str (JObj (loaded_metadata snapshot)) "snapshot_block_hash" in
  Ok (mkAnchor h hash).

Definition put_header (db : HeaderDb) (record : SnapshotHeaderRecord) : res HeaderDb :=
  header_put db (snapshot_header record) (Some (snapshot_header_height record)) (Some (snapshot_cumulative_work record)) true.

(** [json.dumps] of a list of texts *)
Definition dump_texts (l : list str) : str := u "[" ++ join_text (u ", ") (dump_string <$> l) ++ u "]".

Definition write_chain_meta (meta : gmap str str) (snapshot : LoadedSnapshot) (at_ : SnapshotAnchor) : res (gmap str str) :=
  let* meta := _set_chain_meta meta "snapshot_height" (py_str_int (anchor_height at_)) in
  let* meta := _set_chain_meta meta "snapshot_block_hash" (anchor_hash at_) in
  let* checksum := item_str (JObj (loaded_metadata snapshot)) "checksum_sha256" in
  let* meta := _set_chain_meta meta "snapshot_checksum_sha256" checksum in
  let* version := item_str (JObj (loaded_metadata snapshot)) "format_version" in
  let* meta := _set_chain_meta meta "snapshot_format_version" version in
  let* meta := _set_chain_meta meta "snapshot_signature_verified" (u (if 0 <? valid_signature_count snapshot then "true" else "false")) in
  let* meta := _set_chain_meta meta "snapshot_valid_signature_count" (py_str_int (valid_signature_count snapshot)) in
  let* meta := _set_chain_meta meta "snapshot_trusted_signature_count" (py_str_int (trusted_signature_count snapshot)) in
  let* meta := _set_chain_meta meta "snapshot_accepted_signer_pubkeys" (dump_texts (accepted_signer_pubkeys snapshot)) in
  _set_chain_meta meta "snapshot_trust_warnings" (dump_texts (snapshot_warnings snapshot)).

(** The writes of the transaction *)
Definition import_tables (s : NodeService) (meta : gmap str str) (snapshot : LoadedSnapshot) : res (NodeService * gmap str str) :=
  let meta := filter (fun kv => like_snapshot kv.1 = false) meta in
  let* hdb := foldM put_header (mkHeaderDb ∅ None) (loaded_headers snapshot) in
  let* bdb := foldM block_put (mkBlockDb ∅) (loaded_blocks snapshot) in
  let* at_ := anchor snapshot in
  let* hdb := header_set_tip hdb (anchor_hash at_) (anchor_height at_) in
  let* utxos := store_replace_all (chainstate s) (loaded_utxos snapshot) in
  let* registry := registry_store_replace_all (node_registry s) (node_registry_records snapshot) in
  let* adb := attestations_replace_all (reward_attestations s) (reward_attestation_bundles snapshot) in
  let* sdb := settlements_replace_all (reward_settlements s) (epoch_settlements snapshot) in
  let* meta := write_chain_meta meta snapshot at_ in
  let* stored := stored_anchor meta in
  Ok (mkService (service_params s) (service_network s) hdb bdb utxos registry adb sdb stored, meta).

Definition import_snapshot (snapshot : LoadedSnapshot) (reset_existing : bool) : stm SnapshotNode unit := fun sn =>
  let s := service_of sn in
  if bool_decide (is_Some (chain_tip s)) && negb reset_existing then
    (raise ValueError "snapshot import requires an empty chain or reset_existing=True", sn)
  else
    match import_tables s (chain_meta sn) snapshot with
    | Raise e => (Raise e, sn)
    | Ok (s', meta) =>
        let pool := node_pool (base_node sn) in
        (Ok tt, mkSnapshotNode (mkNode s' (set_repository (mempool_clear (repository pool)) pool) [] None) meta (_active_chain_transaction_index sn) None)
    end.

Definition import_snapshot_file (raw : bytes) (reset_existing : bool) (trust_mode : str) (trusted_keys : list bytes) : stm SnapshotNode dict := fun sn =>
  match load_snapshot_file raw (service_network (service_of sn)) (service_params (service_of sn)) trust_mode trusted_keys with
  | Raise e => (Raise e, sn)
  | Ok loaded =>
      match import_snapshot loaded reset_existing sn with
      | (Raise e, sn') => (Raise e, sn')
      | (Ok tt, sn') =>
          match _set_chain_meta (chain_meta sn') "snapshot_trust_mode" trust_mode with
          | Raise e => (Raise e, sn')
          | Ok meta =>
              let metadata := dict_set (loaded_metadata loaded) (u "valid_signature_count") (JInt (valid_signature_count loaded)) in
              let metadata := dict_set metadata (u "trusted_signature_count") (JInt (trusted_signature_count loaded)) in
              let metadata := dict_set metadata (u "accepted_signer_pubkeys") (JList (JStr <$> accepted_signer_pubkeys loaded)) in
              let metadata := dict_set metadata (u "warnings") (JList (JStr <$> snapshot_warnings loaded)) in
              (Ok metadata, mkSnapshotNode (base_node sn') meta (_active_chain_transaction_index sn') (_runtime_sync_status sn'))
          end
      end
  end.

(** ** Confirmed transactions through the cached index *)

Definition with_index (index : option (gmap str (str * Z))) (sn : SnapshotNode) : SnapshotNode :=
  mkSnapshotNode (base_node sn) (chain_meta sn) index (_runtime_sync_status sn).

Definition _active_chain_transaction_location (id : str) : stm SnapshotNode (option (str * Z)) := fun sn =>
  match _active_chain_transaction_index sn with
  | Some index => (Ok (index !! id), sn)
  | None =>
      match _build_active_chain_transaction_index (service_of sn) with
      | Raise e => (Raise e, sn)
      | Ok index => (Ok (index !! id), with_index (Some index) sn)
      end
  end.

Definition find_in_active_chain (id : str) : stm SnapshotNode (option Transaction) :=
  let! location := _active_chain_transaction_location id in
  match location with
  | None => ret None
  | Some (hash, _) =>
      let! found := asks (fun sn => block_get (blocks (service_of sn)) hash) in
      match found with
      | None => let! _ := modify (with_index None) in ret None
      | Some block =>
          let! t := lift (find_txid (transactions block) id) in
          match t with
          | Some t => ret (Some t)
          | None => let! _ := modify (with_index None) in ret None
          end
      end
  end.
End operations.
