(* ===== verification/SnapshotTransfer.v ===== *)
(** * From one node to another by snapshot

    A node exports its chain to a file and another imports it: the second then has
    the chain, the unspent outputs and the registry of the first.  The index of
    confirmed transactions that the second may have cached is not dropped. *)

From S2P Require Import Prelude PyState PyOrder PyText Hashes Params Models Serialization Registry Pow Json Settlement Utxo UtxoStore Headers RewardStore Mempool Service Node Ledger Snapshots SnapshotFacts SnapshotFiles SnapshotRoundtrip SnapshotNode.

(** ** The header table *)

Definition header_row (r : SnapshotHeaderRecord) : res (str * HeaderRow) :=
  let* hash := block_hash (snapshot_header r) in
  let* raw := serialize_block_header (snapshot_header r) in
  let* h := sqlite_int (snapshot_header_height r) in
  Ok (hash, mkRow (previous_block_hash (snapshot_header r)) (Some h) (Some (py_str_int (snapshot_cumulative_work r))) true raw).

Lemma sqlite_int_Ok n m : sqlite_int n = Ok m -> m = n.
Proof. unfold sqlite_int. destruct (_ && _); [|discriminate]. by injection 1. Qed.

Lemma put_headers_rows records db db' : foldM put_header db records = Ok db' ->
  exists items, mapM header_row records = Ok items /\ header_rows db' = foldl (fun m kv => <[kv.1 := kv.2]> m) (header_rows db) items /\ chain_tip_hash db' = chain_tip_hash db.
Proof.
  revert db. induction records as [|r rs IH]; intros db E; cbn [foldM] in E; [injection E as <-; by exists []|].
  apply rbind_Ok in E as (db1 & E1 & E). unfold put_header, header_put in E1. apply rbind_Ok in E1 as (hash & Hh & E1). apply rbind_Ok in E1 as (raw & Hr & E1).
  apply rbind_Ok in E1 as (col & Hc & E1). injection E1 as <-. cbn [opt_int] in Hc. apply rbind_Ok in Hc as (m & Hm & Hc). injection Hc as <-.
  destruct (IH _ E) as (items & Hi & Hrows & Htip). exists ((hash, mkRow (previous_block_hash (snapshot_header r)) (Some m) (Some (py_str_int (snapshot_cumulative_work r))) true raw) :: items).
  split; [|done]. cbn [mapM]. unfold header_row at 1. rewrite Hh. cbn [rbind]. rewrite Hr. cbn [rbind]. rewrite Hm. cbn [rbind]. by rewrite Hi.
Qed.

(** Rows inserted under distinct keys *)
Lemma inserted_rows {V} (items : list (str * V)) k v : NoDup items.*1 ->
  (foldl (fun m kv => <[kv.1 := kv.2]> m) (∅ : gmap str V) items !! k = Some v) <-> (k, v) ∈ items.
Proof.
  intros Hn. assert (Hg : forall m : gmap str V, (foldl (fun m kv => <[kv.1 := kv.2]> m) m items !! k = Some v) <-> ((k, v) ∈ items) \/ ((k ∉ items.*1) /\ m !! k = Some v)).
  { induction items as [|[k' v'] items IH]; intros m; cbn [foldl].
    - cbn. split; [intros E; right; split; [apply not_elem_of_nil|done]|intros [E|[_ E]]; [by apply not_elem_of_nil in E|done]].
    - cbn [fmap list_fmap fst] in Hn. apply NoDup_cons in Hn as [Hk Hn]. rewrite (IH Hn). cbn [fmap list_fmap fst snd]. rewrite !elem_of_cons. destruct (decide (k = k')) as [->|Hne].
      + rewrite lookup_insert_eq. split.
        * intros [Hin|[_ [= ->]]]; [by left; right|left; by left].
        * intros [[[= ->]|Hin]|[Hc _]]; [by right|by left|destruct Hc; by left].
      + rewrite lookup_insert_ne by done. naive_solver. }
  rewrite Hg, lookup_empty. split; [intros [Hin|[_ E]]; [done|discriminate E]|by left].
Qed.

Lemma header_row_at records items i r : mapM header_row records = Ok items -> records !! i = Some r -> exists item, items !! i = Some item /\ header_row r = Ok item.
Proof. intros Hm Hr. apply mapM_Forall2 in Hm. destruct (Forall2_lookup_l _ _ _ _ _ Hm Hr) as (item & Hi & He). by exists item. Qed.

(** The rows of an imported chain: one for each header, under its hash, at its height *)
Lemma imported_rows records db : foldM put_header (mkHeaderDb ∅ None) records = Ok db -> 
  (forall i r, records !! i = Some r -> snapshot_header_height r = Z.of_nat i) ->
  forall hashes, mapM (fun r => block_hash (snapshot_header r)) records = Ok hashes -> NoDup hashes ->
  (forall i r hash, records !! i = Some r -> hashes !! i = Some hash ->
    exists raw, serialize_block_header (snapshot_header r) = Ok raw /\
      header_rows db !! hash = Some (mkRow (previous_block_hash (snapshot_header r)) (Some (Z.of_nat i)) (Some (py_str_int (snapshot_cumulative_work r))) true raw)) /\
  (forall hash row, header_rows db !! hash = Some row -> exists i, hashes !! i = Some hash /\ row_height row = Some (Z.of_nat i)).
Proof.
  intros E Hh hashes Hm Hn. destruct (put_headers_rows _ _ _ E) as (items & Hi & Hrows & _). cbn [header_rows] in Hrows.
  assert (Hat : forall i r hash, records !! i = Some r -> hashes !! i = Some hash -> exists raw, serialize_block_header (snapshot_header r) = Ok raw /\
    items !! i = Some (hash, mkRow (previous_block_hash (snapshot_header r)) (Some (Z.of_nat i)) (Some (py_str_int (snapshot_cumulative_work r))) true raw)).
  { intros i r hash Hr Hhash. destruct (header_row_at _ _ _ _ Hi Hr) as (item & Hitem & Hrow). apply mapM_Forall2 in Hm. pose proof (Forall2_lookup_lr _ _ _ _ _ _ Hm Hr Hhash) as Hbh. cbn beta in Hbh.
    unfold header_row in Hrow. apply rbind_Ok in Hrow as (hash' & Hb & Hrow). apply rbind_Ok in Hrow as (raw & Hraw & Hrow). apply rbind_Ok in Hrow as (h & Hs & Hrow).
    apply sqlite_int_Ok in Hs as ->. injection Hrow as <-. exists raw. split; [done|]. rewrite Hitem, (Hh _ _ Hr). rewrite Hbh in Hb. by injection Hb as <-. }
  assert (Hkeys : items.*1 = hashes).
  { apply list_eq. intros i. rewrite list_lookup_fmap. destruct (records !! i) as [r|] eqn:Hr.
    - destruct (hashes !! i) as [hash|] eqn:Hhash; [destruct (Hat _ _ _ Hr Hhash) as (raw & _ & ->); done|].
      apply mapM_length in Hm. apply lookup_lt_Some in Hr. apply lookup_ge_None in Hhash. lia.
    - apply lookup_ge_None in Hr. pose proof (mapM_length _ _ _ Hm). pose proof (mapM_length _ _ _ Hi). rewrite !lookup_ge_None_2 by lia. done. }
  split.
  - intros i r hash Hr Hhash. destruct (Hat _ _ _ Hr Hhash) as (raw & Hraw & Hitem). exists raw. split; [done|]. rewrite Hrows, inserted_rows by by rewrite Hkeys.
    by eapply list_elem_of_lookup_2.
  - intros hash row Hrow. rewrite Hrows, inserted_rows in Hrow by by rewrite Hkeys. apply list_elem_of_lookup_1 in Hrow as [i Hitem]. exists i.
    assert (Hhash : hashes !! i = Some hash) by (rewrite <- Hkeys, list_lookup_fmap, Hitem; done). split; [done|].
    destruct (records !! i) as [r|] eqn:Hr; [|apply lookup_ge_None in Hr; apply lookup_lt_Some in Hitem; pose proof (mapM_length _ _ _ Hi); lia].
    destruct (Hat _ _ _ Hr Hhash) as (raw & _ & Hitem'). rewrite Hitem in Hitem'. by injection Hitem' as ->.
Qed.

(** ** The block table *)

Definition block_row (b : Block) : res (str * bytes) := let* hash := block_hash (header b) in let* raw := serialize_block b in Ok (hash, raw).

Lemma put_blocks_rows bs db db' : foldM block_put db bs = Ok db' ->
  exists items, mapM block_row bs = Ok items /\ block_rows db' = foldl (fun m kv => <[kv.1 := kv.2]> m) (block_rows db) items.
Proof.
  revert db. induction bs as [|b bs IH]; intros db E; cbn [foldM] in E; [injection E as <-; by exists []|].
  apply rbind_Ok in E as (db1 & E1 & E). unfold block_put in E1. apply rbind_Ok in E1 as (hash & Hh & E1). apply rbind_Ok in E1 as (raw & Hr & E1). injection E1 as <-.
  destruct (IH _ E) as (items & Hi & Hrows). exists ((hash, raw) :: items). split; [|done]. cbn [mapM]. unfold block_row at 1. rewrite Hh. cbn [rbind]. rewrite Hr. cbn [rbind]. by rewrite Hi.
Qed.

Lemma stored_block_reads db hash b raw : block_rows db !! hash = Some raw -> serialize_block b = Ok raw -> block_get db hash = Ok (Some (canonical_block b)).
Proof.
  intros Hg Hraw. unfold block_get. rewrite Hg. pose proof (decodes_block b raw Hraw [] []) as D. rewrite app_nil_l, app_nil_r in D.
  change (len (A := Init.Byte.byte) []) with 0 in D. rewrite D. cbn [rbind]. by rewrite Z.add_0_l, Z.eqb_refl.
Qed.

Lemma imported_blocks bs db hashes : foldM block_put (mkBlockDb ∅) bs = Ok db -> mapM (fun b => block_hash (header b)) bs = Ok hashes -> NoDup hashes ->
  forall i b hash, bs !! i = Some b -> hashes !! i = Some hash -> block_get db hash = Ok (Some (canonical_block b)).
Proof.
  intros E Hm Hn i b hash Hb Hhash. destruct (put_blocks_rows _ _ _ E) as (items & Hi & Hrows). cbn [block_rows] in Hrows.
  assert (Hat : forall i b hash, bs !! i = Some b -> hashes !! i = Some hash -> exists raw, serialize_block b = Ok raw /\ items !! i = Some (hash, raw)).
  { clear -Hi Hm. intros i b hash Hb Hhash. apply mapM_Forall2 in Hi, Hm. destruct (Forall2_lookup_l _ _ _ _ _ Hi Hb) as (item & Hitem & Hrow).
    pose proof (Forall2_lookup_lr _ _ _ _ _ _ Hm Hb Hhash) as Hbh. cbn beta in Hbh. unfold block_row in Hrow. rewrite Hbh in Hrow. cbn [rbind] in Hrow.
    apply rbind_Ok in Hrow as (raw & Hraw & Hrow). injection Hrow as <-. by exists raw. }
  assert (Hkeys : items.*1 = hashes).
  { apply list_eq. intros j. rewrite list_lookup_fmap. pose proof (mapM_length _ _ _ Hm). pose proof (mapM_length _ _ _ Hi). destruct (bs !! j) as [x|] eqn:Hx.
    - destruct (hashes !! j) as [y|] eqn:Hy; [destruct (Hat _ _ _ Hx Hy) as (raw & _ & ->); done|]. apply lookup_lt_Some in Hx. apply lookup_ge_None in Hy. lia.
    - apply lookup_ge_None in Hx. rewrite !lookup_ge_None_2 by lia. done. }
  destruct (Hat _ _ _ Hb Hhash) as (raw & Hraw & Hitem). eapply stored_block_reads; [|exact Hraw]. rewrite Hrows. apply inserted_rows; [by rewrite Hkeys|]. by eapply list_elem_of_lookup_2.
Qed.

(** ** The imported chain *)

Lemma mapM_zrange {A} (f : Z -> res A) xs : (forall i x, xs !! i = Some x -> f (Z.of_nat i) = Ok x) -> mapM f (zrange (len xs)) = Ok xs.
Proof.
  unfold zrange, len. rewrite Nat2Z.id. assert (Hg : forall k, (forall i x, xs !! i = Some x -> f (Z.of_nat (k + i)) = Ok x) -> mapM f (Z.of_nat <$> seq k (length xs)) = Ok xs).
  { induction xs as [|x xs IH]; intros k Hf; [done|]. change (mapM f (Z.of_nat <$> seq k (length (x :: xs)))) with
      (let* y := f (Z.of_nat k) in let* l := mapM f (Z.of_nat <$> seq (S k) (length xs)) in Ok (y :: l)).
    specialize (Hf 0%nat x eq_refl) as Hx. rewrite Nat.add_0_r in Hx. rewrite Hx. cbn [rbind]. rewrite (IH (S k)); [done|].
    intros i y Hy. specialize (Hf (S i) y Hy). by rewrite Nat.add_succ_r in Hf. }
  intros Hf. by apply (Hg 0%nat).
Qed.

Section transfer.
Context (records : list SnapshotHeaderRecord) (bs : list Block) (hashes : list str).
Hypothesis records_ok : Forall header_record_ok records.
Hypothesis heights_count : forall i r, records !! i = Some r -> snapshot_header_height r = Z.of_nat i.
Hypothesis records_hashes : mapM (fun r => block_hash (snapshot_header r)) records = Ok hashes.
Hypothesis hashes_differ : NoDup hashes.
Hypothesis bodies_canonical : Forall (fun b => canonical_block b = b) bs.
Hypothesis bodies_match : Forall2 (fun b r => header b = snapshot_header r) bs records.

Lemma bodies_hashes : mapM (fun b => block_hash (header b)) bs = Ok hashes.
Proof.
  rewrite <- records_hashes. pose proof bodies_match as Hm. clear -Hm. induction Hm as [|b r bs' rs Hb _ IH]; [done|]. cbn [mapM]. rewrite Hb.
  destruct (block_hash (snapshot_header r)); [|done]. cbn [rbind]. by rewrite IH.
Qed.

Context (hdb hdb' : HeaderDb) (bdb : BlockDb) (tip : SnapshotHeaderRecord) (hash : str).
Hypothesis headers_put : foldM put_header (mkHeaderDb ∅ None) records = Ok hdb.
Hypothesis blocks_put : foldM block_put (mkBlockDb ∅) bs = Ok bdb.
Hypothesis last_record : last records = Some tip.
Hypothesis tip_hashed : block_hash (snapshot_header tip) = Ok hash.
Hypothesis tip_set : header_set_tip hdb hash (snapshot_header_height tip) = Ok hdb'.

Lemma tip_at : records !! (length records - 1)%nat = Some tip /\ hashes !! (length records - 1)%nat = Some hash /\ snapshot_header_height tip + 1 = len records.
Proof.
  assert (Hr : records !! (length records - 1)%nat = Some tip) by (rewrite last_lookup in last_record; by rewrite <- Nat.sub_1_r in last_record).
  split; [done|]. pose proof (heights_count _ _ Hr) as Hh. pose proof (lookup_lt_Some _ _ _ Hr) as Hl. split; [|unfold len; lia].
  pose proof records_hashes as Hm. apply mapM_Forall2 in Hm. destruct (Forall2_lookup_l _ _ _ _ _ Hm Hr) as (x & Hx & Ex). cbn beta in Ex. congruence.
Qed.

Lemma set_tip_rows : header_rows hdb' = header_rows hdb /\ chain_tip_hash hdb' = Some hash.
Proof.
  destruct tip_at as (Hr & Hh & Hn). destruct (imported_rows _ _ headers_put heights_count _ records_hashes hashes_differ) as [Hrows _].
  destruct (Hrows _ _ _ Hr Hh) as (raw & _ & Hrow). pose proof tip_set as E. unfold header_set_tip in E. apply rbind_Ok in E as (h & Hs & E). apply sqlite_int_Ok in Hs as ->.
  injection E as <-. cbn [header_rows chain_tip_hash]. split; [|done]. unfold update_row. rewrite Hrow. apply insert_id. rewrite Hrow. unfold on_main. cbn.
  by rewrite (heights_count _ _ Hr).
Qed.

Lemma imported_tip : header_get_tip hdb' = Some (mkTip hash (snapshot_header_height tip)).
Proof.
  destruct tip_at as (Hr & Hh & Hn). destruct (imported_rows _ _ headers_put heights_count _ records_hashes hashes_differ) as [Hrows _].
  destruct (Hrows _ _ _ Hr Hh) as (raw & _ & Hrow). destruct set_tip_rows as [E1 E2]. unfold header_get_tip. rewrite E2, E1, Hrow. cbn. by rewrite (heights_count _ _ Hr).
Qed.

(** Exporting the imported chain gives it back. *)
Lemma imported_exports s : headers s = hdb' -> blocks s = bdb -> mapM (export_record s) (zrange (snapshot_header_height tip + 1)) = Ok (zip records bs).
Proof.
  intros Eh Eb. destruct tip_at as (_ & _ & Hn). destruct (imported_rows _ _ headers_put heights_count _ records_hashes hashes_differ) as [Hrows Hback].
  destruct set_tip_rows as [E1 _]. pose proof (Forall2_length _ _ _ bodies_match) as Hlen. rewrite Hn.
  replace (len records) with (len (zip records bs)) by (unfold len; rewrite length_zip; lia). apply mapM_zrange. intros i [r b] Hi.
  apply lookup_zip_with_Some in Hi as (r' & b' & [= <- <-] & Hr & Hb). destruct (Forall2_lookup_l _ _ _ _ _ (proj1 (mapM_Forall2 _ _ _) records_hashes) Hr) as (x & Hx & _).
  destruct (Hrows _ _ _ Hr Hx) as (raw & Hraw & Hrow). unfold export_record. rewrite Eh, Eb.
  assert (Hat : header_get_hash_at_height hdb' (Z.of_nat i) = Some x).
  { eapply hash_at_height_unique; [rewrite E1; exact Hrow|done|done|]. intros hash' row' Hrow' _ Hh'. rewrite E1 in Hrow'. destruct (Hback _ _ Hrow') as (j & Hj & Hjh).
    rewrite Hh' in Hjh. injection Hjh as Hjh. apply Nat2Z.inj in Hjh as ->. congruence. }
  rewrite Hat. unfold header_get_record. rewrite E1, Hrow. cbn [row_raw row_work row_previous row_height row_main]. rewrite (decode_serialized _ _ Hraw). cbn [rbind opt_py_int].
  pose proof records_ok as Hok. rewrite Forall_forall in Hok. destruct (Hok r) as (Hc & _ & Hw & _); [by eapply list_elem_of_lookup_2|].
  rewrite py_int_str_int by exact Hw. cbn [rbind record_work record_header]. rewrite (imported_blocks _ _ _ blocks_put bodies_hashes hashes_differ _ _ _ Hb Hx). cbn [rbind].
  pose proof bodies_canonical as Hbc. rewrite Forall_forall in Hbc. rewrite (Hbc b), Hc by (by eapply list_elem_of_lookup_2). rewrite <- (heights_count _ _ Hr). by destruct r.
Qed.
End transfer.

(** ** The other tables *)

Section import.
Context `{PyRepr, SnapshotLaws}.

Lemma set_chain_meta_Ok meta key v meta' : _set_chain_meta meta key v = Ok meta' -> meta' = <[u key := v]> meta.
Proof. unfold _set_chain_meta, sqlite_text. intros E. apply rbind_Ok in E as (v' & Hv & E). apply rbind_Ok in Hv as (x & _ & Hv). injection Hv as <-. by injection E as <-. Qed.

Lemma chain_meta_anchor meta snapshot at_ meta' : write_chain_meta meta snapshot at_ = Ok meta' -> int_ok (anchor_height at_) -> stored_anchor meta' = Ok (Some at_).
Proof.
  intros E Hi. unfold write_chain_meta in E. do 2 apply rbind_Ok in E as (? & ->%set_chain_meta_Ok & E).
  do 2 (apply rbind_Ok in E as (? & _ & E); apply rbind_Ok in E as (? & ->%set_chain_meta_Ok & E)). do 4 apply rbind_Ok in E as (? & ->%set_chain_meta_Ok & E). apply set_chain_meta_Ok in E as ->.
  unfold stored_anchor, _get_chain_meta. rewrite !(lookup_insert_ne _ _ (u "snapshot_block_hash")) by (vm_compute; discriminate). rewrite lookup_insert_eq.
  rewrite !(lookup_insert_ne _ _ (u "snapshot_height")) by (vm_compute; discriminate). rewrite lookup_insert_eq, py_int_str_int by exact Hi. by destruct at_.
Qed.

Lemma registry_copied db source db' : registry_db_wf source -> registry_store_replace_all db (registry_store_list source) = Ok db' -> registry_rows db' = registry_rows source.
Proof.
  intros Hw E. apply registry_inserts_rows in E. cbn [registry_rows] in E. pose proof (registry_store_ids source Hw) as Hn.
  assert (Ef : registry_rows db' = foldl (fun m kv => <[kv.1 := kv.2]> m) ∅ ((fun r => (node_id r, r)) <$> registry_store_list source)).
  { rewrite E. clear. generalize (∅ : gmap str NodeRecord). induction (registry_store_list source) as [|r l IH]; intros m; [done|]. apply IH. }
  assert (Hn' : NoDup ((fun r => (node_id r, r)) <$> registry_store_list source).*1) by by rewrite <- list_fmap_compose.
  apply map_eq. intros i. apply option_eq. intros r. rewrite Ef, (inserted_rows _ i r Hn'), list_elem_of_fmap. split.
  - intros (x & [= -> ->] & Hx). by apply registry_store_elem in Hx.
  - intros Hr. exists r. pose proof (Hw i r Hr) as Hi. cbn in Hi. split; [by rewrite Hi|]. apply registry_store_elem; [done|]. by rewrite Hi.
Qed.

Lemma import_tables_inv s meta snapshot s' meta' : import_tables s meta snapshot = Ok (s', meta') ->
  exists hdb bdb at_ hdb', foldM put_header (mkHeaderDb ∅ None) (loaded_headers snapshot) = Ok hdb /\ foldM block_put (mkBlockDb ∅) (loaded_blocks snapshot) = Ok bdb /\
    anchor snapshot = Ok at_ /\ header_set_tip hdb (anchor_hash at_) (anchor_height at_) = Ok hdb' /\
    store_replace_all (chainstate s) (loaded_utxos snapshot) = Ok (chainstate s') /\
    registry_store_replace_all (node_registry s) (node_registry_records snapshot) = Ok (node_registry s') /\
    (int_ok (anchor_height at_) -> snapshot_anchor s' = Some at_) /\ headers s' = hdb' /\ blocks s' = bdb.
Proof.
  unfold import_tables. intros E. apply rbind_Ok in E as (hdb & Eh & E). apply rbind_Ok in E as (bdb & Eb & E). apply rbind_Ok in E as (at_ & Ea & E).
  apply rbind_Ok in E as (hdb' & Es & E). apply rbind_Ok in E as (utxos & Eu & E). apply rbind_Ok in E as (registry & Er & E). do 2 apply rbind_Ok in E as (? & _ & E).
  apply rbind_Ok in E as (meta1 & Em & E). apply rbind_Ok in E as (stored & Est & E). injection E as <- _. exists hdb, bdb, at_, hdb'.
  do 6 (split; [done|]). split; [|done]. intros Hi. rewrite (chain_meta_anchor _ _ _ _ Em Hi) in Est. by injection Est as <-.
Qed.

Lemma set_chain_meta_ascii meta key v : ascii v -> _set_chain_meta meta key v = Ok (<[u key := v]> meta).
Proof. intros Hv. unfold _set_chain_meta, sqlite_text. destruct (ascii_encodes _ Hv) as [bs ->]. done. Qed.

(** The import fails only where one of its tables refuses a row. *)
Lemma import_tables_succeeds s meta md hs bls us rs atts sets net fv tip hash ck hdb bdb hdb' utxos registry adb sdb :
  metadata_read net fv tip hash ck md -> ascii ck -> ascii hash -> 0 <= snapshot_header_height tip -> 0 <= fv -> int_ok (snapshot_header_height tip) ->
  foldM put_header (mkHeaderDb ∅ None) hs = Ok hdb -> foldM block_put (mkBlockDb ∅) bls = Ok bdb -> header_set_tip hdb hash (snapshot_header_height tip) = Ok hdb' ->
  store_replace_all (chainstate s) us = Ok utxos -> registry_store_replace_all (node_registry s) rs = Ok registry ->
  attestations_replace_all (reward_attestations s) atts = Ok adb -> settlements_replace_all (reward_settlements s) sets = Ok sdb ->
  exists meta', import_tables s meta (mkLoaded md hs bls us rs atts sets 0 0 [] []) =
    Ok (mkService (service_params s) (service_network s) hdb' bdb utxos registry adb sdb (Some (mkAnchor (snapshot_header_height tip) hash)), meta').
Proof.
  intros [_ Hv _ Hhe Hha Hck] Ack Ahash Hpos Hfv Hi Eh Eb Et Eu Er Ea Es. unfold dget, dget_or in Hv, Hhe, Hha, Hck.
  unfold import_tables, anchor, item_int, item_str, json_item. cbn [loaded_metadata loaded_headers loaded_blocks loaded_utxos node_registry_records reward_attestation_bundles epoch_settlements].
  destruct (dict_get md (u "snapshot_height")) as [jh|]; [|injection Hhe as Hhe; lia]. destruct (dict_get md (u "format_version")) as [jv|] eqn:Ev; [|injection Hv as Hv; lia]. subst jh jv.
  rewrite Eh, Eb, Hha. cbn [rbind json_int json_str anchor_hash anchor_height]. rewrite Et, Eu, Er, Ea, Es. cbn [rbind].
  match goal with |- context [write_chain_meta ?m ?l ?a] => destruct (write_chain_meta m l a) as [meta'|e] eqn:Em end.
  - cbn [rbind]. rewrite (chain_meta_anchor _ _ _ _ Em Hi). cbn [rbind]. by exists meta'.
  - exfalso. unfold write_chain_meta, item_str, json_item in Em. cbn [loaded_metadata valid_signature_count trusted_signature_count accepted_signer_pubkeys snapshot_warnings anchor_height anchor_hash] in Em.
    rewrite Hck, Ev in Em. cbn [rbind json_str Z.ltb Z.compare] in Em.
    repeat (rewrite set_chain_meta_ascii in Em by (apply ascii_int || done || (by apply ascii_u)); cbn [rbind] in Em). discriminate Em.
Qed.

(** C25: A node that imports the file another node of the same network exported has the
    same chain at every height, with the anchor as its tip, exactly the same unspent
    outputs and registered nodes, and an empty mempool. *)
Theorem snapshot_transfer (source : NodeService) (target target' : SnapshotNode) (now format_version : Z) (c : SnapshotContents) (raw : bytes) (metadata reported : dict)
    (reset : bool) (keys : list bytes) (hashes : list str) :
  export_contents source = Ok c -> contents_ok (service_network source) (service_params source) now c -> registry_db_wf (node_registry source) ->
  mapM (fun r => block_hash (snapshot_header r)) (content_headers c) = Ok hashes -> NoDup hashes ->
  format_version = SNAPSHOT_FORMAT_VERSION_V1 \/ format_version = SNAPSHOT_FORMAT_VERSION_V2 ->
  export_snapshot_file source now format_version = Ok (raw, metadata) ->
  service_network (service_of target) = service_network source -> service_params (service_of target) = service_params source ->
  import_snapshot_file raw reset OFF keys target = (Ok reported, target') ->
  exists tip hash, chain_tip source = Some tip /\ last hashes = Some hash /\
    chain_tip (service_of target') = Some (mkTip hash (tip_height tip)) /\ snapshot_anchor (service_of target') = Some (mkAnchor (tip_height tip) hash) /\
    mapM (export_record (service_of target')) (zrange (tip_height tip + 1)) = mapM (export_record source) (zrange (tip_height tip + 1)) /\
    utxo_rows (chainstate (service_of target')) = utxo_rows (chainstate source) /\
    registry_rows (node_registry (service_of target')) = registry_rows (node_registry source) /\
    mempool_rows (repository (node_pool (base_node target'))) = ∅.
Proof.
  intros Ex Hc Hw Hh Hn Hfv Ef Enet Epar Ei. unfold export_snapshot_file, export_snapshot_payload in Ef. rewrite Ex in Ef. cbn [rbind] in Ef.
  apply rbind_Ok in Ef as (payload & Eb & Ef). apply rbind_Ok in Ef as (raw' & Ew & Ef). do 3 apply rbind_Ok in Ef as (? & _ & Ef). injection Ef as -> _.
  destruct (written_loads _ _ _ _ _ _ _ keys Hc Hfv Eb Ew) as (md & md' & tipr & hash & ck & _ & _ & Hmd & _ & Hlast & Hhash & Hload).
  destruct (validated_chain _ _ (headers_valid _ _ _ _ Hc)) as [_ Hworks].
  assert (Hheights : forall i r, content_headers c !! i = Some r -> snapshot_header_height r = Z.of_nat i) by (intros i r Hr; by apply Hworks).
  unfold import_snapshot_file in Ei. rewrite Enet, Epar, Hload in Ei. unfold import_snapshot in Ei. destruct (bool_decide _ && negb reset); [discriminate Ei|].
  destruct (import_tables _ _ _) as [[s' meta]|] eqn:Et; [|discriminate Ei]. destruct (_set_chain_meta _ _ _); [|discriminate Ei]. injection Ei as _ <-.
  apply import_tables_inv in Et as (hdb & bdb & at_ & hdb' & Eh & Ebl & Eat & Es & Eu & Er & Ea & Eheaders & Eblocks).
  cbn [loaded_headers loaded_blocks loaded_utxos node_registry_records] in Eh, Ebl, Eu, Er.
  destruct (tip_at _ _ Hheights Hh _ _ Hlast Hhash) as (Htip & Hhat & Hcount).
  assert (Hanchor : at_ = mkAnchor (snapshot_header_height tipr) hash).
  { pose proof (Hheights _ _ Htip) as Hpos. destruct Hmd as [_ _ _ Hhe Hha _]. unfold anchor, item_int, item_str, json_item in Eat. cbn [loaded_metadata] in Eat.
    unfold dget, dget_or in Hhe, Hha. rewrite Hha in Eat. destruct (dict_get md' (u "snapshot_height")); [|injection Hhe as Hhe; lia]. subst j. by injection Eat as <-. }
  subst at_. cbn [anchor_hash anchor_height] in Es, Ea.
  unfold export_contents in Ex. destruct (chain_tip source) as [tip|]; [|discriminate Ex]. apply rbind_Ok in Ex as (items & Hitems & Ex). do 2 apply rbind_Ok in Ex as (? & _ & Ex).
  injection Ex as <-. cbn [content_headers content_blocks content_utxos content_registry] in *.
  assert (Hheight : tip_height tip = snapshot_header_height tipr).
  { pose proof (mapM_length _ _ _ Hitems) as Hl. unfold zrange in Hl. rewrite length_fmap, length_seq in Hl. unfold len in Hcount. rewrite length_fmap in Hcount.
    pose proof (lookup_lt_Some _ _ _ Htip) as Hlt. rewrite length_fmap in Hlt. lia. }
  exists tip, hash. split; [done|]. split; [rewrite last_lookup; pose proof (mapM_length _ _ _ Hh) as Hl; rewrite <- Nat.sub_1_r; by rewrite Hl|]. rewrite Hheight.
  unfold service_of. cbn [base_node node_chain node_pool repository set_repository mempool_clear mempool_rows].
  pose proof (headers_ok _ _ _ _ Hc) as Hrok. pose proof (blocks_ok _ _ _ _ Hc) as Hbok. pose proof (blocks_match _ _ _ _ Hc) as Hbm. cbn [content_headers content_blocks] in Hrok, Hbok, Hbm.
  split_and!.
  - unfold chain_tip. rewrite Eheaders. by eapply (imported_tip _ _ Hheights Hh Hn hdb).
  - apply Ea. by destruct (Forall_lookup_1 _ _ _ _ Hrok Htip) as (_ & Hi & _).
  - rewrite <- Hheight at 2. rewrite Hitems. rewrite (imported_exports _ _ _ Hrok Hheights Hh Hn Hbok Hbm hdb hdb' bdb tipr hash Eh Ebl Hlast Hhash Es _ Eheaders Eblocks).
    by rewrite zip_fst_snd.
  - apply store_inserts_rows in Eu. rewrite Eu. apply insert_listing.
  - by eapply registry_copied.
  - done.
Qed.

(** C29: An import leaves the cached index of confirmed transactions as it was: a
    transaction that the chain before did not have is then reported as unconfirmed,
    whatever the imported blocks hold. *)
Theorem stale_index_after_import (snapshot : LoadedSnapshot) (reset : bool) (sn sn' : SnapshotNode) (index : gmap str (str * Z)) (id : str) :
  import_snapshot snapshot reset sn = (Ok tt, sn') -> _active_chain_transaction_index sn = Some index -> index !! id = None ->
  find_in_active_chain id sn' = (Ok None, sn').
Proof.
  intros E Hi Hn. unfold import_snapshot in E. destruct (bool_decide _ && negb reset); [discriminate E|]. destruct (import_tables _ _ _) as [[s' meta]|]; [|discriminate E].
  injection E as <-. unfold find_in_active_chain, sbind, _active_chain_transaction_location. cbn [_active_chain_transaction_index]. by rewrite Hi, Hn.
Qed.
End import.
