(* ===== verification/PeerBook.v ===== *)
(** * The peer book ([node/peers.py], [storage/peers.py], [node/service.py])

    What a node remembers of its peers: the book in memory, its table, and the
    operations of the service that write both.  A peer is identified by host, port
    and network; the dictionary of the book and the table are finite maps.  The
    column [handshake_complete] holds 0 or 1 for the boolean. *)

From S2P Require Import Prelude PyState PyOrder PyText Models UtxoStore.

Record PeerInfo : Type := mkPeer {
  peer_host : str;
  peer_port : Z;
  peer_network : str;
  peer_source : option str;
  peer_first_seen : option Z;
  peer_direction : option str;
  peer_last_seen : option Z;
  peer_last_success : option Z;
  peer_last_failure : option Z;
  peer_failure_count : option Z;
  peer_success_count : option Z;
  peer_handshake_complete : option bool;
  peer_last_known_height : option Z;
  peer_node_id : option str;
  peer_score : option Z;
  peer_reconnect_attempts : option Z;
  peer_backoff_until : option Z;
  peer_last_error : option str;
  peer_last_error_at : option Z;
  peer_error_class : option str;
  peer_disconnect_count : option Z;
  peer_session_started_at : option Z;
  peer_misbehavior_score : option Z;
  peer_misbehavior_last_updated_at : option Z;
  peer_ban_until : option Z;
  peer_last_penalty_reason : option str;
  peer_last_penalty_at : option Z;
}.

Abbreviation peer_key := (str * Z * str)%type.
Definition key_of (p : PeerInfo) : peer_key := (peer_host p, peer_port p, peer_network p).

(** A peer with nothing known but where it is *)
Definition bare_peer (host : str) (port : Z) (net : str) : PeerInfo :=
  mkPeer host port net None None None None None None None None None None None None None None None None None None None None None None None None.

Definition source_priority (source : str) : Z :=
  if bool_decide (source = u "manual") then 3 else if bool_decide (source = u "seed") then 2 else if bool_decide (source = u "discovered") then 1 else 0.

Definition preferred_peer_source (existing incoming : option str) : option str :=
  match existing, incoming with
  | None, _ => incoming
  | _, None => existing
  | Some e, Some i => if source_priority e <? source_priority i then incoming else existing
  end.

(** [a if a is not None else b], and SQL's [COALESCE(a, b)] *)
Definition first_of {A} (a b : option A) : option A := match a with Some _ => a | None => b end.

(** ** [PeerManager] *)

Abbreviation book := (gmap peer_key PeerInfo).

Definition merge_peer (existing peer : PeerInfo) : PeerInfo :=
  mkPeer (peer_host peer) (peer_port peer) (peer_network peer)
    (preferred_peer_source (peer_source existing) (peer_source peer))
    (first_of (peer_first_seen existing) (peer_first_seen peer))
    (first_of (peer_direction peer) (peer_direction existing))
    (first_of (peer_last_seen peer) (peer_last_seen existing))
    (first_of (peer_last_success peer) (peer_last_success existing))
    (first_of (peer_last_failure peer) (peer_last_failure existing))
    (first_of (peer_failure_count peer) (peer_failure_count existing))
    (first_of (peer_success_count peer) (peer_success_count existing))
    (first_of (peer_handshake_complete peer) (peer_handshake_complete existing))
    (first_of (peer_last_known_height peer) (peer_last_known_height existing))
    (first_of (peer_node_id peer) (peer_node_id existing))
    (first_of (peer_score peer) (peer_score existing))
    (first_of (peer_reconnect_attempts peer) (peer_reconnect_attempts existing))
    (first_of (peer_backoff_until peer) (peer_backoff_until existing))
    (first_of (peer_last_error peer) (peer_last_error existing))
    (first_of (peer_last_error_at peer) (peer_last_error_at existing))
    (first_of (peer_error_class peer) (peer_error_class existing))
    (first_of (peer_disconnect_count peer) (peer_disconnect_count existing))
    (first_of (peer_session_started_at peer) (peer_session_started_at existing))
    (first_of (peer_misbehavior_score peer) (peer_misbehavior_score existing))
    (first_of (peer_misbehavior_last_updated_at peer) (peer_misbehavior_last_updated_at existing))
    (first_of (peer_ban_until peer) (peer_ban_until existing))
    (first_of (peer_last_penalty_reason peer) (peer_last_penalty_reason existing))
    (first_of (peer_last_penalty_at peer) (peer_last_penalty_at existing)).

Definition book_add (b : book) (peer : PeerInfo) : book :=
  match b !! key_of peer with
  | None => <[key_of peer := peer]> b
  | Some existing => <[key_of peer := merge_peer existing peer]> b
  end.

Definition book_remove (b : book) (peer : PeerInfo) : book := delete (key_of peer) b.
Definition book_get (b : book) (host : str) (port : Z) (net : str) : option PeerInfo := b !! (host, port, net).

(** A peer whose session ended with the process *)
Definition without_session (p : PeerInfo) : PeerInfo :=
  mkPeer (peer_host p) (peer_port p) (peer_network p) (peer_source p) (peer_first_seen p) (peer_direction p) (peer_last_seen p) (peer_last_success p)
    (peer_last_failure p) (peer_failure_count p) (peer_success_count p) (Some false) (peer_last_known_height p) (peer_node_id p) (peer_score p)
    (peer_reconnect_attempts p) (peer_backoff_until p) (peer_last_error p) (peer_last_error_at p) (peer_error_class p) (peer_disconnect_count p) None
    (peer_misbehavior_score p) (peer_misbehavior_last_updated_at p) (peer_ban_until p) (peer_last_penalty_reason p) (peer_last_penalty_at p).

Definition reset_peer (net : str) (p : PeerInfo) : PeerInfo :=
  if bool_decide (peer_network p = net) && bool_decide (peer_handshake_complete p = Some true) then without_session p else p.

Definition book_reset_session_state (b : book) (net : str) : book := reset_peer net <$> b.

(** [(peer.network, peer.host, peer.port)] *)
Definition peer_order (p : PeerInfo) : str * (str * Z) := (peer_network p, (peer_host p, peer_port p)).

Definition in_network (net : option str) (p : PeerInfo) : bool := match net with None => true | Some n => bool_decide (peer_network p = n) end.
Definition list_all (b : book) (net : option str) : list PeerInfo :=
  sorted_by peer_order (filter (fun p => in_network net p = true) (map_to_list b).*2).

(** ** [SQLitePeerRepository] *)

(** [ON CONFLICT(host, port, network) DO UPDATE SET ...] *)
Definition update_peer_row (row excluded : PeerInfo) : PeerInfo :=
  mkPeer (peer_host row) (peer_port row) (peer_network row)
    (first_of (peer_source excluded) (peer_source row))
    (first_of (peer_first_seen row) (peer_first_seen excluded))
    (first_of (peer_direction excluded) (peer_direction row))
    (first_of (peer_last_seen excluded) (peer_last_seen row))
    (first_of (peer_last_success excluded) (peer_last_success row))
    (first_of (peer_last_failure excluded) (peer_last_failure row))
    (first_of (peer_failure_count excluded) (peer_failure_count row))
    (first_of (peer_success_count excluded) (peer_success_count row))
    (first_of (peer_handshake_complete excluded) (peer_handshake_complete row))
    (first_of (peer_last_known_height excluded) (peer_last_known_height row))
    (first_of (peer_node_id excluded) (peer_node_id row))
    (first_of (peer_score excluded) (peer_score row))
    (first_of (peer_reconnect_attempts excluded) (peer_reconnect_attempts row))
    (first_of (peer_backoff_until excluded) (peer_backoff_until row))
    (first_of (peer_last_error excluded) (peer_last_error row))
    (first_of (peer_last_error_at excluded) (peer_last_error_at row))
    (first_of (peer_error_class excluded) (peer_error_class row))
    (first_of (peer_disconnect_count excluded) (peer_disconnect_count row))
    (first_of (peer_session_started_at excluded) (peer_session_started_at row))
    (first_of (peer_misbehavior_score excluded) (peer_misbehavior_score row))
    (first_of (peer_misbehavior_last_updated_at excluded) (peer_misbehavior_last_updated_at row))
    (first_of (peer_ban_until excluded) (peer_ban_until row))
    (first_of (peer_last_penalty_reason excluded) (peer_last_penalty_reason row))
    (first_of (peer_last_penalty_at excluded) (peer_last_penalty_at row)).

(** The parameters the driver has to accept *)
Definition bind_texts (l : list (option str)) : res unit := for_each (fun o => match o with None => Ok tt | Some s => let* _ := sqlite_text s in Ok tt end) l.
Definition bind_ints (l : list (option Z)) : res unit := for_each (fun o => match o with None => Ok tt | Some n => let* _ := sqlite_int n in Ok tt end) l.

Definition bind_peer (p : PeerInfo) : res unit :=
  bind_texts [Some (peer_host p); Some (peer_network p); peer_source p; peer_direction p; peer_node_id p; peer_last_error p; peer_error_class p; peer_last_penalty_reason p] ;;
  bind_ints [Some (peer_port p); peer_first_seen p; peer_last_seen p; peer_last_success p; peer_last_failure p; peer_failure_count p; peer_success_count p;
    peer_last_known_height p; peer_score p; peer_reconnect_attempts p; peer_backoff_until p; peer_last_error_at p; peer_disconnect_count p; peer_session_started_at p;
    peer_misbehavior_score p; peer_misbehavior_last_updated_at p; peer_ban_until p; peer_last_penalty_at p].

Definition table_add (rows : book) (peer : PeerInfo) : res book :=
  bind_peer peer ;;
  Ok (match rows !! key_of peer with
      | None => <[key_of peer := peer]> rows
      | Some row => <[key_of peer := update_peer_row row peer]> rows
      end).

Definition bind_endpoint (host : str) (port : Z) (net : str) : res unit := bind_texts [Some host; Some net] ;; bind_ints [Some port].

Definition table_remove (rows : book) (host : str) (port : Z) (net : str) : res book :=
  bind_endpoint host port net ;; Ok (delete (host, port, net) rows).

(** [WHERE network = ? ORDER BY host, port] and [ORDER BY network, host, port] *)
Definition list_known (rows : book) (net : option str) : res (list PeerInfo) :=
  match net with None => Ok tt | Some n => bind_texts [Some n] end ;; Ok (list_all rows net).

(** [SET handshake_complete = 0, session_started_at = NULL WHERE network = ? AND handshake_complete = 1] *)
Definition table_reset_session_state (rows : book) (net : str) : res book :=
  bind_texts [Some net] ;; Ok (reset_peer net <$> rows).

(** ** The service *)

Record PeerState : Type := mkPeerState { peerbook : book; peer_rows : book; peer_clock_reads : nat }.

Abbreviation peers := (stm PeerState).

Definition with_book (f : book -> book) : peers unit := modify (fun s => mkPeerState (f (peerbook s)) (peer_rows s) (peer_clock_reads s)).
Definition with_rows (f : book -> res book) : peers unit :=
  update (fun s => let* rows := f (peer_rows s) in Ok (tt, mkPeerState (peerbook s) rows (peer_clock_reads s))).

Section service.
Variable clock : nat -> Z.
Variable net : str.
Variable default_port : Z.

Definition peer_time : peers Z := fun s => (Ok (clock (peer_clock_reads s)), mkPeerState (peerbook s) (peer_rows s) (S (peer_clock_reads s))).

(** [next((peer for peer in list_all(...) if ...), None)] *)
Definition find_peer (b : book) (host : str) (port : Z) : option PeerInfo :=
  head (filter (fun p => peer_host p = host /\ peer_port p = port) (list_all b (Some net))).

(** Both stores *)
Definition store_peer (peer : PeerInfo) : peers unit := do! with_book (fun b => book_add b peer) in with_rows (fun rows => table_add rows peer).

Definition add_peer (host : str) (port : Z) (source : str) : peers PeerInfo :=
  let! existing := gets (fun s => find_peer (peerbook s) host port) in
  let! now := peer_time in
  let peer := mkPeer host port net (preferred_peer_source (match existing with None => None | Some e => peer_source e end) (Some source))
    (Some (match existing with Some e => match peer_first_seen e with Some t => t | None => now end | None => now end)) None (Some now)
    None None None None None None None None None None None None None None None None None None None None in
  do! store_peer peer in ret peer.

Definition remove_peer (host : str) (port : Z) : peers unit :=
  do! with_book (fun b => book_remove b (bare_peer host port net)) in with_rows (fun rows => table_remove rows host port net).

Definition list_peers : peers (list PeerInfo) :=
  let! persisted := asks (fun s => list_known (peer_rows s) (Some net)) in
  do! with_book (fun b => foldl book_add b persisted) in
  gets (fun s => list_all (peerbook s) (Some net)).

Definition peer_info (host : str) (port : Z) : peers (option PeerInfo) := gets (fun s => book_get (peerbook s) host port net).

Definition reset_peer_session_state : peers unit :=
  do! with_book (fun b => book_reset_session_state b net) in with_rows (fun rows => table_reset_session_state rows net).

(** The keyword arguments of [record_peer_observation] are the fields of a peer; its
    network and the time it was last seen are the service's. *)
Definition successful_observation (o : PeerInfo) : bool :=
  bool_decide (peer_handshake_complete o = Some true) && bool_decide (is_Some (peer_last_success o)) && bool_decide (peer_last_error o = None).

Definition observed_peer (o : PeerInfo) (existing : option PeerInfo) (now : Z) : PeerInfo :=
  let good := successful_observation o in
  let zero (v : option Z) : option Z := if good then first_of v (Some 0) else v in
  let previous_score := match existing with Some e => default 0 (peer_score e) | None => 0 end in
  mkPeer (peer_host o) (peer_port o) net
    (preferred_peer_source (match existing with None => None | Some e => peer_source e end) (peer_source o))
    (first_of (peer_first_seen o) (Some (match existing with Some e => match peer_first_seen e with Some t => t | None => now end | None => now end)))
    (peer_direction o) (Some now) (peer_last_success o) (peer_last_failure o) (zero (peer_failure_count o)) (peer_success_count o) (peer_handshake_complete o)
    (peer_last_known_height o) (peer_node_id o)
    (if good then Some (Z.max 1 (match peer_score o with None => previous_score | Some v => v end)) else peer_score o)
    (zero (peer_reconnect_attempts o)) (zero (peer_backoff_until o)) (peer_last_error o) (peer_last_error_at o) (peer_error_class o) (peer_disconnect_count o)
    (peer_session_started_at o) (peer_misbehavior_score o) (peer_misbehavior_last_updated_at o) (peer_ban_until o) (peer_last_penalty_reason o) (peer_last_penalty_at o).

Definition record_peer_observation (o : PeerInfo) : peers PeerInfo :=
  let! existing := gets (fun s => find_peer (peerbook s) (peer_host o) (peer_port o)) in
  let! now := peer_time in
  let peer := observed_peer o existing now in
  do! (match existing with
       | Some e => if successful_observation o then
           do! with_book (fun b => book_remove b e) in with_rows (fun rows => table_remove rows (peer_host o) (peer_port o) net)
         else ret tt
       | None => ret tt
       end) in
  do! store_peer peer in ret peer.

(** *** [peerbook_clean] *)

Definition PEERBOOK_CLEAN_STALE_AFTER_SECONDS : Z := 604800.
Definition PEERBOOK_CLEAN_STALE_FAILURE_THRESHOLD : Z := 100.

Definition source_in (p : PeerInfo) (l : list string) : bool := match peer_source p with None => false | Some s => bool_decide (s ∈ u <$> l) end.

(** Why a peer is removed *)
Definition removal_reason (now : Z) (p : PeerInfo) : option string :=
  if negb (source_in p ["manual"; "seed"]%string) && negb (peer_port p =? default_port) then Some "noncanonical_discovered_port"%string
  else if source_in p ["discovered"]%string && (peer_port p =? default_port) && negb (bool_decide (peer_handshake_complete p = Some true)) &&
    (PEERBOOK_CLEAN_STALE_FAILURE_THRESHOLD <=? default 0 (peer_failure_count p)) &&
    match peer_last_success p with Some t => PEERBOOK_CLEAN_STALE_AFTER_SECONDS <=? now - t | None => false end
  then Some "stale_failed_canonical_peer"%string
  else None.

Definition clean_removals (dry_run : bool) (now : Z) (removed : list (str * Z * string)) (p : PeerInfo) : peers (list (str * Z * string)) :=
  match removal_reason now p with
  | None => ret removed
  | Some reason => do! (if dry_run then ret tt else remove_peer (peer_host p) (peer_port p)) in ret (removed ++ [(peer_host p, peer_port p, reason)])
  end.

Definition unpenalised (p : PeerInfo) : bool :=
  (default 0 (peer_score p) =? 0) && (default 0 (peer_reconnect_attempts p) =? 0) && (default 0 (peer_backoff_until p) =? 0) &&
  (default 0 (peer_misbehavior_score p) =? 0) && bool_decide (peer_ban_until p = None) && bool_decide (peer_last_penalty_reason p = None) &&
  bool_decide (peer_last_penalty_at p = None).

Definition cleaned (p : PeerInfo) (now : Z) : PeerInfo :=
  mkPeer (peer_host p) (peer_port p) (peer_network p) (peer_source p) (peer_first_seen p) (peer_direction p) (peer_last_seen p) (peer_last_success p)
    (peer_last_failure p) (peer_failure_count p) (peer_success_count p) (peer_handshake_complete p) (peer_last_known_height p) (peer_node_id p) (Some 0)
    (Some 0) (Some 0) None None None (peer_disconnect_count p) (peer_session_started_at p) (Some 0) (Some now) None None None.

Definition clean_penalties (dry_run : bool) (reset : list (str * Z)) (p : PeerInfo) : peers (list (str * Z)) :=
  if unpenalised p then ret reset
  else
    do! (if dry_run then ret tt else
         let! now := peer_time in
         do! remove_peer (peer_host p) (peer_port p) in
         store_peer (cleaned p now)) in
    ret (reset ++ [(peer_host p, peer_port p)]).

(** The count of peers before, and the two lists of the report *)
Definition peerbook_clean (reset_penalties dry_run : bool) : peers (Z * list (str * Z * string) * list (str * Z)) :=
  let! known := list_peers in
  let! now := peer_time in
  let! removed := sfold (clean_removals dry_run now) [] known in
  let! reset := (if reset_penalties then let! left := list_peers in sfold (clean_penalties dry_run) [] left else ret []) in
  ret (len known, removed, reset).
End service.
