(* ===== verification/PeerPolicy.v ===== *)
(** * How the runtime judges peers ([node/runtime.py], [node/p2p/errors.py])

    Misbehaviour scores with their decay, temporary bans, scores and reconnect
    backoff, and the upkeep of the peer book, over the service of [PeerBook.v].
    Of the runtime's state they use the peers and the outbound targets.  Messages of
    exceptions are [string]s, whose letters [str.lower] maps within ASCII.  The two
    parameters that are floats are given by mantissa and binary exponent; they are
    only multiplied by powers of two, which is exact, and truncated. *)

From S2P Require Import Prelude PyState PyOrder PyText Models UtxoStore PeerBook.

(** ** Classes of errors *)

Inductive peer_error : Type := ErrorText (text : string) | ErrorRaised (e : exn).
Definition error_text (error : peer_error) : string := match error with ErrorText t => t | ErrorRaised e => exn_msg e end.

Fixpoint lower_text (s : string) : string :=
  match s with
  | EmptyString => EmptyString
  | String c rest => let n := Ascii.N_of_ascii c in String (if (65 <=? n)%N && (n <=? 90)%N then Ascii.ascii_of_N (n + 32) else c) (lower_text rest)
  end.

(** [needle in text] *)
Fixpoint contains (needle text : string) : bool :=
  String.prefix needle text || match text with EmptyString => false | String _ rest => contains needle rest end.

(** The first class whose test holds *)
Fixpoint first_class (tests : list (bool * string)) (otherwise : string) : string :=
  match tests with [] => otherwise | (b, name) :: rest => if b then name else first_class rest otherwise end.

Definition text_class (lowered : string) : string :=
  let any needles := existsb (fun needle => contains needle lowered) needles in
  first_class [
    (any ["unexpected network magic"], "wrong_network_magic");
    (any ["checksum"], "checksum_error");
    (any ["frame is shorter"; "payload length does not match"; "malformed"], "malformed_message");
    (any ["handshake timed out"; "timed out waiting for handshake completion"], "handshake_failed");
    (any ["timed out"; "ping"; "pong"], "timeout");
    (any ["connect call failed"; "connection refused"; "[errno 111]"], "connection_failed");
    (any ["invalid block"], "invalid_block");
    (any ["invalid tx"], "invalid_tx");
    (any ["duplicate peer connection"], "duplicate_connection");
    (any ["closed while reading frame"; "closed during send"; "connection closed"], "connection_closed");
    (any ["different network"; "duplicate version"; "verack"; "version"], "handshake_failed")]%string "malformed_message".

Definition typed_class (c : exn_class) (otherwise : string) : string :=
  first_class [
    (isinstance c WrongNetworkMagicError, "wrong_network_magic"%string);
    (isinstance c ChecksumError, "checksum_error"%string);
    (isinstance c MalformedMessageError, "malformed_message"%string);
    (isinstance c HandshakeFailedError, "handshake_failed"%string);
    (isinstance c ProtocolTimeoutError || isinstance c TransportTimeoutError, "timeout"%string);
    (isinstance c InvalidBlockError, "invalid_block"%string);
    (isinstance c InvalidTxError, "invalid_tx"%string);
    (isinstance c DuplicateConnectionError, "duplicate_connection"%string);
    (isinstance c ConnectionClosedError, "connection_closed"%string);
    (isinstance c ConnectionFailedError, "connection_failed"%string)] otherwise.

Definition protocol_error_class (error : option peer_error) : option string :=
  match error with
  | None => None
  | Some (ErrorText t) => Some (text_class (lower_text t))
  | Some (ErrorRaised e) => Some (typed_class (exn_cls e) (text_class (lower_text (exn_msg e))))
  end.

Definition class_in (c : option string) (l : list string) : bool := match c with None => false | Some name => existsb (String.eqb name) l end.

Definition _SEVERE_MISBEHAVIOR_DELTA : Z := 100.
Definition _EXTENDED_BACKOFF_START_ATTEMPT : Z := 20.
Definition _EXTENDED_BACKOFF_DISCONNECT_THRESHOLD : Z := 20.
Definition _EXTENDED_BACKOFF_BASE_SECONDS : Z := 300.
Definition _EXTENDED_BACKOFF_MAX_SECONDS : Z := 21600.

Definition _penalty_for_error (error : peer_error) : Z :=
  let c := protocol_error_class (Some error) in
  if class_in c ["wrong_network_magic"; "checksum_error"; "malformed_message"; "invalid_block"]%string then _SEVERE_MISBEHAVIOR_DELTA
  else if class_in c ["handshake_failed"]%string then 25
  else if class_in c ["timeout"]%string then 10
  else if class_in c ["duplicate_connection"]%string then 1
  else if class_in c ["invalid_tx"]%string then 10
  else 5.

Definition _should_penalize_as_misbehavior (error : peer_error) : bool :=
  match error with
  | ErrorRaised e => if isinstance (exn_cls e) BlockRequestStalledError then false
      else class_in (protocol_error_class (Some error)) ["wrong_network_magic"; "checksum_error"; "malformed_message"; "invalid_block"; "invalid_tx"]%string
  | ErrorText _ => class_in (protocol_error_class (Some error)) ["wrong_network_magic"; "checksum_error"; "malformed_message"; "invalid_block"; "invalid_tx"]%string
  end.

(** ** Settings *)

Record Dyadic : Type := mkDyadic { mantissa : Z; exponent : Z }.
(** [int(x * 2 ** k)] for a value that is not negative *)
Definition scaled_int (x : Dyadic) (k : Z) : Z := Z.shiftl (mantissa x) (exponent x + k).
Definition dyadic_leb (x y : Dyadic) : bool :=
  let e := Z.min (exponent x) (exponent y) in mantissa x * 2 ^ (exponent x - e) <=? mantissa y * 2 ^ (exponent y - e).
Definition dyadic_max (x y : Dyadic) : Dyadic := if dyadic_leb x y then y else x.

Record PeerSettings : Type := mkSettings {
  peerbook_max_size : Z;
  peer_stale_after_seconds : Z;
  peer_retry_backoff_base_seconds : Dyadic;
  peer_retry_backoff_max_seconds : Dyadic;
  misbehavior_warning_threshold : Z;
  misbehavior_disconnect_threshold : Z;
  misbehavior_ban_threshold : Z;
  misbehavior_ban_duration_seconds : Z;
  misbehavior_decay_interval_seconds : Z;
  misbehavior_decay_step : Z;
}.

(** The limits the constructor imposes *)
Definition normal_settings (s : PeerSettings) : PeerSettings :=
  let warning := Z.max 1 (misbehavior_warning_threshold s) in
  let disconnect := Z.max warning (misbehavior_disconnect_threshold s) in
  mkSettings (Z.max 16 (peerbook_max_size s)) (Z.max 60 (peer_stale_after_seconds s))
    (dyadic_max (mkDyadic 1 (-1)) (peer_retry_backoff_base_seconds s)) (dyadic_max (mkDyadic 1 0) (peer_retry_backoff_max_seconds s))
    warning disconnect (Z.max disconnect (misbehavior_ban_threshold s)) (Z.max 1 (misbehavior_ban_duration_seconds s))
    (Z.max 1 (misbehavior_decay_interval_seconds s)) (Z.max 1 (misbehavior_decay_step s)).

Definition default_settings : PeerSettings := mkSettings 1024 604800 (mkDyadic 1 0) (mkDyadic 30 0) 25 50 100 1800 300 5.

(** ** The runtime *)

(** The dictionaries of the configured targets, in the order of insertion *)
Record RuntimePeers : Type := mkRuntimePeers { runtime_peers : PeerState; _outbound_targets : list (str * Z); _outbound_target_sources : list ((str * Z) * str) }.

Abbreviation runtime := (stm RuntimePeers).

(** A call of the service *)
Definition on_service {A} (m : peers A) : runtime A := fun r => let '(a, s) := m (runtime_peers r) in (a, mkRuntimePeers s (_outbound_targets r) (_outbound_target_sources r)).

Section runtime.
Variable clock : nat -> Z.
Variable net : str.
Variable settings : PeerSettings.

Definition _decayed_misbehavior_state (info : option PeerInfo) (now : Z) : Z * Z :=
  let score := match info with Some p => match peer_misbehavior_score p with Some v => Z.max 0 v | None => 0 end | None => 0 end in
  let updated_at := match info with Some p => match peer_misbehavior_last_updated_at p with Some t => t | None => now end | None => now end in
  if score <=? 0 then (0, updated_at)
  else
    let elapsed := Z.max 0 (now - updated_at) in
    if elapsed <? misbehavior_decay_interval_seconds settings then (score, updated_at)
    else
      let decay_steps := elapsed / misbehavior_decay_interval_seconds settings in
      (Z.max 0 (score - decay_steps * misbehavior_decay_step settings), updated_at + decay_steps * misbehavior_decay_interval_seconds settings).

(** The ban of the first candidate of the host that has one *)
Fixpoint first_ban (host : str) (now : Z) (candidates : list PeerInfo) : option Z :=
  match candidates with
  | [] => None
  | p :: rest =>
      match peer_ban_until p with
      | Some t => if bool_decide (peer_host p = host) && (now <? t) then Some t else first_ban host now rest
      | None => first_ban host now rest
      end
  end.

Definition _ban_state_for_peer (host : str) (port : Z) : runtime (bool * option Z) :=
  let! now := on_service (peer_time clock) in
  let! exact := on_service (peer_info net host port) in
  let! known := on_service (list_peers net) in
  ret (match first_ban host now (option_list exact ++ known) with Some t => (true, Some t) | None => (false, None) end).

Definition _is_peer_currently_banned (host : str) (port : Z) : runtime bool :=
  let! state := _ban_state_for_peer host port in ret state.1.

Definition _updated_peer_score (host : str) (port delta : Z) : runtime Z :=
  let! existing := on_service (peer_info net host port) in
  let current := match existing with Some p => default 0 (peer_score p) | None => 0 end in
  ret (Z.max (-100) (Z.min 100 (current + delta))).

Definition _is_backoff_active (host : str) (port : Z) : runtime bool :=
  let! info := on_service (peer_info net host port) in
  match info with
  | Some p => match peer_backoff_until p with Some t => let! now := on_service (peer_time clock) in ret (now <? t) | None => ret false end
  | None => ret false
  end.

Definition _needs_extended_peer_backoff (info : option PeerInfo) (attempts : Z) : bool :=
  match info with
  | None => false
  | Some p => (default 0 (peer_score p) <=? -100) || (_EXTENDED_BACKOFF_START_ATTEMPT <=? attempts)
      || (_EXTENDED_BACKOFF_DISCONNECT_THRESHOLD <=? default 0 (peer_disconnect_count p))
  end.

Definition delay_seconds (info : option PeerInfo) (attempts : Z) : Z :=
  if _needs_extended_peer_backoff info attempts then
    let extended_steps := Z.max 0 (attempts - _EXTENDED_BACKOFF_START_ATTEMPT) in
    Z.min _EXTENDED_BACKOFF_MAX_SECONDS (_EXTENDED_BACKOFF_BASE_SECONDS * 2 ^ Z.min (extended_steps / 10) 7)
  else Z.min (scaled_int (peer_retry_backoff_max_seconds settings) 0) (scaled_int (peer_retry_backoff_base_seconds settings) (Z.min (attempts - 1) 5)).

Definition _next_backoff_state (info : option PeerInfo) : runtime (Z * Z) :=
  let attempts := match info with Some p => match peer_reconnect_attempts p with Some n => n + 1 | None => 1 end | None => 1 end in
  let! now := on_service (peer_time clock) in
  ret (attempts, now + Z.max 1 (delay_seconds info attempts)).

(** *** Upkeep of the book *)

Definition _configured_peer_source (host : str) (port : Z) : runtime str :=
  gets (fun r => default (u "manual") (dict_get (_outbound_target_sources r) (host, port))).

Definition persist_target (t : str * Z) : runtime unit :=
  let! source := _configured_peer_source t.1 t.2 in
  let! _ := on_service (add_peer clock net t.1 t.2 source) in ret tt.

Definition _persist_configured_peer_targets : runtime unit :=
  let! targets := gets _outbound_targets in sfold (fun _ t => persist_target t) tt targets.

Definition forget_target (host : str) (port : Z) : runtime unit :=
  modify (fun r => mkRuntimePeers (runtime_peers r) (filter (fun t => t ≠ (host, port)) (_outbound_targets r)) (_outbound_target_sources r)).

(** [peer.last_success or peer.last_seen or peer.first_seen] *)
Definition truthy (v : option Z) : bool := match v with Some n => negb (n =? 0) | None => false end.
Definition age_anchor (p : PeerInfo) : option Z :=
  if truthy (peer_last_success p) then peer_last_success p else if truthy (peer_last_seen p) then peer_last_seen p else peer_first_seen p.

Definition _is_stale_peer (p : PeerInfo) : runtime bool :=
  if source_in p ["manual"; "seed"]%string then ret false
  else match age_anchor p with
       | None => ret false
       | Some t => let! now := on_service (peer_time clock) in ret (peer_stale_after_seconds settings <=? now - t)
       end.

Definition drop_peer (p : PeerInfo) : runtime unit :=
  do! forget_target (peer_host p) (peer_port p) in on_service (remove_peer net (peer_host p) (peer_port p)).

Definition _purge_stale_persisted_peers : runtime unit :=
  let! known := on_service (list_peers net) in
  let! stale := sfold (fun acc p => let! b := _is_stale_peer p in ret (if b then acc ++ [p] else acc)) [] known in
  sfold (fun _ p => drop_peer p) tt stale.

Definition trim_source_rank (p : PeerInfo) : Z :=
  if source_in p ["discovered"]%string then 0 else if source_in p ["seed"]%string then 1 else if source_in p ["manual"]%string then 2 else -1.

Definition _peerbook_trim_sort_key (banned_hosts : list str) (p : PeerInfo) : (Z * Z) * ((Z * Z) * (Z * (str * Z))) :=
  ((trim_source_rank p, if bool_decide (peer_host p ∈ banned_hosts) then 1 else 0),
   ((default 0 (peer_success_count p), default 0 (peer_score p)), (default 0 (peer_last_seen p), (peer_host p, peer_port p)))).

Definition ban_active (now : Z) (p : PeerInfo) : bool := match peer_ban_until p with Some t => now <? t | None => false end.
Definition banned_hosts (now : Z) (known : list PeerInfo) : list str := peer_host <$> filter (fun p => ban_active now p = true) known.

Definition _trim_peerbook_to_capacity : runtime unit :=
  let! known := on_service (list_peers net) in
  if len known <=? peerbook_max_size settings then ret tt
  else
    let! now := on_service (peer_time clock) in
    let removable := sorted_by (_peerbook_trim_sort_key (banned_hosts now known)) (filter (fun p => source_in p ["manual"]%string = false) known) in
    sfold (fun _ p => drop_peer p) tt (take (Z.to_nat (len known - peerbook_max_size settings)) removable).

(** *** Misbehaviour *)

Record Incident : Type := mkIncident {
  incident_host : str;
  incident_port : Z;
  event : string;
  delta : Z;
  incident_direction : option str;
  incident_handshake : option bool;
  incident_height : option Z;
  incident_node_id : option str;
  incident_attempts : option Z;
  incident_backoff : option Z;
  incident_disconnects : option Z;
  incident_session : option Z;
  incident_error : option str;
  incident_class : option str;
  incident_score : option Z;
  force_disconnect : bool;
}.

Definition live_ban (ban_until : option Z) (now : Z) : option Z := match ban_until with Some t => if t <=? now then None else Some t | None => None end.

Definition misbehavior_action (i : Incident) (info : option PeerInfo) (now : Z) : string * Z * option Z :=
  let next_score := Z.min 10000 ((_decayed_misbehavior_state info now).1 + Z.max 0 (delta i)) in
  let ban_until := live_ban (match info with Some p => peer_ban_until p | None => None end) now in
  if misbehavior_ban_threshold settings <=? next_score then ("ban"%string, next_score, Some (now + misbehavior_ban_duration_seconds settings))
  else if force_disconnect i || (misbehavior_disconnect_threshold settings <=? next_score) then ("disconnect"%string, next_score, ban_until)
  else if misbehavior_warning_threshold settings <=? next_score then ("warn"%string, next_score, ban_until)
  else ("observe"%string, next_score, ban_until).

(** The observation that is recorded *)
Definition misbehavior_observation (i : Incident) (info : option PeerInfo) (now : Z) : PeerInfo :=
  let '(_, next_score, ban_until) := misbehavior_action i info now in
  let '(current_score, updated_at) := _decayed_misbehavior_state info now in
  let failed := bool_decide (is_Some (incident_error i)) in
  mkPeer (incident_host i) (incident_port i) net (match info with Some p => peer_source p | None => None end) None (incident_direction i) None None
    (if failed then Some now else None)
    (if failed then Some (match info with Some p => match peer_failure_count p with Some n => n + 1 | None => 1 end | None => 1 end) else None) None
    (incident_handshake i) (incident_height i) (incident_node_id i) (incident_score i) (incident_attempts i) (incident_backoff i) (incident_error i)
    (if failed then Some now else None) (incident_class i) (incident_disconnects i) (incident_session i) (Some next_score)
    (Some (if negb (next_score =? current_score) then now else updated_at)) ban_until (Some (u (event i))) (Some now).

Definition _observe_peer_misbehavior (i : Incident) : runtime string :=
  let! info := on_service (peer_info net (incident_host i) (incident_port i)) in
  let! now := on_service (peer_time clock) in
  let! _ := on_service (record_peer_observation clock net (misbehavior_observation i info now)) in
  do! _trim_peerbook_to_capacity in
  ret (misbehavior_action i info now).1.1.

Definition _register_peer_failure (host : str) (port : Z) (error : peer_error) (penalty : option Z) : runtime unit :=
  let! info := on_service (peer_info net host port) in
  let! backoff := _next_backoff_state info in
  let '(attempts, until) := backoff in
  let! now := on_service (peer_time clock) in
  let classification := u <$> protocol_error_class (Some error) in
  let applied_penalty := match penalty with None => _penalty_for_error error | Some v => v end in
  let! new_score := _updated_peer_score host port (- applied_penalty) in
  let backoff_until := if now <? until then until else now + 1 in
  let disconnects := match info with Some p => match peer_disconnect_count p with Some n => n + 1 | None => 0 end | None => 0 end in
  let text := u (error_text error) in
  if _should_penalize_as_misbehavior error then
    let! _ := _observe_peer_misbehavior (mkIncident host port (match protocol_error_class (Some error) with Some c => c | None => "connect_failure"%string end) applied_penalty
      (Some (u "outbound")) (Some false) None None (Some attempts) (Some backoff_until) (Some disconnects) None (Some text) classification (Some new_score) false) in
    ret tt
  else
    let field {A} (f : PeerInfo -> option A) : option A := match info with Some p => f p | None => None end in
    let! _ := on_service (record_peer_observation clock net
      (mkPeer host port net (field peer_source) None (Some (u "outbound")) None None (Some now)
        (Some (match info with Some p => match peer_failure_count p with Some n => n + 1 | None => 1 end | None => 1 end)) None (Some false)
        (field peer_last_known_height) (field peer_node_id) (Some new_score) (Some attempts) (Some backoff_until) (Some text) (Some now) classification (Some disconnects)
        (field peer_session_started_at) (field peer_misbehavior_score) (field peer_misbehavior_last_updated_at) (field peer_ban_until)
        (field peer_last_penalty_reason) (field peer_last_penalty_at))) in
    _trim_peerbook_to_capacity.

(** What the runtime records when a handshake completes: the endpoint, the remote
    height and node identifier *)
Definition observe_handshake (host : str) (port : Z) (direction : option str) (source : str) (start_height : Z) (remote_node : str) : runtime PeerInfo :=
  let! existing := on_service (peer_info net host port) in
  let! score := _updated_peer_score host port 1 in
  let! success_at := on_service (peer_time clock) in
  let! started_at := on_service (peer_time clock) in
  on_service (record_peer_observation clock net
    (mkPeer host port net (Some (match existing with Some p => default source (peer_source p) | None => source end)) None direction None (Some success_at) None None
      (Some (match existing with Some p => match peer_success_count p with Some n => n + 1 | None => 1 end | None => 1 end)) (Some true) (Some start_height)
      (Some remote_node) (Some score) (Some 0) (Some 0) None None None None (Some started_at) None None None None None)).
End runtime.
