(* ===== verification/PeerFacts.v ===== *)
(** * What the peer book keeps

    The table follows the book in memory as long as the calls of the service return,
    so that a restart loses nothing; a ban holds for every port of the host while it lasts;
    and a completed handshake forgets misbehaviour. *)

From S2P Require Import Prelude PyState PyOrder PyText Models UtxoStore PeerBook PeerPolicy.

(** ** Merging *)

Lemma first_of_same {A} (a : option A) : first_of a a = a.
Proof. by destruct a. Qed.

Lemma preferred_same s : preferred_peer_source s s = s.
Proof. destruct s as [s|]; [|done]. cbn. by rewrite Z.ltb_irrefl. Qed.

Lemma preferred_again e s : preferred_peer_source e (preferred_peer_source e s) = preferred_peer_source e s.
Proof.
  destruct e as [e|], s as [s|]; cbn; try done.
  - destruct (source_priority e <? source_priority s) eqn:E; cbn; rewrite ?E, ?Z.ltb_irrefl; done.
  - by rewrite Z.ltb_irrefl.
Qed.

(** The row knows all the record knows: writing the record again changes nothing. *)
Definition below (p row : PeerInfo) : Prop := update_peer_row row p = row.

Lemma first_of_below {A} (p row new : option A) : first_of p row = row -> first_of (first_of new p) (first_of new row) = first_of new row.
Proof. by destruct new, p, row. Qed.

Lemma first_of_twice {A} (p row : option A) : first_of p (first_of p row) = first_of p row.
Proof. by destruct p. Qed.

Lemma first_of_under {A} (p row : option A) : first_of p row = row -> first_of row p = row.
Proof. by destruct p, row. Qed.

Lemma first_of_earlier {A} (p row new : option A) : first_of row p = row -> first_of (first_of row new) (first_of p new) = first_of row new.
Proof. by destruct new, p, row. Qed.

Lemma first_of_kept {A} (p row : option A) : first_of (first_of row p) p = first_of row p.
Proof. by destruct p, row. Qed.

Lemma first_of_reload {A} (p row : option A) : first_of p row = row -> first_of (first_of row p) row = row.
Proof. by destruct p, row. Qed.

Lemma first_of_first {A} (p row : option A) : first_of row p = row -> first_of row (first_of p row) = row.
Proof. by destruct p, row. Qed.

(** Takes equations between records apart, field by field. *)
Ltac fields := unfold below, update_peer_row, merge_peer in *; cbn [peer_host peer_port peer_network peer_source peer_first_seen peer_direction peer_last_seen peer_last_success peer_last_failure peer_failure_count peer_success_count peer_handshake_complete peer_last_known_height peer_node_id peer_score peer_reconnect_attempts peer_backoff_until peer_last_error peer_last_error_at peer_error_class peer_disconnect_count peer_session_started_at peer_misbehavior_score peer_misbehavior_last_updated_at peer_ban_until peer_last_penalty_reason peer_last_penalty_at] in *.

Lemma below_same p : below p p.
Proof. destruct p. fields. by rewrite !first_of_same. Qed.

Lemma below_update row p : below p (update_peer_row row p).
Proof. fields. f_equal; try apply first_of_twice. apply first_of_kept. Qed.

(** The record and the row after one write *)
Lemma below_write e row p src : below e row -> peer_source p = preferred_peer_source (peer_source e) src -> below (merge_peer e p) (update_peer_row row p).
Proof.
  intros Hb Hs. destruct e, row, p. fields. injection Hb as ????????????????????????. f_equal; try (by apply first_of_below).
  - rewrite Hs, preferred_again. apply first_of_twice.
  - by apply first_of_earlier.
Qed.

(** Without the time of the first contact *)
Definition sans_first_seen (p : PeerInfo) : PeerInfo :=
  mkPeer (peer_host p) (peer_port p) (peer_network p) (peer_source p) None (peer_direction p) (peer_last_seen p) (peer_last_success p)
    (peer_last_failure p) (peer_failure_count p) (peer_success_count p) (peer_handshake_complete p) (peer_last_known_height p) (peer_node_id p) (peer_score p)
    (peer_reconnect_attempts p) (peer_backoff_until p) (peer_last_error p) (peer_last_error_at p) (peer_error_class p) (peer_disconnect_count p) (peer_session_started_at p)
    (peer_misbehavior_score p) (peer_misbehavior_last_updated_at p) (peer_ban_until p) (peer_last_penalty_reason p) (peer_last_penalty_at p).

(** Loading a row over a record it knows gives the row, but for the first contact. *)
Lemma below_load p row : below p row -> sans_first_seen (merge_peer p row) = sans_first_seen row /\ below (merge_peer p row) row.
Proof.
  intros Hb. destruct p as [? ? ? so], row as [? ? ? so']. unfold sans_first_seen. fields. injection Hb as Hs ???????????????????????.
  assert (Hp : preferred_peer_source so so' = so') by (destruct so as [x|]; [|done]; cbn in Hs; subst so'; apply preferred_same).
  split; f_equal; rewrite ?Hp; try done; try apply first_of_same; try (by apply first_of_under); try (by apply first_of_reload); by apply first_of_first.
Qed.

Lemma merge_key e p : key_of (merge_peer e p) = key_of p.
Proof. done. Qed.

Section book.
Variable net : str.

Definition keyed (b : book) : Prop := map_Forall (fun k p => key_of p = k) b.
Definition local (b : book) : Prop := map_Forall (fun k p => peer_network p = net) b.

(** The table follows the book: every record has a row that knows all it knows. *)
Record tracked (s : PeerState) : Prop := {
  book_keyed : keyed (peerbook s);
  book_local : local (peerbook s);
  rows_keyed : keyed (peer_rows s);
  rows_above : forall k p, peerbook s !! k = Some p -> exists row, peer_rows s !! k = Some row /\ below p row;
}.

Lemma list_all_elem b p : keyed b -> p ∈ list_all b (Some net) <-> b !! key_of p = Some p /\ peer_network p = net.
Proof.
  intros Hk. unfold list_all. rewrite elem_of_sorted_by, list_elem_of_filter, list_elem_of_fmap. cbn [in_network]. rewrite bool_decide_eq_true. split.
  - intros [Hn ([k q] & -> & Hin%elem_of_map_to_list)]. cbn [snd]. split; [|done]. by rewrite (Hk _ _ Hin).
  - intros [Hb Hn]. split; [done|]. exists (key_of p, p). split; [done|]. by apply elem_of_map_to_list.
Qed.

Lemma list_all_keys b : keyed b -> NoDup (key_of <$> list_all b (Some net)).
Proof.
  intros Hk. unfold list_all. rewrite sorted_by_Permutation. eapply sublist_NoDup; [|apply fmap_sublist, sublist_filter].
  rewrite <- list_fmap_compose. erewrite list_fmap_ext; [apply (NoDup_fst_map_to_list b)|].
  intros j [k q] Hj. apply list_elem_of_lookup_2, elem_of_map_to_list in Hj. cbn. by apply Hk.
Qed.

Lemma find_peer_lookup b host port : keyed b -> find_peer net b host port = b !! (host, port, net).
Proof.
  intros Hk. unfold find_peer. set (l := filter _ _). assert (Hl : forall p, p ∈ l <-> b !! (host, port, net) = Some p).
  { intros p. unfold l. rewrite list_elem_of_filter, list_all_elem by done. split.
    - intros [[<- <-] [Hb <-]]. exact Hb.
    - intros Hb. pose proof (Hk _ _ Hb) as Hp. cbn in Hp. rewrite Hp. unfold key_of in Hp. injection Hp as H1 H2 H3. done. }
  destruct l as [|p l']; cbn [head].
  - destruct (b !! (host, port, net)) as [p|] eqn:E; [|done]. exfalso. apply (not_elem_of_nil p). by apply Hl.
  - symmetry. apply Hl. left.
Qed.

Lemma keyed_insert b p : keyed b -> keyed (<[key_of p := p]> b).
Proof. intros Hb. by apply map_Forall_insert_2. Qed.

Lemma book_add_keyed b p : keyed b -> keyed (book_add b p).
Proof. intros Hb. unfold book_add. destruct (b !! key_of p) as [e|]; [rewrite <- (merge_key e p)|]; by apply keyed_insert. Qed.

Lemma book_add_local b p : local b -> peer_network p = net -> local (book_add b p).
Proof. intros Hb Hp. unfold book_add. destruct (b !! key_of p) as [e|]; by apply map_Forall_insert_2. Qed.

(** ** Loading the table *)

Definition loaded (e : option PeerInfo) (row : PeerInfo) : PeerInfo := match e with None => row | Some e => merge_peer e row end.

Lemma book_add_insert b p : book_add b p = <[key_of p := loaded (b !! key_of p) p]> b.
Proof. unfold book_add. by destruct (b !! key_of p). Qed.

Lemma load_lookup l b k : NoDup (key_of <$> l) ->
  foldl book_add b l !! k = match list_find (fun p => key_of p = k) l with Some (_, p) => Some (loaded (b !! k) p) | None => b !! k end.
Proof.
  revert b. induction l as [|p l IH]; intros b Hn; [done|]. cbn [fmap list_fmap] in Hn. apply NoDup_cons in Hn as [Hp Hn].
  cbn [foldl]. rewrite IH, book_add_insert by done. cbn [list_find]. destruct (decide (key_of p = k)) as [<-|Hne].
  - destruct (list_find (fun q => key_of q = key_of p) l) as [[j q]|] eqn:E; cbn; [|apply lookup_insert_eq].
    apply list_find_Some in E as (Hj & Hk & _). destruct Hp. rewrite <- Hk. by eapply list_elem_of_fmap_2, list_elem_of_lookup_2.
  - rewrite lookup_insert_ne by done. by destruct (list_find (fun q => key_of q = k) l) as [[j q]|].
Qed.

Lemma load_rows rows b k : keyed rows -> keyed b -> local b ->
  foldl book_add b (list_all rows (Some net)) !! k = if bool_decide (k.2 = net) then from_option (fun row => Some (loaded (b !! k) row)) (b !! k) (rows !! k) else None.
Proof.
  intros Hr Hb Hloc. rewrite load_lookup by by apply list_all_keys.
  destruct (list_find (fun p => key_of p = k) (list_all rows (Some net))) as [[j p]|] eqn:E.
  - apply list_find_Some in E as (Hj & <- & _). apply list_elem_of_lookup_2, list_all_elem in Hj as [Hj Hn]; [|done]. rewrite bool_decide_true by done. by rewrite Hj.
  - rewrite list_find_None in E. case_bool_decide as Hk.
    + destruct (rows !! k) as [p|] eqn:Ep; [|done]. exfalso. pose proof (Hr _ _ Ep) as Hp. cbn in Hp. rewrite Forall_forall in E. apply (E p); [|done].
      apply list_all_elem; [done|]. rewrite Hp. split; [done|]. by rewrite <- Hp in Hk.
    + destruct (b !! k) as [p|] eqn:Ep; [|done]. exfalso. apply Hk. pose proof (Hb _ _ Ep) as Hp. cbn in Hp. rewrite <- Hp. exact (Hloc _ _ Ep).
Qed.

Lemma sans_key p : key_of (sans_first_seen p) = key_of p.
Proof. done. Qed.

(** Two books that agree on the network but for the first contacts list the same,
    but for the first contacts. *)
Lemma list_all_same b1 b2 : keyed b1 -> keyed b2 -> (forall k, k.2 = net -> sans_first_seen <$> b1 !! k = sans_first_seen <$> b2 !! k) ->
  sans_first_seen <$> list_all b1 (Some net) = sans_first_seen <$> list_all b2 (Some net).
Proof.
  assert (Hin : forall b b' p, keyed b -> keyed b' -> (forall k, k.2 = net -> sans_first_seen <$> b !! k = sans_first_seen <$> b' !! k) ->
    p ∈ sans_first_seen <$> list_all b (Some net) -> p ∈ sans_first_seen <$> list_all b' (Some net)).
  { intros b b' p Hb Hb' Hs (q & -> & [Hq Hn]%list_all_elem)%list_elem_of_fmap; [|done]. specialize (Hs (key_of q) Hn). rewrite Hq in Hs. cbn [fmap option_fmap option_map] in Hs.
    destruct (b' !! key_of q) as [q'|] eqn:E; [|discriminate]. apply (inj Some) in Hs. apply list_elem_of_fmap. exists q'. split; [done|].
    pose proof (Hb' _ _ E) as Hk. cbn in Hk. apply list_all_elem; [done|]. rewrite Hk. split; [done|]. unfold key_of in Hk. injection Hk as _ _ ->. exact Hn. }
  assert (Hnd : forall b, keyed b -> NoDup (sans_first_seen <$> list_all b (Some net))).
  { intros b Hb. apply (NoDup_fmap_1 key_of). rewrite <- list_fmap_compose. by apply list_all_keys. }
  assert (Hss : forall b, StronglySorted (key_le peer_order) (sans_first_seen <$> list_all b (Some net))).
  { intros b. pose proof (sorted_by_StronglySorted peer_order (filter (fun p => in_network (Some net) p = true) (map_to_list b).*2)) as H.
    unfold list_all. induction H as [|p l _ IH Hp]; cbn; constructor; [done|]. apply Forall_fmap. exact Hp. }
  intros H1 H2 Hs. apply (sorted_unique peer_order); [|done..|].
  - intros p q (p' & -> & Hp)%list_elem_of_fmap (q' & -> & Hq)%list_elem_of_fmap Ho. apply list_all_elem in Hp as [Hp _], Hq as [Hq _]; [|done..].
    unfold peer_order in Ho. injection Ho as E1 E2 E3. assert (Ek : key_of p' = key_of q') by (unfold key_of; cbn in *; by rewrite E1, E2, E3). rewrite Ek in Hp. congruence.
  - apply NoDup_Permutation; [by apply Hnd..|]. intros p. split; apply Hin; try done. intros k Hk. symmetry. by apply Hs.
Qed.

(** What a service that starts over the table finds *)
Definition restarted (s : PeerState) : PeerState := mkPeerState ∅ (peer_rows s) (peer_clock_reads s).

Lemma restarted_tracked s : keyed (peer_rows s) -> tracked (restarted s).
Proof. intros Hr. split; try done; apply map_Forall_empty. Qed.

(** Loading *)
Lemma list_peers_loads s l s' : tracked s -> list_peers net s = (Ok l, s') ->
  tracked s' /\ l = list_all (peerbook s') (Some net) /\ peer_rows s' = peer_rows s /\ peer_clock_reads s' = peer_clock_reads s /\
  (forall k, k.2 = net -> peerbook s' !! k = loaded (peerbook s !! k) <$> (peer_rows s !! k)).
Proof.
  intros [Hb Hl Hr Hs] Hrun. unfold list_peers, asks, with_book, modify, gets, sbind in Hrun. cbn in Hrun. unfold list_known in Hrun.
  destruct (bind_texts [Some net]) as [[]|e]; cbn in Hrun; [|discriminate]. injection Hrun as <- <-. cbn [peerbook peer_rows peer_clock_reads].
  set (b := foldl book_add (peerbook s) (list_all (peer_rows s) (Some net))).
  assert (Hload : forall k, b !! k = if bool_decide (k.2 = net) then loaded (peerbook s !! k) <$> (peer_rows s !! k) else None).
  { intros k. unfold b. rewrite load_rows by done. case_bool_decide; [|done]. destruct (peer_rows s !! k) eqn:E; [done|]. cbn.
    destruct (peerbook s !! k) as [p|] eqn:E'; [|done]. apply Hs in E' as (row & ? & _). congruence. }
  assert (Hat : forall k p, b !! k = Some p -> k.2 = net /\ exists row, peer_rows s !! k = Some row /\ p = loaded (peerbook s !! k) row /\ key_of p = k).
  { intros k p. rewrite Hload. case_bool_decide as Hn; [|done]. destruct (peer_rows s !! k) as [row|] eqn:E; [|done]. intros [= <-]. split; [done|]. exists row.
    split; [done|]. split; [done|]. pose proof (Hr _ _ E) as Hk. cbn in Hk. rewrite <- Hk at 2. by destruct (peerbook s !! k). }
  split; [|split; [done|split; [done|split; [done|intros k Hn; by rewrite Hload, bool_decide_true]]]]. split; cbn [peerbook peer_rows]; try done.
  - by intros k p (_ & row & _ & _ & Hk)%Hat.
  - intros k p (Hn & row & _ & _ & Hk)%Hat. by rewrite <- Hk in Hn.
  - intros k p (Hn & row & E & -> & _)%Hat. exists row. split; [done|]. destruct (peerbook s !! k) as [e|] eqn:Ee; [|apply below_same].
    cbn. apply Hs in Ee as (row' & E' & Hbe). rewrite E in E'. injection E' as <-. by apply below_load.
Qed.

(** The list of a restarted service *)
Lemma list_peers_rows s l s' : tracked s -> list_peers net s = (Ok l, s') -> sans_first_seen <$> l = sans_first_seen <$> list_all (peer_rows s) (Some net).
Proof.
  intros Hs Hrun. destruct (list_peers_loads s l s' Hs Hrun) as (Hs' & -> & _ & _ & Hload). apply list_all_same; [apply Hs'|apply Hs|].
  intros k Hn. rewrite Hload by done. destruct (peer_rows s !! k) as [row|] eqn:E; [|done]. cbn. f_equal. destruct (peerbook s !! k) as [e|] eqn:Ee; [|done].
  destruct (rows_above s Hs _ _ Ee) as (row' & E' & Hbe). rewrite E in E'. injection E' as <-. by apply below_load.
Qed.

(** ** The table follows every operation *)

Definition stays {A} (m : peers A) : Prop := triple tracked m (fun _ => tracked) (fun _ _ => True).

Lemma stays_bind {A B} (m : peers A) (k : A -> peers B) : stays m -> (forall a, stays (k a)) -> stays (sbind m k).
Proof. intros Hm Hk. by eapply triple_bind. Qed.

Lemma stays_ret {A} (a : A) : stays (ret a).
Proof. by intros s Hs. Qed.

Lemma stays_gets {A} (f : PeerState -> A) : stays (gets f).
Proof. by intros s Hs. Qed.

Lemma stays_time clock : stays (peer_time clock).
Proof. intros s [Hb Hl Hr Hs]. by split. Qed.

Lemma stays_fold {A X} (body : A -> X -> peers A) xs acc : (forall acc x, stays (body acc x)) -> stays (sfold body acc xs).
Proof. intros Hb. revert acc. induction xs as [|x xs IH]; intros acc; [apply stays_ret|]. apply stays_bind; [apply Hb|apply IH]. Qed.

Lemma stays_list : stays (list_peers net).
Proof.
  intros s Hs. destruct (list_peers net s) as [[l|e] s'] eqn:E; [|done]. by apply (list_peers_loads s l s' Hs).
Qed.

Lemma stays_remove host port : stays (remove_peer net host port).
Proof.
  intros s [Hb Hl Hr Hs]. unfold remove_peer, with_book, with_rows, modify, update, sbind, table_remove. cbn.
  destruct (bind_endpoint host port net) as [[]|e]; cbn; [|done]. split; cbn.
  - by apply map_Forall_delete.
  - by apply map_Forall_delete.
  - by apply map_Forall_delete.
  - intros k p. unfold book_remove, key_of. cbn. destruct (decide ((host, port, net) = k)) as [<-|Hne]; [by rewrite lookup_delete_eq|].
    rewrite !lookup_delete_ne by done. apply Hs.
Qed.

(** A source that has been chosen with what the book holds *)
Definition chosen (peer : PeerInfo) (s : PeerState) : Prop :=
  forall e, peerbook s !! key_of peer = Some e -> exists src, peer_source peer = preferred_peer_source (peer_source e) src.

Lemma store_stays peer : peer_network peer = net -> triple (fun s => tracked s /\ chosen peer s) (store_peer peer) (fun _ => tracked) (fun _ _ => True).
Proof.
  intros Hn s [[Hb Hl Hr Hs] Hc]. unfold store_peer, with_book, with_rows, modify, update, sbind, table_add. cbn.
  destruct (bind_peer peer) as [[]|e]; cbn; [|done]. split; cbn.
  - by apply book_add_keyed.
  - by apply book_add_local.
  - destruct (peer_rows s !! key_of peer) as [row|] eqn:E; [|by apply keyed_insert]. pose proof (Hr _ _ E) as Hk. cbn in Hk.
    rewrite <- Hk. change (key_of row) with (key_of (update_peer_row row peer)). by apply keyed_insert.
  - intros k p. rewrite book_add_insert. destruct (decide (key_of peer = k)) as [<-|Hne].
    + rewrite lookup_insert_eq. intros [= <-]. destruct (peerbook s !! key_of peer) as [e|] eqn:Ee.
      * destruct (Hs _ _ Ee) as (row & E & Hbe), (Hc e Ee) as [src Hsrc]. rewrite E. exists (update_peer_row row peer). split; [apply lookup_insert_eq|].
        exact (below_write e row peer src Hbe Hsrc).
      * destruct (peer_rows s !! key_of peer) as [row|] eqn:E; eexists; (split; [apply lookup_insert_eq|]); [apply below_update|apply below_same].
    + rewrite lookup_insert_ne by done. intros Hp. destruct (peer_rows s !! key_of peer); rewrite lookup_insert_ne by done; by apply Hs.
Qed.

(** The record of the endpoint is read first; until the write it does not change. *)
Lemma chosen_after_read {A} clock host port (peer_of : option PeerInfo -> Z -> PeerInfo) (result : PeerInfo -> A) :
  (forall existing now, key_of (peer_of existing now) = (host, port, net)) ->
  (forall e now, exists src, peer_source (peer_of (Some e) now) = preferred_peer_source (peer_source e) src) ->
  stays (let! existing := gets (fun s => find_peer net (peerbook s) host port) in
         let! now := peer_time clock in
         do! store_peer (peer_of existing now) in ret (result (peer_of existing now))).
Proof.
  intros Hk Hsrc. eapply triple_bind; [apply triple_gets|]. intros existing.
  apply (triple_bind _ _ _ (fun now s => tracked s /\ chosen (peer_of existing now) s)).
  - intros s [Hs ->]. cbn. split; [destruct Hs; by split|]. unfold chosen. intros e He. rewrite Hk in He. cbn [peerbook] in He.
    rewrite find_peer_lookup by apply Hs. rewrite He. apply Hsrc.
  - intros now. apply (triple_bind _ _ _ (fun _ => tracked)); [|intros _; apply stays_ret]. apply store_stays. specialize (Hk existing now). unfold key_of in Hk. by injection Hk.
Qed.

Lemma stays_add clock host port source : stays (add_peer clock net host port source).
Proof. apply (chosen_after_read clock host port (fun existing now => _) (fun p => p)); [done|]. intros e now. by exists (Some source). Qed.

Lemma key_free_chosen peer s : tracked s -> peer_rows s !! key_of peer = None -> chosen peer s.
Proof. intros Hs Hfree e (row & E & _)%(rows_above s Hs). congruence. Qed.

Lemma removed_free host port : triple tracked (remove_peer net host port) (fun _ s => tracked s /\ peer_rows s !! (host, port, net) = None) (fun _ _ => True).
Proof.
  intros s Hs. pose proof (stays_remove host port s Hs) as Hr. revert Hr. unfold remove_peer, with_book, with_rows, modify, update, sbind, table_remove. cbn.
  destruct (bind_endpoint host port net) as [[]|e]; cbn; [|done]. intros Hr. split; [done|]. cbn. apply lookup_delete_eq.
Qed.

Lemma stays_record clock o : stays (record_peer_observation clock net o).
Proof.
  unfold record_peer_observation. eapply triple_bind; [apply triple_gets|]. intros existing.
  apply (triple_bind _ _ _ (fun now s => tracked s /\ existing = peerbook s !! (peer_host o, peer_port o, net))).
  { intros s [Hs ->]. cbn. split; [destruct Hs; by split|]. apply find_peer_lookup, Hs. }
  intros now. set (peer := observed_peer net o existing now).
  apply (triple_bind _ _ _ (fun _ s => tracked s /\ chosen peer s)).
  - destruct existing as [e|].
    + destruct (successful_observation o).
      * intros s [Hs He]. pose proof (book_keyed s Hs _ _ (eq_sym He)) as Hk. cbn in Hk. pose proof (removed_free (peer_host o) (peer_port o) s Hs) as Hf.
        revert Hf. unfold remove_peer, with_book, modify, sbind. unfold book_remove at 1. unfold key_of at 1. cbn [peer_host peer_port peer_network bare_peer].
        unfold book_remove. rewrite Hk. destruct (with_rows _ _) as [[[]|x] s']; [|done]. intros [Hs' Hfree]. split; [done|]. by apply key_free_chosen.
      * intros s [Hs He]. split; [done|]. intros e' He'. cbn in He'. unfold key_of in He'. cbn in He'. rewrite <- He in He'. injection He' as <-. by exists (peer_source o).
    + intros s [Hs He]. split; [done|]. intros e' He'. unfold key_of in He'. cbn in He'. congruence.
  - intros _. apply (triple_bind _ _ _ (fun _ => tracked)); [by apply store_stays|]. intros _. apply stays_ret.
Qed.

Lemma list_local s l s' : tracked s -> list_peers net s = (Ok l, s') -> Forall (fun p => peer_network p = net) l.
Proof.
  intros Hs (Hs' & -> & _)%list_peers_loads; [|done]. apply Forall_forall. intros p Hp. apply list_all_elem in Hp as [_ Hp]; [done|]. apply Hs'.
Qed.

(** A loop over what was just listed *)
Lemma stays_listed {B} (k : list PeerInfo -> peers B) :
  (forall l, Forall (fun p => peer_network p = net) l -> stays (k l)) -> stays (let! l := list_peers net in k l).
Proof.
  intros Hk s Hs. unfold sbind. pose proof (stays_list s Hs) as Hl. destruct (list_peers net s) as [[l|e] s'] eqn:E; [|done].
  apply Hk; [|done]. exact (list_local s l s' Hs E).
Qed.

Lemma stays_clean_removals default_port dry_run now removed p : stays (clean_removals net default_port dry_run now removed p).
Proof.
  unfold clean_removals. destruct (removal_reason _ _ _); [|apply stays_ret]. apply stays_bind; [|intros []; apply stays_ret].
  destruct dry_run; [apply stays_ret|apply stays_remove].
Qed.

Lemma stays_clean_penalties clock dry_run reset p : peer_network p = net -> stays (clean_penalties clock net dry_run reset p).
Proof.
  intros Hn. unfold clean_penalties. destruct (unpenalised p); [apply stays_ret|]. apply stays_bind; [|intros []; apply stays_ret].
  destruct dry_run; [apply stays_ret|]. apply stays_bind; [apply stays_time|]. intros now.
  eapply triple_bind; [apply removed_free|]. intros []. eapply triple_pre; [|by apply store_stays]. intros s [Hs Hfree]. split; [done|].
  apply key_free_chosen; [done|]. unfold key_of. cbn. by rewrite Hn.
Qed.

Lemma stays_clean clock default_port reset_penalties dry_run : stays (peerbook_clean clock net default_port reset_penalties dry_run).
Proof.
  unfold peerbook_clean. apply stays_bind; [apply stays_list|]. intros known. apply stays_bind; [apply stays_time|]. intros now.
  apply stays_bind; [apply stays_fold; intros; apply stays_clean_removals|]. intros removed. apply stays_bind; [|intros; apply stays_ret].
  destruct reset_penalties; [|apply stays_ret]. apply stays_listed. intros l Hl. generalize (@nil (str * Z)).
  induction Hl as [|p l Hp Hl IH]; intros acc; [apply stays_ret|]. apply stays_bind; [by apply stays_clean_penalties|apply IH].
Qed.
(** ** The start of a session *)

(** A record that says when its session started says whether the handshake was
    complete. *)
Definition dated (p : PeerInfo) : Prop := is_Some (peer_session_started_at p) -> is_Some (peer_handshake_complete p).
Definition all_dated (b : book) : Prop := map_Forall (fun _ p => dated p) b.
Definition sessions_dated (s : PeerState) : Prop := all_dated (peerbook s) /\ all_dated (peer_rows s).

Lemma dated_first {A B} (a a' : option A) (b b' : option B) :
  (is_Some a -> is_Some b) -> (is_Some a' -> is_Some b') -> is_Some (first_of a a') -> is_Some (first_of b b').
Proof.
  intros H1 H2. destruct b as [x|]; cbn; [by eauto|]. destruct a as [y|]; cbn; [|done]. intros _. destruct H1 as [x Hx]; [by eauto|discriminate].
Qed.

Lemma dated_merge e p : dated e -> dated p -> dated (merge_peer e p).
Proof. intros He Hp. exact (dated_first _ _ _ _ Hp He). Qed.

Lemma dated_update row p : dated row -> dated p -> dated (update_peer_row row p).
Proof. intros He Hp. exact (dated_first _ _ _ _ Hp He). Qed.

Lemma dated_reset p : dated p -> dated (reset_peer net p).
Proof. unfold reset_peer, dated. destruct (_ && _); [intros _ [x Hx]; discriminate|done]. Qed.

Lemma dated_add b p : all_dated b -> dated p -> all_dated (book_add b p).
Proof.
  intros Hb Hp. unfold book_add. destruct (b !! key_of p) as [e|] eqn:E; apply map_Forall_insert_2; try done. apply dated_merge; [exact (Hb _ _ E)|done].
Qed.

Lemma dated_listed b p : all_dated b -> p ∈ list_all b (Some net) -> dated p.
Proof.
  intros Hb. unfold list_all. rewrite elem_of_sorted_by, list_elem_of_filter. intros [_ ([k q] & -> & Hq%elem_of_map_to_list)%list_elem_of_fmap]. exact (Hb _ _ Hq).
Qed.

Lemma dated_load b l : all_dated b -> Forall dated l -> all_dated (foldl book_add b l).
Proof. intros Hb Hl. revert b Hb. induction Hl as [|p l Hp _ IH]; intros b Hb; [done|]. apply IH. by apply dated_add. Qed.

Abbreviation stays_dated op := (keeps sessions_dated (fun _ => True) op).

Lemma dated_book f : (forall b, all_dated b -> all_dated (f b)) -> stays_dated (with_book f).
Proof. intros Hf. apply keeps_modify. intros s [Hb Hr]. split; [by apply Hf|done]. Qed.

Lemma dated_rows f : (forall rows rows', all_dated rows -> f rows = Ok rows' -> all_dated rows') -> stays_dated (with_rows f).
Proof.
  intros Hf s [Hb Hr]. unfold with_rows, update. destruct (f (peer_rows s)) as [rows'|e] eqn:E; cbn [rbind]; [|done]. split; [done|]. exact (Hf _ _ Hr E).
Qed.

Lemma dated_store p : dated p -> stays_dated (store_peer p).
Proof.
  intros Hp. apply keeps_bind; [apply dated_book; intros b Hb; by apply dated_add|]. intros _. apply dated_rows. intros rows rows' Hr. unfold table_add.
  destruct (bind_peer p); cbn [rbind]; [|discriminate]. intros [= <-]. destruct (rows !! key_of p) as [row|] eqn:E; apply map_Forall_insert_2; try done.
  apply dated_update; [exact (Hr _ _ E)|done].
Qed.

Lemma dated_removed p host port : stays_dated (do! with_book (fun b => book_remove b p) in with_rows (fun rows => table_remove rows host port net)).
Proof.
  apply keeps_bind; [apply dated_book; intros b Hb; by apply map_Forall_delete|]. intros _. apply dated_rows. intros rows rows' Hr. unfold table_remove.
  destruct (bind_endpoint host port net); cbn [rbind]; [|discriminate]. intros [= <-]. by apply map_Forall_delete.
Qed.

Lemma dated_remove host port : stays_dated (remove_peer net host port).
Proof. apply dated_removed. Qed.

Lemma dated_time clock : stays_dated (peer_time clock).
Proof. by intros s Hs. Qed.
#[local] Hint Resolve dated_store dated_remove dated_time : keeps.

(** What is listed is dated. *)
Lemma dated_list {B} (k : list PeerInfo -> peers B) : (forall l, Forall dated l -> stays_dated (k l)) -> stays_dated (let! l := list_peers net in k l).
Proof.
  intros Hk s [Hb Hr]. unfold sbind at 1, list_peers, asks, with_book, modify, gets, sbind, list_known. destruct (bind_texts [Some net]); cbn; [|done].
  assert (Hload : all_dated (foldl book_add (peerbook s) (list_all (peer_rows s) (Some net)))).
  { apply dated_load; [done|]. apply Forall_forall. intros p. by apply dated_listed. }
  apply Hk; [|by split]. apply Forall_forall. intros p. by apply dated_listed.
Qed.

Lemma dated_list_peers : stays_dated (list_peers net).
Proof.
  intros s Hs. pose proof (dated_list ret ltac:(intros; apply keeps_ret) s Hs) as H. unfold sbind, ret in H. by destruct (list_peers net s) as [[l|e] s'].
Qed.

Lemma dated_clean clock default_port reset_penalties dry_run : stays_dated (peerbook_clean clock net default_port reset_penalties dry_run).
Proof.
  unfold peerbook_clean. apply keeps_bind; [apply dated_list_peers|]. intros known. keeps_step; [keeps|]. keeps_step.
  { apply keeps_fold. intros acc p _. unfold clean_removals. keeps. }
  keeps_step; [|keeps]. keeps_step; [|keeps]. apply dated_list. intros l Hl. apply keeps_fold. intros acc p Hp. rewrite Forall_forall in Hl.
  assert (Hc : forall now, dated (cleaned p now)) by (intros now; exact (Hl p Hp)). unfold clean_penalties. keeps.
Qed.

Lemma dated_record clock o : dated o -> stays_dated (record_peer_observation clock net o).
Proof.
  intros Ho. unfold record_peer_observation. apply keeps_bind; [keeps|]. intros existing. apply keeps_bind; [keeps|]. intros now.
  apply keeps_bind; [|intros _; apply keeps_bind; [by apply dated_store|intros []; keeps]].
  destruct existing as [e|]; [|keeps]. destruct (successful_observation o); [apply dated_removed|keeps].
Qed.

Lemma dated_add_peer clock host port source : stays_dated (add_peer clock net host port source).
Proof. unfold add_peer. keeps_step; [keeps|]. keeps_step; [keeps|]. keeps_step; [|keeps]. apply dated_store. by intros [x Hx]. Qed.

Lemma dated_reset_sessions : stays_dated (reset_peer_session_state net).
Proof.
  assert (Hf : forall b, all_dated b -> all_dated (reset_peer net <$> b)).
  { intros b Hb k p (q & <- & Hq)%lookup_fmap_Some. apply dated_reset. exact (Hb _ _ Hq). }
  apply keeps_bind; [by apply dated_book|]. intros _. apply dated_rows. intros rows rows' Hr. unfold table_reset_session_state.
  destruct (bind_texts [Some net]); cbn [rbind]; [|discriminate]. intros [= <-]. by apply Hf.
Qed.

Lemma handshake_unknown (h : option bool) : first_of h (Some true) = Some true -> h ≠ Some true -> h = None.
Proof. by destruct h as [[]|]. Qed.

Lemma undated {A B} (a : option A) (b : option B) : (is_Some a -> is_Some b) -> b = None -> a = None.
Proof. intros Hd ->. destruct a; [|done]. by destruct Hd. Qed.

(** A record and its row are reset together: the row has the record's handshake, when
    the record knows it. *)
Lemma below_reset p row : peer_network row = peer_network p -> dated p -> below p row -> below (reset_peer net p) (reset_peer net row).
Proof.
  intros Hn Hd Hb. unfold reset_peer. rewrite Hn. destruct (bool_decide (peer_network p = net)); cbn [andb]; [|done]. unfold dated in Hd. destruct p, row.
  unfold without_session in *. fields. injection Hb as Hb. repeat case_bool_decide; fields; simplify_eq; f_equal; try done.
  all: match goal with H1 : first_of ?h _ = _, H2 : ?h ≠ Some true |- _ => pose proof (handshake_unknown h H1 H2) as Hh end.
  - by rewrite Hh.
  - by rewrite (undated _ _ Hd Hh).
Qed.

Lemma reset_tracked s s' : tracked s -> sessions_dated s -> reset_peer_session_state net s = (Ok tt, s') -> tracked s'.
Proof.
  intros [Hb Hl Hr Hs] [Hd _]. unfold reset_peer_session_state, with_book, with_rows, modify, update, sbind, table_reset_session_state, book_reset_session_state.
  cbn [peer_rows peerbook]. destruct (bind_texts [Some net]) as [[]|e]; cbn; [|discriminate]. intros [= <-].
  assert (Hk : forall p, key_of (reset_peer net p) = key_of p) by (intros p; unfold reset_peer; by destruct (_ && _)).
  split; cbn [peerbook peer_rows].
  - intros k p (q & <- & Hq)%lookup_fmap_Some. rewrite Hk. exact (Hb _ _ Hq).
  - intros k p (q & <- & Hq)%lookup_fmap_Some. specialize (Hl _ _ Hq). cbn in Hl. unfold reset_peer. by destruct (_ && _).
  - intros k p (q & <- & Hq)%lookup_fmap_Some. rewrite Hk. exact (Hr _ _ Hq).
  - intros k p (q & <- & Hq)%lookup_fmap_Some. destruct (Hs _ _ Hq) as (row & E & Hbe). exists (reset_peer net row). rewrite lookup_fmap, E. split; [done|].
    apply below_reset; [|exact (Hd _ _ Hq)|done]. pose proof (Hb _ _ Hq) as K1. pose proof (Hr _ _ E) as K2. cbn in K1, K2. unfold key_of in *. congruence.
Qed.
End book.

(** ** Runs *)

(** The calls of the service that return.  A call that raises can leave a record in the
    book that has no row.  An observation that dates the session says whether its
    handshake is complete, as every observation of the runtime does. *)
Inductive peer_step (clock : nat -> Z) (net : str) (default_port : Z) : PeerState -> PeerState -> Prop :=
| step_add_peer host port source s p s' : add_peer clock net host port source s = (Ok p, s') -> peer_step clock net default_port s s'
| step_remove_peer host port s s' : remove_peer net host port s = (Ok tt, s') -> peer_step clock net default_port s s'
| step_list_peers s l s' : list_peers net s = (Ok l, s') -> peer_step clock net default_port s s'
| step_reset_sessions s s' : reset_peer_session_state net s = (Ok tt, s') -> peer_step clock net default_port s s'
| step_observation o s p s' : dated o -> record_peer_observation clock net o s = (Ok p, s') -> peer_step clock net default_port s s'
| step_clean reset dry s r s' : peerbook_clean clock net default_port reset dry s = (Ok r, s') -> peer_step clock net default_port s s'.

Lemma stays_returns {A} net (m : peers A) s a s' : stays net m -> tracked net s -> m s = (Ok a, s') -> tracked net s'.
Proof. intros Hm Hs E. specialize (Hm s Hs). by rewrite E in Hm. Qed.

Lemma dated_returns {A} (m : peers A) s a s' : keeps sessions_dated (fun _ => True) m -> sessions_dated s -> m s = (Ok a, s') -> sessions_dated s'.
Proof. intros Hm Hs E. specialize (Hm s Hs). by rewrite E in Hm. Qed.

Lemma peer_step_tracked clock net default_port s s' : peer_step clock net default_port s s' ->
  tracked net s /\ sessions_dated s -> tracked net s' /\ sessions_dated s'.
Proof.
  intros Hstep [Hs Hd]. split.
  - destruct Hstep; [| | |by eapply reset_tracked| |]; eapply stays_returns; try done; [apply stays_add|apply stays_remove|apply stays_list|apply stays_record|apply stays_clean].
  - destruct Hstep; eapply dated_returns; try done; [apply dated_add_peer|apply dated_remove|apply dated_list_peers|apply dated_reset_sessions|by apply dated_record|apply dated_clean].
Qed.

(** C30: as long as the calls of the service return, the table follows the book in
    memory, so a restart loses nothing.  From an empty book and a table whose rows are
    under their own keys and say whether a dated session completed its handshake, after
    any calls that return (adding, removing, listing and observing peers, cleaning,
    and resetting the sessions, whether the book was loaded before or not), a service
    that starts again over the table lists the same peers as the service that ran, in
    the same order and with the same fields, but for the time of the first contact. *)
Theorem peers_survive_restart clock net default_port s0 s1 l s2 l' s3 :
  keyed (peer_rows s0) -> all_dated (peer_rows s0) -> rtc (peer_step clock net default_port) (restarted s0) s1 ->
  list_peers net s1 = (Ok l, s2) -> list_peers net (restarted s1) = (Ok l', s3) -> sans_first_seen <$> l' = sans_first_seen <$> l.
Proof.
  intros Hr Hd Hrun H1 H2. assert (Hs1 : tracked net s1 /\ sessions_dated s1).
  { eapply (rtc_preserved (fun s => tracked net s /\ sessions_dated s)); [exact (peer_step_tracked clock net default_port)|exact Hrun|].
    split; [by apply restarted_tracked|]. split; [apply map_Forall_empty|done]. }
  destruct Hs1 as [Hs1 _]. apply list_peers_rows in H1 as ->; [|done]. apply list_peers_rows in H2 as ->; [done|]. apply restarted_tracked, Hs1.
Qed.
