(* ===== verification/PeerBans.v ===== *)
(** * Bans ([node/runtime.py], [node/service.py])

    What an incident does to the peer that caused it, and what a completed handshake
    does to what is known of the peer.  Both hold along the runs of [PeerFacts.v],
    whose invariant [tracked] the statements start from. *)

From S2P Require Import Prelude PyState PyOrder PyText Models UtxoStore PeerBook PeerPolicy PeerFacts.

Section peer.
Variable clock : nat -> Z.
Variable net : str.

(** The first read of the clock *)
Definition time_of (s : PeerState) : Z := clock (peer_clock_reads s).

(** ** Observations *)

Lemma store_peer_effect peer s s' : store_peer peer s = (Ok tt, s') ->
  peerbook s' = book_add (peerbook s) peer /\ peer_clock_reads s' = peer_clock_reads s /\ (forall k, k ≠ key_of peer -> peer_rows s' !! k = peer_rows s !! k).
Proof.
  unfold store_peer, with_book, with_rows, modify, update, sbind, table_add. cbn [peerbook peer_rows peer_clock_reads].
  destruct (bind_peer peer) as [[]|e]; cbn; [|discriminate]. intros [= <-]. split; [done|]. split; [done|]. intros k Hk. cbn [peer_rows].
  destruct (peer_rows s !! key_of peer); by rewrite lookup_insert_ne.
Qed.

(** An observation that is not of a success is merged into what is known. *)
Lemma observation_merged o s p s' : tracked net s -> successful_observation o = false -> record_peer_observation clock net o s = (Ok p, s') ->
  p = observed_peer net o (peerbook s !! key_of p) (time_of s) /\
  peerbook s' = book_add (peerbook s) p /\ peer_clock_reads s' = S (peer_clock_reads s) /\ (forall k, k ≠ key_of p -> peer_rows s' !! k = peer_rows s !! k) /\ tracked net s'.
Proof.
  intros Hs Ho Hrun. pose proof (stays_returns net _ s p s' (stays_record net clock o) Hs Hrun) as Hs'. revert Hrun.
  unfold record_peer_observation, gets, peer_time, sbind. cbn -[store_peer observed_peer]. rewrite Ho, find_peer_lookup by apply Hs.
  set (existing := peerbook s !! _). set (q := observed_peer net o existing _).
  assert (Hq : forall s1, (match (match existing with Some _ => ret tt | None => ret tt end : peers unit) s1 with (Ok _, s2) => (do! store_peer q in ret q) s2 | (Raise e, s2) => (Raise e, s2) end)
    = (do! store_peer q in ret q) s1) by (intros s1; by destruct existing).
  unfold sbind in Hq. rewrite Hq. clear Hq. destruct (store_peer q _) as [[[]|e] s2] eqn:E; cbn; [|discriminate]. intros [= <- <-].
  apply store_peer_effect in E as (Hb & Hc & Hr). by rewrite Hb, Hc.
Qed.

(** ** Trimming *)

Lemma on_service_returns {A} (m : peers A) r a r' : on_service m r = (Ok a, r') -> m (runtime_peers r) = (Ok a, runtime_peers r').
Proof. unfold on_service. destruct (m (runtime_peers r)) as [[x|e] s]; [|discriminate]. by intros [= <- <-]. Qed.

Lemma bind_returns {S A B} (m : stm S A) (k : A -> stm S B) s b s' : sbind m k s = (Ok b, s') -> exists a s1, m s = (Ok a, s1) /\ k a s1 = (Ok b, s').
Proof. unfold sbind. destruct (m s) as [[a|e] s1]; [|discriminate]. eauto. Qed.

(** A book within its capacity is only loaded. *)
Lemma trim_within settings r r' : tracked net (runtime_peers r) -> len (list_all (peer_rows (runtime_peers r)) (Some net)) <= peerbook_max_size settings ->
  _trim_peerbook_to_capacity clock net settings r = (Ok tt, r') ->
  exists l, list_peers net (runtime_peers r) = (Ok l, runtime_peers r').
Proof.
  intros Hs Hlen (l & r1 & H1%on_service_returns & H2)%bind_returns. exists l. pose proof (list_peers_rows net _ _ _ Hs H1) as Hl.
  assert (Hn : len l = len (list_all (peer_rows (runtime_peers r)) (Some net))).
  { unfold len. f_equal. rewrite <- (length_fmap sans_first_seen l), Hl, length_fmap. done. }
  rewrite Hn, (proj2 (Z.leb_le _ _) Hlen) in H2. injection H2 as <-. exact H1.
Qed.

(** One more row *)
Lemma list_all_one_more rows rows' k : keyed rows -> keyed rows' -> (forall k', k' ≠ k -> rows' !! k' = rows !! k') ->
  len (list_all rows' (Some net)) <= len (list_all rows (Some net)) + 1.
Proof.
  intros Hr Hr' Hk. assert (Hsub : key_of <$> list_all rows' (Some net) ⊆+ k :: (key_of <$> list_all rows (Some net))).
  { apply NoDup_submseteq; [by apply list_all_keys|]. intros k' (p & -> & [Hp Hn]%list_all_elem)%list_elem_of_fmap; [|done].
    apply elem_of_cons. destruct (decide (key_of p = k)) as [Hkp|Hne]; [by left|right]. rewrite Hk in Hp by done. apply list_elem_of_fmap. exists p. split; [done|]. by apply list_all_elem. }
  apply submseteq_length in Hsub. cbn [length] in Hsub. rewrite !length_fmap in Hsub. unfold len. lia.
Qed.

(** Listing raises for a network that is no text for the database, and else returns. *)
Lemma list_peers_returns s l s' s1 : list_peers net s = (Ok l, s') -> exists l1 s1', list_peers net s1 = (Ok l1, s1').
Proof.
  unfold list_peers, asks, with_book, modify, gets, sbind, list_known. cbn [peer_rows]. destruct (bind_texts [Some net]) as [[]|e]; cbn; [eauto|discriminate].
Qed.

(** ** Bans *)

Lemma first_ban_found host now l p t : p ∈ l -> peer_host p = host -> peer_ban_until p = Some t -> now < t -> is_Some (first_ban host now l).
Proof.
  intros Hp Hh Hb Ht. induction l as [|q l IH]; [by apply not_elem_of_nil in Hp|]. cbn. apply elem_of_cons in Hp as [<-|Hp].
  - rewrite Hb, bool_decide_true by done. cbn. rewrite (proj2 (Z.ltb_lt now t) Ht). done.
  - specialize (IH Hp). destruct (peer_ban_until q); [|done]. by destruct (_ && _).
Qed.

Lemma below_ban p row t : below p row -> peer_ban_until p = Some t -> peer_ban_until row = Some t.
Proof. intros Hb Hp. apply (f_equal peer_ban_until) in Hb. cbn in Hb. by rewrite Hp in Hb. Qed.

(** Whoever has a record with a ban in the book is listed with it, *)
Lemma ban_listed s l s' host port p t : tracked net s -> list_peers net s = (Ok l, s') -> peerbook s !! (host, port, net) = Some p -> peer_ban_until p = Some t ->
  exists q, q ∈ l /\ peer_host q = host /\ peer_ban_until q = Some t /\ peerbook s' !! (host, port, net) = Some q.
Proof.
  intros Hs Hl Hp Ht. destruct (list_peers_loads net s l s' Hs Hl) as (Hs' & -> & _ & _ & Hload). destruct (rows_above net s Hs _ _ Hp) as (row & Hrow & Hb).
  specialize (Hload (host, port, net) eq_refl). rewrite Hp, Hrow in Hload. cbn [fmap option_fmap option_map loaded] in Hload. exists (merge_peer p row).
  pose proof (book_keyed net _ Hs' _ _ Hload) as Hk. cbn beta in Hk.
  split; [apply list_all_elem; [apply Hs'|]; rewrite Hk; split; [done|]; unfold key_of in Hk; by injection Hk|].
  split; [unfold key_of in Hk; by injection Hk|]. split; [|done]. cbn. by rewrite (below_ban _ _ _ Hb Ht).
Qed.

(** and every port of the host is banned. *)
Lemma ban_holds r host port port' p t s l s' : tracked net (runtime_peers r) -> peerbook (runtime_peers r) !! (host, port, net) = Some p -> peer_ban_until p = Some t ->
  time_of (runtime_peers r) < t -> list_peers net s = (Ok l, s') -> exists r', _is_peer_currently_banned clock net host port' r = (Ok true, r').
Proof.
  intros Hs Hp Ht Hnow Hret. set (s1 := mkPeerState (peerbook (runtime_peers r)) (peer_rows (runtime_peers r)) (S (peer_clock_reads (runtime_peers r)))).
  destruct (list_peers_returns s l s' s1 Hret) as (known & s2 & H1).
  destruct (ban_listed s1 known s2 host port p t) as (q & Hq & Hh & Hb & _); [by destruct Hs; split|done..|].
  destruct (first_ban_found host (time_of (runtime_peers r)) (option_list (book_get (peerbook s1) host port' net) ++ known) q t) as [t' Hf]; [by apply elem_of_app; right|done..|].
  eexists. unfold _is_peer_currently_banned, _ban_state_for_peer, on_service, peer_time, peer_info, gets, sbind. cbn [runtime_peers]. fold s1. rewrite H1. cbn [fst snd].
  unfold time_of in Hf. rewrite Hf. reflexivity.
Qed.

(** An incident is never the record of a success. *)
Lemma incident_unsuccessful settings i info now : successful_observation (misbehavior_observation net settings i info now) = false.
Proof.
  unfold misbehavior_observation. destruct (misbehavior_action settings i info now) as [[a n] b]. destruct (_decayed_misbehavior_state settings info now).
  unfold successful_observation. cbn. by rewrite andb_false_r.
Qed.
End peer.

(** What is said of an incident, and what is recorded *)
Definition next_misbehavior_score (settings : PeerSettings) (i : Incident) (info : option PeerInfo) (now : Z) : Z :=
  Z.min 10000 ((_decayed_misbehavior_state settings info now).1 + Z.max 0 (delta i)).

Lemma ban_action settings i info now : misbehavior_ban_threshold settings <= next_misbehavior_score settings i info now ->
  misbehavior_action settings i info now = ("ban"%string, next_misbehavior_score settings i info now, Some (now + misbehavior_ban_duration_seconds settings)).
Proof. intros Hb. unfold misbehavior_action. fold (next_misbehavior_score settings i info now). by rewrite (proj2 (Z.leb_le _ _) Hb). Qed.

(** The record that is merged of a ban *)
Lemma ban_recorded net settings i info now existing now' e : misbehavior_ban_threshold settings <= next_misbehavior_score settings i info now ->
  let p := observed_peer net (misbehavior_observation net settings i info now) existing now' in
  key_of p = (incident_host i, incident_port i, net) /\ peer_ban_until (loaded e p) = Some (now + misbehavior_ban_duration_seconds settings).
Proof.
  intros Hb. unfold misbehavior_observation. rewrite ban_action by done. destruct (_decayed_misbehavior_state settings info now). split; [done|]. by destruct e.
Qed.

(** C31: an incident that brings the decayed score of a peer to the ban threshold bans
    its host.  When the book has room for one more record, the call answers "ban",
    and until the ban ends every port of the host is refused, whichever port the
    incident came from. *)
Theorem ban_takes_effect clock net settings i r answer r' :
  let now := time_of clock (runtime_peers r) in
  tracked net (runtime_peers r) -> len (list_all (peer_rows (runtime_peers r)) (Some net)) < peerbook_max_size settings ->
  misbehavior_ban_threshold settings <= next_misbehavior_score settings i (peerbook (runtime_peers r) !! (incident_host i, incident_port i, net)) now ->
  _observe_peer_misbehavior clock net settings i r = (Ok answer, r') ->
  answer = "ban"%string /\ tracked net (runtime_peers r') /\
  (time_of clock (runtime_peers r') < now + misbehavior_ban_duration_seconds settings ->
   forall port', exists r'', _is_peer_currently_banned clock net (incident_host i) port' r' = (Ok true, r'')).
Proof.
  intros now Hs Hroom Hban. subst now. unfold time_of in Hban |- *. intros (info & r1 & H1%on_service_returns & H2)%bind_returns. injection H1 as Hinfo Hr1.
  apply bind_returns in H2 as (now' & r2 & H1%on_service_returns & H2). injection H1 as Hnow' Hr2.
  apply bind_returns in H2 as (p & r3 & H3%on_service_returns & H2). apply bind_returns in H2 as ([] & r4 & H4 & H2). injection H2 as <- <-.
  change (book_get (peerbook (runtime_peers r)) (incident_host i) (incident_port i) net) with (peerbook (runtime_peers r) !! (incident_host i, incident_port i, net)) in Hinfo.
  rewrite <- Hr1 in Hnow', Hr2. rewrite Hnow' in Hban |- *. rewrite Hinfo in Hban.
  assert (Hs2 : tracked net (runtime_peers r2)) by (rewrite <- Hr2; destruct Hs; by split).
  apply observation_merged in H3 as (Hp & Hbook & _ & Hrows & Hs3); [|done|apply incident_unsuccessful].
  destruct (ban_recorded net settings i info now' (peerbook (runtime_peers r2) !! key_of p) (time_of clock (runtime_peers r2)) (peerbook (runtime_peers r2) !! key_of p) Hban) as [Hkey Hlast].
  rewrite <- Hp in Hkey, Hlast. rewrite book_add_insert in Hbook.
  destruct (trim_within clock net settings r3 r4 Hs3) as [l Hl]; [|done|].
  { pose proof (list_all_one_more net (peer_rows (runtime_peers r2)) (peer_rows (runtime_peers r3)) (key_of p) (rows_keyed _ _ Hs2) (rows_keyed _ _ Hs3) Hrows) as H.
    rewrite <- Hr2 in H. cbn [peer_rows] in H. lia. }
  destruct (ban_listed net _ l _ (incident_host i) (incident_port i) (loaded (peerbook (runtime_peers r2) !! key_of p) p) (now' + misbehavior_ban_duration_seconds settings) Hs3 Hl)
    as (q & _ & _ & Hq & Hat); [by rewrite Hbook, <- Hkey, lookup_insert_eq|done|].
  rewrite ban_action by done. split; [done|]. assert (Hs4 : tracked net (runtime_peers r4)) by apply (list_peers_loads net _ l _ Hs3 Hl).
  split; [done|]. intros Ht port'. by eapply ban_holds.
Qed.

(** ** Handshakes *)

(** The observation of a success replaces what is known. *)
Lemma success_replaces clock net o s p s' : tracked net s -> successful_observation o = true -> record_peer_observation clock net o s = (Ok p, s') ->
  (exists now, p = observed_peer net o (peerbook s !! key_of p) now) /\ peerbook s' !! key_of p = Some p.
Proof.
  intros Hs Ho (existing & s1 & H1 & H2)%bind_returns. unfold gets in H1. injection H1 as He <-. rewrite find_peer_lookup in He by apply Hs.
  apply bind_returns in H2 as (now & s1 & H1 & H2). unfold peer_time in H1. injection H1 as _ <-. rewrite Ho in H2.
  apply bind_returns in H2 as ([] & s2 & H1 & H2). apply bind_returns in H2 as ([] & s3 & H3 & H2). injection H2 as <- <-.
  apply store_peer_effect in H3 as (Hb & _ & _).
  assert (Hkey : key_of (observed_peer net o existing now) = (peer_host o, peer_port o, net)) by done. rewrite book_add_insert, Hkey in Hb. rewrite Hkey, Hb, lookup_insert_eq.
  split; [exists now; by rewrite He|]. subst existing.
  assert (Hfree : peerbook s2 !! (peer_host o, peer_port o, net) = None); [|by rewrite Hfree].
  destruct (peerbook s !! (peer_host o, peer_port o, net)) as [e|] eqn:Ee; [|by injection H1 as <-].
  pose proof (book_keyed net s Hs _ _ Ee) as Hk. cbn beta in Hk.
  apply bind_returns in H1 as ([] & s4 & H1 & H2). injection H1 as <-. unfold with_rows, update in H2. cbn [peer_rows peerbook] in H2.
  destruct (table_remove _ _ _ _) as [rows|x]; cbn in H2; [|discriminate]. injection H2 as <-. cbn [peerbook]. rewrite <- Hk. apply lookup_delete_eq.
Qed.

(** C32: a completed handshake forgets the misbehaviour of a peer: the record it leaves
    has no misbehaviour score, no ban, no penalty and no count of disconnections
    whatever the book held, the decayed score is 0 at once, and an incident lighter
    than the ban threshold is no ban.  The comment where the record is replaced
    speaks of transient connection failures only, and the documented policy lets
    scores decay by a step per interval. *)
Theorem handshake_forgives_misbehavior clock net settings host port direction source height node r p r' :
  tracked net (runtime_peers r) -> observe_handshake clock net host port direction source height node r = (Ok p, r') ->
  peerbook (runtime_peers r') !! (host, port, net) = Some p /\
  peer_misbehavior_score p = None /\ peer_ban_until p = None /\ peer_last_penalty_reason p = None /\ peer_disconnect_count p = None /\
  (forall now, (_decayed_misbehavior_state settings (Some p) now).1 = 0) /\
  (forall i now, Z.max 0 (delta i) < misbehavior_ban_threshold settings -> (misbehavior_action settings i (Some p) now).1.1 ≠ "ban"%string).
Proof.
  intros Hs (existing & r1 & H1%on_service_returns & H2)%bind_returns. injection H1 as _ Hr1.
  apply bind_returns in H2 as (score & r2 & H1 & H2). apply bind_returns in H1 as (e & r2' & H1%on_service_returns & H3). injection H1 as _ Hr2. injection H3 as _ <-.
  apply bind_returns in H2 as (now1 & r3 & H1%on_service_returns & H2). injection H1 as _ Hr3.
  apply bind_returns in H2 as (now2 & r4 & H1%on_service_returns & H2%on_service_returns). injection H1 as _ Hr4.
  apply success_replaces in H2 as [[now Hp] Hat]; [|rewrite <- Hr4, <- Hr3, <- Hr2, <- Hr1; destruct Hs; by split|done].
  assert (Hk : key_of p = (host, port, net)) by by rewrite Hp. rewrite Hk in Hat.
  assert (Hm : peer_misbehavior_score p = None) by by rewrite Hp. assert (Hd : forall t, (_decayed_misbehavior_state settings (Some p) t).1 = 0) by (intros t; unfold _decayed_misbehavior_state; by rewrite Hm).
  split; [exact Hat|]. split; [exact Hm|]. split; [by rewrite Hp|]. split; [by rewrite Hp|]. split; [by rewrite Hp|]. split; [exact Hd|].
  intros i t Hi. unfold misbehavior_action. rewrite Hd, (proj2 (Z.leb_gt _ _)) by lia. by repeat destruct (_ || _); repeat destruct (_ <=? _).
Qed.
