(* ===== verification/Sync.v ===== *)
(** * Header-first synchronization ([node/sync.py])

    The synchronization manager of a node: it stores the headers and the blocks
    that peers send, keeps blocks whose parent is unknown, schedules downloads and
    activates the best branch whose blocks are there, with the whole [Node]: its
    pool follows, and an activation that raises leaves what it wrote.  Its object is the record
    [SyncManager]; the methods that change it run in [stm].  [receive_block] and
    [_accept_pending_children] call each other: the bound of the model is the
    number of orphan buckets. *)

From Stdlib Require Import SpecFloat.
From S2P Require Import Prelude PyState PyOrder PyText Hashes Params Models Serialization Pow Crypto Json Headers Mempool Service Node.

(** ** Floats: IEEE 754 binary64, as the deadlines use them *)

Definition float : Type := spec_float.
Definition float_add (x y : float) : float := SFadd 53 1024 x y.
Definition float_gt (x y : float) : bool := SFltb y x.

(** ** Records *)

Record HeaderIngestResult : Type := mkHeaderIngest {
  ingest_headers_received : Z;
  ingest_parent_unknown : option str;
  ingest_best_tip_hash : option str;
  ingest_best_tip_height : option Z;
  missing_block_hashes : list str;
  needs_more_headers : bool;
}.

Record SyncResult : Type := mkSyncResult {
  sync_headers_received : Z;
  sync_blocks_fetched : Z;
  sync_activated_tip : option str;
  sync_parent_unknown : option str;
  sync_reorged : bool;
  sync_reorg_depth : Z;
  sync_old_tip : option str;
  sync_new_tip : option str;
  sync_common_ancestor : option str;
  sync_readded_transaction_count : Z;
}.

Record BlockIngestResult : Type := mkBlockIngest {
  ingest_block_hash : str;
  ingest_activated_tip : option str;
  ingest_reorged : bool;
  ingest_block_parent_unknown : option str;
  accepted_blocks : Z;
  ingest_reorg_depth : Z;
  ingest_old_tip : option str;
  ingest_new_tip : option str;
  ingest_common_ancestor : option str;
  ingest_readded_transaction_count : Z;
}.

Record BlockDownloadAssignment : Type := mkAssignment {
  assigned_block_hash : str;
  assigned_peer_id : str;
  assigned_deadline_at : float;
  assigned_attempt : Z;
}.

Record BlockRequestState : Type := mkRequest {
  request_block_hash : str;
  request_peer_id : str;
  requested_at : float;
  deadline_at : float;
  request_attempt : Z;
}.

(** The two caches hold at most one entry, being replaced as a whole. *)
Record SyncManager : Type := mkSync {
  manager_node : Node;
  max_headers : Z;
  _orphan_blocks : list (str * list (str * Block));
  _inflight_blocks : list (str * BlockRequestState);
  _header_peer_heights : list (str * Z);
  _header_peer_tips : list (str * str);
  _block_peer_counts : list (str * Z);
  _header_peer_counts : list (str * Z);
  _stalled_peer_counts : list (str * Z);
  _missing_blocks_cache : list ((str * option str) * list str);
  _ready_tip_cache : list ((str * option str * list str) * option str);
  _invalid_activation_tips : list (str * string);
}.

Definition _MAX_ORPHAN_BLOCKS : Z := 256.

Definition new_sync (node : Node) (limit : Z) : SyncManager := mkSync node limit [] [] [] [] [] [] [] [] [] [].

(** *** Assignments to the attributes *)

Definition set_manager_node (n : Node) (m : SyncManager) : SyncManager :=
  mkSync n (max_headers m) (_orphan_blocks m) (_inflight_blocks m) (_header_peer_heights m) (_header_peer_tips m)
    (_block_peer_counts m) (_header_peer_counts m) (_stalled_peer_counts m) (_missing_blocks_cache m) (_ready_tip_cache m)
    (_invalid_activation_tips m).

(** The chain of the node *)
Definition sync_node (m : SyncManager) : NodeService := node_chain (manager_node m).
Definition set_node (s : NodeService) (m : SyncManager) : SyncManager := set_manager_node (set_chain s (manager_node m)) m.

Definition set_orphans (o : list (str * list (str * Block))) (m : SyncManager) : SyncManager :=
  mkSync (manager_node m) (max_headers m) o (_inflight_blocks m) (_header_peer_heights m) (_header_peer_tips m)
    (_block_peer_counts m) (_header_peer_counts m) (_stalled_peer_counts m) (_missing_blocks_cache m) (_ready_tip_cache m)
    (_invalid_activation_tips m).
Definition set_requests (i : list (str * BlockRequestState)) (blocks stalled : list (str * Z)) (m : SyncManager) : SyncManager :=
  mkSync (manager_node m) (max_headers m) (_orphan_blocks m) i (_header_peer_heights m) (_header_peer_tips m)
    blocks (_header_peer_counts m) stalled (_missing_blocks_cache m) (_ready_tip_cache m) (_invalid_activation_tips m).
Definition set_header_peers (hs : list (str * Z)) (ts : list (str * str)) (cs : list (str * Z)) (m : SyncManager) : SyncManager :=
  mkSync (manager_node m) (max_headers m) (_orphan_blocks m) (_inflight_blocks m) hs ts
    (_block_peer_counts m) cs (_stalled_peer_counts m) (_missing_blocks_cache m) (_ready_tip_cache m) (_invalid_activation_tips m).
Definition set_caches (missing : list ((str * option str) * list str)) (ready : list ((str * option str * list str) * option str))
    (m : SyncManager) : SyncManager :=
  mkSync (manager_node m) (max_headers m) (_orphan_blocks m) (_inflight_blocks m) (_header_peer_heights m) (_header_peer_tips m)
    (_block_peer_counts m) (_header_peer_counts m) (_stalled_peer_counts m) missing ready (_invalid_activation_tips m).
Definition set_invalid (i : list (str * string)) (m : SyncManager) : SyncManager :=
  mkSync (manager_node m) (max_headers m) (_orphan_blocks m) (_inflight_blocks m) (_header_peer_heights m) (_header_peer_tips m)
    (_block_peer_counts m) (_header_peer_counts m) (_stalled_peer_counts m) (_missing_blocks_cache m) (_ready_tip_cache m) i.

(** [int(x)] of an optional integer, [xs[i:]] *)
Definition int_of (o : option Z) : res Z := match o with Some n => Ok n | None => raise TypeError "int() argument" end.
Definition py_from {A} (xs : list A) (i : Z) : list A := drop (Z.to_nat (if i <? 0 then i + len xs else i)) xs.

(** ** What the node knows *)

Definition best_header_record (node : NodeService) : res (option HeaderRecord) := header_find_best_tip (headers node).

Definition _best_header_needs_blocks (node : NodeService) (best_tip : HeaderRecord) : res bool :=
  match chain_tip node with
  | None => Ok true
  | Some current_tip =>
      if bool_decide (record_hash best_tip = tip_hash current_tip) then Ok false
      else
        let* current_record := header_get_record (headers node) (tip_hash current_tip) in
        let current_work := match current_record with Some r => default 0 (record_work r) | None => 0 end in
        let best_work := default 0 (record_work best_tip) in
        if current_work <? best_work then Ok true
        else Ok (match record_height best_tip with Some h => tip_height current_tip <? h | None => false end)
  end.

(** The branch of a header above the snapshot anchor *)
Definition path_above_anchor (node : NodeService) (hash : str) : res (option (list str)) :=
  let* path_hashes := header_path_to_root (headers node) hash in
  match snapshot_anchor node with
  | None => Ok (Some path_hashes)
  | Some anchor =>
      if len path_hashes <=? anchor_height anchor then Ok None
      else
        let* at_anchor := py_index path_hashes (anchor_height anchor) in
        if bool_decide (at_anchor = anchor_hash anchor) then Ok (Some (py_from path_hashes (anchor_height anchor + 1))) else Ok None
  end.

Definition block_missing (node : NodeService) (hash : str) : res bool :=
  let* found := get_block_by_hash node hash in Ok (match found with None => true | Some _ => false end).

(** [missing_blocks_for_tip] without its cache *)
Definition scan_missing (node : NodeService) (hash : str) : res (list str) :=
  let* above_anchor := path_above_anchor node hash in
  match above_anchor with
  | None => raise ValueError "snapshot anchor mismatch"
  | Some path_hashes => filterM (block_missing node) path_hashes
  end.

(** The end of the run of stored blocks at the start of a path *)
Fixpoint ready_prefix (node : NodeService) (path_hashes : list str) (candidate : option str) : res (option str) :=
  match path_hashes with
  | [] => Ok candidate
  | hash :: path' => let* missing := block_missing node hash in if missing then Ok candidate else ready_prefix node path' (Some hash)
  end.

(** One turn of the loop of [best_ready_tip]: [None] is [continue] *)
Definition candidate_ready (node : NodeService) (invalid_hashes : list str) (candidate_tip : HeaderRecord) : res (option str) :=
  let* needed := _best_header_needs_blocks node candidate_tip in
  if negb needed then Ok None
  else
    let* above_anchor := path_above_anchor node (record_hash candidate_tip) in
    match above_anchor with
    | None => Ok None
    | Some path_hashes =>
        if existsb (fun hash => bool_decide (hash ∈ invalid_hashes)) path_hashes then Ok None
        else
          let* ready := ready_prefix node path_hashes (anchor_hash <$> snapshot_anchor node) in
          match ready with
          | None => Ok None
          | Some ready_hash =>
              if bool_decide (ready_hash ∈ invalid_hashes) then Ok None
              else
                let* record := header_get_record (headers node) ready_hash in
                match record with
                | None => Ok None
                | Some r => let* still := _best_header_needs_blocks node r in Ok (if still then Some ready_hash else None)
                end
          end
    end.

Fixpoint scan_ready (node : NodeService) (invalid_hashes : list str) (tips : list HeaderRecord) : res (option str) :=
  match tips with
  | [] => Ok None
  | tip :: tips' =>
      let* ready := candidate_ready node invalid_hashes tip in
      match ready with Some hash => Ok (Some hash) | None => scan_ready node invalid_hashes tips' end
  end.

(** Whether a hash is on the header path of a record; the walk is bounded by the
    number of headers *)
Fixpoint ancestor_loop (fuel : nat) (node : NodeService) (ancestor : HeaderRecord) (ancestor_hash : str) (current : option HeaderRecord) :
    res bool :=
  match fuel with
  | O => raise OutOfFuel "_is_ancestor_hash"
  | S n =>
      match current with
      | None => Ok false
      | Some c =>
          if bool_decide (record_hash c = ancestor_hash) then Ok true
          else if bool_decide (record_previous c = zero_hash) then Ok false
          else if match record_height ancestor, record_height c with Some a, Some h => h <=? a | _, _ => false end then Ok false
          else let* next := header_get_record (headers node) (record_previous c) in ancestor_loop n node ancestor ancestor_hash next
      end
  end.

Definition _is_ancestor_hash (node : NodeService) (ancestor_hash : str) (descendant : HeaderRecord) : res bool :=
  let* found := header_get_record (headers node) ancestor_hash in
  match found with
  | None => Ok false
  | Some ancestor =>
      if match record_height ancestor, record_height descendant with Some a, Some h => h <? a | _, _ => false end then Ok false
      else ancestor_loop (S (S (size (header_rows (headers node))))) node ancestor ancestor_hash (Some descendant)
  end.

(** ** Checks on headers before their blocks are there *)

Definition _expected_bits_for_candidate_header (node : NodeService) (parent_record : option HeaderRecord) (h : Z) : res Z :=
  if h <=? 0 then Ok (genesis_bits (service_params node))
  else
    match parent_record with
    | None => Ok (genesis_bits (service_params node))
    | Some parent =>
        let previous_header := record_header parent in
        if negb (h mod difficulty_adjustment_window (service_params node) =? 0) then Ok (bits previous_header)
        else
          let* path_hashes := header_path_to_root (headers node) (record_hash parent) in
          let window_start_height := Z.max 0 (h - difficulty_adjustment_window (service_params node)) in
          let* first_header_hash := py_index path_hashes window_start_height in
          let* first := header_get (headers node) first_header_hash in
          match first with
          | None => Ok (bits previous_header)
          | Some first_header => retarget node previous_header first_header h
          end
    end.

Definition _validate_header_candidate (node : NodeService) (hdr : BlockHeader) (parent_record : option HeaderRecord) (h : Z) : res unit :=
  raise_if (timestamp hdr <? 0) StatelessValidationError "Header timestamp cannot be negative." ;;
  let* work_done := verify_proof_of_work hdr in
  raise_if (negb work_done) StatelessValidationError "Header proof of work is invalid." ;;
  match parent_record with
  | None => Ok tt
  | Some parent =>
      raise_if (negb (bool_decide (previous_block_hash hdr = record_hash parent)))
        ContextualValidationError "Header does not connect to the expected parent." ;;
      raise_if (timestamp hdr <? timestamp (record_header parent))
        ContextualValidationError "Header timestamp is below the previous header timestamp."
  end ;;
  let* expected_bits := _expected_bits_for_candidate_header node parent_record h in
  raise_if (negb (bits hdr =? expected_bits)) ContextualValidationError "Header bits do not match expected difficulty target.".

(** The parent of a header: [None] inside when the header is a root *)
Definition parent_of (node : NodeService) (hdr : BlockHeader) : res (option HeaderRecord) :=
  if bool_decide (previous_block_hash hdr = zero_hash) then Ok None else header_get_record (headers node) (previous_block_hash hdr).

Definition parent_is_unknown (hdr : BlockHeader) (parent_record : option HeaderRecord) : bool :=
  negb (bool_decide (previous_block_hash hdr = zero_hash)) && negb (bool_decide (is_Some parent_record)).

Definition child_height (parent_record : option HeaderRecord) : res Z :=
  match parent_record with None => Ok 0 | Some p => let* h := int_of (record_height p) in Ok (h + 1) end.

(** Height and cumulative work under the parent, and the row *)
Definition store_header (node : NodeService) (hdr : BlockHeader) (parent_record : option HeaderRecord) (h : Z) : res NodeService :=
  let cumulative_work := match parent_record with None => 0 | Some p => default 0 (record_work p) end in
  let* work := header_work hdr in
  let* hdb := header_put (headers node) hdr (Some h) (Some (cumulative_work + work)) false in
  Ok (mkService (service_params node) (service_network node) hdb (blocks node) (chainstate node) (node_registry node)
        (reward_attestations node) (reward_settlements node) (snapshot_anchor node)).

Definition store_block (node : NodeService) (block : Block) : res NodeService :=
  let* bdb := block_put (blocks node) block in
  Ok (mkService (service_params node) (service_network node) (headers node) bdb (chainstate node) (node_registry node)
        (reward_attestations node) (reward_settlements node) (snapshot_anchor node)).

(** ** Methods *)

Section sync.
Context `{PyRepr, CryptoBackend}.

Variable clock : nat -> Z.

Abbreviation sync := (stm SyncManager).

(** A read of the chain, and a write of it that happens when the call returns *)
Definition of_node {A} (f : NodeService -> res A) : sync A := asks (fun m => f (sync_node m)).
Definition write_node {A} (f : NodeService -> res (A * NodeService)) : sync A :=
  update (fun m => let* '(a, n) := f (sync_node m) in Ok (a, set_node n m)).

(** A method of the node: what it wrote before an exception stays *)
Definition call_node {A} (op : node A) : sync A := fun m => let '(r, n) := op (manager_node m) in (r, set_manager_node n m).

Definition _clear_chain_progress_caches : sync unit := modify (set_caches [] []).

Definition clear_block_request (hash : str) : sync unit :=
  modify (fun m => set_requests (dict_pop (_inflight_blocks m) hash) (_block_peer_counts m) (_stalled_peer_counts m) m).

Definition missing_blocks_for_tip (hash : str) : sync (list str) :=
  let! current_tip := gets (fun m => chain_tip (sync_node m)) in
  let cache_key := (hash, tip_hash <$> current_tip) in
  let! cached := gets (fun m => dict_get (_missing_blocks_cache m) cache_key) in
  match cached with
  | Some missing => ret missing
  | None =>
      let! missing := of_node (fun n => scan_missing n hash) in
      do! modify (fun m => set_caches [(cache_key, missing)] (_ready_tip_cache m) m) in
      ret missing
  end.

Definition has_pending_block_downloads : sync bool :=
  let! best_tip := of_node best_header_record in
  match best_tip with None => ret false | Some tip => of_node (fun n => _best_header_needs_blocks n tip) end.

(** The best header when its branch can improve the active chain *)
Definition wanted_tip : sync (option HeaderRecord) :=
  let! best_tip := of_node best_header_record in
  match best_tip with
  | None => ret None
  | Some tip => let! needed := of_node (fun n => _best_header_needs_blocks n tip) in ret (if needed then Some tip else None)
  end.

Definition missing_blocks_for_best_tip : sync (list str) :=
  let! best_tip := wanted_tip in
  match best_tip with None => ret [] | Some tip => missing_blocks_for_tip (record_hash tip) end.

(** *** Headers *)

Record IngestState : Type := mkIngest { stored_headers : Z; batch_parent_unknown : option str; previous_in_batch : option BlockHeader }.

Fixpoint ingest_loop (st : IngestState) (batch : list BlockHeader) : sync IngestState :=
  match batch with
  | [] => ret st
  | hdr :: batch' =>
      let! hash := lift (block_hash hdr) in
      let! known := of_node (fun n => header_get_record (headers n) hash) in
      match known with
      | Some _ => ingest_loop (mkIngest (stored_headers st) (batch_parent_unknown st) (Some hdr)) batch'
      | None =>
          do! lift (match previous_in_batch st with
                    | None => Ok tt
                    | Some previous =>
                        let* previous_hash := block_hash previous in
                        raise_if (negb (bool_decide (previous_block_hash hdr = previous_hash)))
                          ContextualValidationError "Header sequence does not connect to the previous header."
                    end) in
          let! parent_record := of_node (fun n => parent_of n hdr) in
          if parent_is_unknown hdr parent_record then
            ret (mkIngest (stored_headers st) (Some (previous_block_hash hdr)) (previous_in_batch st))
          else
            let! h := lift (child_height parent_record) in
            do! of_node (fun n => _validate_header_candidate n hdr parent_record h) in
            do! write_node (fun n => let* n' := store_header n hdr parent_record h in Ok (tt, n')) in
            ingest_loop (mkIngest (stored_headers st + 1) (batch_parent_unknown st) (Some hdr)) batch'
      end
  end.

Definition ingest_headers (batch : list BlockHeader) (peer_id : option str) : sync HeaderIngestResult :=
  do! (match batch with [] => ret tt | _ => _clear_chain_progress_caches end) in
  let! st := ingest_loop (mkIngest 0 None None) batch in
  let! best_tip := of_node best_header_record in
  let best_tip_hash := record_hash <$> best_tip in
  let best_tip_height := match best_tip with None => None | Some tip => record_height tip end in
  do! (match peer_id, best_tip_height with
       | Some peer, Some h =>
           modify (fun m => set_header_peers (dict_set (_header_peer_heights m) peer h)
             (match best_tip_hash with Some hash => dict_set (_header_peer_tips m) peer hash | None => _header_peer_tips m end)
             (dict_set (_header_peer_counts m) peer (default 0 (dict_get (_header_peer_counts m) peer) + stored_headers st)) m)
       | _, _ => ret tt
       end) in
  let! missing := (match best_tip_hash with None => ret [] | Some hash => missing_blocks_for_tip hash end) in
  let! limit := gets max_headers in
  ret (mkHeaderIngest (stored_headers st) (batch_parent_unknown st) best_tip_hash best_tip_height missing (limit <=? len batch)).

(** *** Activation *)

Definition best_ready_tip : sync (option str) :=
  let! candidate_tips := of_node (fun n => header_list_candidate_tips (headers n)) in
  match candidate_tips with
  | [] => ret None
  | first :: _ =>
      let! cache_key := gets (fun m => (record_hash first, tip_hash <$> chain_tip (sync_node m), py_sorted (_invalid_activation_tips m).*1)) in
      let! cached := gets (fun m => dict_get (_ready_tip_cache m) cache_key) in
      match cached with
      | Some ready_tip => ret ready_tip
      | None =>
          let! ready_tip := asks (fun m => scan_ready (sync_node m) (_invalid_activation_tips m).*1 candidate_tips) in
          do! modify (fun m => set_caches (_missing_blocks_cache m) [(cache_key, ready_tip)] m) in
          ret ready_tip
      end
  end.

Definition no_activation (current : option str) : SyncResult := mkSyncResult 0 0 current None false 0 None None None 0.

Definition activation_errors : list exn_class := [StatelessValidationError; ContextualValidationError; ValueError].

(** The handler: every header of the refused branch that is not on the active
    path is marked, and the exception raised again when the caller asks for it *)
Definition refuse_branch (current : option str) (ready_hash : str) (raise_on_invalid : bool) (e : exn) : sync SyncResult :=
  let! current_path := of_node (fun n => match current with None => Ok [] | Some hash => header_path_to_root (headers n) hash end) in
  let! path_hashes := of_node (fun n => header_path_to_root (headers n) ready_hash) in
  do! modify (fun m => set_invalid (foldl (fun d hash => if bool_decide (hash ∈ current_path) then d else dict_set d hash (exn_msg e))
    (_invalid_activation_tips m) path_hashes) m) in
  do! modify (fun m => set_caches (_missing_blocks_cache m) [] m) in
  if raise_on_invalid then lift (Raise e) else ret (no_activation current).

Definition activate_best_chain_if_ready (raise_on_invalid : bool) : sync SyncResult :=
  let! current := gets (fun m => tip_hash <$> chain_tip (sync_node m)) in
  let! wanted := wanted_tip in
  match wanted with
  | None => ret (no_activation current)
  | Some _ =>
      let! ready := best_ready_tip in
      match ready with
      | None => ret (no_activation current)
      | Some ready_hash =>
          let! refused := gets (fun m => bool_decide (ready_hash ∈ (_invalid_activation_tips m).*1)) in
          if refused then ret (no_activation current)
          else
            let! found := of_node (fun n => header_get_record (headers n) ready_hash) in
            match found with
            | None => ret (no_activation current)
            | Some ready_tip =>
                let! needed := of_node (fun n => _best_header_needs_blocks n ready_tip) in
                if negb needed then ret (no_activation current)
                else
                  let! reorg := of_node (fun n =>
                    match current with
                    | Some previous => if bool_decide (record_hash ready_tip = previous) then Ok false
                                       else let* on_path := _is_ancestor_hash n previous ready_tip in Ok (negb on_path)
                    | None => Ok false
                    end) in
                  attempt
                    (let! activation := call_node (node_activate_chain clock (record_hash ready_tip)) in
                     ret (mkSyncResult 0 0 (Some (record_hash ready_tip)) None reorg (reorg_depth activation) (old_tip activation)
                       (Some (new_tip activation)) (common_ancestor activation) (readded_transaction_count activation)))
                    activation_errors (refuse_branch current (record_hash ready_tip) raise_on_invalid)
            end
      end
  end.

(** *** Blocks *)

(** [setdefault], the new entry, [move_to_end], and the oldest buckets dropped *)
Definition remember (orphans : list (str * list (str * Block))) (parent_hash hash : str) (block : Block) :
    list (str * list (str * Block)) :=
  let bucket := dict_set (default [] (dict_get orphans parent_hash)) hash block in
  let moved := dict_pop orphans parent_hash ++ [(parent_hash, bucket)] in
  drop (Z.to_nat (len moved - _MAX_ORPHAN_BLOCKS)) moved.

Definition _remember_orphan (block : Block) : sync unit :=
  let! hash := lift (block_hash (header block)) in
  modify (fun m => set_orphans (remember (_orphan_blocks m) (previous_block_hash (header block)) hash block) m).

Definition ingest_result (hash : str) (activation : SyncResult) (accepted : Z) : BlockIngestResult :=
  mkBlockIngest hash (sync_activated_tip activation) (sync_reorged activation) None accepted (sync_reorg_depth activation)
    (sync_old_tip activation) (sync_new_tip activation) (sync_common_ancestor activation) (sync_readded_transaction_count activation).

(** The children that waited for a block, each received in the order of the hashes *)
Definition _accept_pending_children (receive : Block -> sync BlockIngestResult) (parent_hash : str) : sync Z :=
  let! pending := gets (fun m => default [] (dict_get (_orphan_blocks m) parent_hash)) in
  do! modify (fun m => set_orphans (dict_pop (_orphan_blocks m) parent_hash) m) in
  sfold (fun accepted child_hash =>
    let! child := lift (match dict_get pending child_hash with Some child => Ok child | None => raise KeyError "child_hash" end) in
    let! result := receive child in ret (accepted + accepted_blocks result)) 0 (py_sorted pending.*1).

(** [receive_block], given the call of itself that the children need *)
Definition receive_body (receive : Block -> sync BlockIngestResult) (block : Block) : sync BlockIngestResult :=
  let! hash := lift (block_hash (header block)) in
  do! _clear_chain_progress_caches in
  do! clear_block_request hash in
  let! stored := of_node (fun n => get_block_by_hash n hash) in
  match stored with
  | Some _ =>
      let! activation := activate_best_chain_if_ready true in
      let! accepted := _accept_pending_children receive hash in
      ret (ingest_result hash activation accepted)
  | None =>
      let! parent_record := of_node (fun n => parent_of n (header block)) in
      if parent_is_unknown (header block) parent_record then
        do! _remember_orphan block in
        let! current := gets (fun m => tip_hash <$> chain_tip (sync_node m)) in
        ret (mkBlockIngest hash current false (Some (previous_block_hash (header block))) 0 0 None None None 0)
      else
        let! header_record := of_node (fun n => header_get_record (headers n) hash) in
        do! (match header_record with
             | Some _ => ret tt
             | None =>
                 let! h := lift (child_height parent_record) in
                 write_node (fun n => let* n' := store_header n (header block) parent_record h in Ok (tt, n'))
             end) in
        do! write_node (fun n => let* n' := store_block n block in Ok (tt, n')) in
        let! accepted := _accept_pending_children receive hash in
        let! activation := activate_best_chain_if_ready true in
        ret (ingest_result hash activation (1 + accepted))
  end.

Fixpoint receive_loop (fuel : nat) (block : Block) : sync BlockIngestResult :=
  match fuel with
  | O => throw OutOfFuel "receive_block"
  | S n => receive_body (receive_loop n) block
  end.

Definition receive_block (block : Block) : sync BlockIngestResult :=
  fun m => receive_loop (S (S (length (_orphan_blocks m)))) block m.

(** *** Block downloads *)

(** [d[k] = d.get(k, 0) + 1] *)
Definition count_up (d : list (str * Z)) (k : str) : list (str * Z) := dict_set d k (default 0 (dict_get d k) + 1).
Definition count_of (d : list (str * Z)) (k : str) : Z := default 0 (dict_get d k).

(** The requests in flight at each of the given peers *)
Definition inflight_counts (peer_ids : list str) (inflight : list (str * BlockRequestState)) : list (str * Z) :=
  foldl (fun d request => match dict_get d (request_peer_id request) with
      | Some n => dict_set d (request_peer_id request) (n + 1)
      | None => d
      end) (foldl (fun d peer => dict_set d peer 0) [] peer_ids) inflight.*2.

Definition can_serve (peer_heights : list (str * Z)) (block_height : option Z) (peer : str) : bool :=
  match block_height with None => true | Some h => h <=? default h (dict_get peer_heights peer) end.

(** The peers that have a block, the least loaded first *)
Definition candidate_peers (peer_ids : list str) (peer_heights by_peer stalled : list (str * Z)) (block_height : option Z) : list str :=
  sorted_by (fun peer => ((count_of by_peer peer, count_of stalled peer), peer))
    (filter (fun peer => can_serve peer_heights block_height peer = true) peer_ids).

Section reserve.
Variables (peer_ids : list str) (peer_heights : list (str * Z)).
Variables (max_inflight_per_peer : Z) (timeout_seconds now : float).

(** The loop over the window, with [inflight_by_peer] and the assignments made *)
Fixpoint reserve_loop (by_peer : list (str * Z)) (made : list BlockDownloadAssignment) (window : list str) :
    sync (list BlockDownloadAssignment) :=
  match window with
  | [] => ret made
  | hash :: window' =>
      let! missing := of_node (fun n => block_missing n hash) in
      if negb missing then do! clear_block_request hash in reserve_loop by_peer made window'
      else
        let! requested := gets (fun m => bool_decide (is_Some (dict_get (_inflight_blocks m) hash))) in
        if requested then reserve_loop by_peer made window'
        else
          let! record := of_node (fun n => header_get_record (headers n) hash) in
          let! block_height := lift (match record with None => Ok None | Some r => let* h := int_of (record_height r) in Ok (Some h) end) in
          let! stalled := gets _stalled_peer_counts in
          let candidates := candidate_peers peer_ids peer_heights by_peer stalled block_height in
          match head (filter (fun peer => count_of by_peer peer < max_inflight_per_peer) candidates) with
          | None => ret made
          | Some selected_peer =>
              let deadline := float_add now timeout_seconds in
              do! modify (fun m => set_requests (dict_set (_inflight_blocks m) hash (mkRequest hash selected_peer now deadline 1))
                (count_up (_block_peer_counts m) selected_peer) (_stalled_peer_counts m) m) in
              reserve_loop (count_up by_peer selected_peer) (made ++ [mkAssignment hash selected_peer deadline 1]) window'
          end
  end.
End reserve.

Definition reserve_block_downloads (peer_ids : list str) (peer_heights : option (list (str * Z)))
    (max_window_size max_inflight_per_peer : Z) (timeout_seconds now : float) : sync (list BlockDownloadAssignment) :=
  match peer_ids with
  | [] => ret []
  | _ =>
      let! missing_blocks := missing_blocks_for_best_tip in
      match missing_blocks with
      | [] => ret []
      | _ =>
          let window_hashes := take (Z.to_nat (Z.max 1 max_window_size)) missing_blocks in
          let! by_peer := gets (fun m => inflight_counts peer_ids (_inflight_blocks m)) in
          reserve_loop peer_ids (default [] peer_heights) (Z.max 1 max_inflight_per_peer) timeout_seconds now by_peer [] window_hashes
      end
  end.

(** The requests that satisfy a test are removed and returned. *)
Definition release_where (leaves : BlockRequestState -> bool) : sync (list BlockRequestState) :=
  let! released := gets (fun m => filter (fun kv => leaves kv.2 = true) (_inflight_blocks m)) in
  do! modify (fun m => set_requests (foldl (fun d kv => dict_pop d kv.1) (_inflight_blocks m) released)
    (_block_peer_counts m) (_stalled_peer_counts m) m) in
  ret released.*2.

Definition release_unavailable_peer_requests (peer_ids : list str) : sync (list BlockRequestState) :=
  release_where (fun request => negb (bool_decide (request_peer_id request ∈ peer_ids))).

Definition release_peer_requests (peer_id : str) : sync (list BlockRequestState) :=
  release_where (fun request => bool_decide (request_peer_id request = peer_id)).

Definition expire_block_requests (now : float) : sync (list BlockRequestState) :=
  let! expired := release_where (fun request => negb (float_gt (deadline_at request) now)) in
  do! modify (fun m => set_requests (_inflight_blocks m) (_block_peer_counts m)
    (foldl (fun d request => count_up d (request_peer_id request)) (_stalled_peer_counts m) expired) m) in
  ret expired.

Definition block_download_window_end_height (max_window_size : Z) : sync (option Z) :=
  let! missing_blocks := missing_blocks_for_best_tip in
  match last (take (Z.to_nat (Z.max 1 max_window_size)) missing_blocks) with
  | None => ret None
  | Some hash =>
      let! record := of_node (fun n => header_get_record (headers n) hash) in
      match record with None => ret None | Some r => let! h := lift (int_of (record_height r)) in ret (Some h) end
  end.

(** *** Status *)

Record SyncStatus : Type := mkStatus {
  status_mode : string;
  status_phase : string;
  status_local_height : option Z;
  status_validated_tip_hash : option str;
  status_best_header_height : option Z;
  status_best_header_hash : option str;
  missing_block_count : Z;
  queued_block_count : Z;
  inflight_block_hashes : list str;
  header_peers : list str;
  block_peers : list str;
  block_peer_count : Z;
  stalled_peers : list (str * Z);
  window_heights : option Z * option Z;
}.

Definition mode_of (best_header : option HeaderRecord) (can_advance : bool) (missing : list str) (busy : bool) : string :=
  match best_header, missing with
  | None, _ => "idle"
  | Some _, _ :: _ => if busy then "blocks" else "headers"
  | Some _, [] => if can_advance then "blocks" else "synced"
  end.

Definition phase_of (anchor : option SnapshotAnchor) (mode : string) (local_height : option Z) : string :=
  let syncing := bool_decide (mode = "headers"%string) || bool_decide (mode = "blocks"%string) in
  match anchor with
  | Some a => if syncing then "syncing_post_anchor_delta"
              else if bool_decide (local_height = Some (anchor_height a)) then "snapshot_imported" else "synced"
  | None => if bool_decide (mode = "synced"%string) then "synced" else if syncing then "syncing_from_genesis" else "idle"
  end.

Definition height_of (node : NodeService) (hash : option str) : res (option Z) :=
  match hash with
  | None => Ok None
  | Some h => let* record := header_get_record (headers node) h in Ok (match record with None => None | Some r => record_height r end)
  end.

Definition sync_status : sync SyncStatus :=
  let! validated_tip := gets (fun m => chain_tip (sync_node m)) in
  let! best_header := of_node best_header_record in
  let! wanted := wanted_tip in
  let! missing := (match wanted with None => ret [] | Some tip => missing_blocks_for_tip (record_hash tip) end) in
  let! start_height := of_node (fun n => height_of n (head missing)) in
  let! end_height := of_node (fun n => height_of n (last missing)) in
  gets (fun m =>
    let local_height := tip_height <$> validated_tip in
    let mode := mode_of best_header (bool_decide (is_Some wanted)) missing (negb (bool_decide (_inflight_blocks m = []))) in
    mkStatus mode (phase_of (snapshot_anchor (sync_node m)) mode local_height) local_height (tip_hash <$> validated_tip)
      (match best_header with None => None | Some r => record_height r end) (record_hash <$> best_header) (len missing)
      (len (filter (fun hash => dict_get (_inflight_blocks m) hash = None) missing)) (py_sorted (_inflight_blocks m).*1)
      (py_sorted (_header_peer_heights m).*1) (py_sorted (filter (fun kv => 0 < kv.2) (_block_peer_counts m)).*1) (len (_block_peer_counts m))
      (filter (fun kv => 0 < kv.2) (sorted_by (fun kv => kv) (_stalled_peer_counts m))) (start_height, end_height)).

(** *** Synchronizing with a peer service *)

Definition build_block_locator (node : NodeService) (max_count : Z) : res (list str) := header_list_locator_hashes (headers node) max_count.

Definition handle_getheaders (node : NodeService) (locator_hashes : list str) (stop_hash : str) (limit : Z) : res (list BlockHeader) :=
  header_get_headers_after (headers node) locator_hashes stop_hash (Z.to_nat limit).

Definition handle_getblocks (node : NodeService) (locator_hashes : list str) (stop_hash : str) (limit : Z) : res (list str) :=
  let* found := header_get_headers_after (headers node) locator_hashes stop_hash (Z.to_nat limit) in mapM block_hash found.

(** The peer's chain grows by no header while it answers, so it has no more full
    batches than headers. *)
Fixpoint header_rounds (fuel : nat) (peer : NodeService) (locator_hashes : list str) (total : Z) : sync (HeaderIngestResult * Z) :=
  match fuel with
  | O => throw OutOfFuel "synchronize"
  | S n =>
      let! limit := gets max_headers in
      let! anchor := gets (fun m => snapshot_anchor (sync_node m)) in
      let! response := lift (handle_getheaders peer locator_hashes zero_hash limit) in
      do! lift (match anchor, response with
                | Some _, first :: _ => raise_if (negb (bool_decide (previous_block_hash first ∈ locator_hashes))) ValueError "snapshot anchor mismatch"
                | _, _ => Ok tt
                end) in
      let! ingest := ingest_headers response None in
      let total' := total + ingest_headers_received ingest in
      if bool_decide (is_Some (ingest_parent_unknown ingest)) || negb (needs_more_headers ingest) then ret (ingest, total')
      else
        match last response with
        | None => ret (ingest, total')
        | Some final => let! hash := lift (block_hash final) in header_rounds n peer [hash] total'
        end
  end.

(** What the fetched blocks did to the chain *)
Definition fetch_block (peer : NodeService) (acc : SyncResult) (hash : str) : sync SyncResult :=
  let! found := lift (get_block_by_hash peer hash) in
  match found with
  | None => throw ValueError "Peer did not provide required block"
  | Some block =>
      let! r := receive_block block in
      ret (mkSyncResult 0 (sync_blocks_fetched acc + accepted_blocks r) (ingest_activated_tip r) None (sync_reorged acc || ingest_reorged r)
        (if ingest_reorged r then ingest_reorg_depth r else sync_reorg_depth acc)
        (if ingest_reorged r then ingest_old_tip r else sync_old_tip acc)
        (if ingest_reorged r then ingest_new_tip r else sync_new_tip acc)
        (if ingest_reorged r then ingest_common_ancestor r else sync_common_ancestor acc)
        (if ingest_reorged r then ingest_readded_transaction_count r else sync_readded_transaction_count acc))
  end.

Definition synchronize (peer : NodeService) : sync SyncResult :=
  let! locator_hashes := of_node (fun n => build_block_locator n 32) in
  let! rounds := header_rounds (S (S (size (header_rows (headers peer))))) peer locator_hashes 0 in
  let! fetched := sfold (fetch_block peer) (no_activation None) (missing_block_hashes rounds.1) in
  let! activation := activate_best_chain_if_ready false in
  let from_activation {A} (f : SyncResult -> A) : A := f (if sync_reorged activation then activation else fetched) in
  ret (mkSyncResult rounds.2 (sync_blocks_fetched fetched)
    (match sync_activated_tip activation with Some hash => Some hash | None => sync_activated_tip fetched end)
    (ingest_parent_unknown rounds.1) (sync_reorged fetched || sync_reorged activation)
    (from_activation sync_reorg_depth) (from_activation sync_old_tip) (from_activation sync_new_tip)
    (from_activation sync_common_ancestor) (from_activation sync_readded_transaction_count)).
End sync.
