(* ===== verification/SyncFacts.v ===== *)
(** * What synchronization keeps

    The headers and blocks that peers present are arbitrary, except that no two of
    the headers in play have the same double SHA-256 and different parents.  Under
    that assumption every operation of the synchronization manager changes the
    node only through the steps of [ChainFacts], those of interrupted writes
    included, keeps the header tree well linked, and keeps the orphan pool
    bounded. *)

From S2P Require Import Prelude PyState PyOrder PyText Hashes Params Models Serialization Pow Crypto Json Headers Economics UtxoStore RewardStore Validation PqPolicy Mempool Service ServiceRuns Ledger ChainFacts Node NodeFacts Sync.

(** Every header in play is spelled as a decoder spells it, has a hash that is not
    the null hash, and shares it only with headers of the same parent. *)
Record sound_hashes (U : BlockHeader -> Prop) : Prop := {
  hashes_linked h1 h2 x : U h1 -> U h2 -> block_hash h1 = Ok x -> block_hash h2 = Ok x ->
    previous_block_hash h1 = previous_block_hash h2;
  hashes_not_null hdr : U hdr -> block_hash hdr ≠ Ok zero_hash;
  hashes_canonical hdr : U hdr -> canonical_header hdr = hdr;
}.

(** Parents come before their children. *)
Definition well_linked (rows : gmap str HeaderRow) : Prop :=
  exists rank : str -> nat, forall x row, rows !! x = Some row ->
    row_previous row = zero_hash \/ (is_Some (rows !! row_previous row) /\ (rank (row_previous row) < rank x)%nat).

Definition known (node : NodeService) (x : str) : Prop := is_Some (header_rows (headers node) !! x).

Record tables_ok (U : BlockHeader -> Prop) (node : NodeService) : Prop := {
  tables_rows x row : header_rows (headers node) !! x = Some row ->
    exists hdr, U hdr /\ block_hash hdr = Ok x /\ row_previous row = previous_block_hash hdr;
  tables_linked : well_linked (header_rows (headers node));
  tables_blocks x raw : block_rows (blocks node) !! x = Some raw ->
    known node x /\ exists block, serialize_block block = Ok raw /\ U (header block) /\ block_hash (header block) = Ok x;
}.

(** The tables are read through the parents of the headers only. *)
Definition same_parents (rows rows' : gmap str HeaderRow) : Prop := forall x, row_previous <$> rows' !! x = row_previous <$> rows !! x.

Lemma same_parents_Some rows rows' x row' : same_parents rows rows' -> rows' !! x = Some row' ->
  exists row, rows !! x = Some row /\ row_previous row = row_previous row'.
Proof. intros Hs Hr. specialize (Hs x). rewrite Hr in Hs. symmetry in Hs. apply fmap_Some in Hs as (row & ? & ?). eauto. Qed.

Lemma same_parents_known rows rows' x : same_parents rows rows' -> is_Some (rows' !! x) <-> is_Some (rows !! x).
Proof. intros Hs. specialize (Hs x). rewrite <- !(fmap_is_Some row_previous). by rewrite Hs. Qed.

Lemma well_linked_same rows rows' : same_parents rows rows' -> well_linked rows -> well_linked rows'.
Proof.
  intros Hs [rank Hr]. exists rank. intros x row' Hx. destruct (same_parents_Some _ _ _ _ Hs Hx) as (row & Hx' & <-).
  rewrite (same_parents_known _ _ _ Hs). by apply Hr.
Qed.

Lemma well_linked_insert rows x row :
  rows !! x = None -> row_previous row = zero_hash \/ is_Some (rows !! row_previous row) -> well_linked rows ->
  well_linked (<[x := row]> rows).
Proof.
  intros Hx Hp [rank Hr]. assert (Hold : forall y r, rows !! y = Some r -> y ≠ x) by (intros y r Hy ->; congruence).
  exists (fun y => if decide (y = x) then S (rank (row_previous row)) else rank y). intros y r Hy.
  destruct (decide (y = x)) as [->|Hne].
  - rewrite lookup_insert_eq in Hy. injection Hy as <-. destruct Hp as [?|[p Hp]]; [by left|]. right.
    pose proof (Hold _ _ Hp). rewrite lookup_insert_ne by done. rewrite decide_False by done. eauto.
  - rewrite lookup_insert_ne in Hy by done. destruct (Hr y r Hy) as [?|[[p Hpr] Hlt]]; [by left|]. right.
    pose proof (Hold _ _ Hpr). rewrite lookup_insert_ne, decide_False by done. eauto.
Qed.

Section tables.
Variable U : BlockHeader -> Prop.
Hypothesis HU : sound_hashes U.

Lemma stored_block_in_play node x block :
  tables_ok U node -> block_get (blocks node) x = Ok (Some block) -> U (header block) /\ block_hash (header block) = Ok x /\ known node x.
Proof.
  intros Ht E. unfold block_get in E. destruct (block_rows (blocks node) !! x) as [raw|] eqn:Er; [|discriminate].
  destruct (tables_blocks U node Ht x raw Er) as (Hk & b0 & Hs & Hb & Hh).
  pose proof (decodes_block b0 raw Hs [] []) as D. simpl in D. rewrite app_nil_r in D. change (len (@nil byte)) with 0 in D.
  rewrite D in E. cbn [rbind] in E. destruct (negb (0 + len raw =? len raw)); [discriminate|]. injection E as <-.
  unfold canonical_block. cbn [header]. by rewrite (hashes_canonical U HU).
Qed.

Lemma tables_admissible node hdr : tables_ok U node -> U hdr -> admissible (headers node) hdr.
Proof.
  intros Ht Hh x Hx. split; [intros ->; by apply (hashes_not_null U HU hdr)|]. intros row Hr.
  destruct (tables_rows U node Ht x row Hr) as (h2 & H2 & Hb2 & ->). by apply (hashes_linked U HU h2 hdr x).
Qed.

Lemma tables_same node node' :
  tables_ok U node -> same_parents (header_rows (headers node)) (header_rows (headers node')) ->
  (forall x raw, block_rows (blocks node') !! x = Some raw -> block_rows (blocks node) !! x = Some raw \/
    exists block, block_get (blocks node) x = Ok (Some block) /\ serialize_block block = Ok raw) -> tables_ok U node'.
Proof.
  intros Ht Hs Hb. split.
  - intros x row' Hx. destruct (same_parents_Some _ _ _ _ Hs Hx) as (row & Hr & <-). by apply (tables_rows U node Ht).
  - exact (well_linked_same _ _ Hs (tables_linked U node Ht)).
  - intros x raw Hx. unfold known. rewrite (same_parents_known _ _ x Hs). destruct (Hb x raw Hx) as [Hold|(block & Hg & Hser)].
    + by apply (tables_blocks U node Ht).
    + destruct (stored_block_in_play node x block Ht Hg) as (? & ? & ?). eauto.
Qed.

Lemma tables_header node hdr h work main hdb x :
  tables_ok U node -> U hdr -> block_hash hdr = Ok x ->
  previous_block_hash hdr = zero_hash \/ known node (previous_block_hash hdr) ->
  header_put (headers node) hdr h work main = Ok hdb -> tables_ok U (with_headers node hdb) /\ known (with_headers node hdb) x /\
    (forall y, known node y -> known (with_headers node hdb) y).
Proof.
  intros Ht Hh Hx Hp E. unfold header_put in E. rewrite Hx in E. cbn [rbind] in E. apply rbind_Ok in E as (raw & _ & E).
  apply rbind_Ok in E as (hc & _ & E). injection E as <-. unfold known in *. cbn [with_headers headers header_rows].
  set (row := mkRow _ _ _ _ _).
  assert (Hmono : forall y, is_Some (header_rows (headers node) !! y) -> is_Some (<[x := row]> (header_rows (headers node)) !! y)).
  { intros y Hy. destruct (decide (y = x)) as [->|]; [by rewrite lookup_insert_eq|by rewrite lookup_insert_ne]. }
  split; [|split; [by rewrite lookup_insert_eq|exact Hmono]]. split; cbn [with_headers headers header_rows blocks].
  - intros y row' Hy. destruct (decide (y = x)) as [->|Hne].
    + rewrite lookup_insert_eq in Hy. injection Hy as <-. eauto.
    + rewrite lookup_insert_ne in Hy by done. by apply (tables_rows U node Ht).
  - destruct (header_rows (headers node) !! x) as [old|] eqn:Eo; [|apply well_linked_insert; [done|exact Hp|apply Ht]].
    eapply well_linked_same; [|exact (tables_linked U node Ht)]. intros y. destruct (decide (y = x)) as [->|Hne]; [|by rewrite lookup_insert_ne].
    rewrite lookup_insert_eq, Eo. simpl. destruct (tables_rows U node Ht x old Eo) as (h2 & H2 & Hb2 & ->).
    f_equal. by apply (hashes_linked U HU _ _ x).
  - intros y raw' Hy. destruct (tables_blocks U node Ht y raw' Hy) as (Hk & Hb). split; [by apply Hmono|done].
Qed.

Lemma tables_block node block bdb x :
  tables_ok U node -> U (header block) -> block_hash (header block) = Ok x -> known node x ->
  block_put (blocks node) block = Ok bdb -> tables_ok U (with_blocks node bdb).
Proof.
  intros Ht Hu Hx Hk E. unfold block_put in E. rewrite Hx in E. cbn [rbind] in E. apply rbind_Ok in E as (raw & Hraw & E).
  injection E as <-. split; [apply Ht|apply Ht|]. cbn [with_blocks blocks block_rows headers]. intros y raw' Hy. change (known node y /\ exists b, serialize_block b = Ok raw' /\ U (header b) /\ block_hash (header b) = Ok y).
  destruct (decide (y = x)) as [->|Hne].
  - rewrite lookup_insert_eq in Hy. injection Hy as <-. eauto.
  - rewrite lookup_insert_ne in Hy by done. by apply (tables_blocks U node Ht).
Qed.
End tables.

(** ** The operations of the node *)

(** From what is known of the object to a part of it *)
Ltac weaken := solve [intros; destruct_and?; auto].

Lemma update_row_same_parents rows hash f : (forall row, row_previous (f row) = row_previous row) -> same_parents rows (update_row rows hash f).
Proof. intros Hf x. by apply update_row_previous. Qed.

Lemma same_parents_trans r1 r2 r3 : same_parents r1 r2 -> same_parents r2 r3 -> same_parents r1 r3.
Proof. intros S1 S2 x. by rewrite S2, S1. Qed.

Lemma set_main_same_parents db path db' : header_set_main_chain db path = Ok db' -> same_parents (header_rows db) (header_rows db').
Proof.
  intros E x. unfold header_set_main_chain in E. apply rbind_Ok in E as (rows & E & E'). injection E' as <-. cbn [header_rows].
  revert E. apply (foldM_inv (fun r => row_previous <$> r !! x = row_previous <$> header_rows db !! x)).
  - intros r [h hash] r' _ Hr E. apply rbind_Ok in E as (h' & _ & E). injection E as <-. by rewrite update_row_previous.
  - rewrite lookup_fmap. by destruct (header_rows db !! x).
Qed.

Section node.
Context `{PyRepr, CryptoBackend}.

Variable U : BlockHeader -> Prop.
Hypothesis HU : sound_hashes U.

(** The tables are in order and what was known is known. *)
Definition kept (s0 s : NodeService) : Prop := tables_ok U s /\ forall y, known s0 y -> known s y.
Abbreviation keeps_tables s0 op := (keeps (kept s0) (fun _ => True) op).

(** Writes of the other tables *)
Lemma tables_other s s' : headers s' = headers s -> blocks s' = blocks s -> tables_ok U s -> tables_ok U s'.
Proof.
  intros Eh Eb [Hr Hl Hb]. split; unfold known in *; rewrite ?Eh, ?Eb; done.
Qed.

Lemma kept_other s0 s s' : headers s' = headers s -> blocks s' = blocks s -> kept s0 s -> kept s0 s'.
Proof. intros Eh Eb [Ht Hk]. split; [by eapply tables_other|]. unfold known in *. by rewrite Eh. Qed.

Lemma keeps_chainstate s0 m f : performs Service.chainstate with_chainstate m f -> keeps_tables s0 m.
Proof. intros Hm. eapply keeps_performed; [exact Hm|]. intros s d. by apply kept_other. Qed.
Lemma keeps_registry s0 m f : performs node_registry with_registry m f -> keeps_tables s0 m.
Proof. intros Hm. eapply keeps_performed; [exact Hm|]. intros s d. by apply kept_other. Qed.
Lemma keeps_rewards s0 m f : performs rewards with_rewards m f -> keeps_tables s0 m.
Proof. intros Hm. eapply keeps_performed; [exact Hm|]. intros s d. by apply kept_other. Qed.
Lemma keeps_attestations s0 m f : performs reward_attestations with_attestations m f -> keeps_tables s0 m.
Proof. intros Hm. eapply keeps_performed; [exact Hm|]. intros s d. by apply kept_other. Qed.
Lemma keeps_settlements s0 m f : performs reward_settlements with_settlements m f -> keeps_tables s0 m.
Proof. intros Hm. eapply keeps_performed; [exact Hm|]. intros s d. by apply kept_other. Qed.

(** Updates of the header table that keep the parents *)
Lemma keeps_headers s0 f : (forall db db', f db = Ok db' -> same_parents (header_rows db) (header_rows db')) -> keeps_tables s0 (Service.on_headers f).
Proof.
  intros Hf. apply keeps_update; [|done]. intros s a s' [Ht Hk] E. apply rbind_Ok in E as (db & E & E'). injection E' as _ <-. apply Hf in E. split.
  - eapply (tables_same U HU s); [exact Ht|exact E|]. intros z raw Hz. by left.
  - intros y Hy. unfold known. cbn [with_headers headers]. rewrite (same_parents_known _ _ y E). by apply Hk.
Qed.

Lemma set_tip_same_parents db hash h db' : header_set_tip db hash h = Ok db' -> same_parents (header_rows db) (header_rows db').
Proof.
  unfold header_set_tip. intros E. apply rbind_Ok in E as (h' & _ & E). injection E as <-. cbn [header_rows]. by apply update_row_same_parents.
Qed.

(** The block and its header, when the parent is known *)
Lemma keeps_put_header s0 hdr hash h work :
  U hdr -> block_hash hdr = Ok hash ->
  triple (fun s => kept s0 s /\ (previous_block_hash hdr = zero_hash \/ known s (previous_block_hash hdr)))
    (Service.on_headers (fun db => header_put db hdr h work true)) (fun _ s => kept s0 s /\ known s hash) (fun _ s => kept s0 s /\ True).
Proof.
  intros Hu Hh. apply triple_update; [|weaken]. intros s a s' [[Ht Hk] Hp] E. apply rbind_Ok in E as (db & E & E'). injection E' as _ <-.
  destruct (tables_header U HU _ _ _ _ _ _ _ Ht Hu Hh Hp E) as (Ht' & Hx & Hm). split; [split; [done|auto]|done].
Qed.

Lemma keeps_put_block s0 block hash :
  U (header block) -> block_hash (header block) = Ok hash ->
  triple (fun s => kept s0 s /\ known s hash) (Service.on_blocks (fun db => block_put db block)) (fun _ => kept s0) (fun _ s => kept s0 s /\ True).
Proof.
  intros Hu Hh. apply triple_update; [|weaken]. intros s a s' [[Ht Hk] Hx] E. apply rbind_Ok in E as (db & E & E'). injection E' as _ <-.
  split; [by eapply tables_block|exact Hk].
Qed.

Lemma keeps_write_block s0 block work :
  U (header block) ->
  triple (fun s => kept s0 s /\ (previous_block_hash (header block) = zero_hash \/ known s (previous_block_hash (header block))))
    (write_block block work) (fun _ => kept s0) (fun _ s => kept s0 s /\ True).
Proof.
  intros Hu. unfold write_block. eapply triple_bind; [apply triple_gets|]. intros h.
  apply (triple_pre (fun s => kept s0 s /\ (previous_block_hash (header block) = zero_hash \/ known s (previous_block_hash (header block))))); [weaken|].
  apply triple_call; [weaken|]. intros w _. destruct (block_hash (header block)) as [hash|e] eqn:Hh.
  - eapply triple_bind; [by apply keeps_put_header|]. intros ?. eapply triple_bind; [by apply keeps_put_block|]. intros ?.
    apply keeps_bind; [eapply keeps_chainstate, write_outputs_performs|]. intros _.
    apply keeps_bind; [eapply keeps_registry, write_registry_performs|]. intros _.
    apply keeps_bind; [eapply keeps_rewards, write_rewards_performs|]. intros _.
    apply keeps_bind; [by apply keeps_lift|]. intros hash'. apply keeps_headers. intros db db'. apply set_tip_same_parents.
  - eapply (triple_bind _ _ _ (fun _ _ => False)); [|by intros a s].
    apply triple_update; [|weaken]. intros s a s' _ E. unfold header_put in E. rewrite Hh in E. discriminate.
Qed.

(** A checked block has its parent. *)
Lemma checked_parent s block work fees : checked_block s block = Ok (work, fees) ->
  previous_block_hash (header block) = zero_hash \/ known s (previous_block_hash (header block)).
Proof.
  intros Hc. apply rbind_Ok in Hc as (w & _ & Hc). apply rbind_Ok in Hc as (context & Hctx & Hc). apply rbind_Ok in Hc as (fees' & Hv & _).
  apply tip_context_fields in Hctx as (_ & _ & _ & _ & Hprev). rewrite (validated_previous _ _ _ _ Hv Hprev).
  unfold chain_tip, header_get_tip. destruct (chain_tip_hash (headers s)) as [t|]; [|by left].
  destruct (header_rows (headers s) !! t) as [row|] eqn:Er; [|by left]. destruct (row_height row); [|by left]. right. unfold known.
  simpl. by rewrite Er.
Qed.

Lemma keeps_apply_block s0 block : U (header block) -> keeps_tables s0 (apply_block block).
Proof.
  intros Hu. unfold apply_block. apply triple_read; [done|]. intros [work fees].
  apply (triple_pre (fun s => kept s0 s /\ (previous_block_hash (header block) = zero_hash \/ known s (previous_block_hash (header block))))).
  { intros s [Hk Hc]. split; [done|]. by eapply checked_parent. }
  eapply triple_bind; [by apply keeps_write_block|]. intros ?. apply (keeps_ret (kept s0)).
Qed.

Lemma keeps_activate_branch s0 hash tip : keeps_tables s0 (activate_branch hash tip).
Proof.
  unfold activate_branch. apply keeps_bind; [by apply keeps_asks|]. intros [[[result path] r] ts]. apply keeps_bind; [|intros _; apply keeps_ret].
  unfold commit_replay. apply keeps_bind; [eapply keeps_chainstate, chainstate_write|]. intros _.
  apply keeps_bind; [eapply keeps_registry, registry_write|]. intros _. apply keeps_bind; [eapply keeps_attestations, attestations_write|]. intros _.
  apply keeps_bind; [eapply keeps_settlements, settlements_write|]. intros _. apply keeps_headers. intros db db'. apply set_main_same_parents.
Qed.

Lemma keeps_activate_chain s0 hash : keeps_tables s0 (activate_chain hash).
Proof.
  pose proof (keeps_activate_branch s0 hash) as Hbranch. unfold activate_chain. apply keeps_bind; [apply keeps_gets|]. intros tip.
  apply keeps_bind; [by apply keeps_asks|]. intros candidate. cbv zeta. case_bool_decide; [apply keeps_ret|].
  destruct tip as [tip|]; [|done]. destruct candidate as [record|]; [|done]. case_bool_decide; [|done].
  apply triple_read; [done|]. intros [block|]; [|by intros s [Hk _]].
  intros s [Hk Hg]. destruct (stored_block_in_play U HU s hash block (proj1 Hk) Hg) as (Hu & _).
  refine (keeps_bind (kept s0) _ _ _ (keeps_apply_block s0 block Hu) _ s Hk). intros fees. apply keeps_ret.
Qed.

(** What either operation leaves, whether it returns or raises *)
Lemma apply_block_keeps_tables s block : tables_ok U s -> U (header block) -> kept s (apply_block block s).2.
Proof.
  intros Ht Hu. pose proof (keeps_apply_block s block Hu s (conj Ht (fun y Hy => Hy))) as Hk.
  destruct (apply_block block s) as [[fees|e] s']; [done|by destruct Hk].
Qed.

Lemma activate_chain_keeps_tables s hash : tables_ok U s -> kept s (activate_chain hash s).2.
Proof.
  intros Ht. pose proof (keeps_activate_chain s hash s (conj Ht (fun y Hy => Hy))) as Hk.
  destruct (activate_chain hash s) as [[fees|e] s']; [done|by destruct Hk].
Qed.
End node.

(** ** The invariant of the manager *)

Section manager.
Context `{PyRepr, CryptoBackend}.
Variable params : ConsensusParams.
Variable net : str.
Variable clock : nat -> Z.
Variable U : BlockHeader -> Prop.
Hypothesis HU : sound_hashes U.

(** Each waiting block is in play and filed under its parent and its hash. *)
Record orphans_ok (orphans : list (str * list (str * Block))) : Prop := {
  orphan_keys : NoDup orphans.*1;
  orphan_bound : len orphans <= _MAX_ORPHAN_BLOCKS;
  orphan_entries parent_hash bucket hash block : (parent_hash, bucket) ∈ orphans -> (hash, block) ∈ bucket ->
    U (header block) /\ previous_block_hash (header block) = parent_hash /\ block_hash (header block) = Ok hash;
}.

(** At most [c] buckets wait, and the headers [K] are stored. *)
Record sync_inv (c : nat) (K : list str) (m : SyncManager) : Prop := {
  inv_reached : rtc any_step (new_service params net) (sync_node m);
  inv_tables : tables_ok U (sync_node m);
  inv_orphans : orphans_ok (_orphan_blocks m);
  inv_count : (length (_orphan_blocks m) <= c)%nat;
  inv_known : Forall (known (sync_node m)) K;
}.

Abbreviation keeps_inv c K m := (keeps (sync_inv c K) (fun _ => True) m).

Lemma inv_frame c K m m' :
  sync_node m' = sync_node m -> _orphan_blocks m' = _orphan_blocks m -> sync_inv c K m -> sync_inv c K m'.
Proof. intros En Eo [Hr Ht Ho Hc Hk]. split; rewrite ?En, ?Eo; done. Qed.

Lemma inv_node c K K' m n :
  sync_inv c K m -> rtc any_step (new_service params net) n -> tables_ok U n -> Forall (known n) K' -> sync_inv c K' (set_node n m).
Proof. intros [_ _ Ho Hc _] Hr Ht Hk. by split. Qed.

Lemma known_app n n' K : (forall y, known n y -> known n' y) -> Forall (known n) K -> Forall (known n') K.
Proof. intros Hm Hk. eapply Forall_impl; [exact Hk|]. exact Hm. Qed.

Lemma keeps_of_node {A} c K (f : NodeService -> res A) : keeps_inv c K (of_node f).
Proof. by apply keeps_asks. Qed.
Lemma keeps_frame c K f :
  (forall m, sync_node (f m) = sync_node m /\ _orphan_blocks (f m) = _orphan_blocks m) -> keeps_inv c K (modify f).
Proof. intros Hf. apply keeps_modify. intros m. apply inv_frame; apply Hf. Qed.

#[local] Hint Resolve keeps_of_node : keeps.
#[local] Hint Extern 1 (keeps _ _ (modify _)) => (apply keeps_frame; intros ?; split; reflexivity) : keeps.

Lemma keeps_missing c K hash : keeps_inv c K (missing_blocks_for_tip hash).
Proof. unfold missing_blocks_for_tip. keeps. Qed.
#[local] Hint Resolve keeps_missing : keeps.

Lemma keeps_wanted c K : keeps_inv c K wanted_tip.
Proof. unfold wanted_tip. keeps. Qed.
#[local] Hint Resolve keeps_wanted : keeps.

Lemma keeps_best_ready c K : keeps_inv c K best_ready_tip.
Proof. unfold best_ready_tip. keeps. Qed.

Lemma keeps_refuse c K current hash again e : keeps_inv c K (refuse_branch current hash again e).
Proof. unfold refuse_branch. keeps. Qed.
#[local] Hint Resolve keeps_best_ready keeps_refuse : keeps.

Lemma get_record_known node hash r : header_get_record (headers node) hash = Ok (Some r) -> known node hash /\ record_hash r = hash.
Proof.
  unfold header_get_record, known. destruct (header_rows (headers node) !! hash); [|discriminate]. intros E.
  apply rbind_Ok in E as (? & _ & E). apply rbind_Ok in E as (? & _ & E). injection E as <-. by split.
Qed.

Lemma known_nonempty node hash : tables_ok U node -> known node hash -> hash ≠ [].
Proof. intros Ht [row Hr]. destruct (tables_rows U node Ht hash row Hr) as (hdr & _ & Hh & _). by eapply block_hash_nonempty. Qed.

(** A change of the chain by the node, whether it returns or raises *)
Lemma changed_inv c K m n (s : NodeService) :
  sync_inv c K m -> chain_effect (manager_node m) n s -> outcome (sync_node m) s -> kept U (sync_node m) s ->
  sync_inv c K (set_manager_node n m).
Proof.
  intros Hi He Ho [Ht' Hmono]. destruct He as [E|E]; [eapply inv_frame; [exact E|done|exact Hi]|].
  pose proof Hi as [Hr Ht Hor Hc Hk]. split; cbn [set_manager_node _orphan_blocks]; unfold sync_node; cbn [set_manager_node manager_node]; rewrite ?E; try done.
  - by eapply outcome_reached.
  - by eapply known_app.
Qed.

Lemma activate_inv c K m hash r n :
  sync_inv c (hash :: K) m -> node_activate_chain clock hash (manager_node m) = (r, n) -> sync_inv c K (set_manager_node n m).
Proof.
  intros Hi E. pose proof Hi as [Hr Ht Ho Hc [Hkh Hk]%Forall_cons].
  apply (changed_inv c K m n (activate_chain hash (sync_node m)).2); [by split|by eapply node_activate_effect| |by apply activate_chain_keeps_tables].
  apply activate_outcome; [exact (known_nonempty _ _ Ht Hkh)|].
  intros block Hb. destruct (stored_block_in_play U HU _ _ _ Ht Hb) as [Hu _]. exact (tables_admissible U HU _ _ Ht Hu).
Qed.

Lemma keeps_activate c K again : keeps_inv c K (activate_best_chain_if_ready clock again).
Proof.
  unfold activate_best_chain_if_ready. keeps_step; [keeps|]. keeps_step; [keeps|]. keeps_step; [|keeps].
  keeps_step; [keeps|]. keeps_step; [|keeps]. keeps_step; [keeps|]. keeps_step; [keeps|].
  eapply triple_bind; [apply (triple_asks (sync_inv c K)); by intros|]. intros [r|]; [|intros m [Hm _]; by apply keeps_ret].
  apply (triple_pre (sync_inv c (record_hash r :: K))).
  { intros m [Hm E]. apply get_record_known in E as [Hk E]. rewrite E. destruct Hm as [? ? ? ? ?]. split; try done. by constructor. }
  assert (Hdrop : forall m, sync_inv c (record_hash r :: K) m -> sync_inv c K m).
  { intros m [? ? ? ? [_ ?]%Forall_cons]. by split. }
  eapply triple_bind; [apply (triple_asks _ _ (fun _ m => sync_inv c K m /\ True)); auto|]. intros needed.
  apply (triple_pre (sync_inv c (record_hash r :: K))); [by intros m [Hm _]|].
  destruct (negb needed); [intros m Hm; by apply Hdrop|].
  eapply triple_bind; [apply (triple_asks _ _ (fun _ m => sync_inv c K m /\ True)); auto|]. intros reorg.
  apply (triple_pre (sync_inv c (record_hash r :: K))); [by intros m [Hm _]|].
  eapply (triple_attempt _ _ _ _ _ _ (fun _ m => sync_inv c K m /\ True)).
  - eapply triple_bind; [|intros ?; apply (keeps_ret (sync_inv c K))].
    intros m Hm. unfold call_node. destruct (node_activate_chain clock (record_hash r) (manager_node m)) as [[activation|e] n] eqn:E;
      [by eapply activate_inv|split; [by eapply activate_inv|done]].
  - intros e _ m [Hm _]. by apply keeps_refuse.
  - auto.
Qed.
#[local] Hint Resolve keeps_activate : keeps.

(** ** Headers *)

Lemma parent_stored node hdr parent_record :
  parent_of node hdr = Ok parent_record -> parent_is_unknown hdr parent_record = false ->
  previous_block_hash hdr = zero_hash \/ known node (previous_block_hash hdr).
Proof.
  unfold parent_of, parent_is_unknown. case_bool_decide; [by left|]. simpl. intros E. case_bool_decide as Hs; [|discriminate].
  intros _. destruct Hs as [r ->]. right. by apply get_record_known in E as [? _].
Qed.

Lemma no_record_no_row node hash : header_get_record (headers node) hash = Ok None -> header_rows (headers node) !! hash = None.
Proof.
  unfold header_get_record. destruct (header_rows (headers node) !! hash); [|done]. intros E.
  apply rbind_Ok in E as (? & _ & E). by apply rbind_Ok in E as (? & _ & E).
Qed.

Lemma store_header_inv c K m hdr hash parent_record h n :
  sync_inv c K m -> U hdr -> block_hash hdr = Ok hash -> header_get_record (headers (sync_node m)) hash = Ok None ->
  parent_of (sync_node m) hdr = Ok parent_record -> parent_is_unknown hdr parent_record = false ->
  store_header (sync_node m) hdr parent_record h = Ok n -> sync_inv c (hash :: K) (set_node n m).
Proof.
  intros Hi Hu Hh Hnew Hp Hk E. pose proof Hi as [Hr Ht _ _ Hkn]. unfold store_header in E. apply rbind_Ok in E as (work & _ & E).
  apply rbind_Ok in E as (hdb & Hput & E). injection E as <-. change (sync_inv c (hash :: K) (set_node (with_headers (sync_node m) hdb) m)).
  destruct (tables_header U HU _ _ _ _ _ _ _ Ht Hu Hh (parent_stored _ _ _ Hp Hk) Hput) as (Ht' & Hx & Hmono).
  apply (inv_node c K); [done| |done|constructor; [done|by eapply known_app]].
  eapply rtc_r; [exact Hr|]. left. eapply step_header; [exact Hh| |exact Hnew|exact Hput]. intros ->. by apply (hashes_not_null U HU hdr Hu).
Qed.

Lemma inv_drop c K x m : sync_inv c (x :: K) m -> sync_inv c K m.
Proof. intros [? ? ? ? [_ ?]%Forall_cons]. by split. Qed.

Lemma keeps_ingest_loop c K st batch : Forall U batch -> keeps_inv c K (ingest_loop st batch).
Proof.
  intros Hb. revert st. induction Hb as [|hdr batch Hu _ IH]; intros st; cbn [ingest_loop]; [keeps|].
  apply triple_call; [auto|]. intros hash Hh. apply triple_read; [auto|]. intros [r|].
  { apply (triple_pre (sync_inv c K)); [weaken|]. apply IH. }
  apply triple_call; [weaken|]. intros _ _. apply triple_read; [weaken|]. intros parent_record.
  destruct (parent_is_unknown hdr parent_record) eqn:Hk.
  { apply (triple_pre (sync_inv c K)); [weaken|]. apply keeps_ret. }
  apply triple_call; [weaken|]. intros h _.
  apply triple_read; [weaken|]. intros ?.
  eapply triple_bind; [|intros ?; apply IH]. apply triple_update; [|weaken].
  intros m r m' [[[Hm Hnew] Hp] _] E. apply rbind_Ok in E as ([u' n] & E & E'). injection E' as <- <-.
  apply rbind_Ok in E as (n' & E & E'). injection E' as <- <-. by eapply inv_drop, store_header_inv.
Qed.
#[local] Hint Resolve keeps_ingest_loop : keeps.

Lemma keeps_ingest_headers c K batch peer_id : Forall U batch -> keeps_inv c K (ingest_headers batch peer_id).
Proof. intros Hb. unfold ingest_headers, _clear_chain_progress_caches. keeps. Qed.

(** ** Blocks *)

Lemma orphans_pop orphans k : orphans_ok orphans -> orphans_ok (dict_pop orphans k).
Proof.
  intros [Hn Hb He]. pose proof (dict_pop_length orphans k). split; [by apply dict_pop_NoDup|unfold len in *; lia|].
  intros p bucket hash block [Hin _]%dict_pop_elem. by eapply He.
Qed.

Lemma remember_ok orphans hash block :
  orphans_ok orphans -> U (header block) -> block_hash (header block) = Ok hash ->
  orphans_ok (remember orphans (previous_block_hash (header block)) hash block).
Proof.
  intros [Hn Hb He] Hu Hh. unfold remember. set (p := previous_block_hash (header block)). set (bucket := dict_set _ _ _).
  set (moved := dict_pop orphans p ++ [(p, bucket)]).
  assert (Hnm : NoDup moved.*1).
  { unfold moved. rewrite fmap_app. apply NoDup_app. split; [by apply dict_pop_NoDup|]. split; [|apply NoDup_singleton].
    intros x Hx ->%list_elem_of_singleton. by apply dict_pop_absent in Hx. }
  split.
  - eapply sublist_NoDup; [exact Hnm|]. apply fmap_sublist, sublist_drop.
  - unfold len, _MAX_ORPHAN_BLOCKS in *. rewrite length_drop. lia.
  - intros q b x bl Hin Hx. apply (subseteq_drop _ moved) in Hin.
    unfold moved in Hin. apply elem_of_app in Hin as [Hin|Hin].
    + apply dict_pop_elem in Hin as [Hin _]. by eapply He.
    + apply list_elem_of_singleton in Hin. injection Hin as -> ->. apply dict_set_elem in Hx as [[= -> ->]|Hx]; [done|].
      destruct (dict_get orphans p) as [old|] eqn:Eo; [|by apply not_elem_of_nil in Hx]. apply dict_get_elem in Eo. by eapply He.
Qed.

Lemma store_block_inv c K m block hash n :
  sync_inv c K m -> U (header block) -> block_hash (header block) = Ok hash -> hash ∈ K -> block_get (blocks (sync_node m)) hash = Ok None ->
  store_block (sync_node m) block = Ok n -> sync_inv c K (set_node n m).
Proof.
  intros Hi Hu Hh Hin Hnew E. pose proof Hi as [Hr Ht _ _ Hk]. unfold store_block in E. apply rbind_Ok in E as (bdb & Hput & E).
  injection E as <-. change (sync_inv c K (set_node (with_blocks (sync_node m) bdb) m)).
  apply (inv_node c K); [done| |eapply tables_block; [exact Ht|done..| |done]; by eapply Forall_forall|exact Hk].
  eapply rtc_r; [exact Hr|]. left. by eapply step_block.
Qed.

(** The children taken from the pool are in play and have the parent's hash. *)
Lemma pending_children m c K hash child_hash child :
  sync_inv c K m -> dict_get (default [] (dict_get (_orphan_blocks m) hash)) child_hash = Some child ->
  U (header child) /\ previous_block_hash (header child) = hash.
Proof.
  intros Hi Hg. destruct (dict_get (_orphan_blocks m) hash) as [bucket|] eqn:Eb; [|discriminate]. simpl in Hg.
  apply dict_get_elem in Eb, Hg. destruct (orphan_entries _ (inv_orphans _ _ _ Hi) _ _ _ _ Eb Hg) as (? & ? & _). done.
Qed.

Abbreviation unharmed c K := (fun (_ : exn) (m : SyncManager) => sync_inv c K m /\ True).

Lemma inv_weaken c c' K m : (c <= c')%nat -> sync_inv c K m -> sync_inv c' K m.
Proof. intros Hc [? ? ? ? ?]. split; try done. lia. Qed.

(** Accepting the children of a stored block needs its own call only on pools
    with fewer buckets. *)
Lemma accept_related r1 r2 c K hash :
  (forall c' child, (c' < c)%nat -> U (header child) -> previous_block_hash (header child) = hash ->
    related (sync_inv c' K) (r1 child) (r2 child) (fun _ => sync_inv c' K) (unharmed c' K)) ->
  related (sync_inv c K) (_accept_pending_children r1 hash) (_accept_pending_children r2 hash) (fun _ => sync_inv c K) (unharmed c K).
Proof.
  intros Hrec. eapply related_bind; [apply related_refl, triple_gets|]. intros pending.
  destruct (decide (pending = [])) as [->|Hne].
  { cbn [fmap list_fmap]. apply related_refl. eapply triple_bind; [|intros ?; apply (keeps_ret (sync_inv c K))].
    apply triple_modify. intros m [[? ? ? ? ?] _]. pose proof (dict_pop_length (_orphan_blocks m) hash).
    split; try done; cbn [set_orphans _orphan_blocks]; [by apply orphans_pop|lia]. }
  set (entries_ok := forall child_hash child, dict_get pending child_hash = Some child ->
    U (header child) /\ previous_block_hash (header child) = hash).
  eapply (related_bind _ _ _ _ _ (fun _ m => sync_inv (pred c) K m /\ entries_ok /\ (0 < c)%nat)).
  { apply related_refl, triple_modify. intros m [Hm ->]. split; [|split].
    - destruct (dict_get (_orphan_blocks m) hash) as [bucket|] eqn:Eb; [|done]. apply dict_pop_shorter in Eb.
      destruct Hm as [? ? ? ? ?]. split; try done; cbn [set_orphans _orphan_blocks]; [by apply orphans_pop|lia].
    - intros child_hash child. exact (pending_children m c K hash child_hash child Hm).
    - destruct (dict_get (_orphan_blocks m) hash) as [bucket|] eqn:Eb; [|done]. apply dict_pop_shorter in Eb.
      pose proof (inv_count _ _ _ Hm). lia. }
  intros _. apply (related_pure (entries_ok /\ (0 < c)%nat)); [weaken|]. intros [He Hc].
  apply (related_pre (sync_inv (pred c) K)); [weaken|].
  eapply (related_consequence _ _ _ (fun _ => sync_inv (pred c) K) _ (unharmed (pred c) K)).
  { intros _ m. apply inv_weaken. lia. }
  { intros e m [Hm _]. split; [|done]. eapply inv_weaken; [|exact Hm]. lia. }
  apply related_fold. intros accepted child_hash _. apply related_call; [auto|]. intros child Ec.
  destruct (dict_get pending child_hash) as [b|] eqn:Eb; [|discriminate]. injection Ec as ->.
  destruct (He child_hash child Eb) as [Hu Hp]. eapply related_bind; [apply Hrec; [lia|done|done]|].
  intros r. apply related_refl, (keeps_ret (sync_inv (pred c) K)).
Qed.

(** [receive_body] under the same assumption on the calls of itself *)
Definition fits (c : nat) (K : list str) (block : Block) (m : SyncManager) : Prop :=
  sync_inv c K m /\ (previous_block_hash (header block) = zero_hash \/ previous_block_hash (header block) ∈ K \/
    (length (_orphan_blocks m) < c)%nat).

Lemma fits_frame c K block m m' :
  sync_node m' = sync_node m -> _orphan_blocks m' = _orphan_blocks m -> fits c K block m -> fits c K block m'.
Proof. intros En Eo [Hi Hf]. split; [by eapply inv_frame|by rewrite Eo]. Qed.

(** A block whose parent is unknown joins the pool. *)
Lemma remember_inv c K block hash parent_record m :
  fits c K block m -> U (header block) -> block_hash (header block) = Ok hash ->
  parent_of (sync_node m) (header block) = Ok parent_record -> parent_is_unknown (header block) parent_record = true ->
  sync_inv c K (set_orphans (remember (_orphan_blocks m) (previous_block_hash (header block)) hash block) m).
Proof.
  intros [Hi Hf] Hu Hh Hp Hk. pose proof Hi as [Hr Ht Ho Hc Hkn]. split; try done; cbn [set_orphans _orphan_blocks]; [by apply remember_ok|].
  unfold parent_is_unknown in Hk. apply andb_prop in Hk as [Hz Hs]. apply negb_true_iff, bool_decide_eq_false in Hz, Hs.
  destruct Hf as [?|[Hin|Hlt]]; [done| |].
  - exfalso. unfold parent_of in Hp. rewrite bool_decide_eq_false_2 in Hp by done. rewrite Forall_forall in Hkn.
    destruct (Hkn _ Hin) as [row Hrow]. destruct parent_record; [by apply Hs|]. apply no_record_no_row in Hp. congruence.
  - unfold remember. rewrite length_drop, length_app. simpl. pose proof (dict_pop_length (_orphan_blocks m) (previous_block_hash (header block))). lia.
Qed.

(** After the header of a new block is there, the block is stored. *)
Lemma store_inv c K block hash parent_record :
  U (header block) -> block_hash (header block) = Ok hash -> parent_is_unknown (header block) parent_record = false ->
  forall header_record,
  triple (fun m => (sync_inv c K m /\ block_get (blocks (sync_node m)) hash = Ok None /\ parent_of (sync_node m) (header block) = Ok parent_record) /\
      header_get_record (headers (sync_node m)) hash = Ok header_record)
    (match header_record with
     | Some _ => ret tt
     | None => let! h := lift (child_height parent_record) in
               write_node (fun n => let* n' := store_header n (header block) parent_record h in Ok (tt, n'))
     end) (fun _ m => sync_inv c (hash :: K) m /\ block_get (blocks (sync_node m)) hash = Ok None) (unharmed c K).
Proof.
  intros Hu Hh Hk [r|].
  - intros m' [[[? ? ? ? ?] [Hg _]] E]. apply get_record_known in E as [Hkn _]. split; [|done]. split; try done. by constructor.
  - apply triple_call; [weaken|]. intros h _. apply triple_update; [|weaken].
    intros m' r m'' [[Hm [Hg Hp]] Hnew] E. apply rbind_Ok in E as ([u' n] & E & E'). injection E' as <- <-.
    apply rbind_Ok in E as (n' & E & E'). injection E' as <- <-. split; [by eapply store_header_inv|].
    unfold store_header in E. apply rbind_Ok in E as (work & _ & E). apply rbind_Ok in E as (hdb & _ & E). by injection E as <-.
Qed.

Lemma body_related r1 r2 c K block :
  U (header block) ->
  (forall c' K' child, (c' < c)%nat -> U (header child) -> previous_block_hash (header child) ∈ K' ->
    related (sync_inv c' K') (r1 child) (r2 child) (fun _ => sync_inv c' K') (unharmed c' K')) ->
  related (fits c K block) (receive_body clock r1 block) (receive_body clock r2 block) (fun _ => sync_inv c K) (unharmed c K).
Proof.
  intros Hu Hrec. assert (Hinv : forall m, fits c K block m -> sync_inv c K m) by (by intros m [? _]).
  apply related_call; [auto|]. intros hash Hh.
  eapply (related_bind _ _ _ _ _ (fun _ => fits c K block)); [apply related_refl, triple_modify; intros m; by apply (fits_frame c K block m)|]. intros ?.
  eapply (related_bind _ _ _ _ _ (fun _ => fits c K block)); [apply related_refl, triple_modify; intros m; by apply (fits_frame c K block m)|]. intros ?.
  assert (Haccept : related (sync_inv c (hash :: K)) (_accept_pending_children r1 hash) (_accept_pending_children r2 hash)
    (fun _ => sync_inv c (hash :: K)) (unharmed c (hash :: K))).
  { apply accept_related. intros c' child Hc Huc Hp. apply Hrec; [done..|]. rewrite Hp. left. }
  apply related_read; [auto|]. intros [stored|].
  - apply (related_pre (sync_inv c (hash :: K))).
    { intros m [[[? Ht ? ? ?] _] Hs]. apply (stored_block_in_play U HU _ _ _ Ht) in Hs as (_ & _ & Hk). split; try done. by constructor. }
    eapply (related_consequence _ _ _ (fun _ => sync_inv c (hash :: K)) _ (unharmed c (hash :: K)));
      [intros ? m; apply inv_drop|intros e m [Hm _]; split; [by eapply inv_drop|done]|].
    eapply related_bind; [apply related_refl, keeps_activate|]. intros activation. eapply related_bind; [exact Haccept|].
    intros accepted. apply related_refl, (keeps_ret (sync_inv c (hash :: K))).
  - apply related_read; [weaken|]. intros parent_record. destruct (parent_is_unknown (header block) parent_record) eqn:Hk.
    + apply related_refl. unfold _remember_orphan. rewrite Hh. cbn [lift sbind].
      eapply (triple_bind _ _ _ (fun _ => sync_inv c K)).
      * apply triple_modify. intros m [[Hf _] Hp]. by eapply remember_inv.
      * intros ?. apply (keeps_bind (sync_inv c K)); [keeps|]. intros ?. apply (keeps_ret (sync_inv c K)).
    + apply related_read; [weaken|]. intros header_record.
      apply (related_pre (fun m => (sync_inv c K m /\ block_get (blocks (sync_node m)) hash = Ok None /\
        parent_of (sync_node m) (header block) = Ok parent_record) /\
        header_get_record (headers (sync_node m)) hash = Ok header_record)); [intros m [[[[? _] ?] ?] ?]; done|].
      eapply related_bind; [apply related_refl; by apply store_inv|]. intros ?.
      eapply (related_consequence _ _ _ (fun _ => sync_inv c (hash :: K)) _ (unharmed c (hash :: K)));
        [intros ? m; apply inv_drop|intros e m [Hm _]; split; [by eapply inv_drop|done]|].
      eapply (related_bind _ _ _ _ _ (fun _ => sync_inv c (hash :: K))).
      { apply related_refl, triple_update; [|weaken]. intros m r m' [Hm Hg] E. apply rbind_Ok in E as ([u' n] & E & E'). injection E' as <- <-.
        apply rbind_Ok in E as (n' & E & E'). injection E' as <- <-. eapply store_block_inv; [done|done|done|left|done|done]. }
      intros ?. eapply related_bind; [exact Haccept|]. intros accepted. eapply related_bind; [apply related_refl, keeps_activate|].
      intros activation. apply related_refl, (keeps_ret (sync_inv c (hash :: K))).
Qed.

Lemma loop_related n1 n2 c K block :
  (c < n1)%nat -> (c < n2)%nat -> U (header block) ->
  related (fits c K block) (receive_loop clock n1 block) (receive_loop clock n2 block) (fun _ => sync_inv c K) (unharmed c K).
Proof.
  revert n2 c K block. induction n1 as [|n1 IH]; intros [|n2] c K block H1 H2 Hu; try lia. cbn [receive_loop].
  apply body_related; [done|]. intros c' K' child Hc Huc Hp. eapply related_pre; [|apply (IH n2 c' K' child); [lia|lia|done]].
  intros m Hm. split; [done|]. auto.
Qed.

(** The bound of the recursion is never reached: from a well-formed manager
    [receive_block] is the recursion of the source. *)
Lemma receive_block_unfold c K m block :
  sync_inv c K m -> U (header block) -> receive_block clock block m = receive_body clock (receive_block clock) block m.
Proof.
  intros Hi Hu. unfold receive_block at 1. cbn [receive_loop].
  change (receive_body clock (receive_loop clock (S (length (_orphan_blocks m)))) block m = receive_body clock (receive_block clock) block m).
  refine (proj1 (body_related _ _ (S (length (_orphan_blocks m))) K block Hu _) m _).
  - intros c' K' child Hc Huc Hp. assert (Hf : forall c0 m', sync_inv c0 K' m' -> fits c0 K' child m') by (intros ? ? ?; split; auto).
    split; [|eapply triple_pre; [apply Hf|apply (loop_related _ (S c')); [lia|lia|done]]].
    intros m' Hm. unfold receive_block. pose proof (inv_count _ _ _ Hm).
    refine (proj1 (loop_related (S (length (_orphan_blocks m))) (S (S (length (_orphan_blocks m')))) (length (_orphan_blocks m')) K' child _ _ Huc) m' _);
      [lia|lia|]. apply Hf. destruct Hm. by split.
  - split; [|right; right; lia]. destruct Hi. split; try done. lia.
Qed.

Definition manager_ok (m : SyncManager) : Prop := sync_inv (Z.to_nat _MAX_ORPHAN_BLOCKS) [] m.

Lemma manager_ok_any c K m : sync_inv c K m -> manager_ok m.
Proof. intros [? ? Ho ? ?]. split; try done. destruct Ho as [_ Hb _]. unfold len in Hb. lia. Qed.

Abbreviation safe m := (keeps manager_ok (fun _ => True) m).

Lemma safe_receive_block block : U (header block) -> safe (receive_block clock block).
Proof.
  intros Hu m Hm. unfold receive_block. set (n := S (length (_orphan_blocks m))).
  assert (Hf : fits n [] block m). { split; [|right; right; unfold n; lia]. destruct Hm. split; try done. unfold n. lia. }
  pose proof (proj2 (loop_related (S n) (S n) n [] block ltac:(lia) ltac:(lia) Hu) m Hf) as Ht. unfold n in Ht.
  destruct (receive_loop clock _ _ _) as [[r|e] m']; [by eapply manager_ok_any|]. destruct Ht as [Ht _]. split; [by eapply manager_ok_any|done].
Qed.

Lemma keeps_reserve_loop c K ids heights per_peer timeout now by_peer made window :
  keeps_inv c K (reserve_loop ids heights per_peer timeout now by_peer made window).
Proof.
  revert by_peer made. induction window as [|hash window IH]; intros by_peer made; cbn [reserve_loop]; unfold clear_block_request; keeps;
    by apply IH.
Qed.

Lemma keeps_release c K leaves : keeps_inv c K (release_where leaves).
Proof. unfold release_where. keeps. Qed.
#[local] Hint Resolve keeps_reserve_loop keeps_release keeps_ingest_headers : keeps.

Lemma keeps_reserve c K ids heights window per_peer timeout now :
  keeps_inv c K (reserve_block_downloads ids heights window per_peer timeout now).
Proof. unfold reserve_block_downloads, missing_blocks_for_best_tip. keeps. Qed.

Lemma keeps_expire c K now : keeps_inv c K (expire_block_requests now).
Proof. unfold expire_block_requests. keeps. Qed.

Lemma keeps_rounds c K peer fuel locators total :
  (forall l stop limit batch, handle_getheaders peer l stop limit = Ok batch -> Forall U batch) ->
  keeps_inv c K (header_rounds fuel peer locators total).
Proof.
  intros Hp. revert locators total. induction fuel as [|fuel IH]; intros locators total; cbn [header_rounds]; [keeps|].
  do 2 (keeps_step; [keeps|]). apply triple_call; [auto|]. intros batch Hb. apply Hp in Hb. apply triple_call; [auto|]. intros _ _.
  apply (keeps_bind (sync_inv c K)); [keeps|]. intros ingest. case_match; [apply (keeps_ret (sync_inv c K))|].
  destruct (last batch); [|apply (keeps_ret (sync_inv c K))]. apply triple_call; [auto|]. intros hash _. apply IH.
Qed.

(** What a peer serves is in play. *)
Record peer_in_play (peer : NodeService) : Prop := {
  served_headers l stop limit batch : handle_getheaders peer l stop limit = Ok batch -> Forall U batch;
  served_blocks hash block : get_block_by_hash peer hash = Ok (Some block) -> U (header block);
}.

Lemma safe_synchronize peer : peer_in_play peer -> safe (synchronize clock peer).
Proof.
  intros [Hh Hb]. unfold synchronize. apply keeps_bind; [apply keeps_of_node|]. intros locators.
  apply keeps_bind; [by apply keeps_rounds|]. intros rounds. apply keeps_bind.
  - apply keeps_fold. intros acc hash _. unfold fetch_block. apply triple_call; [auto|]. intros [block|] Hg.
    + apply (keeps_bind manager_ok); [apply safe_receive_block; by eapply Hb|]. intros r. apply (keeps_ret manager_ok).
    + by apply (keeps_throw manager_ok).
  - intros fetched. apply keeps_bind; [apply keeps_activate|]. intros activation. apply keeps_ret.
Qed.

(** ** Every run of the manager *)

(** What happens to a manager: each operation with any argument, whether it
    returns or raises, blocks mined on its node, and what else its node does to its
    pool and its templates. *)
Inductive sync_step : SyncManager -> SyncManager -> Prop :=
| on_headers m batch peer_id : Forall U batch -> sync_step m (ingest_headers batch peer_id m).2
| on_block m block : U (header block) -> sync_step m (receive_block clock block m).2
| on_activation m again : sync_step m (activate_best_chain_if_ready clock again m).2
| on_peer m peer : peer_in_play peer -> sync_step m (synchronize clock peer m).2
| on_schedule m ids heights window per_peer timeout now :
    sync_step m (reserve_block_downloads ids heights window per_peer timeout now m).2
| on_peers_lost m ids : sync_step m (release_unavailable_peer_requests ids m).2
| on_peer_dropped m id : sync_step m (release_peer_requests id m).2
| on_timeout m now : sync_step m (expire_block_requests now m).2
| on_mined m block : U (header block) -> canonical_block block = block -> sync_step m (call_node (node_apply_block clock block) m).2
| on_other m n : node_chain n = sync_node m -> sync_step m (set_manager_node n m).

Lemma safe_state {A} (op : stm SyncManager A) m : safe op -> manager_ok m -> manager_ok (op m).2.
Proof. intros Hs Hm. specialize (Hs m Hm). destruct (op m) as [[a|e] m']; [done|]. by destruct Hs. Qed.

Lemma sync_step_ok m m' : sync_step m m' -> manager_ok m -> manager_ok m'.
Proof.
  intros Hs Hm. destruct Hs.
  - apply safe_state; [|done]. by apply keeps_ingest_headers.
  - apply safe_state; [|done]. by apply safe_receive_block.
  - apply safe_state; [|done]. apply keeps_activate.
  - apply safe_state; [|done]. by apply safe_synchronize.
  - apply safe_state; [|done]. apply keeps_reserve.
  - apply safe_state; [|done]. apply keeps_release.
  - apply safe_state; [|done]. apply keeps_release.
  - apply safe_state; [|done]. apply keeps_expire.
  - pose proof Hm as [Hr Ht Ho Hc Hk]. unfold call_node. destruct (node_apply_block clock block (manager_node m)) as [r n] eqn:E.
    apply (changed_inv _ [] m n (apply_block block (sync_node m)).2); [done|by eapply node_apply_chain| |by apply apply_block_keeps_tables].
    apply apply_outcome; [by eapply tables_admissible|done].
  - by eapply inv_frame.
Qed.

Definition sync_reachable (limit : Z) : SyncManager -> Prop := rtc sync_step (new_sync (new_node params net) limit).

Lemma new_sync_ok limit : manager_ok (new_sync (new_node params net) limit).
Proof.
  split; [constructor| | |simpl; lia|constructor].
  - split; [by intros x row|exists (fun _ => 0%nat); by intros x row|by intros x raw].
  - split; [constructor|done|]. intros p bucket hash block Hin. by apply not_elem_of_nil in Hin.
Qed.

Lemma sync_reachable_ok limit m : sync_reachable limit m -> manager_ok m.
Proof.
  intros R. eapply (rtc_preserved manager_ok); [exact sync_step_ok|exact R|apply new_sync_ok].
Qed.

(** C3: The synchronization manager is a client of the chain: whatever peers send (no
    two headers in play having the same double SHA-256 and different parents), and in
    whatever order operations return or raise, the chain of the node is one that
    completed changes of [ChainFacts] reach, so that its outputs and registry are the
    ledger of its active chain, unless an exception once interrupted the writes of a
    block or of a branch: then it was such a chain until the first interruption, and
    every step since is one of [ChainFacts] or another interruption. *)
Theorem synchronization_refines_chain (limit : Z) (m : SyncManager) :
  sync_reachable limit m ->
  reachable params net (sync_node m) \/
  exists s1 s2, reachable params net s1 /\ torn_step s1 s2 /\ rtc any_step s2 (sync_node m).
Proof. intros Hm%sync_reachable_ok. apply runs_complete_or_torn. exact (inv_reached _ _ _ Hm). Qed.

(** C13: In every state of a run: parents of stored headers are stored, down to a
    root, along a rank, so that no header is its own ancestor; a stored block has
    its header; at most 256 parents have waiting orphans, and each orphan waits
    under its own parent's hash. *)
Theorem synchronization_state_wellformed (limit : Z) (m : SyncManager) :
  sync_reachable limit m ->
  well_linked (header_rows (headers (sync_node m))) /\
  (forall x raw, block_rows (blocks (sync_node m)) !! x = Some raw -> is_Some (header_rows (headers (sync_node m)) !! x)) /\
  len (_orphan_blocks m) <= 256 /\ NoDup (_orphan_blocks m).*1 /\
  (forall parent_hash bucket hash block, (parent_hash, bucket) ∈ _orphan_blocks m -> (hash, block) ∈ bucket ->
    previous_block_hash (header block) = parent_hash /\ block_hash (header block) = Ok hash).
Proof.
  intros [_ Ht [Hn Hb He] _ _]%sync_reachable_ok. split; [apply Ht|]. split.
  - intros x raw Hx. by apply (tables_blocks U _ Ht) in Hx as [Hk _].
  - split; [done|]. split; [done|]. intros p bucket hash block Hp Hh. by destruct (He _ _ _ _ Hp Hh) as [_ ?].
Qed.

(** C34: [receive_block] ends: it satisfies the recursive equation of the source, in
    which the children of the block are received by [receive_block] itself,
    without the bound of the model. *)
Theorem receive_block_recursion (limit : Z) (m : SyncManager) (block : Block) :
  sync_reachable limit m -> U (header block) -> receive_block clock block m = receive_body clock (receive_block clock) block m.
Proof. intros Hm%sync_reachable_ok Hu. by eapply receive_block_unfold. Qed.
End manager.

(** ** Headers are checked before they are stored *)

Section ingest.
Context `{PyRepr, CryptoBackend}.

Abbreviation rows_of m := (header_rows (headers (sync_node m))).

(** *** A table that grows answers as before *)

Record grows (n n' : NodeService) : Prop := {
  grows_rows : header_rows (headers n) ⊆ header_rows (headers n');
  grows_params : service_params n' = service_params n;
}.

Lemma grows_refl n : grows n n.
Proof. by split. Qed.
Lemma grows_trans n1 n2 n3 : grows n1 n2 -> grows n2 n3 -> grows n1 n3.
Proof. intros [R1 P1] [R2 P2]. split; [by etrans|by rewrite P2]. Qed.

Lemma header_get_mono n n' x hdr : grows n n' -> header_get (headers n) x = Ok (Some hdr) -> header_get (headers n') x = Ok (Some hdr).
Proof.
  intros [Hs _] E. unfold header_get in *. destruct (header_rows (headers n) !! x) as [row|] eqn:Er; [|discriminate].
  by rewrite (lookup_weaken _ _ _ _ Er Hs).
Qed.

Lemma get_record_mono n n' x r : grows n n' -> header_get_record (headers n) x = Ok (Some r) -> header_get_record (headers n') x = Ok (Some r).
Proof.
  intros [Hs _] E. unfold header_get_record in *. destruct (header_rows (headers n) !! x) as [row|] eqn:Er; [|discriminate].
  by rewrite (lookup_weaken _ _ _ _ Er Hs).
Qed.

Lemma path_loop_mono n n' fuel fuel' current path full :
  grows n n' -> (fuel <= fuel')%nat -> path_loop fuel (headers n) current path = Ok full -> path_loop fuel' (headers n') current path = Ok full.
Proof.
  intros Hg. revert fuel' current path. induction fuel as [|fuel IH]; intros [|fuel'] current path Hf E; try lia; [discriminate..|].
  cbn [path_loop] in *. case_bool_decide; [done|]. apply rbind_Ok in E as ([r|] & Hr & E); [|discriminate].
  rewrite (get_record_mono n n' _ _ Hg Hr). cbn [rbind]. case_bool_decide; [done|]. apply IH; [lia|done].
Qed.

Lemma path_to_root_mono n n' hash path : grows n n' -> header_path_to_root (headers n) hash = Ok path -> header_path_to_root (headers n') hash = Ok path.
Proof.
  intros Hg. apply path_loop_mono; [done|]. pose proof (map_subseteq_size _ _ (grows_rows _ _ Hg)). unfold path_fuel. lia.
Qed.

Lemma expected_bits_mono n n' parent_record h bits :
  grows n n' -> _expected_bits_for_candidate_header n parent_record h = Ok bits -> _expected_bits_for_candidate_header n' parent_record h = Ok bits.
Proof.
  intros Hg E. unfold _expected_bits_for_candidate_header in *. rewrite !(grows_params _ _ Hg). destruct (h <=? 0); [done|].
  destruct parent_record as [p|]; [|done]. destruct (negb _); [done|].
  apply rbind_Ok in E as (path & Hp & E). rewrite (path_to_root_mono _ _ _ _ Hg Hp). cbn [rbind]. cbv zeta in *.
  apply rbind_Ok in E as (x & Hx & E). rewrite Hx. cbn [rbind]. apply rbind_Ok in E as (first & Hf & E).
  assert (Hsome : is_Some first).
  { apply path_to_root_branch in Hp. apply py_index_lookup, list_elem_of_lookup_2 in Hx; [|lia].
    destruct (branch_rows _ _ _ _ Hp Hx) as [_ [row Hrow]]. unfold header_get in Hf. rewrite Hrow in Hf. by apply rbind_Ok in Hf as (? & _ & [= <-]). }
  destruct Hsome as [hdr ->]. rewrite (header_get_mono _ _ _ _ Hg Hf). cbn [rbind]. unfold retarget in *. by rewrite (grows_params _ _ Hg).
Qed.

Lemma parent_of_mono n n' hdr p :
  grows n n' -> parent_of n hdr = Ok p -> parent_is_unknown hdr p = false -> parent_of n' hdr = Ok p.
Proof.
  intros Hg Hp Hk. unfold parent_of, parent_is_unknown in *. case_bool_decide; [done|]. simpl in Hk.
  destruct p as [p|]; [by apply (get_record_mono n)|]. rewrite (bool_decide_eq_false_2 (is_Some None)) in Hk by (by intros [? ?]). discriminate.
Qed.

(** A row under the hash of a header of the batch that passed every check, each
    stated of the node as it is at the end *)
Definition honest_row (batch : list BlockHeader) (n : NodeService) (x : str) (row : HeaderRow) : Prop :=
  exists hdr parent_record h work,
    hdr ∈ batch /\ block_hash hdr = Ok x /\ parent_of n hdr = Ok parent_record /\ child_height parent_record = Ok h /\
    0 <= timestamp hdr /\ verify_proof_of_work hdr = Ok true /\
    _expected_bits_for_candidate_header n parent_record h = Ok (bits hdr) /\ header_work hdr = Ok work /\
    row_previous row = previous_block_hash hdr /\ row_height row = Some h /\
    match parent_record with
    | None => previous_block_hash hdr = zero_hash /\ row_work row = Some (py_str_int work)
    | Some p => previous_block_hash hdr = record_hash p /\ is_Some (header_rows (headers n) !! record_hash p) /\
                timestamp (record_header p) <= timestamp hdr /\ row_work row = Some (py_str_int (default 0 (record_work p) + work))
    end.

Lemma honest_row_mono batch n n' x row : grows n n' -> honest_row batch n x row -> honest_row batch n' x row.
Proof.
  intros Hg (hdr & p & h & w & Hin & Hh & Hp & Hc & Ht & Hpow & Hb & Hw & Hrp & Hrh & Hm). exists hdr, p, h, w.
  split; [done|]. split; [done|]. split.
  { apply (parent_of_mono n); [done..|]. unfold parent_is_unknown. destruct p as [p|]; [|destruct Hm as [-> _]; by rewrite bool_decide_eq_true_2].
    rewrite (bool_decide_eq_true_2 (is_Some (Some p))) by done. by rewrite andb_false_r. }
  repeat (split; [done|]). split; [by apply (expected_bits_mono n)|]. repeat (split; [done|]).
  destruct p as [p|]; [|done]. destruct Hm as (? & [r Hr] & ? & ?). split; [done|]. split; [|done]. exists r. by eapply lookup_weaken, grows_rows.
Qed.

(** The table grew by checked rows only. *)
Definition grown (batch : list BlockHeader) (n n' : NodeService) : Prop :=
  grows n n' /\ forall x row, header_rows (headers n) !! x = None -> header_rows (headers n') !! x = Some row -> honest_row batch n' x row.

Lemma grown_trans batch n1 n2 n3 : grown batch n1 n2 -> grown batch n2 n3 -> grown batch n1 n3.
Proof.
  intros [S1 G1] [S2 G2]. split; [by eapply grows_trans|]. intros x row Hx Hr.
  destruct (header_rows (headers n2) !! x) as [row2|] eqn:E2; [|by eapply G2].
  pose proof (lookup_weaken _ _ _ _ E2 (grows_rows _ _ S2)) as E3. rewrite Hr in E3. injection E3 as ->. by eapply honest_row_mono, G1.
Qed.

Lemma grown_refl batch n : grown batch n n.
Proof. split; [apply grows_refl|]. intros x row Hx Hr. congruence. Qed.

(** What the checks on a candidate establish *)
Lemma validated_candidate n hdr p h :
  _validate_header_candidate n hdr p h = Ok tt ->
  0 <= timestamp hdr /\ verify_proof_of_work hdr = Ok true /\ _expected_bits_for_candidate_header n p h = Ok (bits hdr) /\
  match p with None => True | Some p => previous_block_hash hdr = record_hash p /\ timestamp (record_header p) <= timestamp hdr end.
Proof.
  intros Hv. unfold _validate_header_candidate in Hv. apply rbind_Ok in Hv as ([] & Ht%raise_if_Ok & Hv). apply rbind_Ok in Hv as (done_ & Hpow & Hv).
  apply rbind_Ok in Hv as ([] & Hd%raise_if_Ok & Hv). apply rbind_Ok in Hv as ([] & Hpar & Hv). apply rbind_Ok in Hv as (eb & Heb & Hv%raise_if_Ok).
  bool_prop. subst. split; [done|]. split; [done|]. split; [done|]. destruct p as [p|]; [|done].
  apply rbind_Ok in Hpar as ([] & Hc1%raise_if_Ok & Hc2%raise_if_Ok). by bool_prop.
Qed.

Lemma stored_grown n hdr parent_record h hash n' batch :
  hdr ∈ batch -> block_hash hdr = Ok hash -> header_get_record (headers n) hash = Ok None ->
  parent_of n hdr = Ok parent_record -> parent_is_unknown hdr parent_record = false -> child_height parent_record = Ok h ->
  _validate_header_candidate n hdr parent_record h = Ok tt -> store_header n hdr parent_record h = Ok n' -> grown batch n n'.
Proof.
  intros Hin Hh Hnew%no_record_no_row Hp Hk Hc Hv E. unfold store_header in E. apply rbind_Ok in E as (work & Hw & E).
  apply rbind_Ok in E as (hdb & Hput & E). injection E as <-. unfold header_put in Hput. rewrite Hh in Hput. cbn [rbind] in Hput.
  apply rbind_Ok in Hput as (raw & _ & Hput). apply rbind_Ok in Hput as (hc & Hhc & Hput). injection Hput as <-.
  apply rbind_Ok in Hhc as (h' & [-> _]%sqlite_int_id & Hhc). injection Hhc as <-.
  set (n' := mkService _ _ _ _ _ _ _ _ _). assert (Hg : grows n n') by (split; [by apply insert_subseteq|done]).
  split; [exact Hg|]. intros x row Hx Hr. unfold n' in Hr. cbn [headers header_rows] in Hr.
  destruct (decide (x = hash)) as [->|Hne]; [|rewrite lookup_insert_ne in Hr by done; congruence].
  rewrite lookup_insert_eq in Hr. injection Hr as <-. apply (honest_row_mono batch n); [exact Hg|].
  apply validated_candidate in Hv as (Ht & Hpow & Hb & Hpar). exists hdr, parent_record, h, work. repeat (split; [done|]).
  destruct parent_record as [p|].
  - destruct Hpar as [Hc1 Hc2]. split; [done|]. split; [|done]. unfold parent_of in Hp. case_bool_decide; [discriminate|].
    apply get_record_known in Hp as [Hk' ->]. exact Hk'.
  - split; [|done]. unfold parent_is_unknown in Hk. rewrite (bool_decide_eq_false_2 (is_Some None)) in Hk by (by intros [? ?]).
    simpl in Hk. by case_bool_decide.
Qed.

Lemma ingest_loop_grown batch st rest m :
  (forall hdr, hdr ∈ rest -> hdr ∈ batch) -> grown batch (sync_node m) (sync_node (ingest_loop st rest m).2).
Proof.
  intros Hsub. revert st m. induction rest as [|hdr rest IH]; intros st m; cbn [ingest_loop]; [apply grown_refl|].
  assert (IH' := IH (fun h Hh => Hsub h (list_elem_of_further _ _ _ Hh))). clear IH.
  unfold sbind, lift. destruct (block_hash hdr) as [hash|e] eqn:Hh; [|apply grown_refl].
  unfold of_node at 1, asks. destruct (header_get_record (headers (sync_node m)) hash) as [[r|]|e] eqn:Hnew; [apply IH'| |apply grown_refl].
  destruct (match previous_in_batch st with None => _ | Some _ => _ end) as [[]|e]; [|apply grown_refl].
  unfold of_node, asks. destruct (parent_of (sync_node m) hdr) as [parent_record|e] eqn:Hp; [|apply grown_refl].
  destruct (parent_is_unknown hdr parent_record) eqn:Hk; [apply grown_refl|].
  destruct (child_height parent_record) as [h|e] eqn:Hc; [|apply grown_refl].
  destruct (_validate_header_candidate (sync_node m) hdr parent_record h) as [[]|e] eqn:Hv; [|apply grown_refl].
  unfold write_node, update. destruct (store_header (sync_node m) hdr parent_record h) as [n'|e] eqn:Hs; cbn [rbind]; [|apply grown_refl].
  eapply grown_trans; [|apply IH']. eapply (stored_grown (sync_node m)); try done. apply Hsub. left.
Qed.

(** The rest of [ingest_headers] reads the node. *)
Lemma ingest_rest_node n (I := fun m => sync_node m = n) : forall hash, keeps I (fun _ => True) (missing_blocks_for_tip hash).
Proof.
  intros hash. unfold missing_blocks_for_tip, of_node. keeps. by apply keeps_modify.
Qed.

Lemma ingest_headers_grown batch peer_id m : grown batch (sync_node m) (sync_node (ingest_headers batch peer_id m).2).
Proof.
  unfold ingest_headers. unfold sbind at 1.
  assert (Hclear : exists m0, (match batch with [] => ret tt | _ => _clear_chain_progress_caches end) m = (Ok tt, m0) /\ sync_node m0 = sync_node m)
    by (destruct batch; eexists; split; reflexivity).
  destruct Hclear as (m0 & -> & E0). rewrite <- E0. unfold sbind at 1.
  pose proof (ingest_loop_grown batch (mkIngest 0 None None) batch m0 ltac:(done)) as Hl.
  destruct (ingest_loop (mkIngest 0 None None) batch m0) as [[st|e] m1]; [|exact Hl]. cbn [snd] in Hl.
  match goal with |- grown _ _ (sync_node (?op m1).2) => assert (Hrest : keeps (fun m2 => sync_node m2 = sync_node m1) (fun _ => True) op) end.
  { unfold of_node. pose proof (ingest_rest_node (sync_node m1)). keeps; by apply keeps_modify. }
  specialize (Hrest m1 eq_refl). match goal with |- grown _ _ (sync_node (?r).2) => destruct r as [[a|e] m2] end; cbn [snd].
  - by rewrite Hrest.
  - destruct Hrest as [-> _]. exact Hl.
Qed.

(** C12: Headers from a peer are checked before they are stored: [ingest_headers], even
    when it raises, keeps the parameters and every row of the header table, and each
    row it adds is a header of the batch with a valid proof of work, the difficulty
    that the node as it then is expects after its parent, a timestamp not before the
    parent's, the parent's height plus one and the parent's work plus its own. *)
Theorem ingested_headers_checked (batch : list BlockHeader) (peer_id : option str) (m : SyncManager) :
  rows_of m ⊆ rows_of (ingest_headers batch peer_id m).2 /\
  service_params (sync_node (ingest_headers batch peer_id m).2) = service_params (sync_node m) /\
  forall x row, rows_of m !! x = None -> rows_of (ingest_headers batch peer_id m).2 !! x = Some row ->
    honest_row batch (sync_node (ingest_headers batch peer_id m).2) x row.
Proof. destruct (ingest_headers_grown batch peer_id m) as [[Hs Hp] Hg]. by split_and!. Qed.
End ingest.

(** ** The branch that is activated *)

Section ready.
Variable node : NodeService.

Definition stored (hash : str) : Prop := block_missing node hash = Ok false.

Lemma ready_prefix_spec path candidate hash :
  ready_prefix node path candidate = Ok (Some hash) ->
  exists run rest, path = run ++ rest /\ Forall stored run /\ last (option_list candidate ++ run) = Some hash.
Proof.
  revert candidate. induction path as [|x path IH]; intros candidate E; simpl in E.
  - injection E as ->. exists [], []. by repeat split.
  - apply rbind_Ok in E as (missing & Hm & E). destruct missing.
    + injection E as ->. exists [], (x :: path). by repeat split.
    + apply IH in E as (run & rest & -> & Hs & Hl). exists (x :: run), rest. split; [done|]. split; [by constructor|].
      simpl in Hl. destruct candidate as [c|]; simpl in *; exact Hl.
Qed.

(** The tip that synchronization activates is the end of a run of stored blocks
    above the anchor, on a branch with no refused header, and improves on the
    active chain in work or in height. *)
Lemma scan_ready_spec (refused : list str) (tips : list HeaderRecord) (hash : str) :
  scan_ready node refused tips = Ok (Some hash) ->
  exists tip path run rest record, tip ∈ tips /\ path_above_anchor node (record_hash tip) = Ok (Some path) /\
    path = run ++ rest /\ Forall (fun x => x ∉ refused) path /\ Forall stored run /\
    last (option_list (anchor_hash <$> snapshot_anchor node) ++ run) = Some hash /\
    header_get_record (headers node) hash = Ok (Some record) /\ _best_header_needs_blocks node record = Ok true.
Proof.
  induction tips as [|tip tips IH]; [discriminate|]. simpl. intros E. apply rbind_Ok in E as (ready & Hc & E).
  destruct ready as [x|].
  2:{ destruct (IH E) as (t & path & run & rest & record & Hin & ?). exists t, path, run, rest, record. split; [by right|done]. }
  injection E as ->. unfold candidate_ready in Hc. apply rbind_Ok in Hc as (needed & _ & Hc). destruct needed; [|discriminate]. simpl in Hc.
  apply rbind_Ok in Hc as (above & Ha & Hc). destruct above as [path|]; [|discriminate].
  destruct (existsb _ path) eqn:Ei; [discriminate|]. apply rbind_Ok in Hc as (r & Hr & Hc). destruct r as [rh|]; [|discriminate].
  case_bool_decide; [discriminate|]. apply rbind_Ok in Hc as (record & Hrec & Hc). destruct record as [record|]; [|discriminate].
  apply rbind_Ok in Hc as (still & Hs & Hc). destruct still; [|discriminate]. injection Hc as ->.
  apply ready_prefix_spec in Hr as (run & rest & -> & Hst & Hl). exists tip, (run ++ rest), run, rest, record.
  split; [left|]. split; [done|]. split; [done|]. split; [|done]. apply Forall_forall. intros y Hy Hin.
  assert (Hf : existsb (fun h => bool_decide (h ∈ refused)) (run ++ rest) = true); [|congruence].
  apply existsb_exists. exists y. split; [by apply list_elem_of_In|by apply bool_decide_eq_true].
Qed.
End ready.
