(* ===== verification/SyncDownloads.v ===== *)
(** * Block downloads are bounded and exclusive

    What [reserve_block_downloads] promises to the peers and to the node: no peer
    is asked for more blocks at a time than the cap, no block is asked for twice,
    and only blocks of the window that are not there are asked for. *)

From S2P Require Import Prelude PyState PyOrder PyText Hashes Models Crypto Json Headers Service Sync.

(** The requests in flight at a peer *)
Definition load (inflight : list (str * BlockRequestState)) (peer : str) : Z :=
  len (filter (fun kv => request_peer_id kv.2 = peer) inflight).

Lemma load_cons k r inflight peer :
  load ((k, r) :: inflight) peer = (if decide (request_peer_id r = peer) then 1 else 0) + load inflight peer.
Proof. unfold load, len. rewrite filter_cons. simpl. case_decide; simpl; lia. Qed.

Lemma load_nonneg inflight peer : 0 <= load inflight peer.
Proof. unfold load, len. lia. Qed.

Lemma load_set inflight k r peer :
  dict_get inflight k = None -> load (dict_set inflight k r) peer = load inflight peer + (if decide (request_peer_id r = peer) then 1 else 0).
Proof.
  induction inflight as [|[k' r'] inflight IH]; simpl; intros Hk; [by rewrite load_cons, Z.add_comm|].
  destruct (decide (k' = k)); [discriminate|]. rewrite !load_cons, IH by done. lia.
Qed.

Lemma load_pop inflight k peer : load (dict_pop inflight k) peer <= load inflight peer.
Proof.
  induction inflight as [|[k' r'] inflight IH]; [done|]. unfold dict_pop in *. rewrite filter_cons. simpl.
  case_decide; rewrite !load_cons; [lia|]. case_decide; lia.
Qed.

Lemma count_up_get d k k' : count_of (count_up d k) k' = count_of d k' + (if decide (k = k') then 1 else 0).
Proof.
  unfold count_of, count_up. case_decide as E; [subst; by rewrite dict_get_set_eq|]. rewrite dict_get_set_ne by done. lia.
Qed.

(** The counts at the start are the loads of the peers asked. *)
Lemma inflight_counts_load ids inflight peer : peer ∈ ids -> count_of (inflight_counts ids inflight) peer = load inflight peer.
Proof.
  intros Hin. unfold inflight_counts. set (d0 := foldl _ [] ids).
  assert (H0 : dict_get d0 peer = Some 0).
  { unfold d0. revert Hin. generalize (@nil (str * Z)) as d. induction ids as [|i ids IH]; [set_solver|]. simpl. intros d Hin.
    destruct (decide (peer ∈ ids)) as [Hp|Hp]; [by apply IH|]. assert (i = peer) as -> by set_solver. clear Hin.
    assert (Hd : dict_get (dict_set d peer 0) peer = Some 0) by apply dict_get_set_eq. revert Hd. generalize (dict_set d peer 0) as d'.
    clear IH. revert Hp. induction ids as [|i ids IH]; simpl; intros Hp d' Hd; [done|]. apply IH; [set_solver|].
    rewrite dict_get_set_ne; [done|]. set_solver. }
  assert (Hg : forall d z, dict_get d peer = Some z ->
    dict_get (foldl (fun d request => match dict_get d (request_peer_id request) with
      | Some n => dict_set d (request_peer_id request) (n + 1) | None => d end) d inflight.*2) peer = Some (z + load inflight peer)).
  { clear d0 H0. induction inflight as [|[k r] inflight IH]; intros d z Hd; csimpl; [by rewrite Z.add_0_r|]. rewrite load_cons.
    case_decide as E; [subst; rewrite Hd|destruct (dict_get d (request_peer_id r))].
    - rewrite (IH _ (z + 1)); [f_equal; lia|apply dict_get_set_eq].
    - rewrite (IH _ z); [done|]. by rewrite dict_get_set_ne.
    - by rewrite (IH _ z). }
  unfold count_of. by rewrite (Hg d0 0 H0).
Qed.

Lemma candidate_peers_spec ids heights by_peer stalled h peer :
  peer ∈ candidate_peers ids heights by_peer stalled h -> peer ∈ ids /\ can_serve heights h peer = true.
Proof. unfold candidate_peers. rewrite elem_of_sorted_by, list_elem_of_filter. tauto. Qed.

Section reserve.
Context `{PyRepr, CryptoBackend}.
Variables (ids : list str) (heights : list (str * Z)) (cap : Z) (timeout now : float).
Variable m0 : SyncManager.

(** An assignment and the request that stands for it *)
Definition assigned (m : SyncManager) (a : BlockDownloadAssignment) : Prop :=
  assigned_peer_id a ∈ ids /\ block_missing (sync_node m0) (assigned_block_hash a) = Ok true /\
  dict_get (_inflight_blocks m0) (assigned_block_hash a) = None /\
  dict_get (_inflight_blocks m) (assigned_block_hash a) =
    Some (mkRequest (assigned_block_hash a) (assigned_peer_id a) now (float_add now timeout) 1) /\
  (forall r h, header_get_record (headers (sync_node m0)) (assigned_block_hash a) = Ok (Some r) -> record_height r = Some h ->
    h <= default h (dict_get heights (assigned_peer_id a))).

Record reserving (by_peer : list (str * Z)) (made : list BlockDownloadAssignment) (m : SyncManager) : Prop := {
  reserving_node : sync_node m = sync_node m0;
  reserving_cap peer : load (_inflight_blocks m) peer <= Z.max cap (load (_inflight_blocks m0) peer);
  reserving_counts peer : peer ∈ ids -> load (_inflight_blocks m) peer <= count_of by_peer peer;
  reserving_popped hash : is_Some (dict_get (_inflight_blocks m0) hash) -> dict_get (_inflight_blocks m) hash = None ->
    block_missing (sync_node m0) hash = Ok false;
  reserving_made : Forall (assigned m) made;
  reserving_once : NoDup (assigned_block_hash <$> made);
}.

Lemma reserving_clear by_peer made m hash :
  block_missing (sync_node m0) hash = Ok false -> reserving by_peer made m -> reserving by_peer made (clear_block_request hash m).2.
Proof.
  intros Hb [Hn Hc Hl Hp Hm Ho]. cbn [clear_block_request modify snd]. split; cbn [set_requests sync_node _inflight_blocks]; try done.
  - intros peer. pose proof (load_pop (_inflight_blocks m) hash peer). specialize (Hc peer). lia.
  - intros peer Hin. pose proof (load_pop (_inflight_blocks m) hash peer). specialize (Hl peer Hin). lia.
  - intros x Hx Hnone. destruct (decide (x = hash)) as [->|Hne]; [done|]. rewrite dict_get_pop_ne in Hnone by done. by apply Hp.
  - eapply Forall_impl; [exact Hm|]. intros a (? & Hb' & ? & Hi & ?). unfold assigned. cbn [set_requests _inflight_blocks].
    rewrite dict_get_pop_ne; [done|]. intros E. rewrite E in Hb'. congruence.
Qed.

Lemma reserving_assign by_peer made m hash peer h :
  block_missing (sync_node m0) hash = Ok true -> dict_get (_inflight_blocks m) hash = None ->
  peer ∈ ids -> count_of by_peer peer < cap ->
  (forall r h, header_get_record (headers (sync_node m0)) hash = Ok (Some r) -> record_height r = Some h -> h <= default h (dict_get heights peer)) ->
  reserving by_peer made m ->
  reserving (count_up by_peer peer) (made ++ [mkAssignment hash peer (float_add now timeout) 1])
    (set_requests (dict_set (_inflight_blocks m) hash (mkRequest hash peer now (float_add now timeout) 1)) h (_stalled_peer_counts m) m).
Proof.
  intros Hb Hnew Hin Hlt Hserve [Hn Hc Hl Hp Hm Ho]. split; cbn [set_requests sync_node _inflight_blocks]; try done.
  - intros q. rewrite load_set by done. specialize (Hc q). cbn [request_peer_id]. case_decide as E; [subst|lia].
    specialize (Hl _ Hin). pose proof (load_nonneg (_inflight_blocks m0) q). lia.
  - intros q Hq. rewrite load_set, count_up_get by done. specialize (Hl q Hq). cbn [request_peer_id]. lia.
  - intros x Hx Hnone. destruct (decide (x = hash)) as [->|Hne]; [by rewrite dict_get_set_eq in Hnone|].
    rewrite dict_get_set_ne in Hnone by done. by apply Hp.
  - apply Forall_app. split.
    + eapply Forall_impl; [exact Hm|]. intros a (? & Hb' & ? & Hi & ?). unfold assigned. cbn [set_requests _inflight_blocks].
      rewrite dict_get_set_ne; [done|]. intros E. rewrite <- E in Hi. congruence.
    + apply Forall_singleton. unfold assigned. cbn [assigned_block_hash assigned_peer_id set_requests _inflight_blocks].
      split; [done|]. split; [done|]. split; [|split; [apply dict_get_set_eq|done]].
      destruct (dict_get (_inflight_blocks m0) hash) eqn:E; [|done]. rewrite (Hp hash) in Hb; [discriminate|by rewrite E|done].
  - rewrite fmap_app. apply NoDup_app. split; [done|]. split; [|apply NoDup_singleton].
    intros x (a & -> & Ha)%list_elem_of_fmap E%list_elem_of_singleton. rewrite Forall_forall in Hm. destruct (Hm a Ha) as (_ & _ & _ & Hi & _).
    cbn in E. rewrite E in Hi. congruence.
Qed.

Lemma reserve_loop_spec window : forall by_peer made m made' m',
  reserving by_peer made m -> reserve_loop ids heights cap timeout now by_peer made window m = (Ok made', m') ->
  (exists by_peer', reserving by_peer' made' m') /\ len made' <= len made + len window /\
  (forall a, a ∈ made' -> a ∈ made \/ assigned_block_hash a ∈ window).
Proof.
  induction window as [|hash window IH]; intros by_peer made m made' m' Hr E.
  { injection E as <- <-. split; [by exists by_peer|]. split; [unfold len; simpl; lia|]. auto. }
  assert (Hlen : len (hash :: window) = 1 + len window) by (unfold len; simpl; lia).
  assert (Hlift : forall made0, (exists by_peer', reserving by_peer' made' m') /\ len made' <= len made0 + len window /\
      (forall a, a ∈ made' -> a ∈ made0 \/ assigned_block_hash a ∈ window) -> len made0 <= len made + 1 ->
      (forall a, a ∈ made0 -> a ∈ made \/ assigned_block_hash a = hash) ->
    (exists by_peer', reserving by_peer' made' m') /\ len made' <= len made + len (hash :: window) /\
      (forall a, a ∈ made' -> a ∈ made \/ assigned_block_hash a ∈ hash :: window)).
  { intros made0 (He & Hl & Ha) Hl0 Ha0. split; [done|]. split; [lia|]. intros a [Hin|Hin]%Ha; [apply Ha0 in Hin; set_solver|set_solver]. }
  cbn [reserve_loop] in E. unfold sbind at 1, of_node at 1, asks in E. rewrite (reserving_node _ _ _ Hr) in E.
  destruct (block_missing (sync_node m0) hash) as [missing|e] eqn:Hb; [|discriminate]. destruct missing; cbn [negb] in E.
  2:{ apply (Hlift made); [|lia|auto]. eapply IH; [|exact E]. by apply reserving_clear. }
  unfold sbind at 1, gets at 1 in E. case_bool_decide as Hreq; [apply (Hlift made); [by eapply IH|lia|auto]|].
  apply eq_None_not_Some in Hreq. unfold sbind at 1, of_node, asks in E. rewrite (reserving_node _ _ _ Hr) in E.
  destruct (header_get_record (headers (sync_node m0)) hash) as [record|e] eqn:Hrec; [|discriminate].
  unfold sbind at 1, lift in E.
  destruct (match record with None => Ok None | Some r => let* h := int_of (record_height r) in Ok (Some h) end) as [bh|e] eqn:Hbh; [|discriminate].
  unfold sbind at 1, gets at 1 in E.
  destruct (head (filter _ _)) as [peer|] eqn:Hsel.
  2:{ injection E as <- <-. split; [by exists by_peer|]. split; [rewrite Hlen; unfold len; lia|]. auto. }
  apply head_Some_elem_of, list_elem_of_filter in Hsel as [Hlt [Hin Hserve]%candidate_peers_spec]. cbn [sbind modify] in E.
  eapply Hlift; [eapply IH; [|exact E]|unfold len; rewrite length_app; simpl; lia|
    intros a [Ha| ->%list_elem_of_singleton]%elem_of_app; [by left|by right]].
  apply reserving_assign; try done. intros r h Hr' Hh. rewrite Hr' in Hrec. injection Hrec as <-. rewrite Hh in Hbh. simpl in Hbh.
  injection Hbh as <-. simpl in Hserve. by apply Z.leb_le in Hserve.
Qed.
End reserve.

Lemma reserve_loop_grows `{PyRepr, CryptoBackend} ids heights cap timeout now a window : forall by_peer made m made' m',
  reserve_loop ids heights cap timeout now by_peer made window m = (Ok made', m') -> a ∈ made -> a ∈ made'.
Proof.
  induction window as [|x window IH]; intros by_peer made m made' m' E Ha; [by injection E as <- _|]. cbn [reserve_loop] in E.
  unfold sbind, of_node, asks, gets, lift, modify, clear_block_request in E.
  repeat (case_match; simplify_eq/=; try done);
    first [by injection E as <- _|eapply IH; [exact E|]; rewrite ?elem_of_app; auto].
Qed.

(** A request for a block that is not there stays in flight. *)
Lemma reserve_loop_request `{PyRepr, CryptoBackend} ids heights cap timeout now n hash r window :
  block_missing n hash = Ok true -> forall by_peer made,
  keeps (fun m => sync_node m = n /\ dict_get (_inflight_blocks m) hash = Some r) (fun _ => True)
    (reserve_loop ids heights cap timeout now by_peer made window).
Proof.
  intros Hb. induction window as [|x window IH]; intros by_peer made; cbn [reserve_loop]; [apply keeps_ret|].
  apply triple_read; [auto|]. intros missing. destruct missing; cbn [negb].
  - apply (triple_pre (fun m => sync_node m = n /\ dict_get (_inflight_blocks m) hash = Some r)); [by intros m [? _]|].
    eapply triple_bind; [apply triple_gets|]. intros requested. destruct requested.
    + eapply triple_pre; [|apply IH]. by intros m [? _].
    + apply triple_read; [by intros e m [? _]|]. intros record. apply triple_call; [by intros e m [[? _] _]|]. intros bh _.
      eapply triple_bind; [apply triple_gets|]. intros stalled. case_match.
      * eapply triple_bind; [|intros ?; apply IH]. apply triple_modify. intros m [[[[Hn Hg] Hreq] _] _]. split; [done|].
        cbn [set_requests _inflight_blocks]. rewrite dict_get_set_ne; [done|]. intros ->. rewrite Hg in Hreq.
        by rewrite bool_decide_eq_true_2 in Hreq.
      * intros m [[[? _] _] _]. by apply keeps_ret.
  - eapply triple_bind; [|intros ?; apply IH]. apply triple_modify. intros m [[Hn Hg] Hm]. split; [done|].
    cbn [set_requests _inflight_blocks]. rewrite dict_get_pop_ne; [done|]. intros ->. rewrite Hn in Hm. congruence.
Qed.

Section downloads.
Context `{PyRepr, CryptoBackend}.

Lemma keeps_wanted_requests n i :
  keeps (fun m => sync_node m = n /\ _inflight_blocks m = i) (fun _ => True) missing_blocks_for_best_tip.
Proof.
  unfold missing_blocks_for_best_tip, wanted_tip, missing_blocks_for_tip, of_node. keeps. by apply keeps_modify.
Qed.

(** What a round of reservations did, from [m] to [m'] *)
Record fair_round (ids : list str) (heights : list (str * Z)) (window per_peer : Z) (timeout now : float)
    (m : SyncManager) (made : list BlockDownloadAssignment) (m' : SyncManager) : Prop := {
  round_node : sync_node m' = sync_node m;
  round_load peer : load (_inflight_blocks m') peer <= Z.max (Z.max 1 per_peer) (load (_inflight_blocks m) peer);
  round_size : len made <= Z.max 1 window;
  round_once : NoDup (assigned_block_hash <$> made);
  round_assigned : Forall (assigned ids heights timeout now m m') made;
  round_window a : a ∈ made -> exists missing, (missing_blocks_for_best_tip m).1 = Ok missing /\
    assigned_block_hash a ∈ take (Z.to_nat (Z.max 1 window)) missing;
}.

Lemma empty_round ids heights window per_peer timeout now m m' :
  sync_node m' = sync_node m -> _inflight_blocks m' = _inflight_blocks m -> fair_round ids heights window per_peer timeout now m [] m'.
Proof.
  intros Hn Hi. split; [done|rewrite Hi; lia|unfold len; simpl; lia|constructor|constructor|]. by intros a Ha%not_elem_of_nil.
Qed.

End downloads.

(** ** Progress *)

Section progress.
Context `{PyRepr, CryptoBackend}.

(** The scheduler does not stall while it can go on: when the first missing block
    of the best branch has not been asked for and an active peer that has it is
    below its cap, the round records a request for that block, also when it raises
    later on, and the assignments it returns are not empty. *)
Theorem downloads_make_progress (ids : list str) (heights : option (list (str * Z))) (window per_peer : Z) (timeout now : float)
    (m : SyncManager) (hash : str) (rest : list str) (record : HeaderRecord) (h : Z) (peer : str) :
  (missing_blocks_for_best_tip m).1 = Ok (hash :: rest) -> dict_get (_inflight_blocks m) hash = None ->
  block_missing (sync_node m) hash = Ok true ->
  header_get_record (headers (sync_node m)) hash = Ok (Some record) -> record_height record = Some h ->
  peer ∈ ids -> h <= default h (dict_get (default [] heights) peer) -> load (_inflight_blocks m) peer < Z.max 1 per_peer ->
  let '(result, m') := reserve_block_downloads ids heights window per_peer timeout now m in
  is_Some (dict_get (_inflight_blocks m') hash) /\ result ≠ Ok [].
Proof.
  intros Hmiss Hnew Hb Hrec Hh Hin Hserve Hload. unfold reserve_block_downloads.
  destruct ids as [|id ids']; [by apply not_elem_of_nil in Hin|]. unfold sbind at 1.
  pose proof (keeps_wanted_requests (sync_node m) (_inflight_blocks m) m ltac:(done)) as Hk.
  destruct (missing_blocks_for_best_tip m) as [[missing|e] m1]; [|discriminate]. injection Hmiss as ->. destruct Hk as [Hn Hi].
  unfold sbind at 1, gets at 1. replace (Z.to_nat (Z.max 1 window)) with (S (Z.to_nat (Z.max 1 window - 1))) by lia.
  cbn [take reserve_loop]. unfold sbind at 1, of_node at 1, asks at 1. rewrite Hn, Hb. cbn [negb].
  unfold sbind at 1, gets at 1. rewrite Hi, Hnew. rewrite bool_decide_eq_false_2 by (by intros [? ?]).
  unfold sbind at 1, of_node at 1, asks at 1. rewrite Hn, Hrec. unfold sbind at 1, lift at 1. rewrite Hh. cbn [int_of rbind].
  unfold sbind at 1, gets at 1. destruct (head (filter _ _)) as [selected|] eqn:Hsel.
  - unfold sbind at 1, modify at 1. set (m2 := set_requests _ _ _ _). set (a := mkAssignment _ _ _ _).
    assert (Hreq : sync_node m2 = sync_node m /\ dict_get (_inflight_blocks m2) hash = Some (mkRequest hash selected now (float_add now timeout) 1))
      by (split; [exact Hn|apply dict_get_set_eq]).
    pose proof (reserve_loop_request (id :: ids') (default [] heights) (Z.max 1 per_peer) timeout now (sync_node m) hash _
      (take (Z.to_nat (Z.max 1 window - 1)) rest) Hb (count_up (inflight_counts (id :: ids') (_inflight_blocks m)) selected) ([] ++ [a]) m2 Hreq) as Hstay.
    destruct (reserve_loop _ _ _ _ _ _ _ _ m2) as [[made|e] m3] eqn:E.
    + destruct Hstay as [_ ->]. split; [done|]. intros [= ->]. apply (reserve_loop_grows _ _ _ _ _ a) in E; [by apply not_elem_of_nil in E|left].
    + destruct Hstay as [[_ ->] _]. by split.
  - exfalso. apply head_None in Hsel. apply (not_elem_of_nil peer). rewrite <- Hsel. apply list_elem_of_filter.
    split; [by rewrite inflight_counts_load|]. unfold candidate_peers. apply elem_of_sorted_by, list_elem_of_filter. split; [|done].
    simpl. by apply Z.leb_le.
Qed.
End progress.
