(* ===== verification/Scenario.v ===== *)
(** * A concrete chain

    Two blocks of a small network, built with the serialization, hashing and
    signing code of the library and accepted by [apply_block]: the first pays its
    miner, the second spends that output and registers a node.  The properties of
    validation and of the chain are evaluated on them. *)

From S2P Require Import Prelude PyState PyOrder PyText Hashes Params Models Serialization Registry Economics Pow Merkle Crypto Addresses Json Settlement Nodes Utxo UtxoStore Headers RewardStore Validation ValidationFacts RegistryRules ViewEquivalence Service ServiceRuns Ledger ChainFacts.

Definition chain_params : ConsensusParams := {|
  coinbase_maturity := 1; halving_interval := 111000;
  initial_miner_subsidy_chipbits := 5000; initial_node_epoch_reward_chipbits := 1001;
  max_money_chipbits := 1000000000; target_block_time_seconds := 300;
  difficulty_adjustment_window := 200; genesis_bits := 0x207FFFFF;
  max_block_weight := 4000000; max_block_sigops := 80000; epoch_length_blocks := 100;
  register_node_fee_chipbits := 100000000; renew_node_fee_chipbits := 10000000;
  node_reward_activation_height := 0; reward_node_warmup_epochs := 0;
  reward_check_windows_per_epoch := 1; reward_target_checks_per_epoch := 1;
  reward_min_passed_checks_per_epoch := 1; reward_verifier_committee_size := 1; reward_verifier_quorum := 1;
  reward_final_confirmation_window_blocks := 10; reward_sync_lag_tolerance_blocks := 5;
  max_rewarded_nodes_per_epoch := 10; max_attestation_bundles_per_block := 4; max_attestations_per_bundle := 24;
  max_attestations_per_verifier_per_window := 1; target_block_time_activation_height := 0;
  legacy_target_block_time_seconds := None; pq_support_activation_height_param := None;
  reward_node_fee_recent_driver_activation_height := 0;
|}.

Definition miner_address : str := Eval vm_compute in demo_address.

Definition coinbase_paying (amount h : Z) : Transaction :=
  mkTransaction 1 [] [mkTxOutput amount miner_address] 0
    (list_to_map [(u "coinbase", u "true"); (u "height", py_str_int h)]).

Definition block_on (previous : str) (time n : Z) (ts : list Transaction) : Block :=
  mkBlock (mkBlockHeader 1 previous (ok_or (let* ids := mapM txid ts in merkle_root ids) []) time 0x207FFFFF n) ts.

(** The first block *)
Definition genesis_coinbase : Transaction := coinbase_paying 5000 0.
Definition genesis_txid : str := Eval vm_compute in ok_or (txid genesis_coinbase) [].
Definition genesis : Block := Eval vm_compute in block_on zero_hash 100 0 [genesis_coinbase].
Definition genesis_hash : str := Eval vm_compute in ok_or (block_hash (header genesis)) [].

(** A payment of the first miner's output back to itself, with a fee of 100 *)
Definition unsigned_payment : Transaction :=
  mkTransaction 1 [mkTxInput (mkOutPoint genesis_txid 0) [] [] 0xFFFFFFFF 0] [mkTxOutput 4900 miner_address] 0 ∅.
Definition payment_signature : bytes := Eval vm_compute in
  ok_or (let* digest := transaction_signature_digest unsigned_payment 0 (mkTxOutput 5000 miner_address) (u "devnet") in
         sign_digest demo_private_key digest []) [].
Definition payment : Transaction :=
  mkTransaction 1 [mkTxInput (mkOutPoint genesis_txid 0) payment_signature demo_pubkey 0xFFFFFFFF 0]
    [mkTxOutput 4900 miner_address] 0 ∅.

(** The registration of a node by the same key *)
Definition registration_with (signature_hex : str) : Transaction :=
  mkTransaction 1 [] [] 0 (list_to_map [(u "kind", REGISTER_NODE_KIND); (u "node_id", u "node-1"); (u "payout_address", miner_address);
    (u "owner_pubkey_hex", hex demo_pubkey); (u "owner_signature_hex", signature_hex)]).
Definition registration_signature : str := Eval vm_compute in
  hex (ok_or (let* digest := special_node_transaction_signature_digest (registration_with []) in sign_digest demo_private_key digest []) []).
Definition registration : Transaction := registration_with registration_signature.

(** The second block *)
Definition second : Block := Eval vm_compute in
  block_on genesis_hash 400 2 [coinbase_paying 5100 1; payment; registration].


Definition node0 : NodeService := new_service chain_params (u "devnet").
Definition node1 : NodeService := (apply_block genesis node0).2.
Definition node2 : NodeService := (apply_block second node1).2.
Definition second_hash : str := Eval vm_compute in ok_or (block_hash (header second)) [].

(** ** Running the blocks *)

(** What the run of the two blocks and of the way back shows *)
Definition run_is_as_expected : bool :=
  match apply_block genesis node0 with
  | (Raise _, _) => false
  | (Ok _, s1) =>
      negb (bool_decide (is_Some (header_rows (headers s1) !! second_hash))) && bool_decide (list_records (node_registry s1) = []) &&
      (next_height s1 =? 1) && (utxo_total (utxo_rows (chainstate s1)) =? 5000) &&
      match apply_block second s1 with
      | (Raise _, _) => false
      | (Ok fees, s2) =>
          (fees =? 100) && (next_height s2 =? 2) && (utxo_total (utxo_rows (chainstate s2)) =? 10000) &&
          (len (registry_store_list (node_registry s2)) =? 1) &&
          match activate_chain genesis_hash s2 with
          | (Raise _, _) => false
          | (Ok result, _) => (reorg_depth result =? 1) && (applied_blocks result =? 0)
          end
      end
  end.

Lemma the_run : run_is_as_expected = true.
Proof. vm_compute. reflexivity. Qed.

Record expected_run : Prop := {
  first_applied : exists fees, apply_block genesis node0 = (Ok fees, node1);
  second_is_new : header_rows (headers node1) !! second_hash = None;
  nobody_registered : list_records (node_registry node1) = [];
  height_after_first : next_height node1 = 1;
  second_applied : apply_block second node1 = (Ok 100, node2);
  height_after_second : next_height node2 = 2;
  total_after_second : utxo_total (utxo_rows (chainstate node2)) = 10000;
  one_registered : len (registry_store_list (node_registry node2)) = 1;
  way_back : exists result s, activate_chain genesis_hash node2 = (Ok result, s) /\ reorg_depth result = 1 /\ applied_blocks result = 0;
}.

Lemma the_run_expected : expected_run.
Proof.
  pose proof the_run as R. unfold run_is_as_expected in R. destruct (apply_block genesis node0) as [[f1|] s1] eqn:E1; [|discriminate].
  assert (N1 : node1 = s1) by (unfold node1; rewrite E1; reflexivity). rewrite <- N1 in E1, R. clear N1 s1.
  apply andb_prop in R as [R R2]. destruct (apply_block second node1) as [[f2|] s2] eqn:E2; [|discriminate].
  assert (N2 : node2 = s2) by (unfold node2; rewrite E2; reflexivity). rewrite <- N2 in E2, R2. clear N2 s2.
  apply andb_prop in R as [R _]. apply andb_prop in R as [R Hh1%Z.eqb_eq]. apply andb_prop in R as [Hn%negb_true_iff Hr%bool_decide_eq_true].
  apply bool_decide_eq_false in Hn. apply andb_prop in R2 as [R2 R3]. apply andb_prop in R2 as [R2 Hl%Z.eqb_eq].
  apply andb_prop in R2 as [R2 Ht%Z.eqb_eq]. apply andb_prop in R2 as [Hf%Z.eqb_eq Hh2%Z.eqb_eq]. rewrite Hf in E2.
  destruct (activate_chain genesis_hash node2) as [[result|] s] eqn:E3; [|discriminate]. apply andb_prop in R3 as [Hd%Z.eqb_eq Ha%Z.eqb_eq].
  split; [exists f1; exact E1|by apply eq_None_not_Some|exact Hr|exact Hh1|exact E2|exact Hh2|exact Ht|exact Hl|].
  exists result, s. split; [exact E3|]. split; [exact Hd|exact Ha].
Qed.

Lemma chain_params_ok : params_ok chain_params.
Proof. repeat split; vm_compute; congruence. Qed.

(** A header whose hash is new and not null cannot collide. *)
Lemma admissible_new db hdr hash :
  block_hash hdr = Ok hash -> bool_decide (hash = zero_hash) = false -> header_rows db !! hash = None -> admissible db hdr.
Proof.
  intros Hh Hz Hn hash' Hh'. rewrite Hh in Hh'. injection Hh' as <-. apply bool_decide_eq_false in Hz.
  split; [exact Hz|]. intros row Hr. rewrite Hn in Hr. discriminate.
Qed.

Lemma genesis_canonical : canonical_block genesis = genesis.
Proof. vm_compute. reflexivity. Qed.
Lemma second_canonical : canonical_block second = second.
Proof. vm_compute. reflexivity. Qed.

Lemma node1_reachable : reachable chain_params (u "devnet") node1.
Proof.
  destruct (first_applied the_run_expected) as [fees E1]. eapply rtc_once. refine (step_extend _ _ _ _ _ genesis_canonical E1).
  apply (admissible_new _ _ genesis_hash); [vm_compute; reflexivity..|reflexivity].
Qed.

Lemma node2_reachable : reachable chain_params (u "devnet") node2.
Proof.
  eapply rtc_r; [exact node1_reachable|]. refine (step_extend _ _ _ _ _ second_canonical (second_applied the_run_expected)).
  apply (admissible_new _ _ second_hash); [vm_compute; reflexivity..|exact (second_is_new the_run_expected)].
Qed.

(** ** The chain *)

Lemma active_chain_refines_ledger_witness :
  exists path chain l, len path = 2 /\ stored_along (blocks node2) chain path /\ ledger_of chain = Ok l /\
    utxo_rows (chainstate node2) = ledger_utxos l.
Proof.
  destruct (active_chain_refines_ledger chain_params chain_params_ok (u "devnet") node2 node2_reachable)
    as (path & chain & l & Htip & Hh & Hl & Hu & _).
  pose proof (height_after_second the_run_expected) as Hn. unfold next_height in Hn.
  exists path, chain, l. split; [|split; [exact Hh|split; [exact Hl|exact Hu]]].
  destruct (chain_tip node2) as [tip|]; [destruct Htip as [_ Hlen]; lia|discriminate].
Defined.

Lemma reachable_supply_bounded_witness :
  utxo_total (utxo_rows (chainstate node2)) = 10000 /\ utxo_total (utxo_rows (chainstate node2)) <= minted chain_params 1.
Proof.
  split; [exact (total_after_second the_run_expected)|].
  destruct (reachable_supply_bounded chain_params chain_params_ok (u "devnet") node2 node2_reachable) as (_ & Hle & _).
  rewrite (height_after_second the_run_expected) in Hle. exact Hle.
Defined.

Lemma reachable_registry_unique_witness :
  len (registry_store_list (node_registry node2)) = 1 /\ registry_db_wf (node_registry node2).
Proof.
  split; [exact (one_registered the_run_expected)|].
  destruct (reachable_registry_unique chain_params chain_params_ok (u "devnet") node2 node2_reachable) as [Hw _]. exact Hw.
Defined.

(** Back to the first block: the second is disconnected. *)
Lemma activation_report_witness :
  exists result s', activate_chain genesis_hash node2 = (Ok result, s') /\
    reorg_depth result = 1 /\ tip_hash <$> chain_tip s' = Some genesis_hash /\ next_height s' = 1.
Proof.
  destruct (way_back the_run_expected) as (result & s' & E & Hd & Ha).
  destruct (activation_report chain_params chain_params_ok (u "devnet") node2 genesis_hash result s' node2_reachable
    ltac:(discriminate) E) as (Ht & _ & _ & _ & _ & Hn).
  exists result, s'. split; [exact E|]. split; [exact Hd|]. split; [exact Ht|].
  rewrite (height_after_second the_run_expected) in Hn. lia.
Defined.

(** ** Validation

    What [apply_block] checked of the second block and of its transactions, taken
    from the run above. *)

Abbreviation chain_context := (ValidationContext (OverlayUtxoView SQLiteChainStateRepository) InMemoryNodeRegistryView).

Lemma second_validated :
  exists context : chain_context, validate_block second context = Ok 100 /\ context_height context = 1 /\
    context_params context = chain_params /\ utxo_view context = overlay_over (chainstate node1) /\
    node_registry_view context = registry_from_records [].
Proof.
  destruct (applied_validated _ _ _ _ (proj1 (apply_block_returns _ _ _ _) (second_applied the_run_expected))) as (context & Hc & Hv).
  apply tip_context_fields in Hc as (Hh & Hp & Hu & Hr & _). exists context. rewrite Hh, Hp, Hu, Hr.
  split; [exact Hv|]. split; [exact (height_after_first the_run_expected)|].
  split; [|split; [reflexivity|unfold registry_store_snapshot; f_equal; exact (nobody_registered the_run_expected)]].
  destruct (first_applied the_run_expected) as [fees E1]. exact (apply_block_params _ _ _ _ (proj1 (apply_block_returns _ _ _ _) E1)).
Qed.

(** The payment and the registration in the contexts they were validated in *)
Lemma payment_validated :
  exists (context : chain_context) fee, validate_transaction payment context = Ok fee /\
    utxo_view context = overlay_over (chainstate node1).
Proof.
  destruct second_validated as (context & Hv & _ & _ & Hu & _).
  apply validate_block_inv in Hv as (coinbase & rest & st & Ht & _ & _ & Hr & Hst & _).
  change (transactions second) with [coinbase_paying 5100 1; payment; registration] in Ht.
  injection Ht as _ <-. apply Forall_cons in Hr as [[Hl _] _]. cbn [foldM] in Hst. apply rbind_Ok in Hst as (st1 & Hst & _).
  apply stage_transaction_inv in Hst as (? & ? & ? & staged & fee & _ & _ & Hs & Hv & _).
  apply staged_context_fields in Hs as (Hsu & _). exists staged, fee. split; [|rewrite Hsu; exact Hu].
  unfold validate_transaction. rewrite Hl. exact Hv.
Qed.

Lemma registration_validated :
  exists (context : chain_context) fee v', validate_transaction registration context = Ok fee /\
    node_registry_view context = registry_from_records [] /\
    apply_special_node_transaction registration (context_height context) (node_registry_view context) = Ok v'.
Proof.
  destruct second_validated as (context & Hv & _ & _ & _ & Hreg).
  apply validate_block_inv in Hv as (coinbase & rest & st & Ht & _ & _ & Hr & Hst & _).
  change (transactions second) with [coinbase_paying 5100 1; payment; registration] in Ht.
  injection Ht as _ <-. apply Forall_cons in Hr as [_ Hr]. apply Forall_cons in Hr as [[Hl _] _]. cbn [foldM] in Hst.
  apply rbind_Ok in Hst as (st1 & Hst1 & Hst). apply rbind_Ok in Hst as (st2 & Hst & _).
  apply stage_transaction_inv in Hst1 as (? & ? & ? & ? & ? & _ & _ & _ & _ & He1).
  apply stage_effects_registry in He1. cbn [staged_registry initial_staged] in He1.
  apply stage_transaction_inv in Hst as (? & ? & ? & staged & fee & _ & _ & Hs & Hv & He).
  apply stage_effects_registry in He. cbn [staged_registry] in He. apply staged_context_fields in Hs as (_ & Hsr & Hsh & _).
  change (Ok (node_registry_view context) = Ok (staged_registry st1)) in He1. injection He1 as He1. rewrite <- He1 in He, Hsr.
  exists staged, fee, (staged_registry st2). split; [unfold validate_transaction; rewrite Hl; exact Hv|].
  split; [rewrite Hsr; exact Hreg|]. rewrite Hsr, Hsh. exact He.
Qed.

Lemma payment_standard : is_standard payment = true /\ is_coinbase_transaction payment = false.
Proof. split; vm_compute; reflexivity. Qed.

Lemma transaction_conserves_value_witness :
  exists (context : chain_context) fee, validate_transaction payment context = Ok fee /\
    spent_value (utxo_map (utxo_view context)) (spends payment) = transaction_output_total payment + fee.
Proof.
  destruct payment_validated as (context & fee & Hv & _).
  pose proof (transaction_conserves_value payment context fee Hv (proj2 payment_standard)) as Hc.
  rewrite (proj1 payment_standard) in Hc. destruct Hc as (_ & _ & _ & _ & He). exists context, fee. split; [exact Hv|exact He].
Defined.

Lemma spends_are_authorised_witness :
  exists (context : chain_context) fee entry, validate_transaction payment context = Ok fee /\
    utxo_map (utxo_view context) !! mkOutPoint genesis_txid 0 = Some entry.
Proof.
  destruct payment_validated as (context & fee & Hv & _).
  pose proof (spends_are_authorised payment context fee Hv (proj2 payment_standard) (proj1 payment_standard)) as Hf.
  rewrite Forall_forall in Hf.
  destruct (Hf (0, mkTxInput (mkOutPoint genesis_txid 0) payment_signature demo_pubkey 0xFFFFFFFF 0) ltac:(left))
    as (entry & digest & info & Hl & _).
  exists context, fee, entry. split; [exact Hv|exact Hl].
Defined.

Lemma block_has_no_double_spend_witness : NoDup (block_outpoints second).
Proof. destruct second_validated as (context & Hv & _). exact (block_has_no_double_spend second context 100 Hv). Defined.

Lemma block_cannot_inflate_witness :
  exists miner pool, subsidy_split_chipbits 1 chain_params = Ok (miner, pool) /\
    supply (chainstate node2) <= supply (chainstate node1) + miner + pool.
Proof.
  destruct second_validated as (context & Hv & Hh & Hp & Hu & _).
  pose proof (applied_outputs _ _ _ _ (proj1 (apply_block_returns _ _ _ _) (second_applied the_run_expected))) as Ha.
  rewrite (height_after_first the_run_expected), <- Hh in Ha.
  destruct (block_cannot_inflate second context 100 (chainstate node1) (chainstate node2) Hv Ha) as (miner & pool & Hs & Hle).
  - rewrite Hu, overlay_over_map. reflexivity.
  - destruct (reachable_inv chain_params chain_params_ok (u "devnet") node1 node1_reachable) as [_ _ _ (path & chain & l & _ & [_ _ Hul _ [Hn _]])].
    rewrite Hul. exact Hn.
  - rewrite Hp. exact chain_params_ok.
  - rewrite Hh. discriminate.
  - exists miner, pool. rewrite Hh, Hp in Hs. split; [exact Hs|exact Hle].
Defined.

Lemma rewards_recorded_once_witness :
  exists context : chain_context, recorded_once [payment; registration] (reward_attestation_identities context) (settled_epoch_indexes context).
Proof.
  destruct second_validated as (context & Hv & _). exists context. exact (rewards_recorded_once second context 100 Hv).
Defined.

Lemma registration_kind : is_special_node_transaction registration = true /\ is_coinbase_transaction registration = false.
Proof. split; vm_compute; reflexivity. Qed.

Lemma registry_under_owner_control_witness :
  exists context : chain_context,
    special_node_transaction_signature_is_valid registration (network context) (context_height context) = Ok true.
Proof.
  destruct registration_validated as (context & fee & v' & Hv & Hr & Ha).
  destruct (registry_under_owner_control registration context fee v') as (_ & _ & _ & _ & Hsig & _).
  - rewrite Hr. apply registry_from_records_wf.
  - rewrite Hr. intros r1 r2 Hin. destruct (not_elem_of_nil _ Hin).
  - exact (proj1 registration_kind).
  - exact (proj2 registration_kind).
  - exact Hv.
  - exact Ha.
  - exists context. exact Hsig.
Defined.

(** The second block against a set of outputs in memory *)
Definition memory_context : ValidationContext (OverlayUtxoView InMemoryUtxoView) InMemoryNodeRegistryView :=
  mkContext 1 0 chain_params (overlay_over (mkUtxos ∅)) (u "devnet") (mkRegistry []) ∅ [] ∅ ∅ None None true None.

Lemma memory_answers (v : InMemoryUtxoView) o : utxo_get v o = Ok (utxo_map v !! o).
Proof. reflexivity. Qed.

Lemma overlay_validation_equivalent_witness :
  validate_block second (map_context as_memory memory_context) = validate_block second memory_context.
Proof. exact (overlay_validation_equivalent second memory_context (memory_answers _)). Defined.
