(* ===== verification/SyncScenario.v ===== *)
(** * Synchronization on a concrete chain

    The node of [Scenario] after its first block, with blocks that a peer forges:
    a child of the second block that arrives before it, and a child of the first
    that claims a difficulty it was not mined at. *)

From S2P Require Import Prelude PyState PyOrder PyText Hashes Params Models Serialization Pow Merkle Crypto Addresses Json Headers Validation Mempool Service Ledger ChainFacts Node Sync SyncFacts SyncDownloads SyncMarks Scenario.
From Stdlib Require Import SpecFloat.

(** Blocks without transactions or work: no validation accepts them. *)
Definition forged_on (previous : str) (claimed : Z) : Block := mkBlock (mkBlockHeader 1 previous zero_hash 500 claimed 0) [].
Definition forged_child : Block := forged_on second_hash 0x207FFFFF.
Definition forged_work : Block := forged_on genesis_hash 0x03000001.
Definition forged_child_hash : str := Eval vm_compute in ok_or (block_hash (header forged_child)) [].
Definition forged_work_hash : str := Eval vm_compute in ok_or (block_hash (header forged_work)) [].

Definition tip_of (m : SyncManager) : option str := tip_hash <$> chain_tip (sync_node m).

Definition sync_clock (n : nat) : Z := 500 + Z.of_nat n.
Definition with_chain (s : NodeService) : Node := mkNode s new_mempool [] None.
Definition receive : Block -> stm SyncManager BlockIngestResult := receive_block sync_clock.

Section attacks.
Variable node : NodeService.

(** The forged child, then the second block, then the second block again *)
Definition after_child : SyncManager := (receive forged_child (new_sync (with_chain node) 2000)).2.
Definition after_second : res BlockIngestResult * SyncManager := receive second after_child.
Definition second_again : res BlockIngestResult * SyncManager := receive second after_second.2.

(** The block that claims work, then the header of the second block, then a round
    of downloads *)
Definition after_claim : res BlockIngestResult * SyncManager := receive forged_work (new_sync (with_chain node) 2000).
Definition after_header : res HeaderIngestResult * SyncManager := ingest_headers [header second] None after_claim.2.
Definition round_after : res (list BlockDownloadAssignment) * SyncManager :=
  reserve_block_downloads [u "peer"] None 16 16 (S754_zero false) (S754_zero false) after_header.2.

Definition is_nil {A} (m : res (list A)) : bool := match m with Ok [] => true | _ => false end.

Definition attacks_succeed : bool :=
  let '(first, m3) := after_second in
  let '(again, m4) := receive second m3 in
  let '(claim, m5) := after_claim in
  let '(ingest, m6) := ingest_headers [header second] None m5 in
  negb (is_ok first) && is_ok again &&
  bool_decide (tip_of m4 = Some genesis_hash) && bool_decide (second_hash ∈ (_invalid_activation_tips m4).*1) &&
  negb (is_ok claim) && is_ok ingest &&
  bool_decide (is_Some (header_rows (headers (sync_node m6)) !! second_hash)) &&
  bool_decide (block_rows (blocks (sync_node m6)) !! second_hash = None) &&
  is_nil (reserve_block_downloads [u "peer"] None 16 16 (S754_zero false) (S754_zero false) m6).1.

Record attacked : Prop := {
  second_raised : is_ok after_second.1 = false;
  second_returned : is_ok second_again.1 = true;
  second_not_active : tip_of second_again.2 = Some genesis_hash;
  second_marked : second_hash ∈ (_invalid_activation_tips second_again.2).*1;
  claim_raised : is_ok after_claim.1 = false;
  header_taken : is_Some (header_rows (headers (sync_node after_header.2)) !! second_hash);
  block_not_there : block_rows (blocks (sync_node after_header.2)) !! second_hash = None;
  nothing_asked : round_after.1 = Ok [];
}.

Lemma attacks_attacked : attacks_succeed = true -> attacked.
Proof.
  unfold attacks_succeed. intros R. destruct after_second as [first m3] eqn:E3.
  assert (E4 : second_again = receive second m3) by (unfold second_again; by rewrite E3).
  destruct (receive second m3) as [again m4]. destruct after_claim as [claim m5] eqn:E5.
  assert (E6 : after_header = ingest_headers [header second] None m5) by (unfold after_header; by rewrite E5).
  destruct (ingest_headers [header second] None m5) as [ingest m6].
  assert (E7 : round_after = reserve_block_downloads [u "peer"] None 16 16 (S754_zero false) (S754_zero false) m6)
    by (unfold round_after; by rewrite E6).
  repeat match type of R with (_ && _) = true => let R' := fresh "R" in apply andb_prop in R as [R R'] end. bool_prop.
  split; rewrite ?E3, ?E4, ?E5, ?E6; try done. rewrite E7. unfold is_nil in *. by repeat case_match.
Qed.
End attacks.

Definition run_attacks : bool := match apply_block genesis node0 with (Ok _, s) => attacks_succeed s | (Raise _, _) => false end.

Lemma attack_run : run_attacks = true.
Proof. vm_compute. reflexivity. Qed.

Lemma attacked_node1 : attacked node1.
Proof.
  apply attacks_attacked. pose proof attack_run as R. unfold run_attacks in R. destruct (first_applied the_run_expected) as [fees E].
  rewrite E in R. exact R.
Qed.

(** On this node the second block is valid, but when a forged child of it is received
    first, receiving the second block raises and marks it as invalid, and receiving
    it again leaves the tip where it was. *)
Example valid_block_refused_with_forged_child :
  apply_block second node1 = (Ok 100, node2) /\
  is_ok (receive second (receive forged_child (new_sync (with_chain node1) 2000)).2).1 = false /\
  is_ok (second_again node1).1 = true /\ tip_of (second_again node1).2 = Some genesis_hash /\
  second_hash ∈ (_invalid_activation_tips (second_again node1).2).*1.
Proof.
  destruct attacked_node1 as [H1 H2 H3 H4 _ _ _ _]. split; [exact (second_applied the_run_expected)|]. split; [exact H1|].
  split; [exact H2|]. split; [exact H3|exact H4].
Qed.

(** On this node a block that claims a difficulty it was not mined at is refused, but
    its header stays; the header of the honest second block is taken, and a round of
    downloads then asks for nothing. *)
Example forged_work_stalls_downloads :
  is_ok (receive forged_work (new_sync (with_chain node1) 2000)).1 = false /\
  is_Some (header_rows (headers (sync_node (after_header node1).2)) !! second_hash) /\
  block_rows (blocks (sync_node (after_header node1).2)) !! second_hash = None /\
  (reserve_block_downloads [u "peer"] None 16 16 (S754_zero false) (S754_zero false) (after_header node1).2).1 = Ok [].
Proof.
  destruct attacked_node1 as [_ _ _ _ H1 H2 H3 H4]. split; [exact H1|]. split; [exact H2|]. split; [exact H3|exact H4].
Qed.

(** ** A run from the first block *)

Definition in_play (hdr : BlockHeader) : Prop := hdr = header genesis.

Lemma genesis_hashed : block_hash (header genesis) = Ok genesis_hash.
Proof. vm_compute. reflexivity. Qed.

Lemma Ok_inj {A} (a b : A) : Ok a = Ok b -> a = b.
Proof. by intros [= ->]. Qed.

Lemma genesis_sound : sound_hashes in_play.
Proof.
  split.
  - intros h1 h2 x -> -> _ _. reflexivity.
  - intros hdr ->. rewrite genesis_hashed. intros E. assert (Hb : bool_decide (genesis_hash = zero_hash) = false) by (vm_compute; reflexivity).
    apply bool_decide_eq_false in Hb. apply Hb. exact (Ok_inj _ _ E).
  - intros hdr ->. vm_compute. reflexivity.
Qed.

Definition manager0 : SyncManager := new_sync (new_node chain_params (u "devnet")) 2000.

Lemma manager_runs : sync_reachable chain_params (u "devnet") sync_clock in_play 2000 (receive genesis manager0).2.
Proof. eapply rtc_once. exact (on_block sync_clock in_play manager0 genesis eq_refl). Qed.

Lemma synchronization_refines_chain_witness :
  reachable chain_params (u "devnet") (sync_node (receive genesis manager0).2) \/
  exists s1 s2, reachable chain_params (u "devnet") s1 /\ torn_step s1 s2 /\ rtc any_step s2 (sync_node (receive genesis manager0).2).
Proof. exact (synchronization_refines_chain chain_params (u "devnet") sync_clock in_play genesis_sound 2000 _ manager_runs). Defined.

Lemma synchronization_state_wellformed_witness : len (_orphan_blocks (receive genesis manager0).2) <= 256.
Proof.
  destruct (synchronization_state_wellformed chain_params (u "devnet") sync_clock in_play genesis_sound 2000 _ manager_runs) as (_ & _ & Hl & _).
  exact Hl.
Defined.

Lemma receive_block_recursion_witness : receive genesis manager0 = receive_body sync_clock receive genesis manager0.
Proof. exact (receive_block_recursion chain_params (u "devnet") sync_clock in_play genesis_sound 2000 manager0 genesis (rtc_refl _ _) eq_refl). Defined.

(** The header of the first block is taken, with the difficulty of a root. *)
Definition ingested : SyncManager := (ingest_headers [header genesis] None manager0).2.

Lemma genesis_ingested : (match header_rows (headers (sync_node ingested)) !! genesis_hash with Some _ => true | None => false end) = true.
Proof. vm_compute. reflexivity. Qed.

Lemma ingested_headers_checked_witness :
  exists row, header_rows (headers (sync_node ingested)) !! genesis_hash = Some row /\ honest_row [header genesis] (sync_node ingested) genesis_hash row.
Proof.
  destruct (ingested_headers_checked [header genesis] None manager0) as (_ & _ & Hg). pose proof genesis_ingested as Hr. fold ingested in Hg.
  destruct (header_rows (headers (sync_node ingested)) !! genesis_hash) as [row|] eqn:E; [|discriminate]. exists row. split; [reflexivity|].
  apply Hg; [reflexivity|exact E].
Defined.

(** ** A round of downloads *)

(** Two headers are known and no block. *)
Definition header_node (bdb : BlockDb) : NodeService :=
  mkService chain_params (u "devnet") sample_index bdb (chainstate node0) (node_registry node0) (reward_attestations node0)
    (reward_settlements node0) None.
Definition header_manager : SyncManager := new_sync (with_chain (header_node (mkBlockDb ∅))) 2000.
Definition zero : float := S754_zero false.
Definition one_round := reserve_block_downloads [u "peer"] None 16 16 zero zero header_manager.

Lemma one_round_made : (match one_round.1 with Ok made => len made =? 2 | Raise _ => false end) = true.
Proof. vm_compute. reflexivity. Qed.


Definition root_record : HeaderRecord := mkHeaderRecord root_hash root_header zero_hash (Some 0) (Some 9) true.

Lemma downloads_make_progress_witness : is_Some (dict_get (_inflight_blocks one_round.2) root_hash).
Proof.
  pose proof (downloads_make_progress [u "peer"] None 16 16 zero zero header_manager root_hash [child_hash] root_record 0 (u "peer")) as Hp.
  fold one_round in Hp. destruct one_round as [result m']. apply Hp; try (vm_compute; reflexivity); [left|vm_compute; discriminate].
Defined.

(** The branch of the two headers is refused: the root is marked too. *)
Definition refused := refuse_branch None child_hash true (Exn ValueError "refused") header_manager.


(** ** A branch that is ready *)

Definition root_stored : NodeService :=
  header_node (mkBlockDb {[root_hash := ok_or (serialize_block (mkBlock root_header [])) []]}).
Definition child_record : HeaderRecord := mkHeaderRecord child_hash child_header root_hash (Some 1) (Some 11) false.

Lemma scan_ready_example :
  exists path, path_above_anchor root_stored child_hash = Ok (Some path) /\ Forall (fun x => x ∉ []) path.
Proof.
  destruct (scan_ready_spec root_stored [] [child_record] root_hash ltac:(vm_compute; reflexivity))
    as (tip & path & run & rest & record & Hin & Hp & _ & Hr & _).
  apply list_elem_of_singleton in Hin. rewrite Hin in Hp. exists path. split; [exact Hp|exact Hr].
Defined.
