(* ===== verification/MempoolScenario.v ===== *)
(** * A concrete mempool

    The payment and the registration of [Scenario] are admitted to an empty pool
    over the output of the first block, a conflicting spend is refused, and the
    pool is evicted to one transaction.  One run is evaluated; the witnesses of the
    mempool's properties follow from it. *)

From S2P Require Import Prelude PyState PyOrder PyText Hashes Params Models Serialization Registry Economics Crypto Addresses Json Settlement Nodes Utxo UtxoStore RewardStore Validation PqPolicy Mempool MempoolFacts Scenario.

Definition pool_chain : InMemoryUtxoView :=
  mkUtxos {[ mkOutPoint genesis_txid 0 := mkUtxoEntry (mkTxOutput 5000 miner_address) 0 true ]}.

Definition pool_factory (v : OverlayUtxoView InMemoryUtxoView) :
    res (ValidationContext (OverlayUtxoView InMemoryUtxoView) InMemoryNodeRegistryView) :=
  Ok (mkContext 1 0 chain_params v (u "devnet") (mkRegistry []) ∅ [] ∅ ∅ None None true None).

Definition nothing_confirmed (id : str) : res (option Transaction) := Ok None.
Definition pool_clock (n : nat) : Z := 20 + Z.of_nat n.

Definition submit (t : Transaction) (at_ : Z) : pool (Transaction * Z) :=
  accept pool_chain pool_factory nothing_confirmed default_policy pool_clock t (Some at_).

(** The same output spent again, with all of it as the fee *)
Definition second_spend : Transaction := mkTransaction 1 (inputs payment) [] 0 ∅.

Definition pool1 : MempoolManager := (submit payment 10 new_mempool).2.
Definition pool2 : MempoolManager := (submit registration 11 pool1).2.

Definition result_is (r : res (Transaction * Z)) (fee : Z) : bool := match r with Ok (_, f) => f =? fee | Raise _ => false end.
Definition refused (r : res (Transaction * Z)) : bool := match r with Ok _ => false | Raise _ => true end.

Lemma result_is_Ok r fee : result_is r fee = true -> exists t', r = Ok (t', fee).
Proof. destruct r as [[t' f]|]; [|discriminate]. intros ->%Z.eqb_eq. by exists t'. Qed.

(** Both admissions, the refusal, and the sizes of the pool *)
Definition pool_run : bool :=
  let (r1, m1) := submit payment 10 new_mempool in
  let (r2, m2) := submit registration 11 m1 in
  let (r3, m3) := submit second_spend 12 m2 in
  result_is r1 100 && result_is r2 0 && refused r3 &&
  bool_decide (size (mempool_rows (repository m2)) = 2%nat) && bool_decide (size (mempool_rows (repository m3)) = 2%nat).

Lemma the_pool_run : pool_run = true.
Proof. vm_compute. reflexivity. Qed.

Record expected_pool : Prop := {
  payment_accepted : exists t', submit payment 10 new_mempool = (Ok (t', 100), pool1);
  second_spend_refused : refused (submit second_spend 12 pool2).1 = true;
  pool2_size : size (mempool_rows (repository pool2)) = 2%nat;
}.

Lemma the_expected_pool : expected_pool.
Proof.
  pose proof the_pool_run as R. unfold pool_run in R. destruct (submit payment 10 new_mempool) as [r1 m1] eqn:E1.
  assert (N1 : pool1 = m1) by (unfold pool1; rewrite E1; reflexivity). rewrite <- N1 in E1, R.
  destruct (submit registration 11 pool1) as [r2 m2] eqn:E2.
  assert (N2 : pool2 = m2) by (unfold pool2; rewrite E2; reflexivity). rewrite <- N2 in R.
  destruct (submit second_spend 12 pool2) as [r3 m3] eqn:E3.
  apply andb_prop in R as [R _]. apply andb_prop in R as [R Hs%bool_decide_eq_true]. apply andb_prop in R as [R H3].
  apply andb_prop in R as [H1 _]. split; [|rewrite E3; exact H3|exact Hs].
  destruct (result_is_Ok _ _ H1) as [t' ->]. exists t'. exact E1.
Qed.

Lemma payment_canonical : canonical_tx payment = payment.
Proof. reflexivity. Qed.

Lemma registration_canonical : canonical_tx registration = registration.
Proof. vm_compute. reflexivity. Qed.

Lemma pool2_reached : rtc (mempool_step (B := InMemoryUtxoView) (R := InMemoryNodeRegistryView) default_policy) new_mempool pool2.
Proof.
  eapply rtc_l; [|eapply rtc_once].
  - exact (on_accept _ new_mempool pool_chain pool_factory nothing_confirmed pool_clock payment (Some 10) payment_canonical).
  - exact (on_accept _ pool1 pool_chain pool_factory nothing_confirmed pool_clock registration (Some 11) registration_canonical).
Qed.

Lemma mempool_conflict_free_witness :
  size (mempool_rows (repository pool2)) = 2%nat /\ refused (submit second_spend 12 pool2).1 = true /\
  exists entries, mempool_list_all (repository pool2) = Ok entries.
Proof.
  split; [exact (pool2_size the_expected_pool)|]. split; [exact (second_spend_refused the_expected_pool)|].
  exact (proj1 (mempool_conflict_free default_policy pool2 pool2_reached)).
Defined.

Lemma empty_pool_ok : pool_ok (repository new_mempool).
Proof. exact (pool_ok_clear (mkMempoolDb ∅)). Qed.

Lemma accepted_is_validated_witness :
  exists replaced, admitted pool_chain pool_factory nothing_confirmed default_policy (repository new_mempool) payment replaced 100.
Proof.
  destruct (payment_accepted the_expected_pool) as [t' E].
  destruct (accepted_is_validated default_policy pool_chain pool_factory nothing_confirmed pool_clock new_mempool payment (Some 10) t' 100 pool1
    empty_pool_ok payment_canonical ltac:(discriminate) E) as (_ & _ & (replaced & Ha & _) & _).
  exists replaced. exact Ha.
Defined.

(** The limits of a node that keeps one transaction *)
Definition one_only : MempoolPolicy := mkPolicy 1 100000 128 128 1 32 8 16 128 (72 * 60 * 60) DEFAULT_PQ_POLICY_LIMITS.

Lemma pool2_table : table_ok (repository pool2).
Proof.
  assert (Hs : forall m m', mempool_step (B := InMemoryUtxoView) (R := InMemoryNodeRegistryView) default_policy m m' -> manager_ok m -> manager_ok m')
    by apply mempool_step_ok.
  apply pool_table, (rtc_preserved manager_ok _ Hs _ _ pool2_reached), empty_pool_ok.
Qed.

Lemma eviction_keeps_best_witness :
  exists m', _evict_if_needed one_only pool2 = (Ok tt, m') /\ size (mempool_rows (repository m')) = 1%nat.
Proof.
  destruct (eviction_keeps_best one_only pool2 pool2_table ltac:(discriminate)) as (m' & E & _ & Hn & _).
  exists m'. split; [exact E|]. rewrite (pool2_size the_expected_pool) in Hn. change (max_mempool_transactions one_only) with 1 in Hn. lia.
Defined.

(** ** The post-quantum precheck *)

Definition pq_spend : Transaction :=
  mkTransaction 2 [mkTxInput (mkOutPoint genesis_txid 0) (replicate 2420 Byte.x01) (replicate 1312 Byte.x02) 0xFFFFFFFF SIG_SCHEME_ML_DSA_44] [mkTxOutput 4900 miner_address] 0 ∅.

Lemma precheck_bounds_verification_witness :
  pq_sigop_count pq_spend = 1 /\ pq_sigop_count pq_spend <= max_pq_sigops_per_tx DEFAULT_PQ_POLICY_LIMITS.
Proof.
  split; [reflexivity|].
  exact (proj1 (precheck_bounds_verification pq_spend DEFAULT_PQ_POLICY_LIMITS ltac:(vm_compute; reflexivity) ltac:(vm_compute; reflexivity))).
Defined.
