(* ===== verification/MiningScenario.v ===== *)
(** * Templates on concrete pools

    A pool of four transactions and the selection from it; a template with the
    settlement of an epoch; and a settlement that anyone may submit, that the rules
    for transactions accept and that no block can carry. *)

From S2P Require Import Prelude PyState PyOrder PyText Hashes Params Models Serialization Registry Economics Pow Merkle Crypto Addresses Json Settlement Nodes Utxo UtxoStore RewardStore Validation ValidationFacts PqPolicy Mempool Mining MiningFacts TemplateFacts Service Node NodeSettlements Scenario MempoolScenario.

(** ** A selection *)

Definition spend_of (id : str) (index amount : Z) : Transaction :=
  mkTransaction 1 [mkTxInput (mkOutPoint id index) [] [] 0xFFFFFFFF 0] [mkTxOutput amount miner_address] 0 ∅.

Definition parent_tx : Transaction := spend_of genesis_txid 0 4900.
Definition parent_id : str := Eval vm_compute in ok_or (txid parent_tx) [].
Definition pool_parent : MempoolEntry := mkPool parent_tx 100 10.
Definition pool_child : MempoolEntry := mkPool (spend_of parent_id 0 4400) 500 11.
Definition pool_other : MempoolEntry := mkPool (spend_of genesis_txid 1 10) 50 12.
Definition pool_cheap : MempoolEntry := mkPool (spend_of genesis_txid 2 11) 1 13.
Definition pool_entries : list MempoolEntry := [pool_cheap; pool_child; pool_other; pool_parent].

Definition pool_registry : InMemoryNodeRegistryView := mkRegistry [].
Definition entry_weight : Z := Eval vm_compute in ok_or (transaction_weight_units parent_tx) 0.

Local Abbreviation select_with n :=
  (_select_mempool_entries chain_params pool_entries 1 (u "devnet") (n * entry_weight) {[genesis_txid]} pool_registry).

(** The child waits for its parent in the first round and is out when there is no
    room for a fourth. *)
Lemma selected_three : select_with 3 = Ok [pool_parent; pool_other; pool_cheap].
Proof. vm_compute. reflexivity. Qed.
Lemma selected_four : select_with 4 = Ok [pool_parent; pool_other; pool_cheap; pool_child].
Proof. vm_compute. reflexivity. Qed.

Lemma selection_within_limits_witness :
  exists weight, weights_of (pool_transaction <$> [pool_parent; pool_other; pool_cheap]) = Ok weight /\ weight <= Z.max 0 (3 * entry_weight).
Proof.
  destruct (selection_within_limits chain_params pool_entries 1 (u "devnet") (3 * entry_weight) {[genesis_txid]} pool_registry _
    selected_three) as (ids & bundles & _ & _ & _ & Hw & _). exact Hw.
Defined.

Lemma selection_parents_first_witness :
  Forall (parent_at_hand pool_entries {[genesis_txid]} [pool_parent; pool_other; pool_cheap]) (inputs (pool_transaction pool_child)).
Proof.
  exact (selection_parents_first chain_params pool_entries 1 (u "devnet") (4 * entry_weight) {[genesis_txid]} pool_registry
    _ [pool_parent; pool_other; pool_cheap] pool_child [] selected_four eq_refl).
Defined.

Lemma pool_ids_distinct e1 e2 :
  e1 ∈ pool_entries -> e2 ∈ pool_entries -> txid (pool_transaction e1) = txid (pool_transaction e2) -> e1 = e2.
Proof.
  assert (Hn : NoDup ((fun e => match txid (pool_transaction e) with Ok i => Some i | Raise _ => None end) <$> pool_entries)).
  { apply (bool_decide_eq_true_1 _). vm_compute. reflexivity. }
  intros [i Hi]%list_elem_of_lookup [j Hj]%list_elem_of_lookup E. assert (i = j) as ->; [|congruence].
  eapply NoDup_lookup; [exact Hn|rewrite list_lookup_fmap, Hi; reflexivity|rewrite list_lookup_fmap, Hj; simpl; by rewrite E].
Qed.

Lemma child_plain : plain (pool_transaction pool_child).
Proof. split; vm_compute; reflexivity. Qed.

Lemma child_left_out : pool_child ∉ [pool_parent; pool_other; pool_cheap].
Proof.
  intros Hin. assert (Hf : pool_fee pool_child ∈ pool_fee <$> [pool_parent; pool_other; pool_cheap]) by (by apply list_elem_of_fmap_2).
  revert Hf. apply (bool_decide_eq_true_1 _). vm_compute. reflexivity.
Qed.

Lemma selection_maximal_witness :
  exists weight w, weights_of (pool_transaction <$> [pool_parent; pool_other; pool_cheap]) = Ok weight /\
    transaction_weight_units (pool_transaction pool_child) = Ok w /\
    (3 * entry_weight < weight + w \/ max_pq_signature_cost_per_block DEFAULT_PQ_POLICY_LIMITS <
       zsum ((fun e => pq_signature_cost (pool_transaction e) DEFAULT_PQ_POLICY_LIMITS) <$> [pool_parent; pool_other; pool_cheap]) +
       pq_signature_cost (pool_transaction pool_child) DEFAULT_PQ_POLICY_LIMITS).
Proof.
  apply (selection_maximal chain_params pool_entries 1 (u "devnet") (3 * entry_weight) {[genesis_txid]} pool_registry
    [pool_parent; pool_other; pool_cheap] pool_child selected_three pool_ids_distinct).
  - right. left.
  - exact child_left_out.
  - exact child_plain.
  - constructor; [|constructor]. left. exists pool_parent. split; [left|vm_compute; reflexivity].
Defined.

Lemma no_genesis : Forall (fun e => txid (pool_transaction e) ≠ Ok genesis_txid) pool_entries.
Proof. repeat constructor; apply (bool_decide_eq_true_1 _); vm_compute; reflexivity. Qed.

Lemma selection_by_fee_rate_witness : pool_fee pool_cheap * entry_weight <= pool_fee pool_other * entry_weight.
Proof.
  apply (selection_by_fee_rate chain_params pool_entries 1 (u "devnet") (3 * entry_weight) {[genesis_txid]} pool_registry
    _ [pool_parent] [] [] pool_other pool_cheap entry_weight entry_weight selected_three eq_refl); [|vm_compute; reflexivity..].
  constructor; [|constructor]. right. split; [by apply elem_of_singleton|].
  exact (proj1 (Forall_forall _ _) no_genesis).
Defined.

(** ** Settlements in templates *)

Definition reward_record (i : string) : NodeRecord :=
  mkNodeRecord (u i) miner_address (b i) 0 50 (Some (b i)) (Some (u "host")) (Some 8333) true.
Definition reward_registry : InMemoryNodeRegistryView := mkRegistry [(u "a", reward_record "a"); (u "b", reward_record "b")].
Definition active_pair : list (str * NodeRecord) := [(u "a", reward_record "a"); (u "b", reward_record "b")].

Definition pair_attestations : list RewardAttestation :=
  concat ((fun ir => match candidate_check_windows ir.1 demo_seed chain_params with
                     | Ok ws => concat ((fun w => match verifier_committee ir.1 [u "a"; u "b"] w demo_seed chain_params with
                                                  | Ok committee => (fun v => mkAttestation 0 w ir.1 v (u "pass") 1 (u "ep") (u "asn:" ++ ir.1) []) <$> committee
                                                  | Raise _ => []
                                                  end) <$> ws)
                     | Raise _ => []
                     end) <$> active_pair).
Definition pair_bundle : RewardAttestationBundle := Eval vm_compute in mkBundle 0 0 (u "a") pair_attestations.

(** Settlements of the first epoch that distribute a given amount *)
Definition settlement_paying (amount : Z) : RewardSettlement :=
  let entries := ok_or (derive_reward_settlement_entries active_pair demo_seed (attestations pair_bundle) amount chain_params) [] in
  mkSettlement 0 0 99 (hex demo_seed) (u "native-v1-prototype") (u "auto") (hex demo_seed) (hex demo_seed) (hex demo_seed)
    (len entries) amount (1001 - amount) entries.
Definition whole_settlement : RewardSettlement := Eval vm_compute in settlement_paying 1001.
Definition partial_settlement : RewardSettlement := Eval vm_compute in settlement_paying 1.
Definition settlement_tx (s : RewardSettlement) : Transaction := mkTransaction 1 [] [] 0 (reward_settlement_metadata s).

Definition closing_context : ValidationContext InMemoryUtxoView InMemoryNodeRegistryView :=
  mkContext 99 0 chain_params (mkUtxos ∅) (u "devnet") reward_registry ∅ [pair_bundle] ∅ {[0 := demo_seed]}
    (Some genesis_hash) (Some 0x207FFFFF) true None.

Definition closing_template (s : RewardSettlement) : res BlockTemplate :=
  build_block_template chain_params 500 genesis_hash (u "devnet") 99 miner_address 0x207FFFFF [] reward_registry ∅ ∅ [settlement_tx s].

Definition empty_settlement : RewardSettlement :=
  mkSettlement 0 0 99 (hex demo_seed) (u "native-v1-prototype") (u "auto") (hex demo_seed) (hex demo_seed) (hex demo_seed) 0 0 1001 [].

Lemma partial_validated :
  validate_transaction (settlement_tx partial_settlement) closing_context = Ok 0 /\
  parse_reward_settlement_metadata (metadata (settlement_tx partial_settlement)) = Ok partial_settlement.
Proof. vm_compute. split; reflexivity. Qed.

(** The partial settlement is chosen although no block can carry it. *)
Definition poisoned_entries : list MempoolEntry := [mkPool (settlement_tx partial_settlement) 0 10].

Lemma poisoned_candidates : manual_candidates 99 poisoned_entries = Ok [settlement_tx partial_settlement].
Proof. vm_compute. reflexivity. Qed.

Lemma partial_is_partial : Forall partial [settlement_tx partial_settlement].
Proof.
  constructor; [|constructor]. exists partial_settlement. split; [exact (proj2 partial_validated)|]. split; discriminate.
Qed.


(** In the context of this epoch the two nodes have earned the pool, as the settlement
    that pays them shows, and a settlement that pays nobody is valid as well. *)
Example empty_settlement_withholds_rewards :
  validate_transaction (settlement_tx whole_settlement) closing_context = Ok 0 /\
  (entry_reward_chipbits <$> reward_entries whole_settlement) = [501; 500] /\
  validate_transaction (settlement_tx empty_settlement) closing_context = Ok 0.
Proof. vm_compute. split_and!; reflexivity. Qed.

(** ** A mined template *)

Definition is_fee (r : res Z) (fee : Z) : bool := match r with Ok f => f =? fee | Raise _ => false end.

(** The template with the whole settlement is mined within twenty nonces and valid. *)
Definition mining_run : bool :=
  match closing_template whole_settlement with
  | Ok tpl => (template_fees tpl =? 0) &&
      match mine_block tpl 0 20 with
      | Ok (Some block) => is_fee (validate_block block closing_context) 0
      | _ => false
      end
  | Raise _ => false
  end.

Lemma the_mining_run : mining_run = true.
Proof. vm_compute. reflexivity. Qed.

Lemma is_fee_Ok r fee : is_fee r fee = true -> r = Ok fee.
Proof. destruct r as [f|]; simpl; [|discriminate]. by intros ->%Z.eqb_eq. Qed.

Lemma mined_template :
  exists tpl block, closing_template whole_settlement = Ok tpl /\ template_fees tpl = 0 /\ mine_block tpl 0 20 = Ok (Some block) /\
    validate_block block closing_context = Ok 0.
Proof.
  pose proof the_mining_run as E. unfold mining_run in E. destruct (closing_template whole_settlement) as [tpl|]; [|discriminate].
  apply andb_prop in E as [Hf%Z.eqb_eq E]. destruct (mine_block tpl 0 20) as [[block|]|] eqn:Em; [|discriminate..].
  exists tpl, block. split; [reflexivity|]. split; [exact Hf|]. split; [exact Em|]. exact (is_fee_Ok _ _ E).
Qed.

Lemma mine_block_first_nonce_witness :
  exists tpl n, closing_template whole_settlement = Ok tpl /\ 0 <= n < 20 /\ has_work tpl n true.
Proof.
  destruct mined_template as (tpl & block & Ht & _ & Hm & _). destruct (mine_block_first_nonce tpl 0 20 (Some block) Hm) as (n & Hn & Hw & _).
  exists tpl, n. split; [exact Ht|]. split; [exact Hn|exact Hw].
Defined.

Lemma whole_parses : parse_reward_settlement_metadata (metadata (settlement_tx whole_settlement)) = Ok whole_settlement.
Proof. vm_compute. reflexivity. Qed.

(** The block of the mined template has the settlement behind its coinbase. *)
Lemma closing_transactions tpl :
  closing_template whole_settlement = Ok tpl -> tail (transactions (template_block tpl)) = [settlement_tx whole_settlement].
Proof.
  intros (miner & pool & w & selected & settlement & root & _ & _ & Hsel & _ & _ & _ & Ht)%template_inv. rewrite Ht.
  apply select_account in Hsel as (sel & first & later & added & waiters & c & Hsel & -> & Ha & _). injection Hsel as <-.
  destruct (first ++ later) as [|x taken]; [reflexivity|]. exfalso. apply (not_elem_of_nil x), (account_candidates _ _ _ _ _ _ _ _ Ha), elem_of_app.
  left. left.
Qed.

Lemma mined_same_transactions tpl block : mine_block tpl 0 20 = Ok (Some block) -> transactions block = transactions (template_block tpl).
Proof. unfold mine_block. intros (pre & n & post & _ & _ & _ & ->)%try_nonces_spec. reflexivity. Qed.

(** The coinbase of the mined block pays the two nodes of the settlement. *)
Lemma coinbase_pays_exactly_witness :
  exists block coinbase miner_output node_outputs, validate_block block closing_context = Ok 0 /\ head (transactions block) = Some coinbase /\
    outputs coinbase = miner_output :: node_outputs /\ value miner_output = 5000 /\ length node_outputs = 2%nat /\ zsum (value <$> node_outputs) = 1001.
Proof.
  destruct mined_template as (tpl & block & Ht & _ & Hm & Hv).
  destruct (coinbase_pays_exactly block closing_context 0 Hv) as (coinbase & rest & miner & pool & mo & nodes & settlement & ranked &
    Htx & Hs & Ho & Hmv & Hset & Hperm & _ & Hout & Hsum).
  assert (Hsplit : subsidy_split_chipbits 99 chain_params = Ok (5000, 1001)) by (vm_compute; reflexivity).
  change (subsidy_split_chipbits 99 chain_params = Ok (miner, pool)) in Hs. rewrite Hsplit in Hs. injection Hs as <- <-.
  assert (Hrest : rest = [settlement_tx whole_settlement]).
  { pose proof (closing_transactions _ Ht) as Hc. rewrite <- (mined_same_transactions _ _ Hm), Htx in Hc. exact Hc. }
  assert (Hkind : has_kind REWARD_SETTLE_EPOCH_KIND (settlement_tx whole_settlement) = true) by (vm_compute; reflexivity).
  assert (settlement = Some whole_settlement) as ->.
  { rewrite Hrest in Hset. destruct settlement as [s|]; simpl in Hset.
    - destruct Hset as (pre & t & post & E & _ & Hp & _). destruct pre as [|? pre]; [|apply (f_equal length) in E; rewrite length_app in E; simpl in E; lia].
      injection E as <- _. rewrite whole_parses in Hp. injection Hp as <-. reflexivity.
    - apply Forall_cons in Hset as [Hk _]. rewrite Hkind in Hk. discriminate. }
  assert (Hlen : length nodes = 2%nat).
  { rewrite (Forall2_length _ _ _ Hout), Hperm. reflexivity. }
  exists block, coinbase, mo, nodes. split; [exact Hv|]. split; [rewrite Htx; reflexivity|]. split; [exact Ho|]. split; [exact Hmv|].
  split; [exact Hlen|]. destruct Hsum as [->|[Hsum _]]; [discriminate|exact Hsum].
Defined.

Lemma template_coinbase_accepted_witness :
  exists tpl, closing_template whole_settlement = Ok tpl /\ validate_block_stateful (template_block tpl) closing_context = Ok (template_fees tpl).
Proof.
  destruct mined_template as (tpl & block & Ht & Hf & Hm & Hv). exists tpl. split; [exact Ht|].
  apply validate_block_inv in Hv as (coinbase & rest & st & Htx & _ & _ & Hrest & Hst & Hd & _ & Hfees).
  assert (Hr : rest = tail (transactions (template_block tpl))) by (rewrite <- (mined_same_transactions _ _ Hm), Htx; reflexivity). subst rest.
  apply (template_coinbase_accepted chain_params 500 genesis_hash (u "devnet") 99 miner_address 0x207FFFFF [] reward_registry ∅ ∅
    [settlement_tx whole_settlement] tpl closing_context st Ht); [reflexivity..|exact (block_rest_coinbase_free _ Hrest)|exact Hst|congruence|].
  intros s Hs Hne. rewrite Hs in Hd.
  destruct (staged_is_included closing_context ltac:(reflexivity) _ _ _ Hst (block_rest_coinbase_free _ Hrest) eq_refl) as [_ Hh].
  exact (partial_settlement_refused _ _ _ _ _ Hd (Hh s Hs) Hne).
Defined.

(** ** A template that is too heavy *)

Definition measured_weight : Z := Eval vm_compute in ok_or (transaction_weight_units (build_coinbase_transaction 99 miner_address 0 [] ∅)) 0.
Definition settlement_weight : Z := Eval vm_compute in ok_or (weights_of [settlement_tx whole_settlement]) 0.

Lemma measured_weights :
  transaction_weight_units (build_coinbase_transaction 99 miner_address 0 [] ∅) = Ok measured_weight /\
  weights_of [settlement_tx whole_settlement] = Ok settlement_weight.
Proof. vm_compute. split; reflexivity. Qed.

Lemma template_weight_bound_witness :
  exists tpl coinbase_weight weight, closing_template whole_settlement = Ok tpl /\ weights_of (take 1 (transactions (template_block tpl))) = Ok coinbase_weight /\
    block_weight_units (template_block tpl) = Ok weight /\
    weight <= Z.max (max_block_weight chain_params) (measured_weight + settlement_weight) + (coinbase_weight - measured_weight).
Proof.
  destruct mined_template as (tpl & block & Ht & _ & Hm & Hv). pose proof (valid_block_weighed _ _ _ Hv) as [weight Hw].
  unfold block_weight_units in Hw. rewrite (mined_same_transactions _ _ Hm) in Hw. fold (block_weight_units (template_block tpl)) in Hw.
  destruct (first_weighed _ _ Hw) as [cw Hc]. exists tpl, cw, weight. split; [exact Ht|]. split; [exact Hc|]. split; [exact Hw|].
  exact (template_weight_bound chain_params 500 genesis_hash (u "devnet") 99 miner_address 0x207FFFFF [] reward_registry ∅ ∅
    [settlement_tx whole_settlement] tpl measured_weight settlement_weight Ht (proj1 measured_weights) (proj2 measured_weights) cw weight Hc Hw).
Defined.

