(* ===== verification/NodeScenario.v ===== *)
(** * A node and its miner

    A node without blocks hands a template to a miner, who mines it and submits the
    block; another miner's submission is refused.  The first block of [Scenario] is
    stored, and activating it keeps the payment that waits in the pool.  A block with
    an attestation that the database cannot hold is applied by half. *)

From S2P Require Import Prelude PyState PyOrder PyText Hashes Params Models Serialization Registry Economics Pow Merkle Crypto Addresses Json Settlement Nodes Utxo UtxoStore Headers RewardStore Validation PqPolicy Mempool MempoolFacts Mining Service ServiceRuns Ledger ChainFacts Node PoolReconcile NodeFacts Scenario MempoolScenario.

Definition start : Node := new_node chain_params (u "devnet").
Definition template_of (n : Node) : option MiningTemplateRecord := dict_get (_mining_templates n) (u "t1").
Definition templated : Node := (get_block_template pool_clock (u "t1") miner_address (u "m1") (u "full_block") start).2.

(** What a miner makes of a template *)
Definition mined (record : MiningTemplateRecord) (nonce : Z) : Block :=
  let ts := mkTransaction 1 [] (coinbase_outputs record) 0
              (list_to_map [(u "coinbase", u "true"); (u "height", py_str_int (template_block_height record))]) :: non_coinbase_transactions record in
  mkBlock (mkBlockHeader (template_version record) (record_previous_block_hash record)
    (ok_or (let* ids := mapM txid ts in merkle_root ids) []) (created_at record) (template_bits record) nonce) ts.

Definition submission : str := Eval vm_compute in
  match template_of templated with Some record => hex (ok_or (serialize_block (mined record 1)) []) | None => [] end.
Definition submitted_hash : str := Eval vm_compute in
  match template_of templated with Some record => ok_or (block_hash (header (mined record 1))) [] | None => [] end.

(** The submission of the miner, of another miner, of one byte, and the activation of
    a header nobody knows *)
Definition submitted : res SubmitResult * Node := submit_mined_block pool_clock (u "t1") submission (u "m1") templated.
Definition by_another : res SubmitResult * Node := submit_mined_block pool_clock (u "t1") submission (u "m2") templated.
Definition cut_short : res SubmitResult * Node := submit_mined_block pool_clock (u "t1") (u "01") (u "m1") templated.
Definition activated_unknown : res ChainActivationResult * Node := node_activate_chain pool_clock (u "ab") templated.

Definition hash_of (r : res (Block * Z)) : res str := let* '(block, _) := r in block_hash (header block).

Definition node_run : bool :=
  match submitted.1 with Ok (Submitted hash true) => bool_decide (hash = submitted_hash) | _ => false end &&
  match by_another.1 with Ok (Refused miner_id_mismatch) => true | _ => false end &&
  match cut_short.1 with Raise (Exn StructError _) => true | _ => false end &&
  match activated_unknown.1 with Raise (Exn ValueError _) => true | _ => false end &&
  match header_rows (headers (node_chain templated)) !! submitted_hash with None => true | Some _ => false end.

Lemma the_node_run : node_run = true.
Proof. vm_compute. reflexivity. Qed.

Record expected_node : Prop := {
  block_submitted : submitted = (Ok (Submitted submitted_hash true), submitted.2);
  another_refused : by_another = (Ok (Refused miner_id_mismatch), by_another.2);
  short_raises : exists msg, cut_short = (Raise (Exn StructError msg), cut_short.2);
  unknown_raises : exists e, activated_unknown = (Raise e, activated_unknown.2);
  submitted_new : header_rows (headers (node_chain templated)) !! submitted_hash = None;
}.

Lemma the_expected_node : expected_node.
Proof.
  pose proof the_node_run as R. unfold node_run in R. apply andb_prop in R as [R Hnew]. apply andb_prop in R as [R Hun].
  apply andb_prop in R as [R Hshort]. apply andb_prop in R as [Hs Ha]. split.
  - revert Hs. generalize submitted. intros x Hs. destruct x as [[[hash [|]|why|e]|e] n]; try discriminate Hs. apply bool_decide_eq_true in Hs as ->. reflexivity.
  - revert Ha. generalize by_another. intros x Ha. destruct x as [[[hash b|[]|e]|e] n]; try discriminate Ha. reflexivity.
  - revert Hshort. generalize cut_short. intros x Hshort. destruct x as [[a|[c msg]] n]; [discriminate Hshort|]. exists msg. destruct c; try discriminate Hshort. reflexivity.
  - revert Hun. generalize activated_unknown. intros x Hun. destruct x as [[a|e] n]; [discriminate Hun|]. exists e. reflexivity.
  - revert Hnew. generalize (header_rows (headers (node_chain templated)) !! submitted_hash). intros x Hnew. destruct x; [discriminate Hnew|reflexivity].
Qed.

Lemma templated_step : node_step pool_clock start templated.
Proof. apply on_template. Qed.

Lemma submission_hash block : carries submission block -> block_hash (header block) = Ok submitted_hash.
Proof.
  assert (Hh : hash_of (let* payload := fromhex submission in deserialize_block payload 0) = Ok submitted_hash) by (vm_compute; reflexivity).
  intros (payload & offset & Ef & Ed). rewrite Ef in Hh. cbn [rbind] in Hh. rewrite Ed in Hh. exact Hh.
Qed.

Lemma submission_step : node_step pool_clock templated submitted.2.
Proof.
  apply on_submit. intros block Hc. apply (admissible_new _ _ submitted_hash); [by apply submission_hash|vm_compute; reflexivity|].
  exact (submitted_new the_expected_node).
Qed.

Lemma templated_chain : node_chain templated = node0.
Proof.
  assert (Hk : keeps (fun n => node_chain n = node0) (fun _ => True)
    (get_block_template pool_clock (u "t1") miner_address (u "m1") (u "full_block"))).
  { assert (Hpool : forall A (op : pool A), keeps (fun n => node_chain n = node0) (fun _ => True) (on_pool op)).
    { intros A op n Hn. unfold on_pool. by destruct (op (node_pool n)) as [[a|e] m]. }
    unfold get_block_template, build_candidate_block, _filter_template_mempool_entries, _expire_stale_templates, pool_time, of_chain.
    keeps; try apply Hpool; try by apply keeps_modify. apply keeps_fold. intros [] id _. by apply keeps_modify. }
  specialize (Hk start eq_refl). unfold templated. destruct (get_block_template _ _ _ _ _ start) as [[a|e] n]; [exact Hk|exact (proj1 Hk)].
Qed.

Lemma templated_reachable : reachable chain_params (u "devnet") (node_chain templated).
Proof. rewrite templated_chain. constructor. Qed.

Lemma node_runs_consistent_witness : no_conflicts (repository (node_pool submitted.2)).
Proof.
  apply (node_runs_consistent pool_clock chain_params (u "devnet") submitted.2).
  eapply rtc_l; [exact templated_step|]. eapply rtc_once. exact submission_step.
Defined.

Lemma submission_answers_template_witness : exists block record fees,
  template_of templated = Some record /\ apply_block block (node_chain templated) = (Ok fees, node_chain submitted.2).
Proof.
  destruct (submission_answers_template pool_clock chain_params (u "devnet") templated submitted.2 (u "t1") submission (u "m1")
    submitted_hash true chain_params_ok templated_reachable (block_submitted the_expected_node)) as (_ & _ & block & record & fees & Hg & _ & _ & _ & Ha).
  exists block, record, fees. split; [exact Hg|exact Ha].
Defined.

(** A submission that does not decode is answered with the reason [decode_error],
    unless it is cut short: then [struct.error], which is not a [ValueError],
    escapes. *)
Theorem truncated_submission_escapes :
  exists msg, cut_short.1 = Raise (Exn StructError msg) /\ template_of templated ≠ None.
Proof.
  destruct (short_raises the_expected_node) as [msg E]. exists msg. split; [rewrite E; reflexivity|].
  destruct (submission_answers_template_witness) as (block & record & fees & Hg & _). rewrite Hg. discriminate.
Qed.

(** ** The pool follows an activation *)

(** A node that has stored the first block and keeps the payment of its output *)
Definition waiting_db : MempoolDb := ok_or (mempool_add (mkMempoolDb ∅) payment 100 10) (mkMempoolDb ∅).
Definition stored_genesis : NodeService :=
  with_blocks (with_headers node0 (ok_or (header_put (headers node0) (header genesis) (Some 0) (Some 2) false) (headers node0)))
    (ok_or (block_put (blocks node0) genesis) (blocks node0)).
Definition waiting : Node := mkNode stored_genesis (set_repository waiting_db new_mempool) [] None.
Definition activated : res ChainActivationResult * Node := node_activate_chain pool_clock genesis_hash waiting.

Definition kept_one (x : res ChainActivationResult * Node) : bool :=
  match x.1 with Ok result => (applied_blocks result =? 1) && bool_decide (size (mempool_rows (repository (node_pool x.2))) = 1%nat) | Raise _ => false end.

Lemma the_activation : kept_one activated = true.
Proof. vm_compute. reflexivity. Qed.

Lemma activation_returns : exists result, activated = (Ok result, activated.2) /\ size (mempool_rows (repository (node_pool activated.2))) = 1%nat.
Proof.
  pose proof the_activation as R. revert R. generalize activated. intros x R. unfold kept_one in R. destruct x as [[result|e] n]; [|discriminate R].
  apply andb_prop in R as [_ R]. apply bool_decide_eq_true in R. exists result. split; [reflexivity|exact R].
Qed.

Lemma waiting_db_ok : pool_ok waiting_db.
Proof.
  assert (Hadd : exists db, mempool_add (mkMempoolDb ∅) payment 100 10 = Ok db) by (eexists; vm_compute; reflexivity).
  destruct Hadd as [db E]. unfold waiting_db. rewrite E. simpl.
  apply (pool_ok_add (mkMempoolDb ∅) payment 100 10 db (pool_ok_clear (mkMempoolDb ∅)) payment_canonical); [|exact E].
  intros id t (row & Hr & _). simpl in Hr. rewrite lookup_empty in Hr. discriminate Hr.
Qed.

Lemma activation_pool_follows_witness : size (mempool_rows (repository (node_pool activated.2))) = 1%nat /\
  exists entries, mempool_list_all waiting_db = Ok entries /\ forall id t, holds (repository (node_pool activated.2)) id t ->
    Forall (backed (Service.chainstate (node_chain activated.2)) ((pool_transaction <$> entries) ++ [])) (spends t).
Proof.
  destruct activation_returns as (result & E & Hn). split; [exact Hn|]. unfold activated at 1 in E.
  assert (Hne : tip_hash <$> chain_tip (node_chain waiting) ≠ Some genesis_hash) by (change (None ≠ Some genesis_hash); intros Hx; discriminate Hx).
  destruct (activation_pool_follows pool_clock genesis_hash waiting activated.2 result waiting_db_ok Hne E) as (_ & _ & entries & returned & Hl & Hr & Hall).
  assert (returned = []) as ->. { destruct Hr as [?|Hr]; [done|]. change (Ok [] = Ok returned) in Hr. injection Hr as <-. reflexivity. }
  exists entries. split; [exact Hl|]. intros id t Hh. apply (Hall id t Hh).
Defined.

(** ** A block applied by half

    Two nodes are registered; a signed attestation of one about the other claims a
    gap of 2^63 blocks, which no rule forbids and no column can hold. *)

Definition reward_node (i : string) : NodeRecord :=
  mkNodeRecord (u i) miner_address (b i) 0 0 (Some demo_pubkey) (Some (u "host")) (Some 8333) true.
Definition rewarding : NodeService := with_registry node1 (mkRegistryDb {[u "a" := reward_node "a"; u "b" := reward_node "b"]}).

Definition oversized_attestation (sig : str) : RewardAttestation :=
  mkAttestation 0 0 (u "a") (u "b") (u "pass") (2 ^ 63) (u "ep") (u "asn:a") sig.
Definition oversized_signature : str := Eval vm_compute in
  hex (ok_or (let* digest := reward_attestation_signature_digest (oversized_attestation []) in sign_digest demo_private_key digest []) []).
Definition attestation_item (a : RewardAttestation) : json :=
  match attestation_json a with JObj fields => JObj (fields ++ [(u "signature_hex", JStr (signature_hex a))]) | j => j end.
Definition oversized_bundle : Transaction :=
  mkTransaction 1 [] [] 0 (list_to_map [(u "kind", REWARD_ATTESTATION_BUNDLE_KIND);
    (u "epoch_index", u "0"); (u "bundle_window_index", u "0"); (u "bundle_submitter_node_id", u "b"); (u "attestation_count", u "1");
    (u "attestations_json", json_dumps (JList [attestation_item (oversized_attestation oversized_signature)]))]).
Definition oversized_block : Block := Eval vm_compute in block_on genesis_hash 400 1 [coinbase_paying 5000 1; oversized_bundle].
Definition rewarding_node : Node := mkNode rewarding new_mempool [] None.

Definition returning {A} (r : res A) : bool := match r with Ok _ => true | Raise _ => false end.
Lemma returning_Ok {A} (r : res A) : returning r = true -> exists a, r = Ok a.
Proof. destruct r as [a|]; [by exists a|discriminate]. Qed.

(** Every write before that of the rewards succeeds, and the outputs then hold twice
    what has been minted through the tip. *)
Definition half_applied (s : NodeService) (block : Block) : bool :=
  match checked_block s block, header_work (header block) with
  | Ok (work, _), Ok own =>
      returning (header_put (headers s) (header block) (Some (next_height s)) (Some (work + own)) true) &&
      returning (block_put (blocks s) block) &&
      match utxo_apply_block (chainstate s) block (next_height s) with Ok utxos => utxo_total (utxo_rows utxos) =? 10000 | Raise _ => false end &&
      returning (_apply_node_registry_block block (next_height s) (node_registry s)) &&
      match rewards_recorded block (next_height s) (rewards s) with Raise (Exn OverflowError _) => true | _ => false end &&
      match (record_pq_mined (tail (transactions block)) new_mempool).1 with Ok tt => true | Raise _ => false end &&
      (minted chain_params (next_height s - 1) =? 5000)
  | _, _ => false
  end.

(** What [half_applied] says *)
Record half_applied_facts (s : NodeService) (block : Block) (work fees own : Z) (hdb : HeaderDb) (bdb : BlockDb)
    (utxos : SQLiteChainStateRepository) (registry : SQLiteNodeRegistryRepository) (msg : string) : Prop := {
  half_checked : checked_block s block = Ok (work, fees);
  half_counted : (record_pq_mined (tail (transactions block)) new_mempool).1 = Ok tt;
  half_work : header_work (header block) = Ok own;
  half_header : header_put (headers s) (header block) (Some (next_height s)) (Some (work + own)) true = Ok hdb;
  half_block : block_put (blocks s) block = Ok bdb;
  half_outputs : utxo_apply_block (chainstate s) block (next_height s) = Ok utxos;
  half_registry : _apply_node_registry_block block (next_height s) (node_registry s) = Ok registry;
  half_rewards : rewards_recorded block (next_height s) (rewards s) = Raise (Exn OverflowError msg);
  half_minted : minted chain_params (next_height s - 1) = 5000;
  half_total : utxo_total (utxo_rows utxos) = 10000;
}.

Lemma half_applied_elim s block : half_applied s block = true ->
  exists work fees own hdb bdb utxos registry msg, half_applied_facts s block work fees own hdb bdb utxos registry msg.
Proof.
  unfold half_applied. destruct (checked_block s block) as [[work fees]|] eqn:Ec; [|discriminate].
  destruct (header_work (header block)) as [own|] eqn:Ew; [|discriminate]. intros R.
  apply andb_prop in R as [R Hm%Z.eqb_eq]. apply andb_prop in R as [R Hpq]. apply andb_prop in R as [R Hrew].
  apply andb_prop in R as [R [registry Hreg]%returning_Ok]. apply andb_prop in R as [R Hu].
  apply andb_prop in R as [[hdb Hput]%returning_Ok [bdb Hb]%returning_Ok].
  destruct (utxo_apply_block (chainstate s) block (next_height s)) as [utxos|] eqn:Eu; [|discriminate]. apply Z.eqb_eq in Hu.
  destruct (rewards_recorded block (next_height s) (rewards s)) as [|[c msg]] eqn:Er; [discriminate|].
  assert (c = OverflowError) as -> by (destruct c; solve [discriminate|reflexivity]).
  exists work, fees, own, hdb, bdb, utxos, registry, msg. split; try done.
  destruct (record_pq_mined (tail (transactions block)) new_mempool).1 as [[]|]; [reflexivity|discriminate].
Qed.

Lemma the_half_applied : half_applied rewarding oversized_block = true.
Proof. vm_compute. reflexivity. Qed.

Lemma interrupted_block_stays_witness : exists e n',
  node_apply_block pool_clock oversized_block rewarding_node = (Raise (Exn OverflowError e), n') /\
  chain_tip_hash (headers (node_chain n')) = chain_tip_hash (headers rewarding) /\
  minted chain_params (next_height rewarding - 1) = 5000 /\ utxo_total (utxo_rows (chainstate (node_chain n'))) = 10000.
Proof.
  destruct (half_applied_elim _ _ the_half_applied) as (work & fees & own & hdb & bdb & utxos & registry & msg & [Hc Hp Hw Hput Hb Hu Hr Hrew Hm Ht]).
  unfold rewarding_node. generalize dependent rewarding. intros s Hc Hput Hb Hu Hr Hrew Hm.
  destruct (interrupted_block_stays pool_clock (mkNode s new_mempool [] None) oversized_block work fees own hdb bdb utxos registry _ Hc Hp Hw Hput Hb Hu Hr Hrew)
    as (n' & E & Htip & _ & Hout & _).
  exists msg, n'. split; [exact E|]. split; [exact Htip|]. split; [exact Hm|]. rewrite Hout. exact Ht.
Defined.
