(* ===== verification/SessionScenario.v ===== *)
(** * A handshake and its frames, evaluated

    Two concrete peers: what they send over a stream arrives, they complete the
    handshake, and a truncated transaction makes one of them deaf. *)

From S2P Require Import Prelude PyState PyOrder PyText Hashes Models Serialization Wire WireFacts Session SessionFacts.

Definition the_magic : bytes := byte.of_Z <$> [192; 222; 193; 88].
Definition alice : LocalPeerIdentity := mkIdentity (u "alice") (u "mainnet") 12 (u "/chipcoin:0.1/") 1 true the_magic.
Definition bob : LocalPeerIdentity := mkIdentity (u "bob") (u "mainnet") 40 (u "/chipcoin:0.1/") 1 false the_magic.

Definition wire (m : MessageEnvelope) : bytes := match encode_message the_magic m with Ok frame => frame | Raise _ => [] end.

Definition the_messages : list MessageEnvelope :=
  [local_version alice; verack; mkMessage (u "ping") (PingMessage 77);
   mkMessage (u "inv") (InvMessage [mkInventory (u "block") (concat (replicate 32 (u "ab")))])].

Lemma wire_fits m : (bool_decide (len (wire m) <= FRAME_HEADER_SIZE + MAX_P2P_FRAME_PAYLOAD_SIZE) && bool_decide (wire m ≠ [])) = true ->
  encode_message the_magic m = Ok (wire m) /\ len (wire m) <= FRAME_HEADER_SIZE + MAX_P2P_FRAME_PAYLOAD_SIZE.
Proof.
  intros [Hl Hn]%andb_prop. apply bool_decide_eq_true in Hl, Hn. split; [|done]. unfold wire in *. by destruct (encode_message the_magic m).
Qed.

Lemma stream_roundtrip_witness :
  receive_all the_magic (concat (wire <$> the_messages)) =
    (canonical_message <$> the_messages, Exn ConnectionClosedError "Peer connection closed while reading frame.") /\
  length the_messages = 4%nat.
Proof.
  split; [|reflexivity]. apply stream_roundtrip. repeat (constructor; [apply wire_fits; vm_compute; reflexivity|]). constructor.
Defined.

Lemma handshake_completes_witness :
  exists ab ba, frames_of (caller alice) = [wire (local_version alice)] /\
    frames_of (reads [wire (local_version alice)] (new_session bob true)) = ba /\ frames_of (reads ba (caller alice)) = wire (local_version alice) :: ab /\
    handshake_complete (state (reads ba (caller alice))) = true /\
    handshake_complete (state (reads ab (reads [wire (local_version alice)] (new_session bob true)))) = true /\
    remote_version (state (reads ba (caller alice))) = Some (version_of bob) /\
    remote_version (state (reads ab (reads [wire (local_version alice)] (new_session bob true)))) = Some (version_of alice).
Proof.
  apply (handshake_completes alice bob (wire (local_version alice)) (wire (local_version bob))); [reflexivity|reflexivity|..];
    apply wire_fits; vm_compute; reflexivity.
Defined.

(** Bob's session after Alice's version and acknowledgement *)
Definition bob_done : PeerProtocol := reads [wire (local_version alice); wire verack] (new_session bob true).

Lemma handshake_sound_witness :
  handshake_complete (state bob_done) = true /\
  (exists v, remote_version (state bob_done) = Some v /\ announced_network v = local_network bob) /\
  written bob (local_version bob) bob_done /\ written bob verack bob_done.
Proof.
  assert (Hc : handshake_complete (state bob_done) = true) by (vm_compute; reflexivity). split; [exact Hc|].
  destruct (handshake_sound reliable bob true false [Frame (wire (local_version alice)); Frame (wire verack)] bob_done) as [H _].
  - apply (session_reads reliable bob true false [Frame (wire (local_version alice))]). apply (session_reads reliable bob true false []).
    apply session_accepted. reflexivity.
  - destruct (H (or_introl Hc)) as ((v & Hv & Hn & _) & _ & Hw). split; [exists v; split; [exact Hv|exact Hn]|exact Hw].
Defined.

Lemma undecodable_payload_stops_reader_witness :
  let p' := foldl (fun p a => (reader_turn reliable a p).2) bob_done (Frame (empty_tx_frame the_magic) :: [Frame (wire verack); Frame (wire (mkMessage (u "ping") (PingMessage 5)))]) in
  state p' = state bob_done /\ (exists e, reader_failure p' = Some e /\ exn_cls e = StructError) /\ delivered p' = delivered bob_done /\
  sent p' = sent bob_done.
Proof.
  apply (undecodable_payload_stops_reader reliable bob_done [Frame (wire verack); Frame (wire (mkMessage (u "ping") (PingMessage 5)))]);
    vm_compute; reflexivity.
Defined.
