(* ===== verification/WalletScenario.v ===== *)
(** * A payment and a registration, evaluated

    A wallet with three outputs pays an address and registers a node. *)

From S2P Require Import Prelude PyOrder PyText Hashes Params Models Serialization Registry Crypto Addresses Json Settlement Nodes Utxo Validation Wallet WalletFacts WalletRegistry.

Definition demo_wallet : WalletKey := Eval vm_compute in
  ok_or (wallet_key_from_private_key demo_private_key true) (mkWalletKey [] [] [] true 0 "" "" None).

Lemma demo_wallet_made : wallet_key_from_private_key demo_private_key true = Ok demo_wallet.
Proof. vm_compute. reflexivity. Qed.

Definition txid_of (c : string) : str := concat (replicate 32 (u c)).
Definition purse : list SpendCandidate :=
  [mkCandidate (txid_of "aa") 0 700 (wallet_address demo_wallet); mkCandidate (txid_of "bb") 3 250 (wallet_address demo_wallet);
   mkCandidate (txid_of "cc") 1 100 (wallet_address demo_wallet)].

Definition purse_context : ValidationContext InMemoryUtxoView InMemoryNodeRegistryView :=
  mkContext 5 0 DEVNET_PARAMS
    (mkUtxos (list_to_map ((fun c => (candidate_outpoint c, mkUtxoEntry (mkTxOutput (amount_chipbits c) (candidate_recipient c)) 1 false)) <$> purse)))
    (u "devnet") (mkRegistry []) ∅ [] ∅ ∅ None None true None.

Definition payee : str := Eval vm_compute in ok_or (public_key_to_address (demo_public 11 true)) [].

(** 300 and a fee of 10 take the two smaller outputs and leave 40. *)
Definition purse_selection : SelectionResult := Eval vm_compute in ok_or (select_inputs purse 310) (mkSelection [] 0 0).

Lemma purse_selected : select_inputs purse (300 + 10) = Ok purse_selection /\ change_chipbits purse_selection = 40 /\ length (selected purse_selection) = 2%nat.
Proof. vm_compute. done. Qed.

Lemma purse_spendable : Forall (spendable demo_wallet purse_context) purse.
Proof.
  unfold purse. apply Forall_cons_2; [|apply Forall_cons_2; [|apply Forall_cons_2; [|apply Forall_nil_2]]];
    (split; [reflexivity|]; split; [vm_compute; reflexivity|]; split; [cbn; lia|]; eexists; split; [vm_compute; reflexivity|]; split; [vm_compute; reflexivity|]; reflexivity).
Qed.

Lemma wallet_payment_accepted_witness :
  exists built change, build_signed_transaction demo_wallet (fun _ => []) purse payee 300 10 None 0 None (u "devnet") = Ok built /\
    validate_transaction (transaction built) purse_context = Ok 10 /\ built_fee_chipbits built = 10 /\
    outputs (transaction built) = mkTxOutput 300 payee :: (if 0 <? change then [mkTxOutput change (wallet_address demo_wallet)] else []).
Proof.
  apply (wallet_payment_accepted demo_private_key true demo_wallet purse_context demo_wallet_made (fun _ => []) purse payee 300 10 0).
  - lia.
  - lia.
  - lia.
  - vm_compute. reflexivity.
  - intros Hs. exfalso. vm_compute in Hs. discriminate Hs.
  - exact purse_spendable.
  - apply (bool_decide_unpack _). vm_compute. exact I.
  - vm_compute. discriminate.
  - intros s i c Es Hc. rewrite (proj1 purse_selected) in Es. injection Es as <-. destruct i as [|[|i]]; [injection Hc as <-|injection Hc as <-|destruct i; discriminate Hc];
      vm_compute; reflexivity.
Defined.

Definition the_request : registry_request := RegisterRewardNode (u "node-1") payee (hex (demo_public 5 true)) (u "node.example") 18444 100000000.

Lemma wallet_registration_accepted_witness :
  exists t, build_request demo_wallet [] the_request (u "devnet") 12000 = Ok t /\ validate_transaction_stateless t = Ok tt /\
    special_node_transaction_signature_is_valid t (u "devnet") 12000 = Ok true.
Proof.
  apply (wallet_registration_accepted demo_private_key true demo_wallet demo_wallet_made [] the_request (u "devnet") 12000).
  - unfold the_request, request_ok, valid_payout, valid_endpoint, encodable.
    assert (Hbig : 100000000 < 10 ^ max_str_digits) by (apply (Z.lt_le_trans _ (10 ^ 9)); [done|apply Z.pow_le_mono_r; [done|vm_compute; discriminate]]).
    split_and!; try (apply (bool_decide_unpack _); vm_compute; exact I); try lia; try (vm_compute; reflexivity).
  - apply (bool_decide_unpack _). vm_compute. exact I.
  - vm_compute. discriminate.
Defined.

Lemma selection_minimal_witness : select_inputs (rev purse) 310 = select_inputs purse 310 /\ is_ok (select_inputs purse 310) = true.
Proof.
  split; [|vm_compute; reflexivity]. apply (proj2 (selection_minimal purse 310)).
  - intros x y Hx Hy. unfold purse in Hx, Hy. rewrite !elem_of_cons, elem_of_nil in Hx, Hy.
    destruct Hx as [->|[->|[->|[]]]], Hy as [->|[->|[->|[]]]]; (reflexivity || (intros Hk; vm_compute in Hk; discriminate Hk)).
  - apply Permutation_rev.
Defined.
