(* ===== verification/SnapshotScenario.v ===== *)
(** * A snapshot of two blocks, evaluated

    The chain of [Scenario.v] with an output, a node, a bundle and a settlement as a
    snapshot: it is built, written in both formats, loaded, signed and loaded again
    in enforce mode. *)

From S2P Require Import Prelude PyOrder PyText Hashes Params Models Serialization Registry Pow Crypto Addresses Json Settlement Nodes Utxo Headers RewardStore Validation Scenario Snapshots SnapshotFacts SnapshotFiles SnapshotRoundtrip SnapshotSigning.

(** Functions that keep the laws: a marker byte in place of compression, and a keyed
    digest in place of a signature *)
#[global] Instance demo_snapshot_backend : SnapshotBackend := {|
  gzip_compress data := byte.of_Z 31 :: data;
  gzip_decompress data := match data with x :: rest => if byte.unsigned x =? 31 then Ok rest else raise ValueError "not gzip" | [] => raise ValueError "not gzip" end;
  ed25519_public k := k;
  ed25519_sign k d := sha256 (k ++ d);
  ed25519_verify k s d := bool_decide (s = sha256 (k ++ d));
|}.

#[global] Instance demo_snapshot_laws : SnapshotLaws.
Proof.
  split; [done|done|intros k d _; by apply bool_decide_true|]. intros k d Hs. pose proof (Sha256.sha256_digest_length (k ++ d) : length (sha256 (k ++ d)) = 32%nat) as Hl.
  change (ed25519_sign k d) with (sha256 (k ++ d)) in Hs. rewrite Hs in Hl. discriminate Hl.
Qed.

Definition the_contents : SnapshotContents := mkContents
  [mkSnapshotHeader (header genesis) 0 (ok_or (header_work (header genesis)) 0)]
  [genesis]
  [(mkOutPoint genesis_txid 0, mkUtxoEntry (mkTxOutput 5000 miner_address) 0 true)]
  [mkNodeRecord (u "node-1") miner_address demo_pubkey 1 1 None (Some (u "node.example")) (Some 18444) true]
  [mkStoredBundle (u "b1") 1 sample_bundle]
  [mkStoredSettlement (u "s1") 1 (mkSettlement 7 700 799 (u "seed") (u "v1") (u "auto") (u "r1") (u "r2") (u "r3") 0 0 1001 [])].

(** Small numbers and ASCII texts *)
Lemma small_int n : (Z.abs n <? 10 ^ 18) = true -> int_ok n.
Proof. intros Hn. apply int_ok_small. by apply Z.ltb_lt. Qed.
Lemma plain_text s : forallb (fun c => (0 <=? c) && (c <? 128)) s = true -> text_ok s.
Proof. intros Hs. apply Forall_forall. intros c Hc. rewrite forallb_forall in Hs. apply list_elem_of_In, Hs in Hc. bool_prop. split; lia. Qed.

Ltac plain_field := lazymatch goal with
  | |- int_ok _ => apply small_int; vm_compute; reflexivity
  | |- text_ok _ => apply plain_text; vm_compute; reflexivity
  | |- _ ≠ _ => discriminate
  | |- True => exact I
  end.
Ltac plain_record := repeat lazymatch goal with |- _ /\ _ => split end; try plain_field.

Lemma the_contents_ok : contents_ok (u "devnet") chain_params 1700000000 the_contents.
Proof.
  split.
  - apply Forall_singleton. split; [vm_compute; reflexivity|]. plain_record.
  - vm_compute. reflexivity.
  - apply Forall_singleton. vm_compute. reflexivity.
  - by repeat constructor.
  - apply Forall_singleton. unfold utxo_ok. plain_record.
  - apply Forall_singleton. unfold registry_ok. cbn [node_pubkey declared_host declared_port]. plain_record.
  - apply Forall_singleton. unfold stored_bundle_ok. plain_record. apply Forall_singleton. unfold attestation_ok, attestation_texts. plain_record.
  - apply Forall_singleton. unfold stored_settlement_ok, settlement_ok. plain_record. apply Forall_nil_2.
  - repeat (apply Forall_cons_2; [plain_field|]). apply Forall_nil_2.
  - plain_field.
  - plain_field.
  - split; [|exact I]. repeat (apply Forall_cons_2; [plain_field|]). apply Forall_nil_2.
Qed.

Definition the_signer : bytes := demo_private_key.

Lemma the_files : exists payload raw signed, build_snapshot_payload (u "devnet") chain_params 1700000000 the_contents 1 = Ok payload /\
  write_snapshot_file payload = Ok raw /\ snapshot_sign raw (hex the_signer) = Ok signed.
Proof.
  destruct (mapM header_record_json (content_headers the_contents)) as [rh|] eqn:Eh; [|exfalso; vm_compute in Eh; discriminate Eh].
  destruct (mapM block_record_json (enumerate (content_blocks the_contents))) as [rb|] eqn:Eb; [|exfalso; vm_compute in Eb; discriminate Eb].
  apply (text_files _ _ _ _ rh rb); [exact the_contents_ok|discriminate|exact Eh|exact Eb|vm_compute; reflexivity].
Qed.

(** The file brings everything back. *)
Lemma snapshot_roundtrip_witness :
  exists payload raw md md', write_snapshot_file payload = Ok raw /\ dget payload "metadata" = Some (JObj md) /\ same_metadata md md' /\
    load_snapshot_file raw (u "devnet") chain_params OFF [] =
      Ok (mkLoaded md' (content_headers the_contents) [genesis] (content_utxos the_contents) (content_registry the_contents)
            (content_bundles the_contents) (content_settlements the_contents) 0 0 [] []).
Proof.
  destruct the_files as (payload & raw & _ & Eb & Ew & _).
  destruct (snapshot_roundtrip (u "devnet") chain_params 1700000000 the_contents 1 payload raw [] the_contents_ok (or_introl eq_refl) Eb Ew) as (md & md' & H1 & H2 & H3).
  exists payload, raw, md, md'. exact (conj Ew (conj H1 (conj H2 H3))).
Defined.

(** Signed, it loads in enforce mode. *)
Lemma signed_snapshot_trusted_witness :
  exists raw signed md, snapshot_sign raw (hex the_signer) = Ok signed /\ load_snapshot_file signed (u "devnet") chain_params ENFORCE [the_signer] =
    Ok (mkLoaded md (content_headers the_contents) [genesis] (content_utxos the_contents) (content_registry the_contents)
          (content_bundles the_contents) (content_settlements the_contents) 1 1 [hex (ed25519_public the_signer)] []).
Proof.
  destruct the_files as (payload & raw & signed & Eb & Ew & Es).
  destruct (signed_snapshot_trusted (u "devnet") chain_params 1700000000 the_contents 1 payload raw signed the_signer [the_signer] the_contents_ok (or_introl eq_refl) Eb Ew
    eq_refl (list_elem_of_here _ _) Es) as [md Hl].
  exists raw, signed, md. exact (conj Es Hl).
Defined.

Lemma a_signed_payload : exists p md, payload_ok p md /\ decode_snapshot_payload p (u "devnet") chain_params ENFORCE [the_signer] =
    Ok (mkLoaded md (content_headers the_contents) [genesis] (content_utxos the_contents) (content_registry the_contents)
          (content_bundles the_contents) (content_settlements the_contents) 1 1 [hex (ed25519_public the_signer)] []).
Proof.
  destruct the_files as (payload & raw & signed & Eb & Ew & Es).
  destruct (signed_decodes (u "devnet") chain_params 1700000000 the_contents 1 payload raw signed the_signer [the_signer] the_contents_ok (or_introl eq_refl) Eb Ew
    eq_refl (list_elem_of_here _ _) Es) as (_ & p & md & _ & _ & Hok & Hd).
  exists p, md. split; [exact Hok|exact Hd].
Qed.

Lemma snapshot_headers_checked_witness :
  header_chain chain_params [header genesis] /\ works_recorded (content_headers the_contents).
Proof.
  destruct a_signed_payload as (p & md & _ & Hd).
  destruct (snapshot_headers_checked p (u "devnet") chain_params ENFORCE [the_signer] _ Hd) as (Hc & Hw & _). exact (conj Hc Hw).
Defined.

