(* ===== verification/TransferScenario.v ===== *)
(** * Two nodes and a snapshot, evaluated

    One node has the first block of [Scenario.v], an output, a registered node, a
    bundle and a settlement; another, empty, imports its snapshot. *)

From S2P Require Import Prelude PyState PyOrder PyText Hashes Params Models Serialization Registry Pow Crypto Addresses Json Settlement Nodes Utxo UtxoStore Headers RewardStore Validation Mempool Service Node Scenario Snapshots SnapshotFacts SnapshotFiles SnapshotRoundtrip SnapshotSigning SnapshotNode SnapshotTransfer SnapshotScenario.

Definition genesis_headers : HeaderDb :=
  ok_or (let* db := foldM put_header (mkHeaderDb ∅ None) (content_headers the_contents) in header_set_tip db genesis_hash 0) (mkHeaderDb ∅ None).
Definition genesis_blocks : BlockDb := ok_or (block_put (mkBlockDb ∅) genesis) (mkBlockDb ∅).

Definition source_node : NodeService := mkService chain_params (u "devnet") genesis_headers genesis_blocks
  (mkChainState (list_to_map (content_utxos the_contents)))
  (mkRegistryDb (list_to_map ((fun r => (node_id r, r)) <$> content_registry the_contents)))
  (ok_or (attestations_replace_all (mkAttestationDb ∅ ∅) (content_bundles the_contents)) (mkAttestationDb ∅ ∅))
  (ok_or (settlements_replace_all (mkSettlementDb ∅) (content_settlements the_contents)) (mkSettlementDb ∅)) None.

Definition empty_target : SnapshotNode := mkSnapshotNode (new_node chain_params (u "devnet")) ∅ (Some ∅) None.

Lemma source_exports : export_contents source_node = Ok the_contents.
Proof. vm_compute. reflexivity. Qed.

Definition returns {A} (m : res A) : bool := match m with Ok _ => true | Raise _ => false end.
Lemma returns_Ok {A} (m : res A) : returns m = true -> exists a, m = Ok a.
Proof. destruct m as [a|]; [by exists a|discriminate]. Qed.

Lemma the_transfer : exists raw metadata reported target', export_snapshot_file source_node 1700000000 1 = Ok (raw, metadata) /\
  import_snapshot_file raw false OFF [] empty_target = (Ok reported, target').
Proof.
  destruct the_files as (payload & raw & _ & Eb & Ew & _).
  destruct (written_loads _ _ _ _ _ _ _ [] the_contents_ok (or_introl eq_refl) Eb Ew) as (md & md' & tip & hash & ck & _ & _ & Hmd & Hck & Hlast & Hhash & Hload).
  injection Hlast as <-.
  assert (Hex : exists metadata, export_snapshot_file source_node 1700000000 1 = Ok (raw, metadata)).
  { unfold export_snapshot_file, export_snapshot_payload. rewrite source_exports. cbn [rbind service_network service_params source_node]. rewrite Eb. cbn [rbind]. rewrite Ew. cbn [rbind].
    unfold load_snapshot_file in Hload. apply rbind_Ok in Hload as (p & -> & Hd). apply decode_snapshot_inv in Hd as (Hp & _). cbn [rbind json_item]. unfold dget in Hp. rewrite Hp.
    by eexists. }
  destruct Hex as [metadata Hex]. exists raw, metadata. unfold import_snapshot_file. change (service_network (service_of empty_target)) with (u "devnet").
  change (service_params (service_of empty_target)) with chain_params. rewrite Hload. unfold import_snapshot. change (chain_tip (service_of empty_target)) with (@None ChainTip). cbn [bool_decide andb].
  assert (Ahash : ascii hash) by (unfold block_hash in Hhash; apply rbind_Ok in Hhash as (hraw & _ & Hhash); injection Hhash as <-; apply hex_chars).
  assert (Ehash : hash = genesis_hash) by (assert (Eg : block_hash (header genesis) = Ok genesis_hash) by (vm_compute; reflexivity); change (snapshot_header _) with (header genesis) in Hhash; congruence).
  subst hash.
  destruct (returns_Ok (foldM put_header (mkHeaderDb ∅ None) (content_headers the_contents))) as [hdb Eh]; [vm_compute; reflexivity|].
  destruct (returns_Ok (foldM block_put (mkBlockDb ∅) (content_blocks the_contents))) as [bdb Ebl]; [vm_compute; reflexivity|].
  destruct (returns_Ok (header_set_tip hdb genesis_hash 0)) as [hdb' Et]; [reflexivity|].
  destruct (returns_Ok (store_replace_all (chainstate (service_of empty_target)) (content_utxos the_contents))) as [utxos Eu]; [vm_compute; reflexivity|].
  destruct (returns_Ok (registry_store_replace_all (node_registry (service_of empty_target)) (content_registry the_contents))) as [registry Er]; [vm_compute; reflexivity|].
  destruct (returns_Ok (attestations_replace_all (reward_attestations (service_of empty_target)) (content_bundles the_contents))) as [adb Ea]; [vm_compute; reflexivity|].
  destruct (returns_Ok (settlements_replace_all (reward_settlements (service_of empty_target)) (content_settlements the_contents))) as [sdb Es]; [vm_compute; reflexivity|].
  edestruct (import_tables_succeeds (service_of empty_target) (chain_meta empty_target)) as [meta' Ei];
    [exact Hmd|exact Hck|exact Ahash|done|done|by apply small_int|exact Eh|exact Ebl|exact Et|exact Eu|exact Er|exact Ea|exact Es|].
  rewrite Ei. change (bool_decide (is_Some (@None ChainTip))) with false. cbn [andb chain_meta]. rewrite set_chain_meta_ascii by (by apply ascii_u).
  eexists _, _. split; [exact Hex|]. cbv zeta. reflexivity.
Qed.

Lemma snapshot_transfer_witness :
  exists target' reported raw, import_snapshot_file raw false OFF [] empty_target = (Ok reported, target') /\
    chain_tip (service_of target') = Some (mkTip genesis_hash 0) /\ snapshot_anchor (service_of target') = Some (mkAnchor 0 genesis_hash) /\
    mapM (export_record (service_of target')) (zrange 1) = mapM (export_record source_node) (zrange 1) /\
    utxo_rows (chainstate (service_of target')) = utxo_rows (chainstate source_node) /\
    registry_rows (node_registry (service_of target')) = registry_rows (node_registry source_node).
Proof.
  destruct the_transfer as (raw & metadata & reported & target' & Ex & Ei).
  assert (Hw : registry_db_wf (node_registry source_node)).
  { intros i r Hr. apply elem_of_list_to_map_2, list_elem_of_singleton in Hr. injection Hr as -> ->. reflexivity. }
  assert (Hh : mapM (fun r => block_hash (snapshot_header r)) (content_headers the_contents) = Ok [genesis_hash]) by (vm_compute; reflexivity).
  destruct (snapshot_transfer source_node empty_target target' 1700000000 1 the_contents raw metadata reported false [] [genesis_hash] source_exports the_contents_ok
    Hw Hh (NoDup_singleton genesis_hash) (or_introl eq_refl) Ex eq_refl eq_refl Ei) as (tip & hash & Ht & Hl & H1 & H2 & H3 & H4 & H5 & _).
  assert (Etip : chain_tip source_node = Some (mkTip genesis_hash 0)) by (vm_compute; reflexivity). rewrite Etip in Ht. injection Ht as <-. injection Hl as <-.
  exists target', reported, raw. exact (conj Ei (conj H1 (conj H2 (conj H3 (conj H4 H5))))).
Defined.

(** ** The index of an empty chain after an import *)

Definition the_loaded : LoadedSnapshot := mkLoaded
  [(u "checksum_sha256", JStr (u "00")); (u "format_version", JInt 1); (u "snapshot_block_hash", JStr genesis_hash); (u "snapshot_height", JInt 0)]
  (content_headers the_contents) [genesis] (content_utxos the_contents) (content_registry the_contents) [] [] 0 0 [] [].

Definition after_import : SnapshotNode := (import_snapshot the_loaded false empty_target).2.

Lemma the_loaded_imported : import_snapshot the_loaded false empty_target = (Ok tt, after_import).
Proof.
  assert (E : returns (import_snapshot the_loaded false empty_target).1 = true) by (vm_compute; reflexivity).
  unfold after_import. destruct (import_snapshot the_loaded false empty_target) as [[[]|e] sn]; [done|discriminate E].
Qed.

Lemma stale_index_after_import_witness :
  find_in_active_chain genesis_txid after_import = (Ok None, after_import) /\
  exists index, _build_active_chain_transaction_index (service_of after_import) = Ok index /\ index !! genesis_txid = Some (genesis_hash, 0).
Proof.
  split; [exact (stale_index_after_import the_loaded false empty_target after_import ∅ genesis_txid the_loaded_imported eq_refl (lookup_empty _))|].
  destruct (returns_Ok (_build_active_chain_transaction_index (service_of after_import))) as [index E]; [vm_compute; reflexivity|]. exists index. split; [exact E|].
  assert (Hc : (match _build_active_chain_transaction_index (service_of after_import) with Ok ix => ix !! genesis_txid | Raise _ => None end) = Some (genesis_hash, 0)) by (vm_compute; reflexivity).
  rewrite E in Hc. exact Hc.
Defined.
