(* ===== verification/PeerScenario.v ===== *)
(** * A misbehaving peer

    A node restarts over a table with one peer, operator-configured, first met at time
    10 and with a misbehaviour score of 95.  The theorems of [PeerFacts.v] and
    [PeerBans.v] are applied to it. *)

From S2P Require Import Prelude PyState PyOrder PyText Models UtxoStore PeerBook PeerPolicy PeerFacts PeerBans.

Definition peer_net : str := u "devnet".
Definition bad_host : str := u "203.0.113.9".
Definition second_clock (n : nat) : Z := 1000 + Z.of_nat n.

Definition bad_peer : PeerInfo :=
  mkPeer bad_host 18444 peer_net (Some (u "manual")) (Some 10) (Some (u "outbound")) (Some 900) (Some 900) None (Some 0) (Some 3) (Some true) (Some 7) (Some (u "aa"))
    (Some 2) (Some 0) (Some 0) None None None (Some 1) (Some 900) (Some 95) (Some 950) None (Some (u "invalid_tx")) (Some 950).

Definition at_start : PeerState := mkPeerState ∅ {[ key_of bad_peer := bad_peer ]} 0.
Definition runtime_start : RuntimePeers := mkRuntimePeers at_start [(bad_host, 18444)] [((bad_host, 18444), u "manual")].

Definition light_incident : Incident :=
  mkIncident bad_host 18444 "invalid_tx" 10 (Some (u "inbound")) (Some true) None None None None None None (Some (u "invalid tx")) (Some (u "invalid_tx")) None false.

Lemma start_keyed : keyed (peer_rows at_start).
Proof. apply map_Forall_singleton. reflexivity. Qed.

Lemma start_dated : all_dated (peer_rows at_start).
Proof. apply map_Forall_singleton. intros _. by eexists. Qed.

(** The book is listed before the runtime starts and resets the sessions; then the
    configured target is added, and another peer seen. *)
Definition after_list : PeerState := (list_peers peer_net at_start).2.
Definition after_reset : PeerState := (reset_peer_session_state peer_net after_list).2.
Definition after_add : PeerState := (add_peer second_clock peer_net bad_host 18444 (u "manual") after_reset).2.
Definition after_seen : PeerState := (add_peer second_clock peer_net (u "198.51.100.7") 18444 (u "discovered") after_add).2.

(** A call that is seen to return *)
Definition returned {S A} (run : res A * S) : bool := match run.1 with Ok _ => true | Raise _ => false end.

Lemma returned_runs {S A} (m : stm S A) s : returned (m s) = true -> exists a, m s = (Ok a, (m s).2).
Proof. unfold returned. destruct (m s) as [[a|e] s']; [by exists a|done]. Qed.

Lemma start_restarted : restarted at_start = at_start.
Proof. reflexivity. Qed.

Lemma adds_return : returned (list_peers peer_net at_start) && returned (reset_peer_session_state peer_net after_list) &&
  returned (add_peer second_clock peer_net bad_host 18444 (u "manual") after_reset) &&
  returned (add_peer second_clock peer_net (u "198.51.100.7") 18444 (u "discovered") after_add) = true.
Proof. vm_compute. reflexivity. Qed.

Lemma the_peer_run : rtc (peer_step second_clock peer_net 18444) (restarted at_start) after_seen.
Proof.
  destruct (andb_prop _ _ adds_return) as [H H4]. destruct (andb_prop _ _ H) as [H' H3]. destruct (andb_prop _ _ H') as [H1 H2]. rewrite start_restarted.
  destruct (returned_runs _ _ H1) as [l E1], (returned_runs _ _ H2) as [[] E2], (returned_runs _ _ H3) as [p3 E3], (returned_runs _ _ H4) as [p4 E4].
  eapply rtc_l; [exact (step_list_peers _ _ _ _ _ _ E1)|]. eapply rtc_l; [exact (step_reset_sessions _ _ _ _ _ E2)|].
  eapply rtc_l; [exact (step_add_peer _ _ _ _ _ _ _ _ _ E3)|]. eapply rtc_l; [exact (step_add_peer _ _ _ _ _ _ _ _ _ E4)|]. apply rtc_refl.
Qed.

Lemma lists_return : returned (list_peers peer_net after_seen) && returned (list_peers peer_net (restarted after_seen)) = true.
Proof. vm_compute. reflexivity. Qed.

Lemma peers_survive_restart_witness : exists l s2 l' s3,
  list_peers peer_net after_seen = (Ok l, s2) /\ list_peers peer_net (restarted after_seen) = (Ok l', s3) /\ sans_first_seen <$> l' = sans_first_seen <$> l.
Proof.
  destruct (andb_prop _ _ lists_return) as [H1 H2]. destruct (returned_runs _ _ H1) as [l E1], (returned_runs _ _ H2) as [l' E2].
  exists l, (list_peers peer_net after_seen).2, l', (list_peers peer_net (restarted after_seen)).2. split; [exact E1|]. split; [exact E2|].
  exact (peers_survive_restart second_clock peer_net 18444 at_start after_seen _ _ _ _ start_keyed start_dated the_peer_run E1 E2).
Defined.

(** Two peers are listed. *)
Example listed_two : match (list_peers peer_net after_seen).1 with Ok l => peer_host <$> l | Raise _ => [] end = [u "198.51.100.7"; bad_host].
Proof. vm_compute. reflexivity. Qed.

(** The time of the first contact of a configured peer: the table keeps it, the book
    that is shown has the time of the start. *)
Example configured_first_seen :
  let run := _persist_configured_peer_targets second_clock peer_net runtime_start in
  let shown := list_peers peer_net (runtime_peers run.2) in
  (match shown.1 with Ok l => peer_first_seen <$> l | Raise _ => [] end, peer_first_seen <$> (peer_rows shown.2 !! key_of bad_peer)) = ([Some 1000], Some (Some 10)).
Proof. vm_compute. reflexivity. Qed.

(** ** The incident *)

Definition loaded_runtime : RuntimePeers := mkRuntimePeers (list_peers peer_net at_start).2 [(bad_host, 18444)] [((bad_host, 18444), u "manual")].

Lemma start_lists : returned (list_peers peer_net at_start) = true.
Proof. vm_compute. reflexivity. Qed.

Lemma loaded_tracked : tracked peer_net (runtime_peers loaded_runtime).
Proof.
  destruct (returned_runs _ _ start_lists) as [l E]. rewrite <- start_restarted in E at 1.
  exact (stays_returns peer_net (list_peers peer_net) (restarted at_start) l _ (stays_list peer_net) (restarted_tracked peer_net at_start start_keyed) E).
Qed.

Definition banned_run : res string * RuntimePeers := _observe_peer_misbehavior second_clock peer_net default_settings light_incident loaded_runtime.

Lemma banned_answer : banned_run = (Ok "ban"%string, banned_run.2).
Proof. rewrite (surjective_pairing banned_run) at 1. assert (H : banned_run.1 = Ok "ban"%string) by (vm_compute; reflexivity). by rewrite H. Qed.

Lemma banned_time : time_of second_clock (runtime_peers banned_run.2) < time_of second_clock (runtime_peers loaded_runtime) + misbehavior_ban_duration_seconds default_settings.
Proof. vm_compute. reflexivity. Qed.

Lemma ban_takes_effect_witness : exists r', banned_run = (Ok "ban"%string, banned_run.2) /\
  _is_peer_currently_banned second_clock peer_net bad_host 9999 banned_run.2 = (Ok true, r').
Proof.
  destruct (ban_takes_effect second_clock peer_net default_settings light_incident loaded_runtime "ban" banned_run.2) as (_ & _ & Hb);
    [exact loaded_tracked|vm_compute; reflexivity|vm_compute; discriminate|exact banned_answer|].
  destruct (Hb banned_time 9999) as [r' Hr]. exists r'. exact (conj banned_answer Hr).
Defined.

(** The same incident after a handshake is only observed. *)
Definition handshake_run : res PeerInfo * RuntimePeers :=
  observe_handshake second_clock peer_net bad_host 18444 (Some (u "outbound")) (u "manual") 8 (u "aa") loaded_runtime.
Definition greeted_peer : PeerInfo := match handshake_run.1 with Ok p => p | Raise _ => bad_peer end.

Lemma handshake_returns : returned handshake_run = true.
Proof. vm_compute. reflexivity. Qed.

Lemma handshake_answer : handshake_run = (Ok greeted_peer, handshake_run.2).
Proof. unfold greeted_peer. generalize handshake_returns. by destruct handshake_run as [[p|e] r]. Qed.

Lemma handshake_forgives_misbehavior_witness :
  (misbehavior_action default_settings light_incident (Some bad_peer) 1000).1.1 = "ban"%string /\
  handshake_run = (Ok greeted_peer, handshake_run.2) /\
  (misbehavior_action default_settings light_incident (Some greeted_peer) 1000).1.1 ≠ "ban"%string.
Proof.
  split; [vm_compute; reflexivity|]. split; [exact handshake_answer|].
  apply (handshake_forgives_misbehavior second_clock peer_net default_settings bad_host 18444 (Some (u "outbound")) (u "manual") 8 (u "aa") loaded_runtime greeted_peer handshake_run.2);
    [exact loaded_tracked|exact handshake_answer|reflexivity].
Defined.
